(* ===== verification/_CoqProject ===== *)
-Q . S2P
Prelude.v
Errors.v
Contract.v
Externals.v
Locks.v
Validation.v
Chunks.v
Fingerprint.v
Pagination.v
Tables.v
Store.v
Storage.v
Uploads.v
Receipts.v
Completion.v
Deletion.v
Recovery.v
Archive.v
Invariants.v
Assembly.v
Publication.v
Reclamation.v
Visibility.v
Catalogue.v
Lifecycle.v
Ledger.v
Restart.v
Outcomes.v
Removal.v
Collection.v
System.v
Filing.v
Refinement.v
Reconcile.v
Canonical.v
Documents.v
Retrieval.v
Download.v
Delivery.v
Integrity.v
Scanning.v
Certification.v
Config.v
Inventory.v
Apart.v
Bootstrap.v
Disk.v
Scenario.v
Maintenance.v
Backup.v
Safekeeping.v
Attestation.v
Restoration.v
Survival.v
Resumption.v
Feasibility.v
Cli.v
Drill.v
