(* ===== verification/Prelude.v ===== *)
(** * Patwari: a verification library for the archive server

    [patwari-server] (Rust, [src/crates/patwari-server/src/]) keeps complete
    sessions of coding agents: a client uploads the artifacts of a capture in
    chunks, the server verifies every byte and publishes an immutable snapshot;
    snapshots are listed, downloaded, retired; the whole archive is scanned,
    backed up and restored. Metadata is in SQLite, the bytes in files named by
    their digest. This library is a model of that code with the theorems that
    make it correct. The other files build on this one, which holds results,
    machine integers, strings as sequences of UTF-8 bytes and list lemmas.

    ** How the code is modelled

    - Pure code is a function with the source's checks in the source's order.
      An integer is a [Z] kept in its range by the checked conversions of this
      file (u64, i64, u32, u16); [Result] is [res] with [let?]; a string is its
      bytes.
    - A handler is a function of the state monad of Store.v: [M E A] takes the
      committed tables, the files and a counter of operations. The class [Env]
      tells of each numbered operation whether it fails and what the clock says.
      A process killed in a request is the environment in which every operation
      from some point on fails; a transaction that does not commit leaves the
      tables as they were; a directory removal or a copy may stop half way. A
      theorem over all environments is a theorem about every failure and every
      crash point.
    - [wp m Q s] says that [Q] holds of the result and the store of [m] from
      [s], for every counter; its rules (Store.v) are the program logic of the
      library.
    - Tables are lists of rows in insertion order (Tables.v, a Module per
      table); SELECT filters, INSERT appends after the uniqueness checks.
    - Requests on one upload, snapshot or blob are serialized by lock stripes
      (Locks.v), so the server is one request at a time (System.v). What runs
      across processes, backups against requests, is modelled with every
      interleaving of system calls (Maintenance.v).

    ** The files

    Interfaces and pure parts.
    - Errors.v: [error.rs], with the error types of the gate and of backups.
    - Contract.v: [contract.rs], documents and their enumerations.
    - Externals.v: the crates the server calls, as classes with laws.
    - Validation.v: [validation.rs]. Chunks.v: chunk layouts, bitmaps, hashing.
      Fingerprint.v: canonical documents, digests of older servers, the snapshot
      fingerprint ([ingestion.rs]).
    - Pagination.v: [pagination.rs]. Config.v: [config.rs].
    - Locks.v: the stripes of [service.rs] and the order the handlers take them.

    State and handlers.
    - Tables.v, Store.v, Storage.v: the migrations, effects, [storage.rs].
    - Uploads.v, Completion.v, Receipts.v, Recovery.v: [ingestion.rs].
    - Deletion.v: [deletion.rs]. Documents.v, Retrieval.v, Download.v:
      [retrieval.rs]. Reconcile.v: [reconcile_snapshot]. Inventory.v:
      [inventory.rs]. Integrity.v: [integrity.rs]. Bootstrap.v: [database.rs],
      [health.rs] and the start in [service.rs]. System.v: the routes.
    - Maintenance.v: [maintenance.rs] and its callers. Disk.v and Backup.v:
      [backup.rs]. Cli.v: [main.rs].

    Theories.
    - Archive.v, Invariants.v, Assembly.v, Publication.v, Reclamation.v,
      Visibility.v, Ledger.v, Restart.v, System.v: every request and every
      restart, from any point where the last one was cut short, keeps the store
      sound; so every reachable store restores every artifact of every live
      snapshot, keeps uploads distinct and accepted chunks on disk.
    - Catalogue.v, Filing.v, Refinement.v: the abstract archive publishes and
      retires snapshots, and the server refines it: a published snapshot never
      changes, and its identifier never names another.
    - Outcomes.v, Lifecycle.v, Removal.v, Collection.v: what each answer of the
      writing handlers means, on every branch, and what a collection removes,
      whatever fails, and removes for certain when nothing does.
    - Canonical.v, Delivery.v: live snapshots are the projection of their
      manifest; downloads deliver exactly the bytes it announces.
    - Scanning.v, Certification.v: a scan only observes, its report is the
      account of what it recorded, and a healthy report certifies the archive.
    - Apart.v, Bootstrap.v, Config.v: a start takes up any reached archive under
      one identity; the environment is read exactly and the configuration keeps
      its promises to the handlers.
    - Safekeeping.v, Attestation.v, Restoration.v, Survival.v, Resumption.v,
      Feasibility.v: a backup is complete or not there, its validation is exact,
      a restore replaces an empty destination by a surveyed copy or leaves it
      empty, what was backed up is what is restored, a server goes on from it,
      and a backup of an archive at rest succeeds. Maintenance.v: nobody else touches the
      archive while a backup reads it; waits end. Cli.v: lines and exit codes
      tell the truth.
    - Scenario.v, Drill.v: the theorems on a concrete run, by evaluation.

    ** Interfaces between the parts

    The handlers are proved against predicates of the store, not against each
    other: [DbInvariant] and [DrawStable] (Store.v) are the classes of the
    invariants that no change of the files, and no drawn identifier, can break. [reachable]
    (System.v) is the closure of [serve] from an empty archive, with any
    environment for each step; Refinement, Delivery and Bootstrap use only its
    invariants. The host of a backup is a store whose files are the whole file
    system; the service on a staged copy runs in the subtree of its directory,
    on the tables the database file holds ([service_in]). Restoration uses the
    scanner only through its specifications in Certification ([scan_observes],
    [scan_certifies]).

    ** What is a parameter

    Code that is not in the repository is an argument with the laws the code
    relies on: time formatting ([TimeLib]), UUIDs ([UuidLib]: drawn identifiers
    are distinct), SHA-256 ([ShaLib]: 32 bytes; no collision-freedom is assumed,
    theorems that need it name the collision), zstd ([ZstdLib]), media types,
    serde_json ([JsonLib], [CursorCodec], [FilterJson], [BackupJson]: round
    trips), base64 and header syntax ([HttpLib]), file stamps ([FileStamps]),
    SQLite's own checks ([SqliteChecks]) and files ([SqliteFiles]: a database
    file holds tables), socket addresses, symbolic links and devices ([Host]),
    the permit of a backup ([Gate]) and the paths of the command line
    ([Console]). Externals, Scenario and Drill instantiate them with small
    concrete functions, on which the witnesses run.

    ** Bounds and fuel

    Recursion is structural but for a few loops. [decimal_digits] has 20 digits,
    enough for 64 bits; [has_file_ancestor] has one round per character of the
    path, which every round shortens; [scan_pages] has one round per row and one
    more, and more rounds change nothing ([page_loops_end]); the loops of
    Maintenance are steps of a relation, and a theorem there bounds the wait for
    the exclusive lock. [usize] has 64 bits.

    ** Not modelled

    The HTTP framework (axum: routing of texts, headers as bytes, timeouts but
    for the answer to one), the connection pool, the running of the migrations
    and the SQL engine itself (sqlx, SQLite), logs, the signal that ends the
    service, and the test hooks of [service.rs], which only the tests compile.
    Row structs of single queries have no definition of their own: the queries
    return the rows of Tables.v. The tasks a scan runs together run one after
    the other, since they only read. A call that a cancelled request was in
    when it was dropped (tokio's blocking file operations, sqlx's statements)
    is taken not to be carried out any more (Maintenance.v). *)
From stdpp Require Import prelude strings gmap sorting list.
From Stdlib Require Import ZArith NArith Ascii Lia.
From Stdlib.Strings Require Import Byte.

(* ------------------------------------------------------------------ *)
(** ** Results: Rust's [Result<A, E>] and the [?] operator *)

Inductive res (E A : Type) : Type :=
| Ok (a : A)
| Err (e : E).
Arguments Ok {E A} _.
Arguments Err {E A} _.

Definition res_bind {E A B} (c : res E A) (k : A -> res E B) : res E B :=
  match c with
  | Ok a => k a
  | Err e => Err e
  end.

Definition res_map_err {E F A} (f : E -> F) (c : res E A) : res F A :=
  match c with
  | Ok a => Ok a
  | Err e => Err (f e)
  end.

(** [Option::ok_or]. *)
Definition ok_or {E A} (o : option A) (e : E) : res E A :=
  match o with
  | Some a => Ok a
  | None => Err e
  end.

Declare Scope rust_scope.
Delimit Scope rust_scope with rust.
Notation "'let?' p ':=' c 'in' k" := (res_bind c (fun p => k))
  (at level 10, p pattern, c at level 100, k at level 200) : rust_scope.
Notation "c '?;' k" := (res_bind c (fun _ => k))
  (at level 100, k at level 200, right associativity) : rust_scope.
(** [if b { return Err(e); } k] *)
Notation "'reject' b 'with' e ';' k" := (if (b : bool) then Err e else k)
  (at level 10, b at level 100, e at level 100, k at level 200) : rust_scope.
Open Scope rust_scope.

Definition is_ok {E A} (c : res E A) : bool :=
  match c with Ok _ => true | Err _ => false end.

Lemma res_bind_Ok {E A B} (c : res E A) (k : A -> res E B) b :
  res_bind c k = Ok b <-> exists a, c = Ok a /\ k a = Ok b.
Proof. destruct c; naive_solver. Qed.

Lemma res_map_err_Ok {E F A} (f : E -> F) (c : res E A) a :
  res_map_err f c = Ok a <-> c = Ok a.
Proof. destruct c; naive_solver. Qed.

Lemma ok_or_Ok {E A} (o : option A) (e : E) a : ok_or o e = Ok a <-> o = Some a.
Proof. destruct o; naive_solver. Qed.

Lemma reject_Ok {E A} (b : bool) (e : E) (k : res E A) a :
  (if b then Err e else k) = Ok a <-> b = false /\ k = Ok a.
Proof. destruct b; naive_solver. Qed.

(** Inverts every [Ok] equation of the context, one [?] at a time. *)
Ltac inv_res_step :=
  match goal with
  | H : res_bind _ _ = Ok _ |- _ =>
      let x := fresh "x" in let Hx := fresh "Hx" in
      apply res_bind_Ok in H as (x & Hx & H)
  | H : res_map_err _ _ = Ok _ |- _ => apply res_map_err_Ok in H
  | H : ok_or _ _ = Ok _ |- _ => apply ok_or_Ok in H
  | H : (if ?b then Err _ else _) = Ok _ |- _ =>
      let Hb := fresh "Hb" in apply reject_Ok in H as [Hb H]
  | H : Ok _ = Ok _ |- _ => injection H as H
  | H : Err _ = Ok _ |- _ => discriminate H
  | u : unit |- _ => destruct u
  | H : tt = tt |- _ => clear H
  end.
Ltac inv_res := repeat (inv_res_step; simplify_eq/=).

(** The other direction: a goal that runs the same checks again. *)
Ltac replay_res :=
  repeat (match goal with
          | H : ?c = Ok _ |- context [?c] => rewrite H
          | H : ?o = Some _ |- context [?o] => rewrite H
          | H : ?b = false |- context [if ?b then _ else _] => rewrite H
          end; cbn [res_bind ok_or res_map_err]);
  try reflexivity.

(* ------------------------------------------------------------------ *)
(** ** Machine integers

    A [u64] is a [Z] in [0, u64_max]; an [i64] a [Z] in [i64_min, i64_max].
    The checked operations return [None] exactly where Rust's do. *)

Open Scope Z_scope.

Definition u16_max : Z := 65535.
Definition u32_max : Z := 4294967295.
Definition u64_max : Z := 18446744073709551615.
Definition i64_max : Z := 9223372036854775807.
Definition i64_min : Z := -9223372036854775808.

Definition is_u64 (z : Z) : Prop := 0 <= z <= u64_max.

Definition checked_add_u64 (a b : Z) : option Z :=
  if a + b <=? u64_max then Some (a + b) else None.
Definition checked_sub_u64 (a b : Z) : option Z :=
  if b <=? a then Some (a - b) else None.
Definition checked_mul_u64 (a b : Z) : option Z :=
  if a * b <=? u64_max then Some (a * b) else None.
Definition checked_div_u64 (a b : Z) : option Z :=
  if b =? 0 then None else Some (a / b).
(** [i64::try_from(u64)] *)
Definition u64_to_i64 (a : Z) : option Z := if a <=? i64_max then Some a else None.
(** [u64::try_from(i64)] *)
Definition i64_to_u64 (a : Z) : option Z := if 0 <=? a then Some a else None.
(** [u32::try_from], from a wider integer *)
Definition to_u32 (a : Z) : option Z :=
  if (0 <=? a) && (a <=? u32_max) then Some a else None.

(** [u16::try_from], from a wider integer *)
Definition to_u16 (a : Z) : option Z :=
  if (0 <=? a) && (a <=? u16_max) then Some a else None.

Lemma checked_add_u64_Some a b c :
  checked_add_u64 a b = Some c <-> c = a + b /\ a + b <= u64_max.
Proof. unfold checked_add_u64. destruct (Z.leb_spec (a + b) u64_max); naive_solver lia. Qed.
Lemma checked_add_u64_fits a b : a + b <= u64_max -> checked_add_u64 a b = Some (a + b).
Proof. intros. by apply checked_add_u64_Some. Qed.
Lemma checked_sub_u64_Some a b c :
  checked_sub_u64 a b = Some c <-> c = a - b /\ b <= a.
Proof. unfold checked_sub_u64. destruct (Z.leb_spec b a); naive_solver lia. Qed.
Lemma checked_mul_u64_Some a b c :
  checked_mul_u64 a b = Some c <-> c = a * b /\ a * b <= u64_max.
Proof. unfold checked_mul_u64. destruct (Z.leb_spec (a * b) u64_max); naive_solver lia. Qed.
Lemma u64_to_i64_Some a c : u64_to_i64 a = Some c <-> c = a /\ a <= i64_max.
Proof. unfold u64_to_i64. destruct (Z.leb_spec a i64_max); naive_solver lia. Qed.
Lemma u64_to_i64_fits a : a <= i64_max -> u64_to_i64 a = Some a.
Proof. intros. by apply u64_to_i64_Some. Qed.
Lemma i64_to_u64_Some a c : i64_to_u64 a = Some c <-> c = a /\ 0 <= a.
Proof. unfold i64_to_u64. destruct (Z.leb_spec 0 a); naive_solver lia. Qed.

(* ------------------------------------------------------------------ *)
(** ** Strings: a Rust [&str] is its sequence of UTF-8 bytes *)

Definition chars (s : string) : list ascii := String.list_ascii_of_string s.
Definition of_chars (l : list ascii) : string := String.string_of_list_ascii l.
(** [str::len]: a number of bytes. *)
Definition str_len (s : string) : Z := Z.of_nat (String.length s).
Definition code (c : ascii) : N := N_of_ascii c.

(** [str::strip_prefix] *)
Fixpoint strip_prefix (p s : string) : option string :=
  match p, s with
  | String.EmptyString, _ => Some s
  | String.String a p', String.String b s' => if bool_decide (a = b) then strip_prefix p' s' else None
  | String.String _ _, String.EmptyString => None
  end.

(** [str::split] on one ASCII character: never the empty list. *)
Fixpoint split_on (c : ascii) (l : list ascii) : list (list ascii) :=
  match l with
  | [] => [[]]
  | x :: l' =>
      if bool_decide (x = c) then [] :: split_on c l'
      else match split_on c l' with
           | [] => [[x]]
           | w :: ws => (x :: w) :: ws
           end
  end.

(** [u8::is_ascii_control] and its siblings *)
Definition is_ascii_control (c : ascii) : bool := ((code c <=? 31) || (code c =? 127))%N.
Definition is_ascii (c : ascii) : bool := (code c <=? 127)%N.
Definition is_ascii_digit (c : ascii) : bool := ((48 <=? code c) && (code c <=? 57))%N.
Definition is_ascii_lowercase (c : ascii) : bool := ((97 <=? code c) && (code c <=? 122))%N.
Definition is_ascii_uppercase (c : ascii) : bool := ((65 <=? code c) && (code c <=? 90))%N.
Definition is_ascii_alphanumeric (c : ascii) : bool :=
  is_ascii_digit c || is_ascii_lowercase c || is_ascii_uppercase c.
Definition is_ascii_hexdigit (c : ascii) : bool :=
  is_ascii_digit c || ((97 <=? code c) && (code c <=? 102))%N
  || ((65 <=? code c) && (code c <=? 70))%N.
Definition to_ascii_lowercase_char (c : ascii) : ascii :=
  if is_ascii_uppercase c then ascii_of_N (code c + 32) else c.
Definition to_ascii_uppercase_char (c : ascii) : ascii :=
  if is_ascii_lowercase c then ascii_of_N (code c - 32) else c.
Definition to_ascii_lowercase (s : string) : string :=
  of_chars (map to_ascii_lowercase_char (chars s)).
Definition to_ascii_uppercase (s : string) : string :=
  of_chars (map to_ascii_uppercase_char (chars s)).

(** [str::trim().is_empty()]: only characters with the Unicode property
    White_Space, in their UTF-8 encoding. *)
Definition ascii_space (c : N) : bool := ((9 <=? c) && (c <=? 13) || (c =? 32))%N.
Definition two_byte_space (a b : N) : bool := ((a =? 194) && ((b =? 133) || (b =? 160)))%N.
Definition three_byte_space (a b c : N) : bool :=
  ((a =? 225) && (b =? 154) && (c =? 128)
   || (a =? 226) && (b =? 128) && ((128 <=? c) && (c <=? 138) || (c =? 168) || (c =? 169) || (c =? 175))
   || (a =? 226) && (b =? 129) && (c =? 159)
   || (a =? 227) && (b =? 128) && (c =? 128))%N.
Fixpoint all_space (l : list N) : bool :=
  match l with
  | [] => true
  | a :: l1 =>
      if ascii_space a then all_space l1
      else match l1 with
           | [] => false
           | b :: l2 =>
               if two_byte_space a b then all_space l2
               else match l2 with
                    | [] => false
                    | c :: l3 => if three_byte_space a b c then all_space l3 else false
                    end
           end
  end.
Definition trim_is_empty (s : string) : bool := all_space (map code (chars s)).

(** [str::parse::<u64>] and [::<u32>], [::<usize>]: one optional [+], then at
    least one decimal digit, and no overflow. *)
Definition digit_value (c : ascii) : Z := Z.of_N (code c) - 48.
Definition decimal_value (l : list ascii) : Z :=
  fold_left (fun acc c => 10 * acc + digit_value c) l 0.
Definition parse_uint (max : Z) (s : string) : option Z :=
  let digits := match chars s with
                | "+"%char :: l => l
                | l => l
                end in
  if bool_decide (digits = []) || negb (forallb is_ascii_digit digits) then None
  else if decimal_value digits <=? max then Some (decimal_value digits) else None.

(** The decimal digits of a machine integer ([u64::to_string]). *)
Fixpoint decimal_digits (fuel : nat) (n : Z) (acc : list ascii) : list ascii :=
  match fuel with
  | O => acc
  | S fuel =>
      let acc := ascii_of_N (Z.to_N (48 + n mod 10)) :: acc in
      if n <? 10 then acc else decimal_digits fuel (n / 10) acc
  end.
Definition to_decimal (n : Z) : string := of_chars (decimal_digits 20 n []).

Create HintDb patwari.

Lemma of_chars_chars s : of_chars (chars s) = s.
Proof. apply String.string_of_list_ascii_of_string. Qed.
Lemma chars_of_chars l : chars (of_chars l) = l.
Proof. apply String.list_ascii_of_string_of_list_ascii. Qed.
#[export] Hint Rewrite of_chars_chars chars_of_chars : patwari.

#[export] Instance chars_inj : Inj (=) (=) chars.
Proof. intros s t E. by rewrite <-(of_chars_chars s), E, of_chars_chars. Qed.
#[export] Instance of_chars_inj : Inj (=) (=) of_chars.
Proof. intros s t E. by rewrite <-(chars_of_chars s), E, chars_of_chars. Qed.

Lemma length_chars s : length (chars s) = String.length s.
Proof. induction s as [|c s IH]; simpl; [done|]. by rewrite <-IH. Qed.

Lemma chars_app s t : chars (s +:+ t) = chars s ++ chars t.
Proof. induction s as [|c s IH]; simpl; [done|]. by rewrite <-IH. Qed.
Lemma of_chars_app k l : of_chars (k ++ l) = of_chars k +:+ of_chars l.
Proof. apply (inj chars). by rewrite chars_app, !chars_of_chars. Qed.

Lemma strip_prefix_Some p s t : strip_prefix p s = Some t <-> s = p +:+ t.
Proof.
  revert s; induction p as [|a p IH]; intros [|b s]; simpl.
  - change (""%string +:+ t) with t. split; congruence.
  - change (""%string +:+ t) with t. split; congruence.
  - by split.
  - change (String.String a p +:+ t) with (String.String a (p +:+ t)).
    case_bool_decide as Hab; [rewrite IH; subst|]; split; congruence.
Qed.

(** The inverse of [split_on]: [Vec::join]. *)
Fixpoint join_on (c : ascii) (ws : list (list ascii)) : list ascii :=
  match ws with
  | [] => []
  | [w] => w
  | w :: ws => w ++ c :: join_on c ws
  end.

Lemma split_on_nonempty c l : split_on c l <> [].
Proof. destruct l as [|x l]; simpl; [done|]. case_bool_decide; [done|]. by destruct (split_on c l). Qed.

Lemma join_split c l : join_on c (split_on c l) = l.
Proof.
  induction l as [|x l IH]; [done|]. simpl.
  pose proof (split_on_nonempty c l) as Hne.
  case_bool_decide as Hx.
  - revert IH Hne. by destruct (split_on c l); intros <-; subst.
  - revert IH Hne. by destruct (split_on c l) as [|w [|v ws]]; intros <-.
Qed.

Lemma split_on_no_sep c l w : w ∈ split_on c l -> c ∉ w.
Proof.
  revert w; induction l as [|x l IH]; intros w; simpl.
  - intros [->|[]%elem_of_nil]%elem_of_cons. apply not_elem_of_nil.
  - pose proof (split_on_nonempty c l) as Hne. case_bool_decide as Hx.
    + intros [->|Hw]%elem_of_cons; [apply not_elem_of_nil|auto].
    + destruct (split_on c l) as [|v vs]; [done|].
      intros [->|Hw]%elem_of_cons; [|apply IH; by right].
      rewrite not_elem_of_cons. split; [done|]. apply IH. left.
Qed.

Lemma existsb_false {A} (f : A -> bool) l : existsb f l = false <-> forall x, x ∈ l -> f x = false.
Proof.
  induction l as [|y l IH]; simpl; [set_solver|].
  rewrite orb_false_iff, IH. set_solver.
Qed.
Lemma existsb_true {A} (f : A -> bool) l : existsb f l = true <-> exists x, x ∈ l /\ f x = true.
Proof.
  rewrite List.existsb_exists. by setoid_rewrite list_elem_of_In.
Qed.
Lemma forallb_true {A} (f : A -> bool) l : forallb f l = true <-> forall x, x ∈ l -> f x = true.
Proof.
  rewrite List.forallb_forall. by setoid_rewrite list_elem_of_In.
Qed.

(** Splits boolean hypotheses and turns their atoms into propositions. *)
Ltac bool_to_prop :=
  repeat match goal with
  | H : _ || _ = false |- _ => apply orb_false_iff in H as [? H]
  | H : _ && _ = true |- _ => apply andb_true_iff in H as [? H]
  | H : negb _ = false |- _ => apply negb_false_iff in H
  | H : negb _ = true |- _ => apply negb_true_iff in H
  | H : bool_decide _ = false |- _ => apply bool_decide_eq_false in H
  | H : bool_decide _ = true |- _ => apply bool_decide_eq_true in H
  | H : (_ <? _) = false |- _ => apply Z.ltb_ge in H
  | H : (_ <? _) = true |- _ => apply Z.ltb_lt in H
  | H : (_ <=? _) = true |- _ => apply Z.leb_le in H
  | H : (_ <=? _) = false |- _ => apply Z.leb_gt in H
  | H : (_ =? _) = true |- _ => apply Z.eqb_eq in H
  | H : (_ =? _) = false |- _ => apply Z.eqb_neq in H
  | H : existsb _ _ = false |- _ => rewrite existsb_false in H
  | H : forallb _ _ = true |- _ => rewrite forallb_true in H
  end.

(** Sums of a field over a list of rows. *)
Definition sum_of {A} (f : A -> Z) (l : list A) : Z := foldr (fun a acc => f a + acc) 0 l.

Lemma sum_of_app {A} (f : A -> Z) k l : sum_of f (k ++ l) = sum_of f k + sum_of f l.
Proof. induction k; simpl; lia. Qed.
Lemma sum_of_ext {A} (f g : A -> Z) l : (forall a, a ∈ l -> f a = g a) -> sum_of f l = sum_of g l.
Proof.
  induction l as [|a l IH]; intros H; simpl; [done|].
  rewrite (H a) by left. by rewrite IH by (intros; apply H; by right).
Qed.
Lemma sum_of_nonneg {A} (f : A -> Z) l : Forall (fun a => 0 <= f a) l -> 0 <= sum_of f l.
Proof. induction 1; simpl; lia. Qed.
Lemma sum_of_Permutation {A} (f : A -> Z) k l : k ≡ₚ l -> sum_of f k = sum_of f l.
Proof. induction 1; simpl; lia. Qed.
#[export] Instance sum_of_proper {A} (f : A -> Z) : Proper ((≡ₚ) ==> (=)) (sum_of f).
Proof. intros k l. apply sum_of_Permutation. Qed.

Lemma StronglySorted_filter {A} (R : relation A) (P : A -> Prop) `{!forall x, Decision (P x)} l :
  StronglySorted R l -> StronglySorted R (filter P l).
Proof.
  induction 1 as [|x l Hl IH HF]; [constructor|].
  rewrite filter_cons. case_decide; [|done]. constructor; [done|].
  apply Forall_forall. intros y [_ Hy]%list_elem_of_filter. rewrite Forall_forall in HF. auto.
Qed.

Lemma sublist_fmap {A B} (f : A -> B) (l k : list A) : l `sublist_of` k -> (f <$> l) `sublist_of` (f <$> k).
Proof. induction 1; simpl; by constructor. Qed.
Lemma list_filter_none {A} (P : A -> Prop) `{!forall x, Decision (P x)} (l : list A) :
  (forall x, x ∈ l -> ~ P x) -> filter P l = [].
Proof.
  induction l as [|x l IH]; intros HP; [done|].
  rewrite filter_cons_False by (apply HP; left). apply IH. intros; apply HP; by right.
Qed.
Lemma list_filter_id {A} (P : A -> Prop) `{!forall x, Decision (P x)} (l : list A) :
  (forall x, x ∈ l -> P x) -> filter P l = l.
Proof.
  induction l as [|x l IH]; intros HP; [done|].
  rewrite filter_cons_True by (apply HP; left). f_equal. apply IH. intros; apply HP; by right.
Qed.

(** In a list with distinct keys, a key determines the element. *)
Lemma NoDup_key_inj {A K} (f : A -> K) (l : list A) x y :
  NoDup (f <$> l) -> x ∈ l -> y ∈ l -> f x = f y -> x = y.
Proof.
  intros Hd [i Hi]%list_elem_of_lookup [j Hj]%list_elem_of_lookup E.
  assert (i = j) as ->; [|congruence].
  eapply (NoDup_lookup _ _ _ (f x)); [exact Hd|..]; rewrite list_lookup_fmap;
    [by rewrite Hi|by rewrite Hj, E].
Qed.

Lemma decimal_value_nonneg l : forallb is_ascii_digit l = true -> 0 <= decimal_value l.
Proof.
  unfold decimal_value. assert (H : forall acc, 0 <= acc -> forallb is_ascii_digit l = true ->
    0 <= fold_left (fun acc c => 10 * acc + digit_value c) l acc); [|by intros; apply H].
  induction l as [|c l IH]; intros acc Hacc; simpl; [done|].
  intros [Hc Hl]%andb_true_iff. apply IH; [|done].
  unfold is_ascii_digit in Hc. apply andb_true_iff in Hc as [Hc _]. apply N.leb_le in Hc.
  unfold digit_value. lia.
Qed.
Lemma parse_uint_Some max s z : parse_uint max s = Some z -> 0 <= z <= max.
Proof.
  unfold parse_uint. match goal with |- context [decimal_value ?k] => generalize k end. intros l.
  destruct (_ || _) eqn:E; [done|]. apply orb_false_iff in E as [_ E%negb_false_iff].
  destruct (Z.leb_spec (decimal_value l) max); [|done]. intros [= <-].
  split; [by apply decimal_value_nonneg|done].
Qed.
