(* ===== verification/Errors.v ===== *)
(** Structured API errors: [error.rs].  Every constructor of [ApiError] fixes
    the status and the stable machine code a client can switch on; the model
    keeps the exact texts, so an error of a handler is compared as a value. *)
From stdpp Require Import prelude strings.
From S2P Require Import Prelude.

Inductive StatusCode : Type :=
| UNPROCESSABLE_ENTITY | CONFLICT | FORBIDDEN | NOT_FOUND
| INTERNAL_SERVER_ERROR | SERVICE_UNAVAILABLE | OK | REQUEST_TIMEOUT.

#[export] Instance StatusCode_eq_dec : EqDecision StatusCode.
Proof. solve_decision. Defined.

(** [StatusCode::as_u16] of the [http] crate: the registered HTTP numbers. *)
Definition status_number (s : StatusCode) : Z :=
  match s with
  | UNPROCESSABLE_ENTITY => 422
  | CONFLICT => 409
  | FORBIDDEN => 403
  | NOT_FOUND => 404
  | INTERNAL_SERVER_ERROR => 500
  | SERVICE_UNAVAILABLE => 503
  | OK => 200
  | REQUEST_TIMEOUT => 408
  end.

Record ApiError : Type := mkApiError {
  status : StatusCode;
  ecode : string;
  message : string;
}.

#[export] Instance ApiError_eq_dec : EqDecision ApiError.
Proof. solve_decision. Defined.

Module Api.
Local Open Scope string_scope.

Definition new (s : StatusCode) (c m : string) : ApiError := mkApiError s c m.

Definition invalid (m : string) : ApiError :=
  new UNPROCESSABLE_ENTITY "validation_error" m.

Definition conflict (c m : string) : ApiError := new CONFLICT c m.

Definition forbidden (c m : string) : ApiError := new FORBIDDEN c m.

Definition not_found (c m : string) : ApiError := new NOT_FOUND c m.

Definition internal : ApiError :=
  new INTERNAL_SERVER_ERROR "internal_error" "archive operation could not be completed".

Definition storage : ApiError :=
  new INTERNAL_SERVER_ERROR "storage_error" "archive storage could not be used".

Definition artifact_integrity : ApiError :=
  new CONFLICT "artifact_integrity_failure" "artifact integrity verification failed".

Definition database : ApiError :=
  new INTERNAL_SERVER_ERROR "metadata_error" "archive metadata could not be used".

Definition maintenance : ApiError :=
  new SERVICE_UNAVAILABLE "maintenance_in_progress"
    "archive operations are temporarily paused for maintenance".

Definition maintenance_unavailable : ApiError :=
  new SERVICE_UNAVAILABLE "maintenance_unavailable"
    "archive maintenance coordination is unavailable".
End Api.

(** What [sqlx::Error] lets the code see: whether the failure came from the
    database engine, and the SQLite result code it then carries. *)
Inductive SqlxError : Type :=
| DatabaseError (sqlite_code : option string)
| OtherSqlxError.

(** [classify_database_error]: SQLITE_BUSY (5) and SQLITE_LOCKED (6) are a
    retryable conflict, everything else a metadata failure. *)
Definition classify_database_error (e : SqlxError) : ApiError :=
  let is_busy :=
    match e with
    | DatabaseError (Some c) => bool_decide (c = "5"%string) || bool_decide (c = "6"%string)
    | _ => false
    end in
  if is_busy then
    Api.conflict "upload_completion_contended"
      "archive metadata was busy completing a concurrent request; retry the completion"
  else Api.database.

(** *** Errors of the maintenance operations *)

Module MaintenanceGateError.
Inductive t : Type := Busy | Unavailable.
End MaintenanceGateError.
Module BackupError.
Inductive t : Type :=
| InvalidOutput | Source | Metadata | ActiveUploads | MaintenanceBusy | Maintenance
| Storage | Manifest | Integrity | DestinationNotEmpty | UnsafeDestination | Bootstrap | Scan.
End BackupError.
Definition map_gate_error (e : MaintenanceGateError.t) : BackupError.t :=
  match e with
  | MaintenanceGateError.Busy => BackupError.MaintenanceBusy
  | MaintenanceGateError.Unavailable => BackupError.Maintenance
  end.
