(* ===== verification/Contract.v ===== *)
(** The versioned documents of the HTTP API: [contract.rs].  Requests, the
    canonical manifest, and the stable enumerations with the names they have
    on the wire and in the database. *)
From stdpp Require Import prelude strings gmap.
From S2P Require Import Prelude Errors.

(** A [BTreeMap<String, String>]: the entries in key order. *)
Abbreviation StringMap := (list (string * string)).

Record RegisterClientRequest : Type := {
  rc_hostname : option string;
  rc_display_name : option string;
  rc_metadata : StringMap;
}.

Record SessionInput : Type := {
  source_agent : string;
  source_session_id : string;
}.

Record CaptureInput : Type := {
  ci_captured_at : string;
  ci_source_cursor : option string;
  ci_source_state_hash : option string;
  ci_source_metadata : StringMap;
  ci_project : option string;
  ci_repository : option string;
  ci_branch : option string;
  ci_source_agent_version : option string;
  ci_artifact_set_version : Z;
  ci_munshi_version : option string;
}.

Record Capture : Type := {
  captured_at : string;
  source_cursor : option string;
  source_state_hash : option string;
  source_metadata : StringMap;
  project : option string;
  repository : option string;
  branch : option string;
  source_agent_version : option string;
  artifact_set_version : Z;
  munshi_version : option string;
}.

Inductive Compression : Type := Identity | Zstd.

Record Artifact : Type := {
  logical_path : string;
  media_type : option string;
  original_size_bytes : Z;
  original_sha256 : string;
  stored_size_bytes : Z;
  stored_sha256 : string;
  compression : Compression;
}.

(** [ArtifactInput] and [Artifact] have the same seven fields; the code copies
    one into the other field by field once the input is validated. *)
Abbreviation ArtifactInput := Artifact.

Record ManifestInput : Type := {
  mi_schema_version : Z;
  mi_session : SessionInput;
  mi_capture : CaptureInput;
  mi_artifacts : option (list ArtifactInput);
  mi_artifact : option ArtifactInput;
}.

Record Manifest : Type := {
  schema_version : Z;
  session : SessionInput;
  capture : Capture;
  artifacts : list Artifact;
}.

Record CreateUploadRequest : Type := {
  cu_client_id : string;
  cu_capture_id : option string;
  cu_idempotency_key : option string;
  cu_manifest : ManifestInput;
}.

#[export] Instance SessionInput_eq_dec : EqDecision SessionInput.
Proof. solve_decision. Defined.
#[export] Instance Compression_eq_dec : EqDecision Compression.
Proof. solve_decision. Defined.
#[export] Instance Artifact_eq_dec : EqDecision Artifact.
Proof. solve_decision. Defined.
#[export] Instance Capture_eq_dec : EqDecision Capture.
Proof. solve_decision. Defined.
#[export] Instance Manifest_eq_dec : EqDecision Manifest.
Proof. solve_decision. Defined.

Definition LEGACY_ARTIFACT_SET_VERSION : Z := 1.

(** The document [Manifest::deserialize] accepts before it requires exactly
    one of the two artifact forms. *)
Record ManifestWire : Type := {
  wire_schema_version : Z;
  wire_session : SessionInput;
  wire_capture : Capture;
  wire_artifacts : option (list Artifact);
  wire_artifact : option Artifact;
}.

(** [impl Deserialize for Manifest], after serde has read the wire document. *)
Definition manifest_of_wire (w : ManifestWire) : res string Manifest :=
  let? arts :=
    match wire_artifacts w, wire_artifact w with
    | Some arts, None => Ok arts
    | None, Some a => Ok [a]
    | _, _ => Err "manifest must contain exactly one of artifacts or legacy artifact"%string
    end in
  Ok {| schema_version := wire_schema_version w;
        session := wire_session w;
        capture := wire_capture w;
        artifacts := arts |}.

(* ------------------------------------------------------------------ *)
(** ** Stable enumerations *)

Inductive UploadStatus : Type :=
| Created | ArtifactUploaded | Completed | Abandoned | Expired.

#[export] Instance UploadStatus_eq_dec : EqDecision UploadStatus.
Proof. solve_decision. Defined.

Inductive IntegrityRunStatus : Type := Running | Healthy | ActionRequired | Failed.

Inductive IntegritySeverity : Type := Info | Warning | Error.

Inductive IntegrityFindingKind : Type :=
| ManifestMissing | ManifestUnparseable | ManifestHashMismatch | SnapshotProjectionDrift
| DatabaseIntegrityFailure | ArtifactBlobReferenceMissing | BlobMetadataInvalid
| BlobFileMissing | BlobFileNonRegular | BlobFileSizeMismatch | BlobFileHashMismatch
| ArtifactOriginalMismatch | UnexpectedBlobFile | BlobOrphan | BlobGraceCandidate
| BlobGcEligibleCandidate | BlobStaleCandidate | TombstonedSnapshot | TransientChange.

Record ClientResponse : Type := {
  cr_client_id : string;
  cr_hostname : option string;
  cr_display_name : option string;
  cr_metadata : StringMap;
  cr_created_at : string;
  cr_updated_at : string;
}.

Record UploadArtifactStatus : Type := {
  uas_artifact_index : Z;
  uas_logical_path : string;
  uas_media_type : option string;
  uas_original_size_bytes : Z;
  uas_original_sha256 : string;
  uas_stored_size_bytes : Z;
  uas_stored_sha256 : string;
  uas_compression : Compression;
  uas_chunk_count : Z;
  uas_chunk_upload_url : string;
  uas_accepted_chunk_bitmap : string;
  uas_missing_chunk_indexes : list Z;
}.

Record UploadResponse : Type := {
  ur_upload_id : string;
  ur_capture_id : string;
  ur_session_id : string;
  ur_status : UploadStatus;
  ur_manifest_sha256 : string;
  ur_chunk_size_bytes : Z;
  ur_artifacts : list UploadArtifactStatus;
  ur_artifact_upload_url : string;
  ur_status_url : string;
  ur_abandon_url : string;
  ur_completion_url : string;
  ur_capture_url : string;
}.

Record UploadStatusResponse : Type := {
  us_upload_id : string;
  us_capture_id : string;
  us_session_id : string;
  us_status : UploadStatus;
  us_manifest_sha256 : option string;
  us_chunk_size_bytes : Z;
  us_artifacts : list UploadArtifactStatus;
  us_status_url : string;
  us_abandon_url : string;
  us_completion_url : string;
  us_capture_url : string;
}.

Record Receipt : Type := {
  receipt_version : Z;
  r_archive_instance_id : string;
  r_owner_namespace : string;
  r_snapshot_id : string;
  r_session_id : string;
  r_snapshot_fingerprint : string;
  r_manifest_sha256 : string;
  r_artifact_count : Z;
  r_total_original_bytes : Z;
  r_total_stored_bytes : Z;
  r_completed_at : string;
}.

Record CompletionTransfer : Type := {
  ct_upload_id : string;
  ct_capture_id : string;
  ct_upload_transfer_bytes : Z;
  ct_newly_persisted_physical_bytes : Z;
}.

Record CaptureProvenance : Type := {
  cp_capture_record_id : string;
  cp_capture_id : string;
  cp_client_id : string;
  cp_session_id : string;
  cp_upload_id : string;
  cp_snapshot_id : string;
  cp_manifest_id : string;
  cp_manifest_sha256 : string;
  cp_source_captured_at : string;
  cp_source_cursor : option string;
  cp_source_state_hash : option string;
  cp_source_metadata : StringMap;
  cp_project : option string;
  cp_repository : option string;
  cp_branch : option string;
  cp_source_agent_version : option string;
  cp_artifact_set_version : Z;
  cp_munshi_version : option string;
  cp_server_received_at : string;
  cp_server_completed_at : string;
  cp_capture_url : string;
  cp_manifest_url : string;
}.

Record CompletionResponse : Type := {
  c_receipt : Receipt;
  c_transfer : CompletionTransfer;
  c_capture : CaptureProvenance;
}.

Record DeleteSnapshotRequest : Type := {
  confirmation : option string;
  ds_reason : option string;
}.

Record TombstoneResponse : Type := {
  t_tombstone_id : string;
  t_deletion_audit_id : string;
  t_owner_namespace : string;
  t_session_id : string;
  t_snapshot_id : string;
  t_snapshot_fingerprint : string;
  t_manifest_sha256 : string;
  t_snapshot_completed_at : string;
  t_deleted_at : string;
  t_deleted_at_sort_key : Z;
  t_reason : option string;
  t_capture_count : Z;
  t_rearchived_snapshot_id : option string;
  t_rearchived_snapshot_url : option string;
  t_historical_receipt : Receipt;
}.

Record BlobGcResponse : Type := {
  inspected_blobs : Z;
  deleted_blobs : Z;
}.

(** An enumeration of the contract: the text each variant is stored and sent
    as, and the reader of that text.  [text_law] is what the code relies on
    when it reads back what it wrote. *)
Class TextEnum (T : Type) := {
  as_str : T -> string;
  parse : string -> option T;
  text_law : forall x s, parse s = Some x <-> s = as_str x;
}.

Module RunStatus.
Local Open Scope string_scope.
Definition as_str (s : IntegrityRunStatus) : string :=
  match s with
  | Running => "running"
  | Healthy => "healthy"
  | ActionRequired => "action_required"
  | Failed => "failed"
  end.
Definition parse (v : string) : option IntegrityRunStatus :=
  if bool_decide (v = "running") then Some Running
  else if bool_decide (v = "healthy") then Some Healthy
  else if bool_decide (v = "action_required") then Some ActionRequired
  else if bool_decide (v = "failed") then Some Failed
  else None.
End RunStatus.

Module Severity.
Local Open Scope string_scope.
Definition as_str (s : IntegritySeverity) : string :=
  match s with
  | Info => "info"
  | Warning => "warning"
  | Error => "error"
  end.
Definition parse (v : string) : option IntegritySeverity :=
  if bool_decide (v = "info") then Some Info
  else if bool_decide (v = "warning") then Some Warning
  else if bool_decide (v = "error") then Some Error
  else None.
End Severity.

Module FindingKind.
Local Open Scope string_scope.
Definition as_str (k : IntegrityFindingKind) : string :=
  match k with
  | ManifestMissing => "manifest_missing"
  | ManifestUnparseable => "manifest_unparseable"
  | ManifestHashMismatch => "manifest_hash_mismatch"
  | SnapshotProjectionDrift => "snapshot_projection_drift"
  | DatabaseIntegrityFailure => "database_integrity_failure"
  | ArtifactBlobReferenceMissing => "artifact_blob_reference_missing"
  | BlobMetadataInvalid => "blob_metadata_invalid"
  | BlobFileMissing => "blob_file_missing"
  | BlobFileNonRegular => "blob_file_non_regular"
  | BlobFileSizeMismatch => "blob_file_size_mismatch"
  | BlobFileHashMismatch => "blob_file_hash_mismatch"
  | ArtifactOriginalMismatch => "artifact_original_mismatch"
  | UnexpectedBlobFile => "unexpected_blob_file"
  | BlobOrphan => "blob_orphan"
  | BlobGraceCandidate => "blob_grace_candidate"
  | BlobGcEligibleCandidate => "blob_gc_eligible_candidate"
  | BlobStaleCandidate => "blob_stale_candidate"
  | TombstonedSnapshot => "tombstoned_snapshot"
  | TransientChange => "transient_change"
  end.
Definition parse (v : string) : option IntegrityFindingKind :=
  if bool_decide (v = "manifest_missing") then Some ManifestMissing
  else if bool_decide (v = "manifest_unparseable") then Some ManifestUnparseable
  else if bool_decide (v = "manifest_hash_mismatch") then Some ManifestHashMismatch
  else if bool_decide (v = "snapshot_projection_drift") then Some SnapshotProjectionDrift
  else if bool_decide (v = "database_integrity_failure") then Some DatabaseIntegrityFailure
  else if bool_decide (v = "artifact_blob_reference_missing")
    then Some ArtifactBlobReferenceMissing
  else if bool_decide (v = "blob_metadata_invalid") then Some BlobMetadataInvalid
  else if bool_decide (v = "blob_file_missing") then Some BlobFileMissing
  else if bool_decide (v = "blob_file_non_regular") then Some BlobFileNonRegular
  else if bool_decide (v = "blob_file_size_mismatch") then Some BlobFileSizeMismatch
  else if bool_decide (v = "blob_file_hash_mismatch") then Some BlobFileHashMismatch
  else if bool_decide (v = "artifact_original_mismatch") then Some ArtifactOriginalMismatch
  else if bool_decide (v = "unexpected_blob_file") then Some UnexpectedBlobFile
  else if bool_decide (v = "blob_orphan") then Some BlobOrphan
  else if bool_decide (v = "blob_grace_candidate") then Some BlobGraceCandidate
  else if bool_decide (v = "blob_gc_eligible_candidate") then Some BlobGcEligibleCandidate
  else if bool_decide (v = "blob_stale_candidate") then Some BlobStaleCandidate
  else if bool_decide (v = "tombstoned_snapshot") then Some TombstonedSnapshot
  else if bool_decide (v = "transient_change") then Some TransientChange
  else None.
End FindingKind.

(** [compression_name] and [parse_compression] of [ingestion.rs]. *)
Module CompressionText.
Local Open Scope string_scope.
Definition compression_name (c : Compression) : string :=
  match c with
  | Identity => "identity"
  | Zstd => "zstd"
  end.
Definition parse_compression (v : string) : option Compression :=
  if bool_decide (v = "identity") then Some Identity
  else if bool_decide (v = "zstd") then Some Zstd
  else None.
End CompressionText.

(** One case analysis proves the law of each of the four. *)
Ltac solve_text_law :=
  let x := fresh "x" in let s := fresh "s" in
  intros x s; split;
  [ intros H; cbn in H;
    repeat (case_bool_decide; [injection H as <-; assumption|]); discriminate H
  | intros ->; destruct x; reflexivity ].

#[export] Instance RunStatus_text : TextEnum IntegrityRunStatus.
Proof.
  refine {| as_str := RunStatus.as_str; parse := RunStatus.parse |}.
  unfold RunStatus.parse. solve_text_law.
Defined.
#[export] Instance Severity_text : TextEnum IntegritySeverity.
Proof.
  refine {| as_str := Severity.as_str; parse := Severity.parse |}.
  unfold Severity.parse. solve_text_law.
Defined.
#[export] Instance FindingKind_text : TextEnum IntegrityFindingKind.
Proof.
  refine {| as_str := FindingKind.as_str; parse := FindingKind.parse |}.
  unfold FindingKind.parse. solve_text_law.
Defined.
#[export] Instance Compression_text : TextEnum Compression.
Proof.
  refine {| as_str := CompressionText.compression_name;
            parse := CompressionText.parse_compression |}.
  unfold CompressionText.parse_compression. solve_text_law.
Defined.

Lemma as_str_inj {T} `{TextEnum T} (x y : T) : as_str x = as_str y -> x = y.
Proof.
  intros E. assert (Hx : parse (as_str x) = Some x) by (by apply text_law).
  assert (Hy : parse (as_str y) = Some y) by (by apply text_law).
  congruence.
Qed.

Lemma parse_as_str {T} `{TextEnum T} (x : T) : parse (as_str x) = Some x.
Proof. by apply text_law. Qed.
