(* ===== verification/Externals.v ===== *)
(** Interfaces to the third-party crates the server calls: [time], [uuid],
    [mime], [sha2], [zstd] and [serde_json].  Each class holds the operations
    the source uses; the laws are the documented behaviour the code relies on.
    The instances at the end are small concrete functions that satisfy the
    laws: they are what the witnesses run. *)
From stdpp Require Import prelude strings gmap list.
From Stdlib Require Import ZArith Ascii Lia.
From Stdlib.Strings Require Import Byte.
From S2P Require Import Prelude Errors Contract.

(** [time::OffsetDateTime]: an instant (nanoseconds since the Unix epoch) and
    the UTC offset it is displayed in (seconds). *)
Record OffsetDateTime : Type := mkTime { unix_nanos : Z; utc_offset : Z }.
#[export] Instance OffsetDateTime_eq_dec : EqDecision OffsetDateTime.
Proof. solve_decision. Defined.

Class TimeLib := {
  parse_rfc3339 : string -> option OffsetDateTime;
  format_rfc3339 : OffsetDateTime -> option string;
}.

(** Formatting keeps the nanosecond and the offset, so parsing reads it back. *)
Class TimeLaws (T : TimeLib) := {
  parse_format : forall t s, format_rfc3339 t = Some s -> parse_rfc3339 s = Some t;
}.

(** [OffsetDateTime::to_offset(UtcOffset::UTC)] *)
Definition to_utc (t : OffsetDateTime) : OffsetDateTime := mkTime (unix_nanos t) 0.

(** [uuid::Uuid], kept as its canonical (hyphenated, lower-case) text. *)
Class UuidLib := {
  parse_str : string -> option string;
  version_num : string -> Z;
  now_v7 : nat -> string;
}.
Class UuidLaws (U : UuidLib) := {
  parse_canonical : forall s c, parse_str s = Some c -> parse_str c = Some c;
  parse_now_v7 : forall n, parse_str (now_v7 n) = Some (now_v7 n);
  version_now_v7 : forall n, version_num (now_v7 n) = 7%Z;
  (** No two identifiers drawn are the same. *)
  now_v7_inj :: Inj (=) (=) now_v7;
}.

(** [str::parse::<mime::Mime>().is_ok()] *)
Class MimeLib := { mime_parses : string -> bool }.

Abbreviation bytes := (list Byte.byte).
#[export] Instance byte_eq_dec : EqDecision Byte.byte := Byte.byte_eq_dec.

(** [sha2::Sha256]: the digest of everything fed to a hasher, in order. *)
Class ShaLib := { sha256 : bytes -> bytes }.
Class ShaLaws (S : ShaLib) := { sha256_length : forall b, length (sha256 b) = 32%nat }.

(** [zstd::stream::read::Decoder]: the bytes a reader yields, or the failure
    to open the stream. [decode] gives the successive non-empty reads and
    whether the stream then ended cleanly. *)
Class ZstdLib := {
  zstd_open : bytes -> bool;
  zstd_reads : bytes -> list bytes * bool;
}.

(* ------------------------------------------------------------------ *)
(** ** Concrete instances *)

(** A calendar that knows a handful of RFC 3339 texts. *)
Definition calendar : list (string * OffsetDateTime) :=
  [ ("2026-01-01T00:00:00Z", mkTime 1767225600000000000 0);
    ("2026-01-01T00:00:00.5Z", mkTime 1767225600500000000 0);
    ("2026-01-01T00:00:00.12Z", mkTime 1767225600120000000 0);
    ("2026-01-01T00:00:00.123Z", mkTime 1767225600123000000 0);
    ("2026-01-01T01:00:00+01:00", mkTime 1767225600000000000 3600);
    ("2026-01-02T00:00:00Z", mkTime 1767312000000000000 0);
    ("2026-01-02T00:00:00.5Z", mkTime 1767312000500000000 0);
    ("2026-01-03T00:00:00Z", mkTime 1767398400000000000 0);
    ("1970-01-01T00:00:00Z", mkTime 0 0) ]%string%Z.

Fixpoint assoc_fst {A} (s : string) (l : list (string * A)) : option A :=
  match l with
  | [] => None
  | (k, v) :: l' => if bool_decide (k = s) then Some v else assoc_fst s l'
  end.
Fixpoint assoc_snd {A} `{EqDecision A} (x : A) (l : list (string * A)) : option string :=
  match l with
  | [] => None
  | (k, v) :: l' => if bool_decide (v = x) then Some k else assoc_snd x l'
  end.

Lemma assoc_snd_fst {A} `{EqDecision A} (l : list (string * A)) x s :
  NoDup l.*1 -> assoc_snd x l = Some s -> assoc_fst s l = Some x.
Proof.
  induction l as [|[k v] l IH]; simpl; [done|].
  intros [Hk Hl]%NoDup_cons H. repeat case_bool_decide; simplify_eq; try done.
  - apply IH in H; [|done]. exfalso. apply Hk.
    clear -H. induction l as [|[k' v'] l IH]; simpl in *; [done|].
    case_bool_decide; subst; [left|right; auto].
  - by apply IH.
Qed.

#[local] Instance calendar_time : TimeLib := {|
  parse_rfc3339 s := assoc_fst s calendar;
  format_rfc3339 t := assoc_snd t calendar;
|}.
#[local] Instance calendar_laws : TimeLaws calendar_time.
Proof.
  constructor. intros t s H. apply assoc_snd_fst; [|exact H].
  apply (bool_decide_unpack _). by vm_compute.
Qed.

(** Canonical texts of a version 7 layout, told apart by the length of the
    last group. *)
Definition counter_uuid (n : nat) : string :=
  of_chars (chars "01890000-0000-7000-8000-000000000000" ++ replicate n "a"%char).
Definition is_uuid_text (s : string) : bool :=
  let l := chars s in
  bool_decide (take 4 (map length (split_on "-" l)) = [8; 4; 4; 4]%nat)
  && forallb (fun c => bool_decide (c = "-"%char)
                       || (is_ascii_hexdigit c && negb (is_ascii_uppercase c))) l.
#[local] Instance counter_uuids : UuidLib := {|
  parse_str s := if is_uuid_text s then Some s else None;
  version_num s :=
    match nth_error (chars s) 14 with Some c => digit_value c | None => 0 end;
  now_v7 := counter_uuid;
|}.
#[local] Instance counter_uuids_laws : UuidLaws counter_uuids.
Proof.
  split.
  - intros s c. simpl. destruct (is_uuid_text s) eqn:E; [|done]. intros [= <-]. by rewrite E.
  - intros n. cbn [parse_str now_v7 counter_uuids]. unfold counter_uuid, is_uuid_text. rewrite chars_of_chars, forallb_app.
    replace (forallb _ (replicate n "a"%char)) with true; [done|].
    symmetry. apply forallb_true. by intros c [-> _]%elem_of_replicate.
  - intros n. cbn [version_num now_v7 counter_uuids]. unfold counter_uuid. by rewrite chars_of_chars.
  - intros m n E%(f_equal String.length). cbn [now_v7 counter_uuids] in E. unfold counter_uuid in E.
    rewrite <-!length_chars, !chars_of_chars, !length_app, !length_replicate in E. lia.
Qed.

#[local] Instance any_mime : MimeLib := {| mime_parses s := existsb (Ascii.eqb "/") (chars s) |}.

(** A toy digest: a length and additive checksum, padded to 32 bytes. *)
Definition byte_sum (b : bytes) : N := fold_left (fun a x => (a * 31 + Byte.to_N x) mod 65521)%N b 7%N.
Definition byte_of_N (n : N) : Byte.byte :=
  match Byte.of_N (n mod 256) with Some b => b | None => x00 end.
#[local] Instance sum_sha : ShaLib := {|
  sha256 b := byte_of_N (N.of_nat (length b)) :: byte_of_N (byte_sum b)
              :: byte_of_N (byte_sum b / 256) :: replicate 29 x00;
|}.
#[local] Instance sum_sha_laws : ShaLaws sum_sha.
Proof. by constructor. Qed.

(** A decoder of a one-byte-magic container holding the bytes verbatim. *)
#[local] Instance magic_zstd : ZstdLib := {|
  zstd_open b := match b with x28 :: _ => true | _ => false end;
  zstd_reads b := match b with
                  | x28 :: [] => ([], true)
                  | x28 :: d => ([d], true)
                  | _ => ([], false)
                  end;
|}.

(** A serializer of the documents of one table, by their position in it. *)
Section TableCodec.
Context {A : Type} `{EqDecision A} (known : list A).
Definition table_encode (x : A) : option bytes :=
  (fun p => replicate p.1 x00) <$> list_find (fun k => k = x) known.
Definition table_decode (b : bytes) : option A := known !! length b.

Lemma table_decode_encode x b : table_encode x = Some b -> table_decode b = Some x.
Proof.
  unfold table_encode, table_decode. intros ([i k] & E & ->)%fmap_Some.
  apply list_find_Some in E as (Hi & -> & _). by rewrite length_replicate.
Qed.
Lemma table_encode_inj x y b : table_encode x = Some b -> table_encode y = Some b -> x = y.
Proof. intros Ex%table_decode_encode Ey%table_decode_encode. congruence. Qed.
End TableCodec.

(** Bytes as text, and back. *)
Definition bytes_string (b : bytes) : string := of_chars (Ascii.ascii_of_byte <$> b).
Definition string_bytes (s : string) : bytes := Ascii.byte_of_ascii <$> chars s.
Lemma string_bytes_string b : string_bytes (bytes_string b) = b.
Proof.
  unfold string_bytes, bytes_string. rewrite chars_of_chars, <-list_fmap_compose.
  rewrite <-(list_fmap_id b) at 2. apply list_fmap_ext. intros ? x _. apply Ascii.byte_of_ascii_of_byte.
Qed.
