(* ===== verification/Locks.v ===== *)
(** Lock stripes ([service.rs], [AppState::upload_lock] and its siblings) and
    the order in which the handlers take them: an upload stripe, then a
    snapshot stripe, then blob stripes in ascending order.  The tasks of a
    server that keep to it never wait for each other in a circle. *)
From stdpp Require Import prelude strings list sorting relations.
From Stdlib Require Import ZArith Ascii Lia.
From Stdlib.Strings Require Import Byte.
From S2P Require Import Prelude Errors Contract Externals.

Definition UPLOAD_LOCK_STRIPES : Z := 256.
Definition SNAPSHOT_LOCK_STRIPES : Z := 256.
Definition BLOB_LOCK_STRIPES : Z := 256.

(* ------------------------------------------------------------------ *)
(** ** Stripes: FNV-1a on 64 bits *)

Definition FNV_OFFSET_BASIS : Z := 14695981039346656037.
Definition FNV_PRIME : Z := 1099511628211.
Definition wrapping_mul_u64 (a b : Z) : Z := (a * b) mod 2 ^ 64.
Definition fnv_step (hash : Z) (byte : Byte.byte) : Z :=
  wrapping_mul_u64 (Z.lxor hash (Z.of_N (Byte.to_N byte))) FNV_PRIME.

Definition upload_lock_stripe (upload_id : string) : Z :=
  fold_left fnv_step (string_bytes upload_id) FNV_OFFSET_BASIS mod UPLOAD_LOCK_STRIPES.
Definition stable_lock_stripe (data : bytes) (stripe_count : Z) : Z :=
  fold_left fnv_step data FNV_OFFSET_BASIS mod stripe_count.
Definition snapshot_lock_stripe (session_id fingerprint_sha256 : string) : Z :=
  stable_lock_stripe (string_bytes session_id ++ [x00] ++ string_bytes fingerprint_sha256) SNAPSHOT_LOCK_STRIPES.
Definition blob_lock_stripe (owner_namespace stored_sha256 : string) : Z :=
  stable_lock_stripe (string_bytes owner_namespace ++ [x00] ++ string_bytes stored_sha256) BLOB_LOCK_STRIPES.

(** [Vec::dedup]: of equal neighbours the first stays. *)
Fixpoint dedup {A} `{EqDecision A} (l : list A) : list A :=
  match l with
  | [] => []
  | a :: l => match dedup l with
              | b :: l' => if decide (a = b) then b :: l' else a :: b :: l'
              | [] => [a]
              end
  end.

Inductive Lock : Type :=
| UploadLock (stripe : Z)
| SnapshotLock (stripe : Z)
| BlobLock (stripe : Z).
#[export] Instance Lock_eq_dec : EqDecision Lock.
Proof. solve_decision. Defined.

Definition upload_lock (upload_id : string) : Lock := UploadLock (upload_lock_stripe upload_id).
Definition snapshot_lock (session_id fingerprint_sha256 : string) : Lock :=
  SnapshotLock (snapshot_lock_stripe session_id fingerprint_sha256).
Definition blob_locks_for_digests (owner_namespace : string) (stored_sha256s : list string) : list Lock :=
  BlobLock <$> dedup (merge_sort Z.le (blob_lock_stripe owner_namespace <$> stored_sha256s)).

(** What a lock is compared by: its family, then its stripe. *)
Definition rank (l : Lock) : Z :=
  match l with
  | UploadLock s => s
  | SnapshotLock s => UPLOAD_LOCK_STRIPES + s
  | BlobLock s => UPLOAD_LOCK_STRIPES + SNAPSHOT_LOCK_STRIPES + s
  end.
Definition in_range (l : Lock) : Prop :=
  match l with
  | UploadLock s => 0 <= s < UPLOAD_LOCK_STRIPES
  | SnapshotLock s => 0 <= s < SNAPSHOT_LOCK_STRIPES
  | BlobLock s => 0 <= s < BLOB_LOCK_STRIPES
  end.

Lemma upload_lock_range u : in_range (upload_lock u).
Proof. by apply Z.mod_pos_bound. Qed.
Lemma snapshot_lock_range s f : in_range (snapshot_lock s f).
Proof. by apply Z.mod_pos_bound. Qed.
Lemma blob_lock_stripe_range o d : 0 <= blob_lock_stripe o d < BLOB_LOCK_STRIPES.
Proof. by apply Z.mod_pos_bound. Qed.

(* ------------------------------------------------------------------ *)
(** ** The stripes of a set of digests *)

Lemma elem_of_dedup {A} `{EqDecision A} (l : list A) x : x ∈ dedup l <-> x ∈ l.
Proof.
  induction l as [|a l IH]; [done|]. cbn [dedup]. destruct (dedup l) as [|b l'].
  - rewrite !elem_of_cons, <-IH. set_solver.
  - rewrite (elem_of_cons l x a), <-IH. destruct (decide (a = b)); set_solver.
Qed.
Lemma dedup_ascending (l : list Z) : StronglySorted Z.le l -> StronglySorted Z.lt (dedup l).
Proof.
  induction 1 as [|a l Hl IH Ha]; [constructor|]. cbn [dedup].
  assert (Hin : forall x, x ∈ dedup l -> a <= x).
  { rewrite Forall_forall in Ha. intros x Hx. by apply Ha, elem_of_dedup. }
  destruct (dedup l) as [|b l'] eqn:E; [repeat constructor|].
  destruct (decide (a = b)) as [->|Hne]; [done|].
  apply StronglySorted_inv in IH as [IH Hb]. constructor; [by constructor|].
  assert (a < b) by (specialize (Hin b ltac:(left)); lia).
  constructor; [done|]. eapply Forall_impl; [exact Hb|]. simpl. lia.
Qed.
Lemma ascending_unique (k l : list Z) : StronglySorted Z.lt k -> StronglySorted Z.lt l ->
  (forall x, x ∈ k <-> x ∈ l) -> k = l.
Proof.
  revert l. induction k as [|a k IH]; intros [|b l] Hk Hl H; [done|..].
  - exfalso. specialize (H b). set_solver.
  - exfalso. specialize (H a). set_solver.
  - apply StronglySorted_inv in Hk as [Hk Ha]. apply StronglySorted_inv in Hl as [Hl Hb].
    rewrite Forall_forall in Ha, Hb. setoid_rewrite elem_of_cons in H.
    assert (a = b) as <-.
    { destruct (proj1 (H a) ltac:(by left)) as [|Hal]; [done|].
      destruct (proj2 (H b) ltac:(by left)) as [|Hbk]; [done|].
      specialize (Hb a Hal). specialize (Ha b Hbk). lia. }
    f_equal. apply IH; [done..|]. intros x. split; intros Hx.
    + destruct (proj1 (H x) ltac:(by right)) as [->|?]; [specialize (Ha _ Hx); lia|done].
    + destruct (proj2 (H x) ltac:(by right)) as [->|?]; [specialize (Hb _ Hx); lia|done].
Qed.

(** The stripes of the digests, each once, ascending. *)
Definition blob_stripes (owner : string) (digests : list string) : list Z :=
  dedup (merge_sort Z.le (blob_lock_stripe owner <$> digests)).
Lemma blob_stripes_ascending owner digests : StronglySorted Z.lt (blob_stripes owner digests).
Proof. apply dedup_ascending, StronglySorted_merge_sort; apply _. Qed.
Lemma elem_of_blob_stripes owner digests s :
  s ∈ blob_stripes owner digests <-> exists d, d ∈ digests /\ s = blob_lock_stripe owner d.
Proof.
  unfold blob_stripes. rewrite elem_of_dedup, merge_sort_Permutation, list_elem_of_fmap. naive_solver.
Qed.

Lemma blob_locks_for_digests_exact_aux owner digests :
  StronglySorted (fun k l => rank k < rank l) (blob_locks_for_digests owner digests)
  /\ (forall l, l ∈ blob_locks_for_digests owner digests <->
        exists d, d ∈ digests /\ l = BlobLock (blob_lock_stripe owner d))
  /\ Forall in_range (blob_locks_for_digests owner digests).
Proof.
  change (blob_locks_for_digests owner ?ds) with (BlobLock <$> blob_stripes owner ds).
  assert (Hmem : forall l, l ∈ BlobLock <$> blob_stripes owner digests <->
    exists d, d ∈ digests /\ l = BlobLock (blob_lock_stripe owner d)).
  { intros l. rewrite list_elem_of_fmap. setoid_rewrite elem_of_blob_stripes. naive_solver. }
  split_and!; [|done|].
  - clear Hmem. pose proof (blob_stripes_ascending owner digests) as Hs. induction Hs as [|a l Hl IH Ha]; simpl; constructor.
    + exact IH.
    + apply Forall_fmap. eapply Forall_impl; [exact Ha|]. simpl. lia.
  - apply Forall_forall. intros l (d & _ & ->)%Hmem. apply blob_lock_stripe_range.
Qed.

(** The locks of a set of digests are exactly the stripes of its digests,
    each taken once and in ascending order, and depend only on the set: two
    requests over the same digests take the same locks in the same order. *)
Theorem blob_locks_for_digests_exact owner digests digests' :
  (forall d, d ∈ digests <-> d ∈ digests') ->
  blob_locks_for_digests owner digests = blob_locks_for_digests owner digests'
  /\ StronglySorted (fun k l => rank k < rank l) (blob_locks_for_digests owner digests)
  /\ (forall l, l ∈ blob_locks_for_digests owner digests <->
        exists d, d ∈ digests /\ l = BlobLock (blob_lock_stripe owner d))
  /\ Forall in_range (blob_locks_for_digests owner digests).
Proof.
  intros H. split; [|apply blob_locks_for_digests_exact_aux].
  change (blob_locks_for_digests owner ?ds) with (BlobLock <$> blob_stripes owner ds). f_equal.
  apply ascending_unique; [apply blob_stripes_ascending..|]. intros s. rewrite !elem_of_blob_stripes. by setoid_rewrite H.
Qed.

(* ------------------------------------------------------------------ *)
(** ** What the handlers take, in order *)

Inductive Action : Type :=
| Acquire (l : Lock)
| Release (l : Lock).

(** The locks held around a piece of work. *)
Definition holding (ls : list Lock) (work : list Action) : list Action :=
  (Acquire <$> ls) ++ work ++ (Release <$> reverse ls).

(** Where a completion ends: before it needs more than its upload lock; with
    a live snapshot of the same fingerprint found under the snapshot lock; or
    under the blob locks of its artifacts, after such a snapshot was sought
    and found gone ([true]) or never seen. *)
Inductive CompletionPath : Type :=
| EndsEarly
| JoinsUnderSnapshotLock
| TakesBlobLocks (rechecked : bool).

(** The operations that take locks. *)
Inductive Operation : Type :=
| UploadRequest (upload_id : string)
| ExpiryPass (candidates : list string)
| CompleteUpload (upload_id session_id fingerprint owner : string) (digests : list string) (p : CompletionPath)
| DeleteSnapshot (session_id fingerprint owner : string) (digests : list string) (live : bool)
| BlobCollection (owner : string) (candidates : list string)
| IntegrityJobs (owner : string) (digests : list string).

Definition script (op : Operation) : list Action :=
  match op with
  | UploadRequest u => holding [upload_lock u] []
  | ExpiryPass candidates => candidates ≫= fun u => holding [upload_lock u] []
  | CompleteUpload u s f owner digests p =>
      holding [upload_lock u]
        match p with
        | EndsEarly => []
        | JoinsUnderSnapshotLock => holding [snapshot_lock s f] []
        | TakesBlobLocks rechecked =>
            (if rechecked then holding [snapshot_lock s f] [] else [])
            ++ holding (blob_locks_for_digests owner digests) []
        end
  | DeleteSnapshot s f owner digests live =>
      holding [snapshot_lock s f]
        (if live then holding (blob_locks_for_digests owner digests) [] else [])
  | BlobCollection owner candidates => candidates ≫= fun d => holding (blob_locks_for_digests owner [d]) []
  | IntegrityJobs owner digests => digests ≫= fun d => holding (blob_locks_for_digests owner [d]) []
  end.

(** A script that takes locks upwards only, and ends with what it began with. *)
Fixpoint ascends (held : list Lock) (acts : list Action) : Prop :=
  match acts with
  | [] => held = []
  | Acquire l :: acts => in_range l /\ Forall (fun k => rank k < rank l) held /\ ascends (l :: held) acts
  | Release l :: acts => exists rest, held = l :: rest /\ ascends rest acts
  end.

(** A piece of a script that takes only locks from [lo] on, and gives them back. *)
Definition nested (lo : Z) (acts : list Action) : Prop :=
  forall held rest, (forall k, k ∈ held -> rank k < lo) -> ascends held rest -> ascends held (acts ++ rest).

Lemma nested_nil lo : nested lo [].
Proof. by intros held rest. Qed.
Lemma nested_app lo k l : nested lo k -> nested lo l -> nested lo (k ++ l).
Proof. intros Hk Hl held rest Hh Hr. rewrite <-app_assoc. auto. Qed.
Lemma nested_bind {A} lo (f : A -> list Action) l : (forall a, nested lo (f a)) -> nested lo (l ≫= f).
Proof. intros Hf. induction l as [|a l IH]; [apply nested_nil|by apply nested_app]. Qed.
Lemma ascends_acquire ls : forall held acts,
  Forall in_range ls -> StronglySorted (fun k l => rank k < rank l) ls ->
  (forall k l, k ∈ held -> l ∈ ls -> rank k < rank l) ->
  ascends (reverse ls ++ held) acts -> ascends held ((Acquire <$> ls) ++ acts).
Proof.
  induction ls as [|l ls IH]; intros held acts Hr Hs Hk Ha; [exact Ha|]. simpl.
  apply Forall_cons in Hr as [Hr1 Hr2]. apply StronglySorted_inv in Hs as [Hs Hl]. rewrite Forall_forall in Hl.
  split_and!; [done|apply Forall_forall; intros k Hin; apply Hk; [done|by left]|].
  apply IH; [done|done| |by rewrite reverse_cons, <-app_assoc in Ha].
  intros k l' [->|Hin]%elem_of_cons Hl'; [by apply Hl|apply Hk; [done|by right]].
Qed.
Lemma ascends_release k : forall held acts, ascends held acts -> ascends (k ++ held) ((Release <$> k) ++ acts).
Proof. induction k as [|l k IH]; intros held acts Ha; [exact Ha|]. simpl. exists (k ++ held). auto. Qed.

Lemma nested_holding lo hi ls work :
  Forall in_range ls -> StronglySorted (fun k l => rank k < rank l) ls ->
  Forall (fun l => lo <= rank l < hi) ls -> lo <= hi -> nested hi work -> nested lo (holding ls work).
Proof.
  intros Hr Hs Hb Hle Hw held rest Hh Hrest. unfold holding. rewrite <-!app_assoc. rewrite Forall_forall in Hb.
  apply ascends_acquire; [done..| |].
  - intros k l Hk Hl. specialize (Hh k Hk). specialize (Hb l Hl). lia.
  - apply Hw; [|by apply ascends_release].
    intros k. rewrite elem_of_app, elem_of_reverse. intros [Hk|Hk]; [specialize (Hb k Hk)|specialize (Hh k Hk)]; lia.
Qed.
Lemma nested_mono lo hi acts : lo <= hi -> nested hi acts -> nested lo acts.
Proof. intros Hle Hn held rest Hh. apply Hn. intros k Hk. specialize (Hh k Hk). lia. Qed.

Abbreviation snapshots_from := (UPLOAD_LOCK_STRIPES).
Abbreviation blobs_from := (UPLOAD_LOCK_STRIPES + SNAPSHOT_LOCK_STRIPES).
Abbreviation ranks_end := (UPLOAD_LOCK_STRIPES + SNAPSHOT_LOCK_STRIPES + BLOB_LOCK_STRIPES).

Lemma nested_upload u work : nested snapshots_from work -> nested 0 (holding [upload_lock u] work).
Proof.
  pose proof (upload_lock_range u) as H. unfold upload_lock in *. simpl in H.
  apply nested_holding; repeat constructor; simpl; try done; unfold UPLOAD_LOCK_STRIPES in *; lia.
Qed.
Lemma nested_snapshot s f work : nested blobs_from work -> nested snapshots_from (holding [snapshot_lock s f] work).
Proof.
  pose proof (snapshot_lock_range s f) as H. unfold snapshot_lock in *. simpl in H.
  apply nested_holding; repeat constructor; simpl; try done; unfold UPLOAD_LOCK_STRIPES, SNAPSHOT_LOCK_STRIPES in *; lia.
Qed.
Lemma nested_blobs owner digests work : nested ranks_end work ->
  nested blobs_from (holding (blob_locks_for_digests owner digests) work).
Proof.
  destruct (blob_locks_for_digests_exact_aux owner digests) as (Hs & Hm & Hr).
  apply nested_holding; [done|done| |unfold BLOB_LOCK_STRIPES; lia].
  apply Forall_forall. intros l (d & _ & ->)%Hm. simpl. pose proof (blob_lock_stripe_range owner d). lia.
Qed.

Ltac families := unfold UPLOAD_LOCK_STRIPES, SNAPSHOT_LOCK_STRIPES, BLOB_LOCK_STRIPES; lia.
Lemma script_nested op : nested 0 (script op).
Proof.
  assert (Hb : forall owner ds, nested blobs_from (holding (blob_locks_for_digests owner ds) []))
    by (intros; apply nested_blobs, nested_nil).
  destruct op as [u|us|u s f owner ds p|s f owner ds live|owner ds|owner ds]; simpl.
  - apply nested_upload, nested_nil.
  - apply nested_bind. intros u. apply nested_upload, nested_nil.
  - apply nested_upload. destruct p as [| |[|]]; [apply nested_nil|apply nested_snapshot, nested_nil| |].
    + apply nested_app; [apply nested_snapshot, nested_nil|]. apply (nested_mono _ blobs_from); [families|apply Hb].
    + apply (nested_mono _ blobs_from); [families|apply Hb].
  - apply (nested_mono _ snapshots_from); [families|]. apply nested_snapshot. destruct live; [apply Hb|apply nested_nil].
  - apply nested_bind. intros d. apply (nested_mono _ blobs_from); [families|apply Hb].
  - apply nested_bind. intros d. apply (nested_mono _ blobs_from); [families|apply Hb].
Qed.
Lemma script_ascends op : ascends [] (script op).
Proof. rewrite <-(app_nil_r (script op)). apply script_nested; [by intros k ?%elem_of_nil|done]. Qed.

(* ------------------------------------------------------------------ *)
(** ** Tasks that wait for each other *)

(** A task: the locks it holds, and what it has left to do. *)
Abbreviation Task := (list Lock * list Action)%type.
Definition start (ops : list Operation) : list Task := (fun op => ([], script op)) <$> ops.

Fixpoint give_back (l : Lock) (held : list Lock) : list Lock :=
  match held with
  | [] => []
  | k :: held => if decide (k = l) then held else k :: give_back l held
  end.
(** A task takes a mutex that nobody holds, or gives one back. *)
Inductive task_step (ts : list Task) : list Task -> Prop :=
| takes i held l acts :
    ts !! i = Some (held, Acquire l :: acts) -> (forall t, t ∈ ts -> l ∉ t.1) ->
    task_step ts (<[i := (l :: held, acts)]> ts)
| gives i held l acts :
    ts !! i = Some (held, Release l :: acts) ->
    task_step ts (<[i := (give_back l held, acts)]> ts).

Definition remaining (ts : list Task) : nat := sum_list_with (fun t => length t.2) ts.
Definition exclusive (ts : list Task) : Prop :=
  forall i j ti tj l, ts !! i = Some ti -> ts !! j = Some tj -> l ∈ ti.1 -> l ∈ tj.1 -> i = j.
Definition orderly (ts : list Task) : Prop := Forall (fun t => ascends t.1 t.2) ts.

Lemma remaining_insert ts i t t' : ts !! i = Some t ->
  (remaining (<[i := t']> ts) + length t.2 = remaining ts + length t'.2)%nat.
Proof.
  unfold remaining. revert i. induction ts as [|u ts IH]; intros [|i] Hi; simpl in *; try done.
  - injection Hi as ->. lia.
  - specialize (IH i Hi). lia.
Qed.
Lemma task_step_remaining ts ts' : task_step ts ts' -> (S (remaining ts') = remaining ts)%nat.
Proof.
  intros [i held l acts Hi _|i held l acts Hi].
  - pose proof (remaining_insert _ _ _ (l :: held, acts) Hi) as H. simpl in H. lia.
  - pose proof (remaining_insert _ _ _ (give_back l held, acts) Hi) as H. simpl in H. lia.
Qed.

Lemma exclusive_insert ts i t t' : ts !! i = Some t -> exclusive ts ->
  (forall l, l ∈ t'.1 -> l ∈ t.1 \/ forall u, u ∈ ts -> l ∉ u.1) -> exclusive (<[i := t']> ts).
Proof.
  intros Hi Hx Ht a b ta tb l Ha Hb Hla Hlb.
  assert (Hcase : forall c tc, <[i := t']> ts !! c = Some tc -> l ∈ tc.1 ->
    (c = i /\ ((exists u, ts !! i = Some u /\ l ∈ u.1) \/ forall u, u ∈ ts -> l ∉ u.1)) \/ (c <> i /\ ts !! c = Some tc)).
  { intros c tc Hc Hl. destruct (decide (c = i)) as [->|Hne].
    - left. split; [done|]. rewrite list_lookup_insert_eq in Hc by (by eapply lookup_lt_Some). injection Hc as <-.
      destruct (Ht l Hl); [left; by exists t|by right].
    - right. split; [done|]. by rewrite list_lookup_insert_ne in Hc. }
  destruct (Hcase a ta Ha Hla) as [[-> Ea]|[Hna Ea]], (Hcase b tb Hb Hlb) as [[-> Eb]|[Hnb Eb]]; [done|..].
  - destruct Ea as [(u & Hu & Hl)|Hno]; [by apply (Hx i b u tb l)|]. exfalso. apply (Hno tb); [|done].
    by eapply list_elem_of_lookup_2.
  - destruct Eb as [(u & Hu & Hl)|Hno]; [by apply (Hx a i ta u l)|]. exfalso. apply (Hno ta); [|done].
    by eapply list_elem_of_lookup_2.
  - by apply (Hx a b ta tb l).
Qed.
Lemma elem_of_give_back k l held : k ∈ give_back l held -> k ∈ held.
Proof. induction held as [|x held IH]; simpl; [done|]. destruct (decide _); set_solver. Qed.

Lemma task_step_exclusive ts ts' : task_step ts ts' -> exclusive ts -> exclusive ts'.
Proof.
  intros [i held l acts Hi Hfree|i held l acts Hi] Hx; (eapply exclusive_insert; [exact Hi|exact Hx|]); simpl.
  - intros k [->|Hk]%elem_of_cons; [by right|by left].
  - intros k Hk%elem_of_give_back. by left.
Qed.
Lemma task_step_orderly ts ts' : task_step ts ts' -> orderly ts -> orderly ts'.
Proof.
  intros Hs Ho. unfold orderly in *. destruct Hs as [i held l acts Hi _|i held l acts Hi]; apply Forall_insert; try done;
    pose proof (Forall_lookup_1 _ _ _ _ Ho Hi) as Ht; simpl in *.
  - apply Ht.
  - destruct Ht as (rest & -> & Ht). simpl. by rewrite decide_True.
Qed.

(** Whoever waits for a lock waits for a task that is further up. *)
Lemma progress_above n : forall ts i held l acts, orderly ts ->
  ts !! i = Some (held, Acquire l :: acts) -> (Z.to_nat (ranks_end - rank l) <= n)%nat -> exists ts', task_step ts ts'.
Proof.
  induction n as [|n IH]; intros ts i held l acts Ho Hi Hn.
  - pose proof (Forall_lookup_1 _ _ _ _ Ho Hi) as (Hr & _). exfalso.
    destruct l; simpl in *; unfold UPLOAD_LOCK_STRIPES, SNAPSHOT_LOCK_STRIPES, BLOB_LOCK_STRIPES in *; lia.
  - destruct (decide (Exists (fun t : Task => l ∈ t.1) ts)) as [He|Hfree].
    + apply Exists_exists in He as ([held' acts'] & Hin & Hl). apply list_elem_of_lookup_1 in Hin as (j & Hj).
      pose proof (Forall_lookup_1 _ _ _ _ Ho Hj) as Ht. simpl in *. destruct acts' as [|[l'|l'] acts']; simpl in Ht.
      * subst held'. by apply elem_of_nil in Hl.
      * destruct Ht as (_ & Hlt & _). rewrite Forall_forall in Hlt. specialize (Hlt l Hl).
        apply (IH ts j held' l' acts'); [done|done|lia].
      * eexists. by eapply gives.
    + eexists. eapply takes; [exact Hi|]. intros t Ht Hl. apply Hfree, Exists_exists. by exists t.
Qed.
Lemma progress ts : orderly ts -> (0 < remaining ts)%nat -> exists ts', task_step ts ts'.
Proof.
  intros Ho Hr. assert (Hex : exists i held a acts, ts !! i = Some (held, a :: acts)).
  { clear Ho. induction ts as [|[held [|a acts]] ts IH]; simpl in Hr; [lia| |by exists 0%nat, held, a, acts].
    destruct IH as (i & ? & ? & ? & ?); [exact Hr|]. by exists (S i), x, x0, x1. }
  destruct Hex as (i & held & [l|l] & acts & Hi).
  - by eapply progress_above.
  - eexists. by eapply gives.
Qed.

Lemma start_orderly ops : orderly (start ops).
Proof. apply Forall_fmap, Forall_forall. intros op _. apply script_ascends. Qed.
Lemma start_exclusive ops : exclusive (start ops).
Proof.
  intros i j ti tj l Hi _ Hl _. apply list_lookup_fmap_Some in Hi as (op & -> & _). by apply elem_of_nil in Hl.
Qed.

(** C39: no set of requests and maintenance passes can block itself.  After any
    number of steps of any interleaving, no lock is held by two tasks, every
    step brought the tasks one step closer to their end, and while a task has
    something left to do, some task can take its next step. *)
Theorem requests_never_deadlock ops n ts : nsteps task_step n (start ops) ts ->
  exclusive ts /\ (n + remaining ts = remaining (start ops))%nat
  /\ ((0 < remaining ts)%nat -> exists ts', task_step ts ts').
Proof.
  intros Hn. assert (H : orderly ts /\ exclusive ts /\ (n + remaining ts = remaining (start ops))%nat).
  { generalize (start_orderly ops), (start_exclusive ops). induction Hn as [ts|n x y z Hxy Hyz IH]; intros Ho Hx; [done|].
    pose proof (task_step_remaining _ _ Hxy). destruct IH as (? & ? & ?).
    - by eapply task_step_orderly.
    - by eapply task_step_exclusive.
    - split_and!; [done..|lia]. }
  destruct H as (Ho & Hx & Hr). split_and!; [done..|]. by apply progress.
Qed.

(** Two completions over the same two blobs and a collection of one of them. *)
Definition busy : list Operation :=
  [ CompleteUpload "u1" "s" "f" "v1" ["04"; "05"] (TakesBlobLocks true);
    CompleteUpload "u2" "s" "f" "v1" ["05"; "04"] (TakesBlobLocks false);
    BlobCollection "v1" ["05"] ]%string.
Lemma requests_never_deadlock_witness : exists ts, nsteps task_step 1 (start busy) ts
  /\ exclusive ts /\ (1 + remaining ts = remaining (start busy))%nat
  /\ ((0 < remaining ts)%nat -> exists ts', task_step ts ts').
Proof.
  destruct (progress (start busy) (start_orderly busy)) as [ts Hts]; [vm_compute; lia|].
  exists ts. split; [by apply nsteps_once|]. apply (requests_never_deadlock busy 1 ts). by apply nsteps_once.
Defined.
Lemma blob_locks_for_digests_exact_witness :
  blob_locks_for_digests "v1" ["04"; "05"; "04"]%string = blob_locks_for_digests "v1" ["05"; "04"]%string.
Proof. apply (blob_locks_for_digests_exact "v1" ["04"; "05"; "04"]%string ["05"; "04"]%string). set_solver. Defined.
