(* ===== verification/Validation.v ===== *)
(** Request validation and manifest normalization: [validation.rs].

    [normalize_manifest] is the only door through which a manifest enters the
    archive.  The definitions follow the source check by check, in its order;
    the theorems say what an accepted manifest is, that acceptance does not
    depend on the order in which the client listed the artifacts, and that
    an accepted manifest is its own normal form. *)
From stdpp Require Import prelude strings gmap sorting list.
From Stdlib Require Import ZArith Ascii Lia.
From S2P Require Import Prelude Errors Contract Externals.

Definition MAX_LOGICAL_PATH_BYTES : Z := 1024.
Definition MAX_METADATA_ENTRIES : Z := 64.
Definition MAX_METADATA_KEY_BYTES : Z := 128.
Definition MAX_METADATA_VALUE_BYTES : Z := 1024.
Definition MAX_IDEMPOTENCY_KEY_BYTES : Z := 128.
Definition MAX_SOURCE_AGENT_BYTES : Z := 128.
Definition MAX_SOURCE_SESSION_ID_BYTES : Z := 512.
Definition MAX_CONTEXT_VALUE_BYTES : Z := 512.
Definition WINDOWS_RESERVED_NAMES : list string :=
  [ "CON"; "PRN"; "AUX"; "NUL"; "COM1"; "COM2"; "COM3"; "COM4"; "COM5"; "COM6"; "COM7"; "COM8";
    "COM9"; "LPT1"; "LPT2"; "LPT3"; "LPT4"; "LPT5"; "LPT6"; "LPT7"; "LPT8"; "LPT9" ]%string.

Record ManifestLimits : Type := {
  artifact_count : Z;
  artifact_stored_bytes : Z;
  artifact_original_bytes : Z;
  snapshot_stored_bytes : Z;
  snapshot_original_bytes : Z;
}.

(* ------------------------------------------------------------------ *)
(** ** Bounded text *)

Definition validate_text (value : string) (maximum : Z) (msg : string) : res ApiError unit :=
  reject (maximum <? str_len value) || existsb is_ascii_control (chars value)
    with Api.invalid msg;
  Ok tt.

Definition validate_nonempty_text (value : string) (maximum : Z) (msg : string)
  : res ApiError unit :=
  reject bool_decide (value = ""%string) with Api.invalid msg;
  validate_text value maximum msg.

Definition validate_optional_text (value : option string) (maximum : Z) : res ApiError unit :=
  match value with
  | Some value => validate_text value maximum "text value is invalid"
  | None => Ok tt
  end.

(** [for (key, value) in &metadata { ... }] *)
Fixpoint validate_entries (key_msg value_msg : string) (m : StringMap) : res ApiError unit :=
  match m with
  | [] => Ok tt
  | (k, v) :: m =>
      validate_nonempty_text k MAX_METADATA_KEY_BYTES key_msg ?;
      validate_text v MAX_METADATA_VALUE_BYTES value_msg ?;
      validate_entries key_msg value_msg m
  end.

Definition validate_client_request (request : RegisterClientRequest) : res ApiError unit :=
  validate_optional_text (rc_hostname request) MAX_CONTEXT_VALUE_BYTES ?;
  validate_optional_text (rc_display_name request) MAX_CONTEXT_VALUE_BYTES ?;
  reject MAX_METADATA_ENTRIES <? Z.of_nat (length (rc_metadata request))
    with Api.invalid "metadata has too many entries";
  validate_entries "metadata key is invalid" "metadata value is invalid" (rc_metadata request).

Definition validate_capture_identifier (capture_id : string) : res ApiError unit :=
  validate_nonempty_text capture_id MAX_IDEMPOTENCY_KEY_BYTES "capture identifier is invalid".

Definition capture_id (request : CreateUploadRequest) : res ApiError string :=
  let? id :=
    match cu_capture_id request, cu_idempotency_key request with
    | Some capture_id, _ => Ok capture_id
    | None, Some idempotency_key => Ok idempotency_key
    | None, None => Err (Api.invalid "capture identifier is required")
    end in
  reject match cu_capture_id request, cu_idempotency_key request with
         | Some capture_id, Some idempotency_key => negb (bool_decide (capture_id = idempotency_key))
         | _, _ => false
         end
    with Api.invalid "capture_id and idempotency_key must be identical when both are supplied";
  validate_capture_identifier id ?;
  Ok id.

(* ------------------------------------------------------------------ *)
(** ** Digests and sizes *)

Definition is_lower_hex (c : ascii) : bool :=
  is_ascii_digit c || (is_ascii_lowercase c && is_ascii_hexdigit c).

Definition validate_content_hash (value msg : string) : res ApiError unit :=
  reject negb (str_len value =? 64) || negb (forallb is_lower_hex (chars value))
    with Api.invalid msg;
  Ok tt.

Definition validate_digest (value : string) : res ApiError unit :=
  match strip_prefix "sha256:" value with
  | None => Err (Api.invalid "hash must be a lowercase sha256 digest")
  | Some hex => validate_content_hash hex "hash must be a lowercase sha256 digest"
  end.

Definition validate_size (size maximum : Z) (msg : string) : res ApiError unit :=
  reject (maximum <? size) || bool_decide (u64_to_i64 size = None) with Api.invalid msg;
  Ok tt.

Definition to_sqlite_i64 (value : Z) : res ApiError Z :=
  ok_or (u64_to_i64 value) (Api.invalid "artifact size exceeds configured bounds").

(* ------------------------------------------------------------------ *)
(** ** Logical paths *)

(** [component.split('.').next().unwrap_or(component)], then the reserved list. *)
Definition is_windows_reserved_component (component : list ascii) : bool :=
  let basename := match split_on "." component with w :: _ => w | [] => component end in
  bool_decide (to_ascii_uppercase (of_chars basename) ∈ WINDOWS_RESERVED_NAMES).

Definition ends_with (c : ascii) (l : list ascii) : bool := bool_decide (last l = Some c).

Definition is_path_char (c : ascii) : bool :=
  is_ascii_alphanumeric c || bool_decide (c = "."%char) || bool_decide (c = "_"%char)
  || bool_decide (c = "-"%char).

(** The closure given to [any] over the components. *)
Definition bad_component (part : list ascii) : bool :=
  bool_decide (part = [])
  || bool_decide (part = chars ".")
  || bool_decide (part = chars "..")
  || ends_with "." part
  || ends_with " " part
  || is_windows_reserved_component part
  || negb (forallb is_path_char part).

Definition validate_logical_path (path : string) : res ApiError unit :=
  let l := chars path in
  reject bool_decide (l = [])
         || (MAX_LOGICAL_PATH_BYTES <? str_len path)
         || bool_decide (head l = Some "/"%char)
         || bool_decide ("\"%char ∈ l)
         || bool_decide (":"%char ∈ l)
         || negb (forallb is_ascii l)
         || existsb is_ascii_control l
         || existsb bad_component (split_on "/" l)
    with Api.invalid "logical path must be a portable normalized relative regular-file path";
  Ok tt.

(** [str::rsplit_once]: the text before and after the last separator. *)
Fixpoint rsplit_once (c : ascii) (l : list ascii) : option (list ascii * list ascii) :=
  match l with
  | [] => None
  | x :: l' =>
      match rsplit_once c l' with
      | Some (p, q) => Some (x :: p, q)
      | None => if bool_decide (x = c) then Some ([], l') else None
      end
  end.

(** [while let Some((prefix, _)) = parent.rsplit_once('/')]: is a proper
    directory prefix of [parent] itself declared as a file? *)
Fixpoint has_file_ancestor (fuel : nat) (paths : gset string) (parent : list ascii) : bool :=
  match fuel with
  | O => false
  | S fuel =>
      match rsplit_once "/" parent with
      | None => false
      | Some (prefix, _) =>
          if bool_decide (of_chars prefix ∈ paths) then true
          else has_file_ancestor fuel paths prefix
      end
  end.

Definition path_conflict (paths : gset string) (path : string) : bool :=
  has_file_ancestor (length (chars path)) paths (chars path).

(* ------------------------------------------------------------------ *)
(** ** Captures *)

Section WithLibraries.
Context `{TimeLib} `{MimeLib}.

Definition validate_optional_media_type (value : option string) : res ApiError unit :=
  match value with
  | Some value =>
      validate_text value MAX_CONTEXT_VALUE_BYTES "media type is invalid" ?;
      reject negb (mime_parses value) with Api.invalid "media type is invalid";
      Ok tt
  | None => Ok tt
  end.

Fixpoint validate_optional_texts (values : list (option string)) : res ApiError unit :=
  match values with
  | [] => Ok tt
  | v :: vs => validate_optional_text v MAX_CONTEXT_VALUE_BYTES ?; validate_optional_texts vs
  end.

Definition normalize_capture (input : CaptureInput) : res ApiError Capture :=
  let? parsed := ok_or (parse_rfc3339 (ci_captured_at input))
                       (Api.invalid "capture timestamp must be RFC 3339") in
  let? captured := ok_or (format_rfc3339 parsed) Api.internal in
  validate_optional_texts
    [ ci_source_cursor input; ci_source_state_hash input; ci_project input;
      ci_repository input; ci_branch input; ci_source_agent_version input;
      ci_munshi_version input ] ?;
  reject ci_artifact_set_version input =? 0
    with Api.invalid "artifact set version must be a non-zero adapter contract version";
  reject MAX_METADATA_ENTRIES <? Z.of_nat (length (ci_source_metadata input))
    with Api.invalid "source metadata has too many entries";
  validate_entries "source metadata key is invalid" "source metadata value is invalid"
    (ci_source_metadata input) ?;
  Ok {| captured_at := captured;
        source_cursor := ci_source_cursor input;
        source_state_hash := ci_source_state_hash input;
        source_metadata := ci_source_metadata input;
        project := ci_project input;
        repository := ci_repository input;
        branch := ci_branch input;
        source_agent_version := ci_source_agent_version input;
        artifact_set_version := ci_artifact_set_version input;
        munshi_version := ci_munshi_version input |}.

(* ------------------------------------------------------------------ *)
(** ** Artifacts *)

(** The five accumulators the source passes by mutable reference. *)
Record NormalizeState : Type := {
  original_total : Z;
  stored_total : Z;
  portable_paths : gset string;
  representations : gmap string (Z * Compression);
  normalized : list Artifact;
}.

Definition initial_state : NormalizeState :=
  {| original_total := 0; stored_total := 0; portable_paths := ∅;
     representations := ∅; normalized := [] |}.

Definition normalize_artifact (input : ArtifactInput) (limits : ManifestLimits)
    (s : NormalizeState) : res ApiError NormalizeState :=
  validate_logical_path (logical_path input) ?;
  let portable_path := to_ascii_lowercase (logical_path input) in
  reject bool_decide (portable_path ∈ portable_paths s)
    with Api.invalid "manifest contains duplicate normalized logical paths";
  let paths := {[ portable_path ]} ∪ portable_paths s in
  validate_optional_media_type (media_type input) ?;
  validate_digest (original_sha256 input) ?;
  validate_digest (stored_sha256 input) ?;
  validate_size (original_size_bytes input) (artifact_original_bytes limits)
    "artifact original size exceeds the configured bounded limit" ?;
  validate_size (stored_size_bytes input) (artifact_stored_bytes limits)
    "artifact stored size exceeds the configured bounded limit" ?;
  let? original := ok_or (checked_add_u64 (original_total s) (original_size_bytes input))
                         (Api.invalid "snapshot original size is invalid") in
  reject snapshot_original_bytes limits <? original
    with Api.invalid "snapshot original size exceeds the configured bounded limit";
  let? stored := ok_or (checked_add_u64 (stored_total s) (stored_size_bytes input))
                       (Api.invalid "snapshot stored size is invalid") in
  reject snapshot_stored_bytes limits <? stored
    with Api.invalid "snapshot stored size exceeds the configured bounded limit";
  let stored_digest :=
    match strip_prefix "sha256:" (stored_sha256 input) with Some h => h | None => ""%string end in
  let? reps :=
    match representations s !! stored_digest with
    | Some (size, comp) =>
        reject negb (size =? stored_size_bytes input)
               || negb (bool_decide (comp = compression input))
          with Api.conflict "blob_integrity_conflict"
                 "stored digest conflicts with immutable blob size or compression metadata";
        Ok (representations s)
    | None => Ok (<[ stored_digest := (stored_size_bytes input, compression input) ]>
                    (representations s))
    end in
  Ok {| original_total := original;
        stored_total := stored;
        portable_paths := paths;
        representations := reps;
        normalized := normalized s ++ [input] |}.

Fixpoint normalize_artifacts (inputs : list ArtifactInput) (limits : ManifestLimits)
    (s : NormalizeState) : res ApiError NormalizeState :=
  match inputs with
  | [] => Ok s
  | a :: inputs =>
      let? s := normalize_artifact a limits s in
      normalize_artifacts inputs limits s
  end.

(** [sort_unstable_by(|l, r| l.logical_path.cmp(&r.logical_path))]; the byte
    order of [str] is [String.le]. *)
Definition path_le (a b : Artifact) : Prop := String.le (logical_path a) (logical_path b).
#[global] Instance path_le_dec : RelDecision path_le := fun a b => decide (String.le _ _).
Definition sort_by_logical_path (l : list Artifact) : list Artifact := merge_sort path_le l.

Definition normalize_manifest (input : ManifestInput) (limits : ManifestLimits)
  : res ApiError Manifest :=
  reject negb (mi_schema_version input =? 1)
    with Api.invalid "manifest schema version is not supported";
  validate_nonempty_text (source_agent (mi_session input)) MAX_SOURCE_AGENT_BYTES
    "source agent is invalid" ?;
  validate_nonempty_text (source_session_id (mi_session input)) MAX_SOURCE_SESSION_ID_BYTES
    "source session identifier is invalid" ?;
  let? cap := normalize_capture (mi_capture input) in
  let? arts :=
    match mi_artifacts input, mi_artifact input with
    | Some artifacts, None => Ok artifacts
    | None, Some artifact => Ok [artifact]
    | _, _ =>
        Err (Api.invalid "manifest must declare exactly one artifacts array or legacy artifact")
    end in
  reject bool_decide (arts = []) || (artifact_count limits <? Z.of_nat (length arts))
    with Api.invalid "manifest artifact count exceeds the configured bounded limit";
  let? s := normalize_artifacts arts limits initial_state in
  reject existsb (path_conflict (portable_paths s)) (elements (portable_paths s))
    with Api.invalid "manifest contains conflicting regular-file logical paths";
  Ok {| schema_version := mi_schema_version input;
        session := mi_session input;
        capture := cap;
        artifacts := sort_by_logical_path (normalized s) |}.

End WithLibraries.

(** [manifest_totals]: a checked fold over the artifacts. *)
Fixpoint totals_from (original stored : Z) (arts : list Artifact) : res ApiError (Z * Z) :=
  match arts with
  | [] => Ok (original, stored)
  | a :: arts =>
      let? original := ok_or (checked_add_u64 original (original_size_bytes a))
                             (Api.invalid "snapshot original size is invalid") in
      let? stored := ok_or (checked_add_u64 stored (stored_size_bytes a))
                           (Api.invalid "snapshot stored size is invalid") in
      totals_from original stored arts
  end.
Definition manifest_totals (m : Manifest) : res ApiError (Z * Z) := totals_from 0 0 (artifacts m).

(** An HTTP header value, as far as [HeaderValue::to_str] can read it. *)
Inductive HeaderValue : Type := HText (s : string) | HOpaque.
Abbreviation HeaderMap := (list (string * HeaderValue)).
(** [HeaderMap::get] returns the first value of a (lower-case) name. *)
Definition header_get (h : HeaderMap) (name : string) : option HeaderValue := assoc_fst name h.

Definition validate_octet_stream (headers : HeaderMap) : res ApiError unit :=
  let content_type := match header_get headers "content-type" with
                      | Some (HText s) => Some s
                      | _ => None
                      end in
  reject negb (bool_decide (content_type = Some "application/octet-stream"%string))
    with Api.invalid "artifact upload requires application/octet-stream content type";
  Ok tt.

Section Uuid.
Context `{UuidLib}.
Definition parse_uuid (value msg : string) : res ApiError string :=
  ok_or (parse_str value) (Api.invalid msg).
End Uuid.

(* ------------------------------------------------------------------ *)
(** ** What an accepted path, digest and manifest are *)

(** [sha256:] followed by 64 lower-case hexadecimal digits. *)
Definition sha256_document (s : string) : Prop :=
  exists h, s = "sha256:" +:+ h /\ String.length h = 64%nat
            /\ forall c, c ∈ chars h -> is_lower_hex c = true.

(** The components of a portable path, independent of the [split] that finds
    them: non-empty, from a fixed alphabet, none of them special. *)
Definition portable_component (w : list ascii) : Prop :=
  w <> [] /\ (forall c, c ∈ w -> is_path_char c = true)
  /\ last w <> Some "."%char /\ is_windows_reserved_component w = false.

Definition portable_path_text (p : string) : Prop :=
  exists ws, ws <> [] /\ chars p = join_on "/" ws /\ Forall portable_component ws
             /\ str_len p <= MAX_LOGICAL_PATH_BYTES.

(** How an operating system walks a relative path from a directory: [.] and
    an empty component stay, [..] leaves the current directory. *)
Fixpoint walk (dir : list (list ascii)) (ws : list (list ascii)) : list (list ascii) :=
  match ws with
  | [] => dir
  | w :: ws =>
      if bool_decide (w = []) || bool_decide (w = chars ".") then walk dir ws
      else if bool_decide (w = chars "..") then walk (removelast dir) ws
      else walk (dir ++ [w]) ws
  end.

(** [a] is an ancestor directory of [b]. *)
Definition directory_prefix (a b : string) : Prop :=
  exists rest, chars b = chars a ++ "/"%char :: rest.

Lemma str_len_chars s : str_len s = Z.of_nat (length (chars s)).
Proof. unfold str_len. by rewrite length_chars. Qed.

Lemma validate_content_hash_Ok h msg :
  validate_content_hash h msg = Ok tt <->
  String.length h = 64%nat /\ forall c, c ∈ chars h -> is_lower_hex c = true.
Proof.
  unfold validate_content_hash. rewrite reject_Ok, orb_false_iff, !negb_false_iff, Z.eqb_eq.
  rewrite forallb_true. unfold str_len. naive_solver lia.
Qed.

Lemma validate_digest_Ok s : validate_digest s = Ok tt <-> sha256_document s.
Proof.
  unfold validate_digest, sha256_document.
  destruct (strip_prefix "sha256:" s) as [h|] eqn:E.
  - rewrite validate_content_hash_Ok. apply strip_prefix_Some in E as ->. split.
    + intros [??]. eauto.
    + intros (h' & E & ?). assert (chars h = chars h') as ->%(inj chars); [|done].
      apply (f_equal chars) in E. rewrite !chars_app in E. by apply app_inv_head in E.
  - split; [discriminate|]. intros (h & -> & _).
    by rewrite (proj2 (strip_prefix_Some _ _ h) eq_refl) in E.
Qed.

Lemma path_chars_no_sep (w : list ascii) : (forall c, c ∈ w -> is_path_char c = true) -> "/"%char ∉ w.
Proof. intros H Hin. apply H in Hin. discriminate. Qed.

Lemma bad_component_false w :
  bad_component w = false <-> portable_component w.
Proof.
  unfold bad_component, ends_with, portable_component. split.
  - intros H. bool_to_prop. split_and!; try done.
  - intros (H1 & H2 & H3 & H4). rewrite H4.
    rewrite (bool_decide_false _ H1), (bool_decide_false _ H3).
    replace (forallb is_path_char w) with true
      by (symmetry; by apply forallb_true).
    rewrite !bool_decide_false; [done|..].
    + intros E. apply last_Some in E as [l ->]. by specialize (H2 " "%char ltac:(set_solver)).
    + by intros ->.
    + by intros ->.
Qed.

Lemma split_join (c : ascii) ws : ws <> [] -> Forall (fun w => c ∉ w) ws ->
  split_on c (join_on c ws) = ws.
Proof.
  intros Hne HF.
  assert (Hw : forall w l, c ∉ w -> split_on c (w ++ c :: l) = w :: split_on c l).
  { induction w as [|x w IH]; intros l Hx; simpl.
    - by rewrite bool_decide_true.
    - apply not_elem_of_cons in Hx as [? ?]. rewrite bool_decide_false by congruence.
      by rewrite IH. }
  assert (Hl : forall w, c ∉ w -> split_on c w = [w]).
  { induction w as [|x w IH]; intros Hx; simpl; [done|].
    apply not_elem_of_cons in Hx as [? ?]. rewrite bool_decide_false by congruence. by rewrite IH. }
  induction HF as [|w ws Hc HF IH]; [done|].
  destruct ws as [|v ws]; simpl in *; [by apply Hl|].
  rewrite Hw by done. f_equal. by apply IH.
Qed.

Lemma join_on_chars (c : ascii) ws x : x ∈ join_on c ws -> x = c \/ exists w, w ∈ ws /\ x ∈ w.
Proof.
  induction ws as [|w [|v ws] IH]; simpl.
  - by intros ?%elem_of_nil.
  - intros ?. right. exists w. split; [left|done].
  - rewrite elem_of_app, elem_of_cons. intros [H|[->|H]].
    + right. exists w. split; [left|done].
    + by left.
    + destruct (IH H) as [->|(u & ? & ?)]; [by left|]. right. exists u. split; [by right|done].
Qed.

Lemma portable_no_slash w : portable_component w -> "/"%char ∉ w.
Proof. intros (_ & H & _). by apply path_chars_no_sep. Qed.

Lemma path_char_ascii c : is_path_char c = true ->
  is_ascii c = true /\ is_ascii_control c = false /\ c <> "\"%char /\ c <> ":"%char.
Proof. destruct c as [[] [] [] [] [] [] [] []]; by vm_compute. Qed.

(** Every character of a joined portable path is a path character or [/]. *)
Lemma portable_join_chars ws c : Forall portable_component ws -> c ∈ join_on "/" ws ->
  c = "/"%char \/ is_path_char c = true.
Proof.
  rewrite Forall_forall. intros HF [->|(w & Hw & Hc)]%join_on_chars; [by left|right].
  destruct (HF w Hw) as (_ & H & _). by apply H.
Qed.

Lemma validate_logical_path_Ok p :
  validate_logical_path p = Ok tt <-> portable_path_text p.
Proof.
  unfold validate_logical_path. rewrite reject_Ok. split.
  - intros [H _]. bool_to_prop. exists (split_on "/" (chars p)). split_and!.
    + apply split_on_nonempty.
    + by rewrite join_split.
    + apply Forall_forall. intros w Hw. apply bad_component_false. auto.
    + done.
  - intros (ws & Hne & E & HF & Hlen). split; [|done].
    assert (Hc : forall c, c ∈ chars p -> c = "/"%char \/ is_path_char c = true).
    { intros c. rewrite E. by apply portable_join_chars. }
    assert (Hsplit : split_on "/" (chars p) = ws).
    { rewrite E. apply split_join; [done|]. eapply Forall_impl; [exact HF|]. apply portable_no_slash. }
    assert (Hhead : exists c l, chars p = c :: l /\ is_path_char c = true).
    { rewrite E. destruct ws as [|w ws]; [done|]. apply Forall_cons in HF as [(Hw & Hwc & _) _].
      destruct w as [|c w]; [done|]. assert (is_path_char c = true) by (apply Hwc; left).
      destruct ws; simpl; eauto. }
    destruct Hhead as (c0 & l0 & Hcl & Hc0). rewrite Hsplit.
    repeat (rewrite orb_false_iff; split).
    + apply bool_decide_eq_false. by rewrite Hcl.
    + by apply Z.ltb_ge.
    + apply bool_decide_eq_false. rewrite Hcl. intros [= ->]. discriminate.
    + apply bool_decide_eq_false. intros [|H]%Hc; [done|]. by destruct (path_char_ascii _ H) as (?&?&?&?).
    + apply bool_decide_eq_false. intros [|H]%Hc; [done|]. by destruct (path_char_ascii _ H) as (?&?&?&?).
    + apply negb_false_iff, forallb_true. intros c [->|H]%Hc; [done|]. by destruct (path_char_ascii c H) as (?&?&?&?).
    + apply existsb_false. intros c [->|H]%Hc; [done|]. by destruct (path_char_ascii c H) as (?&?&?&?).
    + apply existsb_false. intros w Hw. apply bad_component_false.
      rewrite Forall_forall in HF. auto.
Qed.

Lemma walk_portable dir ws : Forall portable_component ws -> walk dir ws = dir ++ ws.
Proof.
  intros HF. revert dir. induction HF as [|w ws Hw HF IH]; intros dir; simpl.
  - by rewrite app_nil_r.
  - destruct Hw as (H1 & _ & H3 & _). rewrite !bool_decide_false.
    + simpl. rewrite IH. by rewrite <-app_assoc.
    + by intros ->.
    + by intros ->.
    + done.
Qed.

(** C40: an accepted logical path, read component by component as a file
    system would, ends strictly below the directory it is joined to: it is
    that directory followed by its own components. *)
Theorem validated_path_stays_below p (dir : list (list ascii)) :
  validate_logical_path p = Ok tt ->
  exists ws, ws <> [] /\ split_on "/" (chars p) = ws /\ walk dir (split_on "/" (chars p)) = dir ++ ws.
Proof.
  intros (ws & Hne & E & HF & _)%validate_logical_path_Ok.
  assert (Hs : split_on "/" (chars p) = ws).
  { rewrite E. apply split_join; [done|]. eapply Forall_impl; [exact HF|]. apply portable_no_slash. }
  exists ws. rewrite Hs. split_and!; [done..|]. by apply walk_portable.
Qed.

Lemma rsplit_once_None c l : rsplit_once c l = None <-> c ∉ l.
Proof.
  induction l as [|x l IH]; simpl; [set_solver|].
  rewrite not_elem_of_cons. destruct (rsplit_once c l) as [[p q]|].
  - split; [discriminate|]. intros [_ H]. by apply IH in H.
  - case_bool_decide; naive_solver.
Qed.

Lemma rsplit_once_Some c l p q :
  rsplit_once c l = Some (p, q) <-> l = p ++ c :: q /\ c ∉ q.
Proof.
  revert p q; induction l as [|x l IH]; intros p q; simpl.
  - split; [discriminate|]. intros [E _]. by destruct p.
  - destruct (rsplit_once c l) as [[p' q']|] eqn:E.
    + destruct (proj1 (IH p' q') eq_refl) as [-> Hq']. split.
      * intros [= <- <-]. done.
      * intros [El Hq]. destruct p as [|y p]; simplify_eq/=; [set_solver|].
        assert (Some (p', q') = Some (p, q)) as [= <- <-] by (by apply IH). done.
    + apply rsplit_once_None in E. case_bool_decide as Hx.
      * subst x. split; [intros [= <- <-]; done|].
        intros [El Hq]. destruct p as [|y p]; simplify_eq/=; [done|]. set_solver.
      * split; [discriminate|]. intros [El Hq]. destruct p as [|y p]; simplify_eq/=. set_solver.
Qed.

(** Enough fuel is the length of the path: each turn of the loop shortens it. *)
Lemma has_file_ancestor_true fuel paths l : (length l <= fuel)%nat ->
  has_file_ancestor fuel paths l = true <->
  exists p q, l = p ++ "/"%char :: q /\ of_chars p ∈ paths.
Proof.
  revert l; induction fuel as [|fuel IH]; intros l Hl; simpl.
  - destruct l; [|simpl in Hl; lia]. split; [discriminate|]. intros ([] & q & ? & _); discriminate.
  - destruct (rsplit_once "/" l) as [[p q]|] eqn:E.
    + apply rsplit_once_Some in E as [-> Hq]. rewrite length_app in Hl; simpl in Hl.
      case_bool_decide as Hp; [naive_solver|].
      rewrite IH by lia. split.
      * intros (p' & q' & -> & ?). exists p', (q' ++ "/"%char :: q).
        by rewrite <-app_assoc.
      * intros (p' & q' & E & Hp'). apply app_eq_app in E as (k & [[-> E]|[-> E]]).
        -- destruct k as [|y k]; simplify_eq/=; [by rewrite app_nil_r in Hp|].
           exists p', k. done.
        -- destruct k as [|y k]; simplify_eq/=; [by rewrite app_nil_r in Hp'|].
           exfalso. set_solver.
    + apply rsplit_once_None in E. split; [discriminate|].
      intros (p & q & -> & _). set_solver.
Qed.

Lemma path_conflict_true paths b :
  path_conflict paths b = true <-> exists a, a ∈ paths /\ directory_prefix a b.
Proof.
  unfold path_conflict, directory_prefix. rewrite has_file_ancestor_true by done. split.
  - intros (p & q & E & Hp). exists (of_chars p). autorewrite with patwari. eauto.
  - intros (a & Ha & rest & E). exists (chars a), rest. autorewrite with patwari. eauto.
Qed.

(* ------------------------------------------------------------------ *)
(** ** Well-formed manifests *)

Section Manifests.
Context `{TimeLib} `{MimeLib}.

(** The types of the fields the code reads as [u64]. *)
Definition limits_typed (l : ManifestLimits) : Prop :=
  is_u64 (artifact_stored_bytes l) /\ is_u64 (artifact_original_bytes l)
  /\ is_u64 (snapshot_stored_bytes l) /\ is_u64 (snapshot_original_bytes l).
Definition artifact_typed (a : Artifact) : Prop :=
  is_u64 (original_size_bytes a) /\ is_u64 (stored_size_bytes a).

Definition media_type_ok (m : option string) : Prop :=
  match m with
  | None => True
  | Some v => str_len v <= MAX_CONTEXT_VALUE_BYTES
              /\ existsb is_ascii_control (chars v) = false /\ mime_parses v = true
  end.

Record artifact_ok (limits : ManifestLimits) (a : Artifact) : Prop := {
  ok_path : portable_path_text (logical_path a);
  ok_media : media_type_ok (media_type a);
  ok_original_sha : sha256_document (original_sha256 a);
  ok_stored_sha : sha256_document (stored_sha256 a);
  ok_original_size : original_size_bytes a <= artifact_original_bytes limits
                     /\ original_size_bytes a <= i64_max;
  ok_stored_size : stored_size_bytes a <= artifact_stored_bytes limits
                   /\ stored_size_bytes a <= i64_max;
}.

(** The key under which a file system that ignores case stores the path. *)
Definition portable_key (a : Artifact) : string := to_ascii_lowercase (logical_path a).

(** The conditions on a whole artifact set; none depends on its order. *)
Record artifacts_ok (limits : ManifestLimits) (arts : list Artifact) : Prop := {
  set_nonempty : arts <> [];
  set_count : Z.of_nat (length arts) <= artifact_count limits;
  set_each : Forall (artifact_ok limits) arts;
  set_distinct : NoDup (portable_key <$> arts);
  set_tree : forall a b, a ∈ arts -> b ∈ arts ->
             ~ directory_prefix (portable_key a) (portable_key b);
  set_original : sum_of original_size_bytes arts <= snapshot_original_bytes limits;
  set_stored : sum_of stored_size_bytes arts <= snapshot_stored_bytes limits;
  set_blobs : forall a b, a ∈ arts -> b ∈ arts -> stored_sha256 a = stored_sha256 b ->
              stored_size_bytes a = stored_size_bytes b /\ compression a = compression b;
}.

Lemma validate_text_Ok v m msg :
  validate_text v m msg = Ok tt <-> str_len v <= m /\ existsb is_ascii_control (chars v) = false.
Proof. unfold validate_text. rewrite reject_Ok, orb_false_iff, Z.ltb_ge. naive_solver. Qed.

Lemma validate_optional_media_type_Ok m :
  validate_optional_media_type m = Ok tt <-> media_type_ok m.
Proof.
  destruct m as [v|]; simpl; [|done].
  split.
  - intros E. inv_res. apply validate_text_Ok in Hx as [??]. by apply negb_false_iff in Hb.
  - intros (? & ? & Hm). rewrite (proj2 (validate_text_Ok _ _ _)) by done. simpl. by rewrite Hm.
Qed.

Lemma validate_size_Ok size maximum msg :
  validate_size size maximum msg = Ok tt <-> size <= maximum /\ size <= i64_max.
Proof.
  unfold validate_size. rewrite reject_Ok, orb_false_iff, Z.ltb_ge, bool_decide_eq_false.
  unfold u64_to_i64. destruct (Z.leb_spec size i64_max); naive_solver lia.
Qed.

(** The digest under which the stored representation is recorded. *)
Definition stored_digest_key (a : Artifact) : string :=
  match strip_prefix "sha256:" (stored_sha256 a) with Some h => h | None => ""%string end.
Definition representation (a : Artifact) : Z * Compression := (stored_size_bytes a, compression a).

Lemma stored_digest_key_inj a b :
  sha256_document (stored_sha256 a) -> sha256_document (stored_sha256 b) ->
  stored_digest_key a = stored_digest_key b -> stored_sha256 a = stored_sha256 b.
Proof.
  unfold stored_digest_key. intros (h & -> & _) (k & -> & _).
  rewrite !(proj2 (strip_prefix_Some _ _ _) eq_refl). by intros ->.
Qed.

(** What one artifact adds to the accumulators. *)
Definition absorb (a : Artifact) (s : NormalizeState) : NormalizeState :=
  {| original_total := original_total s + original_size_bytes a;
     stored_total := stored_total s + stored_size_bytes a;
     portable_paths := {[ portable_key a ]} ∪ portable_paths s;
     representations :=
       match representations s !! stored_digest_key a with
       | Some _ => representations s
       | None => <[ stored_digest_key a := representation a ]> (representations s)
       end;
     normalized := normalized s ++ [a] |}.

Definition admissible (limits : ManifestLimits) (a : Artifact) (s : NormalizeState) : Prop :=
  artifact_ok limits a
  /\ portable_key a ∉ portable_paths s
  /\ original_total s + original_size_bytes a <= snapshot_original_bytes limits
  /\ stored_total s + stored_size_bytes a <= snapshot_stored_bytes limits
  /\ (forall r, representations s !! stored_digest_key a = Some r -> r = representation a).

Lemma normalize_artifact_Ok limits a s s' : limits_typed limits ->
  normalize_artifact a limits s = Ok s' <-> admissible limits a s /\ s' = absorb a s.
Proof.
  intros (_ & _ & [_ Hls] & [_ Hlo]). unfold normalize_artifact, admissible, absorb.
  unfold portable_key, stored_digest_key, representation. split.
  - intros E. inv_res. apply validate_logical_path_Ok in Hx.
    apply validate_optional_media_type_Ok in Hx0.
    apply validate_digest_Ok in Hx1, Hx2. apply validate_size_Ok in Hx3, Hx4.
    rewrite checked_add_u64_Some in *. destruct_and!. subst. bool_to_prop.
    destruct (representations s !! _) as [[sz cp]|] eqn:Er; inv_res.
    + bool_to_prop. subst. split; [|done]. split_and!; try done. naive_solver.
    + split; [|done]. split_and!; try done.
  - intros [([Hp Hm Ho Hst Hos Hss] & Hk & Hot & Hstt & Hr) ->].
    rewrite (proj2 (validate_logical_path_Ok _) Hp). simpl.
    rewrite bool_decide_false by done.
    rewrite (proj2 (validate_optional_media_type_Ok _) Hm). simpl.
    rewrite (proj2 (validate_digest_Ok _) Ho), (proj2 (validate_digest_Ok _) Hst). simpl.
    rewrite (proj2 (validate_size_Ok _ _ _) Hos), (proj2 (validate_size_Ok _ _ _) Hss). simpl.
    rewrite checked_add_u64_fits by lia. simpl.
    rewrite (proj2 (Z.ltb_ge _ _) Hot).
    rewrite checked_add_u64_fits by lia. simpl.
    rewrite (proj2 (Z.ltb_ge _ _) Hstt).
    destruct (representations s !! _) as [[sz cp]|] eqn:Er; [|done].
    specialize (Hr _ eq_refl). simplify_eq. by rewrite Z.eqb_refl, bool_decide_true.
Qed.

(** The order-free conditions under which a whole list is absorbed. *)
Record absorbable (limits : ManifestLimits) (arts : list Artifact) (s : NormalizeState) : Prop := {
  ab_each : Forall (artifact_ok limits) arts;
  ab_distinct : NoDup (portable_key <$> arts);
  ab_fresh : forall a, a ∈ arts -> portable_key a ∉ portable_paths s;
  ab_original : original_total s + sum_of original_size_bytes arts <= snapshot_original_bytes limits;
  ab_stored : stored_total s + sum_of stored_size_bytes arts <= snapshot_stored_bytes limits;
  ab_agree : forall a b, a ∈ arts -> b ∈ arts -> stored_digest_key a = stored_digest_key b ->
             representation a = representation b;
  ab_known : forall a r, a ∈ arts -> representations s !! stored_digest_key a = Some r ->
             r = representation a;
}.

Lemma absorb_representation a s d :
  representations (absorb a s) !! d =
  match representations s !! d with
  | Some r => Some r
  | None => if bool_decide (stored_digest_key a = d) then Some (representation a) else None
  end.
Proof.
  simpl. destruct (representations s !! stored_digest_key a) as [r|] eqn:E.
  - case_bool_decide; [subst; by rewrite E|]. by destruct (representations s !! d).
  - case_bool_decide; [subst; by rewrite E, lookup_insert_eq|].
    rewrite lookup_insert_ne by done. by destruct (representations s !! d).
Qed.

Lemma absorbable_cons limits a arts s :
  Forall artifact_typed (a :: arts) ->
  absorbable limits (a :: arts) s <-> admissible limits a s /\ absorbable limits arts (absorb a s).
Proof.
  intros [[[Ha _] [Ha' _]] Hty]%Forall_cons.
  assert (Hno : 0 <= sum_of original_size_bytes arts).
  { apply sum_of_nonneg. eapply Forall_impl; [exact Hty|]. by intros x [[? _] _]. }
  assert (Hns : 0 <= sum_of stored_size_bytes arts).
  { apply sum_of_nonneg. eapply Forall_impl; [exact Hty|]. by intros x [_ [? _]]. }
  split.
  - intros [[He Hes]%Forall_cons [Hk Hks]%NoDup_cons Hf Ho Hst Hag Hkn]. simpl in *.
    split; [split_and!; try done; try lia; set_solver|].
    split; simpl; try done; try lia.
    + intros b Hb. rewrite not_elem_of_union, not_elem_of_singleton. split; [|set_solver].
      intros E. apply Hk. rewrite <-E. by apply list_elem_of_fmap_2.
    + set_solver.
    + intros b r Hb Hl.
      assert (Hl' : representations (absorb a s) !! stored_digest_key b = Some r) by exact Hl.
      rewrite absorb_representation in Hl'.
      destruct (representations s !! stored_digest_key b) as [r'|] eqn:E.
      * injection Hl' as <-. eapply Hkn; [by right|done].
      * case_bool_decide as Hd; [|discriminate]. injection Hl' as <-.
        apply Hag; [left|by right|done].
  - intros [(He & Hf & Ho & Hst & Hr) [Hes Hks Hfs Hos Hss Hag Hkn]]. simpl in *. split; simpl.
    + by constructor.
    + constructor; [|done]. intros (b & Hkb & Hb)%list_elem_of_fmap.
      apply (Hfs b Hb). set_solver.
    + intros b [->|Hb]%elem_of_cons; [done|]. specialize (Hfs b Hb). set_solver.
    + lia.
    + lia.
    + assert (Hkn' : forall b r, b ∈ arts -> representations (absorb a s) !! stored_digest_key b
                     = Some r -> r = representation b) by exact Hkn.
      assert (Hab : forall b, b ∈ arts -> stored_digest_key a = stored_digest_key b ->
                    representation a = representation b).
      { intros b Hb Hd. destruct (representations s !! stored_digest_key b) as [r|] eqn:E.
        - transitivity r; [symmetry; apply Hr; by rewrite Hd|].
          apply Hkn'; [done|]. by rewrite absorb_representation, E.
        - apply Hkn'; [done|]. by rewrite absorb_representation, E, bool_decide_true. }
      intros b c [->|Hb]%elem_of_cons [->|Hc]%elem_of_cons Hd; auto.
      symmetry. auto.
    + intros b r [->|Hb]%elem_of_cons Hl; [by apply Hr|].
      apply (Hkn b r Hb). change (representations (absorb a s) !! stored_digest_key b = Some r).
      by rewrite absorb_representation, Hl.
Qed.

Lemma absorbable_nil limits s :
  original_total s <= snapshot_original_bytes limits ->
  stored_total s <= snapshot_stored_bytes limits -> absorbable limits [] s.
Proof. intros. split; simpl; try lia; try set_solver; constructor. Qed.

(** The state after a list of artifacts. *)
Definition absorb_all (arts : list Artifact) (s : NormalizeState) : NormalizeState :=
  fold_left (fun s a => absorb a s) arts s.

Lemma normalize_artifacts_Ok limits arts s s' :
  limits_typed limits -> Forall artifact_typed arts ->
  original_total s <= snapshot_original_bytes limits ->
  stored_total s <= snapshot_stored_bytes limits ->
  normalize_artifacts arts limits s = Ok s' <-> absorbable limits arts s /\ s' = absorb_all arts s.
Proof.
  intros Hl. revert s. induction arts as [|a arts IH]; intros s Hty Ho Hs; simpl.
  - split; [intros [= <-]|by intros [_ ->]]. split; [by apply absorbable_nil|done].
  - rewrite absorbable_cons by done. rewrite res_bind_Ok.
    setoid_rewrite normalize_artifact_Ok; [|done]. apply Forall_cons in Hty as [Ha Hty]. split.
    + intros (s1 & [Hadm ->] & Hrest). destruct Hadm as (? & ? & ? & ? & ?).
      apply IH in Hrest as [? ->]; [|done..]. done.
    + intros [[Hadm Hab] ->]. destruct Hadm as (? & ? & ? & ? & ?).
      exists (absorb a s). split; [done|]. by apply IH.
Qed.

Lemma absorb_all_spec arts s :
  original_total (absorb_all arts s) = original_total s + sum_of original_size_bytes arts
  /\ stored_total (absorb_all arts s) = stored_total s + sum_of stored_size_bytes arts
  /\ portable_paths (absorb_all arts s) = list_to_set (portable_key <$> arts) ∪ portable_paths s
  /\ normalized (absorb_all arts s) = normalized s ++ arts.
Proof.
  revert s; induction arts as [|a arts IH]; intros s; simpl.
  - rewrite app_nil_r. split_and!; [lia|lia|set_solver|done].
  - destruct (IH (absorb a s)) as (-> & -> & -> & ->). simpl.
    rewrite <-app_assoc. split_and!; [lia|lia|set_solver|done].
Qed.

(** The declared artifacts, in whichever of the two fields they came. *)
Definition declared (input : ManifestInput) : option (list Artifact) :=
  match mi_artifacts input, mi_artifact input with
  | Some arts, None => Some arts
  | None, Some a => Some [a]
  | _, _ => None
  end.

Lemma artifacts_ok_absorbable limits arts :
  Forall artifact_typed arts -> arts <> [] -> Z.of_nat (length arts) <= artifact_count limits ->
  artifacts_ok limits arts <->
  absorbable limits arts initial_state
  /\ existsb (path_conflict (list_to_set (portable_key <$> arts)))
       (elements (list_to_set (portable_key <$> arts) : gset string)) = false.
Proof.
  intros Hty Hne Hc. rewrite existsb_false.
  assert (Hconf : (forall x, x ∈ elements (list_to_set (portable_key <$> arts) : gset string) ->
                     path_conflict (list_to_set (portable_key <$> arts)) x = false)
                  <-> forall a b, a ∈ arts -> b ∈ arts ->
                      ~ directory_prefix (portable_key a) (portable_key b)).
  { split.
    - intros Hno a b Ha Hb Hd. specialize (Hno (portable_key b)).
      apply not_true_iff_false in Hno;
        [|by apply elem_of_elements, elem_of_list_to_set, list_elem_of_fmap_2].
      apply Hno, path_conflict_true. exists (portable_key a). split; [|done].
      apply elem_of_list_to_set, list_elem_of_fmap_2, Ha.
    - intros Hno x Hx. apply not_true_iff_false. intros (y & Hy & Hd)%path_conflict_true.
      apply elem_of_list_to_set, list_elem_of_fmap in Hy as (a & -> & Ha).
      apply elem_of_elements, elem_of_list_to_set, list_elem_of_fmap in Hx as (b & -> & Hb).
      by apply (Hno a b). }
  rewrite Hconf. split.
  - intros [? ? He Hd Ht Ho Hs Hb]. split; [|done]. split; simpl; try done.
    intros a b Ha Hb' E. unfold representation. rewrite Forall_forall in He.
    destruct (Hb a b) as [-> ->]; try done.
    apply stored_digest_key_inj; [apply He|apply He|]; done.
  - intros [[He Hd _ Ho Hs Hag _] Ht]. simpl in *. split; try done.
    intros a b Ha Hb E. unfold stored_digest_key, representation in Hag.
    specialize (Hag a b Ha Hb). rewrite E in Hag. by injection (Hag eq_refl).
Qed.
End Manifests.

(* ------------------------------------------------------------------ *)
(** ** The theorems about [normalize_manifest] *)

#[export] Instance path_le_trans : Transitive path_le.
Proof. intros a b c. unfold path_le. apply transitivity. Qed.
#[export] Instance path_le_total : Total path_le.
Proof. intros a b. unfold path_le. apply (total String.le). Qed.

Lemma sort_Permutation l : sort_by_logical_path l ≡ₚ l.
Proof. apply merge_sort_Permutation. Qed.
Lemma sort_Sorted l : StronglySorted path_le (sort_by_logical_path l).
Proof. apply StronglySorted_merge_sort; apply _. Qed.

(** With distinct paths the sorted list is the only sorted arrangement. *)
Lemma sort_unique l k :
  NoDup (logical_path <$> l) -> l ≡ₚ k -> StronglySorted path_le k -> sort_by_logical_path l = k.
Proof.
  intros Hd Hp Hk. apply (StronglySorted_unique_strong path_le).
  - intros a b Ha Hb Hab Hba. rewrite sort_Permutation in Ha. rewrite <-Hp in Hb.
    apply (NoDup_key_inj logical_path l); [done..|]. by apply (anti_symm String.le).
  - apply sort_Sorted.
  - done.
  - by rewrite sort_Permutation.
Qed.

Lemma totals_from_Ok o s arts :
  Forall artifact_typed arts -> 0 <= o -> 0 <= s ->
  o + sum_of original_size_bytes arts <= u64_max -> s + sum_of stored_size_bytes arts <= u64_max ->
  totals_from o s arts =
    Ok (o + sum_of original_size_bytes arts, s + sum_of stored_size_bytes arts).
Proof.
  revert o s; induction arts as [|a arts IH]; intros o s Hty Ho Hs Hbo Hbs; simpl.
  - by rewrite !Z.add_0_r.
  - apply Forall_cons in Hty as [[[? _] [? _]] Hty]. simpl in *.
    assert (0 <= sum_of original_size_bytes arts).
    { apply sum_of_nonneg. eapply Forall_impl; [exact Hty|]. by intros ? [[? _] _]. }
    assert (0 <= sum_of stored_size_bytes arts).
    { apply sum_of_nonneg. eapply Forall_impl; [exact Hty|]. by intros ? [_ [? _]]. }
    rewrite checked_add_u64_fits by lia. simpl.
    rewrite checked_add_u64_fits by lia. simpl.
    rewrite IH by (done || lia). f_equal. f_equal; lia.
Qed.

Section Theorems.
Context `{TL : TimeLib} `{ML : MimeLib}.

(** The checks before the artifacts: schema version, session and capture. *)
Definition manifest_header (input : ManifestInput) : res ApiError Capture :=
  reject negb (mi_schema_version input =? 1)
    with Api.invalid "manifest schema version is not supported";
  validate_nonempty_text (source_agent (mi_session input)) MAX_SOURCE_AGENT_BYTES
    "source agent is invalid" ?;
  validate_nonempty_text (source_session_id (mi_session input)) MAX_SOURCE_SESSION_ID_BYTES
    "source session identifier is invalid" ?;
  normalize_capture (mi_capture input).

Definition input_typed (input : ManifestInput) : Prop :=
  forall arts, declared input = Some arts -> Forall artifact_typed arts.

Lemma normalize_manifest_Ok input limits m :
  limits_typed limits -> input_typed input ->
  normalize_manifest input limits = Ok m <->
  exists arts cap,
    manifest_header input = Ok cap /\ declared input = Some arts /\ artifacts_ok limits arts
    /\ m = {| schema_version := mi_schema_version input; session := mi_session input;
              capture := cap; artifacts := sort_by_logical_path arts |}.
Proof.
  intros Hl Hty. pose proof Hl as (_ & _ & [Hs0 _] & [Ho0 _]).
  unfold normalize_manifest, manifest_header, input_typed, declared in *. split.
  - intros E. inv_res.
    assert (Hd : declared input = Some x2) by
      (unfold declared; destruct (mi_artifacts input), (mi_artifact input); by inv_res).
    unfold declared in Hd. specialize (Hty _ Hd).
    apply orb_false_iff in Hb0 as [Hne%bool_decide_eq_false Hc%Z.ltb_ge].
    apply normalize_artifacts_Ok in Hx3 as [Hab ->]; [|done..].
    destruct (absorb_all_spec x2 initial_state) as (_ & _ & Hp & Hn). simpl in Hp, Hn.
    rewrite Hp, (right_id_L ∅ (∪)) in Hb1. rewrite Hn.
    exists x2, x1. rewrite Hb. simpl. rewrite Hx. simpl. rewrite Hx0. split_and!; try done.
    apply artifacts_ok_absorbable; done.
  - intros (arts & cap & Hh & Hd & Hok & ->). inv_res.
    rewrite Hb, Hx. simpl. rewrite Hx0. simpl. rewrite Hh. simpl.
    replace (match mi_artifacts input with Some _ => _ | None => _ end)
      with (@Ok ApiError _ arts)
      by (destruct (mi_artifacts input), (mi_artifact input); by simplify_eq).
    simpl. rewrite bool_decide_false by apply Hok. simpl.
    rewrite (proj2 (Z.ltb_ge _ _)) by apply Hok.
    apply artifacts_ok_absorbable in Hok as [Hab Hconf]; [|by apply Hty|apply Hok|apply Hok].
    rewrite (proj2 (normalize_artifacts_Ok limits arts initial_state _ Hl (Hty _ Hd) Ho0 Hs0)
               (conj Hab eq_refl)). simpl.
    destruct (absorb_all_spec arts initial_state) as (_ & _ & Hp & Hn). simpl in Hp, Hn.
    rewrite Hp, (right_id_L ∅ (∪)), Hn. by rewrite Hconf.
Qed.

Lemma artifacts_ok_Permutation limits k l :
  k ≡ₚ l -> artifacts_ok limits k -> artifacts_ok limits l.
Proof.
  intros Hp [? ? ? ? Ht ? ? Hb]. split.
  - intros ->. by apply Permutation_nil_r in Hp.
  - by rewrite <-Hp.
  - by rewrite <-Hp.
  - by rewrite <-Hp.
  - intros a b Ha Hb'. rewrite <-Hp in Ha, Hb'. auto.
  - by rewrite <-Hp.
  - by rewrite <-Hp.
  - intros a b Ha Hb'. rewrite <-Hp in Ha, Hb'. auto.
Qed.

Lemma artifacts_ok_paths_distinct limits arts :
  artifacts_ok limits arts -> NoDup (logical_path <$> arts).
Proof.
  intros Hok. pose proof (set_distinct _ _ Hok) as Hd.
  unfold portable_key in Hd. change (λ a, to_ascii_lowercase (logical_path a))
    with (to_ascii_lowercase ∘ logical_path) in Hd.
  rewrite list_fmap_compose in Hd. by apply NoDup_fmap_1 in Hd.
Qed.

(** C28: what an accepted manifest guarantees: the session named by the client,
    within every limit, sorted by path, with portable paths that are pairwise
    distinct when case is ignored and none of which is a directory of another,
    one representation per stored digest, no artifact lost or invented, and
    totals that the later stages compute without overflow. *)
Theorem normalize_manifest_sound input limits m :
  limits_typed limits -> input_typed input ->
  normalize_manifest input limits = Ok m ->
  schema_version m = 1 /\ session m = mi_session input
  /\ artifacts_ok limits (artifacts m)
  /\ StronglySorted path_le (artifacts m) /\ NoDup (logical_path <$> artifacts m)
  /\ (exists arts, declared input = Some arts /\ artifacts m ≡ₚ arts)
  /\ manifest_totals m = Ok (sum_of original_size_bytes (artifacts m),
                             sum_of stored_size_bytes (artifacts m)).
Proof.
  intros Hl Hty (arts & cap & Hh & Hd & Hok & ->)%normalize_manifest_Ok; [|done..]. simpl.
  assert (Hp : artifacts_ok limits (sort_by_logical_path arts)).
  { eapply artifacts_ok_Permutation; [|exact Hok]. by rewrite sort_Permutation. }
  split_and!; try done.
  - unfold manifest_header in Hh. inv_res. bool_to_prop. done.
  - apply sort_Sorted.
  - by eapply artifacts_ok_paths_distinct.
  - exists arts. split; [done|apply sort_Permutation].
  - unfold manifest_totals. simpl. destruct Hl as (_ & _ & [_ ?] & [_ ?]).
    pose proof (set_original _ _ Hp). pose proof (set_stored _ _ Hp).
    apply totals_from_Ok; try lia. rewrite sort_Permutation. by apply Hty.
Qed.

(** The artifacts an accepted document lists in order stay as they are, whatever
    the limits. *)
Lemma normalize_artifacts_distinct limits arts : forall s s', normalize_artifacts arts limits s = Ok s' ->
  normalized s' = normalized s ++ arts /\ NoDup (portable_key <$> arts)
  /\ forall a, a ∈ arts -> portable_key a ∉ portable_paths s.
Proof.
  induction arts as [|a arts IH]; intros s s' E; cbn [normalize_artifacts] in E.
  - injection E as <-. rewrite app_nil_r. split_and!; [done|constructor|by intros a ?%elem_of_nil].
  - inv_res. match goal with Hx : normalize_artifact _ _ _ = Ok ?y, Hy : normalize_artifacts _ _ ?y = Ok _ |- _ =>
      destruct (IH _ _ Hy) as (En & Hd & Hf); rename Hx into E1 end.
    unfold normalize_artifact in E1. inv_res. cbn [normalized portable_paths] in *.
    match goal with Hb : bool_decide (_ ∈ portable_paths s) = false |- _ => apply bool_decide_eq_false in Hb as Hnew end.
    split_and!; [by rewrite En, <-app_assoc| |].
    + constructor; [|done]. intros (b & Eb & Hin)%list_elem_of_fmap. apply (Hf b Hin). unfold portable_key in *. set_solver.
    + intros b [->|Hin]%elem_of_cons; [done|]. specialize (Hf b Hin). set_solver.
Qed.
Lemma normalize_manifest_sorted input limits m arts : normalize_manifest input limits = Ok m ->
  declared input = Some arts -> StronglySorted path_le arts -> artifacts m = arts.
Proof.
  unfold normalize_manifest. intros E Hd Hs. inv_res. cbn [artifacts].
  match goal with Hx : normalize_artifacts ?k _ _ = Ok _, Hy : _ = Ok ?k |- _ => assert (k = arts) as ->;
    [unfold declared in Hd; destruct (mi_artifacts input), (mi_artifact input); by simplify_eq|];
    apply normalize_artifacts_distinct in Hx as (-> & Hn & _) end.
  cbn [initial_state normalized app]. apply sort_unique; [|done|done].
  unfold portable_key in Hn. change (λ a, to_ascii_lowercase (logical_path a)) with (to_ascii_lowercase ∘ logical_path) in Hn.
  rewrite list_fmap_compose in Hn. by apply NoDup_fmap_1 in Hn.
Qed.

(** The order in which the client lists its artifacts has no effect on the
    canonical manifest, hence none on its fingerprint. *)
Theorem normalize_manifest_order_irrelevant input limits m arts arts' :
  limits_typed limits -> Forall artifact_typed arts ->
  mi_artifacts input = Some arts -> mi_artifact input = None -> arts ≡ₚ arts' ->
  normalize_manifest input limits = Ok m ->
  normalize_manifest
    {| mi_schema_version := mi_schema_version input; mi_session := mi_session input;
       mi_capture := mi_capture input; mi_artifacts := Some arts'; mi_artifact := None |} limits
  = Ok m.
Proof.
  intros Hl Hty Ha Hn Hp E.
  apply normalize_manifest_Ok in E as (k & cap & Hh & Hd & Hok & ->); [|done|].
  2: { intros l. unfold declared. rewrite Ha, Hn. by intros [= <-]. }
  unfold declared in Hd. rewrite Ha, Hn in Hd. simplify_eq.
  apply normalize_manifest_Ok; [done|intros l [= <-]; by rewrite <-Hp|].
  exists arts', cap. split_and!; try done.
  - by eapply artifacts_ok_Permutation.
  - f_equal. apply sort_unique.
    + by eapply artifacts_ok_paths_distinct.
    + by rewrite sort_Permutation.
    + apply sort_Sorted.
Qed.

(** The manifest read back as a request. *)
Definition as_capture_input (c : Capture) : CaptureInput :=
  {| ci_captured_at := captured_at c; ci_source_cursor := source_cursor c;
     ci_source_state_hash := source_state_hash c; ci_source_metadata := source_metadata c;
     ci_project := project c; ci_repository := repository c; ci_branch := branch c;
     ci_source_agent_version := source_agent_version c;
     ci_artifact_set_version := artifact_set_version c; ci_munshi_version := munshi_version c |}.
Definition as_manifest_input (m : Manifest) : ManifestInput :=
  {| mi_schema_version := schema_version m; mi_session := session m;
     mi_capture := as_capture_input (capture m); mi_artifacts := Some (artifacts m);
     mi_artifact := None |}.

Lemma normalize_capture_idempotent {TLaws : TimeLaws TL} ci c :
  normalize_capture ci = Ok c -> normalize_capture (as_capture_input c) = Ok c.
Proof.
  unfold normalize_capture. intros E. inv_res. cbn [as_capture_input ci_captured_at captured_at].
  rewrite (parse_format _ _ Hx0). simpl. replay_res.
Qed.

(** An accepted manifest, sent back as a request, is accepted unchanged:
    it is its own normal form. *)
Theorem normalize_manifest_idempotent {TLaws : TimeLaws TL} input limits m :
  limits_typed limits -> input_typed input ->
  normalize_manifest input limits = Ok m ->
  normalize_manifest (as_manifest_input m) limits = Ok m.
Proof.
  intros Hl Hty (arts & cap & Hh & Hd & Hok & ->)%normalize_manifest_Ok; [|done..].
  specialize (Hty _ Hd).
  apply normalize_manifest_Ok; [done|intros l [= <-]; by rewrite sort_Permutation|].
  exists (sort_by_logical_path arts), cap. split_and!; try done.
  - unfold manifest_header in *. inv_res. simpl. rewrite Hb, Hx. simpl. rewrite Hx0. simpl.
    by apply (normalize_capture_idempotent (mi_capture input)).
  - eapply artifacts_ok_Permutation; [|exact Hok]. by rewrite sort_Permutation.
  - simpl. f_equal. symmetry. apply sort_unique; [|done|apply sort_Sorted].
    rewrite sort_Permutation. by eapply artifacts_ok_paths_distinct.
Qed.
End Theorems.

(* ------------------------------------------------------------------ *)
(** ** The theorems at concrete inputs *)
#[local] Existing Instances calendar_time calendar_laws any_mime.

Definition sample_digest (c : ascii) : string := "sha256:" +:+ of_chars (replicate 64 c).
Definition sample_artifact (path : string) (c : ascii) (original stored : Z) : Artifact :=
  {| logical_path := path; media_type := Some "text/plain"%string;
     original_size_bytes := original; original_sha256 := sample_digest c;
     stored_size_bytes := stored; stored_sha256 := sample_digest c; compression := Zstd |}.
Definition sample_artifacts : list Artifact :=
  [sample_artifact "logs/b.txt" "b" 7 5; sample_artifact "logs/a.txt" "a" 3 2].
Definition sample_input : ManifestInput :=
  {| mi_schema_version := 1;
     mi_session := {| source_agent := "munshi"; source_session_id := "session-1" |};
     mi_capture :=
       {| ci_captured_at := "2026-01-01T01:00:00+01:00"; ci_source_cursor := None;
          ci_source_state_hash := None; ci_source_metadata := [("k", "v")]%string;
          ci_project := None; ci_repository := Some "patwari"%string; ci_branch := None;
          ci_source_agent_version := None; ci_artifact_set_version := 1;
          ci_munshi_version := None |};
     mi_artifacts := Some sample_artifacts;
     mi_artifact := None |}.
Definition sample_limits : ManifestLimits :=
  {| artifact_stored_bytes := 100; artifact_original_bytes := 100;
     artifact_count := 4; snapshot_stored_bytes := 200; snapshot_original_bytes := 200 |}.
Definition sample_manifest : Manifest :=
  {| schema_version := 1;
     session := {| source_agent := "munshi"; source_session_id := "session-1" |};
     capture :=
       {| captured_at := "2026-01-01T01:00:00+01:00"; source_cursor := None;
          source_state_hash := None; source_metadata := [("k", "v")]%string;
          project := None; repository := Some "patwari"%string; branch := None;
          source_agent_version := None; artifact_set_version := 1; munshi_version := None |};
     artifacts := [sample_artifact "logs/a.txt" "a" 3 2; sample_artifact "logs/b.txt" "b" 7 5] |}.

Lemma sample_limits_typed : limits_typed sample_limits.
Proof. unfold limits_typed, is_u64, u64_max. simpl. lia. Qed.
Lemma sample_artifacts_typed : Forall artifact_typed sample_artifacts.
Proof. repeat constructor; simpl; unfold u64_max; lia. Qed.
Lemma sample_input_typed : input_typed sample_input.
Proof. intros arts [= <-]. apply sample_artifacts_typed. Qed.

Lemma validated_path_stays_below_witness :
  exists ws, ws <> [] /\ split_on "/" (chars "logs/a.txt") = ws
    /\ walk [chars "base"] (split_on "/" (chars "logs/a.txt")) = [chars "base"] ++ ws.
Proof. apply (validated_path_stays_below "logs/a.txt"). by vm_compute. Defined.

Lemma normalize_manifest_sound_witness :
  schema_version sample_manifest = 1 /\ session sample_manifest = mi_session sample_input
  /\ artifacts_ok sample_limits (artifacts sample_manifest)
  /\ StronglySorted path_le (artifacts sample_manifest)
  /\ NoDup (logical_path <$> artifacts sample_manifest)
  /\ (exists arts, declared sample_input = Some arts /\ artifacts sample_manifest ≡ₚ arts)
  /\ manifest_totals sample_manifest
     = Ok (sum_of original_size_bytes (artifacts sample_manifest),
           sum_of stored_size_bytes (artifacts sample_manifest)).
Proof.
  apply (normalize_manifest_sound (TL:=calendar_time) sample_input sample_limits sample_manifest).
  - apply sample_limits_typed.
  - apply sample_input_typed.
  - by vm_compute.
Defined.

Lemma normalize_manifest_order_irrelevant_witness :
  normalize_manifest
    {| mi_schema_version := 1; mi_session := mi_session sample_input;
       mi_capture := mi_capture sample_input;
       mi_artifacts := Some (reverse sample_artifacts); mi_artifact := None |} sample_limits
  = Ok sample_manifest.
Proof.
  apply (normalize_manifest_order_irrelevant (TL:=calendar_time) sample_input sample_limits sample_manifest
           sample_artifacts (reverse sample_artifacts)).
  - apply sample_limits_typed.
  - apply sample_artifacts_typed.
  - reflexivity.
  - reflexivity.
  - symmetry. apply reverse_Permutation.
  - by vm_compute.
Defined.

Lemma normalize_manifest_idempotent_witness :
  normalize_manifest (as_manifest_input sample_manifest) sample_limits = Ok sample_manifest.
Proof.
  apply (normalize_manifest_idempotent (TL:=calendar_time) sample_input).
  - apply sample_limits_typed.
  - apply sample_input_typed.
  - by vm_compute.
Defined.
