(* ===== verification/Chunks.v ===== *)
(** Chunk layouts, chunk bitmaps, hexadecimal digests and bounded hashing: the
    pure helpers of [ingestion.rs] that the upload protocol is built on. *)
From stdpp Require Import prelude strings gmap sorting list.
From Stdlib Require Import ZArith NArith Ascii Lia.
From Stdlib.Strings Require Import Byte.
From S2P Require Import Prelude Errors Contract Externals Validation.

(** [config.rs] *)
Definition MAX_CHUNK_COUNT : Z := 65536.
(** [ingestion.rs] *)
Definition MAX_SNAPSHOT_CHUNK_COUNT : Z := 262144.

(* ------------------------------------------------------------------ *)
(** ** Chunk layout *)

Definition chunk_count (stored_size chunk_size : Z) : res ApiError Z :=
  reject chunk_size =? 0 with Api.internal;
  let? count :=
    if stored_size =? 0 then Ok 0
    else ok_or (size ← checked_sub_u64 stored_size 1;
                quotient ← checked_div_u64 size chunk_size;
                checked_add_u64 quotient 1)
               (Api.invalid "artifact chunk count is invalid") in
  reject MAX_CHUNK_COUNT <? count
    with Api.invalid "artifact requires more chunks than the configured bounded limit";
  Ok count.

Record UploadLayout : Type := {
  chunk_counts : list Z;
  total_original_bytes : Z;
  total_stored_bytes : Z;
}.

(** The loop of [upload_layout]: per-artifact counts and their checked sum. *)
Fixpoint layout_counts (chunk_size_bytes total_chunks : Z) (arts : list Artifact)
  : res ApiError (list Z) :=
  match arts with
  | [] => Ok []
  | a :: arts =>
      let? count := chunk_count (stored_size_bytes a) chunk_size_bytes in
      let? total := ok_or (checked_add_u64 total_chunks count)
                          (Api.invalid "snapshot chunk count is invalid") in
      reject MAX_SNAPSHOT_CHUNK_COUNT <? total
        with Api.invalid "snapshot requires more chunks than the bounded upload limit";
      let? counts := layout_counts chunk_size_bytes total arts in
      Ok (count :: counts)
  end.

Definition upload_layout (m : Manifest) (chunk_size_bytes : Z) : res ApiError UploadLayout :=
  let? totals := manifest_totals m in
  let? counts := layout_counts chunk_size_bytes 0 (artifacts m) in
  Ok {| chunk_counts := counts;
        total_original_bytes := totals.1;
        total_stored_bytes := totals.2 |}.

(** [expected_chunk_length]; the upload row gives [chunk_size_bytes], the
    artifact row [chunk_count] and [stored_size_bytes], all [i64] columns. *)
Definition expected_chunk_length (chunk_size_bytes row_chunk_count row_stored_size chunk_index : Z)
  : res ApiError Z :=
  let? chunk_count := ok_or (i64_to_u64 row_chunk_count) Api.internal in
  reject chunk_count <=? chunk_index
    with Api.invalid "chunk index is outside the negotiated artifact range";
  let? chunk_size := ok_or (i64_to_u64 chunk_size_bytes) Api.internal in
  let? stored_size := ok_or (i64_to_u64 row_stored_size) Api.internal in
  let? offset := ok_or (checked_mul_u64 chunk_index chunk_size) Api.internal in
  if chunk_index + 1 =? chunk_count
  then ok_or (checked_sub_u64 stored_size offset) Api.internal
  else Ok chunk_size.

(* ------------------------------------------------------------------ *)
(** ** Chunk bitmaps: bit [i mod 8] of byte [i / 8] is chunk [i] *)

Definition set_bit (index : Z) (bitmap : list N) : list N :=
  alter (fun b => N.lor b (N.shiftl 1 (Z.to_N (index mod 8)))) (Z.to_nat (index / 8)) bitmap.

Definition bit_is_set (bitmap : list N) (index : Z) : bool :=
  match bitmap !! Z.to_nat (index / 8) with
  | Some b => negb (N.land b (N.shiftl 1 (Z.to_N (index mod 8))) =? 0)%N
  | None => false
  end.

(** The loop over the accepted rows of [upload_artifact_status]. *)
Fixpoint fill_bitmap (chunk_count : Z) (rows : list Z) (bitmap : list N)
  : res ApiError (list N) :=
  match rows with
  | [] => Ok bitmap
  | row :: rows =>
      let? index := ok_or (i64_to_u64 row) Api.internal in
      reject chunk_count <=? index
        with Api.conflict "chunk_layout_invalid"
               "accepted chunk records do not match the negotiated layout";
      fill_bitmap chunk_count rows (set_bit index bitmap)
  end.

(** [chunk_count.div_ceil(8)] zero bytes *)
Definition empty_bitmap (chunk_count : Z) : list N :=
  replicate (Z.to_nat ((chunk_count + 7) / 8)) 0%N.

Definition missing_chunk_indexes (chunk_count : Z) (bitmap : list N) : list Z :=
  filter (fun index => bit_is_set bitmap index = false) (seqZ 0 chunk_count).

(* ------------------------------------------------------------------ *)
(** ** Hexadecimal digests *)

Definition HEX : list ascii := chars "0123456789abcdef".
Definition hex_at (n : N) : ascii := nth (N.to_nat n) HEX "0"%char.
Definition hex_byte (b : N) : list ascii := [hex_at (N.shiftr b 4); hex_at (N.land b 15)].
Definition hex_digest (digest : list N) : string :=
  of_chars (concat (map hex_byte digest)).

(** The bytes of a digest as the numbers [hex_digest] shifts and masks. *)
Definition byte_values (b : bytes) : list N := map Byte.to_N b.

Section Digests.
Context `{ShaLib}.
Definition sha256_hex (b : bytes) : string := hex_digest (byte_values (sha256 b)).
End Digests.

Definition digest_storage_value (value : string) : string :=
  match strip_prefix "sha256:" value with Some h => h | None => value end.
Definition digest_document_value (value : string) : string :=
  "sha256:" +:+ digest_storage_value value.

(** [parse_artifact_index] and the chunk index of the route *)
Definition parse_artifact_index (value : string) : res ApiError Z :=
  ok_or (parse_uint u32_max value)
    (Api.invalid "artifact index is not a non-negative integer").

(* ------------------------------------------------------------------ *)
(** ** Bounded hashing of a reader

    A reader is the list of its non-empty reads and how it ended: cleanly
    ([true]) or with an I/O error ([false]). *)
Abbreviation reader := (list bytes * bool)%type.
Definition byte_len (b : bytes) : Z := Z.of_nat (length b).

Section Reading.
Context `{ShaLib}.

(** [hash_reader]: the hasher state is the bytes fed so far. *)
Fixpoint hash_reads (reads : list bytes) (ends_cleanly : bool) (maximum_size : Z)
    (io_error : ApiError) (total : Z) (hashed : bytes) : res ApiError (Z * string) :=
  match reads with
  | [] => if ends_cleanly then Ok (total, sha256_hex hashed) else Err io_error
  | chunk :: reads =>
      let? total := ok_or (checked_add_u64 total (byte_len chunk))
                          (Api.invalid "artifact size is invalid") in
      reject maximum_size <? total with Api.invalid "artifact size exceeds its declared bound";
      hash_reads reads ends_cleanly maximum_size io_error total (hashed ++ chunk)
  end.
Definition hash_reader (r : reader) (maximum_size : Z) (io_error : ApiError)
  : res ApiError (Z * string) :=
  hash_reads r.1 r.2 maximum_size io_error 0 [].
End Reading.

(* ------------------------------------------------------------------ *)
(** ** Layout theorems *)

Definition ceil_div (a b : Z) : Z := (a + b - 1) / b.

Lemma pred_div_succ s c : 0 < s -> 0 < c -> (s - 1) / c + 1 = ceil_div s c.
Proof.
  intros. unfold ceil_div. replace (s + c - 1) with (s - 1 + 1 * c) by lia.
  by rewrite Z.div_add by lia.
Qed.

Lemma ceil_div_bounds s c : 0 <= s -> 0 < c ->
  0 <= ceil_div s c /\ s <= ceil_div s c * c < s + c.
Proof.
  intros Hs Hc. unfold ceil_div. pose proof (Z.div_mod (s + c - 1) c).
  pose proof (Z.mod_pos_bound (s + c - 1) c Hc).
  assert (0 <= (s + c - 1) / c) by (apply Z.div_pos; lia). nia.
Qed.

Lemma chunk_count_spec s c : 0 <= s <= u64_max -> 0 < c ->
  chunk_count s c =
    if MAX_CHUNK_COUNT <? ceil_div s c
    then Err (Api.invalid "artifact requires more chunks than the configured bounded limit")
    else Ok (ceil_div s c).
Proof.
  intros [Hs Hmax] Hc. unfold chunk_count. rewrite (proj2 (Z.eqb_neq c 0)) by lia.
  destruct (Z.eqb_spec s 0) as [->|Hne]; simpl.
  - replace (ceil_div 0 c) with 0; [done|].
    unfold ceil_div. symmetry. apply Z.div_small. lia.
  - unfold checked_sub_u64. rewrite (proj2 (Z.leb_le 1 s)) by lia. simpl.
    unfold checked_div_u64. rewrite (proj2 (Z.eqb_neq c 0)) by lia. simpl.
    assert ((s - 1) / c <= s - 1) by (apply Z.div_le_upper_bound; nia).
    rewrite checked_add_u64_fits by lia. simpl. by rewrite pred_div_succ by lia.
Qed.

Lemma chunk_count_Ok s c n : 0 <= s <= u64_max -> 0 < c ->
  chunk_count s c = Ok n -> n = ceil_div s c /\ n <= MAX_CHUNK_COUNT.
Proof.
  intros Hs Hc. rewrite chunk_count_spec by done.
  destruct (Z.ltb_spec MAX_CHUNK_COUNT (ceil_div s c)); [discriminate|]. intros [= <-]. lia.
Qed.

(** The length of chunk [i]: full chunks, then what is left. *)
Definition chunk_length (c s i : Z) : Z := Z.min c (s - i * c).

Lemma expected_chunk_length_spec s c n i :
  0 <= s <= i64_max -> 0 < c <= i64_max -> n = ceil_div s c -> 0 <= i < n ->
  expected_chunk_length c n s i = Ok (chunk_length c s i)
  /\ 0 < chunk_length c s i <= c /\ i * c + chunk_length c s i <= s.
Proof.
  intros Hs Hc -> Hi. pose proof (ceil_div_bounds s c ltac:(lia) ltac:(lia)) as (_ & Hlo & Hhi).
  set (n := ceil_div s c) in *. unfold chunk_length.
  assert (Hoff : i * c < s) by nia.
  split; [|nia]. unfold expected_chunk_length, i64_to_u64.
  rewrite (proj2 (Z.leb_le 0 n)) by lia. simpl.
  rewrite (proj2 (Z.leb_gt n i)) by lia.
  rewrite (proj2 (Z.leb_le 0 c)), (proj2 (Z.leb_le 0 s)) by lia. simpl.
  unfold checked_mul_u64. rewrite (proj2 (Z.leb_le (i * c) u64_max)) by (unfold u64_max, i64_max in *; lia).
  simpl. destruct (Z.eqb_spec (i + 1) n) as [Hlast|Hmid].
  - unfold checked_sub_u64. rewrite (proj2 (Z.leb_le (i * c) s)) by lia. simpl. f_equal. nia.
  - f_equal. nia.
Qed.

Lemma chunk_lengths_sum c s (n : nat) : 0 < c -> Z.of_nat n = ceil_div s c -> 0 <= s ->
  sum_of (chunk_length c s) (seqZ 0 (Z.of_nat n)) = s.
Proof.
  intros Hc Hn Hs. pose proof (ceil_div_bounds s c Hs Hc) as (_ & Hlo & Hhi). rewrite <-Hn in *.
  clear Hn. assert (Hk : forall k : nat, (k <= n)%nat ->
    sum_of (chunk_length c s) (seqZ 0 (Z.of_nat k)) = Z.min s (Z.of_nat k * c)).
  { induction k as [|k IH]; intros Hk; [simpl; lia|].
    rewrite seqZ_S, sum_of_app, IH by lia. cbn [sum_of foldr]. unfold chunk_length. nia. }
  rewrite Hk by lia. lia.
Qed.

(** The value of an [Ok], for stating sums. *)
Definition ok_value {E} (c : res E Z) : Z := match c with Ok z => z | Err _ => 0 end.

(** The negotiated chunks partition the stored bytes: every index in range
    has a positive length within the chunk size, all but the last are full,
    an index outside is refused, and the lengths add up to the stored size. *)
Theorem chunk_layout_partitions stored chunk_size n :
  0 <= stored <= i64_max -> 0 < chunk_size <= i64_max ->
  chunk_count stored chunk_size = Ok n ->
  n <= MAX_CHUNK_COUNT
  /\ (forall i, 0 <= i < n ->
        exists len, expected_chunk_length chunk_size n stored i = Ok len
          /\ 0 < len <= chunk_size /\ i * chunk_size + len <= stored
          /\ (i + 1 < n -> len = chunk_size))
  /\ (forall i, n <= i -> expected_chunk_length chunk_size n stored i
        = Err (Api.invalid "chunk index is outside the negotiated artifact range"))
  /\ sum_of (fun i => ok_value (expected_chunk_length chunk_size n stored i)) (seqZ 0 n) = stored.
Proof.
  intros Hs Hc [Hn Hmax]%chunk_count_Ok; [|unfold u64_max, i64_max in *; lia|lia].
  pose proof (ceil_div_bounds stored chunk_size ltac:(lia) ltac:(lia)) as (Hn0 & Hlo & Hhi).
  split_and!.
  - done.
  - intros i Hi. destruct (expected_chunk_length_spec stored chunk_size n i) as (E & Hb & Ho); [done..|].
    exists (chunk_length chunk_size stored i). split_and!; try done; try lia.
    intros. unfold chunk_length in *. nia.
  - intros i Hi. unfold expected_chunk_length, i64_to_u64.
    rewrite (proj2 (Z.leb_le 0 n)) by lia. simpl. by rewrite (proj2 (Z.leb_le n i)) by lia.
  - transitivity (sum_of (chunk_length chunk_size stored) (seqZ 0 n)).
    + apply sum_of_ext. intros i Hi%elem_of_seqZ.
      by rewrite (proj1 (expected_chunk_length_spec stored chunk_size n i Hs Hc Hn ltac:(lia))).
    + rewrite <-(Z2Nat.id n) by lia. apply chunk_lengths_sum; lia.
Qed.

Lemma layout_counts_Ok c arts : forall total counts,
  Forall (fun a => 0 <= stored_size_bytes a <= u64_max) arts -> 0 < c -> 0 <= total ->
  layout_counts c total arts = Ok counts ->
  Forall2 (fun a n => chunk_count (stored_size_bytes a) c = Ok n) arts counts
  /\ (arts = [] \/ total + sum_of id counts <= MAX_SNAPSHOT_CHUNK_COUNT)
  /\ Forall (fun n => 0 <= n) counts.
Proof.
  induction arts as [|a arts IH]; intros total counts Hty Hc Ht E; simpl in E.
  - simplify_eq. split_and!; [constructor|by left|constructor].
  - apply Forall_cons in Hty as [Ha Hty]. apply res_bind_Ok in E as (n & En & E).
    apply res_bind_Ok in E as (t & Et & E). apply ok_or_Ok, checked_add_u64_Some in Et as [-> _].
    apply reject_Ok in E as [Hb%Z.ltb_ge E]. apply res_bind_Ok in E as (ns & Ens & E).
    injection E as <-.
    pose proof (chunk_count_Ok _ _ _ Ha Hc En) as [Hn _].
    pose proof (ceil_div_bounds (stored_size_bytes a) c ltac:(lia) Hc) as [Hn0 _].
    destruct (IH (total + n) ns) as (H1 & H2 & H3); [done|done|lia|done|].
    split_and!; [by constructor| |constructor; [lia|done]].
    right. simpl. destruct H2 as [->|H2]; [inversion H1; subst; simpl; lia|unfold id in *; lia].
Qed.

(** The layout negotiated for a manifest: each artifact gets the number of
    chunks its stored size needs, within the limit per artifact and the limit
    per snapshot, and the totals are the sums of the declared sizes. *)
Theorem upload_layout_bounds m chunk_size layout :
  Forall artifact_typed (artifacts m) -> 0 < chunk_size -> artifacts m <> [] ->
  sum_of original_size_bytes (artifacts m) <= u64_max ->
  sum_of stored_size_bytes (artifacts m) <= u64_max ->
  upload_layout m chunk_size = Ok layout ->
  Forall2 (fun a n => n = ceil_div (stored_size_bytes a) chunk_size /\ 0 <= n <= MAX_CHUNK_COUNT)
    (artifacts m) (chunk_counts layout)
  /\ sum_of id (chunk_counts layout) <= MAX_SNAPSHOT_CHUNK_COUNT
  /\ total_original_bytes layout = sum_of original_size_bytes (artifacts m)
  /\ total_stored_bytes layout = sum_of stored_size_bytes (artifacts m).
Proof.
  intros Hty Hc Hne Ho Hs E. unfold upload_layout, manifest_totals in E.
  rewrite totals_from_Ok in E by (done || lia). simpl in E. inv_res. simpl.
  assert (Hst : Forall (fun a => 0 <= stored_size_bytes a <= u64_max) (artifacts m)).
  { eapply Forall_impl; [exact Hty|]. by intros a [_ ?]. }
  destruct (layout_counts_Ok _ _ _ _ Hst Hc (Z.le_refl 0) Hx) as (H1 & H2 & H3).
  split_and!; [|destruct H2; [done|lia]|done|done].
  clear -H1 H3 Hst Hc. revert H3 Hst. induction H1 as [|a n arts ns Hn _ IH]; intros H3 Hst; constructor.
  - apply Forall_cons in Hst as [? _], H3 as [? _].
    destruct (chunk_count_Ok _ _ _ ltac:(eassumption) Hc Hn). done.
  - apply Forall_cons in Hst as [_ ?], H3 as [_ ?]. auto.
Qed.

(* ------------------------------------------------------------------ *)
(** ** Bitmap theorems *)

Lemma mask_testbit b k : negb (N.land b (N.shiftl 1 k) =? 0)%N = N.testbit b k.
Proof.
  assert (H : N.land b (N.shiftl 1 k) = if N.testbit b k then N.shiftl 1 k else 0%N).
  { apply N.bits_inj. intros j. rewrite N.land_spec, N.shiftl_1_l, N.pow2_bits_eqb.
    destruct (N.eqb_spec k j) as [->|Hne].
    - rewrite andb_true_r. destruct (N.testbit b j) eqn:E; [|by rewrite N.bits_0].
      by rewrite N.pow2_bits_true.
    - rewrite andb_false_r. destruct (N.testbit b k); [|by rewrite N.bits_0].
      by rewrite N.pow2_bits_false. }
  rewrite H. destruct (N.testbit b k); [|done].
  rewrite N.shiftl_1_l. apply negb_true_iff, N.eqb_neq, N.pow_nonzero. done.
Qed.

Lemma set_bit_length j bm : length (set_bit j bm) = length bm.
Proof. apply length_alter. Qed.

Lemma set_bit_spec j bm i :
  0 <= i -> 0 <= j -> (Z.to_nat (j / 8) < length bm)%nat ->
  bit_is_set (set_bit j bm) i = bit_is_set bm i || (i =? j).
Proof.
  intros Hi Hj Hlen. unfold bit_is_set, set_bit.
  pose proof (Z.div_mod i 8 ltac:(lia)). pose proof (Z.div_mod j 8 ltac:(lia)).
  pose proof (Z.mod_pos_bound i 8 ltac:(lia)). pose proof (Z.mod_pos_bound j 8 ltac:(lia)).
  assert (0 <= i / 8) by (apply Z.div_pos; lia). assert (0 <= j / 8) by (apply Z.div_pos; lia).
  destruct (decide (i / 8 = j / 8)) as [E|Hne].
  - rewrite E, list_lookup_alter_eq.
    destruct (lookup_lt_is_Some_2 bm (Z.to_nat (j / 8)) Hlen) as [b Hb]. rewrite Hb. simpl.
    rewrite !mask_testbit, N.lor_spec, N.shiftl_1_l, N.pow2_bits_eqb. f_equal.
    apply eq_true_iff_eq. rewrite N.eqb_eq, Z.eqb_eq. lia.
  - rewrite list_lookup_alter_ne by lia. rewrite (proj2 (Z.eqb_neq i j)) by congruence.
    by rewrite orb_false_r.
Qed.

Lemma fill_bitmap_spec n rows : forall bm,
  Z.of_nat (length bm) = (n + 7) / 8 -> Forall (fun r => 0 <= r < n) rows ->
  exists bm', fill_bitmap n rows bm = Ok bm' /\ length bm' = length bm
    /\ forall i, 0 <= i -> bit_is_set bm' i = bit_is_set bm i || existsb (Z.eqb i) rows.
Proof.
  induction rows as [|r rows IH]; intros bm Hlen HF; simpl.
  - exists bm. split_and!; [done|done|]. intros. by rewrite orb_false_r.
  - apply Forall_cons in HF as [Hr HF].
    unfold i64_to_u64. rewrite (proj2 (Z.leb_le 0 r)) by lia. simpl.
    rewrite (proj2 (Z.leb_gt n r)) by lia.
    assert (Hin : (Z.to_nat (r / 8) < length bm)%nat).
    { assert (r / 8 < (n + 7) / 8); [|assert (0 <= r / 8) by (apply Z.div_pos; lia); lia].
      pose proof (Z.div_mod r 8 ltac:(lia)). pose proof (Z.mod_pos_bound r 8 ltac:(lia)).
      pose proof (Z.div_mod (n + 7) 8 ltac:(lia)). pose proof (Z.mod_pos_bound (n + 7) 8 ltac:(lia)).
      lia. }
    destruct (IH (set_bit r bm)) as (bm' & E & Hl & Hb); [by rewrite set_bit_length|done|].
    exists bm'. split_and!; [done|by rewrite Hl, set_bit_length|].
    intros i Hi. rewrite Hb, set_bit_spec by (done || lia). by rewrite orb_assoc.
Qed.

Lemma empty_bitmap_clear n i : bit_is_set (empty_bitmap n) i = false.
Proof.
  unfold bit_is_set, empty_bitmap. destruct (_ !! _) as [b|] eqn:E; [|done].
  apply lookup_replicate in E as [-> _]. by rewrite mask_testbit.
Qed.

(** The status document tells the client exactly which chunks to send. *)
Theorem chunk_bitmap_exact n rows :
  0 <= n -> Forall (fun r => 0 <= r < n) rows ->
  exists bitmap, fill_bitmap n rows (empty_bitmap n) = Ok bitmap
    /\ Z.of_nat (length bitmap) = (n + 7) / 8
    /\ (forall i, 0 <= i < n -> bit_is_set bitmap i = true <-> i ∈ rows)
    /\ (forall i, i ∈ missing_chunk_indexes n bitmap <-> 0 <= i < n /\ i ∉ rows)
    /\ StronglySorted Z.lt (missing_chunk_indexes n bitmap).
Proof.
  intros Hn HF.
  assert (Hlen : Z.of_nat (length (empty_bitmap n)) = (n + 7) / 8).
  { unfold empty_bitmap. rewrite length_replicate, Z2Nat.id; [done|]. apply Z.div_pos; lia. }
  destruct (fill_bitmap_spec n rows (empty_bitmap n) Hlen HF) as (bm & E & Hl & Hb).
  assert (Hset : forall i, 0 <= i -> bit_is_set bm i = true <-> i ∈ rows).
  { intros i Hi. rewrite Hb, empty_bitmap_clear, orb_false_l, existsb_true by done.
    setoid_rewrite Z.eqb_eq. naive_solver. }
  exists bm. split_and!; [done|by rewrite Hl|intros i Hi; apply Hset; lia| |].
  - intros i. unfold missing_chunk_indexes.
    rewrite list_elem_of_filter, elem_of_seqZ, <-not_true_iff_false. split.
    + intros [Hbit Hi]. rewrite Hset in Hbit by lia. split; [lia|done].
    + intros [Hi Hno]. rewrite Hset by lia. split; [done|lia].
  - unfold missing_chunk_indexes. apply StronglySorted_filter.
    rewrite <-(Z2Nat.id n) by done. generalize 0 (Z.to_nat n). intros start k. revert start.
    induction k as [|k IH]; intros start; [constructor|].
    rewrite seqZ_cons by lia. constructor.
    + replace (Z.pred (Z.of_nat (S k))) with (Z.of_nat k) by lia. apply IH.
    + apply Forall_forall. intros x Hx%elem_of_seqZ. lia.
Qed.

(** A stored row outside the layout is reported, never silently dropped. *)
Theorem chunk_bitmap_rejects n pre r post :
  0 <= n -> Forall (fun r => 0 <= r < n) pre -> n <= r ->
  fill_bitmap n (pre ++ r :: post) (empty_bitmap n)
  = Err (Api.conflict "chunk_layout_invalid"
           "accepted chunk records do not match the negotiated layout").
Proof.
  intros Hn HF Hr. generalize (empty_bitmap n). induction HF as [|q pre Hq _ IH]; intros bm; simpl.
  - unfold i64_to_u64. rewrite (proj2 (Z.leb_le 0 r)) by lia. simpl.
    by rewrite (proj2 (Z.leb_le n r)) by lia.
  - unfold i64_to_u64. rewrite (proj2 (Z.leb_le 0 q)) by lia. simpl.
    rewrite (proj2 (Z.leb_gt n q)) by lia. apply IH.
Qed.

(* ------------------------------------------------------------------ *)
(** ** Digest theorems *)

Lemma chars_string_app l : String.length (of_chars l) = length l.
Proof. by rewrite <-length_chars, chars_of_chars. Qed.

(** The reader of [hex_digest]'s output, used only to state injectivity. *)
Definition hex_value (c : ascii) : N :=
  if is_ascii_digit c then (code c - 48)%N else (code c - 87)%N.
Fixpoint unhex (l : list ascii) : list N :=
  match l with
  | a :: b :: l => (hex_value a * 16 + hex_value b)%N :: unhex l
  | _ => []
  end.

Lemma hex_at_value n : (n < 16)%N -> hex_value (hex_at n) = n /\ is_lower_hex (hex_at n) = true.
Proof.
  intros Hn. assert (Hk : exists k : nat, (k < 16)%nat /\ n = N.of_nat k) by (exists (N.to_nat n); lia).
  destruct Hk as (k & Hk & ->). clear Hn.
  do 16 (destruct k as [|k]; [by vm_compute|]). lia.
Qed.

Lemma nibbles b : (b < 256)%N ->
  (N.shiftr b 4 < 16)%N /\ (N.land b 15 < 16)%N /\ (N.shiftr b 4 * 16 + N.land b 15 = b)%N.
Proof.
  intros Hb. rewrite N.shiftr_div_pow2. change 15%N with (N.ones 4). rewrite N.land_ones.
  change (2 ^ 4)%N with 16%N. pose proof (N.div_mod b 16). pose proof (N.mod_lt b 16).
  pose proof (N.Div0.div_lt_upper_bound b 16 16). lia.
Qed.

Lemma hex_digest_spec digest :
  Forall (fun b => b < 256)%N digest ->
  unhex (chars (hex_digest digest)) = digest
  /\ length (chars (hex_digest digest)) = (2 * length digest)%nat
  /\ forall c, c ∈ chars (hex_digest digest) -> is_lower_hex c = true.
Proof.
  intros HF. unfold hex_digest. rewrite chars_of_chars.
  induction HF as [|b digest Hb HF (IH1 & IH2 & IH3)]; simpl.
  - split_and!; [done|done|]. by intros c ?%elem_of_nil.
  - destruct (nibbles b Hb) as (Hh & Hl & Hsum).
    destruct (hex_at_value _ Hh) as [Eh Ch]. destruct (hex_at_value _ Hl) as [El Cl].
    split_and!.
    + by rewrite Eh, El, Hsum, IH1.
    + rewrite IH2. lia.
    + intros c [->|[->|Hc]%elem_of_cons]%elem_of_cons; auto.
Qed.

(** C34: [hex_digest] loses nothing: reading its output back gives the digest. *)
Theorem hex_digest_roundtrip digest :
  Forall (fun b => b < 256)%N digest ->
  unhex (chars (hex_digest digest)) = digest
  /\ length (chars (hex_digest digest)) = (2 * length digest)%nat
  /\ forall c, c ∈ chars (hex_digest digest) -> is_lower_hex c = true.
Proof. apply hex_digest_spec. Qed.

Lemma byte_values_bound b : Forall (fun n => n < 256)%N (byte_values b).
Proof.
  unfold byte_values. apply Forall_fmap, Forall_forall. intros x _. simpl.
  pose proof (Byte.to_N_bounded x). lia.
Qed.

#[export] Instance byte_values_inj : Inj (=) (=) byte_values.
Proof.
  unfold byte_values. apply list_fmap_eq_inj. intros x y E%(f_equal Byte.of_N).
  rewrite !Byte.of_to_N in E. by injection E.
Qed.

Lemma hex_digest_inj a b :
  Forall (fun n => n < 256)%N a -> Forall (fun n => n < 256)%N b ->
  hex_digest a = hex_digest b -> a = b.
Proof.
  intros Ha Hb E. destruct (hex_digest_spec a Ha) as [<- _].
  destruct (hex_digest_spec b Hb) as [<- _]. by rewrite E.
Qed.

Lemma digest_storage_document v : digest_storage_value (digest_document_value v) = digest_storage_value v.
Proof.
  unfold digest_document_value. unfold digest_storage_value at 1.
  by rewrite (proj2 (strip_prefix_Some "sha256:" _ _) eq_refl).
Qed.

Section DigestTheorems.
Context `{SL : ShaLib}.

(** A digest the server computes is one its own validation accepts. *)
Theorem computed_digest_is_valid {SLaws : ShaLaws SL} (b : bytes) :
  validate_digest (digest_document_value (sha256_hex b)) = Ok tt
  /\ digest_storage_value (digest_document_value (sha256_hex b)) = sha256_hex b.
Proof.
  assert (Hno : strip_prefix "sha256:" (sha256_hex b) = None).
  { destruct (strip_prefix _ _) as [h|] eqn:E; [|done]. exfalso.
    apply strip_prefix_Some in E. destruct (hex_digest_spec (byte_values (sha256 b))
      (byte_values_bound _)) as (_ & _ & H). unfold sha256_hex in E.
    rewrite E, chars_app in H. specialize (H "s"%char). discriminate H. set_solver. }
  split.
  - apply validate_digest_Ok. exists (sha256_hex b). unfold digest_document_value.
    unfold digest_storage_value. rewrite Hno. split; [done|].
    destruct (hex_digest_spec (byte_values (sha256 b)) (byte_values_bound _)) as (_ & Hl & H).
    rewrite length_chars in Hl. split; [|exact H].
    unfold sha256_hex. rewrite Hl. unfold byte_values. rewrite length_fmap, sha256_length. done.
  - rewrite digest_storage_document. unfold digest_storage_value. by rewrite Hno.
Qed.

Lemma hash_reads_spec reads m e : forall total hashed,
  0 <= total <= m -> total + byte_len (concat reads) <= u64_max ->
  hash_reads reads true m e total hashed =
    if m <? total + byte_len (concat reads)
    then Err (Api.invalid "artifact size exceeds its declared bound")
    else Ok (total + byte_len (concat reads), sha256_hex (hashed ++ concat reads)).
Proof.
  unfold byte_len. induction reads as [|c reads IH]; intros total hashed Ht Hm; simpl in *.
  - rewrite app_nil_r, Z.add_0_r. by rewrite (proj2 (Z.ltb_ge m total)) by lia.
  - rewrite length_app in *. unfold byte_len. rewrite checked_add_u64_fits by lia. simpl.
    destruct (Z.ltb_spec m (total + Z.of_nat (length c))) as [Hx|Hx].
    + by rewrite (proj2 (Z.ltb_lt m _)) by lia.
    + rewrite IH by lia. rewrite <-app_assoc.
      by replace (total + Z.of_nat (length c) + Z.of_nat (length (concat reads)))
        with (total + Z.of_nat (length c + length (concat reads))) by lia.
Qed.

(** The digest of a stream does not depend on how its reads are cut, and
    no stream longer than the declared bound is ever accepted. *)
Theorem hash_reader_chunking_irrelevant reads content m e :
  0 <= m -> concat reads = content -> byte_len content <= u64_max ->
  hash_reader (reads, true) m e =
    if m <? byte_len content
    then Err (Api.invalid "artifact size exceeds its declared bound")
    else Ok (byte_len content, sha256_hex content).
Proof. intros Hm <- Hl. unfold hash_reader. simpl. by rewrite hash_reads_spec by lia. Qed.

(** A reader that fails never yields a digest. *)
Lemma hash_reader_failed reads m e x : hash_reader (reads, false) m e <> Ok x.
Proof.
  unfold hash_reader. simpl. generalize 0, (@nil Byte.byte).
  induction reads as [|c reads IH]; intros total hashed; simpl; [done|].
  destruct (checked_add_u64 _ _); simpl; [|done]. by destruct (m <? _).
Qed.

Lemma hash_reader_Ok r m e n d : 0 <= m ->
  hash_reader r m e = Ok (n, d) ->
  r.2 = true /\ n = byte_len (concat r.1) /\ d = sha256_hex (concat r.1) /\ n <= m.
Proof.
  destruct r as [reads [|]]; [|by intros _ ?%hash_reader_failed]. simpl. intros Hm. unfold hash_reader.
  simpl. assert (H : forall total hashed, 0 <= total <= m ->
    hash_reads reads true m e total hashed = Ok (n, d) ->
    n = total + byte_len (concat reads) /\ d = sha256_hex (hashed ++ concat reads) /\ n <= m).
  { unfold byte_len. induction reads as [|c reads IH]; intros total hashed Ht E; simpl in *.
    - simplify_eq. rewrite app_nil_r. split_and!; [lia|done|lia].
    - apply res_bind_Ok in E as (t & Et & E). apply ok_or_Ok, checked_add_u64_Some in Et as [-> _].
      apply reject_Ok in E as [Hb%Z.ltb_ge E]. unfold byte_len in *.
      apply IH in E as (-> & -> & ?); [|lia]. rewrite length_app, <-app_assoc.
      split_and!; [lia|done|lia]. }
  intros E. apply H in E; [|lia]. by split.
Qed.
End DigestTheorems.

(* ------------------------------------------------------------------ *)
(** ** The theorems at concrete inputs *)
#[local] Existing Instances sum_sha sum_sha_laws.

Definition sample_chunk_length (i : Z) : Z := ok_value (expected_chunk_length 4 3 10 i).

Lemma chunk_layout_partitions_witness :
  3 <= MAX_CHUNK_COUNT
  /\ (forall i, 0 <= i < 3 ->
        exists len, expected_chunk_length 4 3 10 i = Ok len
          /\ 0 < len <= 4 /\ i * 4 + len <= 10 /\ (i + 1 < 3 -> len = 4))
  /\ (forall i, 3 <= i -> expected_chunk_length 4 3 10 i
        = Err (Api.invalid "chunk index is outside the negotiated artifact range"))
  /\ sum_of sample_chunk_length (seqZ 0 3) = 10.
Proof.
  apply (chunk_layout_partitions 10 4 3).
  - unfold i64_max; lia.
  - unfold i64_max; lia.
  - by vm_compute.
Defined.

Definition sample_layout : UploadLayout :=
  {| total_original_bytes := 10; total_stored_bytes := 7; chunk_counts := [1; 2] |}.

Lemma upload_layout_bounds_witness :
  Forall2 (fun a n => n = ceil_div (stored_size_bytes a) 4 /\ 0 <= n <= MAX_CHUNK_COUNT)
    (artifacts sample_manifest) (chunk_counts sample_layout)
  /\ sum_of id (chunk_counts sample_layout) <= MAX_SNAPSHOT_CHUNK_COUNT
  /\ total_original_bytes sample_layout = sum_of original_size_bytes (artifacts sample_manifest)
  /\ total_stored_bytes sample_layout = sum_of stored_size_bytes (artifacts sample_manifest).
Proof.
  apply (upload_layout_bounds sample_manifest 4 sample_layout).
  - repeat constructor; simpl; unfold u64_max; lia.
  - lia.
  - discriminate.
  - simpl. unfold u64_max. lia.
  - simpl. unfold u64_max. lia.
  - by vm_compute.
Defined.

Lemma chunk_bitmap_exact_witness :
  exists bitmap, fill_bitmap 10 [0; 9; 3] (empty_bitmap 10) = Ok bitmap
    /\ Z.of_nat (length bitmap) = (10 + 7) / 8
    /\ (forall i, 0 <= i < 10 -> bit_is_set bitmap i = true <-> i ∈ [0; 9; 3])
    /\ (forall i, i ∈ missing_chunk_indexes 10 bitmap <-> 0 <= i < 10 /\ i ∉ [0; 9; 3])
    /\ StronglySorted Z.lt (missing_chunk_indexes 10 bitmap).
Proof. apply (chunk_bitmap_exact 10 [0; 9; 3]); [lia|repeat constructor; lia]. Defined.

Lemma chunk_bitmap_rejects_witness :
  fill_bitmap 10 ([0] ++ 10 :: [3]) (empty_bitmap 10)
  = Err (Api.conflict "chunk_layout_invalid"
           "accepted chunk records do not match the negotiated layout").
Proof. apply (chunk_bitmap_rejects 10 [0] 10 [3]); [lia|repeat constructor; lia|lia]. Defined.

Lemma hex_digest_roundtrip_witness :
  unhex (chars (hex_digest [0; 171; 255]%N)) = [0; 171; 255]%N
  /\ length (chars (hex_digest [0; 171; 255]%N)) = (2 * length [0; 171; 255]%N)%nat
  /\ forall c, c ∈ chars (hex_digest [0; 171; 255]%N) -> is_lower_hex c = true.
Proof. apply (hex_digest_roundtrip [0; 171; 255]%N). repeat constructor; lia. Defined.

Lemma computed_digest_is_valid_witness :
  validate_digest (digest_document_value (sha256_hex [x00; xff])) = Ok tt
  /\ digest_storage_value (digest_document_value (sha256_hex [x00; xff])) = sha256_hex [x00; xff].
Proof. apply (computed_digest_is_valid [x00; xff]). Defined.

Lemma hash_reader_chunking_irrelevant_witness :
  hash_reader ([[x00]; [xff; x01]], true) 2 Api.storage
  = if 2 <? byte_len [x00; xff; x01]
    then Err (Api.invalid "artifact size exceeds its declared bound")
    else Ok (byte_len [x00; xff; x01], sha256_hex [x00; xff; x01]).
Proof.
  apply (hash_reader_chunking_irrelevant [[x00]; [xff; x01]] [x00; xff; x01] 2 Api.storage).
  - lia.
  - reflexivity.
  - by vm_compute.
Defined.
