(* ===== verification/Fingerprint.v ===== *)
(** Canonical documents and the identities derived from them: the manifest's
    JSON and its digest, the digests of the shapes older servers wrote, and
    the fingerprint that decides whether two captures are the same snapshot
    ([ingestion.rs]). *)
From stdpp Require Import prelude strings gmap sorting list.
From Stdlib Require Import ZArith Ascii Lia.
From Stdlib.Strings Require Import Byte.
From S2P Require Import Prelude Errors Contract Externals Validation Chunks.

Definition SNAPSHOT_FINGERPRINT_VERSION : Z := 1.

Record OriginalArtifact : Type := mkOriginal {
  of_logical_path : string;
  of_original_size_bytes : Z;
  of_original_sha256 : string;
}.
Record StableCapture : Type := {
  sc_project : option string;
  sc_repository : option string;
  sc_branch : option string;
  sc_source_agent_version : option string;
  sc_artifact_set_version : Z;
}.
Record Fingerprint : Type := {
  fp_version : Z;
  fp_schema_version : Z;
  fp_session : SessionInput;
  fp_capture : StableCapture;
  fp_artifacts : list OriginalArtifact;
}.

Record LegacyCaptureV1 : Type := {
  lc_captured_at : string;
  lc_source_cursor : option string;
  lc_project : option string;
  lc_repository : option string;
  lc_branch : option string;
  lc_source_agent_version : option string;
  lc_munshi_version : option string;
}.
Record LegacyManifestV1 : Type := {
  lm_schema_version : Z;
  lm_session : SessionInput;
  lm_capture : LegacyCaptureV1;
  lm_artifacts : list Artifact;
}.
Inductive LegacyManifestDigestVersion : Type := PreCaptureProvenanceV1.

(** [serde_json] on the documents of the server. *)
Class JsonLib := {
  manifest_to_json : Manifest -> option string;
  manifest_wire_of_json : string -> option ManifestWire;
  metadata_to_json : StringMap -> option string;
  metadata_of_json : string -> option StringMap;
  legacy_to_json : LegacyManifestV1 -> option bytes;
  fingerprint_to_json : Fingerprint -> option bytes;
}.

(** The canonical document names its artifacts in the array form. *)
Definition wire_of_manifest (m : Manifest) : ManifestWire :=
  {| wire_schema_version := schema_version m; wire_session := session m;
     wire_capture := capture m; wire_artifacts := Some (artifacts m); wire_artifact := None |}.
(** Serialization is a function of the document and loses none of it. *)
Class JsonLaws (J : JsonLib) := {
  manifest_json_roundtrip : forall m s,
    manifest_to_json m = Some s -> manifest_wire_of_json s = Some (wire_of_manifest m);
  metadata_json_roundtrip : forall m s,
    metadata_to_json m = Some s -> metadata_of_json s = Some m;
  legacy_json_inj : forall a b s,
    legacy_to_json a = Some s -> legacy_to_json b = Some s -> a = b;
  fingerprint_json_inj : forall a b s,
    fingerprint_to_json a = Some s -> fingerprint_to_json b = Some s -> a = b;
}.

(** [str::cmp] on the logical paths, as [sort_unstable_by] uses it. *)
Definition original_le (a b : OriginalArtifact) : Prop :=
  String.le (of_logical_path a) (of_logical_path b).
#[global] Instance original_le_dec : RelDecision original_le := fun a b => decide (String.le _ _).

Section Documents.
Context `{JsonLib} `{ShaLib}.

(** [serde_json::from_str::<Manifest>] *)
Definition manifest_of_json (s : string) : option Manifest :=
  match manifest_wire_of_json s with
  | None => None
  | Some w => match manifest_of_wire w with Ok m => Some m | Err _ => None end
  end.

Definition original_artifact (a : Artifact) : OriginalArtifact :=
  {| of_logical_path := logical_path a; of_original_size_bytes := original_size_bytes a;
     of_original_sha256 := original_sha256 a |}.
Definition stable_capture (c : Capture) : StableCapture :=
  {| sc_project := project c; sc_repository := repository c; sc_branch := branch c;
     sc_source_agent_version := source_agent_version c;
     sc_artifact_set_version := artifact_set_version c |}.
Definition fingerprint_of (m : Manifest) : Fingerprint :=
  {| fp_version := SNAPSHOT_FINGERPRINT_VERSION;
     fp_schema_version := schema_version m;
     fp_session := session m;
     fp_capture := stable_capture (capture m);
     fp_artifacts := merge_sort original_le (original_artifact <$> artifacts m) |}.
Definition snapshot_fingerprint (m : Manifest) : res ApiError string :=
  match fingerprint_to_json (fingerprint_of m) with
  | Some value => Ok (sha256_hex value)
  | None => Err Api.internal
  end.

Definition legacy_manifest (m : Manifest) : LegacyManifestV1 :=
  {| lm_schema_version := schema_version m;
     lm_session := session m;
     lm_capture :=
       {| lc_captured_at := captured_at (capture m);
          lc_source_cursor := source_cursor (capture m);
          lc_project := project (capture m);
          lc_repository := repository (capture m);
          lc_branch := branch (capture m);
          lc_source_agent_version := source_agent_version (capture m);
          lc_munshi_version := munshi_version (capture m) |};
     lm_artifacts := artifacts m |}.
Definition legacy_manifest_digests (m : Manifest) : list (LegacyManifestDigestVersion * string) :=
  let c := capture m in
  if bool_decide (source_state_hash c = None) && bool_decide (source_metadata c = [])
     && (artifact_set_version c =? LEGACY_ARTIFACT_SET_VERSION)
  then match legacy_to_json (legacy_manifest m) with
       | Some json => [(PreCaptureProvenanceV1, sha256_hex json)]
       | None => []
       end
  else [].
End Documents.

(* ------------------------------------------------------------------ *)
(** ** Theorems *)

(** Two serialized documents that differ and have the same SHA-256. *)
Definition colliding `{ShaLib} (a b : option bytes) : Prop :=
  exists v v', a = Some v /\ b = Some v' /\ v <> v' /\ sha256 v = sha256 v'.

(** The content that identifies a snapshot: what the client saw, not when or
    how it was transferred.  Of an artifact that is its path, and the length and
    digest of the original. *)
Definition original_content (a : Artifact) : string * Z * string :=
  (logical_path a, original_size_bytes a, original_sha256 a).
Record same_content (m m' : Manifest) : Prop := {
  sm_schema : schema_version m = schema_version m';
  sm_agent : source_agent (session m) = source_agent (session m');
  sm_session : source_session_id (session m) = source_session_id (session m');
  sm_project : project (capture m) = project (capture m');
  sm_repository : repository (capture m) = repository (capture m');
  sm_branch : branch (capture m) = branch (capture m');
  sm_agent_version : source_agent_version (capture m) = source_agent_version (capture m');
  sm_set_version : artifact_set_version (capture m) = artifact_set_version (capture m');
  sm_artifacts : original_content <$> artifacts m ≡ₚ original_content <$> artifacts m';
}.

Section Theorems.
Context {J : JsonLib} {JLaws : JsonLaws J} {SL : ShaLib}.

Lemma manifest_json_read m s : manifest_to_json m = Some s -> manifest_of_json s = Some m.
Proof.
  intros E. unfold manifest_of_json. rewrite (manifest_json_roundtrip _ _ E). by destruct m.
Qed.

Lemma sha256_hex_inj a b :
  sha256_hex a = sha256_hex b -> a = b \/ colliding (Some a) (Some b).
Proof.
  intros E. destruct (decide (a = b)) as [->|Hne]; [by left|right].
  exists a, b. split_and!; [done..|]. apply hex_digest_inj in E; [|apply byte_values_bound..].
  by apply (inj byte_values).
Qed.

#[local] Instance original_le_total : Total original_le.
Proof. intros a b. apply (total String.le). Qed.
#[local] Instance original_le_trans : Transitive original_le.
Proof. intros a b c. unfold original_le. apply transitivity. Qed.

Lemma sort_originals_unique k l :
  NoDup (of_logical_path <$> k) -> k ≡ₚ l -> merge_sort original_le k = merge_sort original_le l.
Proof.
  intros Hd Hp. apply (StronglySorted_unique_strong original_le).
  - intros a b Ha Hb Hab Hba. rewrite merge_sort_Permutation in Ha, Hb. rewrite <-Hp in Hb.
    apply (NoDup_key_inj of_logical_path k); [done..|]. by apply (anti_symm String.le).
  - apply StronglySorted_merge_sort; apply _.
  - apply StronglySorted_merge_sort; apply _.
  - by rewrite !merge_sort_Permutation.
Qed.

(** The document of the fingerprint says neither more nor less than the content. *)
Lemma originals_same_content k l :
  original_content <$> k ≡ₚ original_content <$> l <-> original_artifact <$> k ≡ₚ original_artifact <$> l.
Proof.
  assert (E : forall l, original_artifact <$> l = (fun c => mkOriginal c.1.1 c.1.2 c.2) <$> (original_content <$> l))
    by (intros; by rewrite <-list_fmap_compose).
  assert (E' : forall l, original_content <$> l
    = (fun o => (of_logical_path o, of_original_size_bytes o, of_original_sha256 o)) <$> (original_artifact <$> l))
    by (intros; by rewrite <-list_fmap_compose).
  split; intros Hp; [rewrite !E|rewrite !E']; by rewrite Hp.
Qed.
Lemma same_content_fingerprint m m' : NoDup (logical_path <$> artifacts m) ->
  same_content m m' -> fingerprint_of m = fingerprint_of m'.
Proof.
  intros Hd [Es Ea Ei Ep Er Eb Ev Et Hp%originals_same_content]. unfold fingerprint_of, stable_capture.
  assert (Esess : session m = session m') by (destruct (session m), (session m'); simpl in *; congruence).
  rewrite Es, Esess, Ep, Er, Eb, Ev, Et. f_equal.
  apply sort_originals_unique; [|done]. by rewrite <-list_fmap_compose.
Qed.
Lemma fingerprint_same_content m m' : fingerprint_of m = fingerprint_of m' -> same_content m m'.
Proof.
  intros E. pose proof (f_equal fp_session E) as Es. pose proof (f_equal fp_capture E) as Ec.
  pose proof (f_equal fp_artifacts E) as Ea. cbn in Es, Ec, Ea. injection Ec as Ep Er Eb Ev Et.
  split; [exact (f_equal fp_schema_version E)|by rewrite Es..| | | | | |]; try done.
  apply originals_same_content. by rewrite <-(merge_sort_Permutation original_le), Ea, merge_sort_Permutation.
Qed.

(** C30: two manifests with distinct paths have the same fingerprint exactly
    when they describe the same content (the schema, the session, the project,
    repository, branch, agent version and artifact set version of the capture,
    and each artifact's path, original length and original digest), unless the
    two documents that are hashed are a SHA-256 collision.
    Capture time, cursors, media types, compression and stored bytes do not
    enter it, nor does the order of the artifacts. *)
Theorem snapshot_fingerprint_identifies m m' f f' :
  NoDup (logical_path <$> artifacts m) ->
  snapshot_fingerprint m = Ok f -> snapshot_fingerprint m' = Ok f' ->
  (same_content m m' -> f = f') /\ (f = f' -> same_content m m'
      \/ colliding (fingerprint_to_json (fingerprint_of m)) (fingerprint_to_json (fingerprint_of m'))).
Proof.
  unfold snapshot_fingerprint. intros Hd Ef Ef'.
  destruct (fingerprint_to_json (fingerprint_of m)) as [v|] eqn:Ev; [|done].
  destruct (fingerprint_to_json (fingerprint_of m')) as [v'|] eqn:Ev'; [|done].
  injection Ef as <-. injection Ef' as <-. split.
  - intros Hsame. assert (E : fingerprint_of m = fingerprint_of m'); [|rewrite E in Ev; congruence].
    by apply same_content_fingerprint.
  - intros [->|]%sha256_hex_inj; [|by right]. left.
    apply fingerprint_same_content. by eapply fingerprint_json_inj.
Qed.

(** A digest that two manifests both offer for an upload archived by an
    older server is offered by one manifest only: the bridge to the old shape
    never equates two different captures, unless their two legacy documents
    are a SHA-256 collision. *)
Theorem legacy_digest_identifies m m' d :
  d ∈ (legacy_manifest_digests m).*2 -> d ∈ (legacy_manifest_digests m').*2 ->
  m = m' \/ colliding (legacy_to_json (legacy_manifest m)) (legacy_to_json (legacy_manifest m')).
Proof.
  assert (Hone : forall k, d ∈ (legacy_manifest_digests k).*2 ->
    exists json, legacy_to_json (legacy_manifest k) = Some json /\ d = sha256_hex json
      /\ source_state_hash (capture k) = None /\ source_metadata (capture k) = []
      /\ artifact_set_version (capture k) = LEGACY_ARTIFACT_SET_VERSION).
  { intros k. unfold legacy_manifest_digests.
    destruct (bool_decide (source_state_hash _ = None) && _ && _) eqn:Eb; [|by intros ?%elem_of_nil].
    destruct (legacy_to_json _) as [json|]; [|by intros ?%elem_of_nil].
    simpl. intros ->%list_elem_of_singleton. exists json.
    apply andb_true_iff in Eb as [[E1%bool_decide_eq_true E2%bool_decide_eq_true]%andb_true_iff E3%Z.eqb_eq].
    by split_and!. }
  intros (j & Ej & -> & S1 & S2 & S3)%Hone (j' & Ej' & E & S1' & S2' & S3')%Hone.
  rewrite Ej, Ej'. apply sha256_hex_inj in E as [->|]; [|by right]. left.
  pose proof (legacy_json_inj _ _ _ Ej Ej') as El.
  destruct m as [? ? [] ?], m' as [? ? [] ?]. cbn in *. unfold legacy_manifest in El. cbn in El.
  injection El as -> -> -> -> -> -> -> -> -> ->. by subst.
Qed.
End Theorems.

(* ------------------------------------------------------------------ *)
(** ** The theorems at concrete inputs *)
#[local] Existing Instances sum_sha sum_sha_laws.
#[export] Instance OriginalArtifact_eq_dec : EqDecision OriginalArtifact.
Proof. solve_decision. Defined.
#[export] Instance StableCapture_eq_dec : EqDecision StableCapture.
Proof. solve_decision. Defined.
#[export] Instance Fingerprint_eq_dec : EqDecision Fingerprint.
Proof. solve_decision. Defined.
#[export] Instance LegacyCaptureV1_eq_dec : EqDecision LegacyCaptureV1.
Proof. solve_decision. Defined.
#[export] Instance LegacyManifestV1_eq_dec : EqDecision LegacyManifestV1.
Proof. solve_decision. Defined.

(** The sample capture taken again a day later, its artifacts stored as they
    are and listed the other way round; and one without source metadata. *)
Definition recapture : Manifest :=
  {| schema_version := 1; session := session sample_manifest;
     capture :=
       {| captured_at := "2026-01-02T00:00:00Z"; source_cursor := Some "cursor"%string;
          source_state_hash := None; source_metadata := [];
          project := None; repository := Some "patwari"%string; branch := None;
          source_agent_version := None; artifact_set_version := 1; munshi_version := None |};
     artifacts := reverse (artifacts sample_manifest) |}.
Definition known_manifests : list Manifest := [sample_manifest; recapture].
(** The documents of these manifests and of these metadata. *)
Definition table_json (ms : list Manifest) (maps : list StringMap) : JsonLib := {|
  manifest_to_json m := bytes_string <$> table_encode ms m;
  manifest_wire_of_json s := wire_of_manifest <$> table_decode ms (string_bytes s);
  metadata_to_json m := bytes_string <$> table_encode maps m;
  metadata_of_json s := table_decode maps (string_bytes s);
  legacy_to_json := table_encode (legacy_manifest <$> ms);
  fingerprint_to_json := table_encode (fingerprint_of <$> ms);
|}.
Lemma table_json_laws ms maps : JsonLaws (table_json ms maps).
Proof.
  split.
  - intros m s (b & E & ->)%fmap_Some. simpl.
    by rewrite string_bytes_string, (table_decode_encode _ _ _ E).
  - intros m s (b & E & ->)%fmap_Some. simpl.
    by rewrite string_bytes_string, (table_decode_encode _ _ _ E).
  - apply table_encode_inj.
  - apply table_encode_inj.
Qed.
#[local] Instance sample_json : JsonLib := table_json known_manifests [[]; [("k", "v")]%string].
#[local] Instance sample_json_laws : JsonLaws sample_json.
Proof. apply table_json_laws. Qed.

Lemma snapshot_fingerprint_identifies_witness :
  (same_content sample_manifest recapture -> sha256_hex [] = sha256_hex [])
  /\ (sha256_hex [] = sha256_hex [] -> same_content sample_manifest recapture
      \/ colliding (fingerprint_to_json (fingerprint_of sample_manifest))
                   (fingerprint_to_json (fingerprint_of recapture))).
Proof.
  apply (snapshot_fingerprint_identifies sample_manifest recapture (sha256_hex []) (sha256_hex [])).
  - apply (bool_decide_unpack _). by vm_compute.
  - by vm_compute.
  - by vm_compute.
Defined.

Lemma legacy_digest_identifies_witness : recapture = recapture
  \/ colliding (legacy_to_json (legacy_manifest recapture)) (legacy_to_json (legacy_manifest recapture)).
Proof.
  apply (legacy_digest_identifies recapture recapture (sha256_hex [x00])).
  - apply (bool_decide_unpack _). by vm_compute.
  - apply (bool_decide_unpack _). by vm_compute.
Defined.
