(* ===== verification/Pagination.v ===== *)
(** Keyset pagination: [pagination.rs], and the [WHERE]/[ORDER BY]/[LIMIT]
    shape every collection query of the server gives it.

    A collection is listed in descending [(sort_key, id)] order.  The first
    page fixes a high watermark; every later cursor carries it, with the last
    boundary already delivered.  The main theorem follows the cursors a client
    really receives, through encoding and validation, over a table that keeps
    growing, and shows that the pages are the original rows, each once. *)
From stdpp Require Import prelude strings gmap sorting list.
From Stdlib Require Import ZArith Ascii Lia.
From Stdlib.Strings Require Import Byte.
From S2P Require Import Prelude Errors Contract Externals Chunks.

Definition DEFAULT_PAGE_LIMIT : Z := 50.
Definition MAX_PAGE_LIMIT : Z := 100.
Definition MAX_CURSOR_BYTES : Z := 2048.
Definition CURSOR_VERSION : Z := 1.

Record SortBoundary : Type := mkBoundary {
  sort_key : Z;
  timestamp : string;
  id : string;
}.

Record OpaqueCursor : Type := {
  version : Z;
  kind : string;
  filter_hash : string;
  high_watermark : SortBoundary;
  after : SortBoundary;
}.

Record PageRequest : Type := { limit : Z; cursor : option OpaqueCursor }.

Record PageHighWatermark : Type := { hw_timestamp : string; hw_id : string }.

Record PaginatedResponse (T : Type) : Type := {
  items : list T;
  next_cursor : option string;
  page_high_watermark : option PageHighWatermark;
}.
Arguments items {T} _.
Arguments next_cursor {T} _.
Arguments page_high_watermark {T} _.

(** [base64::URL_SAFE_NO_PAD] and [serde_json] on a cursor. *)
Class CursorCodec := {
  b64_encode : bytes -> string;
  b64_decode : string -> option bytes;
  cursor_to_json : OpaqueCursor -> option bytes;
  cursor_of_json : bytes -> option OpaqueCursor;
}.
Class CursorLaws (C : CursorCodec) := {
  b64_decode_encode : forall b, b64_decode (b64_encode b) = Some b;
  cursor_json_roundtrip : forall c b, cursor_to_json c = Some b -> cursor_of_json b = Some c;
}.

(** [database.rs]: microseconds since the epoch; Rust's [/] on a signed
    integer truncates towards zero. *)
Definition sort_key_from_timestamp (t : OffsetDateTime) : Z := Z.quot (unix_nanos t) 1000.

Section Pages.
Context `{TimeLib} `{UuidLib} `{CursorCodec}.

Definition sort_key_from_rfc3339 (value : string) : option Z :=
  sort_key_from_timestamp <$> parse_rfc3339 value.

Definition normalize_timestamp (value msg : string) : res ApiError string :=
  let? t := ok_or (parse_rfc3339 value) (Api.invalid msg) in
  ok_or (format_rfc3339 (to_utc t)) Api.internal.

Definition validate_boundary (b : SortBoundary) : res ApiError unit :=
  let? normal := normalize_timestamp (timestamp b) "cursor is invalid" in
  reject negb (bool_decide (normal = timestamp b)) with Api.invalid "cursor is invalid";
  let? expected := ok_or (sort_key_from_rfc3339 (timestamp b)) (Api.invalid "cursor is invalid") in
  reject negb (sort_key b =? expected) with Api.invalid "cursor is invalid";
  let? canonical := ok_or (parse_str (id b)) (Api.invalid "cursor is invalid") in
  reject negb (bool_decide (canonical = id b)) || negb (version_num canonical =? 7)
    with Api.invalid "cursor is invalid";
  Ok tt.

Definition is_at_or_before (left right : SortBoundary) : bool :=
  (sort_key left <? sort_key right)
  || ((sort_key left =? sort_key right) && bool_decide (String.le (id left) (id right))).

Definition parse_page (lim : option Z) (cur : option string) (knd fhash : string)
  : res ApiError PageRequest :=
  let lim := default DEFAULT_PAGE_LIMIT lim in
  reject negb ((1 <=? lim) && (lim <=? MAX_PAGE_LIMIT))
    with Api.invalid "page limit must be between 1 and 100";
  let? cur :=
    match cur with
    | None => Ok None
    | Some text =>
        reject MAX_CURSOR_BYTES <? str_len text with Api.invalid "cursor is invalid";
        let? raw := ok_or (b64_decode text) (Api.invalid "cursor is invalid") in
        let? c := ok_or (cursor_of_json raw) (Api.invalid "cursor is invalid") in
        reject negb (version c =? CURSOR_VERSION) || negb (bool_decide (kind c = knd))
               || negb (bool_decide (filter_hash c = fhash))
          with Api.invalid "cursor does not match this collection and filters";
        validate_boundary (high_watermark c) ?;
        validate_boundary (after c) ?;
        reject negb (is_at_or_before (after c) (high_watermark c))
          with Api.invalid "cursor is invalid";
        Ok (Some c)
    end in
  Ok {| limit := lim; cursor := cur |}.

Definition encode_cursor (knd fhash : string) (hw aft : SortBoundary) : res ApiError string :=
  let? raw := ok_or (cursor_to_json {| version := CURSOR_VERSION; kind := knd;
                                       filter_hash := fhash; high_watermark := hw;
                                       after := aft |}) Api.internal in
  Ok (b64_encode raw).

(** The digest of the JSON of [(kind, filters)], which ties a cursor to them. *)
Definition filter_hash_of `{ShaLib} (pair_json : option bytes) : res ApiError string :=
  let? b := ok_or pair_json Api.internal in
  Ok (sha256_hex b).

Definition page_from_rows {T} (rows : list (T * SortBoundary)) (page : PageRequest)
    (knd fhash : string) : res ApiError (PaginatedResponse T) :=
  let hw := match cursor page with
            | Some c => Some (high_watermark c)
            | None => snd <$> head rows
            end in
  let has_next := limit page <? Z.of_nat (length rows) in
  let rows := take (Z.to_nat (limit page)) rows in
  let? next :=
    if has_next then
      let? aft := ok_or (snd <$> last rows) Api.internal in
      let? h := ok_or hw Api.internal in
      let? text := encode_cursor knd fhash h aft in
      Ok (Some text)
    else Ok None in
  Ok {| items := fst <$> rows;
        next_cursor := next;
        page_high_watermark :=
          (fun b => {| hw_timestamp := timestamp b; hw_id := id b |}) <$> hw |}.

(** The predicate [append_descending_bounds] writes and
    [bind_descending_bounds] fills: two keyset bounds when there is a cursor. *)
Definition descending_bounds (page : PageRequest) (b : SortBoundary) : bool :=
  match cursor page with
  | None => true
  | Some c =>
      ((sort_key b <? sort_key (high_watermark c))
       || ((sort_key b =? sort_key (high_watermark c))
           && bool_decide (String.le (id b) (id (high_watermark c)))))
      && ((sort_key b <? sort_key (after c))
          || ((sort_key b =? sort_key (after c))
              && (bool_decide (String.le (id b) (id (after c)))
                  && negb (bool_decide (id b = id (after c))))))
  end.

(** [ORDER BY sort_key DESC, id DESC] *)
Definition desc {T} (x y : T * SortBoundary) : Prop := is_at_or_before y.2 x.2 = true.
#[global] Instance desc_dec {T} : RelDecision (@desc T) := fun x y => decide (_ = true).
Definition order_by_desc {T} (rows : list (T * SortBoundary)) : list (T * SortBoundary) :=
  merge_sort desc rows.

(** [WHERE bounds ORDER BY ... LIMIT limit + 1], the look-ahead row included. *)
Definition query_page {T} (table : list (T * SortBoundary)) (page : PageRequest)
  : list (T * SortBoundary) :=
  take (Z.to_nat (limit page + 1))
    (order_by_desc (filter (fun r => descending_bounds page r.2 = true) table)).

(** One request for a page, and a client that follows the cursors: the table
    may differ at each request. *)
Definition request_page {T} (table : list (T * SortBoundary)) (lim : option Z)
    (cur : option string) (knd fhash : string) : res ApiError (PaginatedResponse T) :=
  let? page := parse_page lim cur knd fhash in
  page_from_rows (query_page table page) page knd fhash.

Fixpoint traverse {T} (tables : list (list (T * SortBoundary))) (lim : option Z)
    (cur : option string) (knd fhash : string) : res ApiError (list T * option string) :=
  match tables with
  | [] => Ok ([], cur)
  | table :: tables =>
      let? response := request_page table lim cur knd fhash in
      match next_cursor response with
      | None => Ok (items response, None)
      | Some c =>
          let? rest := traverse tables lim (Some c) knd fhash in
          Ok (items response ++ rest.1, rest.2)
      end
  end.
End Pages.

(* ------------------------------------------------------------------ *)
(** ** The order on boundaries *)

Definition boundary_key (b : SortBoundary) : Z * string := (sort_key b, id b).

Lemma is_at_or_before_true a b :
  is_at_or_before a b = true <->
  sort_key a < sort_key b \/ (sort_key a = sort_key b /\ String.le (id a) (id b)).
Proof.
  unfold is_at_or_before. rewrite orb_true_iff, andb_true_iff, Z.ltb_lt, Z.eqb_eq.
  by rewrite bool_decide_eq_true.
Qed.

#[export] Instance desc_trans {T} : Transitive (@desc T).
Proof.
  intros x y z. unfold desc. rewrite !is_at_or_before_true.
  intros [?|[? ?]] [?|[? ?]]; try (left; lia). right. split; [lia|]. by etransitivity.
Qed.
#[export] Instance desc_total {T} : Total (@desc T).
Proof.
  intros x y. unfold desc. rewrite !is_at_or_before_true.
  destruct (Z.lt_trichotomy (sort_key x.2) (sort_key y.2)) as [?|[E|?]]; [auto| |auto].
  destruct (total String.le (id x.2) (id y.2)); rewrite E; auto.
Qed.
Lemma is_at_or_before_antisym a b :
  is_at_or_before a b = true -> is_at_or_before b a = true -> boundary_key a = boundary_key b.
Proof.
  rewrite !is_at_or_before_true. intros [?|[? ?]] [?|[? ?]]; try lia.
  unfold boundary_key. f_equal; [done|]. by apply (anti_symm String.le).
Qed.
Lemma is_at_or_before_refl a : is_at_or_before a a = true.
Proof. apply is_at_or_before_true. right. split; [done|]. reflexivity. Qed.

(** Strictly older than a boundary already delivered. *)
Definition is_before (a b : SortBoundary) : bool :=
  is_at_or_before a b && negb (bool_decide (boundary_key a = boundary_key b)).

Lemma descending_bounds_cursor lim c b :
  descending_bounds {| limit := lim; cursor := Some c |} b
  = is_at_or_before b (high_watermark c) && is_before b (after c).
Proof.
  unfold descending_bounds, is_before, is_at_or_before, boundary_key. simpl. f_equal.
  destruct (Z.ltb_spec (sort_key b) (sort_key (after c))); simpl.
  - rewrite bool_decide_false; [done|]. intros [=]. lia.
  - destruct (Z.eqb_spec (sort_key b) (sort_key (after c))) as [->|]; simpl; [|done].
    f_equal. f_equal. apply bool_decide_ext. split; [by intros ->|by intros [=]].
Qed.

Section Traversal.
Context {T : Type}.
Implicit Types (rows table all pre post : list (T * SortBoundary)).

Definition row_key (r : T * SortBoundary) : Z * string := boundary_key r.2.

Lemma order_by_desc_Permutation rows : order_by_desc rows ≡ₚ rows.
Proof. apply merge_sort_Permutation. Qed.
Lemma order_by_desc_Sorted rows : StronglySorted desc (order_by_desc rows).
Proof. apply StronglySorted_merge_sort; apply _. Qed.

Lemma order_by_desc_unique rows sorted :
  NoDup (row_key <$> rows) -> rows ≡ₚ sorted -> StronglySorted desc sorted ->
  order_by_desc rows = sorted.
Proof.
  intros Hd Hp Hs. apply (StronglySorted_unique_strong desc).
  - intros x y Hx Hy Hxy Hyx. rewrite order_by_desc_Permutation in Hx. rewrite <-Hp in Hy.
    apply (NoDup_key_inj row_key rows); [done..|]. by apply is_at_or_before_antisym.
  - apply order_by_desc_Sorted.
  - done.
  - by rewrite order_by_desc_Permutation.
Qed.

Lemma is_before_true a b :
  is_before a b = true <-> is_at_or_before a b = true /\ boundary_key a <> boundary_key b.
Proof. unfold is_before. by rewrite andb_true_iff, negb_true_iff, bool_decide_eq_false. Qed.

Lemma StronglySorted_app_inv (R : relation (T * SortBoundary)) k l :
  StronglySorted R (k ++ l) ->
  StronglySorted R l /\ forall x y, x ∈ k -> y ∈ l -> R x y.
Proof.
  induction k as [|z k IH]; simpl; intros Hs; [split; [done|]; by intros ? ? ?%elem_of_nil|].
  inversion Hs as [|? ? Hs' HF]; subst. destruct (IH Hs') as [Hl HR]. split; [done|].
  intros x y [->|Hx]%elem_of_cons Hy; [|auto]. rewrite Forall_forall in HF. apply HF. set_solver.
Qed.

(** In a strictly descending list the rows before [x.2] are those after [x]. *)
Lemma filter_is_before pre x post :
  StronglySorted desc (pre ++ x :: post) -> NoDup (row_key <$> (pre ++ x :: post)) ->
  filter (fun r => is_before r.2 x.2 = true) (pre ++ x :: post) = post.
Proof.
  intros Hs Hd. pose proof Hd as Hd'. rewrite fmap_app, fmap_cons in Hd'.
  apply NoDup_app in Hd' as (_ & Hdis & Hdx). apply NoDup_cons in Hdx as [Hx Hdp].
  apply StronglySorted_app_inv in Hs as [Hsx Hpre]. inversion Hsx as [|? ? Hsp HF]; subst.
  assert (Hnone : forall r : T * SortBoundary, is_at_or_before x.2 r.2 = true -> is_before r.2 x.2 <> true).
  { intros r Hr [Hb Hne]%is_before_true. apply Hne. by apply is_at_or_before_antisym. }
  rewrite filter_app, filter_cons.
  assert (E1 : filter (fun r : T * SortBoundary => is_before r.2 x.2 = true) pre = []).
  { apply list_filter_none. intros r Hr. apply Hnone. by apply (Hpre r x); [|left]. }
  rewrite E1, decide_False by (apply Hnone, is_at_or_before_refl). simpl.
  apply list_filter_id. intros r Hr.
  apply is_before_true. rewrite Forall_forall in HF. split; [by apply HF|].
  intros E. apply Hx. apply list_elem_of_fmap. exists r. by split.
Qed.

Section WithCodec.
Context {TL : TimeLib} {UL : UuidLib} {CL : CursorCodec} {CLaws : CursorLaws CL}.

Lemma parse_page_first l knd fhash : 1 <= l <= MAX_PAGE_LIMIT ->
  parse_page (Some l) None knd fhash = Ok {| limit := l; cursor := None |}.
Proof.
  intros [? ?]. unfold parse_page. simpl.
  by rewrite (proj2 (Z.leb_le 1 l)), (proj2 (Z.leb_le l MAX_PAGE_LIMIT)) by lia.
Qed.

Lemma parse_page_encoded l knd fhash hw aft text :
  1 <= l <= MAX_PAGE_LIMIT ->
  encode_cursor knd fhash hw aft = Ok text -> str_len text <= MAX_CURSOR_BYTES ->
  validate_boundary hw = Ok tt -> validate_boundary aft = Ok tt ->
  is_at_or_before aft hw = true ->
  parse_page (Some l) (Some text) knd fhash
    = Ok {| limit := l;
            cursor := Some {| version := CURSOR_VERSION; kind := knd; filter_hash := fhash;
                              high_watermark := hw; after := aft |} |}
  /\ forall knd' fhash', (knd', fhash') <> (knd, fhash) ->
       parse_page (Some l) (Some text) knd' fhash'
       = Err (Api.invalid "cursor does not match this collection and filters").
Proof.
  intros [Hl1 Hl2] E Hlen Hhw Haft Hle. unfold encode_cursor in E. inv_res.
  unfold parse_page. simpl.
  rewrite (proj2 (Z.leb_le 1 l)), (proj2 (Z.leb_le l MAX_PAGE_LIMIT)) by lia. simpl.
  rewrite (proj2 (Z.ltb_ge _ _)) by done. rewrite b64_decode_encode. simpl.
  rewrite (cursor_json_roundtrip _ _ Hx). simpl. split.
  - rewrite !bool_decide_true by done. simpl. rewrite Hhw, Haft. simpl. by rewrite Hle.
  - intros k' f' Hne. destruct (decide (knd = k')) as [->|Hk].
    + rewrite (bool_decide_true (k' = k')) by done. rewrite bool_decide_false by congruence. done.
    + by rewrite bool_decide_false by congruence.
Qed.

(** What the server encodes it accepts back, for that collection and
    those filters only. *)
Theorem cursor_roundtrip l knd fhash hw aft text :
  1 <= l <= MAX_PAGE_LIMIT ->
  encode_cursor knd fhash hw aft = Ok text -> str_len text <= MAX_CURSOR_BYTES ->
  validate_boundary hw = Ok tt -> validate_boundary aft = Ok tt ->
  is_at_or_before aft hw = true ->
  parse_page (Some l) (Some text) knd fhash
    = Ok {| limit := l;
            cursor := Some {| version := CURSOR_VERSION; kind := knd; filter_hash := fhash;
                              high_watermark := hw; after := aft |} |}
  /\ forall knd' fhash', (knd', fhash') <> (knd, fhash) ->
       parse_page (Some l) (Some text) knd' fhash'
       = Err (Api.invalid "cursor does not match this collection and filters").
Proof. apply parse_page_encoded. Qed.

(** No request gets past [parse_page] with an unbounded limit or a cursor
    whose boundaries are malformed, out of order or for another query. *)
Theorem parse_page_sound lim cur knd fhash page :
  parse_page lim cur knd fhash = Ok page ->
  1 <= limit page <= MAX_PAGE_LIMIT
  /\ (cur = None <-> cursor page = None)
  /\ forall c, cursor page = Some c ->
       version c = CURSOR_VERSION /\ kind c = knd /\ filter_hash c = fhash
       /\ validate_boundary (high_watermark c) = Ok tt /\ validate_boundary (after c) = Ok tt
       /\ is_at_or_before (after c) (high_watermark c) = true.
Proof.
  unfold parse_page. intros E. apply reject_Ok in E as [Hl E]. apply negb_false_iff in Hl. bool_to_prop.
  apply res_bind_Ok in E as (oc & Ec & [= <-]). simpl. split; [lia|].
  destruct cur as [text|]; [|injection Ec as <-; by split].
  inv_res. bool_to_prop. split; [done|]. intros c' [= <-]. done.
Qed.

Lemma page_from_rows_spec table page knd fhash hw :
  1 <= limit page ->
  (cursor page = None -> snd <$> head table = hw) ->
  (forall c, cursor page = Some c -> hw = Some (high_watermark c)) ->
  let n := Z.to_nat (limit page) in
  page_from_rows (take (Z.to_nat (limit page + 1)) table) page knd fhash =
    let? next :=
      if (n <? length table)%nat
      then let? aft := ok_or (snd <$> table !! pred n) Api.internal in
           let? h := ok_or hw Api.internal in
           let? text := encode_cursor knd fhash h aft in
           Ok (Some text)
      else Ok None in
    Ok {| items := fst <$> take n table; next_cursor := next;
          page_high_watermark := (fun b => {| hw_timestamp := timestamp b; hw_id := id b |}) <$> hw |}.
Proof.
  intros Hl H1 H2 n. unfold page_from_rows.
  assert (En : Z.to_nat (limit page + 1) = S n) by (unfold n; lia). rewrite En.
  assert (Ehw : match cursor page with Some c => Some (high_watermark c)
                | None => snd <$> head (take (S n) table) end = hw).
  { destruct (cursor page) as [c|]; [by rewrite (H2 c)|]. rewrite <-H1 by done. by destruct table. }
  rewrite Ehw, length_take, take_take. fold n.
  replace (n `min` S n)%nat with n by lia.
  replace (limit page <? Z.of_nat (S n `min` length table)) with (n <? length table)%nat.
  2: { apply eq_true_iff_eq. rewrite Nat.ltb_lt, Z.ltb_lt. unfold n. lia. }
  destruct (Nat.ltb_spec n (length table)) as [Hlt|]; [|done].
  rewrite last_lookup, length_take, Nat.min_l by lia.
  rewrite lookup_take_lt by (unfold n; lia). done.
Qed.

Lemma traverse_cons table tables lim cur knd fhash :
  traverse (table :: tables) lim cur knd fhash =
    let? response := request_page (T:=T) table lim cur knd fhash in
    match next_cursor response with
    | None => Ok (items response, None)
    | Some c => let? rest := traverse tables lim (Some c) knd fhash in
                Ok (items response ++ rest.1, rest.2)
    end.
Proof. done. Qed.

(** A client that started on [t0], whose rows all have a canonical boundary
    and a cursor of admissible size; [hw] is the newest of them. *)
Section Client.
Context (l : Z) (knd fhash : string) (t0 : list (T * SortBoundary)) (hw : T * SortBoundary).
Hypothesis Hl : 1 <= l <= MAX_PAGE_LIMIT.
Hypothesis Hkeys : NoDup (row_key <$> t0).
Hypothesis Hhw : head (order_by_desc t0) = Some hw.
Hypothesis Hvalid : forall r, r ∈ t0 -> validate_boundary r.2 = Ok tt.
Hypothesis Hcodec : forall r, r ∈ t0 ->
  exists text, encode_cursor knd fhash hw.2 r.2 = Ok text /\ str_len text <= MAX_CURSOR_BYTES.

(** Rows may appear above the watermark, those below it stay. *)
Definition keeps_rows table : Prop :=
  filter (fun r => is_at_or_before r.2 hw.2 = true) table ≡ₚ t0.

Lemma sorted_keys : NoDup (row_key <$> order_by_desc t0).
Proof. by rewrite order_by_desc_Permutation. Qed.

Lemma below_watermark r : r ∈ t0 -> is_at_or_before r.2 hw.2 = true.
Proof.
  rewrite <-order_by_desc_Permutation. pose proof (order_by_desc_Sorted t0) as Hs.
  destruct (order_by_desc t0) as [|h rest]; [by intros ?%elem_of_nil|]. injection Hhw as ->.
  inversion Hs as [|? ? _ HF]; subst. rewrite Forall_forall in HF.
  intros [->|Hr]%elem_of_cons; [apply is_at_or_before_refl|by apply HF].
Qed.

Lemma hw_mem : hw ∈ t0.
Proof.
  rewrite <-order_by_desc_Permutation. destruct (order_by_desc t0); [done|].
  injection Hhw as ->. left.
Qed.

Lemma rows_after_cursor table pre x post c lim :
  order_by_desc t0 = pre ++ x :: post -> keeps_rows table ->
  high_watermark c = hw.2 -> after c = x.2 ->
  order_by_desc (filter (fun r => descending_bounds {| limit := lim; cursor := Some c |} r.2 = true)
                   table) = post.
Proof.
  intros Es Hk Ehw Eaf. pose proof sorted_keys as Hd. pose proof (order_by_desc_Sorted t0) as Hs.
  rewrite Es in Hd, Hs.
  assert (Hp : filter (fun r => descending_bounds {| limit := lim; cursor := Some c |} r.2 = true) table
               ≡ₚ post).
  { etransitivity.
    { apply reflexive_eq, (list_filter_iff _ (fun r => is_before r.2 x.2 = true
        /\ is_at_or_before r.2 hw.2 = true)).
      intros r. rewrite descending_bounds_cursor, Ehw, Eaf, andb_true_iff. tauto. }
    rewrite <-list_filter_filter. unfold keeps_rows in Hk. rewrite Hk.
    rewrite <-(order_by_desc_Permutation t0), Es. by rewrite filter_is_before. }
  rewrite fmap_app, fmap_cons in Hd.
  apply StronglySorted_app_inv in Hs as [Hs _]. inversion Hs; subst.
  apply NoDup_app in Hd as (_ & _ & Hd). apply NoDup_cons in Hd as [_ Hd].
  apply order_by_desc_unique; [by rewrite Hp|done|done].
Qed.

Lemma page_spec rows page :
  limit page = l -> (exists pre, order_by_desc t0 = pre ++ rows) ->
  (cursor page = None -> rows = order_by_desc t0) ->
  (forall c, cursor page = Some c -> high_watermark c = hw.2) ->
  let n := Z.to_nat l in
  exists response,
    page_from_rows (take (Z.to_nat (limit page + 1)) rows) page knd fhash = Ok response
    /\ items response = fst <$> take n rows
    /\ ((length rows <= n)%nat /\ next_cursor response = None
        \/ exists mid x post text, rows = mid ++ x :: post /\ length mid = pred n /\ post <> []
            /\ next_cursor response = Some text /\ x ∈ t0
            /\ encode_cursor knd fhash hw.2 x.2 = Ok text /\ str_len text <= MAX_CURSOR_BYTES).
Proof.
  intros El [pre Es] H1 H2 n.
  rewrite (page_from_rows_spec rows page knd fhash (Some hw.2)); [|lia| |].
  2: { intros Hc. rewrite (H1 Hc). by rewrite Hhw. }
  2: { intros c Hc. by rewrite (H2 c Hc). }
  rewrite El. fold n. destruct (Nat.ltb_spec n (length rows)) as [Hlt|Hge].
  2: { eexists. split; [reflexivity|]. split; [reflexivity|]. by left. }
  destruct (lookup_lt_is_Some_2 rows (pred n)) as [x Hx]; [unfold n in *; lia|].
  assert (Hmem : x ∈ t0).
  { rewrite <-order_by_desc_Permutation, Es. apply elem_of_app. right.
    apply list_elem_of_lookup. eauto. }
  destruct (Hcodec x Hmem) as (text & Et & Hlen).
  rewrite Hx. simpl. rewrite Et. simpl. eexists. split; [reflexivity|]. split; [reflexivity|].
  right. exists (take (pred n) rows), x, (drop (S (pred n)) rows), text.
  split_and!; [by rewrite take_drop_middle|rewrite length_take; unfold n in *; lia| |done..].
  intros E%(f_equal length). rewrite length_drop in E. simpl in E. unfold n in *. lia.
Qed.

Lemma request_after table pre x post text :
  order_by_desc t0 = pre ++ x :: post -> x ∈ t0 -> keeps_rows table ->
  encode_cursor knd fhash hw.2 x.2 = Ok text -> str_len text <= MAX_CURSOR_BYTES ->
  exists page, request_page table (Some l) (Some text) knd fhash
      = page_from_rows (take (Z.to_nat (limit page + 1)) post) page knd fhash
    /\ limit page = l /\ exists c, cursor page = Some c /\ high_watermark c = hw.2.
Proof.
  intros Es Hx Hk Et Hlen. unfold request_page.
  destruct (parse_page_encoded l knd fhash hw.2 x.2 text) as [-> _];
    [done..|by apply Hvalid, hw_mem|by apply Hvalid|by apply below_watermark|].
  simpl. unfold query_page. erewrite (rows_after_cursor table pre x post); [|done..].
  eexists {| limit := l; cursor := Some _ |}. split; [reflexivity|]. split; [done|].
  eexists. split; reflexivity.
Qed.

Lemma traverse_after tables : forall pre x post text,
  order_by_desc t0 = pre ++ x :: post -> post <> [] -> x ∈ t0 ->
  encode_cursor knd fhash hw.2 x.2 = Ok text -> str_len text <= MAX_CURSOR_BYTES ->
  Forall keeps_rows tables ->
  let n := (length tables * Z.to_nat l)%nat in
  exists c, traverse tables (Some l) (Some text) knd fhash = Ok (fst <$> take n post, c)
    /\ (c = None <-> (length post <= n)%nat).
Proof.
  induction tables as [|table tables IH]; intros pre x post text Es Hpost Hx Et Hlen Hk n.
  { exists (Some text). split; [done|]. destruct post; [done|]. unfold n. simpl. split; [done|lia]. }
  apply Forall_cons in Hk as [Hk1 Hks].
  destruct (request_after table pre x post text) as (page & Er & El & c & Ec & Ehw); [done..|].
  destruct (page_spec post page) as (response & Ep & Ei & Hn); [done| |congruence|congruence|].
  { exists (pre ++ [x]). by rewrite <-app_assoc. }
  rewrite traverse_cons, Er, Ep. simpl. rewrite Ei.
  destruct Hn as [[Hle ->]|(mid & y & post' & text' & -> & Hmid & Hp' & -> & Hy & Ey & Hlen')].
  { exists None. split; [|unfold n; simpl; split; [lia|done]]. unfold n. simpl.
    by rewrite !take_ge by lia. }
  destruct (IH (pre ++ x :: mid) y post' text') as (c' & -> & Hc'); [|done..|].
  { rewrite Es. by rewrite <-app_assoc. }
  assert (E1 : Z.to_nat l = S (length mid)) by lia.
  simpl. exists c'. unfold n. simpl. rewrite E1 in Hc' |- *. split.
  - rewrite <-fmap_app. do 3 f_equal. rewrite !cons_middle, !app_assoc.
    replace (S (length mid)) with (length (mid ++ [y])) by (rewrite length_app; simpl; lia).
    rewrite take_app_length, take_app_add. done.
  - rewrite Hc', length_app. simpl. lia.
Qed.

(** C29: a client that follows the cursors it receives while the table keeps
    growing is served the rows that existed when it asked for the first page,
    each exactly once and newest first, whatever was added above the
    watermark; the cursor runs out exactly when those rows do. *)
Theorem traversal_exact tables :
  Forall keeps_rows tables ->
  let n := (S (length tables) * Z.to_nat l)%nat in
  exists c, traverse (t0 :: tables) (Some l) None knd fhash
      = Ok (fst <$> take n (order_by_desc t0), c)
    /\ (c = None <-> (length t0 <= n)%nat).
Proof.
  intros Hk n. rewrite traverse_cons. unfold request_page. rewrite parse_page_first by done.
  simpl. unfold query_page. rewrite list_filter_id by done.
  set (page := {| limit := l; cursor := None |}).
  destruct (page_spec (order_by_desc t0) page) as (response & Ep & Ei & Hn);
    [done|by exists []|done|done|].
  assert (E0 : length t0 = length (order_by_desc t0)) by by rewrite order_by_desc_Permutation.
  change (Z.to_nat (l + 1)) with (Z.to_nat (limit page + 1)). rewrite Ep. simpl. rewrite Ei.
  destruct Hn as [[Hle ->]|(mid & y & post' & text' & Es & Hmid & Hp' & -> & Hy & Ey & Hlen')].
  { exists None. split; [|unfold n; simpl; split; [lia|done]]. unfold n. simpl.
    by rewrite !take_ge by lia. }
  destruct (traverse_after tables mid y post' text') as (c' & -> & Hc'); [done..|].
  assert (E1 : Z.to_nat l = S (length mid)) by lia.
  simpl. exists c'. unfold n. simpl. rewrite E0, Es. rewrite E1 in Hc' |- *. split.
  - rewrite <-fmap_app. do 3 f_equal. rewrite !cons_middle, !app_assoc.
    replace (S (length mid)) with (length (mid ++ [y])) by (rewrite length_app; simpl; lia).
    rewrite take_app_length, take_app_add. done.
  - rewrite Hc', length_app. simpl. lia.
Qed.
End Client.
End WithCodec.
End Traversal.

(* ------------------------------------------------------------------ *)
(** ** The theorems at concrete inputs *)
#[local] Existing Instances calendar_time counter_uuids.
#[export] Instance SortBoundary_eq_dec : EqDecision SortBoundary.
Proof. solve_decision. Defined.
#[export] Instance OpaqueCursor_eq_dec : EqDecision OpaqueCursor.
Proof. solve_decision. Defined.

Definition sample_boundary (text : string) (n : nat) : SortBoundary :=
  {| sort_key := default 0 (sort_key_from_rfc3339 text); timestamp := text; id := counter_uuid n |}.
Definition row1 : nat * SortBoundary := (1%nat, sample_boundary "2026-01-01T00:00:00Z" 1).
Definition row2 : nat * SortBoundary := (2%nat, sample_boundary "2026-01-01T00:00:00.5Z" 2).
Definition row3 : nat * SortBoundary := (3%nat, sample_boundary "2026-01-02T00:00:00Z" 3).
Definition row4 : nat * SortBoundary := (4%nat, sample_boundary "2026-01-03T00:00:00Z" 4).

(** A codec that numbers the cursors of one traversal, in unary. *)
Definition cursor_at (r : nat * SortBoundary) : OpaqueCursor :=
  {| version := CURSOR_VERSION; kind := "snapshots"; filter_hash := "none";
     high_watermark := row3.2; after := r.2 |}.
Definition known_cursors : list OpaqueCursor := cursor_at <$> [row1; row2; row3].
Definition text2 : string := of_chars [Ascii.zero].
#[local] Instance unary_codec : CursorCodec := {|
  b64_encode := bytes_string;
  b64_decode s := Some (string_bytes s);
  cursor_to_json := table_encode known_cursors;
  cursor_of_json := table_decode known_cursors;
|}.
#[local] Instance unary_codec_laws : CursorLaws unary_codec.
Proof.
  split.
  - intros b. simpl. by rewrite string_bytes_string.
  - apply table_decode_encode.
Qed.

Lemma cursor_roundtrip_witness :
  parse_page (Some 2) (Some text2) "snapshots" "none"
    = Ok {| limit := 2;
            cursor := Some (cursor_at row2) |}
  /\ forall knd' fhash', (knd', fhash') <> ("snapshots", "none")%string ->
       parse_page (Some 2) (Some text2) knd' fhash'
       = Err (Api.invalid "cursor does not match this collection and filters").
Proof.
  apply (cursor_roundtrip 2 "snapshots" "none" row3.2 row2.2 text2).
  - unfold MAX_PAGE_LIMIT. lia.
  - by vm_compute.
  - by vm_compute.
  - by vm_compute.
  - by vm_compute.
  - by vm_compute.
Defined.

Lemma parse_page_sound_witness :
  1 <= 2 <= MAX_PAGE_LIMIT
  /\ (Some text2 = None <-> Some (cursor_at row2) = None)
  /\ forall c, Some (cursor_at row2) = Some c ->
       version c = CURSOR_VERSION /\ kind c = "snapshots"%string /\ filter_hash c = "none"%string
       /\ validate_boundary (high_watermark c) = Ok tt /\ validate_boundary (after c) = Ok tt
       /\ is_at_or_before (after c) (high_watermark c) = true.
Proof.
  apply (parse_page_sound (Some 2) (Some text2) "snapshots" "none"
           {| limit := 2; cursor := Some (cursor_at row2) |}).
  by vm_compute.
Defined.

(** Two pages of two rows over a table that received [row4] in between. *)
Lemma traversal_exact_witness :
  exists c, traverse [[row1; row3; row2]; [row4; row1; row3; row2]] (Some 2) None "snapshots" "none"
      = Ok (fst <$> take 4 (order_by_desc [row1; row3; row2]), c)
    /\ (c = None <-> (3 <= 4)%nat).
Proof.
  apply (traversal_exact 2 "snapshots" "none" [row1; row3; row2] row3).
  - unfold MAX_PAGE_LIMIT. lia.
  - apply (bool_decide_unpack _). by vm_compute.
  - by vm_compute.
  - intros r Hr. repeat (apply elem_of_cons in Hr as [->|Hr]; [by vm_compute|]). by apply elem_of_nil in Hr.
  - intros r Hr. repeat (apply elem_of_cons in Hr as [->|Hr]; [eexists; split; [by vm_compute|by vm_compute]|]).
    by apply elem_of_nil in Hr.
  - constructor; [|constructor]. unfold keeps_rows. apply (bool_decide_unpack _). by vm_compute.
Defined.
