(* ===== verification/Tables.v ===== *)
(** The metadata store: one [Module] per table of [migrations/*.sql], with the
    columns of its rows, and the database as the list of rows of each table in
    insertion order.

    The queries of the server are list operations on these tables: SELECT is
    [filter], INSERT appends after the uniqueness checks, UPDATE maps, DELETE
    filters.  A TEXT column is a [string], an INTEGER column a [Z]. *)
From stdpp Require Import prelude strings gmap sorting list.
From Stdlib Require Import ZArith Lia.
From S2P Require Import Prelude Errors Contract.

(** [clients] *)
Module Client.
Record row : Type := mk {
  id : string;
  owner_namespace : string;
  hostname : option string;
  display_name : option string;
  metadata_json : string;
  created_at : string;
  updated_at : string;
}.
End Client.

(** [sessions]; UNIQUE (owner_namespace, source_agent, source_session_id) *)
Module Session.
Record row : Type := mk {
  id : string;
  owner_namespace : string;
  source_agent : string;
  source_session_id : string;
  created_at : string;
  updated_at : string;
}.
End Session.

(** [uploads]; UNIQUE (owner_namespace, client_id, capture_id) *)
Module Upload.
Record row : Type := mk {
  id : string;
  owner_namespace : string;
  session_id : string;
  client_id : string;
  idempotency_key : string;
  capture_id : string;
  manifest_sha256 : string;
  status : string;
  snapshot_id : option string;
  created_at : string;
  completed_at : option string;
  chunk_size_bytes : Z;
  chunk_count : Z;
  declared_stored_size_bytes : Z;
  declared_original_size_bytes : Z;
  expires_at : string;
  artifact_count : Z;
  total_stored_size_bytes : Z;
  total_original_size_bytes : Z;
  transfer_bytes : Z;
  newly_persisted_bytes : Z;
}.
(** [UPDATE uploads SET status = ?1] *)
Definition set_status (s : string) (r : row) : row :=
  {| id := id r; owner_namespace := owner_namespace r; session_id := session_id r;
     client_id := client_id r; idempotency_key := idempotency_key r;
     capture_id := capture_id r; manifest_sha256 := manifest_sha256 r; status := s;
     snapshot_id := snapshot_id r; created_at := created_at r; completed_at := completed_at r;
     chunk_size_bytes := chunk_size_bytes r; chunk_count := chunk_count r;
     declared_stored_size_bytes := declared_stored_size_bytes r;
     declared_original_size_bytes := declared_original_size_bytes r;
     expires_at := expires_at r; artifact_count := artifact_count r;
     total_stored_size_bytes := total_stored_size_bytes r;
     total_original_size_bytes := total_original_size_bytes r;
     transfer_bytes := transfer_bytes r; newly_persisted_bytes := newly_persisted_bytes r |}.
(** [UPDATE uploads SET status = 'completed', snapshot_id = ?1, ...] *)
Definition set_completed (snapshot now : string) (transfer persisted : Z) (r : row) : row :=
  {| id := id r; owner_namespace := owner_namespace r; session_id := session_id r;
     client_id := client_id r; idempotency_key := idempotency_key r;
     capture_id := capture_id r; manifest_sha256 := manifest_sha256 r; status := "completed";
     snapshot_id := Some snapshot; created_at := created_at r; completed_at := Some now;
     chunk_size_bytes := chunk_size_bytes r; chunk_count := chunk_count r;
     declared_stored_size_bytes := declared_stored_size_bytes r;
     declared_original_size_bytes := declared_original_size_bytes r;
     expires_at := expires_at r; artifact_count := artifact_count r;
     total_stored_size_bytes := total_stored_size_bytes r;
     total_original_size_bytes := total_original_size_bytes r;
     transfer_bytes := transfer; newly_persisted_bytes := persisted |}.
(** [UPDATE uploads SET artifact_count, total_original_size_bytes, ...]: the columns
    derived from the manifest *)
Definition set_projection (count original stored first_original first_stored first_count : Z) (r : row) : row :=
  {| id := id r; owner_namespace := owner_namespace r; session_id := session_id r;
     client_id := client_id r; idempotency_key := idempotency_key r; capture_id := capture_id r;
     manifest_sha256 := manifest_sha256 r; status := status r; snapshot_id := snapshot_id r;
     created_at := created_at r; completed_at := completed_at r;
     chunk_size_bytes := chunk_size_bytes r; chunk_count := first_count;
     declared_stored_size_bytes := first_stored; declared_original_size_bytes := first_original;
     expires_at := expires_at r; artifact_count := count; total_stored_size_bytes := stored;
     total_original_size_bytes := original;
     transfer_bytes := if bool_decide (status r = "completed"%string) then stored else transfer_bytes r;
     newly_persisted_bytes := newly_persisted_bytes r |}.
(** [UPDATE uploads SET chunk_size_bytes, ..., expires_at, status, artifact_count = 1, ...] *)
Definition set_migrated (chunk_size count stored original : Z) (expires s : string) (r : row) : row :=
  {| id := id r; owner_namespace := owner_namespace r; session_id := session_id r;
     client_id := client_id r; idempotency_key := idempotency_key r; capture_id := capture_id r;
     manifest_sha256 := manifest_sha256 r; status := s; snapshot_id := snapshot_id r;
     created_at := created_at r; completed_at := completed_at r; chunk_size_bytes := chunk_size;
     chunk_count := count; declared_stored_size_bytes := stored;
     declared_original_size_bytes := original; expires_at := expires; artifact_count := 1;
     total_stored_size_bytes := stored; total_original_size_bytes := original;
     transfer_bytes := transfer_bytes r; newly_persisted_bytes := newly_persisted_bytes r |}.
End Upload.

(** [manifests]; [upload_id] is UNIQUE *)
Module ManifestRow.
Record row : Type := mk {
  id : string;
  upload_id : string;
  canonical_json : string;
  sha256 : string;
  created_at : string;
}.
End ManifestRow.

(** [upload_artifacts]; PRIMARY KEY (upload_id, artifact_index),
    UNIQUE (upload_id, logical_path) *)
Module UploadArtifact.
Record row : Type := mk {
  upload_id : string;
  artifact_index : Z;
  logical_path : string;
  media_type : option string;
  original_size_bytes : Z;
  original_sha256 : string;
  stored_size_bytes : Z;
  stored_sha256 : string;
  compression : string;
  chunk_count : Z;
}.
(** [UPDATE upload_artifacts SET chunk_count = ?1] *)
Definition set_chunk_count (n : Z) (r : row) : row :=
  {| upload_id := upload_id r; artifact_index := artifact_index r; logical_path := logical_path r;
     media_type := media_type r; original_size_bytes := original_size_bytes r;
     original_sha256 := original_sha256 r; stored_size_bytes := stored_size_bytes r;
     stored_sha256 := stored_sha256 r; compression := compression r; chunk_count := n |}.
End UploadArtifact.

(** [upload_chunks]; PRIMARY KEY (upload_id, artifact_index, chunk_index) *)
Module Chunk.
Record row : Type := mk {
  upload_id : string;
  artifact_index : Z;
  chunk_index : Z;
  byte_length : Z;
  sha256 : string;
  accepted_at : string;
}.
End Chunk.

(** [upload_audits]: the redacted terminal facts of an upload *)
Module Audit.
Record row : Type := mk {
  upload_id : string;
  owner_namespace : string;
  client_id : string;
  capture_id : string;
  session_id : string;
  declared_original_size_bytes : Z;
  declared_stored_size_bytes : Z;
  chunk_size_bytes : Z;
  chunk_count : Z;
  created_at : string;
  terminal_at : string;
  terminal_reason : string;
  error_code : string;
  artifact_count : Z;
  total_original_size_bytes : Z;
  total_stored_size_bytes : Z;
  manifest_sha256 : option string;
}.
End Audit.

(** [blobs]; UNIQUE (owner_namespace, stored_sha256) *)
Module Blob.
Record row : Type := mk {
  id : string;
  owner_namespace : string;
  stored_sha256 : string;
  stored_size_bytes : Z;
  compression : string;
  created_at : string;
  orphaned_at : option string;
  eligible_after : option string;
  eligible_after_seq : option Z;
}.
(** [UPDATE blobs SET orphaned_at, eligible_after, eligible_after_seq] *)
Definition set_orphan (orphaned eligible : option string) (seq : option Z) (r : row) : row :=
  {| id := id r; owner_namespace := owner_namespace r; stored_sha256 := stored_sha256 r;
     stored_size_bytes := stored_size_bytes r; compression := compression r;
     created_at := created_at r; orphaned_at := orphaned; eligible_after := eligible;
     eligible_after_seq := seq |}.
End Blob.

(** [snapshots]; UNIQUE (session_id, fingerprint_sha256) WHERE deleted_at IS NULL *)
Module Snapshot.
Record row : Type := mk {
  id : string;
  owner_namespace : string;
  session_id : string;
  manifest_id : string;
  fingerprint_sha256 : string;
  completed_at : string;
  completed_at_seq : Z;
  artifact_count : Z;
  total_original_size_bytes : Z;
  total_stored_size_bytes : Z;
  fingerprint_version : Z;
  deleted_at : option string;
  rearchived_from_tombstone_id : option string;
}.
(** [UPDATE snapshots SET deleted_at = ?1] *)
Definition set_deleted (now : string) (r : row) : row :=
  {| id := id r; owner_namespace := owner_namespace r; session_id := session_id r;
     manifest_id := manifest_id r; fingerprint_sha256 := fingerprint_sha256 r;
     completed_at := completed_at r; completed_at_seq := completed_at_seq r;
     artifact_count := artifact_count r;
     total_original_size_bytes := total_original_size_bytes r;
     total_stored_size_bytes := total_stored_size_bytes r;
     fingerprint_version := fingerprint_version r; deleted_at := Some now;
     rearchived_from_tombstone_id := rearchived_from_tombstone_id r |}.
(** [UPDATE snapshots SET fingerprint_sha256 = ?1, fingerprint_version = ?2] *)
Definition set_fingerprint (fingerprint : string) (version : Z) (r : row) : row :=
  {| id := id r; owner_namespace := owner_namespace r; session_id := session_id r;
     manifest_id := manifest_id r; fingerprint_sha256 := fingerprint;
     completed_at := completed_at r; completed_at_seq := completed_at_seq r;
     artifact_count := artifact_count r; total_original_size_bytes := total_original_size_bytes r;
     total_stored_size_bytes := total_stored_size_bytes r; fingerprint_version := version;
     deleted_at := deleted_at r; rearchived_from_tombstone_id := rearchived_from_tombstone_id r |}.
(** [UPDATE snapshots SET completed_at_seq = ?1] *)
Definition set_seq (n : Z) (r : row) : row :=
  {| id := id r; owner_namespace := owner_namespace r; session_id := session_id r;
     manifest_id := manifest_id r; fingerprint_sha256 := fingerprint_sha256 r;
     completed_at := completed_at r; completed_at_seq := n; artifact_count := artifact_count r;
     total_original_size_bytes := total_original_size_bytes r;
     total_stored_size_bytes := total_stored_size_bytes r;
     fingerprint_version := fingerprint_version r; deleted_at := deleted_at r;
     rearchived_from_tombstone_id := rearchived_from_tombstone_id r |}.
End Snapshot.

(** [artifacts]; UNIQUE (snapshot_id, logical_path) and (snapshot_id, artifact_index) *)
Module ArtifactRow.
Record row : Type := mk {
  id : string;
  snapshot_id : string;
  blob_id : string;
  logical_path : string;
  media_type : option string;
  original_size_bytes : Z;
  original_sha256 : string;
  created_at : string;
  created_at_seq : Z;
  artifact_index : Z;
}.
(** [UPDATE artifacts SET created_at_seq = ?1] *)
Definition set_seq (n : Z) (r : row) : row :=
  {| id := id r; snapshot_id := snapshot_id r; blob_id := blob_id r;
     logical_path := logical_path r; media_type := media_type r;
     original_size_bytes := original_size_bytes r; original_sha256 := original_sha256 r;
     created_at := created_at r; created_at_seq := n; artifact_index := artifact_index r |}.
End ArtifactRow.

(** [captures]; [upload_id] is UNIQUE, as is (owner_namespace, client_id, capture_id) *)
Module CaptureRow.
Record row : Type := mk {
  id : string;
  owner_namespace : string;
  capture_id : string;
  session_id : string;
  client_id : string;
  upload_id : string;
  manifest_id : string;
  snapshot_id : string;
  source_captured_at : string;
  source_cursor : option string;
  source_state_hash : option string;
  source_metadata_json : string;
  project : option string;
  repository : option string;
  branch : option string;
  source_agent_version : option string;
  artifact_set_version : Z;
  munshi_version : option string;
  server_received_at : string;
  server_completed_at : string;
  server_completed_at_seq : Z;
}.
(** [UPDATE captures SET server_completed_at_seq = ?1] *)
Definition set_seq (n : Z) (r : row) : row :=
  {| id := id r; owner_namespace := owner_namespace r; capture_id := capture_id r;
     session_id := session_id r; client_id := client_id r; upload_id := upload_id r;
     manifest_id := manifest_id r; snapshot_id := snapshot_id r;
     source_captured_at := source_captured_at r; source_cursor := source_cursor r;
     source_state_hash := source_state_hash r; source_metadata_json := source_metadata_json r;
     project := project r; repository := repository r; branch := branch r;
     source_agent_version := source_agent_version r;
     artifact_set_version := artifact_set_version r; munshi_version := munshi_version r;
     server_received_at := server_received_at r; server_completed_at := server_completed_at r;
     server_completed_at_seq := n |}.
End CaptureRow.

(** [session_latest_context]; PRIMARY KEY session_id, [snapshot_id] is UNIQUE *)
Module LatestContext.
Record row : Type := mk {
  session_id : string;
  snapshot_id : string;
  completed_at : string;
  completed_at_seq : Z;
  source_agent : string;
  project : option string;
  repository : option string;
  branch : option string;
  source_agent_version : option string;
  artifact_set_version : Z;
}.
End LatestContext.

(** [tombstones]; [snapshot_id] is UNIQUE *)
Module Tombstone.
Record row : Type := mk {
  id : string;
  owner_namespace : string;
  session_id : string;
  snapshot_id : string;
  snapshot_fingerprint_sha256 : string;
  manifest_sha256 : string;
  snapshot_completed_at : string;
  deleted_at : string;
  deleted_at_seq : Z;
  reason : option string;
  rearchived_snapshot_id : option string;
}.
(** [UPDATE tombstones SET rearchived_snapshot_id = ?1] *)
Definition set_rearchived (snapshot : string) (r : row) : row :=
  {| id := id r; owner_namespace := owner_namespace r; session_id := session_id r;
     snapshot_id := snapshot_id r;
     snapshot_fingerprint_sha256 := snapshot_fingerprint_sha256 r;
     manifest_sha256 := manifest_sha256 r; snapshot_completed_at := snapshot_completed_at r;
     deleted_at := deleted_at r; deleted_at_seq := deleted_at_seq r; reason := reason r;
     rearchived_snapshot_id := Some snapshot |}.
End Tombstone.

(** [deletion_audits]; [tombstone_id] and [snapshot_id] are UNIQUE *)
Module DeletionAudit.
Record row : Type := mk {
  id : string;
  tombstone_id : string;
  owner_namespace : string;
  session_id : string;
  snapshot_id : string;
  snapshot_fingerprint_sha256 : string;
  manifest_sha256 : string;
  occurred_at : string;
  occurred_at_seq : Z;
  reason : option string;
}.
End DeletionAudit.

Module ArchiveMetadata.
Record row : Type := mk {
  owner_namespace : string;
  archive_instance_id : string;
  created_at : string;
}.
End ArchiveMetadata.

Module IntegrityRun.
Record row : Type := mk {
  id : string;
  owner_namespace : string;
  started_at : string;
  started_at_seq : Z;
  completed_at : option string;
  completed_at_seq : option Z;
  status : string;
  finding_count : Z;
  info_count : Z;
  warning_count : Z;
  error_count : Z;
}.
(** [UPDATE integrity_runs SET completed_at = .., completed_at_seq = .., status
    = .., finding_count = .., info_count = .., warning_count = .., error_count = ..] *)
Definition set_completed (at_ : string) (seq : Z) (status : string) (total info warning error : Z) (r : row) : row :=
  mk (id r) (owner_namespace r) (started_at r) (started_at_seq r) (Some at_) (Some seq) status total info warning error.
End IntegrityRun.

Module IntegrityFinding.
Record row : Type := mk {
  id : string;
  run_id : string;
  owner_namespace : string;
  kind : string;
  severity : string;
  snapshot_id : option string;
  artifact_id : option string;
  blob_id : option string;
  detected_at : string;
  detected_at_seq : Z;
  detail_code : string;
}.
End IntegrityFinding.

(** The database. *)
Record Db : Type := mkDb {
  clients : list Client.row;
  sessions : list Session.row;
  uploads : list Upload.row;
  manifests : list ManifestRow.row;
  upload_artifacts : list UploadArtifact.row;
  upload_chunks : list Chunk.row;
  upload_audits : list Audit.row;
  blobs : list Blob.row;
  snapshots : list Snapshot.row;
  artifact_rows : list ArtifactRow.row;
  captures : list CaptureRow.row;
  session_latest_context : list LatestContext.row;
  tombstones : list Tombstone.row;
  deletion_audits : list DeletionAudit.row;
  archive_metadata : list ArchiveMetadata.row;
  integrity_runs : list IntegrityRun.row;
  integrity_findings : list IntegrityFinding.row;
}.
Definition empty_db : Db := mkDb [] [] [] [] [] [] [] [] [] [] [] [] [] [] [] [] [].

(** Replacing one table of the database. *)
Definition with_clients (f : list Client.row -> list Client.row) (d : Db) : Db :=
  mkDb (f (clients d)) (sessions d) (uploads d) (manifests d) (upload_artifacts d)
    (upload_chunks d) (upload_audits d) (blobs d) (snapshots d) (artifact_rows d)
    (captures d) (session_latest_context d) (tombstones d) (deletion_audits d)
    (archive_metadata d) (integrity_runs d) (integrity_findings d).
Definition with_sessions (f : list Session.row -> list Session.row) (d : Db) : Db :=
  mkDb (clients d) (f (sessions d)) (uploads d) (manifests d) (upload_artifacts d)
    (upload_chunks d) (upload_audits d) (blobs d) (snapshots d) (artifact_rows d)
    (captures d) (session_latest_context d) (tombstones d) (deletion_audits d)
    (archive_metadata d) (integrity_runs d) (integrity_findings d).
Definition with_uploads (f : list Upload.row -> list Upload.row) (d : Db) : Db :=
  mkDb (clients d) (sessions d) (f (uploads d)) (manifests d) (upload_artifacts d)
    (upload_chunks d) (upload_audits d) (blobs d) (snapshots d) (artifact_rows d)
    (captures d) (session_latest_context d) (tombstones d) (deletion_audits d)
    (archive_metadata d) (integrity_runs d) (integrity_findings d).
Definition with_manifests (f : list ManifestRow.row -> list ManifestRow.row) (d : Db) : Db :=
  mkDb (clients d) (sessions d) (uploads d) (f (manifests d)) (upload_artifacts d)
    (upload_chunks d) (upload_audits d) (blobs d) (snapshots d) (artifact_rows d)
    (captures d) (session_latest_context d) (tombstones d) (deletion_audits d)
    (archive_metadata d) (integrity_runs d) (integrity_findings d).
Definition with_upload_artifacts (f : list UploadArtifact.row -> list UploadArtifact.row) (d : Db) : Db :=
  mkDb (clients d) (sessions d) (uploads d) (manifests d) (f (upload_artifacts d))
    (upload_chunks d) (upload_audits d) (blobs d) (snapshots d) (artifact_rows d)
    (captures d) (session_latest_context d) (tombstones d) (deletion_audits d)
    (archive_metadata d) (integrity_runs d) (integrity_findings d).
Definition with_upload_chunks (f : list Chunk.row -> list Chunk.row) (d : Db) : Db :=
  mkDb (clients d) (sessions d) (uploads d) (manifests d) (upload_artifacts d)
    (f (upload_chunks d)) (upload_audits d) (blobs d) (snapshots d) (artifact_rows d)
    (captures d) (session_latest_context d) (tombstones d) (deletion_audits d)
    (archive_metadata d) (integrity_runs d) (integrity_findings d).
Definition with_upload_audits (f : list Audit.row -> list Audit.row) (d : Db) : Db :=
  mkDb (clients d) (sessions d) (uploads d) (manifests d) (upload_artifacts d)
    (upload_chunks d) (f (upload_audits d)) (blobs d) (snapshots d) (artifact_rows d)
    (captures d) (session_latest_context d) (tombstones d) (deletion_audits d)
    (archive_metadata d) (integrity_runs d) (integrity_findings d).
Definition with_blobs (f : list Blob.row -> list Blob.row) (d : Db) : Db :=
  mkDb (clients d) (sessions d) (uploads d) (manifests d) (upload_artifacts d)
    (upload_chunks d) (upload_audits d) (f (blobs d)) (snapshots d) (artifact_rows d)
    (captures d) (session_latest_context d) (tombstones d) (deletion_audits d)
    (archive_metadata d) (integrity_runs d) (integrity_findings d).
Definition with_snapshots (f : list Snapshot.row -> list Snapshot.row) (d : Db) : Db :=
  mkDb (clients d) (sessions d) (uploads d) (manifests d) (upload_artifacts d)
    (upload_chunks d) (upload_audits d) (blobs d) (f (snapshots d)) (artifact_rows d)
    (captures d) (session_latest_context d) (tombstones d) (deletion_audits d)
    (archive_metadata d) (integrity_runs d) (integrity_findings d).
Definition with_artifact_rows (f : list ArtifactRow.row -> list ArtifactRow.row) (d : Db) : Db :=
  mkDb (clients d) (sessions d) (uploads d) (manifests d) (upload_artifacts d)
    (upload_chunks d) (upload_audits d) (blobs d) (snapshots d) (f (artifact_rows d))
    (captures d) (session_latest_context d) (tombstones d) (deletion_audits d)
    (archive_metadata d) (integrity_runs d) (integrity_findings d).
Definition with_captures (f : list CaptureRow.row -> list CaptureRow.row) (d : Db) : Db :=
  mkDb (clients d) (sessions d) (uploads d) (manifests d) (upload_artifacts d)
    (upload_chunks d) (upload_audits d) (blobs d) (snapshots d) (artifact_rows d)
    (f (captures d)) (session_latest_context d) (tombstones d) (deletion_audits d)
    (archive_metadata d) (integrity_runs d) (integrity_findings d).
Definition with_session_latest_context (f : list LatestContext.row -> list LatestContext.row) (d : Db) : Db :=
  mkDb (clients d) (sessions d) (uploads d) (manifests d) (upload_artifacts d)
    (upload_chunks d) (upload_audits d) (blobs d) (snapshots d) (artifact_rows d)
    (captures d) (f (session_latest_context d)) (tombstones d) (deletion_audits d)
    (archive_metadata d) (integrity_runs d) (integrity_findings d).
Definition with_tombstones (f : list Tombstone.row -> list Tombstone.row) (d : Db) : Db :=
  mkDb (clients d) (sessions d) (uploads d) (manifests d) (upload_artifacts d)
    (upload_chunks d) (upload_audits d) (blobs d) (snapshots d) (artifact_rows d)
    (captures d) (session_latest_context d) (f (tombstones d)) (deletion_audits d)
    (archive_metadata d) (integrity_runs d) (integrity_findings d).
Definition with_deletion_audits (f : list DeletionAudit.row -> list DeletionAudit.row) (d : Db) : Db :=
  mkDb (clients d) (sessions d) (uploads d) (manifests d) (upload_artifacts d)
    (upload_chunks d) (upload_audits d) (blobs d) (snapshots d) (artifact_rows d)
    (captures d) (session_latest_context d) (tombstones d) (f (deletion_audits d))
    (archive_metadata d) (integrity_runs d) (integrity_findings d).
Definition with_archive_metadata (f : list ArchiveMetadata.row -> list ArchiveMetadata.row) (d : Db) : Db :=
  mkDb (clients d) (sessions d) (uploads d) (manifests d) (upload_artifacts d)
    (upload_chunks d) (upload_audits d) (blobs d) (snapshots d) (artifact_rows d)
    (captures d) (session_latest_context d) (tombstones d) (deletion_audits d)
    (f (archive_metadata d)) (integrity_runs d) (integrity_findings d).
Definition with_integrity_runs (f : list IntegrityRun.row -> list IntegrityRun.row) (d : Db) : Db :=
  mkDb (clients d) (sessions d) (uploads d) (manifests d) (upload_artifacts d)
    (upload_chunks d) (upload_audits d) (blobs d) (snapshots d) (artifact_rows d)
    (captures d) (session_latest_context d) (tombstones d) (deletion_audits d)
    (archive_metadata d) (f (integrity_runs d)) (integrity_findings d).
Definition with_integrity_findings (f : list IntegrityFinding.row -> list IntegrityFinding.row) (d : Db) : Db :=
  mkDb (clients d) (sessions d) (uploads d) (manifests d) (upload_artifacts d)
    (upload_chunks d) (upload_audits d) (blobs d) (snapshots d) (artifact_rows d)
    (captures d) (session_latest_context d) (tombstones d) (deletion_audits d)
    (archive_metadata d) (integrity_runs d) (f (integrity_findings d)).

(** Computes the tables of a database given as a constructor. *)
Ltac db_compute :=
  cbv [with_clients with_sessions with_uploads with_manifests
       with_upload_artifacts with_upload_chunks with_upload_audits with_blobs
       with_snapshots with_artifact_rows with_captures with_session_latest_context
       with_tombstones with_deletion_audits with_archive_metadata with_integrity_runs with_integrity_findings
       clients sessions uploads manifests upload_artifacts
       upload_chunks upload_audits blobs snapshots artifact_rows
       captures session_latest_context tombstones deletion_audits
       archive_metadata integrity_runs integrity_findings].

(* ------------------------------------------------------------------ *)
(** ** SQL on a table *)

Section Table.
Context {R : Type}.
Implicit Types (t : list R) (p : R -> bool).

(** [SELECT ... WHERE p], [UPDATE ... SET f WHERE p], [DELETE ... WHERE p] *)
Definition select p t : list R := filter (fun r => p r = true) t.
Definition select_one p t : option R := head (select p t).
Definition update p (f : R -> R) t : list R := map (fun r => if p r then f r else r) t.
Definition delete_where p t : list R := filter (fun r => p r = false) t.

(** [INSERT]: refused when a row violates a uniqueness constraint. *)
Definition insert_row (conflict : R -> bool) (r : R) t : option (list R) :=
  if existsb conflict t then None else Some (t ++ [r]).
(** [INSERT ... ON CONFLICT (target) DO NOTHING], with the rows affected. *)
Definition insert_or_ignore (target conflict : R -> bool) (r : R) t : option (list R * Z) :=
  if existsb target t then Some (t, 0)
  else (fun t => (t, 1)) <$> insert_row conflict r t.
(** [INSERT ... ON CONFLICT (target) DO UPDATE SET f] *)
Definition insert_or_update (target conflict : R -> bool) (f : R -> R) (r : R) t : option (list R) :=
  if existsb target t then Some (update target f t) else insert_row conflict r t.

Lemma elem_of_select p t r : r ∈ select p t <-> p r = true /\ r ∈ t.
Proof. unfold select. by rewrite list_elem_of_filter. Qed.
Lemma elem_of_delete p t r : r ∈ delete_where p t <-> p r = false /\ r ∈ t.
Proof. unfold delete_where. by rewrite list_elem_of_filter. Qed.
Lemma select_one_Some p t r : select_one p t = Some r -> p r = true /\ r ∈ t.
Proof.
  unfold select_one. intros E%head_Some_elem_of. by apply elem_of_select in E.
Qed.
Lemma select_one_None p t : select_one p t = None <-> forall r, r ∈ t -> p r = false.
Proof.
  unfold select_one, select. split.
  - intros E r Hr. destruct (p r) eqn:Hp; [|done]. exfalso.
    assert (Hin : r ∈ filter (fun r => p r = true) t) by by apply list_elem_of_filter.
    destruct (filter _ t); [by apply elem_of_nil in Hin|done].
  - intros H. rewrite list_filter_none; [done|]. intros r Hr. rewrite H by done. done.
Qed.
Lemma elem_of_update p f t r :
  r ∈ update p f t <-> (exists q, q ∈ t /\ p q = true /\ r = f q) \/ (p r = false /\ r ∈ t).
Proof.
  unfold update. change (map ?g ?l) with (g <$> l). rewrite list_elem_of_fmap. split.
  - intros (q & -> & Hq). destruct (p q) eqn:E; [left; eauto|by right].
  - intros [(q & Hq & E & ->)|[E Hr]]; [exists q|exists r]; by rewrite E.
Qed.
Lemma fmap_update {K} (g : R -> K) p f t : (forall r, g (f r) = g r) -> g <$> update p f t = g <$> t.
Proof.
  intros Hg. unfold update. induction t as [|r t IH]; [done|]. simpl. f_equal; [by destruct (p r)|exact IH].
Qed.
Lemma insert_row_Some conflict (r : R) t t' :
  insert_row conflict r t = Some t' <-> t' = t ++ [r] /\ forall q, q ∈ t -> conflict q = false.
Proof.
  unfold insert_row. destruct (existsb conflict t) eqn:E.
  - split; [done|]. intros [_ H]. rewrite <-not_false_iff_true in E. exfalso. apply E, existsb_false. auto.
  - rewrite existsb_false in E. split; [intros [= <-]; auto|]. by intros [-> _].
Qed.
Lemma insert_or_ignore_Some target conflict (r : R) t t' n :
  insert_or_ignore target conflict r t = Some (t', n) <->
  (n = 0 /\ t' = t /\ exists q, q ∈ t /\ target q = true)
  \/ (n = 1 /\ t' = t ++ [r] /\ forall q, q ∈ t -> target q = false /\ conflict q = false).
Proof.
  unfold insert_or_ignore. destruct (existsb target t) eqn:E.
  - apply existsb_true in E. split; [intros [= <- <-]; by left|]. intros [(-> & -> & _)|(_ & _ & H)]; [done|].
    destruct E as (q & Hq & Hx). destruct (H q Hq). congruence.
  - rewrite existsb_false in E. split.
    + intros (t0 & H & [= -> ->])%fmap_Some. apply insert_row_Some in H as [-> H]. right.
      split_and!; [done|done|]. auto.
    + intros [(_ & _ & q & Hq & Hx)|(-> & -> & H)]; [rewrite E in Hx; done|].
      rewrite (proj2 (insert_row_Some conflict r t (t ++ [r]))); [done|]. split; [done|]. apply H.
Qed.
End Table.

(** Text equality, as the tables compare keys. *)
Definition eqs (a b : string) : bool := bool_decide (a = b).
Lemma eqs_true a b : eqs a b = true <-> a = b.
Proof. unfold eqs. by rewrite bool_decide_eq_true. Qed.
Lemma eqs_false a b : eqs a b = false <-> a <> b.
Proof. unfold eqs. by rewrite bool_decide_eq_false. Qed.
Lemma eqs_refl a : eqs a a = true.
Proof. by apply eqs_true. Qed.
#[export] Hint Rewrite eqs_true eqs_false : patwari.
