(* ===== verification/Store.v ===== *)
(** The effects of the server: the committed metadata, the files of the data
    directory, the clock and the identifiers it draws.

    A handler is a function of the store that returns a [res] and the store it
    leaves behind.  Every call of the database or the file system is one
    numbered operation, and the environment decides which operations fail: a
    process killed in the middle of a request is the environment in which
    every later operation fails.  A transaction that does not commit leaves
    the committed metadata as it was. *)
From stdpp Require Import prelude strings gmap list.
From Stdlib Require Import ZArith Lia.
From Stdlib.Strings Require Import Byte.
From S2P Require Import Prelude Errors Contract Externals Tables.

(** A path below the data directory, as its components. *)
Abbreviation path := (list string).

(** What [symlink_metadata] tells apart. *)
Inductive Entry : Type :=
| Regular (content : bytes)
| Symlink
| Directory.
#[export] Instance Entry_eq_dec : EqDecision Entry.
Proof. solve_decision. Defined.

Abbreviation Files := (gmap path Entry).

Record Store : Type := mkStore {
  db : Db;
  files : Files;
  drawn : nat;     (* identifiers drawn from [Uuid::now_v7] *)
}.
Definition set_db (f : Db -> Db) (s : Store) : Store := mkStore (f (db s)) (files s) (drawn s).
Definition set_files (f : Files -> Files) (s : Store) : Store := mkStore (db s) (f (files s)) (drawn s).

(** The environment of a run: the wall clock at each operation, the operations
    that fail, and how much of a recursive removal or of a read happens before
    it does. *)
Class Env := {
  clock : nat -> OffsetDateTime;
  fails : nat -> option SqlxError;
  removed_before : nat -> path -> bool;
  read_before : nat -> nat;
}.

(* ------------------------------------------------------------------ *)
(** ** The monad *)

Definition M (E A : Type) : Type := Store * nat -> res E A * (Store * nat).

Definition ret {E A} (a : A) : M E A := fun w => (Ok a, w).
Definition throw {E A} (e : E) : M E A := fun w => (Err e, w).
Definition lift {E A} (c : res E A) : M E A := fun w => (c, w).
Definition bind {E A B} (m : M E A) (k : A -> M E B) : M E B :=
  fun w => match m w with
           | (Ok a, w') => k a w'
           | (Err e, w') => (Err e, w')
           end.
(** The result of a call as a value: [match call.await { Ok .. Err .. }]. *)
Definition attempt {E F A} (m : M E A) : M F (res E A) :=
  fun w => let '(r, w') := m w in (Ok r, w').
Definition map_err {E F A} (f : E -> F) (m : M E A) : M F A :=
  fun w => let '(r, w') := m w in (res_map_err f r, w').

Notation "'let!' p ':=' m 'in' k" := (bind m (fun p => k))
  (at level 10, p pattern, m at level 100, k at level 200) : rust_scope.
Notation "m '&;' k" := (bind m (fun _ => k))
  (at level 100, k at level 200, right associativity) : rust_scope.
Notation "'refuse' b 'with' e ';' k" := (if (b : bool) then throw e else k)
  (at level 10, b at level 100, e at level 100, k at level 200) : rust_scope.

Fixpoint for_each {E A} (l : list A) (body : A -> M E unit) : M E unit :=
  match l with
  | [] => ret tt
  | a :: l => body a &; for_each l body
  end.

Section Operations.
Context `{Env} `{UuidLib}.

(** One operation that the environment may fail. *)
Definition operation {E A} (err : SqlxError -> E) (k : M E A) : M E A :=
  fun '(s, n) => match fails n with
                 | Some e => (Err (err e), (s, S n))
                 | None => k (s, S n)
                 end.

Definition now {E} : M E OffsetDateTime := fun '(s, n) => (Ok (clock n), (s, S n)).
Definition new_uuid {E} : M E string :=
  fun '(s, n) => (Ok (now_v7 (drawn s)), (mkStore (db s) (files s) (S (drawn s)), n)).

(** A query: [fetch_one], [fetch_optional], [fetch_all]. *)
Definition query {E A} (err : SqlxError -> E) (f : Db -> A) : M E A :=
  operation err (fun w => (Ok (f (db w.1)), w)).
(** [fetch_one]: no row is an error of the call. *)
Definition fetch_one {E A} (err : SqlxError -> E) (f : Db -> option A) : M E A :=
  operation err (fun w => match f (db w.1) with
                          | Some a => (Ok a, w)
                          | None => (Err (err OtherSqlxError), w)
                          end).
(** A statement: it may violate a constraint, and tells how many rows it
    affected. *)
Definition execute {E A} (err : SqlxError -> E) (f : Db -> option (Db * A)) : M E A :=
  operation err (fun '(s, n) => match f (db s) with
                          | Some (d, a) => (Ok a, (set_db (fun _ => d) s, n))
                          | None => (Err (err (DatabaseError None)), (s, n))
                          end).

(** [begin], a body, then [commit] or [rollback]; an error of the body drops
    the transaction. *)
Inductive TxEnd (A : Type) : Type :=
| Commit (a : A)
| Rollback (a : A).
Definition tx_value {A} (e : TxEnd A) : A := match e with Commit _ a | Rollback _ a => a end.

Definition transaction {E A} (begin_err end_err : SqlxError -> E) (body : M E (TxEnd A)) : M E A :=
  operation begin_err (fun w =>
    let before := db w.1 in
    let restore (w : Store * nat) := (set_db (fun _ => before) w.1, w.2) in
    match body w with
    | (Err e, w') => (Err e, restore w')
    | (Ok (Rollback _ a), w') => operation end_err (ret a) (restore w')
    | (Ok (Commit _ a), w') =>
        match operation end_err (ret a) w' with
        | (Ok a, w'') => (Ok a, w'')
        | (Err e, w'') => (Err e, restore w'')
        end
    end).

(** *** Files *)

Definition create_dir_all {E} (err : E) (p : path) : M E unit :=
  operation (fun _ => err) (ret tt).

(** [OpenOptions::new().write(true).create_new(true).open(p)] *)
Definition create_new {E} (err : E) (p : path) : M E unit :=
  operation (fun _ => err) (fun '(s, n) =>
    match files s !! p with
    | Some _ => (Err err, (s, n))
    | None => (Ok tt, (set_files <[p := Regular []]> s, n))
    end).

(** [write_all] on the open file *)
Definition write_all {E} (err : E) (p : path) (data : bytes) : M E unit :=
  operation (fun _ => err) (fun '(s, n) =>
    match files s !! p with
    | Some (Regular b) => (Ok tt, (set_files <[p := Regular (b ++ data)]> s, n))
    | _ => (Err err, (s, n))
    end).

(** [flush], [sync_all] and [sync_parent_directory] *)
Definition sync {E} (err : E) : M E unit := operation (fun _ => err) (ret tt).

Inductive LinkResult : Type := Linked | AlreadyExists | LinkFailed.

(** [fs::hard_link]: both names then denote the same file. *)
Definition hard_link {E} (src dst : path) : M E LinkResult :=
  fun '(s, n) =>
    match fails n with
    | Some _ => (Ok LinkFailed, (s, S n))
    | None =>
        match files s !! src, files s !! dst with
        | None, _ => (Ok LinkFailed, (s, S n))
        | Some _, Some _ => (Ok AlreadyExists, (s, S n))
        | Some e, None => (Ok Linked, (set_files <[dst := e]> s, S n))
        end
    end.

(** [StorageLayout::remove_file]: a file that is not there is removed. *)
Definition remove_file {E} (err : E) (p : path) : M E unit :=
  operation (fun _ => err) (fun '(s, n) =>
    match files s !! p with
    | Some Directory => (Err err, (s, n))
    | _ => (Ok tt, (set_files (delete p) s, n))
    end).

(** [fs::remove_dir_all]: a failure may come after part of the tree is gone;
    a plain file is refused. *)
Definition below (dir p : path) : bool := bool_decide (dir `prefix_of` p).
Definition remove_dir_all {E} (err : E) (dir : path) : M E unit :=
  fun '(s, n) =>
    match fails n, files s !! dir with
    | Some _, _ =>
        (Err err, (set_files (filter (fun kv => below dir kv.1 && removed_before n kv.1 = false)) s, S n))
    | None, Some (Regular _) => (Err err, (s, S n))
    | None, _ => (Ok tt, (set_files (filter (fun kv => below dir kv.1 = false)) s, S n))
    end.

(** Directories are the prefixes of the files: one that holds nothing is not
    tracked, and lists like one that is not there.  The callers treat
    [NotFound] as an empty directory. *)
Fixpoint strip_dir (dir p : path) : option path :=
  match dir, p with
  | [], p => Some p
  | d :: dir, c :: p => if bool_decide (d = c) then strip_dir dir p else None
  | _ :: _, [] => None
  end.
Definition entry_names (dir : path) (fs : Files) : list string :=
  remove_dups (omap (fun kv => strip_dir dir kv.1 ≫= head) (map_to_list fs)).
(** Something is stored strictly below [p], or a directory sits at [p]. *)
Definition is_dir_in (fs : Files) (p : path) : bool :=
  bool_decide (fs !! p = Some Directory) || negb (bool_decide (entry_names p fs = [])).
Definition exists_in (fs : Files) (p : path) : bool :=
  bool_decide (is_Some (fs !! p)) || is_dir_in fs p.

(** [fs::read_dir] and [next_entry]: opening lists the entries, each of them
    and the end of the listing is one more operation. *)
Definition read_dir {E} (err : E) (dir : path) : M E (list string) :=
  operation (fun _ => err) (fun w => (Ok (entry_names dir (files w.1)), w)).
Definition next_entry {E} (err : E) : M E unit := operation (fun _ => err) (ret tt).
Definition for_entries {E} (err : E) (dir : path) (body : string -> M E unit) : M E unit :=
  let! names := read_dir err dir in
  for_each names (fun name => next_entry err &; body name) &;
  next_entry err.
(** [symlink_metadata(p)]: whether [p] is a directory; nothing there is an error. *)
Definition metadata_is_dir {E} (err : E) (p : path) : M E bool :=
  operation (fun _ => err) (fun w =>
    if exists_in (files w.1) p then (Ok (is_dir_in (files w.1) p), w) else (Err err, w)).
(** [fs::try_exists] *)
Definition try_exists {E} (err : E) (p : path) : M E bool :=
  operation (fun _ => err) (fun w => (Ok (exists_in (files w.1) p), w)).

(** [symlink_metadata(p)] followed by [file_type().is_file()] *)
Definition is_regular_file {E} (p : path) : M E bool :=
  fun '(s, n) =>
    (Ok (match fails n, files s !! p with
         | None, Some (Regular _) => true
         | _, _ => false
         end), (s, S n)).

(** [File::open] on a regular file, then the reads of a loop on it: the whole
    content, or a prefix and an I/O error. *)
Definition read_file {E} (err : E) (p : path) : M E (list bytes * bool) :=
  operation (fun _ => err) (fun '(s, n) =>
    match files s !! p with
    | Some (Regular b) =>
        (Ok (match fails n with
             | None => ([b], true)
             | Some _ => ([take (read_before n) b], false)
             end), (s, S n))
    | _ => (Err err, (s, n))
    end).
End Operations.
Arguments Commit {A} _.
Arguments Rollback {A} _.

(* ------------------------------------------------------------------ *)
(** ** Reasoning: weakest preconditions over every environment *)

(** [wp m Q s]: run from the store [s] at any operation number, [m] ends in a
    result and a store that satisfy [Q]. *)
Definition wp {E A} (m : M E A) (Q : res E A -> Store -> Prop) (s : Store) : Prop :=
  forall n, Q (m (s, n)).1 (m (s, n)).2.1.

Section Rules.
Context `{Env} `{UuidLib}.
Context {E F A B : Type}.
Implicit Types (s : Store) (e : E).

Lemma wp_mono (m : M E A) (P Q : res E A -> Store -> Prop) s :
  (forall r s', P r s' -> Q r s') -> wp m P s -> wp m Q s.
Proof. intros HPQ Hm n. apply HPQ, Hm. Qed.

Lemma wp_ret (a : A) (Q : res E A -> Store -> Prop) s : Q (Ok a) s -> wp (ret a) Q s.
Proof. by intros HQ n. Qed.
Lemma wp_throw e (Q : res E A -> Store -> Prop) s : Q (Err e) s -> wp (throw e) Q s.
Proof. by intros HQ n. Qed.
Lemma wp_lift (c : res E A) (Q : res E A -> Store -> Prop) s : Q c s -> wp (lift c) Q s.
Proof. by intros HQ n. Qed.

Definition then_wp (k : A -> M E B) (Q : res E B -> Store -> Prop) (r : res E A) (s : Store) : Prop :=
  match r with Ok a => wp (k a) Q s | Err e => Q (Err e) s end.

Lemma wp_bind (m : M E A) (k : A -> M E B) (Q : res E B -> Store -> Prop) s :
  wp m (then_wp k Q) s -> wp (bind m k) Q s.
Proof.
  intros Hm n. specialize (Hm n). unfold bind, then_wp in *.
  destruct (m (s, n)) as [[a|e] [s' n']]; simpl in *; [apply Hm|done].
Qed.
(** When only what follows [m] matters. *)
Lemma wp_bind_any (m : M E A) (k : A -> M E B) (Q : res E B -> Store -> Prop) s :
  (forall e s', Q (Err e) s') -> (forall a s', wp (k a) Q s') -> wp (bind m k) Q s.
Proof.
  intros He Hk n. unfold bind. destruct (m (s, n)) as [[a|e] [s' n']]; simpl; [apply Hk|apply He].
Qed.
Lemma wp_attempt (m : M E A) (Q : res F (res E A) -> Store -> Prop) s :
  wp m (fun r s' => Q (Ok r) s') s -> wp (attempt m) Q s.
Proof. intros Hm n. specialize (Hm n). unfold attempt. by destruct (m (s, n)). Qed.
Lemma wp_map_err (f : E -> F) (m : M E A) (Q : res F A -> Store -> Prop) s :
  wp m (fun r s' => Q (res_map_err f r) s') s -> wp (map_err f m) Q s.
Proof. intros Hm n. specialize (Hm n). unfold map_err. by destruct (m (s, n)). Qed.

Lemma wp_now (Q : res E OffsetDateTime -> Store -> Prop) s : (forall t, Q (Ok t) s) -> wp now Q s.
Proof. intros HQ n. apply HQ. Qed.
Lemma wp_new_uuid (Q : res E string -> Store -> Prop) s :
  Q (Ok (now_v7 (drawn s))) (mkStore (db s) (files s) (S (drawn s))) -> wp new_uuid Q s.
Proof. by intros HQ n. Qed.

Lemma wp_operation (err : SqlxError -> E) (k : M E A) (Q : res E A -> Store -> Prop) s :
  (forall x, Q (Err (err x)) s) -> wp k Q s -> wp (operation err k) Q s.
Proof. intros H1 H2 n. unfold operation. destruct (fails n); [apply H1|apply H2]. Qed.

Lemma wp_query (err : SqlxError -> E) (f : Db -> A) (Q : res E A -> Store -> Prop) s :
  (forall x, Q (Err (err x)) s) -> Q (Ok (f (db s))) s -> wp (query err f) Q s.
Proof. intros H1 H2. apply wp_operation; [done|]. by intros n. Qed.
Lemma wp_fetch_one (err : SqlxError -> E) (f : Db -> option A) (Q : res E A -> Store -> Prop) s :
  (forall x, Q (Err (err x)) s) -> (forall a, f (db s) = Some a -> Q (Ok a) s) ->
  wp (fetch_one err f) Q s.
Proof.
  intros H1 H2. apply wp_operation; [done|]. intros n. simpl.
  destruct (f (db s)) eqn:Ef; simpl; auto.
Qed.
Lemma wp_execute (err : SqlxError -> E) (f : Db -> option (Db * A)) (Q : res E A -> Store -> Prop) s :
  (forall x, Q (Err (err x)) s) ->
  (forall d a, f (db s) = Some (d, a) -> Q (Ok a) (mkStore d (files s) (drawn s))) ->
  wp (execute err f) Q s.
Proof.
  intros H1 H2. apply wp_operation; [done|]. intros n.
  destruct (f (db s)) as [[d a]|] eqn:Ef; simpl; [by apply H2|apply H1].
Qed.

(** A transaction: its body may change everything, and whatever is not
    committed leaves [db s] in place. *)
Lemma wp_transaction (begin_err end_err : SqlxError -> E) (body : M E (TxEnd A))
    (Q : res E A -> Store -> Prop) s :
  (forall x, Q (Err (begin_err x)) s) ->
  wp body (fun r s' =>
    let aborted := mkStore (db s) (files s') (drawn s') in
    match r with
    | Err e => Q (Err e) aborted
    | Ok (Rollback a) => Q (Ok a) aborted /\ forall x, Q (Err (end_err x)) aborted
    | Ok (Commit a) => Q (Ok a) s' /\ forall x, Q (Err (end_err x)) aborted
    end) s ->
  wp (transaction begin_err end_err body) Q s.
Proof.
  intros H1 H2. apply wp_operation; [done|]. intros n. specialize (H2 n).
  destruct (body (s, n)) as [[[a|a]|e] [s' n']]; simpl in *.
  - destruct H2 as [Ha Hx]. destruct (fails n'); simpl; [apply Hx|done].
  - destruct H2 as [Ha Hx]. destruct (fails n'); simpl; [apply Hx|done].
  - done.
Qed.
End Rules.

Section FileRules.
Context `{Env}.
Context {E : Type}.
Implicit Types (s : Store) (e : E) (p : path).

Lemma wp_create_dir_all e p (Q : res E unit -> Store -> Prop) s :
  Q (Err e) s -> Q (Ok tt) s -> wp (create_dir_all e p) Q s.
Proof. intros. apply wp_operation; [done|]. by intros n. Qed.
Lemma wp_sync e (Q : res E unit -> Store -> Prop) s :
  Q (Err e) s -> Q (Ok tt) s -> wp (sync e) Q s.
Proof. intros. apply wp_operation; [done|]. by intros n. Qed.
Lemma wp_create_new e p (Q : res E unit -> Store -> Prop) s :
  Q (Err e) s ->
  (files s !! p = None -> Q (Ok tt) (mkStore (db s) (<[p := Regular []]> (files s)) (drawn s))) ->
  wp (create_new e p) Q s.
Proof.
  intros H1 H2. apply wp_operation; [done|]. intros n.
  destruct (files s !! p); simpl; [done|by apply H2].
Qed.
Lemma wp_write_all e p data (Q : res E unit -> Store -> Prop) s :
  Q (Err e) s ->
  (forall b, files s !! p = Some (Regular b) ->
     Q (Ok tt) (mkStore (db s) (<[p := Regular (b ++ data)]> (files s)) (drawn s))) ->
  wp (write_all e p data) Q s.
Proof.
  intros H1 H2. apply wp_operation; [done|]. intros n.
  destruct (files s !! p) as [[b| |]|]; simpl; [by apply H2|done..].
Qed.
Lemma wp_hard_link src dst (Q : res E LinkResult -> Store -> Prop) s :
  Q (Ok LinkFailed) s ->
  (forall x y, files s !! src = Some x -> files s !! dst = Some y -> Q (Ok AlreadyExists) s) ->
  (forall x, files s !! src = Some x -> files s !! dst = None ->
     Q (Ok Linked) (mkStore (db s) (<[dst := x]> (files s)) (drawn s))) ->
  wp (hard_link src dst) Q s.
Proof.
  intros H1 H2 H3 n. unfold hard_link. destruct (fails n); [done|].
  destruct (files s !! src) as [x|]; [|done].
  destruct (files s !! dst) as [y|]; simpl; [by eapply H2|by apply H3].
Qed.
Lemma wp_remove_file e p (Q : res E unit -> Store -> Prop) s :
  Q (Err e) s -> Q (Ok tt) (mkStore (db s) (delete p (files s)) (drawn s)) ->
  wp (remove_file e p) Q s.
Proof.
  intros H1 H2. apply wp_operation; [done|]. intros n.
  by destruct (files s !! p) as [[b| |]|]; simpl; auto.
Qed.
Lemma wp_remove_dir_all e dir (Q : res E unit -> Store -> Prop) s :
  (forall fs, (forall p, below dir p = false -> fs !! p = files s !! p) ->
     (forall p, fs !! p = files s !! p \/ fs !! p = None) -> Q (Err e) (mkStore (db s) fs (drawn s))) ->
  (forall fs, (forall p, below dir p = false -> fs !! p = files s !! p) ->
     (forall p, below dir p = true -> fs !! p = None) -> Q (Ok tt) (mkStore (db s) fs (drawn s))) ->
  wp (remove_dir_all e dir) Q s.
Proof.
  intros H1 H2 n. unfold remove_dir_all.
  assert (Hgone : forall p, below dir p = false ->
    filter (fun kv : path * Entry => below dir kv.1 = false) (files s) !! p = files s !! p).
  { intros p Hp. rewrite map_lookup_filter. destruct (files s !! p); [|done]. simpl. by rewrite option_guard_True. }
  assert (Hall : forall p, below dir p = true ->
    filter (fun kv : path * Entry => below dir kv.1 = false) (files s) !! p = None).
  { intros p Hp. rewrite map_lookup_filter. destruct (files s !! p); [|done]. simpl.
    rewrite option_guard_False; [done|]. by rewrite Hp. }
  destruct (fails n); simpl.
  - apply H1.
    + intros p Hp. rewrite map_lookup_filter. destruct (files s !! p); [|done]. simpl.
      by rewrite Hp.
    + intros p. rewrite map_lookup_filter. destruct (files s !! p); [|by left]. simpl.
      case_guard; [by left|by right].
  - assert (Hself : Q (Err e) s).
    { specialize (H1 (files s) ltac:(done) ltac:(by left)). by destruct s. }
    destruct (files s !! dir) as [[b| |]|]; simpl; first [exact Hself|apply H2; [exact Hgone|exact Hall]].
Qed.
Lemma wp_read_dir e dir (Q : res E (list string) -> Store -> Prop) s :
  Q (Err e) s -> Q (Ok (entry_names dir (files s))) s -> wp (read_dir e dir) Q s.
Proof. intros. apply wp_operation; [done|]. by intros n. Qed.
Lemma wp_next_entry e (Q : res E unit -> Store -> Prop) s :
  Q (Err e) s -> Q (Ok tt) s -> wp (next_entry e) Q s.
Proof. intros. apply wp_operation; [done|]. by intros n. Qed.
Lemma wp_metadata_is_dir e p (Q : res E bool -> Store -> Prop) s :
  Q (Err e) s -> (exists_in (files s) p = true -> Q (Ok (is_dir_in (files s) p)) s) -> wp (metadata_is_dir e p) Q s.
Proof. intros H1 H2. apply wp_operation; [done|]. intros n. simpl. destruct (exists_in _ _); simpl; auto. Qed.
Lemma wp_try_exists e p (Q : res E bool -> Store -> Prop) s :
  Q (Err e) s -> Q (Ok (exists_in (files s) p)) s -> wp (try_exists e p) Q s.
Proof. intros. apply wp_operation; [done|]. by intros n. Qed.
Lemma wp_is_regular_file p (Q : res E bool -> Store -> Prop) s :
  Q (Ok false) s -> (forall b, files s !! p = Some (Regular b) -> Q (Ok true) s) ->
  wp (is_regular_file p) Q s.
Proof.
  intros H1 H2 n. unfold is_regular_file. destruct (fails n); [done|].
  destruct (files s !! p) as [[b| |]|]; simpl; eauto.
Qed.
Lemma wp_read_file e p (Q : res E (list bytes * bool) -> Store -> Prop) s :
  Q (Err e) s ->
  (forall b, files s !! p = Some (Regular b) ->
     Q (Ok ([b], true)) s /\ forall k, Q (Ok ([take k b], false)) s) ->
  wp (read_file e p) Q s.
Proof.
  intros H1 H2. apply wp_operation; [done|]. intros n.
  destruct (files s !! p) as [[b| |]|]; simpl; auto. destruct (H2 b eq_refl) as [HQ Hk].
  destruct (fails n); simpl; auto.
Qed.
End FileRules.

Section Loops.
Context {E A : Type}.

Lemma wp_and (m : M E A) (P Q : res E A -> Store -> Prop) s :
  wp m P s -> wp m Q s -> wp m (fun r s' => P r s' /\ Q r s') s.
Proof. intros HP HQ n. by split. Qed.
(** A loop keeps what each turn keeps, whether or not it stops early. *)
Lemma wp_for_each (I : Store -> Prop) (l : list A) (body : A -> M E unit) s :
  (forall a s', a ∈ l -> I s' -> wp (body a) (fun _ => I) s') -> I s ->
  wp (for_each l body) (fun _ => I) s.
Proof.
  revert s. induction l as [|a l IH]; intros s Hb Hs; simpl.
  - by apply wp_ret.
  - apply wp_bind. eapply wp_mono; [|apply Hb; [left|done]].
    intros [u|e] s' HI; simpl; [|done]. apply IH; [|done]. intros; apply Hb; [by right|done].
Qed.
End Loops.

(** Runs a handler symbolically: one rule per call, results by case. *)
Ltac wp_step :=
  lazymatch goal with
  | |- wp (bind _ _) _ _ => apply wp_bind
  | |- wp (ret _) _ _ => apply wp_ret
  | |- wp (throw _) _ _ => apply wp_throw
  | |- wp (lift _) _ _ => apply wp_lift
  | |- wp (attempt _) _ _ => apply wp_attempt
  | |- wp (map_err _ _) _ _ => apply wp_map_err
  | |- wp now _ _ => apply wp_now
  | |- wp new_uuid _ _ => apply wp_new_uuid
  | |- wp (query _ _) _ _ => apply wp_query
  | |- wp (fetch_one _ _) _ _ => apply wp_fetch_one
  | |- wp (execute _ _) _ _ => apply wp_execute
  | |- wp (transaction _ _ _) _ _ => apply wp_transaction
  | |- wp (create_dir_all _ _) _ _ => apply wp_create_dir_all
  | |- wp (sync _) _ _ => apply wp_sync
  | |- wp (create_new _ _) _ _ => apply wp_create_new
  | |- wp (write_all _ _ _) _ _ => apply wp_write_all
  | |- wp (hard_link _ _) _ _ => apply wp_hard_link
  | |- wp (remove_file _ _) _ _ => apply wp_remove_file
  | |- wp (remove_dir_all _ _) _ _ => apply wp_remove_dir_all
  | |- wp (read_dir _ _) _ _ => apply wp_read_dir
  | |- wp (next_entry _) _ _ => apply wp_next_entry
  | |- wp (metadata_is_dir _ _) _ _ => apply wp_metadata_is_dir
  | |- wp (try_exists _ _) _ _ => apply wp_try_exists
  | |- wp (is_regular_file _) _ _ => apply wp_is_regular_file
  | |- wp (read_file _ _) _ _ => apply wp_read_file
  | |- then_wp _ _ (Ok _) _ => unfold then_wp
  | |- then_wp _ _ (Err _) _ => unfold then_wp
  end.

(* ------------------------------------------------------------------ *)
(** ** Invariants: what every run of a handler keeps *)

Definition keeps {E A} (I : Store -> Prop) (m : M E A) : Prop :=
  forall s, I s -> wp m (fun _ => I) s.

(** An invariant that drawing an identifier cannot break. *)
Class DrawStable (I : Store -> Prop) : Prop :=
  draw_stable : forall s, I s -> I (mkStore (db s) (files s) (S (drawn s))).

Section Keeps.
Context `{Env} `{UuidLib} (I : Store -> Prop).
Context {E : Type}.

Lemma keeps_bind {A B} (m : M E A) (k : A -> M E B) :
  keeps I m -> (forall a, keeps I (k a)) -> keeps I (bind m k).
Proof.
  intros Hm Hk s Hs. apply wp_bind. eapply wp_mono; [|by apply Hm].
  intros [a|e] s' HI; simpl; [by apply Hk|done].
Qed.
Lemma keeps_ret {A} (a : A) : keeps I (@ret E A a).
Proof. intros s Hs. by apply wp_ret. Qed.
Lemma keeps_throw {A} (e : E) : keeps I (@throw E A e).
Proof. intros s Hs. by apply wp_throw. Qed.
Lemma keeps_lift {A} (c : res E A) : keeps I (lift c).
Proof. intros s Hs. by apply wp_lift. Qed.
Lemma keeps_attempt {F A} (m : M E A) : keeps I m -> keeps I (@attempt E F A m).
Proof. intros Hm s Hs. apply wp_attempt. by apply Hm. Qed.
Lemma keeps_map_err {F A} (f : E -> F) (m : M E A) : keeps I m -> keeps I (map_err f m).
Proof. intros Hm s Hs. apply wp_map_err. by apply Hm. Qed.
Lemma keeps_now : keeps I (@now _ E).
Proof. intros s Hs. by apply wp_now. Qed.
Lemma keeps_new_uuid `{!DrawStable I} : keeps I (@new_uuid _ E).
Proof. intros s Hs. apply wp_new_uuid. by apply draw_stable. Qed.
Lemma keeps_query {A} (err : SqlxError -> E) (f : Db -> A) : keeps I (query err f).
Proof. intros s Hs. by apply wp_query. Qed.
Lemma keeps_fetch_one {A} (err : SqlxError -> E) (f : Db -> option A) : keeps I (fetch_one err f).
Proof. intros s Hs. by apply wp_fetch_one. Qed.
Lemma keeps_create_dir_all e p : keeps I (@create_dir_all _ E e p).
Proof. intros s Hs. by apply wp_create_dir_all. Qed.
Lemma keeps_sync e : keeps I (@sync _ E e).
Proof. intros s Hs. by apply wp_sync. Qed.
Lemma keeps_read_dir e dir : keeps I (@read_dir _ E e dir).
Proof. intros s Hs. by apply wp_read_dir. Qed.
Lemma keeps_next_entry e : keeps I (@next_entry _ E e).
Proof. intros s Hs. by apply wp_next_entry. Qed.
Lemma keeps_metadata_is_dir e p : keeps I (@metadata_is_dir _ E e p).
Proof. intros s Hs. by apply wp_metadata_is_dir. Qed.
Lemma keeps_try_exists e p : keeps I (@try_exists _ E e p).
Proof. intros s Hs. by apply wp_try_exists. Qed.
Lemma keeps_is_regular_file p : keeps I (@is_regular_file _ E p).
Proof. intros s Hs. by apply wp_is_regular_file. Qed.
Lemma keeps_read_file e p : keeps I (@read_file _ E e p).
Proof. intros s Hs. apply wp_read_file; [done|]. by split. Qed.
(** A statement that keeps [I] where it succeeds. *)
Lemma keeps_execute {A} (err : SqlxError -> E) (f : Db -> option (Db * A)) :
  (forall s d a, I s -> f (db s) = Some (d, a) -> I (mkStore d (files s) (drawn s))) ->
  keeps I (execute err f).
Proof. intros Hf s Hs. apply wp_execute; [done|]. eauto. Qed.
Lemma keeps_for_each {A} (l : list A) (body : A -> M E unit) :
  (forall a, a ∈ l -> keeps I (body a)) -> keeps I (for_each l body).
Proof. intros Hb s Hs. apply wp_for_each; [|done]. intros a s' Ha. by apply Hb. Qed.
End Keeps.

Section Directories.
Context `{Env}.

Lemma strip_dir_Some dir p rest : strip_dir dir p = Some rest <-> p = dir ++ rest.
Proof.
  revert p. induction dir as [|d dir IH]; intros p; simpl; [split; [by intros [= ->]|by intros ->]|].
  destruct p as [|c p]; [done|]. case_bool_decide as E; [subst; rewrite IH|]; split; try congruence.
Qed.
Lemma elem_of_entry_names dir fs name :
  name ∈ entry_names dir fs <-> exists rest, is_Some (fs !! (dir ++ name :: rest)).
Proof.
  unfold entry_names. rewrite elem_of_remove_dups, list_elem_of_omap. split.
  - intros ([p e] & Hin & (rest & Es%strip_dir_Some & Eh)%bind_Some). apply elem_of_map_to_list in Hin. simpl in *.
    destruct rest as [|c rest]; [done|]. injection Eh as ->. exists rest. subst p. by exists e.
  - intros (rest & e & He). exists (dir ++ name :: rest, e). split; [by apply elem_of_map_to_list|].
    simpl. by rewrite (proj2 (strip_dir_Some dir _ (name :: rest)) eq_refl).
Qed.

(** A walk over the entries of a directory, whatever ends it early. *)
Lemma keeps_for_entries {E} (I : Store -> Prop) (err : E) dir (body : string -> M E unit) :
  (forall name, keeps I (body name)) -> keeps I (for_entries err dir body).
Proof.
  intros Hb. unfold for_entries. apply keeps_bind; [apply keeps_read_dir|]. intros names.
  apply keeps_bind; [|intros _; apply keeps_next_entry]. apply keeps_for_each. intros name _.
  apply keeps_bind; [apply keeps_next_entry|]. intros _. apply Hb.
Qed.
End Directories.

Section Footprints.
Context `{Env}.

(** What a piece of a handler may change: the files that satisfy [P]. *)
Definition touches (P : path -> Prop) (s s' : Store) : Prop :=
  db s' = db s /\ forall q, ~ P q -> files s' !! q = files s !! q.

Lemma touches_refl P s : touches P s s.
Proof. by split. Qed.
Lemma touches_trans P s1 s2 s3 : touches P s1 s2 -> touches P s2 s3 -> touches P s1 s3.
Proof. intros [D1 F1] [D2 F2]. split; [congruence|]. intros q Hq. by rewrite F2, F1. Qed.
Lemma touches_mono (P Q : path -> Prop) s s' : (forall p, P p -> Q p) -> touches P s s' -> touches Q s s'.
Proof. intros HPQ [D F]. split; [done|]. intros q Hq. apply F. auto. Qed.

#[export] Instance touches_draw P s : DrawStable (touches P s).
Proof. by intros s' [D F]. Qed.

Context {E : Type} (P : path -> Prop) (s : Store) (p : path) (e : E).
Hypothesis HP : P p.

Lemma touches_set (s' : Store) (f : Files) : touches P s s' ->
  (forall q, q <> p -> f !! q = files s' !! q) -> touches P s (mkStore (db s') f (drawn s')).
Proof.
  intros [D F] Hf. split; [done|]. intros q Hq. simpl. rewrite Hf; [by apply F|]. by intros ->.
Qed.
Lemma keeps_touches_create_new : keeps (touches P s) (create_new e p).
Proof.
  intros s' Hs. apply wp_create_new; [done|]. intros _. apply touches_set; [done|].
  intros. by rewrite lookup_insert_ne.
Qed.
Lemma keeps_touches_write_all data : keeps (touches P s) (write_all e p data).
Proof.
  intros s' Hs. apply wp_write_all; [done|]. intros b _. apply touches_set; [done|].
  intros. by rewrite lookup_insert_ne.
Qed.
Lemma keeps_touches_remove_file : keeps (touches P s) (remove_file e p).
Proof.
  intros s' Hs. apply wp_remove_file; [done|]. apply touches_set; [done|].
  intros. by rewrite lookup_delete_ne.
Qed.
Lemma keeps_touches_hard_link src : keeps (touches P s) (@hard_link _ E src p).
Proof.
  intros s' Hs. apply wp_hard_link; [done..|]. intros x _ _. apply touches_set; [done|].
  intros. by rewrite lookup_insert_ne.
Qed.
End Footprints.
Lemma keeps_touches_remove_dir_all `{Env} {E} (P : path -> Prop) s (e : E) dir :
  (forall p, below dir p = true -> P p) -> keeps (touches P s) (remove_dir_all e dir).
Proof.
  intros HP s' [D F]. assert (Hn : forall q, ~ P q -> below dir q = false).
  { intros q Hq. apply not_true_iff_false. auto. }
  apply wp_remove_dir_all; intros fs Hk _; (split; [done|]); intros q Hq; simpl; rewrite Hk; auto.
Qed.

(** An invariant of the metadata: files do not matter to it, and drawing
    identifiers cannot break it. *)
Class DbInvariant (I : Store -> Prop) : Prop :=
  db_invariant : forall s s', db s' = db s -> (drawn s <= drawn s')%nat -> I s -> I s'.
#[export] Instance db_invariant_draw I `{!DbInvariant I} : DrawStable I.
Proof. intros s Hs. eapply db_invariant; [| |exact Hs]; simpl; [done|lia]. Qed.

Section FileCalls.
Context `{Env} (I : Store -> Prop) `{!DbInvariant I} {E : Type} (e : E).
Lemma db_invariant_files s f : I s -> I (mkStore (db s) f (drawn s)).
Proof. by apply db_invariant. Qed.
Lemma keeps_db_create_new p : keeps I (create_new e p).
Proof. intros s Hs. apply wp_create_new; [done|]. intros _. by apply db_invariant_files. Qed.
Lemma keeps_db_write_all p data : keeps I (write_all e p data).
Proof. intros s Hs. apply wp_write_all; [done|]. intros b _. by apply db_invariant_files. Qed.
Lemma keeps_db_remove_file p : keeps I (remove_file e p).
Proof. intros s Hs. apply wp_remove_file; [done|]. by apply db_invariant_files. Qed.
Lemma keeps_db_hard_link src dst : keeps I (@hard_link _ E src dst).
Proof. intros s Hs. apply wp_hard_link; [done..|]. intros x _ _. by apply db_invariant_files. Qed.
Lemma keeps_db_remove_dir_all dir : keeps I (remove_dir_all e dir).
Proof. intros s Hs. apply wp_remove_dir_all; intros; by apply db_invariant_files. Qed.
End FileCalls.

(** The results of a handler, whatever it does to the store. *)
Definition yields {E A} (P : A -> Prop) (m : M E A) : Prop :=
  forall s, wp m (fun r _ => match r with Ok a => P a | Err _ => True end) s.

Section Yields.
Context {E A : Type} (P : A -> Prop).
Lemma yields_bind {B} (m : M E B) (k : B -> M E A) : (forall b, yields P (k b)) -> yields P (bind m k).
Proof.
  intros Hk s. apply wp_bind. intros n. destruct (m (s, n)) as [[b|e] [s' n']]; simpl; [apply Hk|done].
Qed.
Lemma yields_ret (a : A) : P a -> yields P (@ret E A a).
Proof. intros HP s. by apply wp_ret. Qed.
Lemma yields_throw (e : E) : yields P (throw e).
Proof. intros s. by apply wp_throw. Qed.
Lemma keeps_bind_yields {B} (I : Store -> Prop) (m : M E A) (k : A -> M E B) :
  keeps I m -> yields P m -> (forall a, P a -> keeps I (k a)) -> keeps I (bind m k).
Proof.
  intros Hm HP Hk s Hs. apply wp_bind. eapply wp_mono; [|apply wp_and; [by apply Hm|apply HP]].
  intros [a|e] s' [HI Ha]; simpl; [by apply Hk|done].
Qed.
End Yields.
Ltac yields_tac :=
  repeat lazymatch goal with
  | |- yields _ (bind _ _) => apply yields_bind; intros ?
  | |- yields _ (if ?b then _ else _) => destruct b
  | |- yields _ (match ?x with _ => _ end) => destruct x
  | |- yields _ (throw _) => apply yields_throw
  | |- yields _ (ret _) => apply yields_ret
  end.

Create HintDb keeps.
#[export] Hint Resolve keeps_ret keeps_throw keeps_lift keeps_now keeps_new_uuid keeps_query
  keeps_fetch_one keeps_create_dir_all keeps_sync keeps_is_regular_file keeps_read_file
  keeps_read_dir keeps_next_entry keeps_metadata_is_dir keeps_try_exists keeps_for_entries
  keeps_attempt keeps_map_err keeps_db_create_new keeps_db_write_all keeps_db_remove_file
  keeps_db_hard_link keeps_db_remove_dir_all : keeps.

(** The body of a transaction works on the metadata alone. *)
Definition db_only {E A} (m : M E A) : Prop :=
  forall f k, keeps (fun s => files s = f /\ (k <= drawn s)%nat) m.

Lemma draw_stable_le (I : Store -> Prop) `{!DrawStable I} s k :
  (drawn s <= k)%nat -> I s -> I (mkStore (db s) (files s) k).
Proof.
  intros Hle Hs. induction Hle as [|k Hle IH]; [by destruct s|].
  apply (draw_stable (mkStore (db s) (files s) k)), IH.
Qed.

#[export] Instance files_drawn_stable f k :
  DrawStable (fun s => files s = f /\ (k <= drawn s)%nat).
Proof. intros s [? ?]. simpl. split; [done|lia]. Qed.

Section Transactions.
Context `{Env} `{UuidLib} {E : Type}.

Lemma db_only_execute {A} (err : SqlxError -> E) (f : Db -> option (Db * A)) :
  db_only (execute err f).
Proof. intros fs k. apply keeps_execute. by intros s d a. Qed.

(** A transaction keeps [I] when its body reaches [I] where it commits. *)
Lemma keeps_transaction (I : Store -> Prop) `{!DrawStable I} {A}
    (b c : SqlxError -> E) (body : M E (TxEnd A)) :
  db_only body ->
  (forall s, I s -> wp body (fun r s' => match r with Ok (Commit _) => I s' | _ => True end) s) ->
  keeps I (transaction b c body).
Proof.
  intros Ho Hbody s Hs. apply wp_transaction; [done|].
  eapply wp_mono; [|apply wp_and; [apply (Ho (files s) (drawn s)); done|by apply Hbody]].
  intros r s' [[Ef Hd] HI].
  assert (Hab : I (mkStore (db s) (files s') (drawn s'))) by (rewrite Ef; by apply draw_stable_le).
  destruct r as [[a|a]|e]; simpl; auto.
Qed.
(** Identifiers are drawn, never given back. *)
Definition at_least (k : nat) (s : Store) : Prop := (k <= drawn s)%nat.
#[export] Instance at_least_db k : DbInvariant (at_least k).
Proof. intros s s' _ Hle Hs. unfold at_least in *. lia. Qed.
Lemma at_least_execute {A} (err : SqlxError -> E) (f : Db -> option (Db * A)) k : keeps (at_least k) (execute err f).
Proof. apply keeps_execute. by intros s d a. Qed.
(** A transaction whose body may change files as well. *)
Lemma keeps_db_transaction (I : Store -> Prop) `{!DbInvariant I} {A} (b c : SqlxError -> E) (body : M E (TxEnd A)) :
  (forall k, keeps (at_least k) body) -> keeps I body -> keeps I (transaction b c body).
Proof.
  intros Hd Hb s Hs. apply wp_transaction; [done|].
  eapply wp_mono; [|apply wp_and; [apply (Hd (drawn s)); unfold at_least; lia|by apply Hb]].
  intros r s' [Hle HI]. assert (Hab : I (mkStore (db s) (files s') (drawn s'))) by by apply (db_invariant s).
  destruct r as [[a|a]|e]; auto.
Qed.
End Transactions.
#[export] Hint Resolve db_only_execute at_least_execute : keeps.

(** Goes through a handler, leaving the calls that no hint settles. *)
Ltac keeps_step :=
  lazymatch goal with
  | |- keeps _ (bind _ _) => apply keeps_bind; [|intros ?]
  | |- keeps _ (if ?b then _ else _) => destruct b
  | |- keeps _ (match ?x with _ => _ end) => destruct x
  | |- keeps _ (attempt _) => apply keeps_attempt
  | |- keeps _ (map_err _ _) => apply keeps_map_err
  | |- keeps _ (execute _ _) => first [apply db_only_execute | apply at_least_execute]
  | |- keeps _ _ => solve [eauto with keeps typeclass_instances]
  end.
Ltac keeps_tac := repeat keeps_step.
Ltac db_only_tac := do 2 intro; keeps_tac.
