(* ===== verification/Storage.v ===== *)
(** Where the server keeps its files ([storage.rs]) and the configuration its
    handlers share ([AppState] of [service.rs]).  Paths are relative to the
    data directory, as lists of components. *)
From stdpp Require Import prelude strings gmap list.
From Stdlib Require Import ZArith Ascii Lia.
From S2P Require Import Prelude Errors Contract Externals Tables Store.

Definition STORAGE_DIRECTORIES : list string := ["blobs"; "uploads"; "maintenance"]%string.

Definition upload_dir (upload_id : string) : path := ["uploads"%string; upload_id].

Definition artifact_chunk_dir (upload_id : string) (artifact_index : Z) : path :=
  upload_dir upload_id ++ ["artifacts"%string; to_decimal artifact_index; "chunks"%string].

Definition artifact_chunk_path (upload_id : string) (artifact_index chunk_index : Z) : path :=
  artifact_chunk_dir upload_id artifact_index ++ [to_decimal chunk_index].

(** The partial names carry an identifier of their own. *)
Definition staged_chunk_path (upload_id : string) (artifact_index : Z) (uuid : string) : path :=
  artifact_chunk_dir upload_id artifact_index ++ [".chunk-" +:+ uuid +:+ ".partial"].

Definition assembled_artifact_path (upload_id : string) (artifact_index : Z) (uuid : string) : path :=
  upload_dir upload_id ++ [".assembled-" +:+ to_decimal artifact_index +:+ "-" +:+ uuid +:+ ".partial"].

(** [&stored_sha256[..2]] *)
Definition blob_path (stored_sha256 : string) : path :=
  ["blobs"%string; "sha256"%string; of_chars (take 2 (chars stored_sha256)); stored_sha256].

Section Files.
Context `{Env} `{UuidLib}.

Definition ensure_chunk_dir {E} (err : E) (upload_id : string) (artifact_index : Z) : M E unit :=
  create_dir_all err (artifact_chunk_dir upload_id artifact_index).

(** [remove_upload_dir]: a directory that is not there is removed. *)
Definition remove_upload_dir {E} (err : E) (upload_id : string) : M E unit :=
  remove_dir_all err (upload_dir upload_id).

(** [StorageLayout::create], after [create_dir_all] of the data directory. *)
Definition storage_create {E} (err : E) : M E unit :=
  create_dir_all err [] &;
  for_each STORAGE_DIRECTORIES (fun d => create_dir_all err [d]).

(** [directory_is_writable]: a probe file is written and removed again. *)
Definition directory_is_writable {E} (dir : path) : M E bool :=
  let! uuid := new_uuid in
  let probe := dir ++ [".patwari-ready-" +:+ uuid] in
  let! written := attempt (create_new tt probe) in
  match written with
  | Ok _ => let! removed := attempt (remove_file tt probe) in ret (is_ok removed)
  | Err _ => ret false
  end.

Fixpoint all_writable {E} (dirs : list path) : M E bool :=
  match dirs with
  | [] => ret true
  | dir :: dirs =>
      let! ok := directory_is_writable dir in
      if negb ok then ret false else all_writable dirs
  end.
(** [StorageLayout::is_usable] *)
Definition is_usable {E} : M E bool := all_writable (map (fun d => [d]) STORAGE_DIRECTORIES).
End Files.

(** The fields of [AppState] the handlers read; the locks are modelled apart. *)
Record AppState : Type := {
  archive_instance_id : string;
  owner_namespace : string;
  max_request_body_bytes : Z;
  chunk_size_bytes : Z;
  max_artifact_stored_bytes : Z;
  max_artifact_original_bytes : Z;
  max_artifact_count : Z;
  max_snapshot_stored_bytes : Z;
  max_snapshot_original_bytes : Z;
  upload_expiry : Z;               (* seconds *)
  admin_deletion_enabled : bool;
  blob_gc_grace : Z;               (* seconds *)
}.

(** [database.rs] *)
Definition expiration_time (now : OffsetDateTime) (seconds : Z) : OffsetDateTime :=
  mkTime (unix_nanos now + seconds * 1000000000) (utc_offset now).
Definition expiration_at `{TimeLib} (now : OffsetDateTime) (seconds : Z) : option string :=
  format_rfc3339 (expiration_time now seconds).

(* ------------------------------------------------------------------ *)
(** ** Paths do not collide *)

Lemma digit_char d : 0 <= d < 10 ->
  is_ascii_digit (ascii_of_N (Z.to_N (48 + d))) = true
  /\ digit_value (ascii_of_N (Z.to_N (48 + d))) = d.
Proof.
  intros Hd. unfold is_ascii_digit, digit_value, code.
  rewrite N_ascii_embedding by lia. split; [|lia].
  apply andb_true_iff. rewrite !N.leb_le. lia.
Qed.

Lemma decimal_digits_spec fuel n acc : 0 <= n < 10 ^ Z.of_nat fuel -> (0 < fuel)%nat ->
  exists ds, decimal_digits fuel n acc = ds ++ acc /\ ds <> []
    /\ Forall (fun c => is_ascii_digit c = true) ds /\ decimal_value ds = n.
Proof.
  revert n acc. induction fuel as [|fuel IH]; intros n acc Hn Hf; [lia|].
  cbn [decimal_digits]. pose proof (Z.mod_pos_bound n 10 ltac:(lia)) as Hm.
  destruct (digit_char (n mod 10) Hm) as [Hc Hv].
  set (c := ascii_of_N _) in *. destruct (Z.ltb_spec n 10) as [Hs|Hb].
  - exists [c]. split_and!; [done|done|by repeat constructor|].
    unfold decimal_value. simpl. rewrite Hv, Z.mod_small by lia. lia.
  - destruct (IH (n / 10) (c :: acc)) as (ds & -> & Hne & HF & Hval).
    + split; [apply Z.div_pos; lia|]. apply Z.div_lt_upper_bound; [lia|].
      rewrite <-Z.pow_succ_r by lia. rewrite <-Nat2Z.inj_succ. lia.
    + destruct fuel; [|lia]. simpl in Hn. lia.
    + exists (ds ++ [c]). split_and!.
      * by rewrite <-app_assoc.
      * by destruct ds.
      * apply Forall_app. split; [done|by repeat constructor].
      * unfold decimal_value in *. rewrite fold_left_app, Hval. simpl. rewrite Hv.
        pose proof (Z.div_mod n 10). lia.
Qed.

Lemma to_decimal_spec n : is_u64 n ->
  chars (to_decimal n) <> [] /\ Forall (fun c => is_ascii_digit c = true) (chars (to_decimal n))
  /\ decimal_value (chars (to_decimal n)) = n.
Proof.
  unfold is_u64, u64_max. intros Hn. unfold to_decimal. rewrite chars_of_chars.
  destruct (decimal_digits_spec 20 n []) as (ds & -> & ? & ? & ?); [lia|lia|].
  by rewrite app_nil_r.
Qed.

Lemma to_decimal_inj m n : is_u64 m -> is_u64 n -> to_decimal m = to_decimal n -> m = n.
Proof.
  intros Hm Hn E. apply to_decimal_spec in Hm as (_ & _ & <-), Hn as (_ & _ & <-). by rewrite E.
Qed.

Lemma chunk_path_inj u a i u' a' i' : is_u64 a -> is_u64 i -> is_u64 a' -> is_u64 i' ->
  artifact_chunk_path u a i = artifact_chunk_path u' a' i' -> u = u' /\ a = a' /\ i = i'.
Proof.
  intros ? ? ? ? E. unfold artifact_chunk_path, artifact_chunk_dir, upload_dir in E.
  simpl in E. injection E as -> E1 E2. auto using to_decimal_inj.
Qed.

Lemma chunk_path_staged u a i u' a' uuid : is_u64 i ->
  artifact_chunk_path u a i <> staged_chunk_path u' a' uuid.
Proof.
  intros Hi E. apply to_decimal_spec in Hi as (Hne & HF & _).
  unfold artifact_chunk_path, staged_chunk_path, artifact_chunk_dir, upload_dir in E.
  simpl in E. injection E as _ _ E. rewrite E in HF. simpl in HF.
  apply Forall_inv in HF. discriminate HF.
Qed.

Lemma upload_paths_below u :
  (forall a i, below (upload_dir u) (artifact_chunk_path u a i) = true)
  /\ (forall a uuid, below (upload_dir u) (staged_chunk_path u a uuid) = true)
  /\ (forall a uuid, below (upload_dir u) (assembled_artifact_path u a uuid) = true).
Proof.
  split_and!; intros; apply bool_decide_eq_true; eexists; simpl; reflexivity.
Qed.

Lemma below_upload_dir u p : below (upload_dir u) p = true ->
  exists rest, p = "uploads"%string :: u :: rest.
Proof. intros [rest ->]%bool_decide_eq_true. by exists rest. Qed.

Lemma blob_not_below u d : below (upload_dir u) (blob_path d) = false.
Proof.
  apply not_true_iff_false. intros (rest & E)%below_upload_dir. discriminate E.
Qed.
Lemma chunk_not_below u u' a i : u <> u' -> below (upload_dir u) (artifact_chunk_path u' a i) = false.
Proof.
  intros Hne. apply not_true_iff_false. intros (rest & E)%below_upload_dir. by injection E as -> _.
Qed.
