(* ===== verification/Uploads.v ===== *)
(** Resumable uploads ([ingestion.rs]): registering a client, opening an
    upload, accepting chunks, reporting and ending an upload.

    Every handler below runs while it holds its upload's lock, so the model
    runs each as one function of the store; the environment of [Store] decides
    which of its operations fail and where it is cut short. *)
From stdpp Require Import prelude strings gmap sorting list.
From Stdlib Require Import ZArith Ascii Lia.
From Stdlib.Strings Require Import Byte.
From S2P Require Import Prelude Errors Contract Externals Validation Chunks Fingerprint.
From S2P Require Import Tables Store Storage.

Definition CHUNK_SHA256_HEADER : string := "x-patwari-chunk-sha256".
Definition CHUNK_LENGTH_HEADER : string := "x-patwari-chunk-length".

Inductive MaintenanceError : Type := Clock | Operation.

(** The statuses a row of [uploads] can have. *)
Definition STATUS_CREATED : string := "created".
Definition STATUS_ARTIFACT_UPLOADED : string := "artifact_uploaded".
Definition STATUS_COMPLETED : string := "completed".
(** [status IN ('created', 'artifact_uploaded')] *)
Definition status_open (s : string) : bool := eqs s STATUS_CREATED || eqs s STATUS_ARTIFACT_UPLOADED.

Record ChunkRequest : Type := mkChunkRequest { byte_length : Z; sha256_text : string }.

(** One frame of a request body, as [Body::frame] delivers it. *)
Inductive Frame : Type :=
| FData (data : bytes)
| FTrailers
| FError.

Inductive TerminalReason : Type := ReasonAbandoned | ReasonExpired.
Definition reason_str (r : TerminalReason) : string :=
  match r with ReasonAbandoned => "abandoned" | ReasonExpired => "expired" end.
Definition reason_error_code (r : TerminalReason) : string :=
  match r with ReasonAbandoned => "upload_abandoned" | ReasonExpired => "upload_expired" end.

(** [MIN] and [MAX] of a column. *)
Definition column_min (l : list Z) : option Z :=
  match l with [] => None | x :: l => Some (fold_left Z.min l x) end.
Definition column_max (l : list Z) : option Z :=
  match l with [] => None | x :: l => Some (fold_left Z.max l x) end.

Definition db_err (e : SqlxError) : ApiError := Api.database.

(* ------------------------------------------------------------------ *)
(** ** Rows of one upload *)

Definition of_upload (u : string) (r : Upload.row) : bool := eqs (Upload.id r) u.
Definition artifact_of (u : string) (r : UploadArtifact.row) : bool := eqs (UploadArtifact.upload_id r) u.
Definition chunk_of (u : string) (a : Z) (r : Chunk.row) : bool :=
  eqs (Chunk.upload_id r) u && (Chunk.artifact_index r =? a).
Definition chunk_at (u : string) (a i : Z) (r : Chunk.row) : bool :=
  chunk_of u a r && (Chunk.chunk_index r =? i).

Definition index_le (a b : UploadArtifact.row) : Prop :=
  UploadArtifact.artifact_index a <= UploadArtifact.artifact_index b.
#[global] Instance index_le_dec : RelDecision index_le := fun a b => decide (_ <= _).
Definition chunk_le (a b : Chunk.row) : Prop := Chunk.chunk_index a <= Chunk.chunk_index b.
#[global] Instance chunk_le_dec : RelDecision chunk_le := fun a b => decide (_ <= _).
(** [ORDER BY terminal_at DESC]: the text order of the column. *)
Definition terminal_ge (a b : Audit.row) : Prop := String.le (Audit.terminal_at b) (Audit.terminal_at a).
#[global] Instance terminal_ge_dec : RelDecision terminal_ge := fun a b => decide (String.le _ _).

Definition rows_of_upload_artifacts (u : string) (d : Db) : list UploadArtifact.row :=
  merge_sort index_le (select (artifact_of u) (upload_artifacts d)).
Definition rows_of_chunks (u : string) (a : Z) (d : Db) : list Chunk.row :=
  merge_sort chunk_le (select (chunk_of u a) (upload_chunks d)).

Section Handlers.
Context `{Env} `{UuidLib} `{TimeLib} `{MimeLib} `{ShaLib} `{JsonLib}.

(** The environment's clock as the server formats it. *)
Definition now_rfc3339 : M ApiError string :=
  let! t := now in lift (ok_or (format_rfc3339 t) Api.internal).

Definition get_active_upload (upload_id : string) : M ApiError (option Upload.row) :=
  query db_err (fun d => select_one (of_upload upload_id) (uploads d)).
Definition get_upload_artifacts (upload_id : string) : M ApiError (list UploadArtifact.row) :=
  query db_err (rows_of_upload_artifacts upload_id).
Definition get_upload_artifact (upload_id : string) (artifact_index : Z)
  : M ApiError (option UploadArtifact.row) :=
  query db_err (fun d =>
    select_one (fun r => artifact_of upload_id r && (UploadArtifact.artifact_index r =? artifact_index))
      (upload_artifacts d)).
Definition get_chunk (upload_id : string) (artifact_index chunk_index : Z)
  : M ApiError (option Chunk.row) :=
  let! index := lift (to_sqlite_i64 chunk_index) in
  query db_err (fun d => select_one (chunk_at upload_id artifact_index index) (upload_chunks d)).

(* ------------------------------------------------------------------ *)
(** ** Clients and sessions *)

Definition register_client (st : AppState) (client_id : string)
    (payload : option RegisterClientRequest) : M ApiError ClientResponse :=
  let! client_id := lift (parse_uuid client_id "client identifier is not a UUID") in
  let! request := lift (ok_or payload
    (Api.invalid "request body must be valid JSON with application/json content type")) in
  let! _ := lift (validate_client_request request) in
  let! metadata_json := lift (ok_or (metadata_to_json (rc_metadata request)) Api.internal) in
  let! now := now_rfc3339 in
  let row := Client.mk client_id (owner_namespace st) (rc_hostname request)
               (rc_display_name request) metadata_json now now in
  let! _ := execute db_err (fun d =>
    t ← insert_or_update (fun r => eqs (Client.id r) client_id) (fun _ => false)
      (fun r => Client.mk (Client.id r) (Client.owner_namespace r) (rc_hostname request)
                  (rc_display_name request) metadata_json (Client.created_at r) now)
      row (clients d);
    Some (with_clients (fun _ => t) d, tt)) in
  let! row := fetch_one db_err (fun d => select_one (fun r => eqs (Client.id r) client_id) (clients d)) in
  let! metadata := lift (ok_or (metadata_of_json (Client.metadata_json row)) Api.internal) in
  ret {| cr_client_id := Client.id row; cr_hostname := Client.hostname row;
         cr_display_name := Client.display_name row; cr_metadata := metadata;
         cr_created_at := Client.created_at row; cr_updated_at := Client.updated_at row |}.

Definition session_key (st : AppState) (m : Manifest) (r : Session.row) : bool :=
  eqs (Session.owner_namespace r) (owner_namespace st)
  && eqs (Session.source_agent r) (source_agent (session m))
  && eqs (Session.source_session_id r) (source_session_id (session m)).

Definition get_or_create_session (st : AppState) (client_id : string) (m : Manifest) (now : string)
  : M ApiError string :=
  let! client_exists := query db_err (fun d =>
    select_one (fun r => eqs (Client.id r) client_id
                         && eqs (Client.owner_namespace r) (owner_namespace st)) (clients d)) in
  refuse bool_decide (client_exists = None)
    with Api.not_found "client_not_found" "client must be registered first";
  let! uuid := new_uuid in
  let row := Session.mk uuid (owner_namespace st) (source_agent (session m))
               (source_session_id (session m)) now now in
  let! _ := execute db_err (fun d =>
    t ← insert_or_update (session_key st m) (fun r => eqs (Session.id r) uuid)
      (fun r => Session.mk (Session.id r) (Session.owner_namespace r) (Session.source_agent r)
                  (Session.source_session_id r) (Session.created_at r) now)
      row (sessions d);
    Some (with_sessions (fun _ => t) d, tt)) in
  let! row := fetch_one db_err (fun d => select_one (session_key st m) (sessions d)) in
  ret (Session.id row).

(* ------------------------------------------------------------------ *)
(** ** Ending an upload *)

Definition is_expired (upload : Upload.row) (now : OffsetDateTime) : res ApiError bool :=
  let? expires_at := ok_or (parse_rfc3339 (Upload.expires_at upload)) Api.database in
  Ok (unix_nanos expires_at <=? unix_nanos now).

Definition audit_row (upload : Upload.row) (terminal_at : string) (reason : TerminalReason) : Audit.row :=
  Audit.mk (Upload.id upload) (Upload.owner_namespace upload) (Upload.client_id upload)
    (Upload.capture_id upload) (Upload.session_id upload)
    (Upload.declared_original_size_bytes upload) (Upload.declared_stored_size_bytes upload)
    (Upload.chunk_size_bytes upload) (Upload.chunk_count upload) (Upload.created_at upload)
    terminal_at (reason_str reason) (reason_error_code reason) (Upload.artifact_count upload)
    (Upload.total_original_size_bytes upload) (Upload.total_stored_size_bytes upload)
    (Some (Upload.manifest_sha256 upload)).

(** [DELETE FROM manifests WHERE upload_id = ?1]: a manifest a snapshot or a
    capture refers to cannot be deleted. *)
Definition delete_manifests (u : string) (d : Db) : option (Db * unit) :=
  let doomed := select (fun r => eqs (ManifestRow.upload_id r) u) (manifests d) in
  if existsb (fun m => existsb (fun s => eqs (Snapshot.manifest_id s) (ManifestRow.id m)) (snapshots d)
                       || existsb (fun c => eqs (CaptureRow.manifest_id c) (ManifestRow.id m)) (captures d))
       doomed
  then None
  else Some (with_manifests (delete_where (fun r => eqs (ManifestRow.upload_id r) u)) d, tt).

(** [DELETE FROM uploads WHERE id = ?1]: refused while a capture or a manifest
    refers to it; its artifact and chunk rows go with it. *)
Definition delete_upload (u : string) (d : Db) : option (Db * unit) :=
  if existsb (of_upload u) (uploads d)
     && (existsb (fun c => eqs (CaptureRow.upload_id c) u) (captures d)
         || existsb (fun m => eqs (ManifestRow.upload_id m) u) (manifests d))
  then None
  else Some (with_uploads (delete_where (of_upload u))
               (with_upload_artifacts (delete_where (artifact_of u))
                  (with_upload_chunks (delete_where (fun r => eqs (Chunk.upload_id r) u)) d)), tt).

(** The transaction of [terminalize_upload_locked]; [false] when there was no
    such upload and it committed at once. *)
Definition terminalize_transaction (upload : Upload.row) (terminal_at : string)
    (reason : TerminalReason) : M ApiError (TxEnd bool) :=
  let u := Upload.id upload in
  let! current := query db_err (fun d => select_one (of_upload u) (uploads d)) in
  match current with
  | None => ret (Commit false)
  | Some row =>
      refuse eqs (Upload.status row) STATUS_COMPLETED
        with Api.conflict "upload_completed" "completed uploads cannot be abandoned";
      let! _ := execute db_err (fun d =>
        ra ← insert_or_ignore (fun r => eqs (Audit.upload_id r) u) (fun _ => false)
               (audit_row upload terminal_at reason) (upload_audits d);
        Some (with_upload_audits (fun _ => ra.1) d, ra.2)) in
      let! _ := execute db_err (fun d =>
        Some (with_upload_chunks (delete_where (fun r => eqs (Chunk.upload_id r) u)) d, tt)) in
      let! _ := execute db_err (delete_manifests u) in
      let! _ := execute db_err (delete_upload u) in
      ret (Commit true)
  end.

Definition terminalize_upload_locked (upload : Upload.row) (reason : TerminalReason)
  : M ApiError unit :=
  let! terminal_at := now_rfc3339 in
  let! removed := transaction db_err db_err (terminalize_transaction upload terminal_at reason) in
  if (removed : bool) then remove_upload_dir Api.storage (Upload.id upload) else ret tt.

(** The body of the loop of [expire_uploads_at]: 1 when the upload expired. *)
Definition expire_candidate (now : OffsetDateTime) (upload_id : string) : M MaintenanceError Z :=
  let! upload := map_err (fun _ => Operation) (get_active_upload upload_id) in
  match upload with
  | None => ret 0
  | Some upload =>
      if eqs (Upload.status upload) STATUS_COMPLETED then ret 0
      else
        let! expired := map_err (fun _ => Operation) (lift (is_expired upload now)) in
        if (expired : bool) then
          map_err (fun _ => Operation) (terminalize_upload_locked upload ReasonExpired) &; ret 1
        else ret 0
  end.
Fixpoint expire_candidates (now : OffsetDateTime) (ids : list string) (expired : Z)
  : M MaintenanceError Z :=
  match ids with
  | [] => ret expired
  | id :: ids => let! one := expire_candidate now id in expire_candidates now ids (expired + one)
  end.

(** [WHERE status IN (...) AND expires_at <= ?1]: a comparison of texts. *)
Definition expiry_candidate (now_text : string) (r : Upload.row) : bool :=
  status_open (Upload.status r) && String.leb (Upload.expires_at r) now_text.
Definition expire_uploads_at (now : OffsetDateTime) : M MaintenanceError Z :=
  let! now_text := lift (ok_or (format_rfc3339 now) Clock) in
  let! candidates := query (fun _ => Operation) (fun d =>
    map Upload.id (select (expiry_candidate now_text) (uploads d))) in
  expire_candidates now candidates 0.

Definition require_active_upload (upload_id : string) : M ApiError Upload.row :=
  let! upload := get_active_upload upload_id in
  let! upload := lift (ok_or upload (Api.not_found "upload_not_found" "upload was not found")) in
  if eqs (Upload.status upload) STATUS_COMPLETED then ret upload
  else
    let! t := now in
    let! expired := lift (is_expired upload t) in
    if (expired : bool) then
      terminalize_upload_locked upload ReasonExpired &;
      throw (Api.conflict "upload_expired" "upload expired before this request could be accepted")
    else ret upload.

(* ------------------------------------------------------------------ *)
(** ** Opening an upload *)

Definition insert_upload_artifact (upload_id : string) (artifact_index : Z) (a : Artifact)
    (chunk_count : Z) : M ApiError unit :=
  let! original := lift (to_sqlite_i64 (original_size_bytes a)) in
  let! stored := lift (to_sqlite_i64 (stored_size_bytes a)) in
  let! count := lift (to_sqlite_i64 chunk_count) in
  let row := UploadArtifact.mk upload_id artifact_index (logical_path a) (media_type a) original
               (digest_storage_value (original_sha256 a)) stored
               (digest_storage_value (stored_sha256 a)) (as_str (compression a)) count in
  execute db_err (fun d =>
    t ← insert_row (fun r => artifact_of upload_id r
                             && ((UploadArtifact.artifact_index r =? artifact_index)
                                 || eqs (UploadArtifact.logical_path r) (logical_path a)))
          row (upload_artifacts d);
    Some (with_upload_artifacts (fun _ => t) d, tt)).

Fixpoint insert_upload_artifacts (upload_id : string) (index : Z) (arts : list (Artifact * Z))
  : M ApiError unit :=
  match arts with
  | [] => ret tt
  | (a, chunk_count) :: arts =>
      let! index32 := lift (ok_or (to_u32 index) Api.internal) in
      insert_upload_artifact upload_id index32 a chunk_count &;
      insert_upload_artifacts upload_id (index + 1) arts
  end.

Definition persist_new_upload_detail (upload_id : string) (m : Manifest)
    (canonical_json manifest_sha256 : string) (layout : UploadLayout) (now : string)
  : M ApiError unit :=
  let! uuid := new_uuid in
  let row := ManifestRow.mk uuid upload_id canonical_json manifest_sha256 now in
  let! _ := execute db_err (fun d =>
    t ← insert_row (fun r => eqs (ManifestRow.id r) uuid || eqs (ManifestRow.upload_id r) upload_id)
          row (manifests d);
    Some (with_manifests (fun _ => t) d, tt)) in
  insert_upload_artifacts upload_id 0 (zip (artifacts m) (chunk_counts layout)).

Definition ensure_terminal_capture_reuse_is_equivalent (owner client_id capture_id : string)
    (m : Manifest) (manifest_sha256 : string) : M ApiError unit :=
  let! prior := query db_err (fun d =>
    Audit.manifest_sha256 <$>
      head (merge_sort terminal_ge
        (select (fun r => eqs (Audit.owner_namespace r) owner && eqs (Audit.client_id r) client_id
                          && eqs (Audit.capture_id r) capture_id) (upload_audits d)))) in
  match prior with
  | None => ret tt
  | Some (Some previous) =>
      if eqs previous manifest_sha256
         || existsb (fun d => eqs d.2 previous) (legacy_manifest_digests m)
      then ret tt
      else throw (Api.conflict "capture_id_conflict"
                    "capture identifier was already used for a different manifest")
  | Some None =>
      throw (Api.conflict "capture_id_conflict"
               "capture identifier was used by a historical terminal upload with unknown manifest")
  end.

Definition legacy_manifest_equivalent (upload_id expected_canonical_sha256 : string)
  : M ApiError bool :=
  let! row := query db_err (fun d =>
    ManifestRow.canonical_json <$>
      select_one (fun r => eqs (ManifestRow.upload_id r) upload_id) (manifests d)) in
  match row with
  | None => ret false
  | Some json =>
      let! m := lift (ok_or (manifest_of_json json) Api.database) in
      let! canonical := lift (ok_or (manifest_to_json m) Api.internal) in
      ret (eqs (sha256_hex (string_bytes canonical)) expected_canonical_sha256)
  end.

(** [UNIQUE (owner_namespace, client_id, capture_id)] *)
Definition capture_key (owner client_id capture_id : string) (r : Upload.row) : bool :=
  eqs (Upload.owner_namespace r) owner && eqs (Upload.client_id r) client_id
  && eqs (Upload.capture_id r) capture_id.

Record CreatedUpload : Type := { created_upload_id : string; was_created : bool }.

Definition persist_transaction (st : AppState) (client_id capture_id : string) (m : Manifest)
    (canonical_json manifest_sha256 : string) (layout : UploadLayout) (now expires_at : string)
  : M ApiError (TxEnd CreatedUpload) :=
  let owner := owner_namespace st in
  let! session_id := get_or_create_session st client_id m now in
  ensure_terminal_capture_reuse_is_equivalent owner client_id capture_id m manifest_sha256 &;
  let! upload_id := new_uuid in
  let initial_status := if forallb (fun count => count =? 0) (chunk_counts layout)
                        then STATUS_ARTIFACT_UPLOADED else STATUS_CREATED in
  let! first := lift (ok_or (head (artifacts m)) Api.internal) in
  let! first_chunk_count := lift (ok_or (head (chunk_counts layout)) Api.internal) in
  let! chunk_size := lift (to_sqlite_i64 (chunk_size_bytes st)) in
  let! first_count := lift (to_sqlite_i64 first_chunk_count) in
  let! first_stored := lift (to_sqlite_i64 (stored_size_bytes first)) in
  let! first_original := lift (to_sqlite_i64 (original_size_bytes first)) in
  let! artifact_count := lift (to_sqlite_i64 (Z.of_nat (length (artifacts m)))) in
  let! total_stored := lift (to_sqlite_i64 (total_stored_bytes layout)) in
  let! total_original := lift (to_sqlite_i64 (total_original_bytes layout)) in
  let row := Upload.mk upload_id owner session_id client_id capture_id capture_id manifest_sha256
               initial_status None now None chunk_size first_count first_stored first_original
               expires_at artifact_count total_stored total_original 0 0 in
  let! affected := execute db_err (fun d =>
    ra ← insert_or_ignore (capture_key owner client_id capture_id)
           (fun r => of_upload upload_id r
                     || (eqs (Upload.owner_namespace r) owner && eqs (Upload.client_id r) client_id
                         && eqs (Upload.idempotency_key r) capture_id))
           row (uploads d);
    Some (with_uploads (fun _ => ra.1) d, ra.2)) in
  if affected =? 1 then
    persist_new_upload_detail upload_id m canonical_json manifest_sha256 layout now &;
    ret (Commit {| created_upload_id := upload_id; was_created := true |})
  else
    let! existing := fetch_one db_err (fun d =>
      select_one (capture_key owner client_id capture_id) (uploads d)) in
    let! same :=
      if eqs (Upload.manifest_sha256 existing) manifest_sha256 then ret true
      else legacy_manifest_equivalent (Upload.id existing) manifest_sha256 in
    refuse negb same with Api.conflict "capture_id_conflict"
                            "capture identifier was already used for a different manifest";
    ret (Commit {| created_upload_id := Upload.id existing; was_created := false |}).

Definition persist_upload (st : AppState) (client_id capture_id : string) (m : Manifest)
    (canonical_json manifest_sha256 : string) (layout : UploadLayout) (now expires_at : string)
  : M ApiError CreatedUpload :=
  transaction db_err db_err
    (persist_transaction st client_id capture_id m canonical_json manifest_sha256 layout now expires_at).

(* ------------------------------------------------------------------ *)
(** ** Reporting an upload *)

Definition upload_status (status : string) : res ApiError UploadStatus :=
  if eqs status "created" then Ok Created
  else if eqs status "artifact_uploaded" then Ok ArtifactUploaded
  else if eqs status "completed" then Ok Completed
  else Err Api.internal.

Definition upload_url (upload_id : string) : string := "/api/v1/uploads/" +:+ upload_id.

Definition upload_artifact_status (upload_id : string) (a : UploadArtifact.row)
  : M ApiError UploadArtifactStatus :=
  let! artifact_index := lift (ok_or (to_u32 (UploadArtifact.artifact_index a)) Api.internal) in
  let! chunk_count := lift (ok_or (i64_to_u64 (UploadArtifact.chunk_count a)) Api.internal) in
  let! rows := query db_err (rows_of_chunks upload_id (UploadArtifact.artifact_index a)) in
  let! bitmap := lift (fill_bitmap chunk_count (map Chunk.chunk_index rows) (empty_bitmap chunk_count)) in
  let! original := lift (ok_or (i64_to_u64 (UploadArtifact.original_size_bytes a)) Api.internal) in
  let! stored := lift (ok_or (i64_to_u64 (UploadArtifact.stored_size_bytes a)) Api.internal) in
  let! compression := lift (ok_or (parse (UploadArtifact.compression a)) Api.internal) in
  ret {| uas_artifact_index := artifact_index;
         uas_logical_path := UploadArtifact.logical_path a;
         uas_media_type := UploadArtifact.media_type a;
         uas_original_size_bytes := original;
         uas_original_sha256 := digest_document_value (UploadArtifact.original_sha256 a);
         uas_stored_size_bytes := stored;
         uas_stored_sha256 := digest_document_value (UploadArtifact.stored_sha256 a);
         uas_compression := compression;
         uas_chunk_count := chunk_count;
         uas_chunk_upload_url := upload_url upload_id +:+ "/artifacts/" +:+ to_decimal artifact_index
                                 +:+ "/chunks/{chunk_index}";
         uas_accepted_chunk_bitmap := hex_digest bitmap;
         uas_missing_chunk_indexes := missing_chunk_indexes chunk_count bitmap |}.

Fixpoint statuses_of (upload_id : string) (rows : list UploadArtifact.row)
  : M ApiError (list UploadArtifactStatus) :=
  match rows with
  | [] => ret []
  | a :: rows =>
      let! status := upload_artifact_status upload_id a in
      let! statuses := statuses_of upload_id rows in
      ret (status :: statuses)
  end.
Definition upload_artifact_statuses (upload : Upload.row) : M ApiError (list UploadArtifactStatus) :=
  let! rows := get_upload_artifacts (Upload.id upload) in
  statuses_of (Upload.id upload) rows.

Definition active_upload_response (upload_id : string) : M ApiError UploadResponse :=
  let! upload := get_active_upload upload_id in
  let! upload := lift (ok_or upload (Api.not_found "upload_not_found" "upload was not found")) in
  let! artifacts := upload_artifact_statuses upload in
  let! status := lift (upload_status (Upload.status upload)) in
  let! chunk_size := lift (ok_or (i64_to_u64 (Upload.chunk_size_bytes upload)) Api.internal) in
  ret {| ur_upload_id := Upload.id upload;
         ur_capture_id := Upload.capture_id upload;
         ur_session_id := Upload.session_id upload;
         ur_status := status;
         ur_manifest_sha256 := digest_document_value (Upload.manifest_sha256 upload);
         ur_chunk_size_bytes := chunk_size;
         ur_artifacts := artifacts;
         ur_artifact_upload_url := upload_url upload_id +:+ "/artifacts/0/chunks/0";
         ur_status_url := upload_url upload_id;
         ur_abandon_url := upload_url upload_id +:+ "/abandon";
         ur_completion_url := upload_url upload_id +:+ "/complete";
         ur_capture_url := upload_url upload_id +:+ "/capture" |}.

Definition active_upload_status_response (upload : Upload.row) : M ApiError UploadStatusResponse :=
  let! artifacts := upload_artifact_statuses upload in
  let! status := lift (upload_status (Upload.status upload)) in
  let! chunk_size := lift (ok_or (i64_to_u64 (Upload.chunk_size_bytes upload)) Api.internal) in
  ret {| us_upload_id := Upload.id upload;
         us_capture_id := Upload.capture_id upload;
         us_session_id := Upload.session_id upload;
         us_status := status;
         us_manifest_sha256 := Some (digest_document_value (Upload.manifest_sha256 upload));
         us_chunk_size_bytes := chunk_size;
         us_artifacts := artifacts;
         us_status_url := upload_url (Upload.id upload);
         us_abandon_url := upload_url (Upload.id upload) +:+ "/abandon";
         us_completion_url := upload_url (Upload.id upload) +:+ "/complete";
         us_capture_url := upload_url (Upload.id upload) +:+ "/capture" |}.

Definition audit_upload_response (upload_id : string) : M ApiError UploadStatusResponse :=
  let! audit := query db_err (fun d =>
    select_one (fun r => eqs (Audit.upload_id r) upload_id) (upload_audits d)) in
  let! audit := lift (ok_or audit (Api.not_found "upload_not_found" "upload was not found")) in
  let! status := lift (if eqs (Audit.terminal_reason audit) "abandoned" then Ok Abandoned
                       else if eqs (Audit.terminal_reason audit) "expired" then Ok Expired
                       else Err Api.internal) in
  let! chunk_size := lift (ok_or (i64_to_u64 (Audit.chunk_size_bytes audit)) Api.internal) in
  ret {| us_upload_id := Audit.upload_id audit;
         us_capture_id := Audit.capture_id audit;
         us_session_id := Audit.session_id audit;
         us_status := status;
         us_manifest_sha256 := None;
         us_chunk_size_bytes := chunk_size;
         us_artifacts := [];
         us_status_url := upload_url upload_id;
         us_abandon_url := upload_url upload_id +:+ "/abandon";
         us_completion_url := upload_url upload_id +:+ "/complete";
         us_capture_url := upload_url upload_id +:+ "/capture" |}.

Definition manifest_limits (st : AppState) : ManifestLimits :=
  {| artifact_count := max_artifact_count st;
     artifact_stored_bytes := max_artifact_stored_bytes st;
     artifact_original_bytes := max_artifact_original_bytes st;
     snapshot_stored_bytes := max_snapshot_stored_bytes st;
     snapshot_original_bytes := max_snapshot_original_bytes st |}.

Definition create_upload (st : AppState) (payload : option CreateUploadRequest)
  : M ApiError (bool * UploadResponse) :=
  let! request := lift (ok_or payload
    (Api.invalid "request body must be valid JSON with application/json content type")) in
  let! client_id := lift (parse_uuid (cu_client_id request) "client identifier is not a UUID") in
  let! capture := lift (capture_id request) in
  let! m := lift (normalize_manifest (cu_manifest request) (manifest_limits st)) in
  let! layout := lift (upload_layout m (chunk_size_bytes st)) in
  let! canonical_json := lift (ok_or (manifest_to_json m) Api.internal) in
  let manifest_sha256 := sha256_hex (string_bytes canonical_json) in
  let! t := now in
  let! now_text := lift (ok_or (format_rfc3339 t) Api.internal) in
  let! expires_at := lift (ok_or (expiration_at t (upload_expiry st)) Api.internal) in
  map_err (fun _ => Api.internal) (expire_uploads_at t) &;
  let! created := persist_upload st client_id capture m canonical_json manifest_sha256 layout
                    now_text expires_at in
  let! response := active_upload_response (created_upload_id created) in
  ret (was_created created, response).

Definition get_upload_status (upload_id : string) : M ApiError UploadStatusResponse :=
  let! upload_id := lift (parse_uuid upload_id "upload identifier is not a UUID") in
  let! upload := get_active_upload upload_id in
  match upload with
  | Some upload =>
      let! expired :=
        if eqs (Upload.status upload) STATUS_COMPLETED then ret false
        else let! t := now in lift (is_expired upload t) in
      if (expired : bool) then
        terminalize_upload_locked upload ReasonExpired &;
        audit_upload_response upload_id
      else active_upload_status_response upload
  | None => audit_upload_response upload_id
  end.

Definition abandon_upload (upload_id : string) : M ApiError UploadStatusResponse :=
  let! upload_id := lift (parse_uuid upload_id "upload identifier is not a UUID") in
  let! upload := get_active_upload upload_id in
  let! _ :=
    match upload with
    | None => ret tt
    | Some upload =>
        refuse eqs (Upload.status upload) STATUS_COMPLETED
          with Api.conflict "upload_completed" "completed uploads cannot be abandoned";
        let! t := now in
        let! expired := lift (is_expired upload t) in
        terminalize_upload_locked upload
          (if (expired : bool) then ReasonExpired else ReasonAbandoned)
    end in
  audit_upload_response upload_id.

(* ------------------------------------------------------------------ *)
(** ** Accepting a chunk *)

Definition optional_header (headers : HeaderMap) (name : string) : res ApiError (option string) :=
  match header_get headers name with
  | None => Ok None
  | Some (HText s) => Ok (Some s)
  | Some HOpaque => Err (Api.invalid "chunk headers must be valid text")
  end.

Definition parse_chunk_headers (headers : HeaderMap) : res ApiError (option ChunkRequest) :=
  let? sha := optional_header headers CHUNK_SHA256_HEADER in
  let? length := optional_header headers CHUNK_LENGTH_HEADER in
  match sha, length with
  | None, None => Ok None
  | Some sha, Some length =>
      validate_digest sha ?;
      let? byte_length := ok_or (parse_uint u64_max length)
        (Api.invalid "chunk length header must be a non-negative integer") in
      Ok (Some (mkChunkRequest byte_length sha))
  | _, _ => Err (Api.invalid "chunk checksum and length headers must be supplied together")
  end.

Definition legacy_single_chunk_request (upload : Upload.row) (a : UploadArtifact.row)
    (artifact_index chunk_index : Z) : res ApiError ChunkRequest :=
  reject negb (Upload.artifact_count upload =? 1) || negb (artifact_index =? 0)
         || negb (UploadArtifact.chunk_count a =? 1) || negb (chunk_index =? 0)
    with Api.invalid "chunk checksum and length headers are required";
  let? byte_length := ok_or (i64_to_u64 (UploadArtifact.stored_size_bytes a)) Api.internal in
  Ok (mkChunkRequest byte_length (digest_document_value (UploadArtifact.stored_sha256 a))).

Definition verify_stored_file (p : path) (expected_size : Z) (expected_digest : string)
  : M ApiError unit :=
  let! regular := is_regular_file p in
  refuse negb regular with Api.storage;
  let! r := read_file Api.storage p in
  let! measured := lift (hash_reader r expected_size Api.storage) in
  if (measured.1 =? expected_size) && eqs measured.2 (digest_storage_value expected_digest)
  then ret tt else throw Api.storage.

(** The loop of [write_chunk_body]: bytes counted and hashed as they are written. *)
Fixpoint write_frames (body : list Frame) (p : path) (expected : Z) (size : Z) (hashed : bytes)
  : M ApiError (Z * bytes) :=
  match body with
  | [] => ret (size, hashed)
  | FError :: _ => throw (Api.invalid "chunk request body could not be read")
  | FTrailers :: body => write_frames body p expected size hashed
  | FData data :: body =>
      let! size := lift (ok_or (checked_add_u64 size (byte_len data)) (Api.invalid "chunk size is invalid")) in
      refuse expected <? size with Api.invalid "chunk body exceeds its declared negotiated length";
      write_all Api.storage p data &;
      write_frames body p expected size (hashed ++ data)
  end.
Definition write_chunk_body (body : list Frame) (p : path) (expected : ChunkRequest) : M ApiError unit :=
  create_new Api.storage p &;
  let! written := write_frames body p (byte_length expected) 0 [] in
  sync Api.storage &;
  sync Api.storage &;
  if (written.1 =? byte_length expected)
     && eqs (sha256_hex written.2) (digest_storage_value (sha256_text expected))
  then ret tt
  else throw (Api.invalid "chunk body length or checksum does not match its headers").

Definition chunk_conflict : ApiError :=
  Api.conflict "chunk_conflict"
    "this chunk index was already accepted with a different length or checksum".

Definition store_chunk_file (upload_id : string) (artifact_index chunk_index : Z)
    (body : list Frame) (request : ChunkRequest) : M ApiError path :=
  ensure_chunk_dir Api.storage upload_id artifact_index &;
  let! uuid := new_uuid in
  let temporary_path := staged_chunk_path upload_id artifact_index uuid in
  let! written := attempt (write_chunk_body body temporary_path request) in
  match written with
  | Err error => attempt (remove_file Api.storage temporary_path) &; throw error
  | Ok _ =>
      let final_path := artifact_chunk_path upload_id artifact_index chunk_index in
      let! linked := hard_link temporary_path final_path in
      match linked with
      | LinkFailed => attempt (remove_file Api.storage temporary_path) &; throw Api.storage
      | Linked =>
          let! synced := attempt (sync Api.storage) in
          if is_ok synced then ret temporary_path
          else
            attempt (remove_file Api.storage temporary_path) &;
            attempt (remove_file Api.storage final_path) &;
            throw Api.storage
      | AlreadyExists =>
          let! verified := attempt (verify_stored_file final_path (byte_length request) (sha256_text request)) in
          if is_ok verified then ret temporary_path
          else attempt (remove_file Api.storage temporary_path) &; throw chunk_conflict
      end
  end.

Definition persist_chunk_transaction (upload : Upload.row) (artifact_index chunk_index byte_length : Z)
    (sha256 accepted_at : string) : M ApiError (TxEnd unit) :=
  let u := Upload.id upload in
  let! current := query db_err (fun d => Upload.status <$> select_one (of_upload u) (uploads d)) in
  refuse negb (match current with Some status => status_open status | None => false end)
    with Api.conflict "upload_state_conflict" "upload state changed while the chunk was submitted";
  let! index := lift (to_sqlite_i64 chunk_index) in
  let! length := lift (to_sqlite_i64 byte_length) in
  let row := Chunk.mk u artifact_index index length (digest_storage_value sha256) accepted_at in
  let! affected := execute classify_database_error (fun d =>
    ra ← insert_or_ignore (chunk_at u artifact_index index) (fun _ => false) row (upload_chunks d);
    Some (with_upload_chunks (fun _ => ra.1) d, ra.2)) in
  if affected =? 0 then
    let! existing := fetch_one db_err (fun d =>
      select_one (chunk_at u artifact_index index) (upload_chunks d)) in
    refuse negb (Chunk.byte_length existing =? length)
           || negb (eqs (Chunk.sha256 existing) (digest_storage_value sha256)) with chunk_conflict;
    ret (Commit tt)
  else ret (Commit tt).
Definition persist_chunk_record (upload : Upload.row) (artifact_index chunk_index byte_length : Z)
    (sha256 accepted_at : string) : M ApiError unit :=
  transaction db_err classify_database_error
    (persist_chunk_transaction upload artifact_index chunk_index byte_length sha256 accepted_at).

(** [SELECT COUNT( * ), MIN(chunk_index), MAX(chunk_index)] against the negotiated count. *)
Definition artifact_is_complete (a : UploadArtifact.row) (indexes : list Z) : bool :=
  let count := UploadArtifact.chunk_count a in
  let lowest := column_min indexes in
  let highest := column_max indexes in
  negb (negb (Z.of_nat (length indexes) =? count)
        || ((count =? 0) && (bool_decide (lowest <> None) || bool_decide (highest <> None)))
        || ((0 <? count) && (negb (bool_decide (lowest = Some 0))
                             || negb (bool_decide (highest = Some (count - 1)))))).
Fixpoint all_complete (upload_id : string) (rows : list UploadArtifact.row) : M ApiError bool :=
  match rows with
  | [] => ret true
  | a :: rows =>
      let! indexes := query db_err (fun d =>
        map Chunk.chunk_index
          (select (chunk_of upload_id (UploadArtifact.artifact_index a)) (upload_chunks d))) in
      if artifact_is_complete a indexes then all_complete upload_id rows else ret false
  end.
Definition upload_is_complete (upload_id : string) : M ApiError bool :=
  let! rows := get_upload_artifacts upload_id in
  refuse bool_decide (rows = []) with Api.database;
  all_complete upload_id rows.

(** [UPDATE uploads SET status = ?1 WHERE id = ?2 AND status IN (...)] *)
Definition update_open_status (upload_id status : string) (d : Db) : Db :=
  with_uploads (update (fun r => of_upload upload_id r && status_open (Upload.status r))
                  (Upload.set_status status)) d.
Definition refresh_upload_status (upload : Upload.row) : M ApiError unit :=
  let! complete := upload_is_complete (Upload.id upload) in
  let desired := if (complete : bool) then STATUS_ARTIFACT_UPLOADED else STATUS_CREATED in
  execute db_err (fun d => Some (update_open_status (Upload.id upload) desired d, tt)).

(** The two ends of [put_artifact_chunk]: the index was accepted before, or
    the body is stored and recorded now. *)
Definition confirm_chunk (upload_id : string) (artifact_index chunk_index : Z)
    (existing : Chunk.row) (request : ChunkRequest) : M ApiError unit :=
  let! length := lift (to_sqlite_i64 (byte_length request)) in
  refuse negb (Chunk.byte_length existing =? length)
         || negb (eqs (Chunk.sha256 existing) (digest_storage_value (sha256_text request)))
    with chunk_conflict;
  verify_stored_file (artifact_chunk_path upload_id artifact_index chunk_index)
    (byte_length request) (sha256_text request).

Definition accept_chunk (upload : Upload.row) (upload_id : string) (artifact_index chunk_index : Z)
    (body : list Frame) (request : ChunkRequest) : M ApiError unit :=
  let! temporary_path := store_chunk_file upload_id artifact_index chunk_index body request in
  let! now := now_rfc3339 in
  let! accepted := attempt (persist_chunk_record upload artifact_index chunk_index
                              (byte_length request) (sha256_text request) now) in
  let! cleanup := attempt (remove_file Api.storage temporary_path) in
  refuse negb (is_ok cleanup) && is_ok accepted with Api.storage;
  let! _ := lift accepted in
  refresh_upload_status upload.

Definition put_artifact_chunk (upload_id artifact_index chunk_index : string)
    (headers : HeaderMap) (body : list Frame) : M ApiError unit :=
  let! upload_id := lift (parse_uuid upload_id "upload identifier is not a UUID") in
  let! artifact_index := lift (parse_artifact_index artifact_index) in
  let! chunk_index := lift (ok_or (parse_uint u64_max chunk_index)
    (Api.invalid "chunk index is not a non-negative integer")) in
  let! _ := lift (validate_octet_stream headers) in
  let! upload := require_active_upload upload_id in
  refuse eqs (Upload.status upload) STATUS_COMPLETED
    with Api.conflict "upload_completed" "completed uploads do not accept artifact bytes";
  let! artifact := get_upload_artifact upload_id artifact_index in
  let! artifact := lift (ok_or artifact
    (Api.invalid "artifact index is outside the negotiated artifact range")) in
  let! parsed := lift (parse_chunk_headers headers) in
  let! request := lift (match parsed with
                        | Some request => Ok request
                        | None => legacy_single_chunk_request upload artifact artifact_index chunk_index
                        end) in
  let! existing := get_chunk upload_id artifact_index chunk_index in
  match existing with
  | Some existing => confirm_chunk upload_id artifact_index chunk_index existing request
  | None =>
      let! expected := lift (expected_chunk_length (Upload.chunk_size_bytes upload)
        (UploadArtifact.chunk_count artifact) (UploadArtifact.stored_size_bytes artifact) chunk_index) in
      refuse negb (byte_length request =? expected)
        with Api.invalid "chunk length does not match the negotiated chunk layout";
      accept_chunk upload upload_id artifact_index chunk_index body request
  end.
End Handlers.

(* ------------------------------------------------------------------ *)
(** ** Accepted chunks are on disk *)

Definition staged_of (u : string) (a : Z) (p : path) : Prop :=
  exists uuid, p = staged_chunk_path u a uuid.

(** [p] holds exactly the bytes a chunk row or request announces. *)
Definition holds_content `{ShaLib} (f : Files) (p : path) (size : Z) (digest : string) : Prop :=
  exists content, f !! p = Some (Regular content) /\ byte_len content = size
                  /\ sha256_hex content = digest.

(** The file that backs an accepted chunk row. *)
Definition chunk_row_backed `{ShaLib} (f : Files) (r : Chunk.row) : Prop :=
  is_u64 (Chunk.artifact_index r) /\ is_u64 (Chunk.chunk_index r)
  /\ holds_content f (artifact_chunk_path (Chunk.upload_id r) (Chunk.artifact_index r) (Chunk.chunk_index r))
       (Chunk.byte_length r) (Chunk.sha256 r).
Definition uploads_of (u : string) (d : Db) : list Upload.row :=
  select (of_upload u) (uploads d).
(** Files precede metadata: every accepted chunk belongs to an upload, and its
    file is in place until that upload completes. *)
Definition chunks_backed `{ShaLib} (s : Store) : Prop :=
  forall r, r ∈ upload_chunks (db s) ->
    uploads_of (Chunk.upload_id r) (db s) <> []
    /\ (existsb (fun up => status_open (Upload.status up)) (uploads_of (Chunk.upload_id r) (db s)) = true ->
        chunk_row_backed (files s) r).

Section ChunkFiles.
Context `{EV : Env} `{UL : UuidLib} `{TL : TimeLib} `{ML : MimeLib} `{SL : ShaLib} `{JL : JsonLib}.

(** Only [p] changed among the files, and the metadata did not. *)
Definition only_path (p : path) (s s' : Store) : Prop :=
  db s' = db s /\ forall q, q <> p -> files s' !! q = files s !! q.

Lemma only_path_refl p s : only_path p s s.
Proof. by split. Qed.
Lemma only_path_trans p s1 s2 s3 : only_path p s1 s2 -> only_path p s2 s3 -> only_path p s1 s3.
Proof.
  intros [D1 F1] [D2 F2]. split; [congruence|]. intros q Hq. by rewrite F2, F1.
Qed.
Lemma only_path_insert p e s : only_path p s (mkStore (db s) (<[p := e]> (files s)) (drawn s)).
Proof. split; [done|]. intros q Hq. simpl. by rewrite lookup_insert_ne. Qed.
Lemma only_path_delete p s : only_path p s (mkStore (db s) (delete p (files s)) (drawn s)).
Proof. split; [done|]. intros q Hq. simpl. by rewrite lookup_delete_ne. Qed.

Lemma write_frames_spec p expected body : forall size hashed s,
  files s !! p = Some (Regular hashed) -> size = byte_len hashed ->
  wp (write_frames body p expected size hashed) (fun r s' =>
    only_path p s s' /\
    match r with
    | Ok w => files s' !! p = Some (Regular w.2) /\ w.1 = byte_len w.2
    | Err _ => True
    end) s.
Proof.
  induction body as [|[data| |] body IH]; intros size hashed s Hp Hs; simpl.
  - apply wp_ret. split; [apply only_path_refl|done].
  - wp_step. wp_step. destruct (checked_add_u64 _ _) as [t|] eqn:Et; simpl.
    2: { split; [apply only_path_refl|done]. }
    apply checked_add_u64_Some in Et as [-> _].
    destruct (expected <? _); [wp_step; split; [apply only_path_refl|done]|].
    wp_step. wp_step; simpl; [split; [apply only_path_refl|done]|].
    intros b Hb. eapply wp_mono; [|apply IH].
    + intros r s' [Ho HQ]. split; [|done]. eapply only_path_trans; [apply only_path_insert|done].
    + simpl. rewrite lookup_insert_eq. congruence.
    + unfold byte_len in *. rewrite length_app. lia.
  - by apply IH.
  - wp_step. split; [apply only_path_refl|done].
Qed.

Lemma write_chunk_body_spec p body request s :
  wp (write_chunk_body body p request) (fun r s' =>
    only_path p s s' /\
    match r with
    | Ok _ => holds_content (files s') p (byte_length request)
                (digest_storage_value (sha256_text request))
    | Err _ => True
    end) s.
Proof.
  unfold write_chunk_body. wp_step. wp_step; simpl; [split; [apply only_path_refl|done]|]. intros Hnone.
  wp_step. eapply wp_mono; [|apply write_frames_spec; [simpl; by rewrite lookup_insert_eq|done]].
  intros [[size hashed]|e] s' [Ho HQ]; simpl in *.
  2: { split; [|done]. eapply only_path_trans; [apply only_path_insert|done]. }
  destruct HQ as [Hf ->].
  assert (Hos : only_path p s s') by (eapply only_path_trans; [apply only_path_insert|done]).
  do 2 (wp_step; wp_step; simpl; [by split|]).
  destruct (_ && _) eqn:Eb; wp_step; [|by split]. split; [done|].
  apply andb_true_iff in Eb as [Esz%Z.eqb_eq Edg%eqs_true]. by exists hashed.
Qed.

Lemma verify_stored_file_spec p size digest s :
  0 <= size ->
  wp (verify_stored_file p size digest) (fun r s' =>
    s' = s /\ (r = Ok tt -> holds_content (files s) p size (digest_storage_value digest))) s.
Proof.
  intros Hsz. unfold verify_stored_file. wp_step. wp_step; simpl; [by wp_step|].
  intros b Hb. simpl. wp_step. wp_step; simpl; [done|]. intros b' Hb'. split.
  2: { intros k. wp_step. wp_step. simpl.
       destruct (hash_reader ([take k b'], false) size Api.storage) as [a|e] eqn:E; [|done].
       by apply hash_reader_failed in E. }
  wp_step. wp_step. simpl.
  destruct (hash_reader ([b'], true) size Api.storage) as [[n d]|e] eqn:E; simpl; [|done].
  apply hash_reader_Ok in E as (_ & -> & -> & _); [|done]. simpl. rewrite app_nil_r.
  destruct (_ && _) eqn:Eb; wp_step; [|done]. split; [done|]. intros _.
  apply andb_true_iff in Eb as [Esz%Z.eqb_eq Edg%eqs_true]. by exists b'.
Qed.

(** What storing one chunk may do: its staged files come and go, and its final
    file may appear; everything else stays, the final file too if it was there. *)
Record chunk_stored (u : string) (a i : Z) (s s' : Store) : Prop := {
  cs_db : db s' = db s;
  cs_other : forall q, q <> artifact_chunk_path u a i -> ~ staged_of u a q ->
             files s' !! q = files s !! q;
  cs_final : forall x, files s !! artifact_chunk_path u a i = Some x ->
             files s' !! artifact_chunk_path u a i = Some x;
}.

Lemma chunk_stored_refl u a i s : chunk_stored u a i s s.
Proof. by split. Qed.
Lemma chunk_stored_drawn u a i s n :
  chunk_stored u a i s (mkStore (db s) (files s) n).
Proof. by split. Qed.
Lemma chunk_stored_trans u a i s1 s2 s3 :
  chunk_stored u a i s1 s2 -> chunk_stored u a i s2 s3 -> chunk_stored u a i s1 s3.
Proof.
  intros [D1 O1 F1] [D2 O2 F2]. split; [congruence| |auto].
  intros q Hq Hs. by rewrite O2, O1.
Qed.
Lemma only_path_chunk_stored u a i uuid s s' : is_u64 i ->
  only_path (staged_chunk_path u a uuid) s s' -> chunk_stored u a i s s'.
Proof.
  intros Hi [D F]. split; [done| |].
  - intros q _ Hs. apply F. intros ->. apply Hs. by exists uuid.
  - intros x Hx. rewrite F; [done|]. by apply chunk_path_staged.
Qed.

(** The error paths that remove the staged file, and the final one with it. *)
Lemma wp_discard {A} u a i uuid s s0 e (Q : res ApiError A -> Store -> Prop) :
  is_u64 i -> chunk_stored u a i s0 s ->
  (forall s', chunk_stored u a i s0 s' -> Q (Err e) s') ->
  wp (attempt (remove_file Api.storage (staged_chunk_path u a uuid)) &; throw e) Q s.
Proof.
  intros Hi Hs HQ. wp_step. wp_step. wp_step; simpl; wp_step; apply HQ; [done|].
  eapply chunk_stored_trans; [done|]. eapply only_path_chunk_stored; [done|]. apply only_path_delete.
Qed.
Lemma wp_discard_both {A} u a i uuid s s0 e (Q : res ApiError A -> Store -> Prop) :
  is_u64 i -> chunk_stored u a i s0 s -> files s0 !! artifact_chunk_path u a i = None ->
  (forall s', chunk_stored u a i s0 s' -> Q (Err e) s') ->
  wp (attempt (remove_file Api.storage (staged_chunk_path u a uuid)) &;
      attempt (remove_file Api.storage (artifact_chunk_path u a i)) &; throw e) Q s.
Proof.
  intros Hi Hs Hnone HQ.
  assert (Hdel : forall d f n, chunk_stored u a i s0 (mkStore d f n) ->
    chunk_stored u a i s0 (mkStore d (delete (artifact_chunk_path u a i) f) n)).
  { intros d f n [D O F]. split; [done| |intros x Hx; congruence].
    intros q Hq Hst. simpl. rewrite lookup_delete_ne by done. by apply O. }
  wp_step. wp_step. wp_step; simpl; wp_step; wp_step; (wp_step; simpl; wp_step; apply HQ); auto.
  - apply Hdel. by destruct s.
  - eapply chunk_stored_trans; [done|]. eapply only_path_chunk_stored; [done|]. apply only_path_delete.
  - apply Hdel. eapply chunk_stored_trans; [done|]. eapply only_path_chunk_stored; [done|]. apply only_path_delete.
Qed.

Lemma store_chunk_file_spec u a i body request s :
  is_u64 i -> 0 <= byte_length request ->
  wp (store_chunk_file u a i body request) (fun r s' =>
    chunk_stored u a i s s' /\
    match r with
    | Ok p => staged_of u a p
              /\ holds_content (files s') (artifact_chunk_path u a i) (byte_length request)
                   (digest_storage_value (sha256_text request))
    | Err _ => True
    end) s.
Proof.
  intros Hi Hlen. unfold store_chunk_file, ensure_chunk_dir.
  wp_step. wp_step; simpl; [split; [apply chunk_stored_refl|done]|].
  wp_step. wp_step. simpl. set (uuid := now_v7 (drawn s)).
  wp_step. wp_step. eapply wp_mono; [|apply write_chunk_body_spec].
  intros r1 s1 [Ho HQ].
  assert (H1 : chunk_stored u a i s s1).
  { eapply chunk_stored_trans; [apply (chunk_stored_drawn u a i s (S (drawn s)))|].
    eapply only_path_chunk_stored; [done|exact Ho]. }
  destruct r1 as [u1|e]; simpl; [|apply (wp_discard u a i uuid s1 s); auto].
  wp_step. wp_step; simpl.
  - apply (wp_discard u a i uuid s1 s); auto.
  - intros x y Hx Hy. wp_step. wp_step. eapply wp_mono; [|by apply verify_stored_file_spec].
    intros [[]|e] s2 [-> Hv]; simpl; [|apply (wp_discard u a i uuid s1 s); auto].
    wp_step. split; [done|]. split; [by exists uuid|by apply Hv].
  - intros x Hx Hnone.
    assert (Hnone0 : files s !! artifact_chunk_path u a i = None).
    { destruct (files s !! _) as [y|] eqn:E; [|done].
      apply (cs_final _ _ _ _ _ H1) in E. congruence. }
    assert (H2 : chunk_stored u a i s
      (mkStore (db s1) (<[artifact_chunk_path u a i := x]> (files s1)) (drawn s1))).
    { split; [apply H1| |intros y Hy; congruence].
      intros q Hq Hs. simpl. rewrite lookup_insert_ne by done. by apply H1. }
    wp_step. wp_step. wp_step; simpl; [apply (wp_discard_both u a i uuid _ s); auto|].
    wp_step. split; [done|]. split; [by exists uuid|].
    destruct HQ as (content & Hc & Hl & Hd). exists content. simpl.
    rewrite lookup_insert_eq. split_and!; [congruence|done|done].
Qed.

(* ------------------------------------------------------------------ *)
(** ** Ending an upload: what is left of it *)

(** The metadata once upload [u] is ended. *)
Definition terminal_db (u : string) (audits : list Audit.row) (d : Db) : Db :=
  with_uploads (delete_where (of_upload u))
    (with_upload_artifacts (delete_where (artifact_of u))
      (with_upload_chunks (delete_where (fun r => eqs (Chunk.upload_id r) u))
        (with_manifests (delete_where (fun r => eqs (ManifestRow.upload_id r) u))
          (with_upload_audits (fun _ => audits) d)))).

(** The audit trail keeps what it had and has a row for [u]. *)
Definition audited (upload : Upload.row) (terminal_at : string) (reason : TerminalReason)
    (before after : list Audit.row) : Prop :=
  (after = before /\ exists q, q ∈ before /\ Audit.upload_id q = Upload.id upload)
  \/ after = before ++ [audit_row upload terminal_at reason].

Lemma delete_where_twice {R} (p : R -> bool) l : delete_where p (delete_where p l) = delete_where p l.
Proof.
  unfold delete_where. rewrite list_filter_filter. apply list_filter_iff. intros x. tauto.
Qed.

Lemma terminalize_transaction_spec upload terminal_at reason s :
  wp (terminalize_transaction upload terminal_at reason) (fun r s' =>
    match r with
    | Ok (Commit true) => exists audits,
        db s' = terminal_db (Upload.id upload) audits (db s)
        /\ audited upload terminal_at reason (upload_audits (db s)) audits
        /\ exists row, select_one (of_upload (Upload.id upload)) (uploads (db s)) = Some row
             /\ Upload.status row <> STATUS_COMPLETED
    | Ok (Commit false) => db s' = db s
        /\ select_one (of_upload (Upload.id upload)) (uploads (db s)) = None
    | Ok (Rollback _) => False
    | Err _ => True
    end) s.
Proof.
  unfold terminalize_transaction. wp_step. wp_step; simpl; [done|].
  destruct (select_one _ (uploads (db s))) as [row|] eqn:Erow; [|by wp_step].
  destruct (eqs _ STATUS_COMPLETED) eqn:Est; [by wp_step|]. apply eqs_false in Est.
  wp_step. wp_step; simpl; [done|]. intros d1 n1 E1.
  destruct (insert_or_ignore _ _ _ _) as [[audits n]|] eqn:Ei; [|done]. injection E1 as <- <-.
  wp_step. wp_step; simpl; [done|]. intros d2 [] [= <-].
  wp_step. wp_step; simpl; [done|]. intros d3 [] E3. unfold delete_manifests in E3.
  destruct (existsb _ _); [done|]. injection E3 as <-.
  wp_step. wp_step; simpl; [done|]. intros d4 [] E4. unfold delete_upload in E4.
  destruct (_ && _); [done|]. injection E4 as <-. wp_step. exists audits. split_and!.
  - cbn [db]. unfold terminal_db. destruct (db s). db_compute. by rewrite delete_where_twice.
  - apply insert_or_ignore_Some in Ei as [(_ & -> & q & Hq & Eq)|(_ & -> & _)]; [left|by right].
    split; [done|]. exists q. by rewrite eqs_true in Eq.
  - by exists row.
Qed.

Lemma terminalize_db_only upload terminal_at reason :
  db_only (terminalize_transaction upload terminal_at reason).
Proof. unfold terminalize_transaction. db_only_tac. Qed.

(** Ending upload [u] either leaves the metadata as it was, or removes [u]
    from it; files disappear only below its directory, and only then. *)
Lemma terminalize_spec upload reason s :
  let u := Upload.id upload in
  wp (terminalize_upload_locked upload reason) (fun r s' =>
    (db s' = db s /\ files s' = files s
     /\ (r = Ok tt -> select_one (of_upload u) (uploads (db s)) = None))
    \/ (exists audits at_,
          db s' = terminal_db u audits (db s)
          /\ audited upload at_ reason (upload_audits (db s)) audits
          /\ (forall row, select_one (of_upload u) (uploads (db s)) = Some row ->
                Upload.status row <> STATUS_COMPLETED)
          /\ (forall p, below (upload_dir u) p = false -> files s' !! p = files s !! p)
          /\ (r = Ok tt -> forall p, below (upload_dir u) p = true -> files s' !! p = None))) s.
Proof.
  intros u. unfold terminalize_upload_locked, now_rfc3339. wp_step. wp_step. wp_step. intros t. simpl.
  wp_step. destruct (format_rfc3339 t) as [at_|]; simpl; [|by left].
  wp_step. wp_step; [intros x; simpl; by left|].
  eapply wp_mono; [|apply wp_and; [apply (terminalize_db_only upload at_ reason (files s) (drawn s)); done|
                                   apply terminalize_transaction_spec]].
  intros r s1 [[Ef _] HQ]. simpl. destruct r as [[[|]|]|e]; simpl; try done; [| |left; by rewrite Ef].
  - destruct HQ as (audits & Ed & Ha & row & Erow & Hst).
    assert (Hopen : forall x, select_one (of_upload u) (uploads (db s)) = Some x -> Upload.status x <> STATUS_COMPLETED)
      by (intros x; unfold u; rewrite Erow; by intros [= <-]).
    split; [|intros x; simpl; left; by rewrite Ef].
    unfold remove_upload_dir. wp_step.
    + intros fs Hk Hs. right. exists audits, at_. simpl. rewrite Ef in Hk. by split_and!.
    + intros fs Hk Hs. right. exists audits, at_. simpl. rewrite Ef in Hk. by split_and!.
  - destruct HQ as [Ed Hno]. split; [wp_step; left; by rewrite Ed, Ef|].
    intros x. simpl. left. by rewrite Ef.
Qed.

#[export] Instance chunks_backed_draw : DrawStable chunks_backed.
Proof. intros s Hs. exact Hs. Qed.

Lemma uploads_of_delete u u' d : u <> u' ->
  uploads_of u' (with_uploads (delete_where (of_upload u)) d) = uploads_of u' d.
Proof.
  intros Hne. unfold uploads_of. simpl. unfold select, delete_where.
  rewrite list_filter_filter. apply list_filter_iff. intros x. unfold of_upload.
  rewrite eqs_true, eqs_false. naive_solver.
Qed.

Lemma backed_elsewhere f f' r :
  (forall p, p = artifact_chunk_path (Chunk.upload_id r) (Chunk.artifact_index r) (Chunk.chunk_index r) ->
     forall x, f !! p = Some x -> f' !! p = Some x) ->
  chunk_row_backed f r -> chunk_row_backed f' r.
Proof.
  intros Hf (Ha & Hi & content & Hc & Hl & Hd). split_and!; [done..|]. exists content.
  split_and!; [|done..]. by apply (Hf _ eq_refl).
Qed.

(** Files may go with the rows that name them. *)
Lemma chunks_backed_terminal u audits s s' :
  db s' = terminal_db u audits (db s) ->
  (forall p, below (upload_dir u) p = false -> files s' !! p = files s !! p) ->
  chunks_backed s -> chunks_backed s'.
Proof.
  intros Ed Hf Hs r Hr. rewrite Ed in Hr |- *. simpl in Hr.
  apply elem_of_delete in Hr as [Hne%eqs_false Hr]. destruct (Hs r Hr) as [Hu Hb].
  assert (E : uploads_of (Chunk.upload_id r) (terminal_db u audits (db s))
              = uploads_of (Chunk.upload_id r) (db s)).
  { unfold terminal_db. by rewrite uploads_of_delete by congruence. }
  rewrite E. split; [done|]. intros Ho. eapply backed_elsewhere; [|by apply Hb]. intros p -> x. rewrite Hf; [done|].
  apply chunk_not_below. congruence.
Qed.

Lemma keeps_terminalize upload reason : keeps chunks_backed (terminalize_upload_locked upload reason).
Proof.
  intros s Hs. eapply wp_mono; [|apply terminalize_spec].
  intros r s' [(Ed & Ef & _)|(audits & at_ & Ed & _ & _ & Hf & _)].
  - intros row. rewrite Ed, Ef. apply Hs.
  - by eapply chunks_backed_terminal.
Qed.

Lemma chunk_stored_backed u a i s s' : is_u64 a -> is_u64 i ->
  chunk_stored u a i s s' -> chunks_backed s -> chunks_backed s'.
Proof.
  intros Ha Hi [D O F] Hs r Hr. rewrite D in Hr |- *. destruct (Hs r Hr) as [Hu Hb].
  split; [done|]. intros Ho. specialize (Hb Ho). eapply backed_elsewhere; [|exact Hb]. destruct Hb as (Ha' & Hi' & _).
  intros p -> x Hx.
  destruct (decide (artifact_chunk_path (Chunk.upload_id r) (Chunk.artifact_index r) (Chunk.chunk_index r)
                    = artifact_chunk_path u a i)) as [E|Hne].
  - rewrite E in *. by apply F.
  - rewrite O; [done|done|]. intros [uuid E]. by eapply chunk_path_staged in E.
Qed.

(* ------------------------------------------------------------------ *)
(** ** An acknowledged chunk is durable *)

Lemma chunk_at_true u a i r : chunk_at u a i r = true <->
  Chunk.upload_id r = u /\ Chunk.artifact_index r = a /\ Chunk.chunk_index r = i.
Proof.
  unfold chunk_at, chunk_of. rewrite !andb_true_iff, eqs_true, !Z.eqb_eq. tauto.
Qed.
Lemma to_sqlite_i64_Ok v w : to_sqlite_i64 v = Ok w <-> w = v /\ v <= i64_max.
Proof. unfold to_sqlite_i64. by rewrite ok_or_Ok, u64_to_i64_Some. Qed.

(** The row that records chunk [(a, i)] of upload [u] with this content. *)
Definition chunk_recorded (u : string) (a i size : Z) (digest : string) (d : Db) : Prop :=
  exists r, r ∈ upload_chunks d /\ chunk_at u a i r = true
            /\ Chunk.byte_length r = size /\ Chunk.sha256 r = digest.

Lemma persist_chunk_db_only upload a i size sha at_ :
  db_only (persist_chunk_transaction upload a i size sha at_).
Proof. unfold persist_chunk_transaction. db_only_tac. Qed.

Lemma persist_chunk_record_spec upload a i size sha at_ s :
  wp (persist_chunk_record upload a i size sha at_) (fun r s' =>
    files s' = files s
    /\ (db s' = db s
        \/ (uploads_of (Upload.id upload) (db s) <> [] /\ db s' = with_upload_chunks
             (fun t => t ++ [Chunk.mk (Upload.id upload) a i size (digest_storage_value sha) at_]) (db s)))
    /\ (r = Ok tt -> chunk_recorded (Upload.id upload) a i size (digest_storage_value sha) (db s'))) s.
Proof.
  unfold persist_chunk_record. wp_step; [intros x; by split_and!; [|left|]|].
  eapply wp_mono; [|apply wp_and; [apply (persist_chunk_db_only upload a i size sha at_ (files s) (drawn s)); done|
    instantiate (1 := fun r s' => match r with
      | Ok (Commit _) => (db s' = db s \/ (uploads_of (Upload.id upload) (db s) <> [] /\ db s' = with_upload_chunks
             (fun t => t ++ [Chunk.mk (Upload.id upload) a i size (digest_storage_value sha) at_]) (db s)))
          /\ chunk_recorded (Upload.id upload) a i size (digest_storage_value sha) (db s')
      | Ok (Rollback _) => False
      | Err _ => True end)]].
  - intros r s' [[Ef _] HQ]. rewrite Ef. simpl.
    destruct r as [[[]|]|e]; simpl in *; [|done|split_and!; [done|by left|done]].
    destruct HQ as [Hd Hr]. split; [by split_and!|]. intros x. by split_and!; [|left|].
  - unfold persist_chunk_transaction. wp_step. wp_step; simpl; [done|].
    destruct (negb _) eqn:Eopen; [by wp_step|].
    assert (Hu : uploads_of (Upload.id upload) (db s) <> []).
    { intros E. unfold select_one in Eopen. unfold uploads_of in E. by rewrite E in Eopen. }
    wp_step. wp_step. destruct (to_sqlite_i64 i) as [i'|] eqn:Ei; simpl; [|done].
    wp_step. wp_step. destruct (to_sqlite_i64 size) as [size'|] eqn:Es; simpl; [|done].
    apply to_sqlite_i64_Ok in Ei as [-> _], Es as [-> _].
    wp_step. wp_step; simpl; [done|]. intros d n E.
    destruct (insert_or_ignore _ _ _ _) as [[t k]|] eqn:Ei; [|done]. injection E as <- <-.
    apply insert_or_ignore_Some in Ei as [(-> & -> & q & Hq & Hk)|(-> & -> & _)]; simpl.
    + wp_step. wp_step; simpl; [done|]. intros row Hrow. apply select_one_Some in Hrow as [Hat Hin].
      destruct (negb (_ =? _) || _) eqn:Eb; wp_step; [done|]. simpl in *.
      apply orb_false_iff in Eb as [El%negb_false_iff%Z.eqb_eq Ed%negb_false_iff%eqs_true].
      split; [left; by destruct (db s)|]. exists row. by split_and!.
    + wp_step. split; [right; split; [done|]; by destruct (db s)|]. eexists. split; [simpl; apply elem_of_app; right; left|].
      split_and!; [|done..]. by apply chunk_at_true.
Qed.

(** No upload disappears, and none opens again. *)
Definition uploads_closing (d d' : Db) : Prop := forall u,
  (uploads_of u d <> [] -> uploads_of u d' <> [])
  /\ (existsb (fun up => status_open (Upload.status up)) (uploads_of u d') = true ->
      existsb (fun up => status_open (Upload.status up)) (uploads_of u d) = true).

Lemma uploads_closing_refl d : uploads_closing d d.
Proof. by split. Qed.
Lemma uploads_closing_trans d1 d2 d3 :
  uploads_closing d1 d2 -> uploads_closing d2 d3 -> uploads_closing d1 d3.
Proof. intros H1 H2 u. destruct (H1 u), (H2 u). auto. Qed.
Lemma uploads_closing_eq d d' : uploads d' = uploads d -> uploads_closing d d'.
Proof. intros E u. unfold uploads_of. by rewrite E. Qed.

Lemma select_update {R} (p q : R -> bool) (f : R -> R) t : (forall r, p (f r) = p r) ->
  select p (update q f t) = map (fun r => if q r then f r else r) (select p t).
Proof.
  intros Hp. unfold select, update. induction t as [|r t IH]; [done|]. simpl.
  rewrite !filter_cons.
  assert (E : p (if q r then f r else r) = p r) by (by destruct (q r)). rewrite E.
  destruct (p r); simpl; by rewrite <-IH.
Qed.

Lemma uploads_closing_update p f d :
  (forall up, Upload.id (f up) = Upload.id up) ->
  (forall up, p up = true -> status_open (Upload.status (f up)) = true ->
     status_open (Upload.status up) = true) ->
  uploads_closing d (with_uploads (update p f) d).
Proof.
  intros Hid Ho u. unfold uploads_of. simpl. rewrite select_update by (intros; unfold of_upload; by rewrite Hid).
  split; [by destruct (select _ _)|].
  rewrite !existsb_true. intros (x & Hx & Hs). change (map ?g ?l) with (g <$> l) in Hx.
  apply list_elem_of_fmap in Hx as (up & -> & Hup). exists up. split; [done|].
  destruct (p up) eqn:Ep; auto.
Qed.

Lemma refresh_upload_status_spec upload s :
  wp (refresh_upload_status upload) (fun _ s' =>
    files s' = files s /\ upload_chunks (db s') = upload_chunks (db s)
    /\ uploads_closing (db s) (db s')) s.
Proof.
  unfold refresh_upload_status, upload_is_complete, get_upload_artifacts.
  assert (Hall : forall rows, wp (all_complete (Upload.id upload) rows) (fun _ s' => s' = s) s).
  { induction rows as [|a rows IH]; simpl; [by wp_step|].
    wp_step. wp_step; simpl; [done|]. destruct (artifact_is_complete _ _); [by apply IH|by wp_step]. }
  assert (Hs : files s = files s /\ upload_chunks (db s) = upload_chunks (db s)
               /\ uploads_closing (db s) (db s)) by (split_and!; [done..|apply uploads_closing_refl]).
  wp_step. wp_step. wp_step; simpl; [done|].
  destruct (bool_decide _); [by wp_step|].
  eapply wp_mono; [|by apply Hall]. intros [complete|e] s' ->; simpl; [|done].
  wp_step; [done|]. intros d [] [= <-]. split_and!; [done..|].
  apply uploads_closing_update; [done|]. intros up [_ Ho]%andb_true_iff. simpl. by destruct complete.
Qed.

Lemma require_active_upload_spec u s :
  wp (require_active_upload u) (fun r s' =>
    (chunks_backed s -> chunks_backed s')
    /\ forall up, r = Ok up -> db s' = db s /\ files s' = files s
                             /\ select_one (of_upload u) (uploads (db s)) = Some up) s.
Proof.
  unfold require_active_upload, get_active_upload.
  wp_step. wp_step; simpl; [done|]. wp_step. wp_step.
  destruct (select_one _ _) as [up|] eqn:Eup; simpl; [|done].
  destruct (eqs _ _); [wp_step; by split; [|intros ? [= <-]]|].
  wp_step. wp_step. intros t. simpl. wp_step. wp_step.
  destruct (is_expired up t) as [[|]|e]; simpl; [|wp_step; by split; [|intros ? [= <-]]|done].
  wp_step. intros n. pose proof (keeps_terminalize up ReasonExpired s) as Hk.
  unfold then_wp. destruct (terminalize_upload_locked up ReasonExpired (s, n)) as [[v|e] s'] eqn:E; simpl.
  - intros n'. simpl. split; [|done]. intros Hs. specialize (Hk Hs n). by rewrite E in Hk.
  - split; [|done]. intros Hs. specialize (Hk Hs n). by rewrite E in Hk.
Qed.

(** What an acknowledged chunk leaves behind. *)
Definition chunk_durable (u : string) (a i : Z) (request : ChunkRequest) (s : Store) : Prop :=
  chunk_recorded u a i (byte_length request) (digest_storage_value (sha256_text request)) (db s)
  /\ holds_content (files s) (artifact_chunk_path u a i) (byte_length request)
       (digest_storage_value (sha256_text request)).

Lemma confirm_chunk_spec u a i existing request s :
  0 <= byte_length request ->
  existing ∈ upload_chunks (db s) -> chunk_at u a i existing = true ->
  wp (confirm_chunk u a i existing request) (fun r s' =>
    s' = s /\ (r = Ok tt -> chunk_durable u a i request s')) s.
Proof.
  intros Hlen Hin Hat. unfold confirm_chunk. wp_step. wp_step.
  destruct (to_sqlite_i64 _) as [l|e] eqn:El; simpl; [|done]. apply to_sqlite_i64_Ok in El as [-> _].
  destruct (negb (_ =? _) || _) eqn:Eb; [by wp_step|].
  apply orb_false_iff in Eb as [Eq%negb_false_iff%Z.eqb_eq Ed%negb_false_iff%eqs_true].
  eapply wp_mono; [|by apply verify_stored_file_spec]. intros r s' [-> Hv]. split; [done|].
  intros Hr. split; [by exists existing|by apply Hv].
Qed.

Lemma holds_content_preserved f f' p n d :
  (forall x, f !! p = Some x -> f' !! p = Some x) -> holds_content f p n d -> holds_content f' p n d.
Proof. intros Hf (c & Hc & ?). exists c. by split; [apply Hf|]. Qed.

Lemma chunks_backed_same s s' :
  upload_chunks (db s') = upload_chunks (db s) -> uploads_closing (db s) (db s') ->
  files s' = files s -> chunks_backed s -> chunks_backed s'.
Proof.
  intros Ed Hu Ef Hs r Hr. rewrite Ed in Hr. rewrite Ef. destruct (Hs r Hr) as [H1 H2].
  destruct (Hu (Chunk.upload_id r)). auto.
Qed.

(** Recording a chunk whose file is in place. *)
Lemma chunks_backed_record u a i size digest at_ s s1 :
  is_u64 a -> is_u64 i -> holds_content (files s) (artifact_chunk_path u a i) size digest ->
  files s1 = files s ->
  db s1 = db s \/ (uploads_of u (db s) <> []
    /\ db s1 = with_upload_chunks (fun t => t ++ [Chunk.mk u a i size digest at_]) (db s)) ->
  chunks_backed s -> chunks_backed s1.
Proof.
  intros Ha Hi Hc Ef [Ed|[Hu Ed]] Hs r; rewrite Ed, Ef; [apply Hs|].
  simpl. intros [Hr| ->%list_elem_of_singleton]%elem_of_app; [by apply Hs|]. split; [done|]. intros _. by split_and!.
Qed.

Lemma chunk_request_length headers upload artifact a i parsed request :
  parse_chunk_headers headers = Ok parsed ->
  match parsed with
  | Some request => Ok request
  | None => legacy_single_chunk_request upload artifact a i
  end = Ok request -> 0 <= byte_length request.
Proof.
  unfold parse_chunk_headers, legacy_single_chunk_request. intros Eh Er.
  destruct parsed as [announced|].
  - injection Er as <-. apply res_bind_Ok in Eh as (sha & _ & Eh). apply res_bind_Ok in Eh as (len & _ & Eh).
    destruct sha, len; try done. inv_res. apply parse_uint_Some in Hx0. simpl. lia.
  - clear Eh. inv_res. by apply i64_to_u64_Some in Hx as [-> ?].
Qed.

Lemma accept_chunk_spec upload a i body request s :
  let u := Upload.id upload in
  is_u64 a -> is_u64 i -> 0 <= byte_length request -> chunks_backed s ->
  wp (accept_chunk upload u a i body request) (fun r s' =>
    chunks_backed s' /\ (r = Ok tt -> chunk_durable u a i request s')) s.
Proof.
  intros u Ha Hi Hlen Hs. unfold accept_chunk, now_rfc3339.
  wp_step. eapply wp_mono; [|by apply store_chunk_file_spec].
  intros r1 s1 [Hcs H1]. apply chunk_stored_backed in Hcs as Hs1; [|done..].
  destruct r1 as [tmp|e]; simpl; [|by split]. destruct H1 as [[uuid ->] Hc].
  wp_step. wp_step. wp_step. intros t. simpl. wp_step.
  destruct (format_rfc3339 t) as [at_|]; simpl; [|by split].
  wp_step. wp_step. eapply wp_mono; [|apply persist_chunk_record_spec].
  intros r2 s2 (Ef & Ed & Hrec). fold u in Ed, Hrec.
  assert (Hs2 : chunks_backed s2) by by apply (chunks_backed_record u a i (byte_length request) (digest_storage_value (sha256_text request)) at_ s1 s2).
  rewrite <-Ef in Hc. simpl. wp_step. wp_step. wp_step; simpl.
  - destruct r2 as [[]|e]; simpl; [by wp_step|]. wp_step. wp_step. simpl. by split.
  - set (s3 := mkStore (db s2) _ (drawn s2)).
    assert (Hcs3 : chunk_stored u a i s2 s3) by (eapply only_path_chunk_stored; [done|apply only_path_delete]).
    assert (Hs3 : chunks_backed s3) by (by apply (chunk_stored_backed u a i s2 s3)).
    wp_step. wp_step. destruct r2 as [[]|e]; simpl; [|by split].
    eapply wp_mono; [|apply refresh_upload_status_spec].
    intros r4 s4 (Ef4 & Ed4 & Hc4). split; [by eapply chunks_backed_same|]. intros _. split.
    + destruct (Hrec eq_refl) as (row & Hin & Hrow). exists row. by rewrite Ed4.
    + rewrite Ef4. eapply holds_content_preserved; [|exact Hc]. apply Hcs3.
Qed.

Lemma put_artifact_chunk_spec u a i headers body s :
  chunks_backed s ->
  wp (put_artifact_chunk u a i headers body) (fun r s' =>
    chunks_backed s'
    /\ (r = Ok tt -> exists cu ca ci request,
          parse_str u = Some cu /\ parse_artifact_index a = Ok ca /\ parse_uint u64_max i = Some ci
          /\ chunk_durable cu ca ci request s'
          /\ forall announced, parse_chunk_headers headers = Ok (Some announced) -> request = announced)) s.
Proof.
  intros Hs. unfold put_artifact_chunk, parse_uuid.
  wp_step. wp_step. destruct (parse_str u) as [cu|]; simpl; [|by split].
  wp_step. wp_step. destruct (parse_artifact_index a) as [ca|e] eqn:Ea; simpl; [|by split].
  wp_step. wp_step. destruct (parse_uint u64_max i) as [ci|] eqn:Ei; simpl; [|by split].
  assert (Ha : is_u64 ca) by (apply ok_or_Ok, parse_uint_Some in Ea; unfold is_u64, u64_max, u32_max in *; lia).
  assert (Hi : is_u64 ci) by (by apply parse_uint_Some in Ei).
  wp_step. wp_step. destruct (validate_octet_stream headers); simpl; [|by split].
  wp_step. eapply wp_mono; [|apply require_active_upload_spec]. intros r1 s1 [Hk Hup].
  specialize (Hk Hs). destruct r1 as [upload|e]; simpl; [|by split].
  destruct (Hup upload eq_refl) as (_ & _ & [Hid%eqs_true _]%select_one_Some). clear Hup.
  destruct (eqs _ STATUS_COMPLETED); [by wp_step|].
  unfold get_upload_artifact. wp_step. wp_step; simpl; [done|].
  wp_step. wp_step. destruct (select_one _ (upload_artifacts _)) as [artifact|]; simpl; [|by split].
  wp_step. wp_step. destruct (parse_chunk_headers headers) as [parsed|e] eqn:Eh; simpl; [|by split].
  wp_step. wp_step. match goal with |- context [then_wp _ _ ?c] => destruct c as [request|e] eqn:Er end;
    simpl; [|by split].
  pose proof (chunk_request_length _ _ _ _ _ _ _ Eh Er) as Hlen.
  unfold get_chunk. wp_step. wp_step. wp_step. destruct (to_sqlite_i64 ci) as [ci'|] eqn:Eci; simpl; [|by split].
  apply to_sqlite_i64_Ok in Eci as [-> _]. wp_step; simpl; [done|].
  assert (Hann : forall announced, @Ok ApiError _ parsed = Ok (Some announced) -> request = announced).
  { intros announced [= ->]. injection Er. done. }
  destruct (select_one _ (upload_chunks _)) as [existing|] eqn:Ex.
  - apply select_one_Some in Ex as [Hat Hin].
    eapply wp_mono; [|by apply confirm_chunk_spec]. intros r s' [-> Hd]. split; [done|].
    intros Hr. exists cu, ca, ci, request. split_and!; [done..|by apply Hd|done].
  - wp_step. wp_step. destruct (expected_chunk_length _ _ _ _) as [expected|e]; simpl; [|by split].
    destruct (negb _); [by wp_step|]. rewrite <-Hid.
    eapply wp_mono; [|by apply accept_chunk_spec]. intros r s' [Hb Hd]. split; [done|].
    intros Hr. exists (Upload.id upload), ca, ci, request. split_and!; [by rewrite Hid|done..|by apply Hd|done].
Qed.

(** C7: whatever fails and whenever it fails, submitting a chunk keeps every
    accepted chunk backed by a synced file of the recorded length and digest;
    and when the server acknowledges the chunk, it is recorded under its
    index with exactly the announced length and checksum, and its bytes are
    in place. *)
Theorem put_artifact_chunk_durable u a i headers body s :
  chunks_backed s ->
  wp (put_artifact_chunk u a i headers body) (fun r s' =>
    chunks_backed s'
    /\ (r = Ok tt -> exists cu ca ci request,
          parse_str u = Some cu /\ parse_artifact_index a = Ok ca /\ parse_uint u64_max i = Some ci
          /\ chunk_durable cu ca ci request s'
          /\ forall announced, parse_chunk_headers headers = Ok (Some announced) -> request = announced)) s.
Proof. apply put_artifact_chunk_spec. Qed.
End ChunkFiles.
#[export] Hint Resolve keeps_terminalize : keeps.
