(* ===== verification/Receipts.v ===== *)
(** The receipt of a completed upload ([completion_for_upload] and its parts,
    [retrieval.rs]): immutable snapshot evidence, transfer facts, provenance. *)
From stdpp Require Import prelude strings gmap list.
From Stdlib Require Import ZArith Lia.
From S2P Require Import Prelude Errors Contract Externals Chunks Fingerprint.
From S2P Require Import Tables Store Storage Uploads.

(** The joins follow primary keys, so each finds at most one row. *)
Definition snapshot_by_id (id : string) (d : Db) : option Snapshot.row :=
  select_one (fun r => eqs (Snapshot.id r) id) (snapshots d).
Definition manifest_by_id (id : string) (d : Db) : option ManifestRow.row :=
  select_one (fun r => eqs (ManifestRow.id r) id) (manifests d).
(** [s.deleted_at IS NULL] *)
Definition live (s : Snapshot.row) : bool := bool_decide (Snapshot.deleted_at s = None).
Definition live_snapshot_by_id (id : string) (d : Db) : option Snapshot.row :=
  select_one (fun r => eqs (Snapshot.id r) id && live r) (snapshots d).
(** [u.status = 'completed'] *)
Definition completed_upload (u : string) (d : Db) : option Upload.row :=
  select_one (fun r => of_upload u r && eqs (Upload.status r) STATUS_COMPLETED) (uploads d).

Section Handlers.
Context `{Env} `{UuidLib} `{JsonLib}.

Definition receipt_for_upload (st : AppState) (upload_id : string) : M ApiError Receipt :=
  let! row := query db_err (fun d =>
    u ← completed_upload upload_id d;
    sid ← Upload.snapshot_id u;
    s ← live_snapshot_by_id sid d;
    m ← manifest_by_id (Snapshot.manifest_id s) d;
    Some (s, m)) in
  let! sm := lift (ok_or row (Api.not_found "snapshot_not_found" "snapshot was not found")) in
  let s := sm.1 in
  let! artifact_count := lift (ok_or (to_u32 (Snapshot.artifact_count s)) Api.internal) in
  let! original := lift (ok_or (i64_to_u64 (Snapshot.total_original_size_bytes s)) Api.internal) in
  let! stored := lift (ok_or (i64_to_u64 (Snapshot.total_stored_size_bytes s)) Api.internal) in
  ret {| receipt_version := 2;
         r_archive_instance_id := archive_instance_id st;
         r_owner_namespace := owner_namespace st;
         r_snapshot_id := Snapshot.id s;
         r_session_id := Snapshot.session_id s;
         r_snapshot_fingerprint := digest_document_value (Snapshot.fingerprint_sha256 s);
         r_manifest_sha256 := digest_document_value (ManifestRow.sha256 sm.2);
         r_artifact_count := artifact_count;
         r_total_original_bytes := original;
         r_total_stored_bytes := stored;
         r_completed_at := Snapshot.completed_at s |}.

Definition capture_from_row (c : CaptureRow.row) (m : ManifestRow.row) : res ApiError CaptureProvenance :=
  let? source_metadata := ok_or (metadata_of_json (CaptureRow.source_metadata_json c)) Api.internal in
  let? artifact_set_version := ok_or (to_u16 (CaptureRow.artifact_set_version c)) Api.internal in
  Ok {| cp_capture_record_id := CaptureRow.id c;
        cp_capture_id := CaptureRow.capture_id c;
        cp_client_id := CaptureRow.client_id c;
        cp_session_id := CaptureRow.session_id c;
        cp_upload_id := CaptureRow.upload_id c;
        cp_snapshot_id := CaptureRow.snapshot_id c;
        cp_manifest_id := CaptureRow.manifest_id c;
        cp_manifest_sha256 := digest_document_value (ManifestRow.sha256 m);
        cp_source_captured_at := CaptureRow.source_captured_at c;
        cp_source_cursor := CaptureRow.source_cursor c;
        cp_source_state_hash := CaptureRow.source_state_hash c;
        cp_source_metadata := source_metadata;
        cp_project := CaptureRow.project c;
        cp_repository := CaptureRow.repository c;
        cp_branch := CaptureRow.branch c;
        cp_source_agent_version := CaptureRow.source_agent_version c;
        cp_artifact_set_version := artifact_set_version;
        cp_munshi_version := CaptureRow.munshi_version c;
        cp_server_received_at := CaptureRow.server_received_at c;
        cp_server_completed_at := CaptureRow.server_completed_at c;
        cp_capture_url := "/api/v1/captures/" +:+ CaptureRow.id c;
        cp_manifest_url := "/api/v1/manifests/" +:+ CaptureRow.manifest_id c |}.

(** [capture_select_sql], joined to a live snapshot, for captures that satisfy [p]. *)
Definition visible_capture (p : CaptureRow.row -> bool) (d : Db)
  : option (CaptureRow.row * ManifestRow.row) :=
  c ← select_one (fun c => p c && bool_decide (is_Some (live_snapshot_by_id (CaptureRow.snapshot_id c) d))
                           && bool_decide (is_Some (manifest_by_id (CaptureRow.manifest_id c) d)))
        (captures d);
  m ← manifest_by_id (CaptureRow.manifest_id c) d;
  Some (c, m).

Definition capture_for_upload (upload_id : string) : M ApiError CaptureProvenance :=
  let! row := query db_err (visible_capture (fun c => eqs (CaptureRow.upload_id c) upload_id)) in
  let! cm := lift (ok_or row (Api.not_found "capture_not_found" "capture was not found")) in
  lift (capture_from_row cm.1 cm.2).

(** The lookup behind [GET /clients/{client_id}/captures/{capture_id}]. *)
Definition capture_by_client (client_id capture_id : string) : M ApiError CaptureProvenance :=
  let! row := query db_err (visible_capture (fun c =>
    eqs (CaptureRow.client_id c) client_id && eqs (CaptureRow.capture_id c) capture_id)) in
  let! cm := lift (ok_or row (Api.not_found "capture_not_found" "capture was not found")) in
  lift (capture_from_row cm.1 cm.2).

Definition completion_for_upload (st : AppState) (upload_id : string) : M ApiError CompletionResponse :=
  let! receipt := receipt_for_upload st upload_id in
  let! row := query db_err (completed_upload upload_id) in
  let! transfer := lift (ok_or row (Api.not_found "upload_not_found" "upload was not found")) in
  let! capture := capture_for_upload upload_id in
  let! sent := lift (ok_or (i64_to_u64 (Upload.transfer_bytes transfer)) Api.internal) in
  let! persisted := lift (ok_or (i64_to_u64 (Upload.newly_persisted_bytes transfer)) Api.internal) in
  ret {| c_receipt := receipt;
         c_transfer := {| ct_upload_id := Upload.id transfer;
                          ct_capture_id := Upload.capture_id transfer;
                          ct_upload_transfer_bytes := sent;
                          ct_newly_persisted_physical_bytes := persisted |};
         c_capture := capture |}.
End Handlers.
