(* ===== verification/Completion.v ===== *)
(** Completing an upload ([complete_upload], [ingestion.rs]): chunks are
    assembled and verified, stored representations are deduplicated and
    promoted to blobs, and one transaction makes the snapshot visible. *)
From stdpp Require Import prelude strings gmap sorting list.
From Stdlib Require Import ZArith Ascii Lia.
From Stdlib.Strings Require Import Byte.
From S2P Require Import Prelude Errors Contract Externals Validation Chunks Fingerprint Pagination.
From S2P Require Import Tables Store Storage Uploads Receipts.

Record PreparedArtifact : Type := mkPrepared {
  artifact_index : Z;
  artifact : Artifact;
  assembled_path : path;
}.

Record BlobPromotion : Type := mkPromotion {
  bp_stored_sha256 : string;
  bp_stored_size_bytes : Z;
  created : bool;
}.

(** The bare digest under which an artifact's stored bytes are kept. *)
Definition stored_digest (a : Artifact) : string := digest_storage_value (stored_sha256 a).

Definition chunk_missing : ApiError :=
  Api.new UNPROCESSABLE_ENTITY "chunk_missing" "an accepted chunk is no longer available".
Definition chunk_checksum_error : ApiError :=
  Api.new UNPROCESSABLE_ENTITY "chunk_checksum_mismatch"
    "accepted chunk bytes no longer match their checksum or length".
Definition stored_mismatch (msg : string) : ApiError :=
  Api.new UNPROCESSABLE_ENTITY "artifact_stored_checksum_mismatch" msg.
Definition zstd_decode_error : ApiError :=
  Api.invalid "artifact zstd stream is corrupt or truncated".
Definition blob_integrity_conflict : ApiError :=
  Api.conflict "blob_integrity_conflict"
    "stored digest conflicts with immutable blob size or compression metadata".
Definition projection_invalid : ApiError :=
  Api.conflict "upload_artifact_projection_invalid"
    "upload artifact metadata does not match the canonical manifest".

(* ------------------------------------------------------------------ *)
(** ** Checks before the bytes are read *)

Fixpoint check_artifact_limits (st : AppState) (arts : list Artifact) : res ApiError unit :=
  match arts with
  | [] => Ok tt
  | a :: arts =>
      reject max_artifact_stored_bytes st <? stored_size_bytes a
        with Api.invalid "artifact stored size exceeds the configured bounded limit";
      reject max_artifact_original_bytes st <? original_size_bytes a
        with Api.invalid "artifact original size exceeds the configured bounded limit";
      check_artifact_limits st arts
  end.
Definition validate_current_manifest_limits (st : AppState) (m : Manifest) : res ApiError unit :=
  reject bool_decide (artifacts m = []) || (max_artifact_count st <? Z.of_nat (length (artifacts m)))
    with Api.invalid "manifest artifact count exceeds the configured bounded limit";
  let? totals := manifest_totals m in
  reject max_snapshot_original_bytes st <? totals.1
    with Api.invalid "snapshot original size exceeds the configured bounded limit";
  reject max_snapshot_stored_bytes st <? totals.2
    with Api.invalid "snapshot stored size exceeds the configured bounded limit";
  check_artifact_limits st (artifacts m) ?;
  let? _ := upload_layout m (chunk_size_bytes st) in
  Ok tt.

(** The loop of [validate_upload_projection], from position [index]. *)
Fixpoint check_projection (chunk_size index : Z) (arts : list Artifact) (rows : list UploadArtifact.row)
  : res ApiError unit :=
  match arts, rows with
  | a :: arts, row :: rows =>
      reject negb (UploadArtifact.artifact_index row =? index)
             || negb (eqs (UploadArtifact.logical_path row) (logical_path a))
             || negb (bool_decide (UploadArtifact.media_type row = media_type a))
        with projection_invalid;
      let? original := to_sqlite_i64 (original_size_bytes a) in
      reject negb (UploadArtifact.original_size_bytes row =? original)
             || negb (eqs (UploadArtifact.original_sha256 row) (digest_storage_value (original_sha256 a)))
        with projection_invalid;
      let? stored := to_sqlite_i64 (stored_size_bytes a) in
      reject negb (UploadArtifact.stored_size_bytes row =? stored)
             || negb (eqs (UploadArtifact.stored_sha256 row) (stored_digest a))
             || negb (eqs (UploadArtifact.compression row) (as_str (compression a)))
        with projection_invalid;
      let? count := chunk_count (stored_size_bytes a) chunk_size in
      let? count := to_sqlite_i64 count in
      reject negb (UploadArtifact.chunk_count row =? count) with projection_invalid;
      check_projection chunk_size (index + 1) arts rows
  | _, _ => Ok tt
  end.
Definition validate_upload_projection (m : Manifest) (rows : list UploadArtifact.row)
    (upload : Upload.row) : res ApiError unit :=
  reject negb (Nat.eqb (length (artifacts m)) (length rows))
         || negb (Z.of_nat (length rows) =? Upload.artifact_count upload)
    with projection_invalid;
  let? chunk_size := ok_or (i64_to_u64 (Upload.chunk_size_bytes upload)) Api.internal in
  check_projection chunk_size 0 (artifacts m) rows.

(** The loop of [accepted_chunk_layout]. *)
Fixpoint check_chunk_rows (upload : Upload.row) (a : UploadArtifact.row) (expected_index : Z)
    (rows : list Chunk.row) : res ApiError unit :=
  match rows with
  | [] => Ok tt
  | row :: rows =>
      let? actual_index := ok_or (i64_to_u64 (Chunk.chunk_index row)) Api.internal in
      reject negb (actual_index =? expected_index)
        with Api.conflict "artifact_incomplete" "accepted chunks contain a gap or overlap";
      let? expected_length := expected_chunk_length (Upload.chunk_size_bytes upload)
        (UploadArtifact.chunk_count a) (UploadArtifact.stored_size_bytes a) actual_index in
      let? expected_length := to_sqlite_i64 expected_length in
      reject negb (Chunk.byte_length row =? expected_length)
        with Api.conflict "chunk_layout_invalid"
               "accepted chunk length does not match the negotiated layout";
      res_map_err (fun _ => Api.conflict "chunk_layout_invalid"
                              "accepted chunk checksum does not match the negotiated layout")
        (validate_digest (digest_document_value (Chunk.sha256 row))) ?;
      check_chunk_rows upload a (expected_index + 1) rows
  end.

(** [unique_stored_artifacts]: a map from digest to the first artifact that
    has it, read in the order of its keys. *)
Definition digest_le (a b : PreparedArtifact) : Prop :=
  String.le (stored_digest (artifact a)) (stored_digest (artifact b)).
#[global] Instance digest_le_dec : RelDecision digest_le := fun a b => decide (String.le _ _).
Fixpoint first_by_digest (seen : list string) (l : list PreparedArtifact) : list PreparedArtifact :=
  match l with
  | [] => []
  | p :: l =>
      if bool_decide (stored_digest (artifact p) ∈ seen) then first_by_digest seen l
      else p :: first_by_digest (stored_digest (artifact p) :: seen) l
  end.
Definition unique_stored_artifacts (prepared : list PreparedArtifact) : list PreparedArtifact :=
  merge_sort digest_le (first_by_digest [] prepared).

Section Handlers.
Context `{Env} `{UuidLib} `{TimeLib} `{MimeLib} `{ShaLib} `{ZstdLib} `{JsonLib}.

Definition get_upload_manifest (upload_id : string) : M ApiError Manifest :=
  let! json := fetch_one db_err (fun d =>
    ManifestRow.canonical_json <$> select_one (fun r => eqs (ManifestRow.upload_id r) upload_id) (manifests d)) in
  lift (ok_or (manifest_of_json json) Api.internal).

Definition accepted_chunk_layout (upload_id : string) (a : UploadArtifact.row) (upload : Upload.row)
  : M ApiError (list Chunk.row) :=
  let! rows := query db_err (rows_of_chunks upload_id (UploadArtifact.artifact_index a)) in
  let! expected_count := lift (ok_or (i64_to_u64 (UploadArtifact.chunk_count a)) Api.internal) in
  refuse negb (Z.of_nat (length rows) =? expected_count)
    with Api.conflict "artifact_incomplete" "all negotiated chunks must be accepted before completion";
  let! _ := lift (check_chunk_rows upload a 0 rows) in
  ret rows.

(* ------------------------------------------------------------------ *)
(** ** Assembling and verifying *)

(** The reads of one chunk file, copied to [destination]: the chunk's size, the
    artifact's, and the bytes each hasher has been fed. *)
Fixpoint copy_reads (reads : list bytes) (ends_cleanly : bool) (destination : path)
    (expected_length declared : Z) (chunk_size artifact_size : Z) (chunk_hashed hashed : bytes)
  : M ApiError (Z * Z * bytes * bytes) :=
  match reads with
  | [] => if ends_cleanly then ret (chunk_size, artifact_size, chunk_hashed, hashed)
          else throw Api.storage
  | data :: reads =>
      let! chunk_size := lift (ok_or (checked_add_u64 chunk_size (byte_len data))
                                 (Api.invalid "chunk size is invalid")) in
      refuse expected_length <? chunk_size with chunk_checksum_error;
      let! artifact_size := lift (ok_or (checked_add_u64 artifact_size (byte_len data))
                                    (Api.invalid "artifact size is invalid")) in
      refuse declared <? artifact_size
        with stored_mismatch "assembled artifact exceeds its declared stored size";
      write_all Api.storage destination data &;
      copy_reads reads ends_cleanly destination expected_length declared chunk_size artifact_size
        (chunk_hashed ++ data) (hashed ++ data)
  end.

Fixpoint copy_chunks (upload_id : string) (artifact_index : Z) (declared : Z) (destination : path)
    (chunks : list Chunk.row) (artifact_size : Z) (hashed : bytes) : M ApiError (Z * bytes) :=
  match chunks with
  | [] => ret (artifact_size, hashed)
  | chunk :: chunks =>
      let! expected_length := lift (ok_or (i64_to_u64 (Chunk.byte_length chunk)) Api.internal) in
      let! chunk_index := lift (ok_or (i64_to_u64 (Chunk.chunk_index chunk)) Api.internal) in
      let chunk_path := artifact_chunk_path upload_id artifact_index chunk_index in
      let! regular := is_regular_file chunk_path in
      refuse negb regular with chunk_missing;
      let! r := read_file chunk_missing chunk_path in
      let! copied := copy_reads r.1 r.2 destination expected_length declared 0 artifact_size [] hashed in
      let '(chunk_size, artifact_size, chunk_hashed, hashed) := copied in
      refuse negb (chunk_size =? expected_length) || negb (eqs (sha256_hex chunk_hashed) (Chunk.sha256 chunk))
        with chunk_checksum_error;
      copy_chunks upload_id artifact_index declared destination chunks artifact_size hashed
  end.

Definition assemble_artifact (upload : Upload.row) (row : UploadArtifact.row) (a : Artifact)
    (destination : path) : M ApiError unit :=
  let! chunks := accepted_chunk_layout (Upload.id upload) row upload in
  create_dir_all Api.storage (upload_dir (Upload.id upload)) &;
  create_new Api.storage destination &;
  let! artifact_index := lift (ok_or (to_u32 (UploadArtifact.artifact_index row)) Api.internal) in
  let! copied := copy_chunks (Upload.id upload) artifact_index (stored_size_bytes a) destination
                   chunks 0 [] in
  sync Api.storage &;
  sync Api.storage &;
  if (copied.1 =? stored_size_bytes a) && eqs (sha256_hex copied.2) (stored_digest a) then ret tt
  else throw (stored_mismatch "assembled artifact stored size or checksum does not match the manifest").

(** The original bytes of a stored file: itself, or its decoder's output. *)
Definition original_reader (c : Compression) (r : list bytes * bool)
  : res ApiError ((list bytes * bool) * ApiError) :=
  match c with
  | Identity => Ok (r, Api.storage)
  | Zstd =>
      if zstd_open (concat r.1)
      then let decoded := zstd_reads (concat r.1) in
           Ok ((decoded.1, decoded.2 && r.2), zstd_decode_error)
      else Err (Api.invalid "artifact is not a valid zstd stream")
  end.

Definition verify_artifact (p : path) (a : Artifact) : M ApiError unit :=
  let! regular := is_regular_file p in
  refuse negb regular with Api.storage;
  let! r := read_file Api.storage p in
  let! stored := lift (hash_reader r (stored_size_bytes a) Api.storage) in
  refuse negb (stored.1 =? stored_size_bytes a) || negb (eqs stored.2 (stored_digest a))
    with stored_mismatch "artifact stored size or checksum does not match the manifest";
  let! r := read_file Api.storage p in
  let! original := lift (original_reader (compression a) r) in
  let! measured := lift (hash_reader original.1 (original_size_bytes a) original.2) in
  refuse negb (measured.1 =? original_size_bytes a)
         || negb (eqs measured.2 (digest_storage_value (original_sha256 a)))
    with Api.new UNPROCESSABLE_ENTITY "artifact_original_checksum_mismatch"
           "artifact original size or checksum does not match the manifest";
  ret tt.

Definition cleanup_prepared (prepared : list PreparedArtifact) : M ApiError unit :=
  for_each prepared (fun p => attempt (remove_file Api.storage (assembled_path p)) &; ret tt).

Fixpoint prepare_loop (upload : Upload.row) (l : list (Artifact * UploadArtifact.row))
    (prepared : list PreparedArtifact) : M ApiError (list PreparedArtifact) :=
  match l with
  | [] => ret prepared
  | (a, row) :: l =>
      let! index := lift (ok_or (to_u32 (UploadArtifact.artifact_index row)) Api.internal) in
      let! uuid := new_uuid in
      let p := assembled_artifact_path (Upload.id upload) index uuid in
      let! result := attempt (assemble_artifact upload row a p &; verify_artifact p a) in
      match result with
      | Err error =>
          attempt (remove_file Api.storage p) &; cleanup_prepared prepared &; throw error
      | Ok _ => prepare_loop upload l (prepared ++ [mkPrepared index a p])
      end
  end.
Definition prepare_artifacts (upload : Upload.row) (m : Manifest) (rows : list UploadArtifact.row)
  : M ApiError (list PreparedArtifact) :=
  prepare_loop upload (zip (artifacts m) rows) [].

(* ------------------------------------------------------------------ *)
(** ** Blobs *)

(** [UNIQUE (owner_namespace, stored_sha256)] *)
Definition blob_key (owner digest : string) (r : Blob.row) : bool :=
  eqs (Blob.owner_namespace r) owner && eqs (Blob.stored_sha256 r) digest.

Fixpoint check_representations (st : AppState) (l : list PreparedArtifact) : M ApiError unit :=
  match l with
  | [] => ret tt
  | p :: l =>
      let a := artifact p in
      let! expected_size := lift (to_sqlite_i64 (stored_size_bytes a)) in
      let! existing := query db_err (fun d =>
        select_one (blob_key (owner_namespace st) (stored_digest a)) (blobs d)) in
      refuse match existing with
             | Some b => negb (Blob.stored_size_bytes b =? expected_size)
                         || negb (eqs (Blob.compression b) (as_str (compression a)))
             | None => false
             end with blob_integrity_conflict;
      check_representations st l
  end.
Definition ensure_blob_representations_compatible (st : AppState) (prepared : list PreparedArtifact)
  : M ApiError unit := check_representations st (unique_stored_artifacts prepared).

(** [promote_blob]: [true] when this call created the file. *)
Definition promote_blob (source : path) (stored_sha256 : string) (stored_size : Z) : M ApiError bool :=
  let destination := blob_path (digest_storage_value stored_sha256) in
  create_dir_all Api.storage (removelast destination) &;
  let! linked := hard_link source destination in
  match linked with
  | Linked => sync Api.storage &; ret true
  | AlreadyExists => verify_stored_file destination stored_size stored_sha256 &; ret false
  | LinkFailed => throw Api.storage
  end.

Definition cleanup_promotion (st : AppState) (p : BlobPromotion) : M ApiError unit :=
  if created p then
    let! referenced := query db_err (fun d =>
      select_one (blob_key (owner_namespace st) (bp_stored_sha256 p)) (blobs d)) in
    if bool_decide (referenced = None)
    then remove_file Api.storage (blob_path (bp_stored_sha256 p))
    else ret tt
  else ret tt.
Definition cleanup_uncommitted_promotions (st : AppState) (promotions : list BlobPromotion)
  : M ApiError unit := for_each promotions (cleanup_promotion st).

Fixpoint promote_loop (st : AppState) (l : list PreparedArtifact) (promotions : list BlobPromotion)
  : M ApiError (list BlobPromotion) :=
  match l with
  | [] => ret promotions
  | p :: l =>
      let a := artifact p in
      let! promotion := attempt (promote_blob (assembled_path p) (stored_sha256 a) (stored_size_bytes a)) in
      match promotion with
      | Ok fresh =>
          promote_loop st l (promotions ++ [mkPromotion (stored_digest a) (stored_size_bytes a) fresh])
      | Err error =>
          attempt (cleanup_uncommitted_promotions st
                     (promotions ++ [mkPromotion (stored_digest a) (stored_size_bytes a) true])) &;
          throw error
      end
  end.
Definition promote_unique_blobs (st : AppState) (unique : list PreparedArtifact)
  : M ApiError (list BlobPromotion) := promote_loop st unique [].

Definition get_or_create_blob (st : AppState) (a : Artifact) (now : string) : M ApiError string :=
  let! blob_id := new_uuid in
  let! size := lift (to_sqlite_i64 (stored_size_bytes a)) in
  let row := Blob.mk blob_id (owner_namespace st) (stored_digest a) size (as_str (compression a))
               now None None None in
  let! _ := execute db_err (fun d =>
    ra ← insert_or_ignore (blob_key (owner_namespace st) (stored_digest a))
           (fun r => eqs (Blob.id r) blob_id) row (blobs d);
    Some (with_blobs (fun _ => ra.1) d, ra.2)) in
  let! row := fetch_one db_err (fun d =>
    select_one (blob_key (owner_namespace st) (stored_digest a)) (blobs d)) in
  refuse negb (Blob.stored_size_bytes row =? size) || negb (eqs (Blob.compression row) (as_str (compression a)))
    with blob_integrity_conflict;
  let! _ := execute db_err (fun d =>
    Some (with_blobs (update (fun r => eqs (Blob.id r) (Blob.id row)) (Blob.set_orphan None None None)) d, tt)) in
  ret (Blob.id row).

(** The map from digest to blob id built by [record_completed_upload]. *)
Fixpoint collect_blob_ids (st : AppState) (now : string) (prepared : list PreparedArtifact)
    (blob_ids : gmap string string) : M ApiError (gmap string string) :=
  match prepared with
  | [] => ret blob_ids
  | p :: prepared =>
      match blob_ids !! stored_digest (artifact p) with
      | Some _ => collect_blob_ids st now prepared blob_ids
      | None =>
          let! blob_id := get_or_create_blob st (artifact p) now in
          collect_blob_ids st now prepared (<[stored_digest (artifact p) := blob_id]> blob_ids)
      end
  end.

(* ------------------------------------------------------------------ *)
(** ** Provenance and the visible snapshot *)

Definition find_snapshot_by_fingerprint (session_id fingerprint : string) : M ApiError (option string) :=
  query db_err (fun d =>
    Snapshot.id <$> select_one (fun r => eqs (Snapshot.session_id r) session_id
                                         && eqs (Snapshot.fingerprint_sha256 r) fingerprint && live r)
                      (snapshots d)).

(** [excluded.(completed_at_seq, snapshot_id) > session_latest_context.(...)] *)
Definition newer_context (excluded r : LatestContext.row) : bool :=
  (LatestContext.completed_at_seq r <? LatestContext.completed_at_seq excluded)
  || ((LatestContext.completed_at_seq excluded =? LatestContext.completed_at_seq r)
      && (bool_decide (String.le (LatestContext.snapshot_id r) (LatestContext.snapshot_id excluded))
          && negb (eqs (LatestContext.snapshot_id r) (LatestContext.snapshot_id excluded)))).

(** UNIQUE(snapshot_id) holds of the row that is inserted and of the one that
    is updated. *)
Definition upsert_session_latest_context (session_id snapshot_id completed_at : string) (m : Manifest)
  : M ApiError unit :=
  let! seq := lift (ok_or (sort_key_from_rfc3339 completed_at) Api.internal) in
  let row := LatestContext.mk session_id snapshot_id completed_at seq (source_agent (session m))
               (project (capture m)) (repository (capture m)) (branch (capture m))
               (source_agent_version (capture m)) (artifact_set_version (capture m)) in
  let own r := eqs (LatestContext.session_id r) session_id in
  let same_snapshot r := eqs (LatestContext.snapshot_id r) snapshot_id in
  execute db_err (fun d =>
    if existsb (fun r => own r && newer_context row r) (session_latest_context d)
       && existsb (fun r => negb (own r) && same_snapshot r) (session_latest_context d)
    then None else
    t ← insert_or_update own same_snapshot
          (fun r => if newer_context row r then row else r) row (session_latest_context d);
    Some (with_session_latest_context (fun _ => t) d, tt)).

Definition maintain_session_latest_context (session_id snapshot_id : string) (m : Manifest)
  : M ApiError unit :=
  let! completed_at := query db_err (fun d =>
    Snapshot.completed_at <$> live_snapshot_by_id snapshot_id d) in
  let! completed_at := lift (ok_or completed_at Api.internal) in
  upsert_session_latest_context session_id snapshot_id completed_at m.

Definition insert_capture_provenance (st : AppState) (upload : Upload.row) (m : Manifest)
    (manifest_id snapshot_id completed_at : string) : M ApiError unit :=
  let! seq := lift (ok_or (sort_key_from_rfc3339 completed_at) Api.internal) in
  let! metadata_json := lift (ok_or (metadata_to_json (source_metadata (capture m))) Api.internal) in
  let! uuid := new_uuid in
  let c := capture m in
  let row := CaptureRow.mk uuid (owner_namespace st) (Upload.capture_id upload)
               (Upload.session_id upload) (Upload.client_id upload) (Upload.id upload) manifest_id
               snapshot_id (captured_at c) (source_cursor c) (source_state_hash c) metadata_json
               (project c) (repository c) (branch c) (source_agent_version c)
               (artifact_set_version c) (munshi_version c) (Upload.created_at upload) completed_at seq in
  let! affected := execute db_err (fun d =>
    ra ← insert_or_ignore (fun r => eqs (CaptureRow.upload_id r) (Upload.id upload))
           (fun r => eqs (CaptureRow.id r) uuid
                     || (eqs (CaptureRow.owner_namespace r) (owner_namespace st)
                         && eqs (CaptureRow.client_id r) (Upload.client_id upload)
                         && eqs (CaptureRow.capture_id r) (Upload.capture_id upload)))
           row (captures d);
    Some (with_captures (fun _ => ra.1) d, ra.2)) in
  if affected =? 1 then maintain_session_latest_context (Upload.session_id upload) snapshot_id m
  else
    let! existing := query db_err (fun d =>
      select_one (fun r => eqs (CaptureRow.upload_id r) (Upload.id upload)) (captures d)) in
    if match existing with
       | Some r => eqs (CaptureRow.upload_id r) (Upload.id upload) && eqs (CaptureRow.snapshot_id r) snapshot_id
       | None => false
       end
    then maintain_session_latest_context (Upload.session_id upload) snapshot_id m
    else throw (Api.conflict "capture_provenance_conflict"
                  "capture provenance conflicts with an existing completed capture").

Definition upload_state_conflict : ApiError :=
  Api.conflict "upload_state_conflict" "upload state changed while completion was requested".

(** [UPDATE uploads SET status = 'completed', ... WHERE id = ?  AND status IN (...)] *)
Definition complete_rows (u snapshot_id now : string) (transfer persisted : Z) (d : Db) : Db * Z :=
  let open_row r := of_upload u r && status_open (Upload.status r) in
  (with_uploads (update open_row (Upload.set_completed snapshot_id now transfer persisted)) d,
   Z.of_nat (length (select open_row (uploads d)))).

(** The race row read when no open upload was updated. *)
Definition completed_with (u snapshot_id : string) (d : Db) : bool :=
  match select_one (of_upload u) (uploads d) with
  | Some r => eqs (Upload.status r) STATUS_COMPLETED && bool_decide (Upload.snapshot_id r = Some snapshot_id)
  | None => false
  end.

Definition manifest_id_of (u : string) (d : Db) : option string :=
  ManifestRow.id <$> select_one (fun r => eqs (ManifestRow.upload_id r) u) (manifests d).

Definition finalize_existing_transaction (st : AppState) (upload : Upload.row) (m : Manifest)
    (snapshot_id now : string) (transfer_bytes : Z) : M ApiError (TxEnd (res ApiError unit)) :=
  let! live_snapshot := query db_err (live_snapshot_by_id snapshot_id) in
  match live_snapshot with
  | None =>
      ret (Rollback (Err (Api.conflict "snapshot_deleted"
             "snapshot was deleted before capture provenance could be recorded")))
  | Some _ =>
      let! transfer := lift (to_sqlite_i64 transfer_bytes) in
      let! updated := execute classify_database_error (fun d =>
        Some (complete_rows (Upload.id upload) snapshot_id now transfer 0 d)) in
      if updated =? 1 then
        let! manifest_id := fetch_one db_err (manifest_id_of (Upload.id upload)) in
        insert_capture_provenance st upload m manifest_id snapshot_id now &;
        ret (Commit (Ok tt))
      else
        let! same := query db_err (completed_with (Upload.id upload) snapshot_id) in
        ret (Commit (if (same : bool) then Ok tt else Err upload_state_conflict))
  end.
Definition finalize_upload_for_existing_snapshot (st : AppState) (upload : Upload.row) (m : Manifest)
    (snapshot_id : string) (transfer_bytes : Z) : M ApiError unit :=
  let! now := now_rfc3339 in
  let! outcome := transaction classify_database_error classify_database_error
    (finalize_existing_transaction st upload m snapshot_id now transfer_bytes) in
  lift outcome.

Fixpoint insert_artifacts (snapshot_id now : string) (now_seq : Z) (blob_ids : gmap string string)
    (prepared : list PreparedArtifact) : M ApiError unit :=
  match prepared with
  | [] => ret tt
  | p :: prepared =>
      let a := artifact p in
      let! blob_id := lift (ok_or (blob_ids !! stored_digest a) Api.internal) in
      let! uuid := new_uuid in
      let! original := lift (to_sqlite_i64 (original_size_bytes a)) in
      let row := ArtifactRow.mk uuid snapshot_id blob_id (logical_path a) (media_type a) original
                   (digest_storage_value (original_sha256 a)) now now_seq (artifact_index p) in
      let! _ := execute db_err (fun d =>
        t ← insert_row (fun r => eqs (ArtifactRow.id r) uuid
                                 || (eqs (ArtifactRow.snapshot_id r) snapshot_id
                                     && (eqs (ArtifactRow.logical_path r) (logical_path a)
                                         || (ArtifactRow.artifact_index r =? artifact_index p))))
              row (artifact_rows d);
        Some (with_artifact_rows (fun _ => t) d, tt)) in
      insert_artifacts snapshot_id now now_seq blob_ids prepared
  end.

Definition finalize_winning_snapshot (st : AppState) (upload : Upload.row) (m : Manifest)
    (manifest_id snapshot_id : string) (prepared : list PreparedArtifact)
    (blob_ids : gmap string string) (now : string) (now_seq transfer_bytes newly_persisted_bytes : Z)
  : M ApiError unit :=
  insert_artifacts snapshot_id now now_seq blob_ids prepared &;
  let! transfer := lift (to_sqlite_i64 transfer_bytes) in
  let! persisted := lift (to_sqlite_i64 newly_persisted_bytes) in
  let! updated := execute classify_database_error (fun d =>
    Some (complete_rows (Upload.id upload) snapshot_id now transfer persisted d)) in
  if updated =? 1 then insert_capture_provenance st upload m manifest_id snapshot_id now
  else
    let! same := query db_err (completed_with (Upload.id upload) snapshot_id) in
    if (same : bool) then ret tt else throw upload_state_conflict.

(** [ORDER BY deleted_at_seq DESC, id DESC LIMIT 1] *)
Definition tombstone_ge (a b : Tombstone.row) : Prop :=
  Tombstone.deleted_at_seq b < Tombstone.deleted_at_seq a
  \/ (Tombstone.deleted_at_seq a = Tombstone.deleted_at_seq b
      /\ String.le (Tombstone.id b) (Tombstone.id a)).
#[global] Instance tombstone_ge_dec : RelDecision tombstone_ge.
Proof. intros a b. unfold tombstone_ge. apply _. Defined.
Definition prior_tombstone (session_id fingerprint : string) (d : Db) : option string :=
  Tombstone.id <$> head (merge_sort tombstone_ge
    (select (fun r => eqs (Tombstone.session_id r) session_id
                      && eqs (Tombstone.snapshot_fingerprint_sha256 r) fingerprint) (tombstones d))).

(** [INSERT INTO snapshots ... ON CONFLICT DO NOTHING]: any uniqueness
    constraint, the one on live fingerprints among them. *)
Definition insert_snapshot (row : Snapshot.row) (d : Db) : Db * Z :=
  let conflict r := eqs (Snapshot.id r) (Snapshot.id row)
                    || (live r && eqs (Snapshot.session_id r) (Snapshot.session_id row)
                        && eqs (Snapshot.fingerprint_sha256 r) (Snapshot.fingerprint_sha256 row)) in
  if existsb conflict (snapshots d) then (d, 0)
  else (with_snapshots (fun t => t ++ [row]) d, 1).

(** The transaction of [record_completed_upload]; [false] when another
    snapshot holds the fingerprint and it rolled back. *)
Definition record_transaction (st : AppState) (upload : Upload.row) (m : Manifest)
    (prepared : list PreparedArtifact) (fingerprint now : string) (now_seq : Z)
    (transfer_bytes newly_persisted_bytes : Z) : M ApiError (TxEnd bool) :=
  let! blob_ids := collect_blob_ids st now prepared ∅ in
  let! manifest_id := fetch_one db_err (manifest_id_of (Upload.id upload)) in
  let! prior := query db_err (prior_tombstone (Upload.session_id upload) fingerprint) in
  let! totals := lift (manifest_totals m) in
  let! candidate := new_uuid in
  let! count := lift (to_sqlite_i64 (Z.of_nat (length prepared))) in
  let! original := lift (to_sqlite_i64 totals.1) in
  let! stored := lift (to_sqlite_i64 totals.2) in
  let row := Snapshot.mk candidate (owner_namespace st) (Upload.session_id upload) manifest_id
               fingerprint now now_seq count original stored SNAPSHOT_FINGERPRINT_VERSION None prior in
  let! affected := execute db_err (fun d => Some (insert_snapshot row d)) in
  if affected =? 0 then ret (Rollback false)
  else
    finalize_winning_snapshot st upload m manifest_id candidate prepared blob_ids now now_seq
      transfer_bytes newly_persisted_bytes &;
    let! _ :=
      match prior with
      | None => ret tt
      | Some tombstone_id =>
          execute db_err (fun d =>
            Some (with_tombstones
                    (update (fun r => eqs (Tombstone.id r) tombstone_id
                                      && bool_decide (Tombstone.rearchived_snapshot_id r = None))
                       (Tombstone.set_rearchived candidate)) d, tt))
      end in
    ret (Commit true).

Definition record_completed_upload (st : AppState) (upload : Upload.row) (m : Manifest)
    (prepared : list PreparedArtifact) (promotions : list BlobPromotion) (fingerprint : string)
    (transfer_bytes newly_persisted_bytes : Z) : M ApiError unit :=
  let! now := now_rfc3339 in
  let! now_seq := lift (ok_or (sort_key_from_rfc3339 now) Api.internal) in
  let! won := transaction classify_database_error classify_database_error
    (record_transaction st upload m prepared fingerprint now now_seq transfer_bytes newly_persisted_bytes) in
  if (won : bool) then ret tt
  else
    let! winner := fetch_one db_err (fun d =>
      Snapshot.id <$> select_one (fun r => eqs (Snapshot.session_id r) (Upload.session_id upload)
                                           && eqs (Snapshot.fingerprint_sha256 r) fingerprint && live r)
                        (snapshots d)) in
    cleanup_uncommitted_promotions st promotions &;
    finalize_upload_for_existing_snapshot st upload m winner transfer_bytes.

(** The sum over the promotions that created their file. *)
Fixpoint newly_persisted (promotions : list BlobPromotion) (total : Z) : res ApiError Z :=
  match promotions with
  | [] => Ok total
  | p :: promotions =>
      if created p then
        let? total := ok_or (checked_add_u64 total (bp_stored_size_bytes p)) Api.internal in
        newly_persisted promotions total
      else newly_persisted promotions total
  end.

(* ------------------------------------------------------------------ *)
(** ** [complete_upload] *)

(** A verified upload whose content is archived already: only its provenance
    is recorded. *)
Definition join_existing (st : AppState) (upload : Upload.row) (m : Manifest)
    (prepared : list PreparedArtifact) (snapshot_id : string) (transfer_bytes : Z)
  : M ApiError CompletionResponse :=
  cleanup_prepared prepared &;
  finalize_upload_for_existing_snapshot st upload m snapshot_id transfer_bytes &;
  attempt (remove_upload_dir Api.storage (Upload.id upload)) &;
  completion_for_upload st (Upload.id upload).

(** The path of new content: promote, commit, and clean up after an error. *)
Definition archive_new (st : AppState) (upload : Upload.row) (m : Manifest)
    (prepared unique : list PreparedArtifact) (fingerprint : string) (transfer_bytes : Z)
  : M ApiError CompletionResponse :=
  let! promoted := attempt (promote_unique_blobs st unique) in
  match promoted with
  | Err error => cleanup_prepared prepared &; throw error
  | Ok promotions =>
      let! persisted := lift (newly_persisted promotions 0) in
      let! completion := attempt (record_completed_upload st upload m prepared promotions
                                    fingerprint transfer_bytes persisted) in
      match completion with
      | Ok _ =>
          attempt (remove_upload_dir Api.storage (Upload.id upload)) &;
          completion_for_upload st (Upload.id upload)
      | Err error =>
          attempt (cleanup_uncommitted_promotions st promotions) &;
          cleanup_prepared prepared &; throw error
      end
  end.

(** From the point where every artifact has been assembled and verified. *)
Definition deduplicate (st : AppState) (upload : Upload.row) (m : Manifest)
    (prepared : list PreparedArtifact) (fingerprint : string) (transfer_bytes : Z)
  : M ApiError CompletionResponse :=
  let checked := attempt (ensure_blob_representations_compatible st prepared) in
  let find := find_snapshot_by_fingerprint (Upload.session_id upload) fingerprint in
  let! compatible := checked in
  match compatible with
  | Err error => cleanup_prepared prepared &; throw error
  | Ok _ =>
      let! fast := find in
      let! guarded := match fast with Some _ => find | None => ret None end in
      match guarded with
      | Some snapshot_id => join_existing st upload m prepared snapshot_id transfer_bytes
      | None =>
          let unique := unique_stored_artifacts prepared in
          let! compatible := checked in
          match compatible with
          | Err error => cleanup_prepared prepared &; throw error
          | Ok _ =>
              let! recheck := find in
              match recheck with
              | Some snapshot_id => join_existing st upload m prepared snapshot_id transfer_bytes
              | None => archive_new st upload m prepared unique fingerprint transfer_bytes
              end
          end
      end
  end.

Definition complete_upload (st : AppState) (upload_id : string) : M ApiError CompletionResponse :=
  let! upload_id := lift (parse_uuid upload_id "upload identifier is not a UUID") in
  let! upload := require_active_upload upload_id in
  if eqs (Upload.status upload) STATUS_COMPLETED then completion_for_upload st upload_id
  else
    let! m := get_upload_manifest upload_id in
    let! _ := lift (validate_current_manifest_limits st m) in
    let! rows := get_upload_artifacts upload_id in
    let! _ := lift (validate_upload_projection m rows upload) in
    let! prepared := prepare_artifacts upload m rows in
    let! totals := lift (manifest_totals m) in
    let! fingerprint := lift (snapshot_fingerprint m) in
    deduplicate st upload m prepared fingerprint totals.2.
End Handlers.
