(* ===== verification/Deletion.v ===== *)
(** Deleting snapshots and collecting blobs ([deletion.rs]): a confirmed
    delete leaves a tombstone and drops the artifact references in one
    transaction; a later pass removes the blobs nothing live refers to. *)
From stdpp Require Import prelude strings gmap sorting list.
From Stdlib Require Import ZArith Ascii Lia.
From Stdlib.Strings Require Import Byte.
From S2P Require Import Prelude Errors Contract Externals Validation Chunks Fingerprint Pagination.
From S2P Require Import Tables Store Storage Uploads Receipts.

Definition DELETE_CONFIRMATION_HEADER : string := "x-patwari-delete-confirmation".
Definition DELETE_CONFIRMATION_PREFIX : string := "delete-snapshot".
Definition MAX_DELETION_REASON_BYTES : Z := 512.
Definition TOMBSTONE_CURSOR_KIND : string := "tombstones".
Definition GC_BATCH_SIZE : nat := 256.

Definition require_admin_enabled (st : AppState) : res ApiError unit :=
  if admin_deletion_enabled st then Ok tt
  else Err (Api.forbidden "admin_deletion_disabled"
              "administrative deletion is disabled by server configuration").

Definition deletion_reason (request : option DeleteSnapshotRequest) : res ApiError (option string) :=
  match request ≫= ds_reason with
  | None => Ok None
  | Some reason =>
      reject trim_is_empty reason || (MAX_DELETION_REASON_BYTES <? str_len reason)
             || existsb is_ascii_control (chars reason)
        with Api.invalid "deletion reason is invalid";
      Ok (Some reason)
  end.

Definition expected_confirmation (snapshot_id fingerprint_sha256 : string) : string :=
  DELETE_CONFIRMATION_PREFIX +:+ ":" +:+ snapshot_id +:+ ":sha256:" +:+ fingerprint_sha256.

Definition confirm_snapshot_deletion (headers : HeaderMap) (body_confirmation : option string)
    (snapshot_id fingerprint_sha256 : string) : res ApiError unit :=
  let? header_confirmation :=
    match header_get headers DELETE_CONFIRMATION_HEADER with
    | None => Ok None
    | Some (HText s) => Ok (Some s)
    | Some HOpaque => Err (Api.invalid "deletion confirmation is invalid")
    end in
  reject match header_confirmation, body_confirmation with
         | Some header, Some body => negb (eqs header body)
         | _, _ => false
         end with Api.invalid "header and body deletion confirmations must match";
  let? confirmation :=
    ok_or (match header_confirmation with Some c => Some c | None => body_confirmation end)
      (Api.invalid "a snapshot-specific deletion confirmation is required") in
  reject negb (eqs confirmation (expected_confirmation snapshot_id fingerprint_sha256))
    with Api.conflict "deletion_confirmation_mismatch"
           "deletion confirmation does not match this snapshot fingerprint";
  Ok tt.

(** A snapshot with its manifest: the row the deletion queries read. *)
Definition snapshot_deletion_row (snapshot_id : string) (d : Db)
  : option (Snapshot.row * ManifestRow.row) :=
  s ← snapshot_by_id snapshot_id d;
  m ← manifest_by_id (Snapshot.manifest_id s) d;
  Some (s, m).

(** [artifact JOIN snapshot ON snapshot.id = artifact.snapshot_id WHERE
    snapshot.deleted_at IS NULL] *)
Definition live_reference (d : Db) (a : ArtifactRow.row) : bool :=
  bool_decide (is_Some (live_snapshot_by_id (ArtifactRow.snapshot_id a) d)).
Definition has_live_reference (blob_id : string) (d : Db) : bool :=
  existsb (fun a => eqs (ArtifactRow.blob_id a) blob_id && live_reference d a) (artifact_rows d).

(** [artifact_blobs]: the distinct blobs of a live snapshot. *)
Definition artifact_blobs (snapshot_id : string) (d : Db) : list Blob.row :=
  if bool_decide (is_Some (live_snapshot_by_id snapshot_id d))
  then select (fun b => existsb (fun a => eqs (ArtifactRow.snapshot_id a) snapshot_id
                                          && eqs (ArtifactRow.blob_id a) (Blob.id b))
                          (artifact_rows d)) (blobs d)
  else [].

(** [schedule_or_clear_blob_candidate] *)
Definition schedule_blob (blob_id orphaned_at eligible_after : string) (eligible_after_seq : Z)
    (d : Db) : Db :=
  with_blobs
    (update (fun b => eqs (Blob.id b) blob_id)
       (fun b => if has_live_reference (Blob.id b) d then Blob.set_orphan None None None b
                 else Blob.set_orphan (Some orphaned_at) (Some eligible_after)
                        (Some eligible_after_seq) b)) d.

(** [ORDER BY snapshot.completed_at_seq DESC, snapshot.id DESC, capture.id ASC] *)
Definition context_ge (x y : Snapshot.row * CaptureRow.row) : Prop :=
  Snapshot.completed_at_seq y.1 < Snapshot.completed_at_seq x.1
  \/ (Snapshot.completed_at_seq x.1 = Snapshot.completed_at_seq y.1
      /\ ((String.le (Snapshot.id y.1) (Snapshot.id x.1) /\ Snapshot.id x.1 <> Snapshot.id y.1)
          \/ (Snapshot.id x.1 = Snapshot.id y.1
              /\ String.le (CaptureRow.id x.2) (CaptureRow.id y.2)))).
#[global] Instance context_ge_dec : RelDecision context_ge.
Proof. intros x y. unfold context_ge. apply _. Defined.

Definition latest_context (session_id : string) (d : Db) : option LatestContext.row :=
  session ← select_one (fun r => eqs (Session.id r) session_id) (sessions d);
  sc ← head (merge_sort context_ge
         (s ← select (fun s => eqs (Snapshot.session_id s) session_id && live s) (snapshots d);
          c ← select (fun c => eqs (CaptureRow.snapshot_id c) (Snapshot.id s)) (captures d);
          [(s, c)]));
  let c := sc.2 in
  Some (LatestContext.mk session_id (Snapshot.id sc.1) (Snapshot.completed_at sc.1)
          (Snapshot.completed_at_seq sc.1) (Session.source_agent session) (CaptureRow.project c)
          (CaptureRow.repository c) (CaptureRow.branch c) (CaptureRow.source_agent_version c)
          (CaptureRow.artifact_set_version c)).

Section Handlers.
Context `{Env} `{UuidLib} `{TimeLib} `{ShaLib} `{CursorCodec}.

(** The JSON of [("tombstones", ())]. *)
Context (tombstone_filters_json : option bytes).

Definition rebuild_session_latest_context (session_id : string) : M ApiError unit :=
  let! _ := execute db_err (fun d =>
    Some (with_session_latest_context (delete_where (fun r => eqs (LatestContext.session_id r) session_id)) d, tt)) in
  execute db_err (fun d =>
    match latest_context session_id d with
    | None => Some (d, tt)
    | Some row =>
        t ← insert_row (fun r => eqs (LatestContext.session_id r) session_id
                                 || eqs (LatestContext.snapshot_id r) (LatestContext.snapshot_id row))
              row (session_latest_context d);
        Some (with_session_latest_context (fun _ => t) d, tt)
    end).

Definition tombstone_row (snapshot_id : string) (d : Db)
  : option (Tombstone.row * DeletionAudit.row * Snapshot.row * Z) :=
  t ← select_one (fun r => eqs (Tombstone.snapshot_id r) snapshot_id) (tombstones d);
  audit ← select_one (fun r => eqs (DeletionAudit.tombstone_id r) (Tombstone.id t)) (deletion_audits d);
  s ← snapshot_by_id (Tombstone.snapshot_id t) d;
  Some (t, audit, s, Z.of_nat (length (select (fun c => eqs (CaptureRow.snapshot_id c) (Tombstone.snapshot_id t))
                                         (captures d)))).
Definition tombstone_response (st : AppState) (snapshot_id : string) : M ApiError TombstoneResponse :=
  let! row := query db_err (tombstone_row snapshot_id) in
  let! row := lift (ok_or row (Api.not_found "tombstone_not_found" "tombstone was not found")) in
  let '(t, audit, s, captures_) := row in
  let! capture_count := lift (ok_or (i64_to_u64 captures_) Api.internal) in
  let! artifact_count := lift (ok_or (to_u32 (Snapshot.artifact_count s)) Api.internal) in
  let! original := lift (ok_or (i64_to_u64 (Snapshot.total_original_size_bytes s)) Api.internal) in
  let! stored := lift (ok_or (i64_to_u64 (Snapshot.total_stored_size_bytes s)) Api.internal) in
  ret {| t_tombstone_id := Tombstone.id t;
         t_deletion_audit_id := DeletionAudit.id audit;
         t_owner_namespace := Tombstone.owner_namespace t;
         t_session_id := Tombstone.session_id t;
         t_snapshot_id := Tombstone.snapshot_id t;
         t_snapshot_fingerprint := digest_document_value (Tombstone.snapshot_fingerprint_sha256 t);
         t_manifest_sha256 := digest_document_value (Tombstone.manifest_sha256 t);
         t_snapshot_completed_at := Tombstone.snapshot_completed_at t;
         t_deleted_at := Tombstone.deleted_at t;
         t_deleted_at_sort_key := Tombstone.deleted_at_seq t;
         t_reason := Tombstone.reason t;
         t_capture_count := capture_count;
         t_rearchived_snapshot_id := Tombstone.rearchived_snapshot_id t;
         t_rearchived_snapshot_url :=
           (fun id => "/api/v1/snapshots/" +:+ id) <$> Tombstone.rearchived_snapshot_id t;
         t_historical_receipt :=
           {| receipt_version := 2;
              r_archive_instance_id := archive_instance_id st;
              r_owner_namespace := Tombstone.owner_namespace t;
              r_snapshot_id := Tombstone.snapshot_id t;
              r_session_id := Tombstone.session_id t;
              r_snapshot_fingerprint := digest_document_value (Tombstone.snapshot_fingerprint_sha256 t);
              r_manifest_sha256 := digest_document_value (Tombstone.manifest_sha256 t);
              r_artifact_count := artifact_count;
              r_total_original_bytes := original;
              r_total_stored_bytes := stored;
              r_completed_at := Tombstone.snapshot_completed_at t |} |}.

(* ------------------------------------------------------------------ *)
(** ** [delete_snapshot] *)

(** The statements of the deletion transaction, once the snapshot was re-read. *)
Definition insert_tombstone (row : Tombstone.row) (d : Db) : option (Db * unit) :=
  t ← insert_row (fun r => eqs (Tombstone.id r) (Tombstone.id row)
                           || eqs (Tombstone.snapshot_id r) (Tombstone.snapshot_id row))
        row (tombstones d);
  Some (with_tombstones (fun _ => t) d, tt).
Definition insert_deletion_audit (row : DeletionAudit.row) (d : Db) : option (Db * unit) :=
  t ← insert_row (fun r => eqs (DeletionAudit.id r) (DeletionAudit.id row)
                           || eqs (DeletionAudit.tombstone_id r) (DeletionAudit.tombstone_id row)
                           || eqs (DeletionAudit.snapshot_id r) (DeletionAudit.snapshot_id row))
        row (deletion_audits d);
  Some (with_deletion_audits (fun _ => t) d, tt).
(** [UPDATE snapshots SET deleted_at = ?1 WHERE id = ?2 AND deleted_at IS NULL] *)
Definition mark_deleted (snapshot_id deleted_at : string) (d : Db) : Db * Z :=
  let p r := eqs (Snapshot.id r) snapshot_id && live r in
  (with_snapshots (update p (Snapshot.set_deleted deleted_at)) d,
   Z.of_nat (length (select p (snapshots d)))).
Definition delete_artifacts (snapshot_id : string) (d : Db) : Db :=
  with_artifact_rows (delete_where (fun r => eqs (ArtifactRow.snapshot_id r) snapshot_id)) d.

Definition delete_transaction (snapshot_id : string) (reason : option string)
    (deleted_at : string) (deleted_at_seq : Z) (eligible_after : string) (eligible_after_seq : Z)
    (tombstone_id audit_id : string) : M ApiError (TxEnd unit) :=
  let! row := query db_err (snapshot_deletion_row snapshot_id) in
  let! sm := lift (ok_or row (Api.not_found "snapshot_not_found" "snapshot was not found")) in
  let '(live_row, m) := sm in
  if negb (live live_row) then ret (Commit tt)
  else
    let! artifacts := query db_err (artifact_blobs snapshot_id) in
    let! _ := execute db_err (insert_tombstone
      (Tombstone.mk tombstone_id (Snapshot.owner_namespace live_row) (Snapshot.session_id live_row)
         (Snapshot.id live_row) (Snapshot.fingerprint_sha256 live_row) (ManifestRow.sha256 m)
         (Snapshot.completed_at live_row) deleted_at deleted_at_seq reason None)) in
    let! _ := execute db_err (insert_deletion_audit
      (DeletionAudit.mk audit_id tombstone_id (Snapshot.owner_namespace live_row)
         (Snapshot.session_id live_row) (Snapshot.id live_row) (Snapshot.fingerprint_sha256 live_row)
         (ManifestRow.sha256 m) deleted_at deleted_at_seq reason)) in
    let! marked := execute db_err (fun d => Some (mark_deleted (Snapshot.id live_row) deleted_at d)) in
    refuse negb (marked =? 1)
      with Api.conflict "snapshot_deletion_contended" "snapshot state changed while deletion was requested";
    let! _ := execute db_err (fun d => Some (delete_artifacts (Snapshot.id live_row) d, tt)) in
    for_each artifacts (fun blob =>
      execute db_err (fun d =>
        Some (schedule_blob (Blob.id blob) deleted_at eligible_after eligible_after_seq d, tt))) &;
    rebuild_session_latest_context (Snapshot.session_id live_row) &;
    ret (Commit tt).

Definition delete_snapshot (st : AppState) (snapshot_id : string) (headers : HeaderMap)
    (payload : option DeleteSnapshotRequest) : M ApiError TombstoneResponse :=
  let! _ := lift (require_admin_enabled st) in
  let! snapshot_id := lift (parse_uuid snapshot_id "snapshot identifier is not a UUID") in
  let! reason := lift (deletion_reason payload) in
  let body_confirmation := payload ≫= confirmation in
  let! initial := query db_err (snapshot_deletion_row snapshot_id) in
  let! initial := lift (ok_or initial (Api.not_found "snapshot_not_found" "snapshot was not found")) in
  let! _ := lift (confirm_snapshot_deletion headers body_confirmation (Snapshot.id initial.1)
                    (Snapshot.fingerprint_sha256 initial.1)) in
  if negb (live initial.1) then tombstone_response st snapshot_id
  else
    let! current := query db_err (snapshot_deletion_row snapshot_id) in
    let! current := lift (ok_or current (Api.not_found "snapshot_not_found" "snapshot was not found")) in
    let! _ := lift (confirm_snapshot_deletion headers body_confirmation (Snapshot.id current.1)
                      (Snapshot.fingerprint_sha256 current.1)) in
    if negb (live current.1) then tombstone_response st snapshot_id
    else
      let! _ := query db_err (artifact_blobs snapshot_id) in
      let! t := now in
      let! deleted_at := lift (ok_or (format_rfc3339 t) Api.internal) in
      let eligible_at := expiration_time t (blob_gc_grace st) in
      let! eligible_after := lift (ok_or (format_rfc3339 eligible_at) Api.internal) in
      let! tombstone_id := new_uuid in
      let! audit_id := new_uuid in
      transaction db_err db_err
        (delete_transaction snapshot_id reason deleted_at (sort_key_from_timestamp t)
           eligible_after (sort_key_from_timestamp eligible_at) tombstone_id audit_id) &;
      tombstone_response st snapshot_id.

Definition get_tombstone (st : AppState) (snapshot_id : string) : M ApiError TombstoneResponse :=
  let! _ := lift (require_admin_enabled st) in
  let! snapshot_id := lift (parse_uuid snapshot_id "snapshot identifier is not a UUID") in
  tombstone_response st snapshot_id.

Fixpoint tombstone_responses (st : AppState) (rows : list Tombstone.row)
  : M ApiError (list TombstoneResponse) :=
  match rows with
  | [] => ret []
  | row :: rows =>
      let! item := tombstone_response st (Tombstone.snapshot_id row) in
      let! items := tombstone_responses st rows in
      ret (item :: items)
  end.
Definition tombstone_boundary (t : Tombstone.row) : SortBoundary :=
  {| sort_key := Tombstone.deleted_at_seq t; timestamp := Tombstone.deleted_at t; id := Tombstone.id t |}.
Definition list_tombstones (st : AppState) (limit : option Z) (cursor : option string)
  : M ApiError (PaginatedResponse TombstoneResponse) :=
  let! _ := lift (require_admin_enabled st) in
  let! fhash := lift (filter_hash_of tombstone_filters_json) in
  let! page := lift (parse_page limit cursor TOMBSTONE_CURSOR_KIND fhash) in
  let! rows := query db_err (fun d =>
    query_page (map (fun t => (t, tombstone_boundary t)) (tombstones d)) page) in
  let! truncated := lift (page_from_rows rows page TOMBSTONE_CURSOR_KIND fhash) in
  let! items_ := tombstone_responses st (items truncated) in
  ret {| items := items_; next_cursor := next_cursor truncated;
         page_high_watermark := page_high_watermark truncated |}.

(* ------------------------------------------------------------------ *)
(** ** Garbage collection of blobs *)

(** [eligible_after_seq IS NOT NULL AND eligible_after_seq <= now] *)
Definition gc_eligible (now_seq : Z) (b : Blob.row) : bool :=
  match Blob.eligible_after_seq b with
  | Some seq => seq <=? now_seq
  | None => false
  end.
(** [ORDER BY eligible_after_seq ASC, id ASC] *)
Definition gc_le (a b : Blob.row) : Prop :=
  default 0 (Blob.eligible_after_seq a) < default 0 (Blob.eligible_after_seq b)
  \/ (default 0 (Blob.eligible_after_seq a) = default 0 (Blob.eligible_after_seq b)
      /\ String.le (Blob.id a) (Blob.id b)).
#[global] Instance gc_le_dec : RelDecision gc_le.
Proof. intros a b. unfold gc_le. apply _. Defined.
Definition gc_candidates (now_seq : Z) (d : Db) : list Blob.row :=
  take GC_BATCH_SIZE (merge_sort gc_le (select (gc_eligible now_seq) (blobs d))).

(** [DELETE FROM blobs WHERE id = ?1 AND NOT EXISTS (...)], refused while an
    artifact row refers to the blob. *)
Definition delete_blob (blob_id : string) (d : Db) : option (Db * Z) :=
  let p b := eqs (Blob.id b) blob_id && negb (has_live_reference (Blob.id b) d) in
  if existsb (fun b => p b && existsb (fun a => eqs (ArtifactRow.blob_id a) (Blob.id b)) (artifact_rows d))
       (blobs d)
  then None
  else Some (with_blobs (delete_where p) d, Z.of_nat (length (select p (blobs d)))).

Definition gc_err (e : SqlxError) : MaintenanceError := Operation.
(** One candidate: 1 when its file and its row are gone. *)
Definition gc_transaction (now_seq : Z) (candidate : Blob.row) : M MaintenanceError (TxEnd Z) :=
  let! current := query gc_err (fun d =>
    select_one (fun b => eqs (Blob.id b) (Blob.id candidate) && gc_eligible now_seq b) (blobs d)) in
  match current with
  | None => ret (Commit 0)
  | Some b =>
      let! referenced := query gc_err (has_live_reference (Blob.id b)) in
      if (referenced : bool) then
        let! _ := execute gc_err (fun d =>
          Some (with_blobs (update (fun r => eqs (Blob.id r) (Blob.id b))
                              (Blob.set_orphan None None None)) d, tt)) in
        ret (Commit 0)
      else
        let! removed := execute gc_err (delete_blob (Blob.id b)) in
        if removed =? 1 then
          remove_file Operation (blob_path (Blob.stored_sha256 candidate)) &;
          ret (Commit 1)
        else ret (Commit 0)
  end.
Fixpoint gc_loop (now_seq : Z) (candidates : list Blob.row) (deleted : Z) : M MaintenanceError Z :=
  match candidates with
  | [] => ret deleted
  | candidate :: candidates =>
      let! removed := transaction gc_err gc_err (gc_transaction now_seq candidate) in
      let! deleted := lift (ok_or (to_u32 (deleted + removed)) Operation) in
      gc_loop now_seq candidates deleted
  end.
Definition collect_orphaned_blobs_at (now : OffsetDateTime) : M MaintenanceError BlobGcResponse :=
  let now_seq := sort_key_from_timestamp now in
  let! candidates := query gc_err (gc_candidates now_seq) in
  let! deleted := gc_loop now_seq candidates 0 in
  let! inspected := lift (ok_or (to_u32 (Z.of_nat (length candidates))) Operation) in
  ret {| inspected_blobs := inspected; deleted_blobs := deleted |}.
Definition run_blob_gc (st : AppState) : M ApiError BlobGcResponse :=
  let! _ := lift (require_admin_enabled st) in
  let! t := now in
  map_err (fun _ => Api.internal) (collect_orphaned_blobs_at t).
End Handlers.
