(* ===== verification/Recovery.v ===== *)
(** The recovery pass the server runs when it starts ([ingestion.rs],
    [recover_uploads]): rows of older schema versions are brought up to date,
    what a crash left half done is finished or thrown away, and whatever the
    metadata does not know is removed from the disk. *)
From stdpp Require Import prelude strings gmap sorting list.
From Stdlib Require Import ZArith Ascii Lia.
From Stdlib.Strings Require Import Byte.
From S2P Require Import Prelude Errors Contract Externals Validation Chunks Fingerprint Pagination.
From S2P Require Import Tables Store Storage Uploads Receipts Completion Deletion.

Definition LEGACY_EXPIRY_MARKER : string := "1970-01-01T00:00:00Z".
Definition maint_err (e : SqlxError) : MaintenanceError := Operation.

(* ------------------------------------------------------------------ *)
(** ** Projections of the manifest *)

(** [uploads u JOIN manifests m ON m.upload_id = u.id] *)
Definition uploads_with_manifests (p : Upload.row -> bool) (d : Db) : list (Upload.row * ManifestRow.row) :=
  u ← select p (uploads d);
  m ← select (fun m => eqs (ManifestRow.upload_id m) (Upload.id u)) (manifests d);
  [(u, m)].
(** [SELECT ... WHERE NOT EXISTS (SELECT 1 FROM upload_artifacts ...)] *)
Definition unprojected_uploads (d : Db) : list (Upload.row * ManifestRow.row) :=
  uploads_with_manifests (fun u => negb (existsb (artifact_of (Upload.id u)) (upload_artifacts d))) d.
(** [SELECT ... WHERE u.status IN (...) AND u.expires_at = ?1] *)
Definition legacy_uploads (d : Db) : list (Upload.row * ManifestRow.row) :=
  uploads_with_manifests (fun u => status_open (Upload.status u) && eqs (Upload.expires_at u) LEGACY_EXPIRY_MARKER) d.

Section Recovery.
Context `{Env} `{UuidLib} `{TimeLib} `{ShaLib} `{JsonLib}.
Context (st : AppState).

(** Any failure of a call becomes [MaintenanceError::Operation]. *)
Definition op {E A} (m : M E A) : M MaintenanceError A := map_err (fun _ => Operation) m.
Definition op_some {A} (o : option A) : M MaintenanceError A := lift (ok_or o Operation).

(** The loop of [upgrade_upload_artifact_rows] over artifacts and computed counts. *)
Fixpoint project_artifacts (u : string) (single : bool) (recorded : Z) (index : Z)
    (arts : list (Artifact * Z)) : M MaintenanceError unit :=
  match arts with
  | [] => ret tt
  | (a, computed) :: arts =>
      let! count := if single && (0 <? recorded) then op_some (i64_to_u64 recorded) else ret computed in
      let! index32 := op_some (to_u32 index) in
      op (insert_upload_artifact u index32 a count) &;
      project_artifacts u single recorded (index + 1) arts
  end.
Definition upgrade_upload_artifact_row (row : Upload.row * ManifestRow.row) : M MaintenanceError unit :=
  let! m := op_some (manifest_of_json (ManifestRow.canonical_json row.2)) in
  refuse bool_decide (artifacts m = []) with Operation;
  let! chunk_size := op_some (i64_to_u64 (Upload.chunk_size_bytes row.1)) in
  let! layout := op (lift (upload_layout m chunk_size)) in
  let recorded := Upload.chunk_count row.1 in
  let u := Upload.id row.1 in
  transaction maint_err maint_err
    (project_artifacts u (bool_decide (length (artifacts m) = 1%nat)) recorded 0
       (zip (artifacts m) (chunk_counts layout)) &;
     let! first := op_some (head (artifacts m)) in
     let! first_count := if 0 <? recorded then ret recorded
                         else let! c := op_some (head (chunk_counts layout)) in op_some (u64_to_i64 c) in
     let! count := op_some (u64_to_i64 (Z.of_nat (length (artifacts m)))) in
     let! original := op_some (u64_to_i64 (total_original_bytes layout)) in
     let! stored := op_some (u64_to_i64 (total_stored_bytes layout)) in
     let! first_original := op_some (u64_to_i64 (original_size_bytes first)) in
     let! first_stored := op_some (u64_to_i64 (stored_size_bytes first)) in
     execute maint_err (fun d =>
       Some (with_uploads (update (of_upload u)
               (Upload.set_projection count original stored first_original first_stored first_count)) d, tt)) &;
     ret (Commit tt)).
Definition upgrade_upload_artifact_rows : M MaintenanceError unit :=
  let! rows := query maint_err unprojected_uploads in
  for_each rows upgrade_upload_artifact_row.

(* ------------------------------------------------------------------ *)
(** ** Uploads of the single-artifact schema *)

(** The temporary file of the old layout. *)
Definition legacy_source (u : string) : path := upload_dir u ++ ["artifact"%string].

Definition migrate_legacy_file (u : string) (a : Artifact) (source : path) : M MaintenanceError bool :=
  let stored_size := stored_size_bytes a in
  if stored_size =? 0 then ret false
  else
    let! there := try_exists Operation source in
    if negb there then ret false
    else
      let! verified := attempt (verify_stored_file source stored_size (stored_sha256 a)) in
      if negb (is_ok verified) then ret false
      else
        ensure_chunk_dir Operation u 0 &;
        let destination := artifact_chunk_path u 0 0 in
        let! linked := hard_link source destination in
        match linked with
        | Linked => sync Operation &; ret true
        | AlreadyExists =>
            let! verified := attempt (verify_stored_file destination stored_size (stored_sha256 a)) in
            ret (is_ok verified)
        | LinkFailed => throw Operation
        end.

(** [DELETE FROM artifacts] of snapshots that are deleted already. *)
Definition delete_dead_artifacts (d : Db) : Db :=
  with_artifact_rows (delete_where (fun a =>
    existsb (fun s => eqs (Snapshot.id s) (ArtifactRow.snapshot_id a) && negb (live s)) (snapshots d))) d.

Definition upgrade_legacy_upload (now expires_at : string) (row : Upload.row * ManifestRow.row)
  : M MaintenanceError unit :=
  let u := Upload.id row.1 in
  let! m := op_some (manifest_of_json (ManifestRow.canonical_json row.2)) in
  match artifacts m with
  | [a] =>
      let stored_size := stored_size_bytes a in
      let chunk_size := if stored_size =? 0 then chunk_size_bytes st else stored_size in
      let source := legacy_source u in
      let! accepted := migrate_legacy_file u a source in
      let status := if (stored_size =? 0) || (accepted : bool) then STATUS_ARTIFACT_UPLOADED else STATUS_CREATED in
      let count := if stored_size =? 0 then 0 else 1 in
      transaction maint_err maint_err
        (execute maint_err (fun d => Some (delete_dead_artifacts d, tt)) &;
         let! chunk_size := op_some (u64_to_i64 chunk_size) in
         let! stored := op_some (u64_to_i64 stored_size) in
         let! original := op_some (u64_to_i64 (original_size_bytes a)) in
         execute maint_err (fun d =>
           Some (with_uploads (update (of_upload u)
                   (Upload.set_migrated chunk_size count stored original expires_at status)) d, tt)) &;
         execute maint_err (fun d =>
           Some (with_upload_artifacts (update (fun r => artifact_of u r && (UploadArtifact.artifact_index r =? 0))
                   (UploadArtifact.set_chunk_count count)) d, tt)) &;
         (if (accepted : bool) then
            let! _ := execute maint_err (fun d =>
              ra ← insert_or_ignore (chunk_at u 0 0) (fun _ => false)
                     (Chunk.mk u 0 0 stored (digest_storage_value (stored_sha256 a)) now) (upload_chunks d);
              Some (with_upload_chunks (fun _ => ra.1) d, ra.2)) in
            ret tt
          else ret tt) &;
         ret (Commit tt)) &;
      if (accepted : bool) then remove_file Operation source else ret tt
  | _ => throw Operation
  end.
Definition upgrade_legacy_uploads : M MaintenanceError unit :=
  let! legacy := query maint_err legacy_uploads in
  if bool_decide (legacy = []) then ret tt
  else
    let! t := now in
    let! now_text := lift (ok_or (format_rfc3339 t) Clock) in
    let! expires_at := lift (ok_or (expiration_at t (upload_expiry st)) Clock) in
    for_each legacy (upgrade_legacy_upload now_text expires_at).

(* ------------------------------------------------------------------ *)
(** ** Snapshots and sort keys of earlier schema versions *)

(** UNIQUE (session_id, fingerprint_sha256) WHERE deleted_at IS NULL *)
Definition live_keys (l : list Snapshot.row) : list (string * string) :=
  (fun s => (Snapshot.session_id s, Snapshot.fingerprint_sha256 s)) <$> select live l.
Definition update_fingerprint (id fingerprint : string) (d : Db) : option (Db * unit) :=
  let t := update (fun s => eqs (Snapshot.id s) id && (Snapshot.fingerprint_version s =? 0))
             (Snapshot.set_fingerprint fingerprint SNAPSHOT_FINGERPRINT_VERSION) (snapshots d) in
  if bool_decide (NoDup (live_keys t)) then Some (with_snapshots (fun _ => t) d, tt) else None.
Definition unversioned_snapshots (d : Db) : list (string * string) :=
  s ← select (fun s => Snapshot.fingerprint_version s =? 0) (snapshots d);
  m ← select (fun m => eqs (ManifestRow.id m) (Snapshot.manifest_id s)) (manifests d);
  [(Snapshot.id s, ManifestRow.canonical_json m)].
Definition upgrade_snapshot_fingerprints : M MaintenanceError unit :=
  let! snapshots := query maint_err unversioned_snapshots in
  for_each snapshots (fun '(id, json) =>
    let! m := op_some (manifest_of_json json) in
    let! fingerprint := op (lift (snapshot_fingerprint m)) in
    execute maint_err (update_fingerprint id fingerprint)).

(** [backfill_table_sort_key], for the rows [(id, timestamp)] with sort key 0
    and the statement that sets the key of one of them. *)
Definition backfill_rows (rows : list (string * string)) (set_key : string -> Z -> Db -> Db)
  : M MaintenanceError unit :=
  if bool_decide (rows = []) then ret tt
  else
    transaction maint_err maint_err
      (for_each rows (fun '(id, timestamp) =>
         let! key := op_some (sort_key_from_rfc3339 timestamp) in
         execute maint_err (fun d => Some (set_key id key d, tt))) &;
       ret (Commit tt)).
Definition set_snapshot_key (id : string) (key : Z) (d : Db) : Db :=
  with_snapshots (update (fun s => eqs (Snapshot.id s) id && (Snapshot.completed_at_seq s =? 0))
                    (Snapshot.set_seq key)) d.
Definition set_capture_key (id : string) (key : Z) (d : Db) : Db :=
  with_captures (update (fun c => eqs (CaptureRow.id c) id && (CaptureRow.server_completed_at_seq c =? 0))
                   (CaptureRow.set_seq key)) d.
Definition set_artifact_key (id : string) (key : Z) (d : Db) : Db :=
  with_artifact_rows (update (fun a => eqs (ArtifactRow.id a) id && (ArtifactRow.created_at_seq a =? 0))
                        (ArtifactRow.set_seq key)) d.
Definition backfill_sort_keys : M MaintenanceError unit :=
  let! rows := query maint_err (fun d => (fun s => (Snapshot.id s, Snapshot.completed_at s))
    <$> select (fun s => Snapshot.completed_at_seq s =? 0) (snapshots d)) in
  backfill_rows rows set_snapshot_key &;
  let! rows := query maint_err (fun d => (fun c => (CaptureRow.id c, CaptureRow.server_completed_at c))
    <$> select (fun c => CaptureRow.server_completed_at_seq c =? 0) (captures d)) in
  backfill_rows rows set_capture_key &;
  let! rows := query maint_err (fun d => (fun a => (ArtifactRow.id a, ArtifactRow.created_at a))
    <$> select (fun a => ArtifactRow.created_at_seq a =? 0) (artifact_rows d)) in
  backfill_rows rows set_artifact_key.

(** [uploads u LEFT JOIN captures c ... WHERE u.status = 'completed' AND c.id IS NULL] *)
Definition uncaptured_uploads (d : Db) : list string :=
  Upload.id <$> select (fun u => eqs (Upload.status u) STATUS_COMPLETED
                     && negb (existsb (fun c => eqs (CaptureRow.upload_id c) (Upload.id u)) (captures d))) (uploads d).
Definition backfill_capture (upload_id : string) : M MaintenanceError unit :=
  let! upload := op (get_active_upload upload_id) in
  let! upload := op_some upload in
  let! m := op (get_upload_manifest upload_id) in
  let! snapshot_id := op_some (Upload.snapshot_id upload) in
  let! completed_at := op_some (Upload.completed_at upload) in
  let! manifest_id := fetch_one maint_err (manifest_id_of upload_id) in
  transaction maint_err maint_err
    (op (insert_capture_provenance st upload m manifest_id snapshot_id completed_at) &; ret (Commit tt)).
Definition backfill_completed_capture_provenance : M MaintenanceError unit :=
  let! ids := query maint_err uncaptured_uploads in
  for_each ids backfill_capture.

(** The projection of every session at once: for each, the row of rank 1. *)
Definition rebuilt_context (d : Db) : list LatestContext.row :=
  s ← sessions d; option_list (latest_context (Session.id s) d).
Definition rebuild_all_contexts : M MaintenanceError unit :=
  transaction maint_err maint_err
    (execute maint_err (fun d => Some (with_session_latest_context (fun _ => []) d, tt)) &;
     execute maint_err (fun d =>
       if bool_decide (NoDup (LatestContext.session_id <$> rebuilt_context d))
          && bool_decide (NoDup (LatestContext.snapshot_id <$> rebuilt_context d))
       then Some (with_session_latest_context (fun _ => rebuilt_context d) d, tt) else None) &;
     ret (Commit tt)).

(* ------------------------------------------------------------------ *)
(** ** Directories and files nothing knows *)

Definition remove_recovery_entry (p : path) : M MaintenanceError unit :=
  let! is_dir := metadata_is_dir Operation p in
  if (is_dir : bool) then remove_dir_all Operation p else remove_file Operation p.

Definition uploads_dir : path := ["uploads"%string].
Definition remove_unknown_upload_directories (known : list string) : M MaintenanceError unit :=
  for_entries Operation uploads_dir (fun name =>
    if bool_decide (is_Some (parse_str name)) && negb (bool_decide (name ∈ known))
    then remove_dir_all Operation (upload_dir name) else ret tt).

(* ------------------------------------------------------------------ *)
(** ** Uploads that are still open *)

(** One row of [recover_artifact_chunks]: a chunk whose file is not what the
    row says is forgotten. *)
Definition recover_chunk (u : string) (artifact_index : Z) (row : Chunk.row) : M MaintenanceError unit :=
  let! chunk_index := op_some (i64_to_u64 (Chunk.chunk_index row)) in
  let! length := op_some (i64_to_u64 (Chunk.byte_length row)) in
  let p := artifact_chunk_path u artifact_index chunk_index in
  let! verified := attempt (verify_stored_file p length (Chunk.sha256 row)) in
  if is_ok verified then ret tt
  else
    execute maint_err (fun d =>
      Some (with_upload_chunks (delete_where (chunk_at u artifact_index (Chunk.chunk_index row))) d, tt)) &;
    attempt (remove_file tt p) &;
    ret tt.
Fixpoint chunk_indexes (rows : list Chunk.row) : option (list Z) :=
  match rows with
  | [] => Some []
  | r :: rows => i ← i64_to_u64 (Chunk.chunk_index r); l ← chunk_indexes rows; Some (i :: l)
  end.
Definition names_accepted (accepted : list Z) (name : string) : bool :=
  match parse_uint u64_max name with
  | Some i => bool_decide (i ∈ accepted)
  | None => false
  end.
Definition recover_artifact_chunks (u : string) (a : UploadArtifact.row) : M MaintenanceError unit :=
  let! artifact_index := op_some (to_u32 (UploadArtifact.artifact_index a)) in
  let! rows := query maint_err (fun d => select (chunk_of u (UploadArtifact.artifact_index a)) (upload_chunks d)) in
  for_each rows (recover_chunk u artifact_index) &;
  let! valid_rows := query maint_err (fun d => select (chunk_of u (UploadArtifact.artifact_index a)) (upload_chunks d)) in
  let! accepted := op_some (chunk_indexes valid_rows) in
  for_entries Operation (artifact_chunk_dir u artifact_index) (fun name =>
    if negb (names_accepted accepted name)
    then remove_recovery_entry (artifact_chunk_dir u artifact_index ++ [name]) else ret tt).

Definition leftover_name (name : string) : bool :=
  bool_decide (is_Some (strip_prefix ".assembled-" name)) || eqs name "artifact".
Definition recover_active_upload (u : string) : M MaintenanceError unit :=
  let! artifacts := op (get_upload_artifacts u) in
  refuse bool_decide (artifacts = []) with Operation;
  for_each artifacts (recover_artifact_chunks u) &;
  let! complete := op (upload_is_complete u) in
  let status := if (complete : bool) then STATUS_ARTIFACT_UPLOADED else STATUS_CREATED in
  execute maint_err (fun d => Some (update_open_status u status d, tt)) &;
  for_entries Operation (upload_dir u) (fun name =>
    if leftover_name name then remove_recovery_entry (upload_dir u ++ [name]) else ret tt).

(* ------------------------------------------------------------------ *)
(** ** Blobs *)

(** The two updates of [recover_unreferenced_blobs]: nothing live needs to be
    collected, and whatever nothing live needs becomes a candidate. *)
Definition keep_referenced (d : Db) : Db :=
  with_blobs (update (fun b => has_live_reference (Blob.id b) d) (Blob.set_orphan None None None)) d.
Definition schedule_unreferenced (orphaned_at eligible_after : string) (seq : Z) (d : Db) : Db :=
  with_blobs (update (fun b => bool_decide (Blob.eligible_after_seq b = None) && negb (has_live_reference (Blob.id b) d))
                (Blob.set_orphan (Some orphaned_at) (Some eligible_after) (Some seq))) d.

Definition sha256_root : path := ["blobs"; "sha256"]%string.
Definition remove_unknown_blobs (known : list string) (shard : string) : M MaintenanceError unit :=
  let! is_dir := metadata_is_dir Operation (sha256_root ++ [shard]) in
  if negb is_dir then ret tt
  else for_entries Operation (sha256_root ++ [shard]) (fun name =>
         if negb (bool_decide (name ∈ known)) then remove_recovery_entry (sha256_root ++ [shard; name]) else ret tt).
Definition recover_unreferenced_blobs : M MaintenanceError unit :=
  let! t := now in
  let! orphaned_at := lift (ok_or (format_rfc3339 t) Clock) in
  let eligible_at := expiration_time t (blob_gc_grace st) in
  let! eligible_after := lift (ok_or (format_rfc3339 eligible_at) Clock) in
  transaction maint_err maint_err
    (execute maint_err (fun d => Some (keep_referenced d, tt)) &;
     execute maint_err (fun d =>
       Some (schedule_unreferenced orphaned_at eligible_after (sort_key_from_timestamp eligible_at) d, tt)) &;
     ret (Commit tt)) &;
  let! known := query maint_err (fun d => Blob.stored_sha256 <$> blobs d) in
  for_entries Operation sha256_root (remove_unknown_blobs known).

(* ------------------------------------------------------------------ *)
(** ** [recover_uploads] *)

Definition recover_upload (upload : string * string) : M MaintenanceError unit :=
  if eqs upload.2 STATUS_COMPLETED then remove_upload_dir Operation upload.1
  else recover_active_upload upload.1.
Definition recover_uploads : M MaintenanceError unit :=
  upgrade_upload_artifact_rows &;
  upgrade_legacy_uploads &;
  upgrade_snapshot_fingerprints &;
  backfill_sort_keys &;
  backfill_completed_capture_provenance &;
  rebuild_all_contexts &;
  let! uploads := query maint_err (fun d => (fun u => (Upload.id u, Upload.status u)) <$> uploads d) in
  let! audits := query maint_err (fun d => Audit.upload_id <$> upload_audits d) in
  remove_unknown_upload_directories (uploads.*1 ++ audits) &;
  for_each uploads recover_upload &;
  for_each audits (remove_upload_dir Operation) &;
  recover_unreferenced_blobs.

(** What [bootstrap_with_recovery] runs on the store of a server that serves. *)
Definition bootstrap_recovery : M MaintenanceError unit :=
  recover_uploads &;
  let! t := now in
  let! _ := expire_uploads_at t in
  ret tt.
End Recovery.
