(* ===== verification/Archive.v ===== *)
(** What the archive promises: every artifact of a live snapshot is backed by
    a blob row and by a file with the recorded bytes, and those bytes restore
    the original.  The invariant, its parts, and what leaves it alone. *)
From stdpp Require Import prelude strings gmap sorting list.
From Stdlib Require Import ZArith Ascii Lia.
From Stdlib.Strings Require Import Byte.
From S2P Require Import Prelude Errors Contract Externals Validation Chunks Fingerprint Pagination.
From S2P Require Import Tables Store Storage Uploads Receipts Completion Deletion.

(** The immutable part of a row of [blobs]; the orphan columns are not in it. *)
Record StoredBlob : Type := mkStored {
  sb_id : string;
  sb_owner : string;
  sb_digest : string;
  sb_size : Z;
  sb_compression : string;
}.
Definition stored_blob (b : Blob.row) : StoredBlob :=
  mkStored (Blob.id b) (Blob.owner_namespace b) (Blob.stored_sha256 b) (Blob.stored_size_bytes b)
    (Blob.compression b).
Definition stored_blobs (d : Db) : list StoredBlob := stored_blob <$> blobs d.

Section Invariant.
Context `{MimeLib} `{ShaLib} `{ZstdLib} `{JsonLib}.

(** The original a stored representation decodes to. *)
Definition decodes (c : Compression) (stored original : bytes) : Prop :=
  match c with
  | Identity => original = stored
  | Zstd => zstd_open stored = true /\ (zstd_reads stored).2 = true
            /\ original = concat (zstd_reads stored).1
  end.
(** The stored bytes restore an original with this size and digest. *)
Definition restores (c : Compression) (stored : bytes) (size : Z) (digest : string) : Prop :=
  exists original, decodes c stored original /\ byte_len original = size /\ sha256_hex original = digest.

(** [content] has this size and digest. *)
Definition measures (content : bytes) (size : Z) (digest : string) : Prop :=
  byte_len content = size /\ sha256_hex content = digest.

(** The file of a blob. *)
Definition blob_file (f : Files) (b : StoredBlob) : Prop :=
  exists content, f !! blob_path (sb_digest b) = Some (Regular content)
                  /\ measures content (sb_size b) (sb_digest b).
(** Bytes with the recorded size and digest were decoded and checked against
    the artifact's original; the file holds bytes of that size and digest. *)
Definition artifact_stored (f : Files) (a : ArtifactRow.row) (b : StoredBlob) : Prop :=
  sb_id b = ArtifactRow.blob_id a /\ blob_file f b
  /\ exists c verified, parse (sb_compression b) = Some c
       /\ measures verified (sb_size b) (sb_digest b)
       /\ restores c verified (ArtifactRow.original_size_bytes a) (ArtifactRow.original_sha256 a).

Record archive_sound (owner : string) (s : Store) : Prop := {
  as_owner : Forall (fun b => sb_owner b = owner) (stored_blobs (db s));
  as_ids : NoDup (sb_id <$> stored_blobs (db s));
  as_digests : NoDup (sb_digest <$> stored_blobs (db s));
  as_live : forall a, a ∈ artifact_rows (db s) ->
            is_Some (live_snapshot_by_id (ArtifactRow.snapshot_id a) (db s));
  as_stored : forall a, a ∈ artifact_rows (db s) ->
              exists b, b ∈ stored_blobs (db s) /\ artifact_stored (files s) a b;
}.

(** A manifest as [normalize_manifest] leaves it, as far as completion, downloads
    and scans rely on it. *)
Record manifest_sound (m : Manifest) : Prop := {
  mn_typed : Forall artifact_typed (artifacts m);
  mn_stored : Forall (fun a => sha256_document (stored_sha256 a)) (artifacts m);
  mn_original : Forall (fun a => sha256_document (original_sha256 a)) (artifacts m);
  mn_same : forall a b, a ∈ artifacts m -> b ∈ artifacts m -> stored_sha256 a = stored_sha256 b ->
            stored_size_bytes a = stored_size_bytes b /\ compression a = compression b;
  mn_sorted : StronglySorted path_le (artifacts m);
  mn_media : Forall (fun a => media_type_ok (media_type a)) (artifacts m);
}.
(** A stored document carries its own digest. *)
Definition manifest_filed (r : ManifestRow.row) : Prop :=
  ManifestRow.sha256 r = sha256_hex (string_bytes (ManifestRow.canonical_json r))
  /\ forall m, manifest_of_json (ManifestRow.canonical_json r) = Some m -> manifest_sound m.
Record manifests_sound (s : Store) : Prop := {
  ms_filed : forall r, r ∈ manifests (db s) -> manifest_filed r;
  ms_ids : NoDup (ManifestRow.id <$> manifests (db s));
}.

(** Everything the server keeps true between requests. *)
Definition store_sound (owner : string) (s : Store) : Prop :=
  chunks_backed s /\ archive_sound owner s /\ manifests_sound s.

#[export] Instance archive_sound_draw owner : DrawStable (archive_sound owner).
Proof. by intros s [? ? ? ? ?]. Qed.
#[export] Instance manifests_sound_draw : DrawStable manifests_sound.
Proof. intros s [M1 M2]. by split. Qed.
Lemma manifests_sound_eq s s' : manifests (db s') = manifests (db s) -> manifests_sound s -> manifests_sound s'.
Proof. intros E [M1 M2]. split; by rewrite E. Qed.

(* ------------------------------------------------------------------ *)
(** ** What leaves the archive alone *)

(** A path with the shape of a blob's. *)
Definition is_blob (p : path) : Prop := exists d, p = blob_path d.

Lemma blob_path_inj d d' : blob_path d = blob_path d' -> d = d'.
Proof. by intros [= ? ->]. Qed.
Lemma chunk_not_blob u a i : ~ is_blob (artifact_chunk_path u a i).
Proof. by intros [d ?]. Qed.
Lemma staged_not_blob u a uuid : ~ is_blob (staged_chunk_path u a uuid).
Proof. by intros [d ?]. Qed.
Lemma assembled_not_blob u a uuid : ~ is_blob (assembled_artifact_path u a uuid).
Proof. by intros [d ?]. Qed.
Lemma below_not_blob u p : below (upload_dir u) p = true -> ~ is_blob p.
Proof. intros (rest & ->)%below_upload_dir [d [=]]. Qed.

(** The tables of the archive, as far as the invariant looks at them. *)
Definition archive_tables (d : Db) := (stored_blobs d, snapshots d, artifact_rows d).

Definition same_archive (s s' : Store) : Prop :=
  archive_tables (db s') = archive_tables (db s)
  /\ forall d, files s' !! blob_path d = files s !! blob_path d.

Lemma same_archive_refl s : same_archive s s.
Proof. by split. Qed.
Lemma same_archive_trans s1 s2 s3 : same_archive s1 s2 -> same_archive s2 s3 -> same_archive s1 s3.
Proof. intros [D1 F1] [D2 F2]. split; [congruence|]. intros d. by rewrite F2. Qed.
#[export] Instance same_archive_draw s : DrawStable (same_archive s).
Proof. by intros s' [D F]. Qed.

Lemma touches_same_archive (P : path -> Prop) s s' :
  (forall p, P p -> ~ is_blob p) -> touches P s s' -> same_archive s s'.
Proof.
  intros HP [D F]. split; [by rewrite D|]. intros d. apply F. intros Hd%HP. apply Hd. by exists d.
Qed.

Lemma archive_sound_same owner s s' : same_archive s s' -> archive_sound owner s -> archive_sound owner s'.
Proof.
  intros [D F] [O I G L S]. injection D as EB ES EA.
  assert (El : forall id, live_snapshot_by_id id (db s') = live_snapshot_by_id id (db s))
    by (intros id; unfold live_snapshot_by_id; by rewrite ES).
  split; rewrite ?EB, ?EA; try done.
  - intros a Ha. rewrite El. exact (L a Ha).
  - intros a Ha. destruct (S a Ha) as (b & Hb & Hid & (c & Hc & Hm) & Hv). exists b. split; [done|].
    split; [done|]. split; [|done]. exists c. by rewrite F.
Qed.

(** A handler that leaves the archive alone keeps it sound. *)
Lemma keeps_archive_same owner {E A} (m : M E A) :
  (forall s, keeps (same_archive s) m) -> keeps (archive_sound owner) m.
Proof.
  intros Hm s Hs. eapply wp_mono; [|by apply (Hm s s), same_archive_refl].
  intros r s' Hsame. eapply archive_sound_same; [exact Hsame|exact Hs].
Qed.
End Invariant.

(* ------------------------------------------------------------------ *)
(** ** Handlers that leave the archive alone *)

Section Frame.
Context `{Env} `{UuidLib} (s0 : Store).

Lemma keeps_same_execute {E A} (err : SqlxError -> E) (f : Db -> option (Db * A)) :
  (forall d d' a, f d = Some (d', a) -> archive_tables d' = archive_tables d) ->
  keeps (same_archive s0) (execute err f).
Proof. intros Hf. apply keeps_execute. intros s d a [D F] Ed. split; [|done]. simpl. by rewrite (Hf _ _ _ Ed). Qed.

(** What a transaction did not commit is undone; its files are not. *)
Lemma keeps_same_transaction {E A} (b c : SqlxError -> E) (body : M E (TxEnd A)) :
  keeps (same_archive s0) body -> keeps (same_archive s0) (transaction b c body).
Proof.
  intros Hb s Hs. apply wp_transaction; [done|]. eapply wp_mono; [|by apply Hb].
  intros r s' [D F]. assert (Ha : same_archive s0 (mkStore (db s) (files s') (drawn s'))) by (split; [apply Hs|done]).
  by destruct r as [[a|a]|e].
Qed.

Lemma keeps_same_touches {E A} (m : M E A) (P : path -> Prop) :
  (forall s, keeps (touches P s) m) -> (forall p, P p -> ~ is_blob p) -> keeps (same_archive s0) m.
Proof.
  intros Hm HP s Hs. eapply wp_mono; [|apply (Hm s s), touches_refl]. intros r s' Ht.
  eapply same_archive_trans; [exact Hs|]. by eapply touches_same_archive.
Qed.

Context {E : Type} (e : E) (p : path).
Hypothesis Hp : ~ is_blob p.
Lemma keeps_same_create_new : keeps (same_archive s0) (create_new e p).
Proof. apply (keeps_same_touches _ (fun q => q = p)); [intros; by apply keeps_touches_create_new|by intros ? ->]. Qed.
Lemma keeps_same_write_all data : keeps (same_archive s0) (write_all e p data).
Proof. apply (keeps_same_touches _ (fun q => q = p)); [intros; by apply keeps_touches_write_all|by intros ? ->]. Qed.
Lemma keeps_same_remove_file : keeps (same_archive s0) (remove_file e p).
Proof. apply (keeps_same_touches _ (fun q => q = p)); [intros; by apply keeps_touches_remove_file|by intros ? ->]. Qed.
Lemma keeps_same_hard_link src : keeps (same_archive s0) (@hard_link _ E src p).
Proof. apply (keeps_same_touches _ (fun q => q = p)); [intros; by apply keeps_touches_hard_link|by intros ? ->]. Qed.
End Frame.

Lemma keeps_same_remove_upload_dir `{Env} s0 {E} (e : E) u :
  keeps (same_archive s0) (remove_upload_dir e u).
Proof.
  apply (keeps_same_touches s0 _ (fun p => below (upload_dir u) p = true)).
  - intros s. by apply keeps_touches_remove_dir_all.
  - intros p Hp. by eapply below_not_blob.
Qed.
#[export] Hint Resolve chunk_not_blob staged_not_blob assembled_not_blob : keeps.
#[export] Hint Resolve keeps_same_create_new keeps_same_write_all keeps_same_remove_file
  keeps_same_hard_link keeps_same_remove_upload_dir : keeps.

(** The tables of the archive are not among those the statement writes. *)
Ltac same_tables :=
  let d := fresh "d" in
  apply keeps_same_execute; intros d; do 2 intro;
  unfold delete_manifests, delete_upload; destruct d; simpl;
  repeat match goal with
  | |- context [insert_or_update ?a ?b ?c ?x ?y] => destruct (insert_or_update a b c x y)
  | |- context [insert_or_ignore ?a ?b ?x ?y] => destruct (insert_or_ignore a b x y)
  | |- context [insert_row ?a ?x ?y] => destruct (insert_row a x y)
  | |- context [if ?b then _ else _] => destruct b
  end; intros [= <- <-]; reflexivity.
Ltac keeps_same_step :=
  lazymatch goal with
  | |- keeps _ (execute _ _) => same_tables
  | |- keeps _ (transaction _ _ _) => apply keeps_same_transaction
  | |- keeps _ (for_each _ _) => apply keeps_for_each; do 2 intro
  | _ => keeps_step
  end.
Ltac keeps_same_tac := repeat keeps_same_step.

Section UploadHandlers.
Context `{EV : Env} `{UL : UuidLib} `{TL : TimeLib} `{ML : MimeLib} `{SL : ShaLib} `{JL : JsonLib}.
Context (s0 : Store).

Lemma same_register_client st id payload : keeps (same_archive s0) (register_client st id payload).
Proof. unfold register_client, now_rfc3339. keeps_same_tac. Qed.
Lemma same_terminalize upload reason : keeps (same_archive s0) (terminalize_upload_locked upload reason).
Proof.
  unfold terminalize_upload_locked, now_rfc3339, terminalize_transaction. keeps_same_tac.
Qed.
#[local] Hint Resolve same_terminalize : keeps.
Lemma same_expire_uploads_at t : keeps (same_archive s0) (expire_uploads_at t).
Proof.
  unfold expire_uploads_at. keeps_same_tac.
  match goal with |- keeps _ (expire_candidates _ ?l _) => generalize 0; induction l as [| x y IH]; intros k end; simpl.
  - keeps_same_tac.
  - apply keeps_bind; [|intros; apply IH]. unfold expire_candidate, get_active_upload. keeps_same_tac.
Qed.

Lemma same_require_active_upload u : keeps (same_archive s0) (require_active_upload u).
Proof. unfold require_active_upload, get_active_upload. keeps_same_tac. Qed.

Lemma same_upload_artifact_statuses upload : keeps (same_archive s0) (upload_artifact_statuses upload).
Proof.
  unfold upload_artifact_statuses, get_upload_artifacts. keeps_same_tac.
  match goal with |- keeps _ (statuses_of _ ?l) => induction l as [| x y IH] end; simpl; keeps_same_tac.
  unfold upload_artifact_status. keeps_same_tac.
Qed.
#[local] Hint Resolve same_expire_uploads_at same_require_active_upload same_upload_artifact_statuses : keeps.

Lemma same_insert_upload_artifacts u i arts : keeps (same_archive s0) (insert_upload_artifacts u i arts).
Proof.
  revert i. induction arts as [|[a n] arts IH]; intros i; simpl; [keeps_same_tac|].
  unfold insert_upload_artifact. keeps_same_tac.
Qed.
#[local] Hint Resolve same_insert_upload_artifacts : keeps.

Lemma same_persist_upload st c k m j h l a b : keeps (same_archive s0) (persist_upload st c k m j h l a b).
Proof.
  unfold persist_upload, persist_transaction, get_or_create_session,
    ensure_terminal_capture_reuse_is_equivalent, persist_new_upload_detail, legacy_manifest_equivalent.
  keeps_same_tac.
Qed.
#[local] Hint Resolve same_persist_upload : keeps.

Lemma same_create_upload st payload : keeps (same_archive s0) (create_upload st payload).
Proof. unfold create_upload, active_upload_response, get_active_upload. keeps_same_tac. Qed.

Lemma same_get_upload_status u : keeps (same_archive s0) (get_upload_status u).
Proof.
  unfold get_upload_status, get_active_upload, audit_upload_response, active_upload_status_response.
  keeps_same_tac.
Qed.
Lemma same_abandon_upload u : keeps (same_archive s0) (abandon_upload u).
Proof. unfold abandon_upload, get_active_upload, audit_upload_response. keeps_same_tac. Qed.

Lemma same_verify_stored_file p n d : keeps (same_archive s0) (verify_stored_file p n d).
Proof. unfold verify_stored_file. keeps_same_tac. Qed.
Lemma same_write_frames body p n k h : ~ is_blob p -> keeps (same_archive s0) (write_frames body p n k h).
Proof.
  intros Hp. revert k h. induction body as [|[data| |] body IH]; intros k h; simpl; keeps_same_tac; apply IH.
Qed.
#[local] Hint Resolve same_verify_stored_file same_write_frames : keeps.

Lemma same_store_chunk_file u a i body request : keeps (same_archive s0) (store_chunk_file u a i body request).
Proof. unfold store_chunk_file, ensure_chunk_dir, write_chunk_body. keeps_same_tac. Qed.
Lemma yields_staged u a i body request :
  yields (fun p => ~ is_blob p) (store_chunk_file u a i body request).
Proof. unfold store_chunk_file. yields_tac; apply staged_not_blob. Qed.

Lemma same_accept_chunk upload u a i body request :
  keeps (same_archive s0) (accept_chunk upload u a i body request).
Proof.
  unfold accept_chunk. eapply keeps_bind_yields; [apply same_store_chunk_file|apply yields_staged|].
  intros p Hp. unfold now_rfc3339, persist_chunk_record, persist_chunk_transaction,
    refresh_upload_status, upload_is_complete, get_upload_artifacts. keeps_same_tac.
  match goal with |- keeps _ (all_complete _ ?l) => induction l as [| x y IH]; simpl; keeps_same_tac end.
Qed.
#[local] Hint Resolve same_accept_chunk : keeps.

Lemma same_put_artifact_chunk u a i headers body :
  keeps (same_archive s0) (put_artifact_chunk u a i headers body).
Proof.
  unfold put_artifact_chunk, get_upload_artifact, get_chunk, confirm_chunk. keeps_same_tac.
Qed.
End UploadHandlers.
