(* ===== verification/Invariants.v ===== *)
(** The upload handlers keep the store sound: accepted chunks stay on disk, the
    archive is left alone, stored manifests are canonical. *)
From stdpp Require Import prelude strings gmap sorting list.
From Stdlib Require Import ZArith Ascii Lia.
From Stdlib.Strings Require Import Byte.
From S2P Require Import Prelude Errors Contract Externals Validation Chunks Fingerprint Pagination.
From S2P Require Import Tables Store Storage Uploads Receipts Completion Deletion Archive.

Section Frames.
Context `{EV : Env} `{UL : UuidLib} `{ML : MimeLib} `{SL : ShaLib}.

(** A statement that writes neither uploads nor chunks keeps chunks backed. *)
Lemma keeps_chunks_execute {E A} (err : SqlxError -> E) (f : Db -> option (Db * A)) :
  (forall d d' a, f d = Some (d', a) ->
     upload_chunks d' = upload_chunks d /\ uploads_closing d d') ->
  keeps chunks_backed (execute err f).
Proof.
  intros Hf. apply keeps_execute. intros s d a Hs Ed. destruct (Hf _ _ _ Ed) as [E1 E2].
  by apply (chunks_backed_same s).
Qed.
Lemma keeps_transaction_body (I : Store -> Prop) `{!DrawStable I} {E A}
    (b c : SqlxError -> E) (body : M E (TxEnd A)) :
  db_only body -> keeps I body -> keeps I (transaction b c body).
Proof.
  intros Ho Hb. apply keeps_transaction; [done|done|]. intros s Hs.
  eapply wp_mono; [|by apply Hb]. by intros [[a|a]|e] s'.
Qed.

(** No manifest appears. *)
Definition fewer_manifests (s s' : Store) : Prop := sublist (manifests (db s')) (manifests (db s)).
#[export] Instance fewer_manifests_db s : DbInvariant (fewer_manifests s).
Proof. intros s1 s2 E _. unfold fewer_manifests. by rewrite E. Qed.
Lemma keeps_fewer_execute s0 {E A} (err : SqlxError -> E) (f : Db -> option (Db * A)) :
  (forall d d' a, f d = Some (d', a) -> sublist (manifests d') (manifests d)) ->
  keeps (fewer_manifests s0) (execute err f).
Proof. intros Hf. apply keeps_execute. intros s d a Hs Ed. unfold fewer_manifests in *. simpl. etrans; [by eapply Hf|exact Hs]. Qed.
Lemma keeps_fewer_transaction s0 {E A} (b c : SqlxError -> E) (body : M E (TxEnd A)) :
  keeps (fewer_manifests s0) body -> keeps (fewer_manifests s0) (transaction b c body).
Proof.
  intros Hb s Hs. apply wp_transaction; [done|]. eapply wp_mono; [|by apply Hb].
  intros r s' Hs'. by destruct r as [[a|a]|e].
Qed.

Context `{JL : JsonLib}.
Lemma keeps_manifests_fewer {E A} (m : M E A) :
  (forall s, keeps (fewer_manifests s) m) -> keeps manifests_sound m.
Proof.
  intros Hm s [M1 M2]. eapply wp_mono; [|by apply (Hm s s); unfold fewer_manifests].
  intros r s' Hf. split.
  - intros row Hrow. apply M1. by eapply elem_of_sublist.
  - eapply sublist_NoDup; [exact M2|]. by apply sublist_fmap.
Qed.
End Frames.

(** Cases of a statement on one table. *)
Ltac table_cases :=
  repeat match goal with
  | |- context [insert_or_update ?a ?b ?c ?x ?y] => destruct (insert_or_update a b c x y)
  | |- context [insert_or_ignore ?a ?b ?x ?y] => destruct (insert_or_ignore a b x y)
  | |- context [insert_row ?a ?x ?y] => destruct (insert_row a x y)
  | |- context [if ?b then _ else _] => destruct b
  end.
Ltac chunks_execute :=
  let d := fresh "d" in
  apply keeps_chunks_execute; intros d; do 2 intro; destruct d; simpl; table_cases; intros [= <- <-];
  split; [reflexivity|by apply uploads_closing_eq].
Ltac keeps_chunks_tac := repeat
  lazymatch goal with
  | |- keeps _ (execute _ _) => chunks_execute
  | |- keeps _ (transaction _ _ _) => apply (keeps_transaction_body chunks_backed); [db_only_tac|]
  | _ => keeps_step
  end.
Ltac fewer_execute :=
  let d := fresh "d" in
  apply keeps_fewer_execute; intros d; do 2 intro; unfold delete_manifests, delete_upload;
  destruct d; simpl; table_cases; intros [= <- <-]; simpl; first [reflexivity|apply sublist_filter].
Ltac keeps_fewer_tac := repeat
  lazymatch goal with
  | |- keeps _ (execute _ _) => fewer_execute
  | |- keeps _ (transaction _ _ _) => apply keeps_fewer_transaction
  | |- keeps _ (for_each _ _) => apply keeps_for_each; do 2 intro
  | |- keeps _ (remove_upload_dir _ _) => apply keeps_db_remove_dir_all; apply _
  | _ => keeps_step
  end.

Section Uploads.
Context `{EV : Env} `{UL : UuidLib} `{TL : TimeLib} `{ML : MimeLib} `{SL : ShaLib} `{JL : JsonLib}.

Lemma chunks_register_client st id payload : keeps chunks_backed (register_client st id payload).
Proof. unfold register_client, now_rfc3339. keeps_chunks_tac. Qed.
Lemma chunks_expire_uploads_at t : keeps chunks_backed (expire_uploads_at t).
Proof.
  unfold expire_uploads_at. keeps_chunks_tac.
  match goal with |- keeps _ (expire_candidates _ ?l _) => generalize 0; induction l as [| x y IH]; intros k end; simpl.
  - keeps_chunks_tac.
  - apply keeps_bind; [|intros; apply IH]. unfold expire_candidate, get_active_upload. keeps_chunks_tac.
Qed.
Lemma chunks_require_active_upload u : keeps chunks_backed (require_active_upload u).
Proof. unfold require_active_upload, get_active_upload. keeps_chunks_tac. Qed.
Lemma chunks_upload_artifact_statuses upload : keeps chunks_backed (upload_artifact_statuses upload).
Proof.
  unfold upload_artifact_statuses, get_upload_artifacts. keeps_chunks_tac.
  match goal with |- keeps _ (statuses_of _ ?l) => induction l as [| x y IH] end; simpl; keeps_chunks_tac.
  unfold upload_artifact_status. keeps_chunks_tac.
Qed.
#[local] Hint Resolve chunks_expire_uploads_at chunks_require_active_upload chunks_upload_artifact_statuses : keeps.
Lemma chunks_get_upload_status u : keeps chunks_backed (get_upload_status u).
Proof.
  unfold get_upload_status, get_active_upload, audit_upload_response, active_upload_status_response.
  keeps_chunks_tac.
Qed.
Lemma chunks_abandon_upload u : keeps chunks_backed (abandon_upload u).
Proof. unfold abandon_upload, get_active_upload, audit_upload_response. keeps_chunks_tac. Qed.

(** Opening an upload: its identifier is new, so no chunk has it yet. *)
Lemma keeps_chunks_insert_upload {E} (err : SqlxError -> E) row target conflict :
  keeps chunks_backed (execute err (fun d =>
    ra ← insert_or_ignore target (fun r => of_upload (Upload.id row) r || conflict r) row (uploads d);
    Some (with_uploads (fun _ => ra.1) d, ra.2))).
Proof.
  apply keeps_execute. intros s d n Hs Ex.
  destruct (insert_or_ignore _ _ _ _) as [[t k]|] eqn:Ei; [|done]. injection Ex as <- <-.
  apply insert_or_ignore_Some in Ei as [(-> & -> & _)|(-> & -> & Hno)].
  - by destruct s as [[]].
  - intros r Hr. change (upload_chunks _) with (upload_chunks (db s)) in Hr. destruct (Hs r Hr) as [Hu Hb].
    assert (Hne : of_upload (Chunk.upload_id r) row = false).
    { apply not_true_iff_false. intros Eu%eqs_true. destruct (uploads_of _ _) as [|up l] eqn:El; [done|].
      assert (Hup : up ∈ uploads_of (Chunk.upload_id r) (db s)) by (rewrite El; left).
      apply elem_of_select in Hup as [Hid Hin]. destruct (Hno up Hin) as [_ [Ho _]%orb_false_iff].
      unfold of_upload in *. congruence. }
    assert (Ef : forall f, uploads_of (Chunk.upload_id r) (with_uploads (fun _ => uploads (db s) ++ [row]) f)
                = uploads_of (Chunk.upload_id r) (db s)).
    { intros f. unfold uploads_of, select. simpl. rewrite filter_app, filter_cons, decide_False by (by rewrite Hne).
      by rewrite app_nil_r. }
    simpl. by rewrite Ef.
Qed.

Lemma chunks_insert_upload_artifacts u i arts : keeps chunks_backed (insert_upload_artifacts u i arts).
Proof.
  revert i. induction arts as [|[a n] arts IH]; intros i; simpl; [keeps_chunks_tac|].
  unfold insert_upload_artifact. keeps_chunks_tac.
Qed.
#[local] Hint Resolve chunks_insert_upload_artifacts : keeps.
Lemma db_only_insert_upload_artifacts u i arts : db_only (insert_upload_artifacts u i arts).
Proof.
  revert i. induction arts as [|[a n] arts IH]; intros i; simpl; [db_only_tac|].
  unfold insert_upload_artifact. do 2 intro. specialize (IH (i + 1)). unfold db_only in IH. keeps_tac.
Qed.
#[local] Hint Resolve db_only_insert_upload_artifacts : keeps.

Lemma db_only_persist_transaction st c k m j h l a b :
  db_only (persist_transaction st c k m j h l a b).
Proof.
  unfold persist_transaction, get_or_create_session, ensure_terminal_capture_reuse_is_equivalent,
    persist_new_upload_detail, legacy_manifest_equivalent.
  do 2 intro. pose proof db_only_insert_upload_artifacts as Hi. unfold db_only in Hi. keeps_tac.
Qed.

Lemma chunks_persist_upload st c k m j h l a b : keeps chunks_backed (persist_upload st c k m j h l a b).
Proof.
  unfold persist_upload. apply (keeps_transaction_body chunks_backed); [exact (db_only_persist_transaction st c k m j h l a b)|].
  unfold persist_transaction, get_or_create_session, ensure_terminal_capture_reuse_is_equivalent,
    persist_new_upload_detail, legacy_manifest_equivalent.
  repeat lazymatch goal with
  | |- keeps _ (execute _ (fun d => ra ← insert_or_ignore (capture_key _ _ _) _ ?row _; _)) =>
      apply (keeps_chunks_insert_upload _ row)
  | |- keeps _ (execute _ _) => chunks_execute
  | _ => keeps_step
  end.
Qed.
#[local] Hint Resolve chunks_persist_upload : keeps.
Lemma chunks_create_upload st payload : keeps chunks_backed (create_upload st payload).
Proof. unfold create_upload, active_upload_response, get_active_upload. keeps_chunks_tac. Qed.
Lemma chunks_put_artifact_chunk u a i headers body :
  keeps chunks_backed (put_artifact_chunk u a i headers body).
Proof. intros s Hs. eapply wp_mono; [|by apply put_artifact_chunk_spec]. by intros r s' [? _]. Qed.

(* ------------------------------------------------------------------ *)
(** ** Stored manifests *)

Lemma fewer_register_client s0 st id payload : keeps (fewer_manifests s0) (register_client st id payload).
Proof. unfold register_client, now_rfc3339. keeps_fewer_tac. Qed.
Lemma fewer_terminalize s0 upload reason : keeps (fewer_manifests s0) (terminalize_upload_locked upload reason).
Proof. unfold terminalize_upload_locked, now_rfc3339, terminalize_transaction. keeps_fewer_tac. Qed.
#[local] Hint Resolve fewer_terminalize : keeps.
Lemma fewer_expire_uploads_at s0 t : keeps (fewer_manifests s0) (expire_uploads_at t).
Proof.
  unfold expire_uploads_at. keeps_fewer_tac.
  match goal with |- keeps _ (expire_candidates _ ?l _) => generalize 0; induction l as [| x y IH]; intros k end; simpl.
  - keeps_fewer_tac.
  - apply keeps_bind; [|intros; apply IH]. unfold expire_candidate, get_active_upload. keeps_fewer_tac.
Qed.
Lemma fewer_require_active_upload s0 u : keeps (fewer_manifests s0) (require_active_upload u).
Proof. unfold require_active_upload, get_active_upload. keeps_fewer_tac. Qed.
Lemma fewer_upload_artifact_statuses s0 upload : keeps (fewer_manifests s0) (upload_artifact_statuses upload).
Proof.
  unfold upload_artifact_statuses, get_upload_artifacts. keeps_fewer_tac.
  match goal with |- keeps _ (statuses_of _ ?l) => induction l as [| x y IH] end; simpl; keeps_fewer_tac.
  unfold upload_artifact_status. keeps_fewer_tac.
Qed.
#[local] Hint Resolve fewer_expire_uploads_at fewer_require_active_upload fewer_upload_artifact_statuses : keeps.
Lemma fewer_get_upload_status s0 u : keeps (fewer_manifests s0) (get_upload_status u).
Proof.
  unfold get_upload_status, get_active_upload, audit_upload_response, active_upload_status_response.
  keeps_fewer_tac.
Qed.
Lemma fewer_abandon_upload s0 u : keeps (fewer_manifests s0) (abandon_upload u).
Proof. unfold abandon_upload, get_active_upload, audit_upload_response. keeps_fewer_tac. Qed.
Lemma fewer_write_frames s0 body p n k h : keeps (fewer_manifests s0) (write_frames body p n k h).
Proof. revert k h. induction body as [|[data| |] body IH]; intros k h; simpl; keeps_fewer_tac; apply IH. Qed.
#[local] Hint Resolve fewer_write_frames : keeps.
Lemma fewer_put_artifact_chunk s0 u a i headers body :
  keeps (fewer_manifests s0) (put_artifact_chunk u a i headers body).
Proof.
  unfold put_artifact_chunk, get_upload_artifact, get_chunk, confirm_chunk, accept_chunk,
    store_chunk_file, ensure_chunk_dir, write_chunk_body, now_rfc3339, persist_chunk_record, verify_stored_file,
    persist_chunk_transaction, refresh_upload_status, upload_is_complete, get_upload_artifacts.
  keeps_fewer_tac.
  match goal with |- keeps _ (all_complete _ ?l) => induction l as [| x y IH]; simpl; keeps_fewer_tac end.
Qed.

Lemma keeps_manifests_execute {E A} (err : SqlxError -> E) (f : Db -> option (Db * A)) :
  (forall d d' a, f d = Some (d', a) -> sublist (manifests d') (manifests d)) ->
  keeps manifests_sound (execute err f).
Proof. intros Hf. apply keeps_manifests_fewer. intros s. by apply keeps_fewer_execute. Qed.

Lemma keeps_manifests_insert {E} (err : SqlxError -> E) conflict row :
  manifest_filed row -> (forall r, ManifestRow.id r = ManifestRow.id row -> conflict r = true) ->
  keeps manifests_sound (execute err (fun d =>
    t ← insert_row conflict row (manifests d); Some (with_manifests (fun _ => t) d, tt))).
Proof.
  intros Hm Hc. apply keeps_execute. intros s d a [M1 M2] Ex.
  destruct (insert_row _ _ _) as [t|] eqn:Ei; [|done]. injection Ex as <- <-.
  apply insert_row_Some in Ei as [-> Hno]. split; simpl.
  - intros r [Hr| ->%list_elem_of_singleton]%elem_of_app; [by apply M1|done].
  - rewrite fmap_app. apply NoDup_app. split_and!; [done| |apply NoDup_singleton].
    intros x (r & -> & Hr)%list_elem_of_fmap Ex%list_elem_of_singleton. specialize (Hno r Hr). by rewrite Hc in Hno.
Qed.

Ltac manifests_execute :=
  let d := fresh "d" in
  apply keeps_manifests_execute; intros d; do 2 intro;
  destruct d; simpl; table_cases; intros [= <- <-]; reflexivity.

Lemma manifests_insert_upload_artifacts u i arts : keeps manifests_sound (insert_upload_artifacts u i arts).
Proof.
  revert i. induction arts as [|[a n] arts IH]; intros i; simpl; [keeps_tac|].
  unfold insert_upload_artifact.
  repeat lazymatch goal with |- keeps _ (execute _ _) => manifests_execute | _ => keeps_step end.
Qed.
#[local] Hint Resolve manifests_insert_upload_artifacts : keeps.

Context {JLaws : JsonLaws JL}.
Lemma manifests_persist_upload st c k m j h l a b :
  manifest_to_json m = Some j -> manifest_sound m -> h = sha256_hex (string_bytes j) ->
  keeps manifests_sound (persist_upload st c k m j h l a b).
Proof.
  intros Ej Hm Eh. unfold persist_upload.
  apply (keeps_transaction_body manifests_sound); [exact (db_only_persist_transaction st c k m j h l a b)|].
  unfold persist_transaction, get_or_create_session, ensure_terminal_capture_reuse_is_equivalent,
    persist_new_upload_detail, legacy_manifest_equivalent.
  repeat lazymatch goal with
  | |- keeps _ (execute _ (fun d => t ← insert_row _ (ManifestRow.mk _ _ _ _ _) _; _)) =>
      apply keeps_manifests_insert; [split; [exact Eh|]; simpl; intros m' Em; rewrite (manifest_json_read _ _ Ej) in Em;
      by injection Em as <-|simpl; intros r ->; by rewrite eqs_refl]
  | |- keeps _ (execute _ _) => manifests_execute
  | _ => keeps_step
  end.
Qed.

Lemma normalized_manifest_sound input limits m :
  limits_typed limits -> input_typed input -> normalize_manifest input limits = Ok m -> manifest_sound m.
Proof.
  intros Hl Hty (arts & cap & _ & Hd & Hok & ->)%normalize_manifest_Ok; [|done..].
  split; simpl.
  - rewrite sort_Permutation. by apply Hty.
  - rewrite sort_Permutation. eapply Forall_impl; [apply (set_each _ _ Hok)|]. intros a. apply ok_stored_sha.
  - rewrite sort_Permutation. eapply Forall_impl; [apply (set_each _ _ Hok)|]. intros a. apply ok_original_sha.
  - intros a b Ha Hb. rewrite !sort_Permutation in Ha, Hb. by apply (set_blobs _ _ Hok).
  - apply sort_Sorted.
  - rewrite sort_Permutation. eapply Forall_impl; [apply (set_each _ _ Hok)|]. intros a. apply ok_media.
Qed.

Lemma manifests_create_upload st payload :
  limits_typed (manifest_limits st) ->
  (forall request, payload = Some request -> input_typed (cu_manifest request)) ->
  keeps manifests_sound (create_upload st payload).
Proof.
  intros Hl Hty s Hs. unfold create_upload. wp_step. wp_step.
  destruct payload as [request|]; simpl; [|done]. specialize (Hty request eq_refl).
  do 4 (wp_step; wp_step; match goal with |- context [then_wp _ _ ?c] => destruct c eqn:? end; simpl; [|done]).
  wp_step. wp_step. destruct (manifest_to_json _) as [j|] eqn:Ej; simpl; [|done].
  match goal with E : normalize_manifest _ _ = Ok _ |- _ => apply normalized_manifest_sound in E as Hm; [|done..] end.
  match goal with |- wp ?m _ _ => assert (Hk : keeps manifests_sound m); [|by apply Hk] end.
  pose proof (fun t => keeps_manifests_fewer _ (fun s0 => fewer_expire_uploads_at s0 t)) as He.
  pose proof (fun u => keeps_manifests_fewer _ (fun s0 => fewer_upload_artifact_statuses s0 u)) as Hu.
  unfold active_upload_response, get_active_upload.
  repeat lazymatch goal with
  | |- keeps _ (persist_upload _ _ _ _ _ _ _ _ _) => by apply manifests_persist_upload
  | _ => keeps_step
  end.
Qed.
End Uploads.
