(* ===== verification/Assembly.v ===== *)
(** The file half of a completion: accepted chunks are assembled, every
    artifact is verified in both representations, and verified bytes are
    linked to their blob paths without disturbing the archive. *)
From stdpp Require Import prelude strings gmap sorting list.
From Stdlib Require Import ZArith Ascii Lia.
From Stdlib.Strings Require Import Byte.
From S2P Require Import Prelude Errors Contract Externals Validation Chunks Fingerprint Pagination.
From S2P Require Import Tables Store Storage Uploads Receipts Completion Deletion Archive.

Section Assembly.
Context `{EV : Env} `{UL : UuidLib} `{SL : ShaLib} `{ZL : ZstdLib}.

(** A verified artifact: its stored bytes, and what they restore. *)
Definition verified_bytes (a : Artifact) (content : bytes) : Prop :=
  measures content (stored_size_bytes a) (stored_digest a)
  /\ restores (compression a) content (original_size_bytes a) (digest_storage_value (original_sha256 a)).
Definition assembled (f : Files) (p : PreparedArtifact) : Prop :=
  exists content, f !! assembled_path p = Some (Regular content) /\ verified_bytes (artifact p) content.

Lemma only_path_touches p s s' : only_path p s s' <-> touches (fun q => q = p) s s'.
Proof. done. Qed.

Lemma copy_reads_spec reads clean dst expected declared : forall chunk_size artifact_size chunk_hashed hashed s,
  files s !! dst = Some (Regular hashed) -> artifact_size = byte_len hashed ->
  wp (copy_reads reads clean dst expected declared chunk_size artifact_size chunk_hashed hashed) (fun r s' =>
    only_path dst s s' /\
    match r with
    | Ok (_, artifact_size', _, hashed') =>
        files s' !! dst = Some (Regular hashed') /\ artifact_size' = byte_len hashed'
    | Err _ => True
    end) s.
Proof.
  induction reads as [|data reads IH]; intros cs sz ch hashed s Hd Hs; simpl.
  - destruct clean; wp_step; (split; [apply only_path_refl|done]).
  - wp_step. wp_step. destruct (checked_add_u64 cs _) as [cs'|] eqn:E1; simpl; [|split; [apply only_path_refl|done]].
    destruct (expected <? cs'); [wp_step; split; [apply only_path_refl|done]|].
    wp_step. wp_step. destruct (checked_add_u64 sz _) as [sz'|] eqn:E2; simpl; [|split; [apply only_path_refl|done]].
    apply checked_add_u64_Some in E2 as [-> _].
    destruct (declared <? _); [wp_step; split; [apply only_path_refl|done]|].
    wp_step. wp_step; simpl; [split; [apply only_path_refl|done]|].
    intros b Hb. eapply wp_mono; [|apply IH].
    + intros r s' [Ho HQ]. split; [|done]. eapply only_path_trans; [apply only_path_insert|done].
    + simpl. rewrite lookup_insert_eq. congruence.
    + unfold byte_len in *. rewrite length_app. lia.
Qed.

Lemma copy_chunks_spec u i declared dst chunks : forall size hashed s,
  files s !! dst = Some (Regular hashed) -> size = byte_len hashed ->
  wp (copy_chunks u i declared dst chunks size hashed) (fun r s' =>
    only_path dst s s' /\
    match r with
    | Ok w => files s' !! dst = Some (Regular w.2) /\ w.1 = byte_len w.2
    | Err _ => True
    end) s.
Proof.
  induction chunks as [|chunk chunks IH]; intros size hashed s Hd Hs; simpl.
  - wp_step. split; [apply only_path_refl|done].
  - assert (Hrefl : only_path dst s s) by apply only_path_refl.
    wp_step. wp_step. destruct (i64_to_u64 (Chunk.byte_length chunk)) as [expected|]; simpl; [|by split].
    wp_step. wp_step. destruct (i64_to_u64 (Chunk.chunk_index chunk)) as [ci|]; simpl; [|by split].
    wp_step. wp_step; simpl; [by wp_step|]. intros b _. wp_step. wp_step; simpl; [by split|].
    assert (Hcopy : forall reads clean,
      wp (let! copied := copy_reads reads clean dst expected declared 0 size [] hashed in
          let '(chunk_size, artifact_size, chunk_hashed, hashed) := copied in
          refuse negb (chunk_size =? expected) || negb (eqs (sha256_hex chunk_hashed) (Chunk.sha256 chunk))
            with chunk_checksum_error;
          copy_chunks u i declared dst chunks artifact_size hashed)
        (fun r s' => only_path dst s s' /\
           match r with
           | Ok w => files s' !! dst = Some (Regular w.2) /\ w.1 = byte_len w.2
           | Err _ => True
           end) s).
    { intros reads clean. wp_step. eapply wp_mono; [|by apply copy_reads_spec].
      intros [[[[cs sz'] ch] hashed']|e] s1 [Ho H1]; simpl; [|by split]. destruct H1 as [H1 ->].
      destruct (negb _ || _); [by wp_step|]. eapply wp_mono; [|by apply IH].
      intros r s2 [Ho2 H2]. split; [by eapply only_path_trans|done]. }
    intros b' _. split; [exact (Hcopy [b'] true)|intros k; exact (Hcopy [take k b'] false)].
Qed.

Lemma accepted_chunk_layout_reads u a up s :
  wp (accepted_chunk_layout u a up) (fun _ s' => s' = s) s.
Proof.
  unfold accepted_chunk_layout. wp_step. wp_step; simpl; [done|]. wp_step. wp_step.
  destruct (i64_to_u64 _); simpl; [|done]. destruct (negb _); [by wp_step|].
  wp_step. wp_step. destruct (check_chunk_rows _ _ _ _); simpl; [by wp_step|done].
Qed.

Lemma assemble_artifact_spec upload row a p s :
  wp (assemble_artifact upload row a p) (fun r s' =>
    only_path p s s' /\ (r = Ok tt -> files s !! p = None
      /\ exists content, files s' !! p = Some (Regular content)
         /\ measures content (stored_size_bytes a) (stored_digest a))) s.
Proof.
  unfold assemble_artifact. wp_step. eapply wp_mono; [|apply accepted_chunk_layout_reads].
  intros [chunks|e] s1 ->; simpl; [|split; [apply only_path_refl|done]].
  wp_step. wp_step; simpl; [split; [apply only_path_refl|done]|].
  wp_step. wp_step; simpl; [split; [apply only_path_refl|done]|]. intros Hnone.
  wp_step. wp_step. destruct (to_u32 _) as [i|]; simpl; [|split; [apply only_path_insert|done]].
  wp_step. eapply wp_mono; [|apply copy_chunks_spec; [simpl; by rewrite lookup_insert_eq|done]].
  intros [[size hashed]|e] s2 [Ho HQ]; simpl in *.
  2: { split; [|done]. eapply only_path_trans; [apply only_path_insert|done]. }
  destruct HQ as [Hf ->].
  assert (Hos : only_path p s s2) by (eapply only_path_trans; [apply only_path_insert|done]).
  do 2 (wp_step; wp_step; simpl; [by split|]).
  destruct (_ && _) eqn:Eb; wp_step; [|by split]. split; [done|]. intros _. split; [done|].
  apply andb_true_iff in Eb as [Esz%Z.eqb_eq Edg%eqs_true]. by exists hashed.
Qed.

(** Decoding through the reader and decoding the bytes are the same. *)
Lemma original_reader_restores c content r err size digest e :
  0 <= size -> original_reader c ([content], true) = Ok (r, err) ->
  hash_reader r size e = Ok (size, digest) -> restores c content size digest.
Proof.
  intros Hs Er Eh. apply hash_reader_Ok in Eh as (Hc & En & Ed & _); [|done].
  unfold restores. destruct c; simpl in Er.
  - injection Er as <- <-. simpl in *. rewrite app_nil_r in *. exists content. by split_and!.
  - rewrite app_nil_r in Er. destruct (zstd_open content) eqn:Eo; [|done]. injection Er as <- <-. simpl in *.
    rewrite andb_true_r in Hc. exists (concat (zstd_reads content).1). by split_and!.
Qed.
Lemma original_reader_cut c content k r err size x e :
  original_reader c ([take k content], false) = Ok (r, err) -> hash_reader r size e <> Ok x.
Proof.
  destruct c; simpl; [intros [= <- <-]; apply hash_reader_failed|].
  destruct (zstd_open _); [|done]. intros [= <- <-]. rewrite andb_false_r. apply hash_reader_failed.
Qed.

Lemma verify_artifact_spec p a s : artifact_typed a ->
  wp (verify_artifact p a) (fun r s' => s' = s /\ (r = Ok tt ->
    exists content, files s !! p = Some (Regular content) /\ verified_bytes a content)) s.
Proof.
  intros [[Ho _] [Hs _]]. unfold verify_artifact.
  wp_step. wp_step; simpl; [by wp_step|]. intros b Hb. simpl.
  wp_step. wp_step; simpl; [done|]. intros b1 Hb1. split.
  2: { intros k. wp_step. wp_step.
       destruct (hash_reader _ _ _) as [x|e] eqn:E; [by apply hash_reader_failed in E|done]. }
  wp_step. wp_step. destruct (hash_reader _ _ _) as [[n d]|e] eqn:Eh; simpl; [|done].
  apply hash_reader_Ok in Eh as (_ & -> & -> & _); [|done]. simpl. rewrite app_nil_r.
  destruct (negb _ || _) eqn:Eb; [by wp_step|].
  apply orb_false_iff in Eb as [Esz%negb_false_iff%Z.eqb_eq Edg%negb_false_iff%eqs_true].
  wp_step. wp_step; simpl; [done|]. intros b2 Hb2. split.
  2: { intros k. wp_step. wp_step. destruct (original_reader _ _) as [[r err]|e] eqn:Er; simpl; [|done].
       wp_step. wp_step. destruct (hash_reader _ _ _) as [x|e] eqn:E; [|done].
       by eapply original_reader_cut in E. }
  wp_step. wp_step. destruct (original_reader _ _) as [[r err]|e] eqn:Er; simpl; [|done].
  wp_step. wp_step. destruct (hash_reader _ _ _) as [[n d]|e] eqn:E; simpl; [|done].
  destruct (negb _ || _) eqn:Eb; wp_step; [done|]. split; [done|]. intros _.
  apply orb_false_iff in Eb as [->%negb_false_iff%Z.eqb_eq ->%negb_false_iff%eqs_true].
  exists b1. split; [done|]. assert (b2 = b1) as -> by congruence. split; [done|].
  by eapply original_reader_restores.
Qed.

(* ------------------------------------------------------------------ *)
(** ** Preparing every artifact *)

Definition is_assembled (u : string) (p : path) : Prop :=
  exists i uuid, p = assembled_artifact_path u i uuid.
Lemma is_assembled_not_blob u p : is_assembled u p -> ~ is_blob p.
Proof. intros (i & uuid & ->). apply assembled_not_blob. Qed.

Lemma cleanup_prepared_touches P s0 prepared :
  Forall (fun p => P (assembled_path p)) prepared -> keeps (touches P s0) (cleanup_prepared prepared).
Proof.
  intros HF. apply keeps_for_each. intros p Hp. rewrite Forall_forall in HF.
  keeps_tac. apply keeps_touches_remove_file. by apply HF.
Qed.

Lemma only_path_other p s s' q x : only_path p s s' -> files s !! p = None ->
  files s !! q = Some x -> files s' !! q = Some x.
Proof. intros [_ F] Hp Hq. rewrite F; [done|]. intros ->. congruence. Qed.

Lemma assembled_other p s s' ps : only_path p s s' -> files s !! p = None ->
  Forall (assembled (files s)) ps -> Forall (assembled (files s')) ps.
Proof.
  intros Ho Hp HF. eapply Forall_impl; [exact HF|]. intros q (content & Hc & Hv). exists content.
  split; [by eapply only_path_other|done].
Qed.

(** One artifact: assembled at a path that was free, and verified. *)
Lemma prepare_one_spec upload row a p s : artifact_typed a ->
  wp (assemble_artifact upload row a p &; verify_artifact p a) (fun r s' =>
    only_path p s s' /\ (r = Ok tt -> files s !! p = None
      /\ exists content, files s' !! p = Some (Regular content) /\ verified_bytes a content)) s.
Proof.
  intros Ha. wp_step. eapply wp_mono; [|apply assemble_artifact_spec].
  intros [[]|e] s1 [Ho H1]; simpl; [|by split]. destruct (H1 eq_refl) as [Hnone _].
  eapply wp_mono; [|by apply verify_artifact_spec]. intros r s2 [-> H2].
  split; [done|]. intros Hr. split; [done|by apply H2].
Qed.

Definition prepared_in (u : string) (f : Files) (ps : list PreparedArtifact) : Prop :=
  Forall (assembled f) ps /\ Forall (fun p => is_assembled u (assembled_path p)) ps.

Lemma prepare_loop_spec upload l : forall prepared s,
  Forall (fun ar => artifact_typed ar.1) l -> prepared_in (Upload.id upload) (files s) prepared ->
  wp (prepare_loop upload l prepared) (fun r s' =>
    touches (is_assembled (Upload.id upload)) s s' /\
    match r with
    | Ok ps => prepared_in (Upload.id upload) (files s') ps
               /\ artifact <$> ps = (artifact <$> prepared) ++ l.*1
    | Err _ => True
    end) s.
Proof.
  set (u := Upload.id upload).
  induction l as [|[a row] l IH]; intros prepared s Hl [Hp Hu]; simpl.
  - wp_step. split; [apply touches_refl|]. by rewrite app_nil_r.
  - apply Forall_cons in Hl as [Ha Hl]. wp_step. wp_step.
    destruct (to_u32 _) as [index|]; simpl; [|split; [apply touches_refl|done]].
    wp_step. wp_step. simpl. set (p := assembled_artifact_path u index (now_v7 (drawn s))).
    assert (Hpu : is_assembled u p) by (by exists index, (now_v7 (drawn s))).
    wp_step. wp_step. eapply wp_mono; [|by apply prepare_one_spec]. intros r1 s1 [Ho H1].
    assert (Ht : touches (is_assembled u) s s1).
    { destruct Ho as [D F]. split; [done|]. intros q Hq. apply F. by intros ->. }
    destruct r1 as [[]|e]; simpl.
    + destruct (H1 eq_refl) as (Hnone & content & Hc & Hv).
      eapply wp_mono; [|apply IH].
      * intros r s2 [Ht2 H2]. split; [by eapply touches_trans|]. destruct r as [ps|]; [|done].
        destruct H2 as [? E]. split; [done|]. by rewrite E, fmap_app, <-app_assoc.
      * done.
      * split; apply Forall_app; split; [|by constructor; [exists content|constructor]|done|by constructor].
        by apply (assembled_other p (mkStore (db s) (files s) (S (drawn s))) s1).
    + assert (Hr : keeps (touches (is_assembled u) s) (@attempt _ ApiError _ (remove_file Api.storage p)))
        by (apply keeps_attempt; by apply keeps_touches_remove_file).
      wp_step. eapply wp_mono; [|apply Hr, Ht]. intros [r2|e2] s2 Ht2; simpl; [|by split].
      wp_step. eapply wp_mono; [|apply (cleanup_prepared_touches _ s prepared Hu), Ht2].
      intros [r3|e3] s3 Ht3; simpl; [wp_step|]; by split.
Qed.

Lemma prepare_artifacts_spec upload m rows s :
  Forall artifact_typed (artifacts m) -> length (artifacts m) = length rows ->
  wp (prepare_artifacts upload m rows) (fun r s' =>
    touches (is_assembled (Upload.id upload)) s s' /\
    match r with
    | Ok ps => prepared_in (Upload.id upload) (files s') ps /\ artifact <$> ps = artifacts m
    | Err _ => True
    end) s.
Proof.
  intros Hm Hlen. eapply wp_mono; [|apply prepare_loop_spec].
  - intros r s' [Ht H1]. split; [done|]. destruct r as [ps|]; [|done]. destruct H1 as [? E].
    split; [done|]. rewrite E. simpl. apply fst_zip. lia.
  - apply Forall_forall. intros [a row] Hin. apply elem_of_zip_l in Hin. rewrite Forall_forall in Hm. by apply Hm.
  - by split.
Qed.

(* ------------------------------------------------------------------ *)
(** ** Promoting to blob paths *)

(** What promotion and its cleanup may change: blob files that no row of
    [blobs] records. *)
Record promoting (owner : string) (s s' : Store) : Prop := {
  pr_db : db s' = db s;
  pr_other : forall q, ~ is_blob q -> files s' !! q = files s !! q;
  pr_kept : forall b, b ∈ stored_blobs (db s) -> sb_owner b = owner ->
            forall x, files s !! blob_path (sb_digest b) = Some x ->
            files s' !! blob_path (sb_digest b) = Some x;
}.
Lemma promoting_refl owner s : promoting owner s s.
Proof. by split. Qed.
Lemma promoting_trans owner s1 s2 s3 : promoting owner s1 s2 -> promoting owner s2 s3 -> promoting owner s1 s3.
Proof.
  intros [D1 O1 K1] [D2 O2 K2]. split; [congruence| |].
  - intros q Hq. by rewrite O2, O1.
  - intros b Hb Ho x Hx. apply K2; [by rewrite D1|done|]. by apply K1.
Qed.
#[export] Instance promoting_draw owner s : DrawStable (promoting owner s).
Proof. by intros s' [D O K]. Qed.

Lemma archive_sound_promoting owner s s' :
  promoting owner s s' -> archive_sound owner s -> archive_sound owner s'.
Proof.
  intros [D _ K] [O I G L S]. split; rewrite ?D; try done.
  intros a Ha. destruct (S a Ha) as (b & Hb & Hid & (c & Hc & Hm) & Hv). exists b. split; [done|].
  split; [done|]. split; [|done]. exists c. split; [|done]. apply K; [done| |done].
  rewrite Forall_forall in O. by apply O.
Qed.
Lemma chunks_backed_files s s' : db s' = db s ->
  (forall u a i, files s' !! artifact_chunk_path u a i = files s !! artifact_chunk_path u a i) ->
  chunks_backed s -> chunks_backed s'.
Proof.
  intros D F Hs r Hr. rewrite D in Hr |- *. destruct (Hs r Hr) as [Hu Hb]. split; [done|]. intros Ho.
  eapply backed_elsewhere; [|by apply Hb]. by intros p -> x; rewrite F.
Qed.

(** Files only appear. *)
Record grows (s s' : Store) : Prop := {
  gr_db : db s' = db s;
  gr_other : forall q, ~ is_blob q -> files s' !! q = files s !! q;
  gr_kept : forall q x, files s !! q = Some x -> files s' !! q = Some x;
}.
Lemma grows_refl s : grows s s.
Proof. by split. Qed.
Lemma grows_trans s1 s2 s3 : grows s1 s2 -> grows s2 s3 -> grows s1 s3.
Proof.
  intros [D1 O1 K1] [D2 O2 K2]. split; [congruence| |auto]. intros q Hq. by rewrite O2, O1.
Qed.
Lemma grows_promoting owner s s' : grows s s' -> promoting owner s s'.
Proof. intros [D O K]. split; [done|done|]. intros b _ _ x. apply K. Qed.

(** The blob of an artifact is on disk. *)
Definition blob_present (f : Files) (a : Artifact) : Prop :=
  holds_content f (blob_path (stored_digest a)) (stored_size_bytes a) (stored_digest a).

Lemma blob_present_grows s s' a : grows s s' -> blob_present (files s) a -> blob_present (files s') a.
Proof. intros [_ _ K]. apply holds_content_preserved, K. Qed.
Lemma assembled_grows s s' p : grows s s' -> assembled (files s) p -> assembled (files s') p.
Proof. intros [_ _ K] (c & Hc & Hv). exists c. split; [by apply K|done]. Qed.

Lemma promote_blob_spec p s : 0 <= stored_size_bytes (artifact p) -> assembled (files s) p ->
  wp (promote_blob (assembled_path p) (stored_sha256 (artifact p)) (stored_size_bytes (artifact p)))
    (fun r s' => grows s s' /\ (is_ok r = true -> blob_present (files s') (artifact p))) s.
Proof.
  intros Hs (content & Hc & [Hz Hd] & _). unfold promote_blob. change (digest_storage_value _) with (stored_digest (artifact p)).
  wp_step. wp_step; simpl; [by split; [apply grows_refl|]|].
  wp_step. wp_step; simpl.
  - wp_step. by split; [apply grows_refl|].
  - intros x y _ _. wp_step. eapply wp_mono; [|by apply verify_stored_file_spec].
    intros [[]|e] s1 [-> Hv]; simpl; [wp_step|]; (split; [apply grows_refl|]); [|done].
    intros _. by apply Hv.
  - intros x Hx Hnone. simplify_eq.
    set (s1 := mkStore (db s) _ (drawn s)).
    assert (Hg : grows s s1).
    { split; [done| |]; simpl.
      - intros q Hq. rewrite lookup_insert_ne; [done|]. intros <-. apply Hq. by eexists.
      - intros q z Hqz. rewrite lookup_insert_ne; [done|]. intros <-. congruence. }
    wp_step. wp_step; simpl; [by split|]. wp_step. split; [done|]. intros _.
    exists content. split; [simpl; by rewrite lookup_insert_eq|by split].
Qed.

Lemma cleanup_promotion_promoting st s0 p :
  keeps (promoting (Storage.owner_namespace st) s0) (cleanup_promotion st p).
Proof.
  intros s Hs. unfold cleanup_promotion. destruct (created p); [|by wp_step].
  wp_step. wp_step; simpl; [done|]. case_bool_decide as Hn; [|by wp_step].
  rewrite select_one_None in Hn. wp_step; [done|]. eapply promoting_trans; [exact Hs|]. split; [done| |]; simpl.
  - intros q Hq. rewrite lookup_delete_ne; [done|]. intros <-. apply Hq. by eexists.
  - intros b Hb Ho x Hx. rewrite lookup_delete_ne; [done|]. intros E%blob_path_inj.
    apply list_elem_of_fmap in Hb as (row & -> & Hrow). specialize (Hn row Hrow).
    simpl in *. unfold blob_key in Hn. rewrite Ho, E, !eqs_refl in Hn. done.
Qed.
Lemma cleanup_promotions_promoting st s0 promotions :
  keeps (promoting (Storage.owner_namespace st) s0) (cleanup_uncommitted_promotions st promotions).
Proof. apply keeps_for_each. intros p _. apply cleanup_promotion_promoting. Qed.

Lemma promote_loop_spec st l : forall promotions s,
  Forall (fun p => 0 <= stored_size_bytes (artifact p)) l -> Forall (assembled (files s)) l ->
  wp (promote_loop st l promotions) (fun r s' =>
    promoting (Storage.owner_namespace st) s s' /\
    (is_ok r = true -> grows s s' /\ Forall (fun p => blob_present (files s') (artifact p)) l)) s.
Proof.
  induction l as [|p l IH]; intros promotions s Hz Ha; simpl.
  - wp_step. split; [apply promoting_refl|]. intros _. split; [apply grows_refl|done].
  - apply Forall_cons in Hz as [Hzp Hz]. apply Forall_cons in Ha as [Hap Ha].
    wp_step. wp_step. eapply wp_mono; [|by apply promote_blob_spec]. intros r s1 [Hg Hb].
    assert (Hpr : promoting (Storage.owner_namespace st) s s1) by (by apply grows_promoting).
    destruct r as [fresh|e]; simpl.
    + eapply wp_mono; [|apply IH; [done|]].
      2: { eapply Forall_impl; [exact Ha|]. intros q. by apply assembled_grows. }
      intros r s2 [Hpr2 H2]. split; [by eapply promoting_trans|]. intros Hr.
      destruct (H2 Hr) as [Hg2 HF]. split; [by eapply grows_trans|]. constructor; [|done].
      eapply blob_present_grows; [exact Hg2|]. by apply Hb.
    + wp_step. wp_step. eapply wp_mono; [|by apply cleanup_promotions_promoting].
      intros r s2 Hpr2; simpl. wp_step. by split.
Qed.

Lemma elem_of_first_by_digest l : forall seen p, p ∈ l ->
  stored_digest (artifact p) ∈ seen
  \/ exists q, q ∈ first_by_digest seen l /\ stored_digest (artifact q) = stored_digest (artifact p).
Proof.
  induction l as [|x l IH]; intros seen p Hp; [by apply elem_of_nil in Hp|]. simpl.
  case_bool_decide as Hx; apply elem_of_cons in Hp as [->|Hp].
  - by left.
  - by apply IH.
  - right. exists x. split; [left|done].
  - destruct (IH (stored_digest (artifact x) :: seen) p Hp) as [[E|?]%elem_of_cons|(q & Hq & E)].
    + right. exists x. split; [left|done].
    + by left.
    + right. exists q. split; [by right|done].
Qed.
Lemma first_by_digest_subset l : forall seen p, p ∈ first_by_digest seen l -> p ∈ l.
Proof.
  induction l as [|x l IH]; intros seen p; simpl; [done|].
  case_bool_decide; [intros Hp%IH; by right|]. intros [->|Hp%IH]%elem_of_cons; [left|by right].
Qed.
(** Every digest has its representative, and it is one of the artifacts. *)
Lemma unique_stored_artifacts_spec prepared :
  (forall p, p ∈ unique_stored_artifacts prepared -> p ∈ prepared)
  /\ (forall p, p ∈ prepared -> exists q, q ∈ unique_stored_artifacts prepared
        /\ stored_digest (artifact q) = stored_digest (artifact p)).
Proof.
  unfold unique_stored_artifacts. split.
  - intros p. rewrite merge_sort_Permutation. apply first_by_digest_subset.
  - intros p Hp. destruct (elem_of_first_by_digest prepared [] p Hp) as [?%elem_of_nil|(q & Hq & E)]; [done|].
    exists q. by rewrite merge_sort_Permutation.
Qed.
End Assembly.
