(* ===== verification/Publication.v ===== *)
(** The metadata half of a completion: one transaction records the blobs, the
    snapshot, its artifacts and the capture; nothing of it is visible unless
    all of it is, and every reference it adds is to bytes already in place. *)
From stdpp Require Import prelude strings gmap sorting list.
From Stdlib Require Import ZArith Ascii Lia.
From Stdlib.Strings Require Import Byte.
From S2P Require Import Prelude Errors Contract Externals Validation Chunks Fingerprint Pagination.
From S2P Require Import Tables Store Storage Uploads Receipts Completion Deletion Archive.
From S2P Require Import Invariants Assembly.

Section Blobs.
Context `{EV : Env} `{UL : UuidLib} `{TL : TimeLib} `{ML : MimeLib} `{SL : ShaLib} `{ZL : ZstdLib} `{JL : JsonLib}.
Context (st : AppState).
Abbreviation owner := (Storage.owner_namespace st).

Lemma stored_blobs_update p o e q d :
  stored_blobs (with_blobs (update p (Blob.set_orphan o e q)) d) = stored_blobs d.
Proof.
  unfold stored_blobs, update. simpl. change (map ?g ?l) with (g <$> l).
  rewrite <-list_fmap_compose. apply list_fmap_ext. intros ? b _. simpl. by destruct (p b).
Qed.

(** The row of [blobs] under which an artifact's stored bytes are recorded. *)
Definition blob_recorded (d : Db) (id : string) (a : Artifact) : Prop :=
  exists b, b ∈ stored_blobs d /\ sb_id b = id /\ sb_digest b = stored_digest a
            /\ sb_size b = stored_size_bytes a /\ sb_compression b = as_str (compression a).

(** Only blob rows were added. *)
Definition blobs_added (d d' : Db) : Prop :=
  (forall b, b ∈ stored_blobs d -> b ∈ stored_blobs d') /\ d' = with_blobs (fun _ => blobs d') d.
Lemma blobs_added_refl d : blobs_added d d.
Proof. split; [done|]. by destruct d. Qed.
Lemma blobs_added_trans d1 d2 d3 : blobs_added d1 d2 -> blobs_added d2 d3 -> blobs_added d1 d3.
Proof. intros [K1 E1] [K2 E2]. split; [auto|]. rewrite E2, E1. by destruct d1. Qed.
Lemma blob_recorded_added d d' id a : blobs_added d d' -> blob_recorded d id a -> blob_recorded d' id a.
Proof. intros [K _] (b & Hb & ?). exists b. split; [by apply K|done]. Qed.

(** Adding a blob row with a new identifier and a new digest. *)
Lemma archive_sound_add_blob s row :
  archive_sound owner s ->
  Blob.owner_namespace row = owner ->
  (forall q, q ∈ blobs (db s) -> blob_key owner (Blob.stored_sha256 row) q = false
                                 /\ eqs (Blob.id q) (Blob.id row) = false) ->
  archive_sound owner (mkStore (with_blobs (fun t => t ++ [row]) (db s)) (files s) (drawn s)).
Proof.
  intros [O I G L S] Ho Hno.
  assert (E : stored_blobs (with_blobs (fun t => t ++ [row]) (db s)) = stored_blobs (db s) ++ [stored_blob row])
    by (unfold stored_blobs; simpl; by rewrite fmap_app).
  assert (Hnew : forall b, b ∈ stored_blobs (db s) -> sb_id b <> Blob.id row /\ sb_digest b <> Blob.stored_sha256 row).
  { intros b Hb. rewrite Forall_forall in O. pose proof (O b Hb) as Hob.
    apply list_elem_of_fmap in Hb as (q & -> & Hq). destruct (Hno q Hq) as [Hk Hi%eqs_false]. simpl in *.
    split; [done|]. intros Ed. unfold blob_key in Hk. by rewrite Hob, Ed, !eqs_refl in Hk. }
  split; simpl; rewrite ?E.
  - apply Forall_app. split; [done|]. by constructor.
  - rewrite fmap_app. apply NoDup_app. split_and!; [done| |by apply NoDup_singleton].
    intros id (b & -> & Hb)%list_elem_of_fmap. simpl. rewrite list_elem_of_singleton. by apply Hnew.
  - rewrite fmap_app. apply NoDup_app. split_and!; [done| |by apply NoDup_singleton].
    intros id (b & -> & Hb)%list_elem_of_fmap. simpl. rewrite list_elem_of_singleton. by apply Hnew.
  - exact L.
  - intros a Ha. destruct (S a Ha) as (b & Hb & Hs). exists b. split; [|done]. apply elem_of_app. by left.
Qed.

Lemma get_or_create_blob_spec a now s : archive_sound owner s ->
  wp (get_or_create_blob st a now) (fun r s' =>
    archive_sound owner s' /\ files s' = files s /\ blobs_added (db s) (db s')
    /\ forall id, r = Ok id -> blob_recorded (db s') id a) s.
Proof.
  intros Hs. assert (Hrefl : blobs_added (db s) (db s)) by apply blobs_added_refl.
  pose proof (draw_stable s Hs) as Hdraw.
  unfold get_or_create_blob. wp_step. wp_step. simpl. wp_step. wp_step.
  destruct (to_sqlite_i64 _) as [size|e] eqn:Ez; simpl; [|by split_and!].
  apply to_sqlite_i64_Ok in Ez as [-> _].
  wp_step. wp_step; simpl; [intros x; by split_and!|]. intros d n Ex.
  destruct (insert_or_ignore _ _ _ _) as [[t k]|] eqn:Ei; [|done]. injection Ex as <- <-.
  set (s1 := mkStore _ (files s) (S (drawn s))).
  assert (H1 : archive_sound owner s1 /\ blobs_added (db s) (db s1)).
  { apply insert_or_ignore_Some in Ei as [(-> & -> & _)|(-> & -> & Hno)].
    - assert (E : db s1 = db s) by (subst s1; simpl; by destruct (db s)). rewrite E. split; [|done].
      eapply archive_sound_same; [|exact Hs]. split; [by rewrite E|done].
    - split.
      + exact (draw_stable (I := archive_sound owner) _ (archive_sound_add_blob s
          (Blob.mk (now_v7 (drawn s)) owner (stored_digest a) (stored_size_bytes a)
             (as_str (compression a)) now None None None) Hs eq_refl Hno)).
      + split; [|by subst s1; destruct (db s)]. intros b Hb. unfold stored_blobs. simpl.
        rewrite fmap_app. apply elem_of_app. by left. }
  assert (Hf1 : files s1 = files s) by done. clearbody s1. destruct H1 as [Hs1 Ha1].
  wp_step. wp_step; simpl; [intros x; by split_and!|]. intros row Hrow.
  apply select_one_Some in Hrow as [[Eo%eqs_true Ed%eqs_true]%andb_true_iff Hrow].
  destruct (negb _ || _) eqn:Eb; [wp_step; by split_and!|].
  apply orb_false_iff in Eb as [Ez%negb_false_iff%Z.eqb_eq Ec%negb_false_iff%eqs_true].
  wp_step. wp_step; simpl; [intros x; by split_and!|]. intros d2 [] [= <-]. wp_step.
  set (s2 := mkStore _ (files s1) (drawn s1)).
  assert (E2 : stored_blobs (db s2) = stored_blobs (db s1)) by apply stored_blobs_update.
  assert (Ha2 : blobs_added (db s1) (db s2)).
  { split; [by rewrite E2|]. subst s2. by destruct (db s1). }
  split_and!; [|done|by eapply blobs_added_trans|].
  - eapply archive_sound_same; [|exact Hs1]. split; [|done]. unfold archive_tables. by rewrite E2.
  - intros id [= <-]. exists (stored_blob row). rewrite E2. split_and!; [|done..].
    by apply list_elem_of_fmap_2.
Qed.

(** Artifacts that share a digest share its representation. *)
Definition consistent (prepared : list PreparedArtifact) : Prop :=
  forall p q, p ∈ prepared -> q ∈ prepared ->
    stored_digest (artifact p) = stored_digest (artifact q) ->
    stored_size_bytes (artifact p) = stored_size_bytes (artifact q)
    /\ compression (artifact p) = compression (artifact q).

Lemma blob_recorded_consistent d id a a' :
  stored_digest a = stored_digest a' -> stored_size_bytes a = stored_size_bytes a' ->
  compression a = compression a' -> blob_recorded d id a -> blob_recorded d id a'.
Proof. intros E1 E2 E3 (b & Hb & ? & ? & ? & ?). exists b. split_and!; congruence. Qed.

(** The map of blob identifiers covers the artifacts seen so far. *)
Definition ids_recorded (d : Db) (all : list PreparedArtifact) (ids : gmap string string) : Prop :=
  forall p id, p ∈ all -> ids !! stored_digest (artifact p) = Some id -> blob_recorded d id (artifact p).

Lemma collect_blob_ids_spec all now l : forall ids s, consistent all -> (forall p, p ∈ l -> p ∈ all) ->
  archive_sound owner s -> ids_recorded (db s) all ids ->
  wp (collect_blob_ids st now l ids) (fun r s' =>
    archive_sound owner s' /\ files s' = files s /\ blobs_added (db s) (db s')
    /\ forall ids', r = Ok ids' -> ids_recorded (db s') all ids') s.
Proof.
  induction l as [|p l IH]; intros ids s Hc Hl Hs Hids; simpl.
  - wp_step. split_and!; [done..|apply blobs_added_refl|]. by intros ids' [= <-].
  - assert (Hl' : forall q, q ∈ l -> q ∈ all) by (intros q Hq; apply Hl; by right).
    destruct (ids !! _) as [id|] eqn:E; [by apply IH|].
    wp_step. eapply wp_mono; [|by apply get_or_create_blob_spec].
    intros [id|e] s1 (Hs1 & Hf1 & Ha1 & Hr1); simpl; [|by split_and!].
    eapply wp_mono; [|apply IH; [done|done|done|]].
    + intros r s2 (Hs2 & Hf2 & Ha2 & Hr2). split_and!; [done|congruence|by eapply blobs_added_trans|done].
    + intros q id' Hq. destruct (decide (stored_digest (artifact p) = stored_digest (artifact q))) as [Eq|Hne].
      * rewrite Eq, lookup_insert_eq. intros [= <-].
        destruct (Hc p q) as [E1 E2]; [apply Hl; left|done|done|].
        eapply blob_recorded_consistent; [exact Eq|exact E1|exact E2|by apply Hr1].
      * rewrite lookup_insert_ne by done. intros Hid. eapply blob_recorded_added; [exact Ha1|]. by apply Hids.
Qed.

(* ------------------------------------------------------------------ *)
(** ** The snapshot and its artifacts *)

Lemma select_one_app {R} (p : R -> bool) t u :
  select_one p (t ++ u) = match select_one p t with Some r => Some r | None => select_one p u end.
Proof. unfold select_one, select. rewrite filter_app. by destruct (filter _ t). Qed.

(** Everything the artifacts need: their blobs recorded and on disk, and their
    bytes verified. *)
Record publishable (f : Files) (d : Db) (ids : gmap string string) (p : PreparedArtifact) : Prop := {
  pu_recorded : forall id, ids !! stored_digest (artifact p) = Some id -> blob_recorded d id (artifact p);
  pu_present : blob_present f (artifact p);
  pu_verified : exists content, verified_bytes (artifact p) content;
}.

Lemma publishable_same f d d' ids l :
  stored_blobs d' = stored_blobs d -> Forall (publishable f d ids) l -> Forall (publishable f d' ids) l.
Proof.
  intros E HF. eapply Forall_impl; [exact HF|]. intros p [Hr Hp Hv]. split; [|done|done].
  intros id Hid. destruct (Hr id Hid) as (b & Hb & ?). exists b. by rewrite E.
Qed.

Lemma insert_snapshot_sound row s : Snapshot.deleted_at row = None -> archive_sound owner s ->
  let dn := insert_snapshot row (db s) in
  archive_sound owner (mkStore dn.1 (files s) (drawn s))
  /\ stored_blobs dn.1 = stored_blobs (db s)
  /\ (dn.2 =? 0 = false -> is_Some (live_snapshot_by_id (Snapshot.id row) dn.1)).
Proof.
  intros Hlive [O I G L S]. unfold insert_snapshot. cbv zeta.
  destruct (existsb _ (snapshots (db s))) eqn:E; simpl; [by split_and!|].
  rewrite existsb_false in E. split_and!; [split; try done|done|].
  - intros a Ha. simpl in *. destruct (L a Ha) as [x Hx]. exists x.
    unfold live_snapshot_by_id in *. simpl. by rewrite select_one_app, Hx.
  - intros _. unfold live_snapshot_by_id. simpl. rewrite select_one_app.
    assert (Hn : select_one (fun r => eqs (Snapshot.id r) (Snapshot.id row) && live r) (snapshots (db s)) = None).
    { apply select_one_None. intros r Hr. specialize (E r Hr). apply orb_false_iff in E as [-> _]. done. }
    rewrite Hn. exists row. unfold select_one, select. rewrite filter_cons, decide_True; [done|].
    rewrite eqs_refl. unfold live. by rewrite bool_decide_true.
Qed.

Lemma archive_sound_add_artifact s a b :
  archive_sound owner s -> is_Some (live_snapshot_by_id (ArtifactRow.snapshot_id a) (db s)) ->
  b ∈ stored_blobs (db s) -> artifact_stored (files s) a b ->
  archive_sound owner (mkStore (with_artifact_rows (fun t => t ++ [a]) (db s)) (files s) (drawn s)).
Proof.
  intros [O I G L S] Hl Hb Ha. split; try done.
  - intros x. simpl. intros [Hx| ->%list_elem_of_singleton]%elem_of_app; [exact (L x Hx)|exact Hl].
  - intros x. simpl. intros [Hx| ->%list_elem_of_singleton]%elem_of_app; [exact (S x Hx)|]. by exists b.
Qed.

Lemma publishable_stored f d ids p id a :
  publishable f d ids p -> ids !! stored_digest (artifact p) = Some id ->
  ArtifactRow.blob_id a = id -> ArtifactRow.original_size_bytes a = original_size_bytes (artifact p) ->
  ArtifactRow.original_sha256 a = digest_storage_value (original_sha256 (artifact p)) ->
  exists b, b ∈ stored_blobs d /\ artifact_stored f a b.
Proof.
  intros [Hr Hp (content & Hm & Ho)] Hid Ea Ez Ed. destruct (Hr _ Hid) as (b & Hb & E1 & E2 & E3 & E4).
  exists b. split; [done|]. split; [congruence|]. split.
  - unfold blob_file, measures. rewrite E2, E3. exact Hp.
  - exists (compression (artifact p)), content. rewrite E2, E3, E4, Ez, Ed. split_and!; [by apply text_law|done|done].
Qed.

Lemma insert_artifacts_spec snapshot_id now seq ids l : forall s,
  archive_sound owner s -> is_Some (live_snapshot_by_id snapshot_id (db s)) ->
  Forall (publishable (files s) (db s) ids) l ->
  wp (insert_artifacts snapshot_id now seq ids l) (fun _ s' => archive_sound owner s') s.
Proof.
  induction l as [|p l IH]; intros s Hs Hl Hp; simpl; [by wp_step|].
  apply Forall_cons in Hp as [Hp HF]. pose proof (draw_stable s Hs) as Hdraw.
  wp_step. wp_step. destruct (ids !! _) as [id|] eqn:Eid; simpl; [|done].
  wp_step. wp_step. simpl. wp_step. wp_step. destruct (to_sqlite_i64 _) as [size|e] eqn:Ez; simpl; [|done].
  apply to_sqlite_i64_Ok in Ez as [-> _].
  wp_step. wp_step; simpl; [done|]. intros d [] Ex.
  destruct (insert_row _ _ _) as [t|] eqn:Ei; [|done]. injection Ex as <-.
  apply insert_row_Some in Ei as [-> _]. set (row := ArtifactRow.mk _ _ _ _ _ _ _ _ _ _).
  destruct (publishable_stored _ _ _ _ id row Hp) as (b & Hb & Ha); [done..|].
  apply IH.
  - exact (draw_stable (I := archive_sound owner) _ (archive_sound_add_artifact s row b Hs Hl Hb Ha)).
  - exact Hl.
  - by eapply publishable_same; [|exact HF].
Qed.

(* ------------------------------------------------------------------ *)
(** ** The rest of the transaction leaves the archive alone *)

Lemma same_insert_capture_provenance s0 upload m mid sid at_ :
  keeps (same_archive s0) (insert_capture_provenance st upload m mid sid at_).
Proof.
  unfold insert_capture_provenance, maintain_session_latest_context, upsert_session_latest_context.
  keeps_same_tac.
Qed.
Lemma same_complete_rows s0 u sid now a b :
  keeps (same_archive s0) (execute classify_database_error (fun d => Some (complete_rows u sid now a b d))).
Proof. apply keeps_same_execute. unfold complete_rows. intros d d' n [= <- <-]. by destruct d. Qed.
#[local] Hint Resolve same_insert_capture_provenance same_complete_rows : keeps.

Lemma same_finalize_existing s0 upload m sid n :
  keeps (same_archive s0) (finalize_upload_for_existing_snapshot st upload m sid n).
Proof.
  unfold finalize_upload_for_existing_snapshot, finalize_existing_transaction, now_rfc3339.
  repeat lazymatch goal with
  | |- keeps _ (execute _ (fun d => Some (complete_rows _ _ _ _ _ d))) => apply same_complete_rows
  | _ => keeps_same_step
  end.
Qed.
Lemma archive_same {E A} (m : M E A) s :
  (forall s0, keeps (same_archive s0) m) -> archive_sound owner s -> wp m (fun _ s' => archive_sound owner s') s.
Proof. intros Hm. by apply (keeps_archive_same owner). Qed.

Lemma finalize_winning_spec upload m mid sid prepared ids now seq a b s :
  archive_sound owner s -> is_Some (live_snapshot_by_id sid (db s)) ->
  Forall (publishable (files s) (db s) ids) prepared ->
  wp (finalize_winning_snapshot st upload m mid sid prepared ids now seq a b)
    (fun _ s' => archive_sound owner s') s.
Proof.
  intros Hs Hl Hp. unfold finalize_winning_snapshot. wp_step.
  eapply wp_mono; [|by apply insert_artifacts_spec]. intros [[]|e] s1 Hs1; simpl; [|done].
  apply archive_same; [|done]. intros s0.
  repeat lazymatch goal with
  | |- keeps _ (execute _ (fun d => Some (complete_rows _ _ _ _ _ d))) => apply same_complete_rows
  | _ => keeps_same_step
  end.
Qed.

Lemma record_transaction_spec upload m prepared fp now seq a b s :
  archive_sound owner s -> consistent prepared ->
  Forall (fun p => blob_present (files s) (artifact p)) prepared ->
  Forall (fun p => exists content, verified_bytes (artifact p) content) prepared ->
  wp (record_transaction st upload m prepared fp now seq a b) (fun _ s' => archive_sound owner s') s.
Proof.
  intros Hs Hc Hp Hv. unfold record_transaction. wp_step.
  eapply wp_mono; [|apply (collect_blob_ids_spec prepared); [done|done|done|]].
  2: { intros p id _ Hid. by rewrite lookup_empty in Hid. }
  intros [ids|e] s1 (Hs1 & Hf & Ha & Hids); simpl; [|done]. specialize (Hids ids eq_refl).
  wp_step. wp_step; simpl; [done|]. intros mid _. wp_step. wp_step; simpl; [done|].
  wp_step. wp_step. destruct (manifest_totals m) as [totals|]; simpl; [|done].
  pose proof (draw_stable s1 Hs1) as Hdraw.
  wp_step. wp_step. simpl. set (candidate := now_v7 (drawn s1)).
  do 3 (wp_step; wp_step; match goal with |- context [then_wp _ _ ?c] => destruct c as [?|?] end; simpl; [|done]).
  wp_step. wp_step; simpl; [done|]. intros d n Ex.
  injection Ex as Ex. set (row := Snapshot.mk _ _ _ _ _ _ _ _ _ _ _ _ _) in *.
  destruct (insert_snapshot_sound row (mkStore (db s1) (files s1) (S (drawn s1))) eq_refl Hdraw)
    as (Hs2 & Eb & Hlive). simpl in Hs2, Eb, Hlive. rewrite Ex in Hs2, Eb, Hlive. simpl in *.
  destruct (n =? 0) eqn:En; [by wp_step|].
  wp_step. eapply wp_mono; [|apply finalize_winning_spec; [exact Hs2|by apply Hlive|]].
  - intros [[]|e] s3 Hs3; simpl; [|done]. wp_step.
    match goal with |- wp ?m _ _ => assert (Hk : forall s0, keeps (same_archive s0) m) end.
    { intros s0. keeps_same_tac. }
    eapply wp_mono; [|by apply archive_same]. intros [[]|e] s4 Hs4; simpl; [by wp_step|done].
  - eapply (publishable_same _ (db s1)); [exact Eb|]. rewrite Forall_forall in Hp, Hv |- *.
    intros p Hin. split; simpl; [intros id Hid; by apply (Hids p id)|rewrite Hf; by apply Hp|by apply Hv].
Qed.

(* ------------------------------------------------------------------ *)
(** ** Uploads, chunks and manifests across the transaction *)

(** Upload [u] accepts nothing any more. *)
Definition closed (u : string) (s : Store) : Prop :=
  existsb (fun up => status_open (Upload.status up)) (uploads_of u (db s)) = false.
#[export] Instance closed_draw u : DrawStable (closed u).
Proof. intros s Hs. exact Hs. Qed.
Lemma keeps_closed_execute u {E A} (err : SqlxError -> E) (f : Db -> option (Db * A)) :
  (forall d d' a, f d = Some (d', a) -> uploads d' = uploads d) -> keeps (closed u) (execute err f).
Proof.
  intros Hf. apply keeps_execute. intros s d a Hs Ex. unfold closed, uploads_of in *. simpl.
  by rewrite (Hf _ _ _ Ex).
Qed.

Lemma complete_rows_closing u sid now a b d : uploads_closing d (complete_rows u sid now a b d).1.
Proof. apply uploads_closing_update; [done|]. by intros up [_ Ho]%andb_true_iff _. Qed.
Lemma complete_rows_closed u sid now a b s f n :
  closed u (mkStore (complete_rows u sid now a b (db s)).1 f n).
Proof.
  unfold closed, uploads_of. simpl. rewrite select_update by done. apply existsb_false.
  intros x. change (map ?g ?l) with (g <$> l). intros (up & -> & Hup)%list_elem_of_fmap.
  apply elem_of_select in Hup as [Hu _]. destruct (status_open (Upload.status up)) eqn:Eo.
  - by rewrite Hu.
  - by rewrite andb_false_r, Eo.
Qed.

Lemma complete_rows_execute u sid now a b s d k :
  Some (complete_rows u sid now a b (db s)) = Some (d, k) -> forall f n, closed u (mkStore d f n).
Proof. intros [= <- <-] f n. exact (complete_rows_closed u sid now a b s f n). Qed.

Ltac closed_execute :=
  let d := fresh "d" in
  apply keeps_closed_execute; intros d; do 2 intro; destruct d; simpl; table_cases; intros [= <- <-]; done.
Ltac keeps_closed_tac := repeat lazymatch goal with
  | |- keeps _ (execute _ _) => closed_execute
  | _ => keeps_step
  end.
Lemma closed_insert_capture_provenance u upload m mid sid at_ :
  keeps (closed u) (insert_capture_provenance st upload m mid sid at_).
Proof.
  unfold insert_capture_provenance, maintain_session_latest_context, upsert_session_latest_context.
  keeps_closed_tac.
Qed.

(** The statements the other tables see, for any invariant that the two
    interesting ones keep. *)
Ltac keeps_chunks_completion_tac := repeat lazymatch goal with
  | |- keeps _ (execute _ (fun d => Some (complete_rows _ _ _ _ _ d))) =>
      apply keeps_chunks_execute; intros d; do 2 intro; intros [= <- <-];
      split; [by destruct d|apply (complete_rows_closing _ _ _ _ _ d)]
  | |- keeps _ (execute _ (fun d => Some (insert_snapshot _ d))) =>
      apply keeps_chunks_execute; intros d; do 2 intro; unfold insert_snapshot;
      destruct (existsb _ _); intros [= <- <-]; split; [done|apply uploads_closing_refl|done|];
      by apply uploads_closing_eq
  | |- keeps _ (execute _ _) => chunks_execute
  | _ => keeps_step
  end.
Lemma chunks_insert_capture_provenance upload m mid sid at_ :
  keeps chunks_backed (insert_capture_provenance st upload m mid sid at_).
Proof.
  unfold insert_capture_provenance, maintain_session_latest_context, upsert_session_latest_context.
  keeps_chunks_tac.
Qed.
Lemma chunks_insert_artifacts sid now seq ids l : keeps chunks_backed (insert_artifacts sid now seq ids l).
Proof. induction l as [|p l IH]; simpl; keeps_chunks_tac. Qed.
Lemma chunks_collect_blob_ids now l : forall ids, keeps chunks_backed (collect_blob_ids st now l ids).
Proof. induction l as [|p l IH]; intros ids; simpl; [keeps_tac|]. unfold get_or_create_blob. keeps_chunks_tac. Qed.
#[local] Hint Resolve chunks_insert_capture_provenance chunks_insert_artifacts chunks_collect_blob_ids : keeps.

Lemma chunks_finalize_existing_transaction upload m sid now n :
  keeps chunks_backed (finalize_existing_transaction st upload m sid now n).
Proof. unfold finalize_existing_transaction. keeps_chunks_completion_tac. Qed.
Lemma chunks_record_transaction upload m prepared fp now seq a b :
  keeps chunks_backed (record_transaction st upload m prepared fp now seq a b).
Proof. unfold record_transaction, finalize_winning_snapshot. keeps_chunks_completion_tac. Qed.

Lemma db_only_insert_artifacts sid now seq ids l : db_only (insert_artifacts sid now seq ids l).
Proof. intros f k. induction l as [|p l IH]; simpl; keeps_tac. Qed.
Lemma db_only_collect_blob_ids now l : forall ids, db_only (collect_blob_ids st now l ids).
Proof.
  induction l as [|p l IH]; intros ids f k; simpl; [keeps_tac|].
  unfold db_only, get_or_create_blob in *. keeps_tac.
Qed.
Lemma db_only_insert_capture_provenance upload m mid sid at_ :
  db_only (insert_capture_provenance st upload m mid sid at_).
Proof.
  unfold insert_capture_provenance, maintain_session_latest_context, upsert_session_latest_context. db_only_tac.
Qed.
#[local] Hint Resolve db_only_insert_artifacts db_only_collect_blob_ids db_only_insert_capture_provenance : keeps.
Lemma db_only_finalize_existing_transaction upload m sid now n :
  db_only (finalize_existing_transaction st upload m sid now n).
Proof.
  unfold finalize_existing_transaction. do 2 intro.
  pose proof (fun mid => db_only_insert_capture_provenance upload m mid sid now) as Hp. unfold db_only in Hp. keeps_tac.
Qed.
Lemma db_only_record_transaction upload m prepared fp now seq a b :
  db_only (record_transaction st upload m prepared fp now seq a b).
Proof.
  unfold record_transaction, finalize_winning_snapshot. do 2 intro.
  pose proof (fun mid sid => db_only_insert_capture_provenance upload m mid sid now) as H1.
  pose proof (fun sid ids => db_only_insert_artifacts sid now seq ids prepared) as H2.
  pose proof (db_only_collect_blob_ids now prepared) as H3. unfold db_only in H1, H2, H3. keeps_tac.
Qed.

Lemma finalize_existing_transaction_closed upload m sid now n s :
  wp (finalize_existing_transaction st upload m sid now n) (fun r s' =>
    match r with Ok (Commit (Ok _)) => closed (Upload.id upload) s' | Ok (Rollback (Ok _)) => False | _ => True end) s.
Proof.
  unfold finalize_existing_transaction. wp_step. wp_step; simpl; [done|].
  destruct (live_snapshot_by_id _ _); [|by wp_step]. wp_step. wp_step.
  destruct (to_sqlite_i64 n) as [transfer|]; simpl; [|done].
  wp_step. wp_step; simpl; [done|]. intros d k Ex.
  pose proof (complete_rows_execute _ _ _ _ _ _ _ _ Ex (files s) (drawn s)) as Hc.
  destruct (k =? 1).
  - wp_step. wp_step; simpl; [done|]. intros mid _. wp_step.
    eapply wp_mono; [|by apply closed_insert_capture_provenance]. intros [[]|e] s2 Hs2; simpl; [by wp_step|done].
  - wp_step. wp_step; simpl; [done|]. wp_step. by destruct (completed_with _ _ _).
Qed.

Lemma finalize_winning_closed upload m mid sid prepared ids now seq a b s :
  wp (finalize_winning_snapshot st upload m mid sid prepared ids now seq a b)
    (fun r s' => r = Ok tt -> closed (Upload.id upload) s') s.
Proof.
  unfold finalize_winning_snapshot.
  apply wp_bind_any; [done|]. intros _ s1. wp_step. wp_step. destruct (to_sqlite_i64 a) as [transfer|]; simpl; [|done].
  wp_step. wp_step. destruct (to_sqlite_i64 b) as [persisted|]; simpl; [|done].
  wp_step. wp_step; simpl; [done|]. intros d k Ex.
  pose proof (complete_rows_execute _ _ _ _ _ _ _ _ Ex (files s1) (drawn s1)) as Hc.
  destruct (k =? 1).
  - eapply wp_mono; [|by apply closed_insert_capture_provenance]. auto.
  - wp_step. wp_step; simpl; [done|]. by destruct (completed_with _ _ _); wp_step.
Qed.

Lemma record_transaction_closed upload m prepared fp now seq a b s :
  wp (record_transaction st upload m prepared fp now seq a b) (fun r s' =>
    match r with Ok (Commit _) => closed (Upload.id upload) s' | Ok (Rollback won) => won = false | _ => True end) s.
Proof.
  unfold record_transaction. do 8 (apply wp_bind_any; [done|]; intros ? ?).
  apply wp_bind_any; [done|]. intros affected s1. destruct (affected =? 0); [by wp_step|].
  wp_step. eapply wp_mono; [|apply finalize_winning_closed]. intros [[]|e] s2 Hc; simpl; [|done].
  specialize (Hc eq_refl).
  wp_step. match goal with |- wp ?m _ _ => assert (Hk : keeps (closed (Upload.id upload)) m) end.
  { keeps_closed_tac. }
  eapply wp_mono; [|by apply Hk]. intros [[]|e] s3 Hs3; simpl; [by wp_step|done].
Qed.

(* ------------------------------------------------------------------ *)
(** ** The two ways to complete *)

Lemma fewer_finalize_existing s0 upload m sid n :
  keeps (fewer_manifests s0) (finalize_upload_for_existing_snapshot st upload m sid n).
Proof.
  unfold finalize_upload_for_existing_snapshot, finalize_existing_transaction, now_rfc3339,
    insert_capture_provenance, maintain_session_latest_context, upsert_session_latest_context, complete_rows.
  keeps_fewer_tac.
Qed.

Lemma finalize_existing_spec upload m sid n s : store_sound owner s ->
  wp (finalize_upload_for_existing_snapshot st upload m sid n) (fun r s' =>
    store_sound owner s' /\ (r = Ok tt -> closed (Upload.id upload) s')) s.
Proof.
  intros (Hc & Ha & Hm).
  assert (Hk : wp (finalize_upload_for_existing_snapshot st upload m sid n)
                 (fun r s' => chunks_backed s' /\ (r = Ok tt -> closed (Upload.id upload) s')) s).
  { unfold finalize_upload_for_existing_snapshot, now_rfc3339. wp_step. wp_step. wp_step. intros t. simpl.
    wp_step. destruct (format_rfc3339 t) as [now|]; simpl; [|by split].
    wp_step. wp_step; [intros x; by split|].
    eapply wp_mono; [|apply wp_and; [apply (db_only_finalize_existing_transaction upload m sid now n (files s) (drawn s)); done|
      apply wp_and; [by apply chunks_finalize_existing_transaction|apply finalize_existing_transaction_closed]]].
    intros r s1 [[Ef Hd] [Hc1 Hcl]].
    assert (Hb : chunks_backed (mkStore (db s) (files s1) (drawn s1))) by (rewrite Ef; by apply (draw_stable_le chunks_backed)).
    destruct r as [[v|v]|e]; simpl; [split; [|intros x; by split]..|by split]; wp_step; (split; [done|]); by destruct v as [[]|]. }
  eapply wp_mono; [|apply wp_and; [exact Hk|apply wp_and;
    [by apply archive_same; [intros; apply same_finalize_existing|]|
     apply (keeps_manifests_fewer _ (fun s0 => fewer_finalize_existing s0 upload m sid n)), Hm]]].
  intros r s' [[H1 H2] [H3 H4]]. by split_and!.
Qed.

Lemma store_sound_promoting s s' : promoting owner s s' -> store_sound owner s -> store_sound owner s'.
Proof.
  intros Hp (Hc & Ha & Hm). split_and!.
  - destruct Hp as [D O _]. eapply chunks_backed_files; [exact D| |exact Hc].
    intros u a i. apply O, chunk_not_blob.
  - by eapply archive_sound_promoting.
  - apply (manifests_sound_eq s); [|exact Hm]. by rewrite (pr_db _ _ _ Hp).
Qed.
#[export] Instance store_sound_draw : DrawStable (store_sound owner).
Proof. intros s (Hc & Ha & Hm). split_and!; [exact Hc|by apply (draw_stable (I := archive_sound owner))|by apply (draw_stable (I := manifests_sound))]. Qed.
Lemma keeps_store_promoting {E A} (m : M E A) :
  (forall s0, keeps (promoting owner s0) m) -> keeps (store_sound owner) m.
Proof.
  intros Hm s Hs. eapply wp_mono; [|apply (Hm s s), promoting_refl]. intros r s' Hp. exact (store_sound_promoting s s' Hp Hs).
Qed.

Lemma fewer_record_transaction s0 upload m prepared fp now seq a b :
  keeps (fewer_manifests s0) (record_transaction st upload m prepared fp now seq a b).
Proof.
  unfold record_transaction, finalize_winning_snapshot, insert_capture_provenance, insert_snapshot, complete_rows,
    maintain_session_latest_context, upsert_session_latest_context.
  assert (H1 : forall sid ids, keeps (fewer_manifests s0) (insert_artifacts sid now seq ids prepared)).
  { intros sid ids. induction prepared as [|p l IH]; simpl; keeps_fewer_tac. }
  assert (H2 : forall ids, keeps (fewer_manifests s0) (collect_blob_ids st now prepared ids)).
  { clear H1. induction prepared as [|p l IH]; intros ids; simpl; [keeps_tac|].
    unfold get_or_create_blob. keeps_fewer_tac. }
  keeps_fewer_tac.
Qed.

(** What completion knows of the artifacts once their blobs are in place. *)
Record ready (f : Files) (prepared : list PreparedArtifact) : Prop := {
  rd_consistent : consistent prepared;
  rd_present : Forall (fun p => blob_present f (artifact p)) prepared;
  rd_verified : Forall (fun p => exists content, verified_bytes (artifact p) content) prepared;
}.

Lemma record_committed_spec upload m prepared fp now seq a b s :
  store_sound owner s -> ready (files s) prepared ->
  wp (transaction classify_database_error classify_database_error
        (record_transaction st upload m prepared fp now seq a b)) (fun r s' =>
    store_sound owner s' /\ (r = Ok true -> closed (Upload.id upload) s')) s.
Proof.
  intros (Hc & Ha & Hm) [H1 H2 H3]. wp_step; [intros x; split; [by split_and!|done]|].
  eapply wp_mono; [|apply wp_and; [apply (db_only_record_transaction upload m prepared fp now seq a b (files s) (drawn s)); done|
    apply wp_and; [by apply record_transaction_spec|apply wp_and; [by apply chunks_record_transaction|
    apply wp_and; [apply record_transaction_closed|
      apply (keeps_manifests_fewer _ (fun s0 => fewer_record_transaction s0 upload m prepared fp now seq a b)), Hm]]]]].
  intros r s1 ([Ef Hd] & Ha1 & Hc1 & Hcl & Hm1).
  assert (Hb : store_sound owner (mkStore (db s) (files s1) (drawn s1)))
    by (rewrite Ef; apply (draw_stable_le (store_sound owner)); [done|by split_and!]).
  destruct r as [[v|v]|e]; simpl; [split; [|intros x; split; [exact Hb|done]]..|split; [exact Hb|done]].
  - split; [by split_and!|]. by intros _.
  - split; [exact Hb|]. by intros [= ->].
Qed.

Lemma record_completed_upload_spec upload m prepared promotions fp a b s :
  store_sound owner s -> ready (files s) prepared ->
  wp (record_completed_upload st upload m prepared promotions fp a b) (fun r s' =>
    store_sound owner s' /\ (r = Ok tt -> closed (Upload.id upload) s')) s.
Proof.
  intros Hs Hr. unfold record_completed_upload, now_rfc3339.
  wp_step. wp_step. wp_step. intros t. simpl. wp_step. destruct (format_rfc3339 t) as [now|]; simpl; [|by split].
  wp_step. wp_step. destruct (sort_key_from_rfc3339 now) as [seq|]; simpl; [|by split].
  wp_step. eapply wp_mono; [|by apply record_committed_spec]. intros [[|]|e] s1 [Hs1 Hcl]; simpl.
  - wp_step. split; [done|]. intros _. by apply Hcl.
  - wp_step. wp_step; simpl; [by split|]. intros winner _. wp_step.
    eapply wp_mono; [|apply (keeps_store_promoting _ (fun s0 => cleanup_promotions_promoting st s0 promotions)), Hs1].
    intros [[]|e] s2 Hs2; simpl; [|by split]. by apply finalize_existing_spec.
  - by split.
Qed.

(* ------------------------------------------------------------------ *)
(** ** [complete_upload] *)

Lemma store_sound_touches u s s' : touches (is_assembled u) s s' -> store_sound owner s -> store_sound owner s'.
Proof.
  intros Ht (Hc & Ha & Hm). split_and!.
  - destruct Ht as [D F]. eapply chunks_backed_files; [exact D| |exact Hc].
    intros u' a i. apply F. by intros (j & uuid & [=]).
  - eapply archive_sound_same; [|exact Ha]. eapply touches_same_archive; [|exact Ht].
    intros p. apply is_assembled_not_blob.
  - apply (manifests_sound_eq s); [|exact Hm]. by destruct Ht as [-> _].
Qed.

(** The directory of an upload goes only once the upload is closed. *)
Lemma remove_closed_dir_spec u s : closed u s -> store_sound owner s ->
  wp (@attempt _ ApiError _ (remove_upload_dir Api.storage u)) (fun _ => store_sound owner) s.
Proof.
  intros Hcl (Hc & Ha & Hm).
  assert (H : forall fs, (forall p, below (upload_dir u) p = false -> fs !! p = files s !! p) ->
    store_sound owner (mkStore (db s) fs (drawn s))).
  { intros fs Hk. split_and!.
    - intros r Hr. destruct (Hc r Hr) as [Hu Hb]. split; [exact Hu|]. intros Ho. simpl in Ho.
      destruct (decide (Chunk.upload_id r = u)) as [<-|Hne].
      + unfold closed in Hcl. congruence.
      + eapply backed_elsewhere; [|by apply Hb]. intros p -> x. simpl. rewrite Hk; [done|].
        apply chunk_not_below. congruence.
    - eapply archive_sound_same; [|exact Ha]. split; [done|]. intros d. apply Hk, blob_not_below.
    - by apply (manifests_sound_eq s). }
  wp_step. unfold remove_upload_dir. wp_step; intros fs Hk _; by apply H.
Qed.

Lemma completion_for_upload_reads I u : keeps I (completion_for_upload st u).
Proof. unfold completion_for_upload, receipt_for_upload, capture_for_upload. keeps_tac. Qed.
Lemma check_representations_reads I prepared : keeps I (ensure_blob_representations_compatible st prepared).
Proof.
  unfold ensure_blob_representations_compatible.
  generalize (unique_stored_artifacts prepared). intros l. induction l as [|p l IH]; simpl; keeps_tac.
Qed.

Lemma cleanup_prepared_sound u prepared :
  Forall (fun p => is_assembled u (assembled_path p)) prepared -> keeps (store_sound owner) (cleanup_prepared prepared).
Proof.
  intros Hu s Hs. eapply wp_mono; [|apply (cleanup_prepared_touches _ s prepared Hu), touches_refl].
  intros r s' Ht. exact (store_sound_touches u s s' Ht Hs).
Qed.

(** A handler whose remaining steps do not depend on the current one. *)
Lemma wp_cleanup_throw {A} u prepared e s :
  Forall (fun p => is_assembled u (assembled_path p)) prepared -> store_sound owner s ->
  wp (cleanup_prepared prepared &; @throw _ A e) (fun _ => store_sound owner) s.
Proof.
  intros Hu Hs. apply (keeps_bind (store_sound owner)); [by eapply cleanup_prepared_sound| |done].
  intros _. apply keeps_throw.
Qed.

Lemma finish_spec upload s : closed (Upload.id upload) s -> store_sound owner s ->
  wp (attempt (F:=ApiError) (remove_upload_dir Api.storage (Upload.id upload)) &;
      completion_for_upload st (Upload.id upload)) (fun _ => store_sound owner) s.
Proof.
  intros Hcl Hs. wp_step. eapply wp_mono; [|by apply remove_closed_dir_spec].
  intros [x|e] s1 Hs1; simpl; [|done]. by apply completion_for_upload_reads.
Qed.

Lemma join_existing_spec upload m prepared sid n s :
  Forall (fun p => is_assembled (Upload.id upload) (assembled_path p)) prepared -> store_sound owner s ->
  wp (join_existing st upload m prepared sid n) (fun _ => store_sound owner) s.
Proof.
  intros Hu Hs. unfold join_existing. wp_step.
  eapply wp_mono; [|apply (cleanup_prepared_sound _ _ Hu), Hs]. intros [[]|e] s1 Hs1; simpl; [|done].
  wp_step. eapply wp_mono; [|by apply finalize_existing_spec]. intros [[]|e] s2 [Hs2 Hcl]; simpl; [|done].
  apply finish_spec; [by apply Hcl|done].
Qed.

Lemma ready_after_promotion s s' prepared :
  grows s s' -> Forall (assembled (files s)) prepared -> consistent prepared ->
  Forall (fun p => blob_present (files s') (artifact p)) (unique_stored_artifacts prepared) ->
  ready (files s') prepared.
Proof.
  intros Hg Ha Hc Hb. split; [done| |].
  - apply Forall_forall. intros p Hp. destruct (unique_stored_artifacts_spec prepared) as [Hsub Hrep].
    destruct (Hrep p Hp) as (q & Hq & E). rewrite Forall_forall in Hb. specialize (Hb q Hq).
    destruct (Hc q p (Hsub q Hq) Hp E) as [Ez _]. unfold blob_present in *. by rewrite <-E, <-Ez.
  - eapply Forall_impl; [exact Ha|]. intros p (content & _ & Hv). by exists content.
Qed.

Lemma archive_new_spec upload m prepared fp n s :
  store_sound owner s -> prepared_in (Upload.id upload) (files s) prepared -> consistent prepared ->
  Forall (fun p => 0 <= stored_size_bytes (artifact p)) prepared ->
  wp (archive_new st upload m prepared (unique_stored_artifacts prepared) fp n) (fun _ => store_sound owner) s.
Proof.
  intros Hs [Ha Hu] Hc Hz. unfold archive_new, promote_unique_blobs.
  destruct (unique_stored_artifacts_spec prepared) as [Hsub _].
  wp_step. wp_step. eapply wp_mono; [|apply promote_loop_spec].
  2: { rewrite Forall_forall in Hz |- *. intros p Hp. by apply Hz, Hsub. }
  2: { rewrite Forall_forall in Ha |- *. intros p Hp. by apply Ha, Hsub. }
  intros r s1 [Hp Hok]. pose proof (store_sound_promoting s s1 Hp Hs) as Hs1.
  destruct r as [promotions|e]; simpl; [|by eapply wp_cleanup_throw].
  destruct (Hok eq_refl) as [Hg Hb]. pose proof (ready_after_promotion s s1 prepared Hg Ha Hc Hb) as Hr.
  wp_step. wp_step. destruct (newly_persisted promotions 0) as [persisted|]; simpl; [|done].
  wp_step. wp_step. eapply wp_mono; [|by apply record_completed_upload_spec].
  intros [[]|e] s2 [Hs2 Hcl]; simpl; [apply finish_spec; [by apply Hcl|done]|].
  wp_step. wp_step.
  eapply wp_mono; [|apply (keeps_store_promoting _ (fun s0 => cleanup_promotions_promoting st s0 promotions)), Hs2].
  intros r s3 Hs3. simpl. by eapply wp_cleanup_throw.
Qed.

Lemma wp_unchanged {E A} (m : M E A) (Q : res E A -> Store -> Prop) s :
  (forall I, keeps I m) -> (forall r, Q r s) -> wp m Q s.
Proof.
  intros Hm HQ. eapply wp_mono; [|by apply (Hm (fun s' => s' = s))]. by intros r s' ->.
Qed.

Lemma deduplicate_spec upload m prepared fp n s :
  store_sound owner s -> prepared_in (Upload.id upload) (files s) prepared -> consistent prepared ->
  Forall (fun p => 0 <= stored_size_bytes (artifact p)) prepared ->
  wp (deduplicate st upload m prepared fp n) (fun _ => store_sound owner) s.
Proof.
  intros Hs Hp Hc Hz. pose proof (proj2 Hp) as Hu. unfold deduplicate, find_snapshot_by_fingerprint.
  assert (Hcheck : forall I, keeps I (@attempt _ ApiError _ (ensure_blob_representations_compatible st prepared)))
    by (intros I; apply keeps_attempt, check_representations_reads).
  wp_step. apply wp_unchanged; [exact Hcheck|]. intros [[[]|e]|e]; simpl; [|by eapply wp_cleanup_throw|done].
  wp_step. wp_step; simpl; [done|]. wp_step.
  apply wp_unchanged; [intros I; by destruct (_ <$> _); keeps_tac|]. intros [[sid|]|e]; simpl;
    [by apply join_existing_spec| |done].
  wp_step. apply wp_unchanged; [exact Hcheck|]. intros [[[]|e]|e]; simpl; [|by eapply wp_cleanup_throw|done].
  wp_step. wp_step; simpl; [done|]. destruct (_ <$> _); [by apply join_existing_spec|by apply archive_new_spec].
Qed.

Lemma digest_storage_inj x y : sha256_document x -> sha256_document y ->
  digest_storage_value x = digest_storage_value y -> x = y.
Proof.
  intros (h & -> & _) (k & -> & _). unfold digest_storage_value.
  rewrite !(proj2 (strip_prefix_Some _ _ _) eq_refl). by intros ->.
Qed.
Lemma prepared_consistent m prepared :
  manifest_sound m -> artifact <$> prepared = artifacts m ->
  consistent prepared /\ Forall (fun p => 0 <= stored_size_bytes (artifact p)) prepared.
Proof.
  intros [Ht Hd _ Hr _ _] E.
  assert (Hin : forall p, p ∈ prepared -> artifact p ∈ artifacts m).
  { intros p Hp. rewrite <-E. by apply list_elem_of_fmap_2. }
  rewrite Forall_forall in Ht, Hd. split.
  - intros p q Hp%Hin Hq%Hin Ed. apply Hr; [done..|]. apply digest_storage_inj; auto.
  - apply Forall_forall. intros p Hp%Hin. by apply Ht.
Qed.

Lemma require_active_sound u : keeps (store_sound owner) (require_active_upload u).
Proof.
  intros s (Hc & Ha & Hm). eapply wp_mono; [|apply wp_and; [by apply chunks_require_active_upload|
    apply wp_and; [by apply (archive_same _ s (fun s0 => same_require_active_upload s0 u))|
      apply (keeps_manifests_fewer _ (fun s0 => fewer_require_active_upload s0 u)), Hm]]].
  intros r s' (H1 & H2 & H3). by split_and!.
Qed.

Lemma get_upload_manifest_spec u s : store_sound owner s ->
  wp (get_upload_manifest u) (fun r s' => s' = s /\ forall m, r = Ok m -> manifest_sound m) s.
Proof.
  intros (_ & _ & Hm). unfold get_upload_manifest. wp_step. wp_step; simpl; [done|].
  intros json Hj. wp_step. split; [done|]. intros m.
  destruct (select_one _ (manifests (db s))) as [row|] eqn:Er; [|done]. injection Hj as <-.
  apply select_one_Some in Er as [_ Hrow]. intros Em%ok_or_Ok. by apply (ms_filed _ Hm row Hrow).
Qed.

Lemma complete_upload_sound id : keeps (store_sound owner) (complete_upload st id).
Proof.
  intros s Hs. unfold complete_upload, get_upload_artifacts.
  wp_step. wp_step. destruct (parse_uuid _ _) as [u|]; simpl; [|done].
  wp_step. eapply wp_mono; [|by apply require_active_sound]. intros [upload|e] s1 Hs1; simpl; [|done].
  destruct (eqs _ _); [by apply completion_for_upload_reads|].
  wp_step. eapply wp_mono; [|by apply get_upload_manifest_spec]. intros [m|e] s2 [-> Hm]; simpl; [|done].
  specialize (Hm m eq_refl).
  wp_step. wp_step. destruct (validate_current_manifest_limits _ _); simpl; [|done].
  wp_step. wp_step; simpl; [done|]. wp_step. wp_step.
  destruct (validate_upload_projection _ _ _) as [[]|] eqn:Ev; simpl; [|done].
  wp_step. eapply wp_mono; [|apply prepare_artifacts_spec; [apply Hm|]].
  2: { unfold validate_upload_projection in Ev. apply reject_Ok in Ev as [Eb _].
       apply orb_false_iff in Eb as [El%negb_false_iff%Nat.eqb_eq _]. exact El. }
  intros [prepared|e] s2 [Ht Hp]; (pose proof (store_sound_touches _ _ _ Ht Hs1) as Hs2); simpl; [|done].
  destruct Hp as [Hp Em]. destruct (prepared_consistent m prepared Hm Em) as [Hc Hz].
  wp_step. wp_step. destruct (manifest_totals m); simpl; [|done].
  wp_step. wp_step. destruct (snapshot_fingerprint m); simpl; [|done].
  by apply deduplicate_spec.
Qed.
End Blobs.
