(* ===== verification/Reclamation.v ===== *)
(** Deletion and collection keep the archive sound: a deleted snapshot takes
    its artifact rows with it in one transaction, and a collected blob is one
    that no artifact row refers to, whatever fails on the way. *)
From stdpp Require Import prelude strings gmap sorting list.
From Stdlib Require Import ZArith Ascii Lia.
From Stdlib.Strings Require Import Byte.
From S2P Require Import Prelude Errors Contract Externals Validation Chunks Fingerprint Pagination.
From S2P Require Import Tables Store Storage Uploads Receipts Completion Deletion Archive.
From S2P Require Import Invariants Publication.

Section Deleting.
Context `{EV : Env} `{UL : UuidLib} `{TL : TimeLib} `{ML : MimeLib} `{SL : ShaLib} `{ZL : ZstdLib} `{JL : JsonLib}.
Context (st : AppState).
Abbreviation owner := (Storage.owner_namespace st).

Lemma select_one_update_other {R} (q p : R -> bool) (f : R -> R) t :
  (forall r, p r = true -> q r = false /\ q (f r) = false) -> select_one q (update p f t) = select_one q t.
Proof.
  intros H. unfold select_one, select, update. induction t as [|r t IH]; [done|]. simpl. rewrite !filter_cons.
  destruct (p r) eqn:Ep.
  - destruct (H r Ep) as [E1 E2]. rewrite E1, E2. simpl. exact IH.
  - destruct (q r); simpl; [done|exact IH].
Qed.

(** The two statements that take a snapshot out of the archive. *)
Lemma archive_sound_retire s id at_ :
  archive_sound owner s ->
  archive_sound owner (mkStore (delete_artifacts id (mark_deleted id at_ (db s)).1) (files s) (drawn s)).
Proof.
  intros [O I G L S]. split; try done.
  - intros a. simpl. intros [Hne%eqs_false Ha]%elem_of_delete.
    destruct (L a Ha) as [x Hx]. exists x. unfold live_snapshot_by_id in *. simpl.
    rewrite select_one_update_other; [done|]. intros r [Er%eqs_true _]%andb_true_iff. simpl.
    assert (E : eqs (Snapshot.id r) (ArtifactRow.snapshot_id a) = false) by (apply eqs_false; congruence).
    by rewrite E.
  - intros a. simpl. intros [_ Ha]%elem_of_delete. exact (S a Ha).
Qed.

Lemma stored_blobs_schedule id a b c d : stored_blobs (schedule_blob id a b c d) = stored_blobs d.
Proof.
  unfold stored_blobs, schedule_blob, update. simpl. change (map ?g ?l) with (g <$> l).
  rewrite <-list_fmap_compose. apply list_fmap_ext. intros ? r _. simpl.
  destruct (eqs _ _); [|done]. by destruct (has_live_reference _ _).
Qed.

Lemma same_rebuild_latest s0 sid : keeps (same_archive s0) (rebuild_session_latest_context sid).
Proof.
  unfold rebuild_session_latest_context. apply keeps_bind; [same_tables|]. intros _.
  apply keeps_same_execute. intros d d' a. destruct (latest_context sid d); [|by intros [= <- <-]].
  destruct (insert_row _ _ _); [|done]. simpl. intros [= <- <-]. by destruct d.
Qed.

Lemma archive_delete_transaction id reason at_ seq el elseq tid aid s : archive_sound owner s ->
  wp (delete_transaction id reason at_ seq el elseq tid aid) (fun r s' =>
    match r with Ok (Commit _) => archive_sound owner s' | _ => True end) s.
Proof.
  intros Hs. unfold delete_transaction.
  wp_step. wp_step; simpl; [done|]. wp_step. wp_step. destruct (snapshot_deletion_row _ _) as [[row m]|]; simpl; [|done].
  destruct (negb (live row)); [by wp_step|].
  wp_step. wp_step; simpl; [done|]. generalize (artifact_blobs id (db s)). intros victims.
  assert (Hsame : forall s0, keeps (same_archive s0)
    (for_each (E:=ApiError) victims (fun blob =>
       execute db_err (fun d => Some (schedule_blob (Blob.id blob) at_ el elseq d, tt))))).
  { intros s0. apply keeps_for_each. intros b _. apply keeps_same_execute. intros d d' x [= <- <-].
    unfold archive_tables. by rewrite stored_blobs_schedule. }
  do 2 (apply wp_bind; eapply wp_mono; [|apply (archive_same st); [intros s0|exact Hs]; unfold insert_tombstone, insert_deletion_audit; same_tables];
    clear Hs s; intros [[]|e] s Hs; simpl; [|done]).
  wp_step. wp_step; simpl; [done|]. intros d n Ex.
  assert (Ed : d = (mark_deleted (Snapshot.id row) at_ (db s)).1) by (by rewrite (f_equal (fun o => match o with Some x => x.1 | None => d end) Ex)).
  destruct (negb (n =? 1)); [by wp_step|].
  wp_step. wp_step; simpl; [done|]. intros d2 [] [= <-].
  assert (Hs2 : archive_sound owner (mkStore (delete_artifacts (Snapshot.id row) d) (files s) (drawn s)))
    by (rewrite Ed; by apply archive_sound_retire).
  wp_step. eapply wp_mono; [|by apply (archive_same st _ _ Hsame)]. intros [[]|e] s3 Hs3; simpl; [|done].
  wp_step. eapply wp_mono; [|apply (archive_same st); [intros s0; apply same_rebuild_latest|exact Hs3]].
  intros [[]|e] s4 Hs4; simpl; [by wp_step|done].
Qed.

(** The statements of the deletion, for any table but the archive's. *)
Lemma chunks_delete_transaction id reason at_ seq el elseq tid aid :
  keeps chunks_backed (delete_transaction id reason at_ seq el elseq tid aid).
Proof.
  unfold delete_transaction, insert_tombstone, insert_deletion_audit, mark_deleted, delete_artifacts, schedule_blob,
    rebuild_session_latest_context.
  repeat lazymatch goal with
  | |- keeps _ (execute _ (fun d => match latest_context _ d with _ => _ end)) =>
      apply keeps_chunks_execute; intros d; do 2 intro; destruct (latest_context _ _); destruct d; simpl;
      table_cases; intros [= <- <-]; (split; [done|by apply uploads_closing_eq])
  | |- keeps _ (execute _ _) => chunks_execute
  | |- keeps _ (for_each _ _) => apply keeps_for_each; do 2 intro
  | _ => keeps_step
  end.
Qed.
Lemma fewer_delete_transaction s0 id reason at_ seq el elseq tid aid :
  keeps (fewer_manifests s0) (delete_transaction id reason at_ seq el elseq tid aid).
Proof.
  unfold delete_transaction, insert_tombstone, insert_deletion_audit, mark_deleted, delete_artifacts, schedule_blob,
    rebuild_session_latest_context.
  repeat lazymatch goal with
  | |- keeps _ (execute _ (fun d => match latest_context _ d with _ => _ end)) =>
      apply keeps_fewer_execute; intros d; do 2 intro; destruct (latest_context _ _); destruct d; simpl;
      table_cases; intros [= <- <-]; reflexivity
  | |- keeps _ (execute _ _) => fewer_execute
  | |- keeps _ (for_each _ _) => apply keeps_for_each; do 2 intro
  | _ => keeps_step
  end.
Qed.
Lemma db_only_delete_transaction id reason at_ seq el elseq tid aid :
  db_only (delete_transaction id reason at_ seq el elseq tid aid).
Proof.
  unfold delete_transaction, rebuild_session_latest_context. do 2 intro.
  repeat lazymatch goal with
  | |- keeps _ (for_each _ _) => apply keeps_for_each; do 2 intro
  | _ => keeps_step
  end.
Qed.

Lemma delete_committed_sound id reason at_ seq el elseq tid aid :
  keeps (store_sound owner) (transaction db_err db_err (delete_transaction id reason at_ seq el elseq tid aid)).
Proof.
  apply keeps_transaction; [apply _|apply db_only_delete_transaction|]. intros s (Hc & Ha & Hm).
  eapply wp_mono; [|apply wp_and; [by apply archive_delete_transaction|apply wp_and;
    [by apply chunks_delete_transaction|
     apply (keeps_manifests_fewer _ (fun s0 => fewer_delete_transaction s0 id reason at_ seq el elseq tid aid)), Hm]]].
  intros r s' (H1 & H2 & H3). destruct r as [[v|v]|e]; [by split_and!|done..].
Qed.
Lemma tombstone_response_reads I id : keeps I (tombstone_response st id).
Proof. unfold tombstone_response. keeps_tac. Qed.

Lemma delete_snapshot_sound id headers payload : keeps (store_sound owner) (delete_snapshot st id headers payload).
Proof.
  unfold delete_snapshot.
  repeat lazymatch goal with
  | |- keeps _ (transaction _ _ _) => apply delete_committed_sound
  | |- keeps _ (tombstone_response _ _) => apply tombstone_response_reads
  | _ => keeps_step
  end.
Qed.
End Deleting.

(* ------------------------------------------------------------------ *)
(** ** Collection *)

Section Collecting.
Context `{EV : Env} `{UL : UuidLib} `{TL : TimeLib} `{ML : MimeLib} `{SL : ShaLib} `{ZL : ZstdLib} `{JL : JsonLib}.
Context (st : AppState).
Abbreviation owner := (Storage.owner_namespace st).

(** No artifact row refers to the blob with this digest. *)
Definition unreferenced (digest : string) (d : Db) : Prop :=
  forall a b, a ∈ artifact_rows d -> b ∈ stored_blobs d -> sb_id b = ArtifactRow.blob_id a ->
    sb_digest b <> digest.

Lemma archive_sound_remove_file s digest f :
  archive_sound owner s -> unreferenced digest (db s) ->
  (forall d, d <> digest -> f !! blob_path d = files s !! blob_path d) ->
  archive_sound owner (mkStore (db s) f (drawn s)).
Proof.
  intros [O I G L S] Hu Hf. split; try done.
  intros a Ha. destruct (S a Ha) as (b & Hb & Hid & (c & Hc & Hm) & Hv). exists b. split; [done|].
  split; [done|]. split; [|done]. exists c. split; [|done]. simpl. rewrite Hf; [done|]. by apply (Hu a).
Qed.

Lemma no_live_reference_unreferenced s b : archive_sound owner s -> b ∈ blobs (db s) ->
  has_live_reference (Blob.id b) (db s) = false ->
  (forall a, a ∈ artifact_rows (db s) -> ArtifactRow.blob_id a <> Blob.id b)
  /\ unreferenced (Blob.stored_sha256 b) (db s).
Proof.
  intros [O I G L S] Hb Hr.
  assert (Hno : forall a, a ∈ artifact_rows (db s) -> ArtifactRow.blob_id a <> Blob.id b).
  { intros a Ha E. unfold has_live_reference in Hr. rewrite existsb_false in Hr. specialize (Hr a Ha).
    rewrite E, eqs_refl in Hr. unfold live_reference in Hr. by rewrite bool_decide_true in Hr by by apply L. }
  split; [done|]. intros a b' Ha Hb' Hid Ed. apply (Hno a Ha). rewrite <-Hid.
  assert (E : b' = stored_blob b); [|by rewrite E].
  apply (NoDup_key_inj sb_digest (stored_blobs (db s))); [done|done| |done]. by apply list_elem_of_fmap_2.
Qed.

(** Deleting a row no artifact refers to. *)
Lemma archive_sound_delete_blob s id d n :
  archive_sound owner s -> (forall a, a ∈ artifact_rows (db s) -> ArtifactRow.blob_id a <> id) ->
  delete_blob id (db s) = Some (d, n) ->
  archive_sound owner (mkStore d (files s) (drawn s))
  /\ artifact_rows d = artifact_rows (db s)
  /\ (forall b, b ∈ stored_blobs d -> b ∈ stored_blobs (db s)).
Proof.
  intros [O I G L S] Hno Ed. unfold delete_blob in Ed. destruct (existsb _ (blobs (db s))); [done|].
  injection Ed as <- <-.
  assert (Hs : sublist (stored_blobs (with_blobs (delete_where
     (fun b => eqs (Blob.id b) id && negb (has_live_reference (Blob.id b) (db s)))) (db s))) (stored_blobs (db s))).
  { unfold stored_blobs. apply sublist_fmap. simpl. apply sublist_filter. }
  assert (Hin : forall b, b ∈ stored_blobs (with_blobs (delete_where
     (fun b => eqs (Blob.id b) id && negb (has_live_reference (Blob.id b) (db s)))) (db s)) -> b ∈ stored_blobs (db s)).
  { intros b Hb. by eapply elem_of_sublist. }
  split_and!; [|done|done]. split; simpl.
  - rewrite Forall_forall in O |- *. auto.
  - eapply sublist_NoDup; [exact I|]. by apply sublist_fmap.
  - eapply sublist_NoDup; [exact G|]. by apply sublist_fmap.
  - exact L.
  - intros a Ha. destruct (S a Ha) as (b & Hb & Hst). exists b. split; [|done].
    apply list_elem_of_fmap in Hb as (r & -> & Hr). apply list_elem_of_fmap_2. apply elem_of_delete. split; [|done].
    assert (E : eqs (Blob.id r) id = false); [|by rewrite E].
    apply eqs_false. destruct Hst as [Hid _]. simpl in Hid. rewrite Hid. by apply Hno.
Qed.

(** What a collection may change: blob rows go, and blob files. *)
Record reclaims (s s' : Store) : Prop := {
  rc_rows : forall b, b ∈ stored_blobs (db s') -> b ∈ stored_blobs (db s);
  rc_tables : uploads (db s') = uploads (db s) /\ upload_chunks (db s') = upload_chunks (db s)
              /\ manifests (db s') = manifests (db s);
  rc_files : forall q, ~ is_blob q -> files s' !! q = files s !! q;
}.
Lemma reclaims_refl s : reclaims s s.
Proof. by split. Qed.
Lemma reclaims_trans s1 s2 s3 : reclaims s1 s2 -> reclaims s2 s3 -> reclaims s1 s3.
Proof.
  intros [R1 (A1 & B1 & C1) F1] [R2 (A2 & B2 & C2) F2]. split; [auto|split_and!; congruence|].
  intros q Hq. by rewrite F2, F1.
Qed.
Lemma store_sound_reclaims s s' : reclaims s s' -> archive_sound owner s' -> store_sound owner s -> store_sound owner s'.
Proof.
  intros [_ (A & B & C) F] Ha' (Hc & _ & Hm). split_and!; [|done|].
  - intros r Hr. rewrite B in Hr. destruct (Hc r Hr) as [Hu Hb]. unfold uploads_of. rewrite A.
    split; [exact Hu|]. intros Ho. eapply backed_elsewhere; [|by apply Hb]. intros p -> x.
    rewrite F; [done|]. apply chunk_not_blob.
  - by apply (manifests_sound_eq s).
Qed.

(** A candidate still names the digest of its row. *)
Definition candidate_ok (d : Db) (candidate : Blob.row) : Prop :=
  forall b, b ∈ stored_blobs d -> sb_id b = Blob.id candidate -> sb_digest b = Blob.stored_sha256 candidate.

Lemma delete_blob_reclaims s id d n : delete_blob id (db s) = Some (d, n) ->
  reclaims s (mkStore d (files s) (drawn s)).
Proof.
  unfold delete_blob. destruct (existsb _ _); [done|]. intros [= <- <-].
  split; [|by destruct (db s)|done]. intros b (r & -> & [_ Hr]%elem_of_delete)%list_elem_of_fmap.
  by apply list_elem_of_fmap_2.
Qed.

(** Whether the transaction commits or not, the file it may have removed was
    one that nothing needs. *)
Lemma gc_transaction_spec now_seq candidate s :
  archive_sound owner s -> candidate_ok (db s) candidate ->
  wp (transaction gc_err gc_err (gc_transaction now_seq candidate))
    (fun _ s' => archive_sound owner s' /\ reclaims s s') s.
Proof.
  intros Hs Hcand. assert (Hrefl : reclaims s s) by apply reclaims_refl.
  wp_step; [by split|]. unfold gc_transaction.
  assert (Hself : archive_sound owner (mkStore (db s) (files s) (drawn s)) /\ reclaims s (mkStore (db s) (files s) (drawn s)))
    by (split; [by destruct s|done]).
  wp_step. wp_step; simpl; [done|].
  destruct (select_one _ _) as [b|] eqn:Eb; [|wp_step; simpl; by split].
  apply select_one_Some in Eb as [[Eid%eqs_true _]%andb_true_iff Hb].
  wp_step. wp_step; simpl; [done|]. destruct (has_live_reference _ _) eqn:Elive.
  - wp_step. wp_step; simpl; [done|]. intros d [] [= <-]. wp_step.
    assert (E : stored_blobs (with_blobs (update (fun r => eqs (Blob.id r) (Blob.id b)) (Blob.set_orphan None None None)) (db s))
                = stored_blobs (db s)) by apply stored_blobs_update.
    split; [|done]. split.
    + eapply archive_sound_same; [|exact Hs]. split; [|done]. unfold archive_tables. cbn [db]. by rewrite E.
    + split; [intros x; cbn [db]; by rewrite E|by destruct (db s)|done].
  - destruct (no_live_reference_unreferenced s b Hs Hb Elive) as [Hno Hunref].
    assert (Ed : Blob.stored_sha256 candidate = Blob.stored_sha256 b).
    { symmetry. apply (Hcand (stored_blob b)); [by apply list_elem_of_fmap_2|done]. }
    wp_step. wp_step; simpl; [done|]. intros d n Edel.
    destruct (archive_sound_delete_blob s _ d n Hs Hno Edel) as (Hs1 & Ea & Hsub).
    pose proof (delete_blob_reclaims s _ d n Edel) as Hr1.
    destruct (n =? 1); [|by wp_step]. wp_step. wp_step; simpl; [done|]. wp_step. rewrite Ed.
    set (fs := delete (blob_path (Blob.stored_sha256 b)) (files s)).
    assert (Hfs : forall x, x <> Blob.stored_sha256 b -> fs !! blob_path x = files s !! blob_path x).
    { intros x Hx. unfold fs. rewrite lookup_delete_ne; [done|]. by intros E%blob_path_inj. }
    assert (Hnb : forall q, ~ is_blob q -> fs !! q = files s !! q).
    { intros q Hq. unfold fs. rewrite lookup_delete_ne; [done|]. intros <-. apply Hq. by eexists. }
    assert (Hu1 : unreferenced (Blob.stored_sha256 b) d).
    { intros a b' Ha Hb'. rewrite Ea in Ha. apply Hunref; [done|by apply Hsub]. }
    split; [split|intros _; split].
    + exact (archive_sound_remove_file _ _ fs Hs1 Hu1 Hfs).
    + destruct Hr1 as [R T F]. split; [exact R|exact T|exact Hnb].
    + exact (archive_sound_remove_file _ _ fs Hs Hunref Hfs).
    + split; [done|done|exact Hnb].
Qed.

Lemma candidate_ok_reclaims s s' candidate : reclaims s s' -> candidate_ok (db s) candidate -> candidate_ok (db s') candidate.
Proof. intros [R _ _] Hc b Hb. by apply Hc, R. Qed.

Lemma gc_loop_spec now_seq candidates : forall deleted s,
  archive_sound owner s -> Forall (candidate_ok (db s)) candidates ->
  wp (gc_loop now_seq candidates deleted) (fun _ s' => archive_sound owner s' /\ reclaims s s') s.
Proof.
  induction candidates as [|c candidates IH]; intros deleted s Hs Hc; simpl.
  - wp_step. split; [done|apply reclaims_refl].
  - apply Forall_cons in Hc as [Hc HF]. wp_step. eapply wp_mono; [|by apply gc_transaction_spec].
    intros [removed|e] s1 [Hs1 Hr1]; simpl; [|done]. wp_step. wp_step.
    destruct (to_u32 _); simpl; [|done]. eapply wp_mono; [|apply IH; [done|]].
    + intros r s2 [Hs2 Hr2]. split; [done|by eapply reclaims_trans].
    + eapply Forall_impl; [exact HF|]. intros x. by apply candidate_ok_reclaims.
Qed.

Lemma gc_candidates_ok owner_ s now_seq : archive_sound owner_ s ->
  Forall (candidate_ok (db s)) (gc_candidates now_seq (db s)).
Proof.
  intros [O I G L S]. apply Forall_forall. intros c Hc b Hb Hid.
  assert (Hin : c ∈ blobs (db s)).
  { unfold gc_candidates in Hc. eapply elem_of_sublist in Hc; [|apply sublist_take].
    rewrite merge_sort_Permutation in Hc. by apply elem_of_select in Hc as [_ ?]. }
  assert (E : b = stored_blob c); [|by rewrite E].
  apply (NoDup_key_inj sb_id (stored_blobs (db s))); [done|done|by apply list_elem_of_fmap_2|done].
Qed.

Lemma collect_reclaims t s : archive_sound owner s ->
  wp (collect_orphaned_blobs_at t) (fun _ s' => archive_sound owner s' /\ reclaims s s') s.
Proof.
  intros Ha. assert (Hself : archive_sound owner s /\ reclaims s s) by (split; [done|apply reclaims_refl]).
  unfold collect_orphaned_blobs_at. wp_step. wp_step; simpl; [done|]. wp_step.
  eapply wp_mono; [|apply gc_loop_spec; [done|by apply (gc_candidates_ok owner)]].
  intros [deleted|e] s1 [Ha1 Hr]; simpl; [|done].
  wp_step. wp_step. destruct (to_u32 _); simpl; [by wp_step|done].
Qed.
Lemma collect_sound t : keeps (store_sound owner) (collect_orphaned_blobs_at t).
Proof.
  intros s Hs. pose proof Hs as (_ & Ha & _). eapply wp_mono; [|by apply collect_reclaims].
  intros r s' [Ha' Hr]. by eapply store_sound_reclaims.
Qed.
Lemma run_blob_gc_sound : keeps (store_sound owner) (run_blob_gc st).
Proof. unfold run_blob_gc. keeps_tac. apply collect_sound. Qed.
End Collecting.
