(* ===== verification/Visibility.v ===== *)
(** A snapshot is visible with all of its artifacts or not at all: a live row
    of [snapshots] has exactly the artifact rows it announces. *)
From stdpp Require Import prelude strings gmap sorting list.
From Stdlib Require Import ZArith Ascii Lia.
From Stdlib.Strings Require Import Byte.
From S2P Require Import Prelude Errors Contract Externals Validation Chunks Fingerprint Pagination.
From S2P Require Import Tables Store Storage Uploads Receipts Completion Deletion Archive.
From S2P Require Import Invariants Assembly Publication Reclamation.

Definition artifacts_of (sid : string) (d : Db) : list ArtifactRow.row :=
  select (fun a => eqs (ArtifactRow.snapshot_id a) sid) (artifact_rows d).

Record snapshots_whole (s : Store) : Prop := {
  sw_known : forall a, a ∈ artifact_rows (db s) ->
             exists snap, snap ∈ snapshots (db s) /\ Snapshot.id snap = ArtifactRow.snapshot_id a;
  sw_count : forall snap, snap ∈ snapshots (db s) -> live snap = true ->
             Z.of_nat (length (artifacts_of (Snapshot.id snap) (db s))) = Snapshot.artifact_count snap;
  sw_ids : NoDup (Snapshot.id <$> snapshots (db s));
}.
#[export] Instance snapshots_whole_draw : DrawStable snapshots_whole.
Proof. by intros s [K C U]. Qed.

(** The two tables the statement speaks of. *)
Definition same_rows (s s' : Store) : Prop :=
  snapshots (db s') = snapshots (db s) /\ artifact_rows (db s') = artifact_rows (db s).
#[export] Instance same_rows_db s : DbInvariant (same_rows s).
Proof. intros s1 s2 E _. unfold same_rows. by rewrite E. Qed.
Lemma same_rows_refl s : same_rows s s.
Proof. by split. Qed.
Lemma whole_same s s' : same_rows s s' -> snapshots_whole s -> snapshots_whole s'.
Proof. intros [E1 E2] [K C U]. unfold artifacts_of in C. split; unfold artifacts_of; by rewrite ?E1, ?E2. Qed.

Section Frames.
Context `{EV : Env} `{UL : UuidLib}.

Lemma keeps_whole_same {E A} (m : M E A) :
  (forall s, keeps (same_rows s) m) -> keeps snapshots_whole m.
Proof.
  intros Hm s Hs. eapply wp_mono; [|apply (Hm s s), same_rows_refl]. intros r s' Hsame.
  exact (whole_same s s' Hsame Hs).
Qed.
Lemma same_archive_rows {E A} (m : M E A) s0 :
  (forall s, keeps (same_archive s) m) -> keeps (same_rows s0) m.
Proof.
  intros Hm s [E1 E2]. eapply wp_mono; [|apply (Hm s s), same_archive_refl].
  intros r s' [D _]. injection D as _ ES EA. by split; [rewrite ES|rewrite EA].
Qed.
Lemma keeps_whole_archive {E A} (m : M E A) :
  (forall s, keeps (same_archive s) m) -> keeps snapshots_whole m.
Proof. intros Hm. apply keeps_whole_same. intros s0. by apply same_archive_rows. Qed.
Lemma keeps_rows_execute s0 {E A} (err : SqlxError -> E) (f : Db -> option (Db * A)) :
  (forall d d' a, f d = Some (d', a) -> snapshots d' = snapshots d /\ artifact_rows d' = artifact_rows d) ->
  keeps (same_rows s0) (execute err f).
Proof.
  intros Hf. apply keeps_execute. intros s d a [E1 E2] Ex. destruct (Hf _ _ _ Ex). split; simpl; congruence.
Qed.
Lemma keeps_rows_transaction s0 {E A} (b c : SqlxError -> E) (body : M E (TxEnd A)) :
  keeps (same_rows s0) body -> keeps (same_rows s0) (transaction b c body).
Proof.
  intros Hb s Hs. apply wp_transaction; [done|]. eapply wp_mono; [|by apply Hb].
  intros r s' Hs'. by destruct r as [[a|a]|e].
Qed.
End Frames.

Ltac rows_execute :=
  let d := fresh "d" in
  apply keeps_rows_execute; intros d; do 2 intro; unfold complete_rows; destruct d; simpl; table_cases;
  intros [= <- <-]; by split.
Ltac keeps_rows_tac := repeat
  lazymatch goal with
  | |- keeps _ (execute _ _) => rows_execute
  | |- keeps _ (transaction _ _ _) => apply keeps_rows_transaction
  | |- keeps _ (for_each _ _) => apply keeps_for_each; do 2 intro
  | |- keeps _ (remove_upload_dir _ _) => apply keeps_db_remove_dir_all; apply _
  | _ => keeps_step
  end.

(** *** The file half of a completion leaves every invariant of the metadata alone *)
Section FileHalf.
Context `{EV : Env} `{UL : UuidLib} `{TL : TimeLib} `{SL : ShaLib} `{ZL : ZstdLib} `{JL : JsonLib}.
Context (st : AppState) (I : Store -> Prop) `{!DbInvariant I}.

Lemma db_copy_reads reads clean dst n m : forall a b c d, keeps I (copy_reads reads clean dst n m a b c d).
Proof. induction reads as [|x reads IH]; intros a b c d; simpl; keeps_tac; apply IH. Qed.
#[local] Hint Resolve db_copy_reads : keeps.
Lemma db_copy_chunks u i n dst chunks : forall a b, keeps I (copy_chunks u i n dst chunks a b).
Proof. induction chunks as [|x chunks IH]; intros a b; simpl; keeps_tac; apply IH. Qed.
#[local] Hint Resolve db_copy_chunks : keeps.
Lemma db_cleanup_prepared prepared : keeps I (cleanup_prepared prepared).
Proof. unfold cleanup_prepared. apply keeps_for_each. intros p _. keeps_tac. Qed.
#[local] Hint Resolve db_cleanup_prepared : keeps.
Lemma db_prepare_loop upload l : forall prepared, keeps I (prepare_loop upload l prepared).
Proof.
  induction l as [|[a row] l IH]; intros prepared; simpl; [keeps_tac|].
  unfold assemble_artifact, accepted_chunk_layout, verify_artifact. keeps_tac; apply IH.
Qed.
Lemma db_cleanup_promotions promotions : keeps I (cleanup_uncommitted_promotions st promotions).
Proof.
  unfold cleanup_uncommitted_promotions, cleanup_promotion. apply keeps_for_each. intros p _. keeps_tac.
Qed.
#[local] Hint Resolve db_cleanup_promotions : keeps.
Lemma db_promote_loop l : forall promotions, keeps I (promote_loop st l promotions).
Proof.
  induction l as [|p l IH]; intros promotions; simpl; [keeps_tac|].
  unfold promote_blob, verify_stored_file. keeps_tac; apply IH.
Qed.
End FileHalf.
#[export] Hint Resolve db_cleanup_prepared db_prepare_loop db_cleanup_promotions db_promote_loop : keeps.

Section Completing.
Context `{EV : Env} `{UL : UuidLib} `{TL : TimeLib} `{SL : ShaLib} `{ZL : ZstdLib} `{JL : JsonLib}.
Context (st : AppState).

(** *** The transaction *)

Lemma rows_collect_blob_ids s0 now l : forall ids, keeps (same_rows s0) (collect_blob_ids st now l ids).
Proof. induction l as [|p l IH]; intros ids; simpl; [keeps_tac|]. unfold get_or_create_blob. keeps_rows_tac. Qed.
Lemma rows_insert_capture_provenance s0 upload m mid sid at_ :
  keeps (same_rows s0) (insert_capture_provenance st upload m mid sid at_).
Proof. apply same_archive_rows. intros. apply same_insert_capture_provenance. Qed.

Lemma insert_artifacts_rows sid now seq ids l : forall s,
  wp (insert_artifacts sid now seq ids l) (fun r s' => r = Ok tt ->
    snapshots (db s') = snapshots (db s) /\ exists rows, artifact_rows (db s') = artifact_rows (db s) ++ rows
      /\ length rows = length l /\ Forall (fun a => ArtifactRow.snapshot_id a = sid) rows) s.
Proof.
  induction l as [|p l IH]; intros s; simpl.
  - wp_step. intros _. split; [done|]. exists []. by rewrite app_nil_r.
  - wp_step. wp_step. destruct (ids !! _) as [id|]; simpl; [|done].
    wp_step. wp_step. simpl. wp_step. wp_step. destruct (to_sqlite_i64 _); simpl; [|done].
    wp_step. wp_step; simpl; [done|]. intros d [] Ex.
    destruct (insert_row _ _ _) as [t|] eqn:Ei; [|done]. injection Ex as <-.
    apply insert_row_Some in Ei as [-> _]. eapply wp_mono; [|apply IH].
    intros r s' Hr Hok. destruct (Hr Hok) as (E1 & rows & E2 & El & HF). simpl in E1, E2. split; [done|].
    eexists (_ :: rows). rewrite E2, <-app_assoc. split_and!; [done|by rewrite <-El|by constructor].
Qed.

Lemma whole_publish s d row rows :
  snapshots_whole s -> (forall q, q ∈ snapshots (db s) -> Snapshot.id q <> Snapshot.id row) ->
  snapshots d = snapshots (db s) ++ [row] -> artifact_rows d = artifact_rows (db s) ++ rows ->
  Forall (fun a => ArtifactRow.snapshot_id a = Snapshot.id row) rows ->
  Snapshot.artifact_count row = Z.of_nat (length rows) ->
  forall f n, snapshots_whole (mkStore d f n).
Proof.
  intros [K C U] Hno E1 E2 HF Hn f n. rewrite Forall_forall in HF. split; simpl; rewrite E1.
  - rewrite E2. intros a [Ha|Ha]%elem_of_app.
    + destruct (K a Ha) as (q & Hq & E). exists q. rewrite elem_of_app. by split; [left|].
    + exists row. rewrite elem_of_app, list_elem_of_singleton. split; [by right|]. symmetry. by apply HF.
  - intros q Hq Hl. unfold artifacts_of, select. simpl. rewrite E2, filter_app, length_app.
    apply elem_of_app in Hq as [Hq| ->%list_elem_of_singleton].
    + rewrite (list_filter_none _ rows); [simpl; rewrite Nat.add_0_r; by apply C|].
      intros a Ha. rewrite (HF a Ha), eqs_true. intros E. by apply (Hno q).
    + rewrite (list_filter_none _ (artifact_rows (db s))), (list_filter_id _ rows); [done| |].
      * intros a Ha. by rewrite (HF a Ha), eqs_refl.
      * intros a Ha. rewrite eqs_true. intros E. destruct (K a Ha) as (q & Hq & Eq). apply (Hno q Hq). congruence.
  - rewrite fmap_app. apply NoDup_app. split_and!; [done| |apply NoDup_singleton].
    intros x (q & -> & Hq)%list_elem_of_fmap E%list_elem_of_singleton. by apply (Hno q).
Qed.

Lemma rows_finalize_tail s0 upload m mid sid now a b :
  keeps (same_rows s0)
    (let! transfer := lift (to_sqlite_i64 a) in
     let! persisted := lift (to_sqlite_i64 b) in
     let! updated := execute classify_database_error (fun d =>
       Some (complete_rows (Upload.id upload) sid now transfer persisted d)) in
     if updated =? 1 then insert_capture_provenance st upload m mid sid now
     else
       let! same := query db_err (completed_with (Upload.id upload) sid) in
       if (same : bool) then ret tt else throw upload_state_conflict).
Proof.
  pose proof (fun s0 => rows_insert_capture_provenance s0 upload m mid sid now). keeps_rows_tac.
Qed.

Lemma whole_record_transaction upload m prepared fp now seq a b s : snapshots_whole s ->
  wp (record_transaction st upload m prepared fp now seq a b) (fun r s' =>
    match r with Ok (Commit _) => snapshots_whole s' | _ => True end) s.
Proof.
  intros Hs. unfold record_transaction. wp_step.
  eapply wp_mono; [|apply (keeps_whole_same _ (fun s0 => rows_collect_blob_ids s0 now prepared ∅)), Hs].
  clear Hs s. intros [ids|e] s Hs; simpl; [|done].
  wp_step. wp_step; simpl; [done|]. intros mid _. wp_step. wp_step; simpl; [done|].
  wp_step. wp_step. destruct (manifest_totals m) as [totals|]; simpl; [|done].
  wp_step. wp_step. simpl. set (candidate := now_v7 (drawn s)). wp_step. wp_step.
  destruct (to_sqlite_i64 (Z.of_nat (length prepared))) as [count|] eqn:En; simpl; [|done]. apply to_sqlite_i64_Ok in En as [-> _].
  do 2 (wp_step; wp_step; match goal with |- context [then_wp _ _ ?c] => destruct c as [?|?] end; simpl; [|done]).
  wp_step. wp_step; simpl; [done|]. intros d n Ex.
  set (row := Snapshot.mk _ _ _ _ _ _ _ _ _ _ _ _ _) in Ex. unfold insert_snapshot in Ex.
  destruct (existsb _ (snapshots (db s))) eqn:Ec; injection Ex as <- <-; simpl; [by wp_step|].
  rewrite existsb_false in Ec.
  assert (Hno : forall q, q ∈ snapshots (db s) -> Snapshot.id q <> Snapshot.id row).
  { intros q Hq E. specialize (Ec q Hq). apply orb_false_iff in Ec as [Ec _]. by rewrite E, eqs_refl in Ec. }
  wp_step. unfold finalize_winning_snapshot. wp_step. eapply wp_mono; [|apply insert_artifacts_rows].
  intros [[]|e] s1 Hr; simpl; [|done]. destruct (Hr eq_refl) as (E1 & rows & E2 & El & HF). simpl in E1, E2.
  assert (Hs1 : snapshots_whole s1).
  { destruct s1 as [d1 f1 n1]. simpl in *.
    apply (whole_publish s d1 row rows Hs Hno E1 E2); [exact HF|simpl; by rewrite El]. }
  eapply wp_mono; [|apply (keeps_whole_same _ (fun s0 => rows_finalize_tail s0 upload m mid candidate now _ _)), Hs1].
  clear Hs1. intros [[]|e] s2 Hs2; simpl; [|done]. wp_step.
  match goal with |- wp ?m _ _ => assert (Hk : forall s0, keeps (same_rows s0) m) end.
  { intros s0. keeps_rows_tac. }
  eapply wp_mono; [|apply (keeps_whole_same _ Hk), Hs2]. intros [[]|e] s3 Hs3; simpl; [by wp_step|done].
Qed.

Lemma whole_record_completed_upload upload m prepared promotions fp a b :
  keeps snapshots_whole (record_completed_upload st upload m prepared promotions fp a b).
Proof.
  pose proof (fun sid s0 => same_archive_rows _ s0 (fun s => same_finalize_existing st s upload m sid a)) as H2.
  unfold record_completed_upload, now_rfc3339.
  repeat lazymatch goal with
  | |- keeps _ (transaction _ _ _) =>
      apply keeps_transaction; [apply _|apply db_only_record_transaction|intros s; apply whole_record_transaction]
  | |- keeps _ (cleanup_uncommitted_promotions _ _) => apply keeps_whole_same; intros; apply db_cleanup_promotions; apply _
  | |- keeps _ (finalize_upload_for_existing_snapshot _ _ _ _ _) => apply keeps_whole_same, H2
  | _ => keeps_step
  end.
Qed.

Lemma whole_complete_upload id : keeps snapshots_whole (complete_upload st id).
Proof.
  pose proof (fun u s0 => same_archive_rows _ s0 (fun s => same_require_active_upload s u)) as H1.
  pose proof (fun up m sid n s0 => same_archive_rows _ s0 (fun s => same_finalize_existing st s up m sid n)) as H2.
  pose proof (fun l => keeps_whole_same _ (fun s0 => db_cleanup_prepared (same_rows s0) l)) as H3.
  pose proof (fun l => keeps_whole_same _ (fun s0 => db_cleanup_promotions st (same_rows s0) l)) as H4.
  assert (H5 : forall u, keeps snapshots_whole (remove_upload_dir (E:=ApiError) Api.storage u)).
  { intros u. apply keeps_whole_same. intros s0. keeps_rows_tac. }
  unfold complete_upload, get_upload_manifest, get_upload_artifacts, prepare_artifacts, deduplicate,
    find_snapshot_by_fingerprint, join_existing, archive_new, promote_unique_blobs.
  repeat lazymatch goal with
  | |- keeps _ (require_active_upload _) => apply keeps_whole_same, H1
  | |- keeps _ (finalize_upload_for_existing_snapshot _ _ _ _ _) => apply keeps_whole_same, H2
  | |- keeps _ (prepare_loop _ _ _) => apply keeps_whole_same; intros; apply db_prepare_loop; apply _
  | |- keeps _ (promote_loop _ _ _) => apply keeps_whole_same; intros; apply db_promote_loop; apply _
  | |- keeps _ (ensure_blob_representations_compatible _ _) => apply check_representations_reads
  | |- keeps _ (completion_for_upload _ _) => apply completion_for_upload_reads
  | |- keeps _ (record_completed_upload _ _ _ _ _ _ _ _) => apply whole_record_completed_upload
  | |- keeps _ (cleanup_prepared _) => apply H3
  | |- keeps _ (cleanup_uncommitted_promotions _ _) => apply H4
  | |- keeps _ (remove_upload_dir _ _) => apply H5
  | _ => keeps_step
  end.
Qed.

(* ------------------------------------------------------------------ *)
(** ** Deletion and collection *)

Lemma whole_retire s id at_ f n : snapshots_whole s ->
  snapshots_whole (mkStore (delete_artifacts id (mark_deleted id at_ (db s)).1) f n).
Proof.
  intros [K C U]. split; simpl.
  - intros a [_ Ha]%elem_of_delete. destruct (K a Ha) as (q & Hq & E).
    set (p := fun r => eqs (Snapshot.id r) id && live r).
    exists (if p q then Snapshot.set_deleted at_ q else q). split; [|by destruct (p q)].
    apply elem_of_update. destruct (p q) eqn:Ep; [left; by exists q|by right].
  - intros q Hq Hl. apply elem_of_update in Hq as [(q' & _ & _ & ->)|[Ep Hq]]; [done|].
    rewrite Hl, andb_true_r in Ep. apply eqs_false in Ep. rewrite <-C by done. do 2 f_equal.
    unfold artifacts_of, select, delete_where. simpl. unfold delete_where. rewrite list_filter_filter.
    apply list_filter_iff. intros a. rewrite eqs_true, eqs_false. naive_solver.
  - by rewrite fmap_update.
Qed.

Lemma whole_delete_transaction id reason at_ seq el elseq tid aid s : snapshots_whole s ->
  wp (delete_transaction id reason at_ seq el elseq tid aid) (fun r s' =>
    match r with Ok (Commit _) => snapshots_whole s' | _ => True end) s.
Proof.
  intros Hs. unfold delete_transaction.
  wp_step. wp_step; simpl; [done|]. wp_step. wp_step. destruct (snapshot_deletion_row _ _) as [[row m]|]; simpl; [|done].
  destruct (negb (live row)); [by wp_step|].
  wp_step. wp_step; simpl; [done|]. generalize (artifact_blobs id (db s)). intros victims.
  do 2 (apply wp_bind; eapply wp_mono; [|apply keeps_whole_same; [intros s0|exact Hs]; unfold insert_tombstone, insert_deletion_audit; rows_execute];
    clear Hs s; intros [[]|e] s Hs; simpl; [|done]).
  wp_step. wp_step; simpl; [done|]. intros d n Ex.
  assert (Ed : d = (mark_deleted (Snapshot.id row) at_ (db s)).1) by (by rewrite (f_equal (fun o => match o with Some x => x.1 | None => d end) Ex)).
  destruct (negb (n =? 1)); [by wp_step|].
  wp_step. wp_step; simpl; [done|]. intros d2 [] [= <-].
  assert (Hs2 : snapshots_whole (mkStore (delete_artifacts (Snapshot.id row) d) (files s) (drawn s)))
    by (rewrite Ed; by apply whole_retire).
  match goal with |- wp ?m _ _ => assert (Hk : forall s0, keeps (same_rows s0) m) end.
  { intros s0. pose proof (fun sid => same_archive_rows _ s0 (fun s => same_rebuild_latest s sid)) as Hr.
    unfold schedule_blob. keeps_rows_tac. }
  eapply wp_mono; [|apply (keeps_whole_same _ Hk), Hs2]. by intros [[v|v]|e] s3 Hs3.
Qed.
Lemma whole_delete_snapshot id headers payload : keeps snapshots_whole (delete_snapshot st id headers payload).
Proof.
  unfold delete_snapshot.
  repeat lazymatch goal with
  | |- keeps _ (transaction _ _ _) =>
      apply keeps_transaction; [apply _|apply db_only_delete_transaction|intros s; apply whole_delete_transaction]
  | |- keeps _ (tombstone_response _ _) => apply tombstone_response_reads
  | _ => keeps_step
  end.
Qed.
Lemma rows_collect s0 t : keeps (same_rows s0) (collect_orphaned_blobs_at t).
Proof.
  unfold collect_orphaned_blobs_at. keeps_rows_tac.
  match goal with |- keeps _ (gc_loop _ ?l _) => generalize 0; induction l as [| x y IH]; intros k end; simpl; [keeps_tac|].
  unfold gc_transaction, delete_blob. keeps_rows_tac; apply IH.
Qed.
Lemma whole_collect t : keeps snapshots_whole (collect_orphaned_blobs_at t).
Proof. apply keeps_whole_same. intros s0. apply rows_collect. Qed.
End Completing.
