(* ===== verification/Catalogue.v ===== *)
(** What the archive is to its clients: a catalogue of published snapshots.
    A snapshot is published once, never changes, and may be retired; its
    identifier never comes back.  The abstract catalogue, its steps, and what
    a store shows of it. *)
From stdpp Require Import prelude strings gmap sorting list relations.
From Stdlib Require Import ZArith Ascii Lia.
From Stdlib.Strings Require Import Byte.
From S2P Require Import Prelude Errors Contract Externals Validation Chunks Fingerprint Pagination.
From S2P Require Import Tables Store Storage Uploads Receipts Completion Deletion Archive.
From S2P Require Import Invariants Assembly Publication Reclamation Visibility.

(* ------------------------------------------------------------------ *)
(** ** The abstract archive *)

Record PublishedArtifact : Type := mkArtifact {
  pa_id : string;
  pa_index : Z;
  pa_logical_path : string;
  pa_media_type : option string;
  pa_original_size : Z;
  pa_original_sha256 : string;
  pa_blob_id : string;
  pa_created_at : string;
}.
Record PublishedHeader : Type := mkHeader {
  ph_id : string;
  ph_owner : string;
  ph_session : string;
  ph_manifest : string;
  ph_completed_at : string;
  ph_artifact_count : Z;
  ph_original_bytes : Z;
  ph_stored_bytes : Z;
}.
(** A published snapshot: its header and its artifacts, each with the blob
    that holds its stored bytes. *)
Record Published : Type := mkPublished {
  p_header : PublishedHeader;
  p_artifacts : list (PublishedArtifact * option StoredBlob);
}.
Definition p_id (p : Published) : string := ph_id (p_header p).

Record Catalogue : Type := mkCatalogue {
  c_published : list Published;
  c_retired : list string;
}.
Definition empty_catalogue : Catalogue := mkCatalogue [] [].

(** The steps of the archive. *)
Inductive catalogue_step (c : Catalogue) : Catalogue -> Prop :=
| publishes p :
    p_id p ∉ p_id <$> c_published c -> p_id p ∉ c_retired c ->
    catalogue_step c (mkCatalogue (c_published c ++ [p]) (c_retired c))
| retires before p after retired' :
    c_published c = before ++ p :: after -> retired' ≡ₚ p_id p :: c_retired c ->
    catalogue_step c (mkCatalogue (before ++ after) retired').

(** What the steps keep. *)
Record catalogue_wf (c : Catalogue) : Prop := {
  cw_ids : NoDup (p_id <$> c_published c);
  cw_gone : forall id, id ∈ c_retired c -> id ∉ p_id <$> c_published c;
}.
Lemma catalogue_step_wf c c' : catalogue_step c c' -> catalogue_wf c -> catalogue_wf c'.
Proof.
  intros [p H1 H2|before p after retired' E Hr] [N G]; split; simpl.
  - rewrite fmap_app. apply NoDup_app. split_and!; [done| |apply NoDup_singleton].
    intros x Hx ->%list_elem_of_singleton. done.
  - intros id Hid. rewrite fmap_app, elem_of_app. intros [Hx| ->%list_elem_of_singleton]; [|done]. by apply (G id).
  - rewrite E, fmap_app, fmap_cons in N. rewrite fmap_app. by apply NoDup_app in N as (N1 & N2 & [_ N3]%NoDup_cons);
      apply NoDup_app; split_and!; [|intros x Hx Hx'; apply (N2 x Hx); right|].
  - rewrite E, fmap_app, fmap_cons in N. apply NoDup_app in N as (N1 & N2 & [N3 _]%NoDup_cons).
    intros id. rewrite Hr, fmap_app. intros [->|Hid]%elem_of_cons Hx%elem_of_app.
    + destruct Hx as [Hx|Hx]; [apply (N2 _ Hx); left|by apply N3].
    + apply (G id Hid). rewrite E, fmap_app, fmap_cons. set_solver.
Qed.
Lemma catalogue_steps_wf c c' : rtc catalogue_step c c' -> catalogue_wf c -> catalogue_wf c'.
Proof. induction 1; [done|]. eauto using catalogue_step_wf. Qed.
Lemma empty_catalogue_wf : catalogue_wf empty_catalogue.
Proof. split; [constructor|]. by intros id ?%elem_of_nil. Qed.

(** A published snapshot stays as it is, or it is retired, for good. *)
Lemma catalogue_step_keeps c c' p : catalogue_step c c' ->
  (p ∈ c_published c -> p ∈ c_published c' \/ p_id p ∈ c_retired c')
  /\ (forall id, id ∈ c_retired c -> id ∈ c_retired c').
Proof.
  intros [q H1 H2|before q after retired' E Hr]; simpl.
  - split; [|done]. intros Hp. left. apply elem_of_app. by left.
  - split; [|intros id Hid; rewrite Hr; by right]. rewrite E, elem_of_app, elem_of_cons, Hr.
    intros [?|[->|?]]; [left; apply elem_of_app; by left|right; left|left; apply elem_of_app; by right].
Qed.
Lemma catalogue_steps_keep c c' p : rtc catalogue_step c c' ->
  (p ∈ c_published c -> p ∈ c_published c' \/ p_id p ∈ c_retired c')
  /\ (forall id, id ∈ c_retired c -> id ∈ c_retired c').
Proof.
  induction 1 as [|c1 c2 c3 H1 _ [IH1 IH2]]; [by split; [left|]|].
  destruct (catalogue_step_keeps _ _ p H1) as [K1 K2]. split; [|auto].
  intros [Hp|Hp]%K1; [by apply IH1|right; by apply IH2].
Qed.

(* ------------------------------------------------------------------ *)
(** ** What a store shows of it *)

Definition published_artifact (a : ArtifactRow.row) : PublishedArtifact :=
  mkArtifact (ArtifactRow.id a) (ArtifactRow.artifact_index a) (ArtifactRow.logical_path a) (ArtifactRow.media_type a)
    (ArtifactRow.original_size_bytes a) (ArtifactRow.original_sha256 a) (ArtifactRow.blob_id a) (ArtifactRow.created_at a).
Definition header (q : Snapshot.row) : PublishedHeader :=
  mkHeader (Snapshot.id q) (Snapshot.owner_namespace q) (Snapshot.session_id q) (Snapshot.manifest_id q)
    (Snapshot.completed_at q) (Snapshot.artifact_count q) (Snapshot.total_original_size_bytes q)
    (Snapshot.total_stored_size_bytes q).
Definition stored_of (d : Db) (id : string) : option StoredBlob := select_one (fun b => eqs (sb_id b) id) (stored_blobs d).
Definition shown_artifact (d : Db) (a : PublishedArtifact) : PublishedArtifact * option StoredBlob :=
  (a, stored_of d (pa_blob_id a)).
Definition published (d : Db) (h : PublishedHeader) : Published :=
  mkPublished h (shown_artifact d <$> (published_artifact <$> artifacts_of (ph_id h) d)).
Definition headers (l : list Snapshot.row) : list PublishedHeader := header <$> select live l.
Definition gone (l : list Snapshot.row) : list string := Snapshot.id <$> select (fun q => negb (live q)) l.
Definition catalogue (d : Db) : Catalogue :=
  mkCatalogue (published d <$> headers (snapshots d)) (gone (snapshots d)).

(** Rows of a live snapshot name blobs that are there. *)
Definition blobs_known (d : Db) : Prop :=
  NoDup (sb_id <$> stored_blobs d)
  /\ forall a, a ∈ artifact_rows d -> exists b, b ∈ stored_blobs d /\ sb_id b = ArtifactRow.blob_id a.
Lemma archive_blobs_known `{ShaLib} `{ZstdLib} owner s : archive_sound owner s -> blobs_known (db s).
Proof.
  intros [_ I _ _ T]. split; [done|]. intros a Ha. destruct (T a Ha) as (b & Hb & Hid & _). by exists b.
Qed.

Lemma stored_of_known d b : NoDup (sb_id <$> stored_blobs d) -> b ∈ stored_blobs d -> stored_of d (sb_id b) = Some b.
Proof.
  intros Hn Hb. unfold stored_of. destruct (select_one _ _) as [x|] eqn:E.
  - apply select_one_Some in E as [Ex%eqs_true Hx]. f_equal. by apply (NoDup_key_inj sb_id (stored_blobs d)).
  - rewrite select_one_None in E. specialize (E b Hb). by rewrite eqs_refl in E.
Qed.
(** The two stores agree on the blobs that rows of the second refer to. *)
Definition blobs_agree (d d' : Db) : Prop :=
  forall a, a ∈ artifact_rows d' -> stored_of d' (ArtifactRow.blob_id a) = stored_of d (ArtifactRow.blob_id a).
Lemma blobs_agree_more d d' : blobs_known d -> NoDup (sb_id <$> stored_blobs d') ->
  (forall b, b ∈ stored_blobs d -> b ∈ stored_blobs d') ->
  forall a, a ∈ artifact_rows d -> stored_of d' (ArtifactRow.blob_id a) = stored_of d (ArtifactRow.blob_id a).
Proof.
  intros [Hn Hk] Hn' Hsub a Ha. destruct (Hk a Ha) as (b & Hb & <-). rewrite !stored_of_known; auto.
Qed.
Lemma blobs_agree_fewer d d' : blobs_known d' -> NoDup (sb_id <$> stored_blobs d) ->
  (forall b, b ∈ stored_blobs d' -> b ∈ stored_blobs d) -> blobs_agree d d'.
Proof.
  intros [Hn Hk] Hn' Hsub a Ha. destruct (Hk a Ha) as (b & Hb & <-). rewrite !stored_of_known; auto.
Qed.
Lemma blobs_agree_eq d d' : stored_blobs d' = stored_blobs d -> blobs_agree d d'.
Proof. intros E a _. unfold stored_of. by rewrite E. Qed.

Lemma published_same d d' h :
  published_artifact <$> artifacts_of (ph_id h) d' = published_artifact <$> artifacts_of (ph_id h) d ->
  blobs_agree d d' -> published d' h = published d h.
Proof.
  intros Ea Hb. unfold published. f_equal. rewrite <-Ea. apply list_fmap_ext. intros i x Hx. unfold shown_artifact. f_equal.
  apply list_elem_of_lookup_2, list_elem_of_fmap in Hx as (a & -> & [_ Ha]%elem_of_select). by apply Hb.
Qed.
Lemma elem_of_headers h l : h ∈ headers l <-> exists q, q ∈ l /\ live q = true /\ h = header q.
Proof. unfold headers. rewrite list_elem_of_fmap. setoid_rewrite elem_of_select. naive_solver. Qed.

(** The same snapshots, the same artifacts, the same blobs. *)
Lemma catalogue_same d d' :
  headers (snapshots d') = headers (snapshots d) -> gone (snapshots d') = gone (snapshots d) ->
  (forall q, q ∈ snapshots d -> live q = true ->
     published_artifact <$> artifacts_of (Snapshot.id q) d' = published_artifact <$> artifacts_of (Snapshot.id q) d) ->
  blobs_agree d d' -> catalogue d' = catalogue d.
Proof.
  intros E1 E2 E3 E4. unfold catalogue. rewrite E1, E2. f_equal. apply list_fmap_ext. intros i h Hh.
  apply list_elem_of_lookup_2, elem_of_headers in Hh as (q & Hq & Hl & ->). apply published_same; [|done]. by apply E3.
Qed.
