(* ===== verification/Lifecycle.v ===== *)
(** The life of an upload, handler by handler: a capture opens one upload
    however often it is submitted, a chunk that is acknowledged is kept, an
    upload that ends leaves its audit and nothing else. *)
From stdpp Require Import prelude strings gmap sorting list.
From Stdlib Require Import ZArith Ascii Lia.
From Stdlib.Strings Require Import Byte.
From S2P Require Import Prelude Errors Contract Externals Validation Chunks Fingerprint Pagination.
From S2P Require Import Tables Store Storage Uploads Receipts Completion Deletion Archive Invariants Assembly.
From S2P Require Import Publication.

Section Ending.
Context `{EV : Env} `{UL : UuidLib} `{TL : TimeLib} `{SL : ShaLib} `{JL : JsonLib}.

(** Nothing of upload [u] is left but its audit. *)
Record ended (u : string) (s : Store) : Prop := {
  en_upload : select_one (of_upload u) (uploads (db s)) = None;
  en_chunks : forall r, r ∈ upload_chunks (db s) -> Chunk.upload_id r <> u;
  en_artifacts : forall r, r ∈ upload_artifacts (db s) -> UploadArtifact.upload_id r <> u;
  en_manifests : forall r, r ∈ manifests (db s) -> ManifestRow.upload_id r <> u;
  en_files : forall p, below (upload_dir u) p = true -> files s !! p = None;
}.

Lemma select_one_delete {R} (p : R -> bool) l : select_one p (delete_where p l) = None.
Proof. apply select_one_None. by intros r [E _]%elem_of_delete. Qed.

Lemma terminal_db_ended u audits s fs n :
  (forall p, below (upload_dir u) p = true -> fs !! p = None) ->
  ended u (mkStore (terminal_db u audits (db s)) fs n).
Proof.
  intros Hf. split; simpl.
  - apply select_one_delete.
  - intros r [E%eqs_false _]%elem_of_delete. done.
  - intros r [E%eqs_false _]%elem_of_delete. done.
  - intros r [E%eqs_false _]%elem_of_delete. done.
  - exact Hf.
Qed.

Lemma audit_upload_response_spec u s :
  wp (audit_upload_response u) (fun r s' => s' = s /\ forall resp, r = Ok resp ->
    us_upload_id resp = u /\ exists a, a ∈ upload_audits (db s) /\ Audit.upload_id a = u
      /\ ((us_status resp = Abandoned /\ Audit.terminal_reason a = "abandoned"%string)
          \/ (us_status resp = Expired /\ Audit.terminal_reason a = "expired"%string))) s.
Proof.
  unfold audit_upload_response. wp_step. wp_step; simpl; [done|]. wp_step. wp_step.
  destruct (select_one _ (upload_audits (db s))) as [a|] eqn:Ea; simpl; [|done].
  apply select_one_Some in Ea as [Eid%eqs_true Ha].
  wp_step. wp_step. destruct (eqs (Audit.terminal_reason a) "abandoned") eqn:E1;
    [|destruct (eqs (Audit.terminal_reason a) "expired") eqn:E2; [|done]]; simpl;
    wp_step; wp_step; (destruct (i64_to_u64 (Audit.chunk_size_bytes a)); simpl; [|done]); wp_step; split; try done;
    intros resp [= <-]; simpl; (split; [done|]); exists a; (split_and!; [done|done|]).
  - left. split; [done|]. by apply eqs_true.
  - right. split; [done|]. by apply eqs_true.
Qed.

(** C33: abandoning an upload that is still open either reports an error or
    leaves nothing of it, rows or files, but an audit of how it ended, which
    the response reports; a completed upload is left exactly as it was and the
    caller is told so. *)
Theorem abandon_upload_ends u cu up s :
  parse_str u = Some cu -> select_one (of_upload cu) (uploads (db s)) = Some up ->
  wp (abandon_upload u) (fun r s' =>
    (Upload.status up = STATUS_COMPLETED -> s' = s /\ is_ok r = false)
    /\ forall resp, r = Ok resp ->
       ended cu s' /\ us_upload_id resp = cu
       /\ exists a, a ∈ upload_audits (db s') /\ Audit.upload_id a = cu
          /\ ((us_status resp = Abandoned /\ Audit.terminal_reason a = "abandoned"%string)
              \/ (us_status resp = Expired /\ Audit.terminal_reason a = "expired"%string))) s.
Proof.
  intros Hu Hup. unfold abandon_upload, parse_uuid, get_active_upload. wp_step. wp_step. rewrite Hu. simpl.
  wp_step. wp_step; simpl; [by split|]. wp_step. rewrite Hup.
  destruct (eqs (Upload.status up) STATUS_COMPLETED) eqn:Est; [wp_step; by split|]. apply eqs_false in Est.
  apply select_one_Some in Hup as [Hid%eqs_true Hin].
  wp_step. wp_step. intros t. simpl. wp_step. wp_step. destruct (is_expired up t) as [expired|e]; simpl; [|by split].
  eapply wp_mono; [|apply terminalize_spec].
  intros [[]|e] s1 Hs1; simpl; [|by split]. eapply wp_mono; [|apply audit_upload_response_spec].
  intros r s2 [-> Hr]. split; [done|]. intros resp Eresp. split; [|by apply Hr].
  rewrite Hid in Hs1. destruct Hs1 as [(_ & _ & Hno)|(audits & at_ & Ed & _ & _ & _ & Hf)].
  - exfalso. specialize (Hno eq_refl). rewrite select_one_None in Hno. specialize (Hno up Hin). by apply eqs_false in Hno.
  - destruct s1 as [d1 f1 n1]. simpl in *. subst d1. apply terminal_db_ended. by apply Hf.
Qed.
End Ending.

Section Expiring.
Context `{EV : Env} `{TL : TimeLib}.
Context (t : OffsetDateTime).

(** Some row of upload [u] was open and had expired. *)
Definition overdue (d : Db) (u : string) : Prop :=
  exists row, row ∈ uploads d /\ Upload.id row = u /\ Upload.status row <> STATUS_COMPLETED
              /\ is_expired row t = Ok true.
(** The tables of what is archived. *)
Definition archive_rows (d : Db) :=
  (snapshots d, artifact_rows d, blobs d, captures d, sessions d, tombstones d).

(** What a pass of the expiry may do: overdue uploads go and leave an audit. *)
Record expires (s s' : Store) : Prop := {
  ex_uploads : forall up, up ∈ uploads (db s) ->
    (up ∈ uploads (db s')
     /\ forall p, below (upload_dir (Upload.id up)) p = true -> files s' !! p = files s !! p)
    \/ (overdue (db s) (Upload.id up)
        /\ exists a, a ∈ upload_audits (db s') /\ Audit.upload_id a = Upload.id up);
  ex_from : forall up, up ∈ uploads (db s') -> up ∈ uploads (db s);
  ex_audits : forall a, a ∈ upload_audits (db s) -> a ∈ upload_audits (db s');
  ex_archive : archive_rows (db s') = archive_rows (db s);
  ex_files : forall p, (forall u, below (upload_dir u) p = false) -> files s' !! p = files s !! p;
}.
Lemma expires_refl s : expires s s.
Proof. split; auto. Qed.
Lemma expires_trans s1 s2 s3 : expires s1 s2 -> expires s2 s3 -> expires s1 s3.
Proof.
  intros [U1 F1 A1 R1 P1] [U2 F2 A2 R2 P2]. split.
  - intros up Hup. destruct (U1 up Hup) as [[Hup2 Hp]|[Ho (a & Ha & Ea)]].
    + destruct (U2 up Hup2) as [[Hup3 Hp']|[(row & Hrow & ?) Ha]].
      * left. split; [done|]. intros p Hb. by rewrite Hp', Hp.
      * right. split; [|done]. exists row. split; [by apply F1|done].
    + right. split; [done|]. exists a. split; [by apply A2|done].
  - auto.
  - auto.
  - by rewrite R2.
  - intros p Hp. by rewrite P2, P1.
Qed.

Lemma below_upload_dir_inj u v p : below (upload_dir u) p = true -> below (upload_dir v) p = true -> u = v.
Proof.
  intros [k ->]%bool_decide_eq_true [l E]%bool_decide_eq_true. cbn in E. by injection E.
Qed.
Lemma below_upload_dir_other u v p : u <> v -> below (upload_dir u) p = true -> below (upload_dir v) p = false.
Proof. intros Hne Hu. apply not_true_iff_false. intros Hv. by apply Hne, (below_upload_dir_inj u v p). Qed.

Lemma audited_grows up at_ reason before after : audited up at_ reason before after ->
  (forall a, a ∈ before -> a ∈ after) /\ exists a, a ∈ after /\ Audit.upload_id a = Upload.id up.
Proof.
  intros [[-> (q & ? & ?)]| ->]; [split; eauto|]. split.
  - intros a Ha. apply elem_of_app. by left.
  - exists (audit_row up at_ reason). split; [|done]. apply elem_of_app. right. by left.
Qed.

Lemma expires_terminalized s d f n up audits at_ reason :
  overdue (db s) (Upload.id up) -> audited up at_ reason (upload_audits (db s)) audits ->
  d = terminal_db (Upload.id up) audits (db s) ->
  (forall p, below (upload_dir (Upload.id up)) p = false -> f !! p = files s !! p) ->
  expires s (mkStore d f n).
Proof.
  intros Ho Ha -> Hf. apply audited_grows in Ha as [Hgrow Hnew]. split; simpl; try done.
  - intros row Hrow. destruct (decide (Upload.id row = Upload.id up)) as [E|Hne].
    + right. by rewrite E.
    + left. split.
      * apply elem_of_delete. split; [by apply eqs_false|done].
      * intros p Hp. apply Hf. by apply (below_upload_dir_other (Upload.id row)).
  - by intros row [_ ?]%elem_of_delete.
  - intros p Hp. by apply Hf.
Qed.

Lemma expire_candidate_expires id s : wp (expire_candidate t id) (fun _ s' => expires s s') s.
Proof.
  pose proof (expires_refl s) as Hrefl. unfold expire_candidate, get_active_upload.
  wp_step. wp_step. wp_step; simpl; [done|].
  destruct (select_one (of_upload id) (uploads (db s))) as [up|] eqn:Eup; [|by wp_step].
  apply select_one_Some in Eup as [Hid%eqs_true Hup].
  destruct (eqs (Upload.status up) STATUS_COMPLETED) eqn:Est; [by wp_step|]. apply eqs_false in Est.
  wp_step. wp_step. wp_step. destruct (is_expired up t) as [[|]|e] eqn:Ex; simpl; [|by wp_step|done].
  assert (Ho : overdue (db s) (Upload.id up)) by by exists up.
  wp_step. wp_step. eapply wp_mono; [|apply terminalize_spec]. intros r s' Hr.
  assert (Hs' : expires s s').
  { destruct Hr as [(Ed & Ef & _)|(audits & at_ & Ed & Ha & _ & Hf & _)].
    - destruct s' as [d f n]. simpl in *. subst. destruct Hrefl. by split.
    - destruct s' as [d f n]. exact (expires_terminalized s d f n up audits at_ _ Ho Ha Ed Hf). }
  destruct r as [[]|e]; simpl; [by wp_step|done].
Qed.

Lemma expire_candidates_expires ids : forall n s, wp (expire_candidates t ids n) (fun _ s' => expires s s') s.
Proof.
  induction ids as [|id ids IH]; intros n s; simpl; [wp_step; apply expires_refl|].
  wp_step. eapply wp_mono; [|apply expire_candidate_expires]. intros [k|e] s1 H1; simpl; [|done].
  eapply wp_mono; [|apply IH]. intros r s2 H2. by eapply expires_trans.
Qed.

(** Whatever fails, a pass of the expiry ends only uploads that are open
    and overdue, each with an audit on record; every other upload keeps its
    row and its files, and nothing of the archive changes. *)
Theorem expire_uploads_only_overdue s : wp (expire_uploads_at t) (fun _ s' => expires s s') s.
Proof.
  unfold expire_uploads_at. wp_step. wp_step. destruct (format_rfc3339 t); simpl; [|apply expires_refl].
  wp_step. wp_step; simpl; [intros; apply expires_refl|]. apply expire_candidates_expires.
Qed.
End Expiring.

Section Opening.
Context `{EV : Env} `{UL : UuidLib} `{TL : TimeLib} `{SL : ShaLib} `{JL : JsonLib}.
Context (st : AppState).

(** The session a manifest names: owner, agent and the agent's own identifier. *)
Definition session_of (m : Manifest) (r : Session.row) : Prop :=
  Session.owner_namespace r = Storage.owner_namespace st
  /\ Session.source_agent r = source_agent (session m)
  /\ Session.source_session_id r = source_session_id (session m).
#[export] Instance session_of_dec m r : Decision (session_of m r).
Proof. unfold session_of. apply _. Defined.
(** The row of a session that was seen again: only the time it was updated moves. *)
Definition seen_again (now : string) (r : Session.row) : Session.row :=
  {| Session.id := Session.id r; Session.owner_namespace := Session.owner_namespace r;
     Session.source_agent := Session.source_agent r; Session.source_session_id := Session.source_session_id r;
     Session.created_at := Session.created_at r; Session.updated_at := now |}.
(** The sessions after a capture of [m] at [now]: the row of its session has the
    new time, and is added when there was none; every other row is as it was. *)
Definition session_touched (m : Manifest) (now : string) (ss ss' : list Session.row) : Prop :=
  ((exists r, r ∈ ss /\ session_of m r)
   /\ ss' = (fun r => if decide (session_of m r) then seen_again now r else r) <$> ss)
  \/ ((forall r, r ∈ ss -> ~ session_of m r)
      /\ exists id, ss' = ss ++ [{| Session.id := id; Session.owner_namespace := Storage.owner_namespace st;
                                   Session.source_agent := source_agent (session m);
                                   Session.source_session_id := source_session_id (session m);
                                   Session.created_at := now; Session.updated_at := now |}]).

Lemma session_key_spec m r : session_key st m r = bool_decide (session_of m r).
Proof.
  apply eq_true_iff_eq. unfold session_key, session_of.
  rewrite bool_decide_eq_true, !andb_true_iff, !eqs_true. tauto.
Qed.
Lemma get_or_create_session_spec client_id m now s :
  wp (get_or_create_session st client_id m now) (fun r s' => forall id, r = Ok id ->
    exists ss, db s' = with_sessions (fun _ => ss) (db s) /\ session_touched m now (sessions (db s)) ss
      /\ exists r, r ∈ ss /\ session_of m r /\ Session.id r = id) s.
Proof.
  unfold get_or_create_session. wp_step. wp_step; simpl; [done|].
  case_bool_decide; [by wp_step|].
  wp_step. wp_step. simpl. wp_step. wp_step; simpl; [done|]. intros d [] Ex.
  destruct (insert_or_update _ _ _ _ _) as [ss|] eqn:Ei; [|done]. injection Ex as <-.
  wp_step. wp_step; simpl; [done|]. intros r Hr. wp_step. intros id [= <-].
  apply select_one_Some in Hr as [Hr Hin]. rewrite session_key_spec, bool_decide_eq_true in Hr.
  exists ss. split; [done|]. split; [|by exists r].
  unfold insert_or_update in Ei. destruct (existsb _ _) eqn:Eb.
  - injection Ei as <-. apply existsb_true in Eb as (q & Hq & Hk).
    rewrite session_key_spec, bool_decide_eq_true in Hk. left. split; [by exists q|].
    unfold update. apply map_ext. intros x. rewrite session_key_spec.
    by case_bool_decide; case_decide.
  - rewrite existsb_false in Eb. apply insert_row_Some in Ei as [-> _]. right. split; [|by eexists].
    intros q Hq Hk. specialize (Eb q Hq). rewrite session_key_spec, bool_decide_eq_false in Eb. done.
Qed.

(** The row a new upload starts as, and those of its artifacts. *)
Definition opened (client_id capture_id : string) (m : Manifest) (digest : string)
    (layout : UploadLayout) (now expires : string) (row : Upload.row) : Prop :=
  Upload.owner_namespace row = Storage.owner_namespace st /\ Upload.client_id row = client_id
  /\ Upload.capture_id row = capture_id /\ Upload.idempotency_key row = capture_id
  /\ Upload.manifest_sha256 row = digest
  /\ status_open (Upload.status row) = true /\ Upload.snapshot_id row = None
  /\ Upload.created_at row = now /\ Upload.expires_at row = expires /\ Upload.completed_at row = None
  /\ Upload.chunk_size_bytes row = chunk_size_bytes st
  /\ (exists first, head (artifacts m) = Some first
       /\ Upload.declared_stored_size_bytes row = stored_size_bytes first
       /\ Upload.declared_original_size_bytes row = original_size_bytes first)
  /\ head (chunk_counts layout) = Some (Upload.chunk_count row)
  /\ Upload.artifact_count row = Z.of_nat (length (artifacts m))
  /\ Upload.total_stored_size_bytes row = total_stored_bytes layout
  /\ Upload.total_original_size_bytes row = total_original_bytes layout
  /\ Upload.transfer_bytes row = 0 /\ Upload.newly_persisted_bytes row = 0.
Definition opened_artifact (u : string) (i : Z) (a : Artifact) (chunks : Z) : UploadArtifact.row :=
  {| UploadArtifact.upload_id := u; UploadArtifact.artifact_index := i;
     UploadArtifact.logical_path := logical_path a; UploadArtifact.media_type := media_type a;
     UploadArtifact.original_size_bytes := original_size_bytes a;
     UploadArtifact.original_sha256 := digest_storage_value (original_sha256 a);
     UploadArtifact.stored_size_bytes := stored_size_bytes a;
     UploadArtifact.stored_sha256 := digest_storage_value (stored_sha256 a);
     UploadArtifact.compression := as_str (compression a); UploadArtifact.chunk_count := chunks |}.
Fixpoint opened_artifacts (u : string) (i : Z) (arts : list (Artifact * Z)) : list UploadArtifact.row :=
  match arts with
  | [] => []
  | (a, n) :: arts => opened_artifact u i a n :: opened_artifacts u (i + 1) arts
  end.

Lemma to_u32_Ok z w : to_u32 z = Some w -> w = z.
Proof. unfold to_u32. by case_match; intros [= ->]. Qed.

Lemma insert_upload_artifacts_spec u arts : forall i s,
  wp (insert_upload_artifacts u i arts) (fun r s' => r = Ok tt ->
    db s' = with_upload_artifacts (fun t => t ++ opened_artifacts u i arts) (db s)) s.
Proof.
  induction arts as [|[a n] arts IH]; intros i s; simpl.
  - wp_step. intros _. unfold with_upload_artifacts. rewrite app_nil_r. by destruct (db s).
  - wp_step. wp_step. destruct (to_u32 i) as [i32|] eqn:Ei32; simpl; [|done].
    apply to_u32_Ok in Ei32 as ->. unfold insert_upload_artifact.
    wp_step. wp_step. wp_step. destruct (to_sqlite_i64 (original_size_bytes a)) eqn:E1; simpl; [|done].
    wp_step. wp_step. destruct (to_sqlite_i64 (stored_size_bytes a)) eqn:E2; simpl; [|done].
    wp_step. wp_step. destruct (to_sqlite_i64 n) eqn:E3; simpl; [|done]. wp_step; simpl; [done|].
    apply to_sqlite_i64_Ok in E1 as [-> _], E2 as [-> _], E3 as [-> _].
    intros d [] Ex. destruct (insert_row _ _ _) as [t|] eqn:Ei; [|done]. injection Ex as <-.
    apply insert_row_Some in Ei as [-> _]. eapply wp_mono; [|apply IH].
    intros r s' Hr Hok. rewrite (Hr Hok). unfold with_upload_artifacts. simpl. by rewrite <-app_assoc.
Qed.

(** The stored manifest of upload [u], serialized again, has this digest. *)
Definition recanonicalizes (u digest : string) (d : Db) : Prop :=
  exists row m json, row ∈ manifests d /\ ManifestRow.upload_id row = u
    /\ manifest_of_json (ManifestRow.canonical_json row) = Some m /\ manifest_to_json m = Some json
    /\ sha256_hex (string_bytes json) = digest.

Lemma legacy_manifest_equivalent_spec u digest s :
  wp (legacy_manifest_equivalent u digest) (fun r s' => s' = s /\
    (r = Ok true -> recanonicalizes u digest (db s))) s.
Proof.
  unfold legacy_manifest_equivalent. wp_step. wp_step; simpl; [done|].
  destruct (select_one _ (manifests (db s))) as [row|] eqn:Er; simpl; [|by wp_step].
  apply select_one_Some in Er as [Eu%eqs_true Hrow]. wp_step. wp_step.
  destruct (manifest_of_json _) as [m|] eqn:Em; simpl; [|done].
  wp_step. wp_step. destruct (manifest_to_json m) as [json|] eqn:Ej; simpl; [|done]. wp_step.
  split; [done|]. intros [= E%eqs_true]. by exists row, m, json.
Qed.

(** What submitting a capture amounts to, by whether it was submitted before:
    the whole of the new metadata is the old one with the tables listed here
    replaced. *)
Definition capture_opened (client_id capture_id : string) (m : Manifest) (json digest : string)
    (layout : UploadLayout) (now expires : string) (d d' : Db) (created : CreatedUpload) : Prop :=
  exists ss, session_touched m now (sessions d) ss /\
  match select_one (capture_key (Storage.owner_namespace st) client_id capture_id) (uploads d) with
  | Some existing =>
      created = {| created_upload_id := Upload.id existing; was_created := false |}
      /\ (Upload.manifest_sha256 existing = digest \/ recanonicalizes (Upload.id existing) digest d)
      /\ d' = with_sessions (fun _ => ss) d
  | None =>
      exists row mrow,
        created = {| created_upload_id := Upload.id row; was_created := true |}
        /\ (forall q, q ∈ uploads d -> Upload.id q <> Upload.id row)
        /\ opened client_id capture_id m digest layout now expires row
        /\ (exists sess, sess ∈ ss /\ session_of m sess /\ Session.id sess = Upload.session_id row)
        /\ ManifestRow.upload_id mrow = Upload.id row /\ ManifestRow.canonical_json mrow = json
        /\ ManifestRow.sha256 mrow = digest /\ ManifestRow.created_at mrow = now
        /\ d' = with_upload_artifacts
                  (fun t => t ++ opened_artifacts (Upload.id row) 0 (zip (artifacts m) (chunk_counts layout)))
                (with_manifests (fun t => t ++ [mrow])
                (with_uploads (fun t => t ++ [row])
                (with_sessions (fun _ => ss) d)))
  end.

Lemma terminal_reuse_reads owner client_id capture_id m digest s :
  wp (ensure_terminal_capture_reuse_is_equivalent owner client_id capture_id m digest)
    (fun _ s' => s' = s) s.
Proof.
  unfold ensure_terminal_capture_reuse_is_equivalent. wp_step. wp_step; simpl; [done|].
  destruct (_ <$> _) as [[previous|]|]; [destruct (_ || _)| |]; by wp_step.
Qed.

Lemma persist_new_upload_detail_spec u m json digest layout now s :
  wp (persist_new_upload_detail u m json digest layout now) (fun r s' => r = Ok tt ->
    exists mrow, ManifestRow.upload_id mrow = u /\ ManifestRow.canonical_json mrow = json
      /\ ManifestRow.sha256 mrow = digest /\ ManifestRow.created_at mrow = now
      /\ db s' = with_upload_artifacts
                   (fun t => t ++ opened_artifacts u 0 (zip (artifacts m) (chunk_counts layout)))
                   (with_manifests (fun t => t ++ [mrow]) (db s))) s.
Proof.
  unfold persist_new_upload_detail. wp_step. wp_step. simpl. wp_step. wp_step; simpl; [done|].
  intros d [] Ex. destruct (insert_row _ _ _) as [t|] eqn:Ei; [|done]. injection Ex as <-.
  apply insert_row_Some in Ei as [-> _]. eapply wp_mono; [|apply insert_upload_artifacts_spec].
  intros r s' Hr Hok. exists (ManifestRow.mk (now_v7 (drawn s)) u json digest now). rewrite (Hr Hok). by split_and!.
Qed.

Lemma persist_transaction_spec client_id capture_id m json digest layout now expires s :
  wp (persist_transaction st client_id capture_id m json digest layout now expires) (fun r s' =>
    match r with
    | Ok (Commit created) =>
        capture_opened client_id capture_id m json digest layout now expires (db s) (db s') created
    | Ok (Rollback _) => False
    | Err _ => True
    end) s.
Proof.
  unfold persist_transaction. wp_step.
  eapply wp_mono; [|apply get_or_create_session_spec]. intros [sid|e] s1 H1; simpl; [|done].
  destruct (H1 sid eq_refl) as (ss & Ed & Hss & Hsid). clear H1.
  wp_step. eapply wp_mono; [|apply terminal_reuse_reads]. intros [[]|e] s2 ->; simpl; [|done].
  wp_step. wp_step. simpl. set (u := now_v7 (drawn s1)).
  do 9 (wp_step; wp_step; match goal with |- context [then_wp _ _ ?c] => destruct c as [?|?] eqn:? end; simpl; [|done]).
  repeat match goal with H : to_sqlite_i64 _ = Ok _ |- _ => apply to_sqlite_i64_Ok in H as [-> _] end.
  wp_step. wp_step; simpl; [done|]. intros d n Ex.
  destruct (insert_or_ignore _ _ _ _) as [[t k]|] eqn:Ei; [|done]. injection Ex as <- <-.
  rewrite Ed in Ei |- *. simpl in Ei.
  apply insert_or_ignore_Some in Ei as [(-> & -> & q & Hq & Hk)|(-> & -> & Hno)]; simpl.
  - wp_step. wp_step; simpl; [done|]. intros existing Hex. wp_step.
    assert (Hsame : (Upload.manifest_sha256 existing = digest \/ recanonicalizes (Upload.id existing) digest (db s)) ->
      capture_opened client_id capture_id m json digest layout now expires (db s)
        (with_uploads (fun _ => uploads (db s)) (with_sessions (fun _ => ss) (db s)))
        {| created_upload_id := Upload.id existing; was_created := false |}).
    { intros He. exists ss. rewrite Hex. by split_and!. }
    destruct (eqs _ digest) eqn:Ee.
    + wp_step. simpl. wp_step. apply Hsame. left. by apply eqs_true.
    + eapply wp_mono; [|apply legacy_manifest_equivalent_spec]. intros [[|]|e] s3 [-> Hr]; simpl; [|by wp_step|done].
      wp_step. apply Hsame. right. by apply Hr.
  - wp_step. eapply wp_mono; [|apply persist_new_upload_detail_spec]. intros [[]|e] s3 Hr; simpl; [|done].
    wp_step. destruct (Hr eq_refl) as (mrow & Eu & Ej & Edig & Enow & Edb). simpl in *.
    exists ss. split; [done|].
    assert (En : select_one (capture_key (Storage.owner_namespace st) client_id capture_id) (uploads (db s)) = None).
    { apply select_one_None. intros r Hin. by apply Hno. }
    rewrite En. match type of Edb with context [_ ++ [?r]] => lazymatch type of r with Upload.row => exists r, mrow end end.
    split; [done|]. split; [|split; [|split; [exact Hsid|by split_and!]]].
    + intros q Hq Heq. destruct (Hno q Hq) as [_ [Hne _]%orb_false_iff].
      unfold of_upload in Hne. by apply eqs_false in Hne.
    + repeat match goal with H : ok_or _ _ = Ok _ |- _ => apply ok_or_Ok in H end.
      unfold opened. simpl. split_and!; try done; [by destruct (forallb _ _)|by eexists].
Qed.

(** C9: submitting a capture is idempotent.  If the server holds an upload for
    the same client and capture identifier, it answers with that upload, and
    only when the manifest is the same one; all that changes in the whole of
    the metadata is the time its session was last updated.  Otherwise it answers with one new
    open upload, its manifest and one row for each artifact, as the request gave
    them, under the session the manifest names.  Files are never touched, and
    an error leaves the metadata untouched too. *)
Theorem persist_upload_idempotent client_id capture_id m json digest layout now expires s :
  wp (persist_upload st client_id capture_id m json digest layout now expires) (fun r s' =>
    files s' = files s /\
    match r with
    | Ok created =>
        capture_opened client_id capture_id m json digest layout now expires (db s) (db s') created
    | Err _ => db s' = db s
    end) s.
Proof.
  unfold persist_upload. wp_step; [done|]. eapply wp_mono; [|apply wp_and;
    [apply (db_only_persist_transaction st client_id capture_id m json digest layout now expires (files s) (drawn s)); done
    |apply persist_transaction_spec]].
  intros [[v|v]|e] s' [[Ef _] Hr]; simpl; by split_and!.
Qed.
End Opening.
