(* ===== verification/Ledger.v ===== *)
(** The ledger of the uploads: an identifier the server drew names one upload
    for ever.  No two uploads share one, and an upload that ended (it has an
    audit) never comes back. *)
From stdpp Require Import prelude strings gmap sorting list.
From Stdlib Require Import ZArith Ascii Lia.
From Stdlib.Strings Require Import Byte.
From S2P Require Import Prelude Errors Contract Externals Validation Chunks Fingerprint Pagination.
From S2P Require Import Tables Store Storage Uploads Receipts Completion Deletion Archive.
From S2P Require Import Invariants Assembly Publication Reclamation Visibility Lifecycle.

Section Ledger.
Context `{EV : Env} `{UL : UuidLib} {ULaws : UuidLaws UL}.

(** The identifiers the server drew so far. *)
Definition drawn_id (n : nat) (id : string) : Prop := exists k, (k < n)%nat /\ id = now_v7 k.
Definition upload_ids (d : Db) : list string := Upload.id <$> uploads d.
Definition audit_ids (d : Db) : list string := Audit.upload_id <$> upload_audits d.

Record ledger (s : Store) : Prop := {
  lg_ids : NoDup (upload_ids (db s));
  lg_ended : forall id, id ∈ upload_ids (db s) -> id ∉ audit_ids (db s);
  lg_uploads : Forall (drawn_id (drawn s)) (upload_ids (db s));
  lg_audits : Forall (drawn_id (drawn s)) (audit_ids (db s));
}.

Lemma drawn_id_le m n id : (m <= n)%nat -> drawn_id m id -> drawn_id n id.
Proof. intros Hle (k & Hk & ->). exists k. split; [lia|done]. Qed.
Lemma drawn_id_fresh n id : drawn_id n id -> id <> now_v7 n.
Proof. intros (k & Hk & ->) E. pose proof now_v7_inj as Hi. apply Hi in E. lia. Qed.

(** [d'] has the identifiers of [d]. *)
Definition same_ledger (d d' : Db) : Prop := upload_ids d' = upload_ids d /\ audit_ids d' = audit_ids d.
Lemma ledger_same d s : same_ledger (db s) d -> ledger s -> forall f n, (drawn s <= n)%nat -> ledger (mkStore d f n).
Proof.
  intros [E1 E2] [N E U A] f n Hle. split; simpl; rewrite ?E1, ?E2; try done.
  - eapply Forall_impl; [exact U|]. intros id. by apply drawn_id_le.
  - eapply Forall_impl; [exact A|]. intros id. by apply drawn_id_le.
Qed.
#[export] Instance ledger_db : DbInvariant ledger.
Proof. intros s [d f n] E Hle Hs. simpl in *. apply (ledger_same d s); [by rewrite E|done..]. Qed.

Lemma keeps_ledger_execute {E A} (err : SqlxError -> E) (f : Db -> option (Db * A)) :
  (forall d d' a, f d = Some (d', a) -> same_ledger d d') -> keeps ledger (execute err f).
Proof. intros Hf. apply keeps_execute. intros s d a Hs Ex. apply (ledger_same d s); eauto. Qed.

Lemma ledger_terminal s d f n upload up at_ reason audits : ledger s ->
  up ∈ uploads (db s) ->
  Upload.id upload = Upload.id up -> audited upload at_ reason (upload_audits (db s)) audits -> d = terminal_db (Upload.id up) audits (db s) ->
  (drawn s <= n)%nat -> ledger (mkStore d f n).
Proof.
  intros [N E U A] Hup Eid Haud -> Hle.
  assert (Hin : Upload.id up ∈ upload_ids (db s)) by by apply list_elem_of_fmap_2.
  assert (Hsub : sublist (upload_ids (terminal_db (Upload.id up) audits (db s))) (upload_ids (db s))).
  { unfold upload_ids. apply sublist_fmap. simpl. apply sublist_filter. }
  assert (Hau : forall id, id ∈ audit_ids (terminal_db (Upload.id up) audits (db s)) -> id ∈ audit_ids (db s) \/ id = Upload.id up).
  { intros id. unfold audit_ids. simpl. destruct Haud as [[-> _]| ->]; [by left|].
    rewrite fmap_app, elem_of_app, <-Eid. intros [?| ->%list_elem_of_singleton]; [by left|by right]. }
  rewrite Forall_forall in U, A. split; simpl.
  - by eapply sublist_NoDup.
  - intros id Hid Ha. apply Hau in Ha as [Ha| ->].
    + apply (E id); [exact (elem_of_sublist _ _ _ Hid Hsub)|done].
    + unfold upload_ids in Hid. apply list_elem_of_fmap in Hid as (q & Eq & [Hq%eqs_false _]%elem_of_delete). by rewrite Eq in Hq.
  - apply Forall_forall. intros id Hid. apply (drawn_id_le (drawn s)); [done|]. apply U. exact (elem_of_sublist _ _ _ Hid Hsub).
  - apply Forall_forall. intros id Ha. apply (drawn_id_le (drawn s)); [done|]. apply Hau in Ha as [Ha| ->]; auto.
Qed.
Lemma ledger_open s row d f n : ledger s -> Upload.id row = now_v7 (drawn s) ->
  uploads d = uploads (db s) ++ [row] -> upload_audits d = upload_audits (db s) -> (drawn s < n)%nat -> ledger (mkStore d f n).
Proof.
  intros [N E U A] Hid E1 E2 Hlt. assert (Eu : upload_ids d = upload_ids (db s) ++ [Upload.id row]).
  { unfold upload_ids. by rewrite E1, fmap_app. }
  assert (Ea : audit_ids d = audit_ids (db s)) by (unfold audit_ids; by rewrite E2).
  rewrite Forall_forall in U, A. split; simpl; rewrite ?Eu, ?Ea.
  - apply NoDup_app. split_and!; [done| |apply NoDup_singleton].
    intros id Hin ->%list_elem_of_singleton. by apply (drawn_id_fresh _ _ (U _ Hin)).
  - intros id [Hin| ->%list_elem_of_singleton]%elem_of_app; [by apply E|].
    intros Hin. by apply (drawn_id_fresh _ _ (A _ Hin)).
  - apply Forall_app. split; [|apply Forall_singleton; exists (drawn s); by rewrite Hid].
    apply Forall_forall. intros id Hin. apply (drawn_id_le (drawn s)); [lia|by apply U].
  - apply Forall_forall. intros id Hin. apply (drawn_id_le (drawn s)); [lia|by apply A].
Qed.
End Ledger.

(** A statement that leaves the identifiers in place. *)
Ltac ledger_execute :=
  let d := fresh "d" in
  apply keeps_ledger_execute; intros d; do 2 intro; unfold complete_rows; destruct d; simpl; table_cases;
  intros [= <- <-]; split; unfold upload_ids; cbn [uploads with_uploads]; by rewrite ?fmap_update.
Ltac keeps_ledger_tac := repeat
  lazymatch goal with
  | |- keeps _ (execute _ _) => ledger_execute
  | |- keeps _ (transaction _ _ _) => apply (keeps_transaction_body ledger); [db_only_tac|]
  | |- keeps _ (for_each _ _) => apply keeps_for_each; do 2 intro
  | |- keeps _ (remove_upload_dir _ _) => apply keeps_db_remove_dir_all; apply _
  | _ => keeps_step
  end.

Section Uploads.
Context `{EV : Env} `{UL : UuidLib} {ULaws : UuidLaws UL} `{TL : TimeLib} `{ML : MimeLib} `{SL : ShaLib} `{ZL : ZstdLib} `{JL : JsonLib}.
Context (st : AppState).

Lemma ledger_terminalize upload reason : keeps ledger (terminalize_upload_locked upload reason).
Proof.
  unfold terminalize_upload_locked, now_rfc3339. apply keeps_bind; [keeps_tac|]. intros at_.
  apply keeps_bind; [|intros b; destruct b; [apply keeps_db_remove_dir_all; apply _|keeps_tac]].
  apply keeps_transaction; [apply _|apply terminalize_db_only|]. intros s Hs.
  eapply wp_mono; [|apply wp_and; [apply (terminalize_db_only upload at_ reason (files s) (drawn s)); done|apply terminalize_transaction_spec]].
  intros r [d f n] [[_ Hd] HQ]. destruct r as [[[|]|]|e]; try done; simpl in *.
  - destruct HQ as (audits & Ed & Ha & row & [Eid%eqs_true Hrow]%select_one_Some & _). rewrite <-Eid in Ed.
    apply (ledger_terminal s d f n upload row at_ reason audits); try done.
  - destruct HQ as [-> _]. by apply (ledger_same (db s) s).
Qed.
Lemma ledger_register_client id payload : keeps ledger (register_client st id payload).
Proof. unfold register_client, now_rfc3339. keeps_ledger_tac. Qed.
#[local] Hint Resolve ledger_terminalize : keeps.
Lemma ledger_expire_uploads_at t : keeps ledger (expire_uploads_at t).
Proof.
  unfold expire_uploads_at. keeps_ledger_tac.
  match goal with |- keeps _ (expire_candidates _ ?l _) => generalize 0; induction l as [| x y IH]; intros k end; simpl.
  - keeps_ledger_tac.
  - apply keeps_bind; [|intros; apply IH]. unfold expire_candidate, get_active_upload. keeps_ledger_tac.
Qed.
Lemma ledger_require_active_upload u : keeps ledger (require_active_upload u).
Proof. unfold require_active_upload, get_active_upload. keeps_ledger_tac. Qed.
Lemma ledger_upload_artifact_statuses upload : keeps ledger (upload_artifact_statuses upload).
Proof.
  unfold upload_artifact_statuses, get_upload_artifacts. keeps_ledger_tac.
  match goal with |- keeps _ (statuses_of _ ?l) => induction l as [| x y IH] end; simpl; keeps_ledger_tac.
  unfold upload_artifact_status. keeps_ledger_tac.
Qed.
#[local] Hint Resolve ledger_expire_uploads_at ledger_require_active_upload ledger_upload_artifact_statuses : keeps.
Lemma ledger_get_upload_status u : keeps ledger (get_upload_status u).
Proof.
  unfold get_upload_status, get_active_upload, audit_upload_response, active_upload_status_response.
  keeps_ledger_tac.
Qed.
Lemma ledger_abandon_upload u : keeps ledger (abandon_upload u).
Proof. unfold abandon_upload, get_active_upload, audit_upload_response. keeps_ledger_tac. Qed.
Lemma ledger_put_artifact_chunk u a i headers body : keeps ledger (put_artifact_chunk u a i headers body).
Proof.
  assert (Hw : forall p n k h, keeps ledger (write_frames body p n k h)).
  { intros p n. induction body as [|[data| |] b IH]; intros k h; simpl; keeps_ledger_tac; apply IH. }
  unfold put_artifact_chunk, get_upload_artifact, get_chunk, confirm_chunk, accept_chunk,
    store_chunk_file, ensure_chunk_dir, write_chunk_body, now_rfc3339, persist_chunk_record, verify_stored_file,
    persist_chunk_transaction, refresh_upload_status, upload_is_complete, get_upload_artifacts, update_open_status.
  keeps_ledger_tac.
  match goal with |- keeps _ (all_complete _ ?l) => induction l as [| x y IH]; simpl; keeps_ledger_tac end.
Qed.

Lemma ledger_insert_upload_artifacts u i arts : keeps ledger (insert_upload_artifacts u i arts).
Proof.
  revert i. induction arts as [|[a n] arts IH]; intros i; simpl; [keeps_ledger_tac|].
  unfold insert_upload_artifact. keeps_ledger_tac.
Qed.
#[local] Hint Resolve ledger_insert_upload_artifacts : keeps.
(** A new upload gets the identifier drawn for it. *)
Lemma ledger_persist_upload c k m j h l a b : keeps ledger (persist_upload st c k m j h l a b).
Proof.
  unfold persist_upload. apply keeps_transaction; [apply _|exact (db_only_persist_transaction st c k m j h l a b)|].
  intros s Hs. unfold persist_transaction.
  assert (H1 : keeps ledger (get_or_create_session st c m a)) by (unfold get_or_create_session; keeps_ledger_tac).
  assert (H2 : forall o, keeps ledger (ensure_terminal_capture_reuse_is_equivalent o c k m h))
    by (intros o; unfold ensure_terminal_capture_reuse_is_equivalent; keeps_ledger_tac).
  wp_step. eapply wp_mono; [|by apply H1].
  clear Hs s. intros [sid|e] s Hs; simpl; [|done].
  wp_step. eapply wp_mono; [|by apply H2].
  clear Hs s. intros [[]|e] s Hs; simpl; [|done].
  wp_step. wp_step. simpl.
  do 9 (wp_step; wp_step; match goal with |- context [then_wp _ _ ?c] => destruct c as [?|?] end; simpl; [|done]).
  wp_step. wp_step; simpl; [done|]. intros d n Ex.
  destruct (insert_or_ignore _ _ _ _) as [[t q]|] eqn:Ei; [|done]. injection Ex as <- <-.
  match goal with |- wp ?m _ ?s1 => assert (Hk : keeps ledger m); [|assert (Hs1 : ledger s1)] end.
  - unfold persist_new_upload_detail, legacy_manifest_equivalent. keeps_ledger_tac.
  - apply insert_or_ignore_Some in Ei as [(_ & -> & _)|(_ & -> & _)].
    + apply (ledger_same _ s); [by destruct (db s)|done|lia].
    + eapply (ledger_open s); [done| |by destruct (db s)|by destruct (db s)|simpl; lia]. done.
  - eapply wp_mono; [|by apply Hk]. by intros [[v|v]|e] s1.
Qed.
#[local] Hint Resolve ledger_persist_upload : keeps.
Lemma ledger_create_upload payload : keeps ledger (create_upload st payload).
Proof. unfold create_upload, active_upload_response, get_active_upload. keeps_ledger_tac. Qed.

(* ------------------------------------------------------------------ *)
(** ** Completion, deletion, collection *)

Lemma ledger_insert_capture_provenance upload m mid sid at_ :
  keeps ledger (insert_capture_provenance st upload m mid sid at_).
Proof. unfold insert_capture_provenance, maintain_session_latest_context, upsert_session_latest_context. keeps_ledger_tac. Qed.
#[local] Hint Resolve ledger_insert_capture_provenance : keeps.
Lemma ledger_finalize_existing upload m sid transfer :
  keeps ledger (finalize_upload_for_existing_snapshot st upload m sid transfer).
Proof.
  unfold finalize_upload_for_existing_snapshot, now_rfc3339.
  repeat lazymatch goal with
  | |- keeps _ (transaction _ _ _) => apply (keeps_transaction_body ledger); [apply db_only_finalize_existing_transaction|]
  | |- keeps _ (finalize_existing_transaction _ _ _ _ _ _) => unfold finalize_existing_transaction; keeps_ledger_tac
  | _ => keeps_step
  end.
Qed.
Lemma ledger_record_transaction upload m prepared fp now seq a b :
  keeps ledger (record_transaction st upload m prepared fp now seq a b).
Proof.
  assert (Hb : forall l ids, keeps ledger (collect_blob_ids st now l ids)).
  { induction l as [|p l IH]; intros ids; simpl; [keeps_tac|]. unfold get_or_create_blob. keeps_ledger_tac; apply IH. }
  assert (Hi : forall l sid ids, keeps ledger (insert_artifacts sid now seq ids l)).
  { induction l as [|p l IH]; intros sid ids; simpl; [keeps_tac|]. keeps_ledger_tac; apply IH. }
  unfold record_transaction, finalize_winning_snapshot, insert_snapshot. keeps_ledger_tac.
Qed.
Lemma ledger_record_completed_upload upload m prepared promotions fp a b :
  keeps ledger (record_completed_upload st upload m prepared promotions fp a b).
Proof.
  unfold record_completed_upload, now_rfc3339.
  repeat lazymatch goal with
  | |- keeps _ (transaction _ _ _) =>
      apply (keeps_transaction_body ledger); [apply db_only_record_transaction|apply ledger_record_transaction]
  | |- keeps _ (finalize_upload_for_existing_snapshot _ _ _ _ _) => apply ledger_finalize_existing
  | _ => keeps_step
  end.
Qed.
Lemma ledger_complete_upload id : keeps ledger (complete_upload st id).
Proof.
  unfold complete_upload, get_upload_manifest, get_upload_artifacts, prepare_artifacts, deduplicate,
    find_snapshot_by_fingerprint, join_existing, archive_new, promote_unique_blobs.
  repeat lazymatch goal with
  | |- keeps _ (finalize_upload_for_existing_snapshot _ _ _ _ _) => apply ledger_finalize_existing
  | |- keeps _ (ensure_blob_representations_compatible _ _) => apply check_representations_reads
  | |- keeps _ (completion_for_upload _ _) => apply completion_for_upload_reads
  | |- keeps _ (record_completed_upload _ _ _ _ _ _ _ _) => apply ledger_record_completed_upload
  | |- keeps _ (remove_upload_dir _ _) => apply keeps_db_remove_dir_all; apply _
  | _ => keeps_step
  end.
Qed.
Lemma ledger_delete_snapshot id headers payload : keeps ledger (delete_snapshot st id headers payload).
Proof.
  unfold delete_snapshot.
  repeat lazymatch goal with
  | |- keeps _ (transaction _ _ _) => apply (keeps_transaction_body ledger); [apply db_only_delete_transaction|]
  | |- keeps _ (delete_transaction _ _ _ _ _ _ _ _) =>
      unfold delete_transaction, rebuild_session_latest_context, insert_tombstone, insert_deletion_audit,
        mark_deleted, delete_artifacts, schedule_blob
  | |- keeps _ (execute _ (fun d => match latest_context _ d with _ => _ end)) =>
      apply keeps_ledger_execute; intros d; do 2 intro; destruct (latest_context _ _); destruct d; simpl;
      table_cases; by intros [= <- <-]
  | |- keeps _ (tombstone_response _ _) => apply tombstone_response_reads
  | |- keeps _ (execute _ _) => ledger_execute
  | |- keeps _ (for_each _ _) => apply keeps_for_each; do 2 intro
  | _ => keeps_step
  end.
Qed.
Lemma ledger_collect t : keeps ledger (collect_orphaned_blobs_at t).
Proof.
  assert (Hg : forall n c, keeps ledger (transaction gc_err gc_err (gc_transaction n c))).
  { intros n c. unfold gc_transaction, delete_blob. apply keeps_db_transaction; [apply _|intros k; keeps_tac|].
    keeps_ledger_tac. }
  unfold collect_orphaned_blobs_at. keeps_ledger_tac.
  match goal with |- keeps _ (gc_loop _ ?l _) => generalize 0; induction l as [| x y IH]; intros k end; simpl; [keeps_tac|].
  keeps_tac; apply IH.
Qed.
End Uploads.
