(* ===== verification/Restart.v ===== *)
(** The recovery pass keeps what the archive promises, wherever it stops: the
    artifacts of live snapshots keep their rows and files, the chunks of open
    uploads stay on disk. *)
From stdpp Require Import prelude strings gmap sorting list.
From Stdlib Require Import ZArith Ascii Lia.
From Stdlib.Strings Require Import Byte.
From S2P Require Import Prelude Errors Contract Externals Validation Chunks Fingerprint Pagination.
From S2P Require Import Tables Store Storage Uploads Receipts Completion Deletion Recovery Archive.
From S2P Require Import Invariants Assembly Publication Reclamation Visibility Catalogue Lifecycle Ledger.

(* ------------------------------------------------------------------ *)
(** ** What recovery leaves of the archive *)

(** What the invariants read of a row; sort keys and fingerprints are not in it. *)
Definition snapshot_key (q : Snapshot.row) : bool * PublishedHeader := (live q, header q).
Definition artifact_key (a : ArtifactRow.row) : string * PublishedArtifact :=
  (ArtifactRow.snapshot_id a, published_artifact a).

Record archive_kept (s0 s : Store) : Prop := {
  ak_blobs : stored_blobs (db s) = stored_blobs (db s0);
  ak_snapshots : snapshot_key <$> snapshots (db s) = snapshot_key <$> snapshots (db s0);
  ak_rows : forall a, a ∈ artifact_rows (db s) ->
            exists a0, a0 ∈ artifact_rows (db s0) /\ artifact_key a = artifact_key a0;
  ak_artifacts : forall q, q ∈ snapshots (db s0) -> live q = true ->
    published_artifact <$> artifacts_of (Snapshot.id q) (db s) = published_artifact <$> artifacts_of (Snapshot.id q) (db s0);
  ak_files : forall b, b ∈ stored_blobs (db s0) ->
             files s !! blob_path (sb_digest b) = files s0 !! blob_path (sb_digest b);
}.
#[export] Instance archive_kept_draw s0 : DrawStable (archive_kept s0).
Proof. by intros s [? ? ? ? ?]. Qed.

Lemma keys_known (l l' : list Snapshot.row) q : snapshot_key <$> l = snapshot_key <$> l' -> q ∈ l ->
  exists q', q' ∈ l' /\ snapshot_key q' = snapshot_key q.
Proof.
  intros E Hq. apply (list_elem_of_fmap_2 snapshot_key) in Hq. rewrite E in Hq.
  apply list_elem_of_fmap in Hq as (q' & Eq & Hq'). by exists q'.
Qed.
Lemma keys_ids (l l' : list Snapshot.row) : snapshot_key <$> l = snapshot_key <$> l' ->
  Snapshot.id <$> l = Snapshot.id <$> l'.
Proof.
  intros E. assert (Hid : forall k : list Snapshot.row, Snapshot.id <$> k = (fun x => ph_id x.2) <$> (snapshot_key <$> k)).
  { intros k. by rewrite <-list_fmap_compose. }
  by rewrite !Hid, E.
Qed.

Lemma archive_kept_refl s : archive_kept s s.
Proof. split; eauto. Qed.
Lemma archive_kept_trans s1 s2 s3 : archive_kept s1 s2 -> archive_kept s2 s3 -> archive_kept s1 s3.
Proof.
  intros [B1 S1 R1 C1 F1] [B2 S2 R2 C2 F2]. split; [congruence|congruence|..].
  - intros a Ha. destruct (R2 a Ha) as (b & Hb & ->). auto.
  - intros q Hq Hl. destruct (keys_known _ _ q (eq_sym S1) Hq) as (q' & Hq' & K). injection K as El Ei.
    rewrite <-C1 by done. rewrite <-Ei. apply C2; [done|congruence].
  - intros b Hb. rewrite F2 by by rewrite B1. by apply F1.
Qed.
Lemma same_archive_kept s s' : same_archive s s' -> archive_kept s s'.
Proof.
  intros [D F]. injection D as EB ES EA. split; [done|by rewrite ES|intros a; rewrite EA; eauto| |auto].
  intros q _ _. unfold artifacts_of. by rewrite EA.
Qed.

Section Kept.
Context `{EV : Env} `{UL : UuidLib} `{SL : ShaLib} `{ZL : ZstdLib} `{JL : JsonLib}.

Lemma archive_sound_kept owner s s' : archive_kept s s' -> archive_sound owner s -> archive_sound owner s'.
Proof.
  intros [B S R _ F] [O I G L T]. split; rewrite ?B; try done.
  - intros a Ha. destruct (R a Ha) as (a0 & Ha0 & Ek). injection Ek as Es _. rewrite Es.
    destruct (L a0 Ha0) as [q [Hq Hin]%select_one_Some]. apply andb_true_iff in Hq as [Hid%eqs_true Hl].
    destruct (keys_known _ _ q (eq_sym S) Hin) as (q' & Hq' & K). injection K as El Ei.
    destruct (live_snapshot_by_id (ArtifactRow.snapshot_id a0) (db s')) eqn:E; [done|]. exfalso.
    unfold live_snapshot_by_id in E. rewrite select_one_None in E. specialize (E q' Hq').
    rewrite Ei, El, Hid, eqs_refl, Hl in E. done.
  - intros a Ha. destruct (R a Ha) as (a0 & Ha0 & Ek). injection Ek as _ _ _ _ _ Ez Ed Eb _. destruct (T a0 Ha0) as (b & Hb & Hst).
    exists b. split; [done|]. destruct Hst as (Hid & (c & Hc & Hm) & Hv). unfold artifact_stored. rewrite Eb, Ez, Ed.
    split; [done|]. split; [|done]. exists c. by rewrite F.
Qed.
Lemma whole_kept s s' : archive_kept s s' -> snapshots_whole s -> snapshots_whole s'.
Proof.
  intros [B S R N F] [K C U]. split.
  - intros a Ha. destruct (R a Ha) as (a0 & Ha0 & Ek). injection Ek as Es _. destruct (K a0 Ha0) as (q & Hq & Eq).
    destruct (keys_known _ _ q (eq_sym S) Hq) as (q' & Hq' & Kq). injection Kq as _ Ei. exists q'. split; [done|]. congruence.
  - intros q Hq Hl. destruct (keys_known _ _ q S Hq) as (q' & Hq' & Kq). injection Kq as El Ei _ _ _ _ En _ _.
    assert (Hl' : live q' = true) by congruence.
    rewrite <-Ei, <-En, <-(C q') by done. f_equal. rewrite <-(length_fmap published_artifact), N by done. by rewrite length_fmap.
  - by rewrite (keys_ids _ _ S).
Qed.

Lemma keeps_kept_same s0 {E A} (m : M E A) : (forall s, keeps (same_archive s) m) -> keeps (archive_kept s0) m.
Proof.
  intros Hm s Hs. eapply wp_mono; [|apply (Hm s s), same_archive_refl]. intros r s' H.
  eapply archive_kept_trans; [exact Hs|]. by apply same_archive_kept.
Qed.
Lemma keeps_kept_execute s0 {E A} (err : SqlxError -> E) (f : Db -> option (Db * A)) :
  (forall s d a, archive_kept s0 s -> f (db s) = Some (d, a) -> archive_kept s (mkStore d (files s) (drawn s))) ->
  keeps (archive_kept s0) (execute err f).
Proof. intros Hf. apply keeps_execute. intros s d a Hs Ex. eapply archive_kept_trans; eauto. Qed.

(** Updates that the keys do not see. *)
Lemma kept_update_snapshots s p f : (forall q, snapshot_key (f q) = snapshot_key q) ->
  archive_kept s (mkStore (with_snapshots (update p f) (db s)) (files s) (drawn s)).
Proof.
  intros Hf. split; cbn [db files]; eauto. by apply fmap_update.
Qed.
Lemma kept_update_artifacts s p f : (forall a, artifact_key (f a) = artifact_key a) ->
  archive_kept s (mkStore (with_artifact_rows (update p f) (db s)) (files s) (drawn s)).
Proof.
  intros Hf. split; cbn [db files]; eauto.
  - intros a [(b & Hb & _ & ->)|[_ Ha]]%elem_of_update; eauto.
  - intros q _ _. unfold artifacts_of. simpl. rewrite select_update; [|intros a; by rewrite (f_equal fst (Hf a) : ArtifactRow.snapshot_id (f a) = _)].
    change (map ?g ?l) with (g <$> l). rewrite <-list_fmap_compose. apply list_fmap_ext. intros i a _. simpl.
    destruct (p a); [|done]. exact (f_equal snd (Hf a)).
Qed.
Lemma kept_delete_dead s : NoDup (Snapshot.id <$> snapshots (db s)) ->
  archive_kept s (mkStore (delete_dead_artifacts (db s)) (files s) (drawn s)).
Proof.
  intros Hn. split; cbn [db files]; eauto.
  - intros a [_ Ha]%elem_of_delete. eauto.
  - intros q Hq Hl. f_equal. unfold artifacts_of, select, delete_dead_artifacts. simpl. unfold delete_where.
    rewrite list_filter_filter. apply list_filter_iff. intros a. rewrite existsb_false. split; [tauto|].
    intros Ha. split; [done|]. intros q' Hq'. apply eqs_true in Ha.
    destruct (eqs (Snapshot.id q') (ArtifactRow.snapshot_id a)) eqn:E; [|done]. apply eqs_true in E. simpl.
    assert (q' = q) as -> by (apply (NoDup_key_inj Snapshot.id (snapshots (db s))); congruence). by rewrite Hl.
Qed.
End Kept.

(* ------------------------------------------------------------------ *)
(** ** What the sweeps of the disk touch *)

Section Sweeps.
Context `{EV : Env} `{UL : UuidLib}.
Context (P : path -> Prop) (s : Store).

Lemma below_refl p : below p p = true.
Proof. by apply bool_decide_eq_true. Qed.
Lemma touches_remove_recovery_entry q :
  (forall p, below q p = true -> P p) -> keeps (touches P s) (remove_recovery_entry q).
Proof.
  intros HP. unfold remove_recovery_entry. apply keeps_bind; [apply keeps_metadata_is_dir|]. intros [|].
  - by apply keeps_touches_remove_dir_all.
  - apply keeps_touches_remove_file. by apply HP, below_refl.
Qed.
Lemma touches_remove_unknown_upload_directories known :
  (forall name p, name ∉ known -> below (upload_dir name) p = true -> P p) ->
  keeps (touches P s) (remove_unknown_upload_directories known).
Proof.
  intros HP. apply keeps_for_entries. intros name. destruct (_ && _) eqn:E; [|apply keeps_ret].
  apply andb_true_iff in E as [_ E%negb_true_iff%bool_decide_eq_false]. apply keeps_touches_remove_dir_all. eauto.
Qed.
Lemma touches_remove_unknown_blobs known shard :
  (forall name p, name ∉ known -> below (sha256_root ++ [shard; name]) p = true -> P p) ->
  keeps (touches P s) (remove_unknown_blobs known shard).
Proof.
  intros HP. unfold remove_unknown_blobs. apply keeps_bind; [apply keeps_metadata_is_dir|]. intros b.
  destruct (negb b); [apply keeps_ret|]. apply keeps_for_entries. intros name. destruct (negb _) eqn:E; [|apply keeps_ret].
  apply negb_true_iff, bool_decide_eq_false in E. apply touches_remove_recovery_entry. eauto.
Qed.
End Sweeps.

Section ArchiveKept.
Context `{EV : Env} `{UL : UuidLib} `{TL : TimeLib} `{ML : MimeLib} `{SL : ShaLib} `{ZL : ZstdLib} `{JL : JsonLib}.
Context (st : AppState) (s0 : Store).
Hypothesis Hids : NoDup (Snapshot.id <$> snapshots (db s0)).

Lemma kept_transaction {E A} (b c : SqlxError -> E) (body : M E (TxEnd A)) :
  db_only body -> keeps (archive_kept s0) body -> keeps (archive_kept s0) (transaction b c body).
Proof. apply (keeps_transaction_body (archive_kept s0)). Qed.
Lemma kept_files {E A} (m : M E A) (P : path -> Prop) :
  (forall s, keeps (touches P s) m) -> (forall p, P p -> ~ is_blob p) -> keeps (archive_kept s0) m.
Proof. intros Hm HP. apply keeps_kept_same. intros s. by eapply keeps_same_touches. Qed.

Ltac kept_tac := repeat
  lazymatch goal with
  | |- keeps _ (execute _ _) => apply keeps_kept_same; do 1 intro; same_tables
  | |- keeps _ (transaction _ _ _) => apply kept_transaction
  | |- keeps _ (for_each _ _) => apply keeps_for_each; do 2 intro
  | |- keeps _ (op _) => unfold op
  | |- keeps _ (op_some _) => unfold op_some
  | |- keeps _ (remove_upload_dir _ _) => apply keeps_kept_same; do 1 intro; apply keeps_same_remove_upload_dir
  | _ => keeps_step
  end.
Ltac recovery_db_tac := repeat
  lazymatch goal with
  | |- db_only _ => do 2 intro
  | |- keeps _ (for_each _ _) => apply keeps_for_each; do 2 intro
  | |- keeps _ (op _) => unfold op
  | |- keeps _ (op_some _) => unfold op_some
  | _ => keeps_step
  end.

Lemma db_only_project_artifacts u single recorded l : forall i, db_only (project_artifacts u single recorded i l).
Proof.
  intros i f k. revert i. induction l as [|[a n] l IH]; intros i; simpl; [keeps_tac|].
  unfold insert_upload_artifact. recovery_db_tac; apply IH.
Qed.
Lemma kept_project_artifacts u single recorded l : forall i,
  keeps (archive_kept s0) (project_artifacts u single recorded i l).
Proof.
  induction l as [|[a n] l IH]; intros i; simpl; [keeps_tac|]. unfold insert_upload_artifact. kept_tac; apply IH.
Qed.
Lemma kept_upgrade_upload_artifact_rows : keeps (archive_kept s0) upgrade_upload_artifact_rows.
Proof.
  pose proof kept_project_artifacts. pose proof db_only_project_artifacts as Hd. unfold db_only in Hd.
  unfold upgrade_upload_artifact_rows, upgrade_upload_artifact_row. kept_tac. recovery_db_tac.
Qed.

(** *** Old uploads and snapshots *)

Lemma kept_migrate_legacy_file u a : keeps (archive_kept s0) (migrate_legacy_file u a (legacy_source u)).
Proof.
  assert (Hv : forall p n d, keeps (archive_kept s0) (verify_stored_file p n d)).
  { intros. apply keeps_kept_same. intros. apply same_verify_stored_file. }
  assert (Hl : forall src i j, keeps (archive_kept s0) (@hard_link _ MaintenanceError src (artifact_chunk_path u i j))).
  { intros. apply keeps_kept_same. intros. apply keeps_same_hard_link, chunk_not_blob. }
  unfold migrate_legacy_file, ensure_chunk_dir. kept_tac.
Qed.
Lemma kept_delete_dead_execute :
  keeps (archive_kept s0) (execute maint_err (fun d => Some (delete_dead_artifacts d, tt))).
Proof.
  apply keeps_kept_execute. intros s d a Hs [= <- _]. apply kept_delete_dead. by rewrite (keys_ids _ _ (ak_snapshots _ _ Hs)).
Qed.
Lemma legacy_not_blob u : ~ is_blob (legacy_source u).
Proof. by intros [d [=]]. Qed.
Lemma kept_upgrade_legacy_uploads : keeps (archive_kept s0) (upgrade_legacy_uploads st).
Proof.
  pose proof kept_migrate_legacy_file.
  assert (Hr : forall u, keeps (archive_kept s0) (remove_file Operation (legacy_source u))).
  { intros u. apply keeps_kept_same. intros. apply keeps_same_remove_file, legacy_not_blob. }
  unfold upgrade_legacy_uploads, upgrade_legacy_upload.
  repeat lazymatch goal with
  | |- keeps _ (execute _ (fun d => Some (delete_dead_artifacts d, tt))) => apply kept_delete_dead_execute
  | |- db_only _ => recovery_db_tac
  | _ => progress kept_tac
  end.
Qed.
Lemma kept_upgrade_snapshot_fingerprints : keeps (archive_kept s0) upgrade_snapshot_fingerprints.
Proof.
  unfold upgrade_snapshot_fingerprints. apply keeps_bind; [keeps_tac|]. intros rows. apply keeps_for_each. intros [id json] _.
  apply keeps_bind; [kept_tac|]. intros m. apply keeps_bind; [kept_tac|]. intros fp.
  apply keeps_kept_execute. intros s d a _ Ex. unfold update_fingerprint in Ex. case_bool_decide; [|done]. injection Ex as <- _.
  by apply kept_update_snapshots.
Qed.
Lemma kept_backfill_rows rows set_key :
  (forall id key s, archive_kept s (mkStore (set_key id key (db s)) (files s) (drawn s))) ->
  keeps (archive_kept s0) (backfill_rows rows set_key).
Proof.
  intros Hk. unfold backfill_rows. destruct (bool_decide _); [keeps_tac|]. apply kept_transaction; [recovery_db_tac|].
  apply keeps_bind; [|intros; keeps_tac]. apply keeps_for_each. intros [id t] _. apply keeps_bind; [kept_tac|]. intros key.
  apply keeps_kept_execute. intros s d a _ [= <- _]. apply Hk.
Qed.
Lemma kept_backfill_sort_keys : keeps (archive_kept s0) backfill_sort_keys.
Proof.
  unfold backfill_sort_keys.
  repeat lazymatch goal with
  | |- keeps _ (backfill_rows _ _) => apply kept_backfill_rows; intros id key s
  | _ => keeps_step
  end.
  - by apply kept_update_snapshots.
  - apply same_archive_kept. by split; [destruct (db s)|].
  - by apply kept_update_artifacts.
Qed.
Lemma kept_backfill_completed_capture_provenance : keeps (archive_kept s0) (backfill_completed_capture_provenance st).
Proof.
  pose proof (fun up m mid sid at_ => keeps_kept_same s0 _ (fun s => same_insert_capture_provenance st s up m mid sid at_)).
  pose proof (db_only_insert_capture_provenance st) as Hd. unfold db_only in Hd.
  unfold backfill_completed_capture_provenance, backfill_capture, get_active_upload, get_upload_manifest.
  kept_tac. recovery_db_tac.
Qed.
Lemma kept_rebuild_all_contexts : keeps (archive_kept s0) rebuild_all_contexts.
Proof. unfold rebuild_all_contexts. kept_tac. recovery_db_tac. Qed.

(** *** The disk *)

Lemma below_upload_not_blob u rest p : below (upload_dir u ++ rest) p = true -> ~ is_blob p.
Proof. intros [k ->]%bool_decide_eq_true [d [=]]. Qed.
Lemma kept_remove_unknown_upload_directories known :
  keeps (archive_kept s0) (remove_unknown_upload_directories known).
Proof.
  apply (kept_files _ (fun p => exists u, below (upload_dir u) p = true)).
  - intros s. apply touches_remove_unknown_upload_directories. eauto.
  - intros p [u Hp]. by eapply below_not_blob.
Qed.
Lemma kept_remove_upload_entry u rest : keeps (archive_kept s0) (remove_recovery_entry (upload_dir u ++ rest)).
Proof.
  apply (kept_files _ (fun p => below (upload_dir u ++ rest) p = true)).
  - intros s. by apply touches_remove_recovery_entry.
  - intros p. apply below_upload_not_blob.
Qed.
Lemma kept_recover_artifact_chunks u a : keeps (archive_kept s0) (recover_artifact_chunks u a).
Proof.
  assert (Hv : forall p n d, keeps (archive_kept s0) (verify_stored_file p n d)).
  { intros. apply keeps_kept_same. intros. apply same_verify_stored_file. }
  assert (Hr : forall i j, keeps (archive_kept s0) (remove_file tt (artifact_chunk_path u i j))).
  { intros i j. apply keeps_kept_same. intros. apply keeps_same_remove_file, chunk_not_blob. }
  unfold recover_artifact_chunks, recover_chunk.
  repeat lazymatch goal with
  | |- keeps _ (for_entries _ _ _) => apply keeps_for_entries; do 1 intro
  | |- keeps _ (remove_recovery_entry (artifact_chunk_dir ?v ?i ++ ?k)) =>
      unfold artifact_chunk_dir; rewrite <-app_assoc; apply kept_remove_upload_entry
  | _ => progress kept_tac
  end.
Qed.
Lemma kept_recover_upload row : keeps (archive_kept s0) (recover_upload row).
Proof.
  pose proof kept_recover_artifact_chunks.
  unfold recover_upload, recover_active_upload, get_upload_artifacts, upload_is_complete.
  repeat lazymatch goal with
  | |- keeps _ (for_entries _ _ _) => apply keeps_for_entries; do 1 intro
  | |- keeps _ (remove_recovery_entry (upload_dir _ ++ _)) => apply kept_remove_upload_entry
  | |- keeps _ (all_complete _ ?l) => induction l as [| x y IH]; simpl
  | _ => progress kept_tac
  end.
Qed.
Lemma kept_recover_unreferenced_blobs : keeps (archive_kept s0) (recover_unreferenced_blobs st).
Proof.
  unfold recover_unreferenced_blobs. do 3 (apply keeps_bind; [keeps_tac|intros ?]). apply keeps_bind.
  - apply kept_transaction; [recovery_db_tac|].
    repeat lazymatch goal with
    | |- keeps _ (execute _ _) => apply keeps_kept_execute; intros s d [] _ [= <-]; apply same_archive_kept;
        split; [|done]; unfold archive_tables, keep_referenced, schedule_unreferenced; cbn [db]; by rewrite stored_blobs_update
    | _ => keeps_step
    end.
  - intros _ s Hs. wp_step. wp_step; simpl; [done|].
    set (known := Blob.stored_sha256 <$> blobs (db s)).
    eapply wp_mono; [|eapply (keeps_for_entries (touches (fun p => exists shard name, name ∉ known
        /\ below (sha256_root ++ [shard; name]) p = true) s) Operation sha256_root); [|apply touches_refl]].
    + intros r s' [D F]. eapply archive_kept_trans; [exact Hs|]. split; rewrite ?D; eauto.
      intros b Hb. apply F. intros (shard & name & Hno & [rest E]%bool_decide_eq_true). simpl in E. injection E as _ <- _. apply Hno. apply list_elem_of_fmap in Hb as (x & -> & Hx).
      exact (list_elem_of_fmap_2 Blob.stored_sha256 _ _ Hx).
    + intros shard. apply touches_remove_unknown_blobs. eauto.
Qed.
Lemma kept_recover_uploads : keeps (archive_kept s0) (recover_uploads st).
Proof.
  pose proof kept_upgrade_upload_artifact_rows. pose proof kept_upgrade_legacy_uploads.
  pose proof kept_upgrade_snapshot_fingerprints. pose proof kept_backfill_sort_keys.
  pose proof kept_backfill_completed_capture_provenance. pose proof kept_rebuild_all_contexts.
  pose proof kept_remove_unknown_upload_directories. pose proof kept_recover_upload.
  pose proof kept_recover_unreferenced_blobs.
  unfold recover_uploads. kept_tac.
Qed.
Lemma kept_bootstrap_recovery : keeps (archive_kept s0) (bootstrap_recovery st).
Proof.
  pose proof kept_recover_uploads. unfold bootstrap_recovery.
  pose proof (fun t => keeps_kept_same s0 _ (fun s => same_expire_uploads_at s t)). kept_tac.
Qed.
End ArchiveKept.

(* ------------------------------------------------------------------ *)
(** ** What recovery never writes *)

(** Manifests, and the identifiers of uploads and audits. *)
Definition same_books (d d' : Db) : Prop := manifests d' = manifests d /\ same_ledger d d'.
Definition books_kept (s0 s : Store) : Prop := same_books (db s0) (db s) /\ (drawn s0 <= drawn s)%nat.
#[export] Instance books_kept_db s0 : DbInvariant (books_kept s0).
Proof. intros s s' E Hle [Hb Hd]. split; [by rewrite E|lia]. Qed.

Section Books.
Context `{EV : Env} `{UL : UuidLib} `{TL : TimeLib} `{ML : MimeLib} `{SL : ShaLib} `{ZL : ZstdLib} `{JL : JsonLib}.
Context (st : AppState) (s0 : Store).

Lemma keeps_books_execute {E A} (err : SqlxError -> E) (f : Db -> option (Db * A)) :
  (forall d d' a, f d = Some (d', a) -> same_books d d') -> keeps (books_kept s0) (execute err f).
Proof.
  intros Hf. apply keeps_execute. intros s d a [(E1 & E2 & E3) Hd] Ex. destruct (Hf _ _ _ Ex) as (F1 & F2 & F3).
  split; [|exact Hd]. split; [|split]; cbn [db]; [by rewrite F1|by rewrite F2|by rewrite F3].
Qed.

Ltac same_books_tac :=
  intros [= <- <-]; (split; [reflexivity|split; [unfold upload_ids; cbn -[update]; by rewrite ?fmap_update|reflexivity]]).
Ltac books_execute :=
  let d := fresh "d" in
  apply keeps_books_execute; intros d; do 2 intro; destruct d; simpl; first [same_books_tac|table_cases; same_books_tac].
Ltac books_tac := repeat
  lazymatch goal with
  | |- keeps _ (execute _ _) => first [books_execute|apply at_least_execute]
  | |- keeps _ (transaction _ _ _) => apply keeps_db_transaction; [apply _|intros k|]
  | |- keeps _ (for_each _ _) => apply keeps_for_each; do 2 intro
  | |- keeps _ (for_entries _ _ _) => apply keeps_for_entries; do 1 intro
  | |- keeps _ (op _) => unfold op
  | |- keeps _ (op_some _) => unfold op_some
  | |- keeps _ (remove_upload_dir _ _) => apply keeps_db_remove_dir_all; apply _
  | _ => keeps_step
  end.

Lemma books_insert_upload_artifact k u i a n :
  keeps (books_kept s0) (insert_upload_artifact u i a n) /\ keeps (at_least k) (insert_upload_artifact u i a n).
Proof. unfold insert_upload_artifact. split; books_tac. Qed.
Lemma books_project_artifacts u single recorded l : forall i k,
  keeps (books_kept s0) (project_artifacts u single recorded i l)
  /\ keeps (at_least k) (project_artifacts u single recorded i l).
Proof.
  induction l as [|[a n] l IH]; intros i k; simpl; [split; books_tac|].
  destruct (IH (i + 1) k). split; books_tac; apply (books_insert_upload_artifact k).
Qed.
Lemma books_insert_capture_provenance k up m mid sid at_ :
  keeps (books_kept s0) (insert_capture_provenance st up m mid sid at_)
  /\ keeps (at_least k) (insert_capture_provenance st up m mid sid at_).
Proof.
  unfold insert_capture_provenance, maintain_session_latest_context, upsert_session_latest_context. split; books_tac.
Qed.
Lemma books_backfill_rows rows set_key :
  (forall id key d, same_books d (set_key id key d)) -> keeps (books_kept s0) (backfill_rows rows set_key).
Proof.
  intros Hk. unfold backfill_rows. destruct (bool_decide _); [keeps_tac|].
  apply keeps_db_transaction; [apply _|intros k; apply keeps_bind; [|intros; keeps_tac]; apply keeps_for_each; intros [id t] _; books_tac|].
  apply keeps_bind; [|intros; keeps_tac]. apply keeps_for_each. intros [id t] _. apply keeps_bind; [books_tac|].
  intros key. apply keeps_books_execute. intros d d' a [= <- _]. apply Hk.
Qed.
Lemma books_verify_stored_file p n d : keeps (books_kept s0) (verify_stored_file p n d).
Proof. unfold verify_stored_file. books_tac. Qed.
Lemma books_all_complete u l : keeps (books_kept s0) (all_complete u l).
Proof. induction l as [|a l IH]; simpl; books_tac. Qed.
Lemma books_remove_recovery_entry p : keeps (books_kept s0) (remove_recovery_entry p).
Proof. unfold remove_recovery_entry. books_tac. Qed.
#[local] Hint Resolve books_verify_stored_file books_all_complete books_remove_recovery_entry : keeps.

Lemma books_upgrade_upload_artifact_rows : keeps (books_kept s0) upgrade_upload_artifact_rows.
Proof.
  unfold upgrade_upload_artifact_rows, upgrade_upload_artifact_row.
  books_tac; [apply books_project_artifacts|apply (books_project_artifacts _ _ _ _ _ 0)].
Qed.
Lemma books_upgrade_legacy_uploads : keeps (books_kept s0) (upgrade_legacy_uploads st).
Proof.
  unfold upgrade_legacy_uploads, upgrade_legacy_upload, migrate_legacy_file, ensure_chunk_dir, delete_dead_artifacts.
  books_tac.
Qed.
Lemma books_upgrade_snapshot_fingerprints : keeps (books_kept s0) upgrade_snapshot_fingerprints.
Proof.
  unfold upgrade_snapshot_fingerprints, update_fingerprint. apply keeps_bind; [keeps_tac|]. intros rows.
  apply keeps_for_each. intros [id json] _. books_tac.
Qed.
Lemma books_backfill_sort_keys : keeps (books_kept s0) backfill_sort_keys.
Proof.
  unfold backfill_sort_keys.
  repeat lazymatch goal with
  | |- keeps _ (backfill_rows _ _) => apply books_backfill_rows; intros id key d; by destruct d
  | _ => keeps_step
  end.
Qed.
Lemma books_backfill_completed_capture_provenance :
  keeps (books_kept s0) (backfill_completed_capture_provenance st).
Proof.
  unfold backfill_completed_capture_provenance, backfill_capture, get_active_upload, get_upload_manifest.
  books_tac; [apply books_insert_capture_provenance|apply (books_insert_capture_provenance 0)].
Qed.
Lemma books_rebuild_all_contexts : keeps (books_kept s0) rebuild_all_contexts.
Proof. unfold rebuild_all_contexts. books_tac. Qed.
Lemma books_remove_unknown_upload_directories known :
  keeps (books_kept s0) (remove_unknown_upload_directories known).
Proof. unfold remove_unknown_upload_directories. books_tac. Qed.
Lemma books_recover_upload row : keeps (books_kept s0) (recover_upload row).
Proof.
  unfold recover_upload, recover_active_upload, get_upload_artifacts, recover_artifact_chunks, recover_chunk,
    upload_is_complete, update_open_status. books_tac.
Qed.
Lemma books_recover_unreferenced_blobs : keeps (books_kept s0) (recover_unreferenced_blobs st).
Proof.
  unfold recover_unreferenced_blobs, keep_referenced, schedule_unreferenced, remove_unknown_blobs. books_tac.
Qed.
End Books.

(* ------------------------------------------------------------------ *)
(** ** The chunks of open uploads *)

(** Some row of upload [u] is open. *)
Definition is_open (u : string) (d : Db) : bool :=
  existsb (fun up => status_open (Upload.status up)) (uploads_of u d).
Definition row_path (r : Chunk.row) : path :=
  artifact_chunk_path (Chunk.upload_id r) (Chunk.artifact_index r) (Chunk.chunk_index r).

Lemma is_open_update u p f d :
  (forall up, Upload.id (f up) = Upload.id up) -> (forall up, status_open (Upload.status (f up)) = true) ->
  is_open u d = true -> is_open u (with_uploads (update p f) d) = true.
Proof.
  intros Hid Ho. unfold is_open, uploads_of. simpl. rewrite select_update by (intros; unfold of_upload; by rewrite Hid).
  rewrite !existsb_true. intros (up & Hup & Hs). exists (if p up then f up else up). split; [|by destruct (p up)].
  change (map ?g ?l) with (g <$> l). by apply (list_elem_of_fmap_2 (fun r => if p r then f r else r)).
Qed.
(** Reopening an upload that is open anyway opens nothing. *)
Lemma uploads_closing_reopen u f d :
  (forall up, Upload.id (f up) = Upload.id up) -> is_open u d = true ->
  uploads_closing d (with_uploads (update (of_upload u) f) d).
Proof.
  intros Hid Hu v. unfold uploads_of. simpl. rewrite select_update by (intros; unfold of_upload; by rewrite Hid).
  split; [by destruct (select _ _)|]. intros Hv. destruct (decide (v = u)) as [->|Hne]; [exact Hu|].
  erewrite map_ext_in, map_id in Hv; [exact Hv|]. intros r Hr%list_elem_of_In. simpl.
  apply elem_of_select in Hr as [Er%eqs_true _]. destruct (of_upload u r) eqn:E; [|done]. apply eqs_true in E. congruence.
Qed.

Section ChunksKept.
Context `{EV : Env} `{UL : UuidLib} `{TL : TimeLib} `{ML : MimeLib} `{SL : ShaLib} `{ZL : ZstdLib} `{JL : JsonLib}.
Context (st : AppState).

Lemma chunks_backed_touches s s' (P : path -> Prop) : touches P s s' ->
  (forall r, r ∈ upload_chunks (db s) -> is_open (Chunk.upload_id r) (db s) = true ->
     is_u64 (Chunk.artifact_index r) -> is_u64 (Chunk.chunk_index r) -> ~ P (row_path r)) ->
  chunks_backed s -> chunks_backed s'.
Proof.
  intros [D F] HP Hs r. rewrite D. intros Hr. destruct (Hs r Hr) as [Hu Hb]. split; [done|].
  intros Ho. specialize (Hb Ho). eapply backed_elsewhere; [|exact Hb]. destruct Hb as (Ha & Hi & _).
  intros p -> x. rewrite F; [done|]. by apply (HP r).
Qed.
Lemma keeps_chunks_touches {E A} (m : M E A) (P : path -> Prop) :
  (forall s, keeps (touches P s) m) -> (forall u a i, ~ P (artifact_chunk_path u a i)) -> keeps chunks_backed m.
Proof.
  intros Hm HP s Hs. eapply wp_mono; [|apply (Hm s s), touches_refl]. intros r s' Ht.
  eapply chunks_backed_touches; [exact Ht| |exact Hs]. intros. apply HP.
Qed.

(** *** Projections *)

Lemma chunks_project_artifacts u single recorded l : forall i,
  keeps chunks_backed (project_artifacts u single recorded i l).
Proof.
  induction l as [|[a n] l IH]; intros i; simpl; [keeps_tac|]. unfold insert_upload_artifact, op, op_some.
  keeps_chunks_tac; apply IH.
Qed.
Lemma chunks_upgrade_upload_artifact_rows : keeps chunks_backed upgrade_upload_artifact_rows.
Proof.
  unfold upgrade_upload_artifact_rows. apply keeps_bind; [keeps_tac|]. intros rows. apply keeps_for_each. intros row _.
  unfold upgrade_upload_artifact_row, op, op_some.
  repeat lazymatch goal with
  | |- keeps _ (transaction _ _ _) => apply (keeps_transaction_body chunks_backed)
  | |- db_only _ => do 2 intro
  | |- keeps _ (project_artifacts _ _ _ _ _) => first [apply chunks_project_artifacts|apply db_only_project_artifacts]
  | |- keeps chunks_backed (execute _ _) =>
      apply keeps_chunks_execute; intros d d' x [= <- _]; split; [done|]; apply uploads_closing_update; [done|by intros up _]
  | _ => keeps_step
  end.
Qed.

(** *** Uploads of the single-artifact schema *)

Lemma migrate_legacy_file_spec u a s : 0 <= stored_size_bytes a ->
  wp (migrate_legacy_file u a (legacy_source u)) (fun r s' =>
    db s' = db s /\ (forall q x, files s !! q = Some x -> files s' !! q = Some x)
    /\ (r = Ok true -> holds_content (files s') (artifact_chunk_path u 0 0) (stored_size_bytes a)
                        (digest_storage_value (stored_sha256 a)))) s.
Proof.
  intros Hsz. unfold migrate_legacy_file, ensure_chunk_dir. destruct (_ =? 0); [by wp_step|].
  wp_step. wp_step; simpl; [done|]. destruct (negb _); [by wp_step|].
  wp_step. wp_step. eapply wp_mono; [|by apply verify_stored_file_spec]. intros r s1 [-> Hsrc]. simpl.
  destruct r as [[]|e]; simpl; [|by wp_step]. specialize (Hsrc eq_refl).
  wp_step. wp_step; simpl; [done|]. wp_step. wp_step; simpl; [by wp_step| |].
  - intros x y _ _. wp_step. wp_step. eapply wp_mono; [|by apply verify_stored_file_spec]. intros r s1 [-> Hdst]. simpl.
    wp_step. split_and!; [done..|]. intros [= E]. apply Hdst. by destruct r as [[]|].
  - intros x Hx Hno. set (s1 := mkStore _ _ _).
    assert (Hgrow : forall q y, files s !! q = Some y -> files s1 !! q = Some y).
    { intros q y Hq. unfold s1. cbn [files]. rewrite lookup_insert_ne; [done|]. intros <-. congruence. }
    simpl. wp_step. wp_step; simpl; [done|]. wp_step. split_and!; [done..|]. 
    intros _. unfold s1. cbn [files]. destruct Hsrc as (c & Hc & ?). exists c. rewrite Hx in Hc. by rewrite lookup_insert_eq, Hc.
Qed.

Section Legacy.
Context (us : list string).
(** While the legacy uploads [us] are brought up to date. *)
Definition reopening (s : Store) : Prop := chunks_backed s /\ forall u, u ∈ us -> is_open u (db s) = true.
#[export] Instance reopening_draw : DrawStable reopening.
Proof. intros s Hs. exact Hs. Qed.

Definition migrated (accepted : bool) (u : string) (a : Artifact) (s : Store) : Prop :=
  reopening s /\ (accepted = true -> holds_content (files s) (artifact_chunk_path u 0 0) (stored_size_bytes a)
                                       (digest_storage_value (stored_sha256 a))).
#[export] Instance migrated_draw accepted u a : DrawStable (migrated accepted u a).
Proof. intros s Hs. exact Hs. Qed.
Lemma migrated_db accepted u a s d : migrated accepted u a s ->
  upload_chunks d = upload_chunks (db s) -> uploads_closing (db s) d ->
  (forall v, is_open v (db s) = true -> is_open v d = true) ->
  migrated accepted u a (mkStore d (files s) (drawn s)).
Proof.
  intros [[Hc Ho] Hm] E1 E2 E3. split; [|exact Hm]. split; [by apply (chunks_backed_same s)|]. intros v Hv. by apply E3, Ho.
Qed.

Lemma migrated_idle accepted u a {A} (f : Db -> option (Db * A)) :
  (forall d d' x, f d = Some (d', x) -> upload_chunks d' = upload_chunks d /\ uploads d' = uploads d) ->
  keeps (migrated accepted u a) (execute maint_err f).
Proof.
  intros Hf. apply keeps_execute. intros s d x Hs Ex. destruct (Hf _ _ _ Ex) as [E1 E2].
  apply migrated_db; [done|done|by apply uploads_closing_eq|]. intros v. unfold is_open, uploads_of. by rewrite E2.
Qed.
Lemma migrated_reopen accepted u a f : u ∈ us ->
  (forall up, Upload.id (f up) = Upload.id up) -> (forall up, status_open (Upload.status (f up)) = true) ->
  keeps (migrated accepted u a)
    (execute maint_err (fun d => Some (with_uploads (update (of_upload u) f) d, tt))).
Proof.
  intros Hu Hid Ho. apply keeps_execute. intros s d x Hs [= <- _]. pose proof Hs as [[_ Hopen] _].
  apply migrated_db; [done|done|apply uploads_closing_reopen; auto|]. intros v. by apply is_open_update.
Qed.
Lemma migrated_record u a now : u ∈ us ->
  keeps (migrated true u a) (execute maint_err (fun d =>
    ra ← insert_or_ignore (chunk_at u 0 0) (fun _ => false)
           (Chunk.mk u 0 0 (stored_size_bytes a) (digest_storage_value (stored_sha256 a)) now) (upload_chunks d);
    Some (with_upload_chunks (fun _ => ra.1) d, ra.2))).
Proof.
  intros Hu. apply keeps_execute. intros s d n Hs Ex. pose proof Hs as [[Hc Ho] Hm].
  destruct (insert_or_ignore _ _ _ _) as [[t k]|] eqn:Ei; [|done]. injection Ex as <- <-.
  apply insert_or_ignore_Some in Ei as [(_ & -> & _)|(_ & -> & _)].
  - apply migrated_db; [done|done|by apply uploads_closing_eq|done].
  - split; [|exact Hm]. split; [|exact Ho]. eapply (chunks_backed_record u 0 0 _ _ now s); [done|done|by apply Hm|done| |exact Hc].
    right. split; [|done]. intros E. specialize (Ho u Hu). unfold is_open in Ho. by rewrite E in Ho.
Qed.
Lemma yields_op_some {A} (o : option A) : yields (fun a => o = Some a) (op_some o).
Proof. intros s. unfold op_some. wp_step. by destruct o. Qed.

Lemma legacy_source_removed accepted u a :
  keeps (migrated accepted u a) (remove_file Operation (legacy_source u)).
Proof.
  intros s Hs. apply wp_remove_file; [exact Hs|]. destruct Hs as [[Hc Ho] Hm].
  assert (Hne : forall v i j, legacy_source u <> artifact_chunk_path v i j) by (by intros v i j [=]).
  split; [split; [|exact Ho]|].
  - eapply (chunks_backed_touches s _ (fun p => p = legacy_source u)); [split; [done|]| |exact Hc].
    + intros q Hq. cbn [files]. rewrite lookup_delete_ne; [done|congruence].
    + intros r _ _ _ _ E. by apply (Hne _ _ _ (eq_sym E)).
  - intros Ha. eapply holds_content_preserved; [|by apply Hm]. intros x Hx. cbn [files]. by rewrite lookup_delete_ne.
Qed.

Lemma upgrade_legacy_upload_reopens now expires_at row :
  Upload.id row.1 ∈ us ->
  (forall m, manifest_of_json (ManifestRow.canonical_json row.2) = Some m -> Forall artifact_typed (artifacts m)) ->
  keeps reopening (upgrade_legacy_upload st now expires_at row).
Proof.
  intros Hu Hty. unfold upgrade_legacy_upload. eapply keeps_bind_yields; [unfold op_some; keeps_tac|apply yields_op_some|].
  intros m Em. specialize (Hty m Em). destruct (artifacts m) as [|a [|b l]]; [keeps_tac| |keeps_tac].
  apply Forall_inv in Hty. destruct Hty as [_ Hsz].
  intros s Hs. wp_step. eapply wp_mono; [|apply migrate_legacy_file_spec; apply Hsz].
  intros r s1 (D & F & Hdst).
  assert (Hs1 : reopening s1).
  { destruct Hs as [Hc Ho]. split; [|by rewrite D]. intros x. rewrite D. intros Hx. destruct (Hc x Hx) as [? Hb].
    split; [done|]. intros Hop. eapply backed_elsewhere; [|by apply Hb]. intros p _ y. apply F. }
  destruct r as [accepted|e]; simpl; [|exact Hs1].
  assert (Hm : migrated accepted (Upload.id row.1) a s1) by (split; [done|intros ->; by apply Hdst]).
  clear Hs1 Hdst F D Hs s. revert s1 Hm.
  match goal with |- forall s, _ -> wp ?p _ s => assert (Hk : keeps (migrated accepted (Upload.id row.1) a) p) end.
  2: { intros s1 Hm. eapply wp_mono; [|by apply Hk]. by intros r s2 [? _]. }
  apply keeps_bind.
  - apply (keeps_transaction_body (migrated accepted (Upload.id row.1) a)); [destruct accepted; unfold op_some; db_only_tac|].
    apply keeps_bind; [apply migrated_idle; by intros d d' x [= <- _]|intros _].
    apply keeps_bind; [unfold op_some; keeps_tac|intros chunk_size].
    eapply keeps_bind_yields; [unfold op_some; keeps_tac|apply yields_op_some|intros stored Est].
    apply u64_to_i64_Some in Est as [-> _].
    apply keeps_bind; [unfold op_some; keeps_tac|intros original].
    apply keeps_bind; [apply migrated_reopen; [done|done|]|intros _].
    { intros up. simpl. by destruct (_ || _). }
    apply keeps_bind; [apply migrated_idle; by intros d d' x [= <- _]|intros _].
    apply keeps_bind; [|intros; keeps_tac]. destruct accepted; [|keeps_tac].
    apply keeps_bind; [by apply migrated_record|intros; keeps_tac].
  - intros _. destruct accepted; [|keeps_tac].
    apply legacy_source_removed.
Qed.
End Legacy.

Lemma elem_of_legacy_uploads row d : row ∈ legacy_uploads d ->
  is_open (Upload.id row.1) d = true /\ row.2 ∈ manifests d.
Proof.
  unfold legacy_uploads, uploads_with_manifests. intros (u & Hin & Hu)%list_elem_of_bind.
  apply list_elem_of_bind in Hin as (m & ->%list_elem_of_singleton & Hm). simpl.
  apply elem_of_select in Hu as [[Ho _]%andb_true_iff Hu]. apply elem_of_select in Hm as [_ Hm]. split; [|done].
  apply existsb_true. exists u. split; [|done]. apply elem_of_select. split; [by apply eqs_true|done].
Qed.
Lemma chunks_upgrade_legacy_uploads s : chunks_backed s -> manifests_sound s ->
  wp (upgrade_legacy_uploads st) (fun _ => chunks_backed) s.
Proof.
  intros Hc Hm. unfold upgrade_legacy_uploads. wp_step. wp_step; simpl; [done|].
  destruct (bool_decide _); [by wp_step|].
  wp_step. wp_step. intros t. simpl. do 2 (wp_step; wp_step; match goal with |- context [then_wp _ _ ?c] => destruct c end; simpl; [|done]).
  set (us := (fun row => Upload.id row.1) <$> legacy_uploads (db s)).
  assert (Hs : reopening us s).
  { split; [done|]. intros u (row & -> & Hrow)%list_elem_of_fmap. by apply elem_of_legacy_uploads. }
  eapply wp_mono; [|eapply (wp_for_each (reopening us)); [|exact Hs]]; [by intros r s' [? _]|].
  intros row s' Hrow Hs'. apply upgrade_legacy_upload_reopens; [by apply (list_elem_of_fmap_2 (fun row => Upload.id row.1))| |exact Hs'].
  intros m Em. apply elem_of_legacy_uploads in Hrow as [_ Hrow]. by eapply (ms_filed _ Hm).
Qed.

(** *** The statements between *)

Lemma chunks_backfills : keeps chunks_backed upgrade_snapshot_fingerprints /\ keeps chunks_backed backfill_sort_keys
  /\ keeps chunks_backed (backfill_completed_capture_provenance st) /\ keeps chunks_backed rebuild_all_contexts.
Proof.
  pose proof (db_only_insert_capture_provenance st) as Hd. unfold db_only in Hd.
  assert (Hb : forall rows set_key, (forall id key d, upload_chunks (set_key id key d) = upload_chunks d /\ uploads (set_key id key d) = uploads d) ->
    keeps chunks_backed (backfill_rows rows set_key)).
  { intros rows set_key Hk. unfold backfill_rows, op_some. destruct (bool_decide _); [keeps_tac|].
    apply (keeps_transaction_body chunks_backed).
    - do 2 intro. apply keeps_bind; [|intros; keeps_tac]. apply keeps_for_each. intros [id t] _. keeps_tac.
    - apply keeps_bind; [|intros; keeps_tac]. apply keeps_for_each. intros [id t] _. apply keeps_bind; [keeps_tac|].
      intros key. apply keeps_chunks_execute. intros d d' a [= <- _]. destruct (Hk id key d). split; [done|by apply uploads_closing_eq]. }
  unfold upgrade_snapshot_fingerprints, update_fingerprint, backfill_sort_keys, backfill_completed_capture_provenance,
    backfill_capture, rebuild_all_contexts, get_active_upload, get_upload_manifest, op, op_some.
  split_and!; repeat lazymatch goal with
  | |- keeps _ (backfill_rows _ _) => apply Hb; intros id key d; by destruct d
  | |- keeps _ (for_each _ (fun '(_, _) => _)) => apply keeps_for_each; intros [x y] _
  | |- keeps _ (for_each _ _) => apply keeps_for_each; do 2 intro
  | |- keeps chunks_backed (insert_capture_provenance _ _ _ _ _ _) =>
      unfold insert_capture_provenance, maintain_session_latest_context, upsert_session_latest_context
  | _ => progress keeps_chunks_tac
  end.
Qed.

(** *** Sweeping the directories of uploads *)

Lemma parse_to_decimal n : is_u64 n -> parse_uint u64_max (to_decimal n) = Some n.
Proof.
    intros Hn. destruct (to_decimal_spec n Hn) as (Hne & HF & Hv). unfold parse_uint.
  assert (E : match chars (to_decimal n) with "+"%char :: l => l | l => l end = chars (to_decimal n)).
  { destruct (chars (to_decimal n)) as [|c l]; [done|]. apply Forall_inv in HF. by destruct c as [[] [] [] [] [] [] [] []]. }
  rewrite E, bool_decide_false by done. rewrite Forall_forall in HF.
  rewrite (proj2 (forallb_true _ _)) by done. simpl. rewrite Hv. unfold is_u64 in Hn. rewrite (proj2 (Z.leb_le _ _)); [done|lia].
Qed.

Section Sweep.
Context (d0 : Db).
(** Since [d0], where the sweep began: chunks are backed, no upload opened. *)
Definition sweeping (s : Store) : Prop := chunks_backed s /\ uploads_closing d0 (db s).
#[export] Instance sweeping_draw : DrawStable sweeping.
Proof. intros s Hs. exact Hs. Qed.

Lemma sweeping_touches s s' (P : path -> Prop) : touches P s s' ->
  (forall r, r ∈ upload_chunks (db s) -> is_open (Chunk.upload_id r) d0 = true ->
     is_u64 (Chunk.artifact_index r) -> is_u64 (Chunk.chunk_index r) -> ~ P (row_path r)) ->
  sweeping s -> sweeping s'.
Proof.
  intros Ht HP [Hc Hcl]. split; [|by destruct Ht as [-> _]].
  eapply chunks_backed_touches; [exact Ht| |exact Hc]. intros r Hr Ho. apply HP; [done|]. by apply (Hcl (Chunk.upload_id r)).
Qed.
Lemma keeps_sweeping {E A} (m : M E A) (P : path -> Prop) : (forall s, keeps (touches P s) m) ->
  (forall r, is_open (Chunk.upload_id r) d0 = true ->
     is_u64 (Chunk.artifact_index r) -> is_u64 (Chunk.chunk_index r) -> ~ P (row_path r)) -> keeps sweeping m.
Proof.
  intros Hm HP s Hs. eapply wp_mono; [|apply (Hm s s), touches_refl]. intros r s' Ht.
  eapply sweeping_touches; [exact Ht| |exact Hs]. intros. by apply HP.
Qed.
Lemma sweeping_db s d : uploads_closing (db s) d -> (forall r, r ∈ upload_chunks d -> r ∈ upload_chunks (db s)) ->
  sweeping s -> sweeping (mkStore d (files s) (drawn s)).
Proof.
  intros Hcl Hr [Hc H0]. split; [|by eapply uploads_closing_trans].
  intros r Hin. destruct (Hc r (Hr r Hin)) as [Hu Hb]. destruct (Hcl (Chunk.upload_id r)). split; auto.
Qed.

(** The directory of an upload that is not open. *)
Lemma sweeping_remove_upload_dir u : is_open u d0 = false -> keeps sweeping (remove_upload_dir Operation u).
Proof.
  intros Hno. apply (keeps_sweeping _ (fun p => below (upload_dir u) p = true)).
  - intros s. by apply keeps_touches_remove_dir_all.
  - intros r Ho _ _. unfold row_path. rewrite chunk_not_below; [done|]. congruence.
Qed.
Lemma sweeping_remove_unknown known : (forall u, is_open u d0 = true -> u ∈ known) ->
  keeps sweeping (remove_unknown_upload_directories known).
Proof.
  intros Hk. apply (keeps_sweeping _ (fun p => exists name, name ∉ known /\ below (upload_dir name) p = true)).
  - intros s. apply touches_remove_unknown_upload_directories. eauto.
  - intros r Ho _ _ (name & Hno & Hb). apply Hno. replace name with (Chunk.upload_id r); [by apply Hk|].
    destruct (decide (name = Chunk.upload_id r)) as [|Hne]; [done|]. unfold row_path in Hb. by rewrite chunk_not_below in Hb.
Qed.

Lemma to_u32_u64 n m : to_u32 n = Some m -> m = n /\ is_u64 n.
Proof. unfold to_u32, is_u64. destruct (_ && _) eqn:E; [|done]. intros [= <-]. apply andb_true_iff in E as [? ?]. split; [done|]. unfold u32_max, u64_max in *. lia. Qed.

(** A chunk whose file does not verify loses its row before its file. *)
Lemma sweeping_recover_chunk u a row : is_u64 a -> (is_open u d0 = true -> is_u64 (Chunk.chunk_index row)) ->
  keeps sweeping (recover_chunk u a row).
Proof.
  intros Ha Hrow s Hs. unfold recover_chunk. wp_step. unfold op_some at 1. wp_step.
  destruct (i64_to_u64 (Chunk.chunk_index row)) as [i|] eqn:Ei; simpl; [|done].
  wp_step. unfold op_some at 1. wp_step. destruct (i64_to_u64 (Chunk.byte_length row)) as [n|] eqn:En; simpl; [|done].
  apply i64_to_u64_Some in Ei as [-> Hi]. apply i64_to_u64_Some in En as [-> Hn].
  wp_step. wp_step. eapply wp_mono; [|by apply verify_stored_file_spec]. intros r s' [-> _]. simpl.
  destruct (is_ok r); [by wp_step|].
  wp_step. wp_step; simpl; [done|]. intros d [] [= <-].
  set (s1 := mkStore _ _ _). assert (Hs1 : sweeping s1).
  { apply sweeping_db; [by apply uploads_closing_eq|by intros x [_ ?]%elem_of_delete|done]. }
  wp_step. wp_step. apply wp_remove_file; simpl; [by wp_step|]. wp_step.
  eapply (sweeping_touches s1 _ (fun p => p = artifact_chunk_path u a (Chunk.chunk_index row))); [split; [done|]| |exact Hs1].
  - intros q Hq. cbn [files]. by rewrite lookup_delete_ne.
  - intros x Hx Ho Hxa Hxi E. apply elem_of_delete in Hx as [Hx _].
    assert (Eu : Chunk.upload_id x = u) by (unfold row_path in E; by injection E).
    apply chunk_path_inj in E as (_ & E2 & E3); [|done..|apply Hrow; congruence].
    by rewrite (proj2 (chunk_at_true _ _ _ _)) in Hx.
Qed.
End Sweep.

Lemma sweeping_refl s : chunks_backed s -> sweeping (db s) s.
Proof. intros Hc. split; [done|apply uploads_closing_refl]. Qed.
(** A sweep may start from where it stands. *)
Lemma keeps_sweeping_from d0 {E A} (m : M E A) :
  (forall s, chunks_backed s -> wp m (fun _ => sweeping (db s)) s) -> keeps (sweeping d0) m.
Proof.
  intros Hm s [Hc Hcl]. eapply wp_mono; [|by apply Hm]. intros r s' [Hc' Hcl']. split; [done|].
  by eapply uploads_closing_trans.
Qed.

Lemma chunk_indexes_Some rows l : chunk_indexes rows = Some l -> forall r, r ∈ rows -> Chunk.chunk_index r ∈ l.
Proof.
  revert l. induction rows as [|r rows IH]; intros l; simpl; [by intros _ r ?%elem_of_nil|].
  intros (i & Hi%i64_to_u64_Some & (k & Hk & [= <-])%bind_Some)%bind_Some. destruct Hi as [-> _].
  intros x [->|Hx]%elem_of_cons; [by left|right; by apply (IH k)].
Qed.
Lemma chunk_dir_entry u a v b i name : is_u64 a -> is_u64 b ->
  below (artifact_chunk_dir u a ++ [name]) (artifact_chunk_path v b i) = true -> v = u /\ b = a /\ name = to_decimal i.
Proof.
  intros Ha Hb [rest E]%bool_decide_eq_true. unfold artifact_chunk_path, artifact_chunk_dir, upload_dir in E. simpl in E.
  injection E as -> Ei En _. split_and!; [done|by apply to_decimal_inj|done].
Qed.

Lemma sweeping_recover_artifact_chunks d0 u a : keeps (sweeping d0) (recover_artifact_chunks u a).
Proof.
  apply keeps_sweeping_from. intros s Hc. unfold recover_artifact_chunks.
  wp_step. unfold op_some at 1. wp_step. destruct (to_u32 _) as [n|] eqn:En; simpl; [|by apply sweeping_refl].
  apply to_u32_u64 in En as [-> Ha]. wp_step. wp_step; simpl; [by intros; apply sweeping_refl|]. wp_step.
  eapply wp_mono; [|apply wp_for_each; [|by apply sweeping_refl]].
  2: { intros row s' Hrow. apply sweeping_recover_chunk; [done|]. intros Ho. apply elem_of_select in Hrow as [Hof Hrow].
       apply andb_true_iff in Hof as [Eu%eqs_true _]. destruct (Hc row Hrow) as [_ Hb]. rewrite Eu in Hb. by apply Hb. }
  intros [[]|e] s1 Hs1; simpl; [|done]. wp_step. wp_step; simpl; [done|].
  wp_step. unfold op_some at 1. wp_step. destruct (chunk_indexes _) as [accepted|] eqn:Eacc; simpl; [|done].
  set (P := fun p => exists name, names_accepted accepted name = false
              /\ below (artifact_chunk_dir u (UploadArtifact.artifact_index a) ++ [name]) p = true).
  eapply wp_mono; [|eapply (keeps_for_entries (touches P s1)); [|apply touches_refl]].
  - intros r s2 Ht. eapply sweeping_touches; [exact Ht| |exact Hs1].
    intros x Hx _ Hxa Hxi (name & Hno & Hb). apply chunk_dir_entry in Hb as (Eu & Ea & ->); [|done..].
    unfold names_accepted in Hno. rewrite parse_to_decimal in Hno by done.
    rewrite bool_decide_true in Hno; [done|]. apply (chunk_indexes_Some _ _ Eacc). apply elem_of_select. split; [|done].
    unfold chunk_of. by rewrite Eu, Ea, eqs_refl, Z.eqb_refl.
  - intros name. destruct (negb _) eqn:E; [|apply keeps_ret]. apply negb_true_iff in E.
    apply touches_remove_recovery_entry. intros p Hp. by exists name.
Qed.

Lemma leftover_not_chunk u name v a i : leftover_name name = true ->
  below (upload_dir u ++ [name]) (artifact_chunk_path v a i) = false.
Proof.
  intros Hl. apply not_true_iff_false. intros [rest E]%bool_decide_eq_true.
  unfold artifact_chunk_path, artifact_chunk_dir, upload_dir in E. simpl in E. injection E as _ <- _. by vm_compute in Hl.
Qed.
Lemma sweeping_recover_upload d0 row : (row.2 = STATUS_COMPLETED -> is_open row.1 d0 = false) ->
  keeps (sweeping d0) (recover_upload row).
Proof.
  intros Hrow. unfold recover_upload. destruct (eqs row.2 STATUS_COMPLETED) eqn:Est.
  { apply sweeping_remove_upload_dir, Hrow. by apply eqs_true. }
  unfold recover_active_upload, get_upload_artifacts, upload_is_complete, op.
  assert (Hall : forall l, keeps (sweeping d0) (all_complete row.1 l)).
  { induction l as [|x l IH]; simpl; keeps_tac. }
  repeat lazymatch goal with
  | |- keeps _ (for_each _ _) => apply keeps_for_each; do 2 intro; apply sweeping_recover_artifact_chunks
  | |- keeps _ (execute _ _) => apply keeps_execute; intros s d x Hs [= <- _]; apply sweeping_db; [|done|exact Hs];
      apply uploads_closing_update; [done|]; by intros up [_ Ho]%andb_true_iff _
  | |- keeps _ (for_entries _ _ _) => apply keeps_for_entries; intros name
  | |- keeps _ (if leftover_name ?n then _ else _) => destruct (leftover_name n) eqn:El
  | |- keeps _ (remove_recovery_entry _) =>
      apply (keeps_sweeping _ _ (fun p => below (upload_dir row.1 ++ [name]) p = true));
      [intros s; by apply touches_remove_recovery_entry|];
      intros r _ _ _; unfold row_path; by rewrite leftover_not_chunk
  | _ => keeps_step
  end.
Qed.
End ChunksKept.

(* ------------------------------------------------------------------ *)
(** ** Recovery keeps the invariants *)

Section Recovering.
Context `{EV : Env} `{UL : UuidLib} {ULaws : UuidLaws UL} `{TL : TimeLib} `{ML : MimeLib} `{SL : ShaLib} `{ZL : ZstdLib} `{JL : JsonLib}.
Context (st : AppState).
Abbreviation owner := (Storage.owner_namespace st).

(** Everything a server that restarts relies on. *)
Definition restartable (s : Store) : Prop := store_sound owner s /\ snapshots_whole s /\ ledger s.

Lemma restartable_wp {E A} (m : M E A) s : restartable s ->
  wp m (fun _ => chunks_backed) s -> keeps (archive_kept s) m -> keeps (books_kept s) m -> wp m (fun _ => restartable) s.
Proof.
  intros ((Hc & Ha & Hm) & Hw & Hl) H1 H2 H3.
  eapply wp_mono; [|apply wp_and; [exact H1|apply wp_and; [apply H2, archive_kept_refl|by apply H3]]].
  intros r s' (Hc' & Hk & (Em & El) & Hd). split; [split; [exact Hc'|split]|split].
  - by eapply archive_sound_kept.
  - by apply (manifests_sound_eq s).
  - by eapply whole_kept.
  - destruct s' as [d f n]. apply (ledger_same d s); [exact El|done|exact Hd].
Qed.
Lemma keeps_restartable {E A} (m : M E A) :
  (forall s, restartable s -> wp m (fun _ => chunks_backed) s) ->
  (forall s0, NoDup (Snapshot.id <$> snapshots (db s0)) -> keeps (archive_kept s0) m) ->
  (forall s0, keeps (books_kept s0) m) -> keeps restartable m.
Proof. intros H1 H2 H3 s Hs. apply restartable_wp; [done|by apply H1|apply H2, Hs|apply H3]. Qed.

Lemma open_not_ended s id : ledger s -> id ∈ audit_ids (db s) -> is_open id (db s) = false.
Proof.
  intros Hl Ha. apply not_true_iff_false. intros (up & [Hid%eqs_true Hup]%elem_of_select & _)%existsb_true.
  apply (lg_ended _ Hl id); [|done]. rewrite <-Hid. by apply list_elem_of_fmap_2.
Qed.
Lemma completed_not_open s up : ledger s -> up ∈ uploads (db s) -> Upload.status up = STATUS_COMPLETED ->
  is_open (Upload.id up) (db s) = false.
Proof.
  intros Hl Hup Est. apply not_true_iff_false. intros (q & [Hid%eqs_true Hq]%elem_of_select & Ho)%existsb_true.
  assert (q = up) as -> by (by apply (NoDup_key_inj Upload.id (uploads (db s))); [apply Hl| | |]).
  by rewrite Est in Ho.
Qed.

Lemma restartable_upgrades : keeps restartable upgrade_upload_artifact_rows /\ keeps restartable (upgrade_legacy_uploads st)
  /\ keeps restartable upgrade_snapshot_fingerprints /\ keeps restartable backfill_sort_keys
  /\ keeps restartable (backfill_completed_capture_provenance st) /\ keeps restartable rebuild_all_contexts.
Proof.
  destruct (chunks_backfills st) as (C1 & C2 & C3 & C4).
  split_and!; (apply keeps_restartable; [intros s ((Hc & _ & Hm) & _)|..]).
  - by apply chunks_upgrade_upload_artifact_rows.
  - intros. apply kept_upgrade_upload_artifact_rows.
  - apply books_upgrade_upload_artifact_rows.
  - by apply chunks_upgrade_legacy_uploads.
  - intros. by apply kept_upgrade_legacy_uploads.
  - apply books_upgrade_legacy_uploads.
  - by apply C1.
  - intros. apply kept_upgrade_snapshot_fingerprints.
  - apply books_upgrade_snapshot_fingerprints.
  - by apply C2.
  - intros. apply kept_backfill_sort_keys.
  - apply books_backfill_sort_keys.
  - by apply C3.
  - intros. apply kept_backfill_completed_capture_provenance.
  - apply books_backfill_completed_capture_provenance.
  - by apply C4.
  - intros. apply kept_rebuild_all_contexts.
  - apply books_rebuild_all_contexts.
Qed.

(** The sweeps of the disk, from the rows as they were read. *)
Definition sweep (uploads : list (string * string)) (audits : list string) : M MaintenanceError unit :=
  remove_unknown_upload_directories (uploads.*1 ++ audits) &;
  for_each uploads recover_upload &;
  for_each audits (remove_upload_dir Operation) &;
  recover_unreferenced_blobs st.
Lemma sweeping_recover_unreferenced_blobs d0 : keeps (sweeping d0) (recover_unreferenced_blobs st).
Proof.
  assert (Ht : forall known shard, keeps (sweeping d0) (remove_unknown_blobs known shard)).
  { intros known shard. apply (keeps_sweeping d0 _ (fun p => below sha256_root p = true)).
    - intros s. apply touches_remove_unknown_blobs. intros name p _ [rest ->]%bool_decide_eq_true.
      apply bool_decide_eq_true. by exists (shard :: name :: rest).
    - intros r _ _ _ [rest E]%bool_decide_eq_true. by injection E. }
  unfold recover_unreferenced_blobs, keep_referenced, schedule_unreferenced.
  repeat lazymatch goal with
  | |- keeps _ (transaction _ _ _) => apply (keeps_transaction_body (sweeping d0)); [db_only_tac|]
  | |- keeps _ (execute _ _) => apply keeps_execute; intros s d x Hs [= <- _]; apply sweeping_db;
      [by apply uploads_closing_eq|done|exact Hs]
  | |- keeps _ (for_entries _ _ _) => apply keeps_for_entries; intros name
  | |- keeps _ (remove_unknown_blobs _ _) => apply Ht
  | _ => keeps_step
  end.
Qed.
Lemma restartable_sweep s : restartable s ->
  wp (sweep ((fun u => (Upload.id u, Upload.status u)) <$> uploads (db s)) (audit_ids (db s))) (fun _ => restartable) s.
Proof.
  intros Hs. revert Hs. set (rows := _ <$> _). set (audits := audit_ids _). set (d0 := db s). intros Hs.
  pose proof Hs as ((Hc & Ha & Hm) & Hw & Hl).
  assert (Hsw : keeps (sweeping d0) (sweep rows audits)).
  { unfold sweep.
    repeat lazymatch goal with
    | |- keeps _ (remove_unknown_upload_directories _) => apply sweeping_remove_unknown
    | |- keeps _ (recover_upload ?r) => apply sweeping_recover_upload
    | |- keeps _ (recover_unreferenced_blobs _) => apply sweeping_recover_unreferenced_blobs
    | |- keeps _ (remove_upload_dir _ _) => apply sweeping_remove_upload_dir
    | |- keeps _ (for_each _ _) => apply keeps_for_each; intros row Hrow
    | _ => keeps_step
    end.
    - intros u (up & [Hid%eqs_true Hup]%elem_of_select & _)%existsb_true. apply elem_of_app. left.
      unfold rows. rewrite <-list_fmap_compose. apply list_elem_of_fmap. by exists up.
    - apply list_elem_of_fmap in Hrow as (up & -> & Hup). simpl. by apply completed_not_open.
    - by apply open_not_ended. }
  apply restartable_wp; [done| | |].
  - eapply wp_mono; [|apply (Hsw s); by apply sweeping_refl]. by intros r s' [? _].
  - unfold sweep.
    repeat lazymatch goal with
    | |- keeps _ (remove_unknown_upload_directories _) => apply kept_remove_unknown_upload_directories
    | |- keeps _ (recover_upload ?r) => apply kept_recover_upload
    | |- keeps _ (recover_unreferenced_blobs _) => apply kept_recover_unreferenced_blobs
    | |- keeps _ (remove_upload_dir _ _) => apply keeps_kept_same; do 1 intro; apply keeps_same_remove_upload_dir
    | |- keeps _ (for_each _ _) => apply keeps_for_each; intros row Hrow
    | _ => keeps_step
    end.
  - unfold sweep.
    repeat lazymatch goal with
    | |- keeps _ (remove_unknown_upload_directories _) => apply books_remove_unknown_upload_directories
    | |- keeps _ (recover_upload ?r) => apply books_recover_upload
    | |- keeps _ (recover_unreferenced_blobs _) => apply books_recover_unreferenced_blobs
    | |- keeps _ (remove_upload_dir _ _) => apply keeps_db_remove_dir_all; apply _
    | |- keeps _ (for_each _ _) => apply keeps_for_each; intros row Hrow
    | _ => keeps_step
    end.
Qed.
Lemma restartable_recover_uploads : keeps restartable (recover_uploads st).
Proof.
  destruct restartable_upgrades as (U1 & U2 & U3 & U4 & U5 & U6).
  unfold recover_uploads. do 6 (apply keeps_bind; [assumption|intros _]). intros s Hs.
  wp_step. wp_step; simpl; [done|]. wp_step. wp_step; simpl; [done|]. by apply restartable_sweep.
Qed.
Lemma restartable_bootstrap_recovery : keeps restartable (bootstrap_recovery st).
Proof.
  unfold bootstrap_recovery. apply keeps_bind; [apply restartable_recover_uploads|]. intros _.
  apply keeps_bind; [keeps_tac|]. intros t. apply keeps_bind; [|intros; keeps_tac].
  intros s ((Hc & Ha & Hm) & Hw & Hl).
  eapply wp_mono; [|apply wp_and; [by apply (chunks_expire_uploads_at t)|apply wp_and;
    [by apply (keeps_archive_same owner _ (fun s => same_expire_uploads_at s t))|apply wp_and;
    [by apply (keeps_manifests_fewer _ (fun s => fewer_expire_uploads_at s t))|apply wp_and;
    [by apply (keeps_whole_archive _ (fun s => same_expire_uploads_at s t))|by apply ledger_expire_uploads_at]]]]].
  intros r s' (? & ? & ? & ? & ?). by split_and!.
Qed.
End Recovering.
