(* ===== verification/Outcomes.v ===== *)
(** What an answer of the server means: the receipt of a completion, the
    tombstone of a deletion, the count of a collection. *)
From stdpp Require Import prelude strings gmap sorting list.
From Stdlib Require Import ZArith Ascii Lia.
From Stdlib.Strings Require Import Byte.
From S2P Require Import Prelude Errors Contract Externals Validation Chunks Fingerprint Pagination.
From S2P Require Import Tables Store Storage Uploads Receipts Completion Deletion Archive Invariants Assembly.
From S2P Require Import Publication Reclamation Visibility.

Section Receipts.
Context `{EV : Env} `{UL : UuidLib} `{TL : TimeLib} `{ML : MimeLib} `{SL : ShaLib} `{ZL : ZstdLib} `{JL : JsonLib}.
Context (st : AppState).

(** The rows a completion of upload [u] is read from, and the answer they give,
    field by field: the receipt from the upload's snapshot and that snapshot's
    manifest, the transfer from the upload, the provenance from the upload's
    capture and that capture's manifest. *)
Record completion_rows (u : string) (d : Db) (c : CompletionResponse)
    (up : Upload.row) (snap : Snapshot.row) (m : ManifestRow.row) (cap : CaptureRow.row) : Prop := {
  cr_upload : up ∈ uploads d /\ Upload.id up = u /\ Upload.status up = STATUS_COMPLETED;
  cr_snapshot : snap ∈ snapshots d /\ Upload.snapshot_id up = Some (Snapshot.id snap)
    /\ Snapshot.deleted_at snap = None;
  cr_manifest : m ∈ manifests d /\ ManifestRow.id m = Snapshot.manifest_id snap;
  cr_capture : cap ∈ captures d /\ CaptureRow.upload_id cap = u
    /\ exists live, live ∈ snapshots d /\ Snapshot.id live = CaptureRow.snapshot_id cap
                   /\ Snapshot.deleted_at live = None;
  cr_receipt : c_receipt c =
    {| receipt_version := 2;
       r_archive_instance_id := archive_instance_id st;
       r_owner_namespace := Storage.owner_namespace st;
       r_snapshot_id := Snapshot.id snap;
       r_session_id := Snapshot.session_id snap;
       r_snapshot_fingerprint := digest_document_value (Snapshot.fingerprint_sha256 snap);
       r_manifest_sha256 := digest_document_value (ManifestRow.sha256 m);
       r_artifact_count := Snapshot.artifact_count snap;
       r_total_original_bytes := Snapshot.total_original_size_bytes snap;
       r_total_stored_bytes := Snapshot.total_stored_size_bytes snap;
       r_completed_at := Snapshot.completed_at snap |};
  cr_transfer : c_transfer c =
    {| ct_upload_id := u;
       ct_capture_id := Upload.capture_id up;
       ct_upload_transfer_bytes := Upload.transfer_bytes up;
       ct_newly_persisted_physical_bytes := Upload.newly_persisted_bytes up |};
  cr_provenance : exists mc metadata,
    mc ∈ manifests d /\ ManifestRow.id mc = CaptureRow.manifest_id cap
    /\ metadata_of_json (CaptureRow.source_metadata_json cap) = Some metadata
    /\ c_capture c =
      {| cp_capture_record_id := CaptureRow.id cap;
         cp_capture_id := CaptureRow.capture_id cap;
         cp_client_id := CaptureRow.client_id cap;
         cp_session_id := CaptureRow.session_id cap;
         cp_upload_id := u;
         cp_snapshot_id := CaptureRow.snapshot_id cap;
         cp_manifest_id := CaptureRow.manifest_id cap;
         cp_manifest_sha256 := digest_document_value (ManifestRow.sha256 mc);
         cp_source_captured_at := CaptureRow.source_captured_at cap;
         cp_source_cursor := CaptureRow.source_cursor cap;
         cp_source_state_hash := CaptureRow.source_state_hash cap;
         cp_source_metadata := metadata;
         cp_project := CaptureRow.project cap;
         cp_repository := CaptureRow.repository cap;
         cp_branch := CaptureRow.branch cap;
         cp_source_agent_version := CaptureRow.source_agent_version cap;
         cp_artifact_set_version := CaptureRow.artifact_set_version cap;
         cp_munshi_version := CaptureRow.munshi_version cap;
         cp_server_received_at := CaptureRow.server_received_at cap;
         cp_server_completed_at := CaptureRow.server_completed_at cap;
         cp_capture_url := "/api/v1/captures/" +:+ CaptureRow.id cap;
         cp_manifest_url := "/api/v1/manifests/" +:+ CaptureRow.manifest_id cap |};
  cr_widths : 0 <= r_artifact_count (c_receipt c) <= u32_max
    /\ 0 <= r_total_original_bytes (c_receipt c) /\ 0 <= r_total_stored_bytes (c_receipt c)
    /\ 0 <= ct_upload_transfer_bytes (c_transfer c)
    /\ 0 <= ct_newly_persisted_physical_bytes (c_transfer c)
    /\ 0 <= cp_artifact_set_version (c_capture c) <= u16_max;
}.

Lemma to_u32_Some z w : to_u32 z = Some w -> w = z /\ 0 <= z <= u32_max.
Proof. unfold to_u32. case_match eqn:E; [|done]. intros [= ->]. split; [done|]. lia. Qed.
Lemma to_u16_Some z w : to_u16 z = Some w -> w = z /\ 0 <= z <= u16_max.
Proof. unfold to_u16. case_match eqn:E; [|done]. intros [= ->]. split; [done|]. lia. Qed.
Lemma i64_to_u64_Some' z w : i64_to_u64 z = Some w -> w = z /\ 0 <= z.
Proof. apply i64_to_u64_Some. Qed.

(** What the lookups of the joins find. *)
Lemma completed_upload_inv u d up : completed_upload u d = Some up ->
  up ∈ uploads d /\ Upload.id up = u /\ Upload.status up = STATUS_COMPLETED.
Proof.
  intros [[E%eqs_true S%eqs_true]%andb_true_iff Hin]%select_one_Some. done.
Qed.
Lemma live_snapshot_by_id_inv id d sn : live_snapshot_by_id id d = Some sn ->
  sn ∈ snapshots d /\ Snapshot.id sn = id /\ Snapshot.deleted_at sn = None.
Proof.
  intros [[E%eqs_true S%bool_decide_eq_true]%andb_true_iff Hin]%select_one_Some. done.
Qed.
Lemma manifest_by_id_inv id d m : manifest_by_id id d = Some m -> m ∈ manifests d /\ ManifestRow.id m = id.
Proof. intros [E%eqs_true Hin]%select_one_Some. done. Qed.
Lemma visible_capture_inv p d cap mc : visible_capture p d = Some (cap, mc) ->
  cap ∈ captures d /\ p cap = true /\ (exists sn, sn ∈ snapshots d
    /\ Snapshot.id sn = CaptureRow.snapshot_id cap /\ Snapshot.deleted_at sn = None)
  /\ mc ∈ manifests d /\ ManifestRow.id mc = CaptureRow.manifest_id cap.
Proof.
  intros (x & Ex & (y & Hy & [= -> ->])%bind_Some)%bind_Some.
  apply select_one_Some in Ex as [Hx Hin]. rewrite !andb_true_iff in Hx.
  destruct Hx as [[Hp [sn Hs]%bool_decide_eq_true] _].
  apply manifest_by_id_inv in Hy as [Hm Hid]. apply live_snapshot_by_id_inv in Hs as (? & ? & ?).
  eauto 10.
Qed.

(** The lookups of a completion, one after the other, and the conversions of
    the integers they give. *)
Ltac converted :=
  repeat match goal with
  | H : to_u32 _ = Some _ |- _ => apply to_u32_Some in H as [-> ?]
  | H : to_u16 _ = Some _ |- _ => apply to_u16_Some in H as [-> ?]
  | H : i64_to_u64 _ = Some _ |- _ => apply i64_to_u64_Some' in H as [-> ?]
  end.
Lemma capture_from_row_inv cap mc prov : capture_from_row cap mc = Ok prov ->
  0 <= CaptureRow.artifact_set_version cap <= u16_max /\
  exists metadata, metadata_of_json (CaptureRow.source_metadata_json cap) = Some metadata /\ prov =
      {| cp_capture_record_id := CaptureRow.id cap;
         cp_capture_id := CaptureRow.capture_id cap;
         cp_client_id := CaptureRow.client_id cap;
         cp_session_id := CaptureRow.session_id cap;
         cp_upload_id := CaptureRow.upload_id cap;
         cp_snapshot_id := CaptureRow.snapshot_id cap;
         cp_manifest_id := CaptureRow.manifest_id cap;
         cp_manifest_sha256 := digest_document_value (ManifestRow.sha256 mc);
         cp_source_captured_at := CaptureRow.source_captured_at cap;
         cp_source_cursor := CaptureRow.source_cursor cap;
         cp_source_state_hash := CaptureRow.source_state_hash cap;
         cp_source_metadata := metadata;
         cp_project := CaptureRow.project cap;
         cp_repository := CaptureRow.repository cap;
         cp_branch := CaptureRow.branch cap;
         cp_source_agent_version := CaptureRow.source_agent_version cap;
         cp_artifact_set_version := CaptureRow.artifact_set_version cap;
         cp_munshi_version := CaptureRow.munshi_version cap;
         cp_server_received_at := CaptureRow.server_received_at cap;
         cp_server_completed_at := CaptureRow.server_completed_at cap;
         cp_capture_url := "/api/v1/captures/" +:+ CaptureRow.id cap;
         cp_manifest_url := "/api/v1/manifests/" +:+ CaptureRow.manifest_id cap |}.
Proof.
  unfold capture_from_row. destruct (metadata_of_json _) as [md|]; simpl; [|done].
  destruct (to_u16 _) as [v|] eqn:Ev; simpl; [|done]. converted. intros [= <-]. eauto.
Qed.

Lemma completion_for_upload_spec u s :
  wp (completion_for_upload st u) (fun r s' => s' = s /\ forall c, r = Ok c ->
    exists up snap m cap, completion_rows u (db s) c up snap m cap) s.
Proof.
  unfold completion_for_upload, receipt_for_upload, capture_for_upload.
  wp_step. wp_step. wp_step; simpl; [done|]. wp_step. wp_step.
  destruct (completed_upload u (db s)) as [up|] eqn:Eup; simpl; [|done].
  destruct (Upload.snapshot_id up) as [sid|] eqn:Esid; simpl; [|done].
  destruct (live_snapshot_by_id sid (db s)) as [snap|] eqn:Esnap; simpl; [|done].
  destruct (manifest_by_id _ (db s)) as [m|] eqn:Em; simpl; [|done].
  do 3 (wp_step; wp_step; match goal with |- context [then_wp _ _ (ok_or ?c _)] => destruct c as [?|] eqn:? end; simpl; [|done]).
  wp_step. simpl. wp_step. wp_step; simpl; [done|]. wp_step. wp_step. rewrite Eup. simpl.
  wp_step. wp_step. wp_step; simpl; [done|]. wp_step. wp_step.
  destruct (visible_capture _ (db s)) as [[cap mc]|] eqn:Ecap; simpl; [|done].
  wp_step. destruct (capture_from_row cap mc) as [prov|] eqn:Eprov; simpl; [|done].
  do 2 (wp_step; wp_step; match goal with |- context [then_wp _ _ (ok_or ?c _)] => destruct c as [?|] eqn:? end; simpl; [|done]).
  wp_step. split; [done|]. intros c [= <-]. converted.
  apply completed_upload_inv in Eup as (? & <- & ?). apply live_snapshot_by_id_inv in Esnap as (? & <- & ?).
  apply manifest_by_id_inv in Em as [? ?]. apply visible_capture_inv in Ecap as (? & Hcap%eqs_true & ? & ? & ?).
  apply capture_from_row_inv in Eprov as (? & md & ? & ->).
  exists up, snap, m, cap. split; simpl; rewrite ?Hcap; eauto 10.
Qed.

(** A handler that can only succeed through a final step. *)
Definition receipted (u : string) (r : res ApiError CompletionResponse) (s : Store) : Prop :=
  forall c, r = Ok c -> exists up snap m cap, completion_rows u (db s) c up snap m cap.

Lemma receipted_completion u s : wp (completion_for_upload st u) (receipted u) s.
Proof. eapply wp_mono; [|apply completion_for_upload_spec]. by intros r s' [-> Hr]. Qed.
Lemma receipted_after {A} (m : M ApiError A) k u s :
  (forall a s', wp (k a) (receipted u) s') -> wp (bind m k) (receipted u) s.
Proof. intros Hk. apply wp_bind_any; [|exact Hk]. intros e s' c. done. Qed.
Lemma receipted_throw u e s : wp (throw e) (receipted u) s.
Proof. wp_step. intros c. done. Qed.

Lemma receipted_join upload m prepared sid n s :
  wp (join_existing st upload m prepared sid n) (receipted (Upload.id upload)) s.
Proof. unfold join_existing. do 3 (apply receipted_after; intros ? ?). apply receipted_completion. Qed.
Lemma receipted_archive upload m prepared unique fp n s :
  wp (archive_new st upload m prepared unique fp n) (receipted (Upload.id upload)) s.
Proof.
  unfold archive_new. apply receipted_after. intros [promotions|e] s1.
  - apply receipted_after. intros persisted s2. apply receipted_after. intros [[]|e] s3.
    + apply receipted_after. intros x s4. apply receipted_completion.
    + do 2 (apply receipted_after; intros ? ?). apply receipted_throw.
  - apply receipted_after. intros x s2. apply receipted_throw.
Qed.
Lemma receipted_deduplicate upload m prepared fp n s :
  wp (deduplicate st upload m prepared fp n) (receipted (Upload.id upload)) s.
Proof.
  unfold deduplicate. apply receipted_after. intros [[]|e] s1.
  2: { apply receipted_after. intros x s2. apply receipted_throw. }
  do 2 (apply receipted_after; intros ? ?). destruct a0; [apply receipted_join|].
  apply receipted_after. intros [[]|e] s4.
  2: { apply receipted_after. intros x s5. apply receipted_throw. }
  apply receipted_after. intros [sid|] s5; [apply receipted_join|apply receipted_archive].
Qed.

(** C6: an acknowledged completion is what it says: when the server answers a
    completion, the upload is completed, its snapshot is live, its manifest and
    capture are recorded, and every field of the receipt, of the transfer and of
    the provenance in the answer is the one committed in those rows (or, for the
    archive and its owner, the server's identity), the integers within the
    width of the answer. *)
Theorem complete_upload_receipt id u s : parse_str id = Some u ->
  wp (complete_upload st id) (fun r s' => forall c, r = Ok c ->
    exists up snap m cap, completion_rows u (db s') c up snap m cap) s.
Proof.
  intros Hu. change (wp (complete_upload st id) (receipted u) s). unfold complete_upload, parse_uuid.
  rewrite Hu. simpl. wp_step. wp_step. simpl. wp_step.
  eapply wp_mono; [|apply require_active_upload_spec].
  intros [upload|e] s1 [_ Hup]; simpl; [|by intros c]. destruct (Hup upload eq_refl) as (_ & _ & Hsel).
  apply select_one_Some in Hsel as [Hid%eqs_true _].
  destruct (eqs _ _); [apply receipted_completion|].
  apply receipted_after. intros m s2. do 6 (apply receipted_after; intros ? ?). rewrite <-Hid. apply receipted_deduplicate.
Qed.

(** C31: completing an upload again, after it completed, changes nothing in the
    store, whatever fails, and the answer is read from the committed rows. *)
Theorem complete_upload_retry id u up s : parse_str id = Some u ->
  select_one (of_upload u) (uploads (db s)) = Some up -> Upload.status up = STATUS_COMPLETED ->
  wp (complete_upload st id) (fun r s' => s' = s /\ forall c, r = Ok c ->
    exists up snap m cap, completion_rows u (db s) c up snap m cap) s.
Proof.
  intros Hu Hup Hst. unfold complete_upload, parse_uuid, require_active_upload, get_active_upload.
  rewrite Hu. simpl. wp_step. wp_step. simpl. wp_step. wp_step. wp_step; simpl; [done|].
  wp_step. wp_step. rewrite Hup. simpl. rewrite Hst, eqs_refl. wp_step. simpl. rewrite Hst, eqs_refl.
  apply completion_for_upload_spec.
Qed.
End Receipts.
