(* ===== verification/Removal.v ===== *)
(** What a deletion does, branch by branch: nothing without the confirmation
    of this very snapshot, and otherwise one transaction that retires it. *)
From stdpp Require Import prelude strings gmap sorting list.
From Stdlib Require Import ZArith Ascii Lia.
From Stdlib.Strings Require Import Byte.
From S2P Require Import Prelude Errors Contract Externals Validation Chunks Fingerprint Pagination.
From S2P Require Import Tables Store Storage Uploads Receipts Completion Deletion Archive.
From S2P Require Import Invariants Publication Reclamation.

(* ------------------------------------------------------------------ *)
(** ** Confirmations *)

(** A deletion is confirmed exactly when the header (as text) or the body
    names the snapshot and its fingerprint, and neither says anything else. *)
Theorem confirm_snapshot_deletion_exact headers body id fingerprint :
  confirm_snapshot_deletion headers body id fingerprint = Ok tt <->
  match header_get headers DELETE_CONFIRMATION_HEADER with
  | Some HOpaque => False
  | Some (HText h) => h = expected_confirmation id fingerprint /\ (body = None \/ body = Some h)
  | None => body = Some (expected_confirmation id fingerprint)
  end.
Proof.
  unfold confirm_snapshot_deletion. destruct (header_get _ _) as [[h|]|]; simpl; [| |].
  - destruct body as [b|]; simpl.
    + destruct (eqs h b) eqn:E; simpl.
      * apply eqs_true in E as <-. destruct (eqs h _) eqn:E; simpl.
        -- apply eqs_true in E. split; [|done]. intros _. split; [done|by right].
        -- apply eqs_false in E. split; [done|by intros [? _]].
      * apply eqs_false in E. split; [done|]. intros [_ [?|[= ->]]]; done.
    + destruct (eqs h _) eqn:E; simpl.
      * apply eqs_true in E. split; [|done]. intros _. split; [done|by left].
      * apply eqs_false in E. split; [done|by intros [? _]].
  - by destruct body.
  - destruct body as [b|]; simpl; [|done]. destruct (eqs b _) eqn:E; simpl.
    + apply eqs_true in E as ->. done.
    + apply eqs_false in E. split; [done|]. by intros [= ->].
Qed.

Section Retiring.
Context `{EV : Env} `{UL : UuidLib} `{TL : TimeLib} `{SL : ShaLib} `{ZL : ZstdLib} `{JL : JsonLib}.
Context (st : AppState).

(* ------------------------------------------------------------------ *)
(** ** The blobs of the snapshot *)

(** Blob [b] holds an artifact of snapshot [id]. *)
Definition holds_artifact_of (id : string) (d : Db) (b : Blob.row) : bool :=
  existsb (fun a => eqs (ArtifactRow.snapshot_id a) id && eqs (ArtifactRow.blob_id a) (Blob.id b))
    (artifact_rows d).
(** A blob that something live still needs is no candidate; any other becomes
    one once the grace period is over. *)
Definition rescheduled (at_ el : string) (seq : Z) (d : Db) (b : Blob.row) : Blob.row :=
  if has_live_reference (Blob.id b) d then Blob.set_orphan None None None b
  else Blob.set_orphan (Some at_) (Some el) (Some seq) b.

Lemma rescheduled_id at_ el seq d b : Blob.id (rescheduled at_ el seq d b) = Blob.id b.
Proof. unfold rescheduled. by destruct (has_live_reference _ _). Qed.
Lemma rescheduled_twice at_ el seq d b :
  rescheduled at_ el seq d (rescheduled at_ el seq d b) = rescheduled at_ el seq d b.
Proof. unfold rescheduled at 1. rewrite rescheduled_id. unfold rescheduled. by destruct (has_live_reference _ _). Qed.

Lemma schedule_victims_spec at_ el seq victims : forall s,
  wp (for_each (E:=ApiError) victims (fun blob =>
        execute db_err (fun d => Some (schedule_blob (Blob.id blob) at_ el seq d, tt))))
    (fun r s' => r = Ok tt ->
       db s' = with_blobs (map (fun b => if existsb (fun v => eqs (Blob.id b) (Blob.id v)) victims
                                         then rescheduled at_ el seq (db s) b else b)) (db s)) s.
Proof.
  induction victims as [|v victims IH]; intros s; simpl.
  - wp_step. intros _. destruct (db s) as [c1 c2 c3 c4 c5 c6 c7 bl]. unfold with_blobs. simpl. by rewrite map_id.
  - wp_step. wp_step; [done|]. intros d [] [= <-]. eapply wp_mono; [|apply IH].
    intros r s' Hr Hok. rewrite (Hr Hok). cbn [db]. set (d1 := schedule_blob _ _ _ _ _).
    assert (E : forall x, rescheduled at_ el seq d1 x = rescheduled at_ el seq (db s) x) by done.
    unfold d1 at 2, schedule_blob, with_blobs at 1 2 3, update. cbn. f_equal. rewrite map_map. apply map_ext. intros b.
    change (if has_live_reference (Blob.id b) (db s) then Blob.set_orphan None None None b
            else Blob.set_orphan (Some at_) (Some el) (Some seq) b) with (rescheduled at_ el seq (db s) b).
    destruct (eqs (Blob.id b) (Blob.id v)) eqn:Ev; simpl; [|by rewrite E].
    rewrite rescheduled_id, E, rescheduled_twice. by destruct (existsb _ _).
Qed.

Lemma victims_hold id d b : bool_decide (is_Some (live_snapshot_by_id id d)) = true -> b ∈ blobs d ->
  existsb (fun v => eqs (Blob.id b) (Blob.id v)) (artifact_blobs id d) = holds_artifact_of id d b.
Proof.
  intros Hl Hb. unfold artifact_blobs. rewrite Hl. apply eq_true_iff_eq. rewrite existsb_true. split.
  - intros (v & [Hv _]%elem_of_select & E%eqs_true). unfold holds_artifact_of. by rewrite E.
  - intros Hh. exists b. split; [|apply eqs_refl]. by apply elem_of_select.
Qed.

(* ------------------------------------------------------------------ *)
(** ** The transaction *)

(** The snapshot is live in [d]; [d'] has its tombstone and audit, has it
    marked deleted, has none of its artifact rows, has its blobs scheduled or
    kept by what still refers to them, and shows the context of the latest
    snapshot the session has left.  The other tables are as they were. *)
Record retired (id : string) (reason : option string) (snap : Snapshot.row) (m : ManifestRow.row)
    (t : Tombstone.row) (a : DeletionAudit.row) (el : string) (seq : Z) (d d' : Db) : Prop := {
  rt_snapshot : snapshot_deletion_row id d = Some (snap, m) /\ live snap = true;
  rt_tombstone : tombstones d' = tombstones d ++ [t]
    /\ Tombstone.snapshot_id t = Snapshot.id snap /\ Tombstone.session_id t = Snapshot.session_id snap
    /\ Tombstone.snapshot_fingerprint_sha256 t = Snapshot.fingerprint_sha256 snap
    /\ Tombstone.manifest_sha256 t = ManifestRow.sha256 m
    /\ Tombstone.reason t = reason /\ Tombstone.rearchived_snapshot_id t = None;
  rt_audit : deletion_audits d' = deletion_audits d ++ [a]
    /\ DeletionAudit.tombstone_id a = Tombstone.id t /\ DeletionAudit.snapshot_id a = Snapshot.id snap
    /\ DeletionAudit.occurred_at a = Tombstone.deleted_at t;
  rt_marked : snapshots d'
    = update (fun r => eqs (Snapshot.id r) id && live r) (Snapshot.set_deleted (Tombstone.deleted_at t)) (snapshots d);
  rt_artifacts : artifact_rows d' = delete_where (fun r => eqs (ArtifactRow.snapshot_id r) id) (artifact_rows d);
  rt_blobs : blobs d'
    = (fun b => if holds_artifact_of id d b then rescheduled (Tombstone.deleted_at t) el seq d' b else b) <$> blobs d;
  rt_latest : session_latest_context d'
    = delete_where (fun r => eqs (LatestContext.session_id r) (Snapshot.session_id snap)) (session_latest_context d)
      ++ option_list (latest_context (Snapshot.session_id snap) d');
  rt_others : clients d' = clients d /\ sessions d' = sessions d /\ captures d' = captures d
    /\ uploads d' = uploads d /\ manifests d' = manifests d /\ upload_artifacts d' = upload_artifacts d
    /\ upload_chunks d' = upload_chunks d /\ upload_audits d' = upload_audits d;
}.

Lemma rebuild_session_latest_context_spec sid s :
  wp (rebuild_session_latest_context sid) (fun r s' => r = Ok tt ->
    db s' = with_session_latest_context (fun l =>
      delete_where (fun r => eqs (LatestContext.session_id r) sid) l ++ option_list (latest_context sid (db s))) (db s)) s.
Proof.
  unfold rebuild_session_latest_context. wp_step. wp_step; simpl; [done|]. intros d [] [= <-].
  wp_step; simpl; [done|]. intros d [] Ex _.
  change (latest_context sid _) with (latest_context sid (db s)) in Ex.
  destruct (latest_context sid (db s)) as [row|] eqn:El; simpl in Ex.
  - destruct (insert_row _ _ _) as [t|] eqn:Ei; [|done]. injection Ex as <-.
    apply insert_row_Some in Ei as [-> _]. reflexivity.
  - injection Ex as <-. unfold with_session_latest_context. simpl. by rewrite app_nil_r.
Qed.

Lemma snapshot_deletion_row_id id d snap m : snapshot_deletion_row id d = Some (snap, m) -> Snapshot.id snap = id.
Proof.
  unfold snapshot_deletion_row. intros (x & Ex & (y & _ & [= -> ->])%bind_Some)%bind_Some.
  unfold snapshot_by_id in Ex. by apply select_one_Some in Ex as [E%eqs_true _].
Qed.
Lemma deletion_row_live id d snap m : snapshot_deletion_row id d = Some (snap, m) -> live snap = true ->
  bool_decide (is_Some (live_snapshot_by_id id d)) = true.
Proof.
  unfold snapshot_deletion_row. intros (x & Ex & (y & _ & [= -> ->])%bind_Some)%bind_Some Hl.
  unfold snapshot_by_id in Ex. apply select_one_Some in Ex as [E Hin].
  apply bool_decide_eq_true. unfold live_snapshot_by_id. destruct (select_one _ _) eqn:En; [done|].
  rewrite select_one_None in En. specialize (En snap Hin). by rewrite E, Hl in En.
Qed.

Lemma delete_transaction_spec id reason at_ seq el elseq tid aid s snap m :
  snapshot_deletion_row id (db s) = Some (snap, m) -> live snap = true ->
  wp (delete_transaction id reason at_ seq el elseq tid aid) (fun r s' => forall x, r = Ok x ->
    x = Commit tt /\ exists t a, Tombstone.deleted_at t = at_ /\ retired id reason snap m t a el elseq (db s) (db s')) s.
Proof.
  intros Hrow Hl. pose proof (snapshot_deletion_row_id _ _ _ _ Hrow) as Hid. unfold delete_transaction.
  wp_step. wp_step; simpl; [done|]. wp_step. wp_step. rewrite Hrow. simpl. rewrite Hl. simpl.
  wp_step. wp_step; simpl; [done|]. pose proof (fun b => victims_hold id (db s) b (deletion_row_live _ _ _ _ Hrow Hl)) as Hv.
  revert Hv. generalize (artifact_blobs id (db s)). intros victims Hv.
  wp_step. wp_step; simpl; [done|]. intros d1 [] (t1 & Et & [= <-])%bind_Some.
  apply insert_row_Some in Et as [-> _].
  wp_step. wp_step; simpl; [done|]. intros d2 [] (t2 & Ea & [= <-])%bind_Some.
  apply insert_row_Some in Ea as [-> _].
  wp_step. wp_step; simpl; [done|]. intros d3 n [= <- <-]. destruct (negb _); [by wp_step|].
  wp_step. wp_step; simpl; [done|]. intros d4 [] [= <-].
  wp_step. eapply wp_mono; [|apply schedule_victims_spec]. intros [[]|e] s5 H5; simpl; [|done].
  specialize (H5 eq_refl). cbn [db] in H5.
  wp_step. eapply wp_mono; [|apply rebuild_session_latest_context_spec]. intros [[]|e] s6 H6; simpl; [|done].
  specialize (H6 eq_refl). wp_step. intros x [= <-]. split; [done|]. do 2 eexists. split; cycle 1.
  rewrite H6, H5, Hid. split; simpl; first [reflexivity|by split_and!|idtac].
  change (map ?g ?l) with (g <$> l). apply list_fmap_ext. intros i b Hb. rewrite Hv; [done|].
  by eapply list_elem_of_lookup_2.
  done.
Qed.

(* ------------------------------------------------------------------ *)
(** ** The handler *)

(** The answer is read from the tombstone of the snapshot. *)
Definition tombstone_answers (id : string) (d : Db) (resp : TombstoneResponse) : Prop :=
  exists t audit snap n, tombstone_row id d = Some (t, audit, snap, n)
    /\ t_snapshot_id resp = id /\ t_tombstone_id resp = Tombstone.id t
    /\ t_deletion_audit_id resp = DeletionAudit.id audit /\ t_deleted_at resp = Tombstone.deleted_at t
    /\ r_snapshot_id (t_historical_receipt resp) = id
    /\ r_snapshot_fingerprint (t_historical_receipt resp)
       = digest_document_value (Tombstone.snapshot_fingerprint_sha256 t).
Lemma tombstone_response_spec id s :
  wp (tombstone_response st id) (fun r s' => s' = s /\ forall resp, r = Ok resp -> tombstone_answers id (db s) resp) s.
Proof.
  unfold tombstone_response. wp_step. wp_step; simpl; [done|]. wp_step. wp_step.
  destruct (tombstone_row id (db s)) as [[[[t audit] snap] n]|] eqn:Et; simpl; [|done].
  do 4 (wp_step; wp_step; match goal with |- context [then_wp _ _ (ok_or ?c _)] => destruct c as [?|] end; simpl; [|done]).
  wp_step. split; [done|]. intros resp [= <-].
  assert (Hid : Tombstone.snapshot_id t = id).
  { unfold tombstone_row in Et. apply bind_Some in Et as (x & Ex & (y & _ & (w & _ & [= -> _ _ _])%bind_Some)%bind_Some).
    by apply select_one_Some in Ex as [E%eqs_true _]. }
  exists t, audit, snap, n. by split_and!.
Qed.

Lemma retired_not_live id reason snap m t a el seq d d' : retired id reason snap m t a el seq d d' ->
  forall x, snapshot_by_id id d' = Some x -> live x = false.
Proof.
  intros [_ _ _ Hm _ _ _ _] x [Hx%eqs_true Hin]%select_one_Some. rewrite Hm in Hin.
  apply elem_of_update in Hin as [(q & _ & _ & ->)|[E _]]; [done|]. by rewrite Hx, eqs_refl in E.
Qed.

(** A live snapshot [id] was confirmed and retired, at [when]. *)
Definition confirmed_retirement (id : string) (headers : HeaderMap) (payload : option DeleteSnapshotRequest)
    (d d' : Db) : Prop :=
  exists when snap m t a el reason,
    confirm_snapshot_deletion headers (payload ≫= confirmation) id (Snapshot.fingerprint_sha256 snap) = Ok tt
    /\ deletion_reason payload = Ok reason /\ format_rfc3339 when = Some (Tombstone.deleted_at t)
    /\ retired id reason snap m t a el
         (sort_key_from_timestamp (expiration_time when (blob_gc_grace st))) d d'.

#[local] Instance files_fixed_draw f : DrawStable (fun s => files s = f).
Proof. by intros s. Qed.
Lemma keeps_files_delete_snapshot f id headers payload :
  keeps (fun s => files s = f) (delete_snapshot st id headers payload).
Proof.
  unfold delete_snapshot.
  repeat lazymatch goal with
  | |- keeps _ (transaction _ _ _) => apply keeps_transaction; [apply _|apply db_only_delete_transaction|]; intros s <-;
      eapply wp_mono; [|apply (db_only_delete_transaction _ _ _ _ _ _ _ _ (files s) (drawn s)); done];
      intros [[x|x]|e] s' [? ?]; done
  | |- keeps _ (tombstone_response _ _) => apply tombstone_response_reads
  | _ => keeps_step
  end.
Qed.

Lemma delete_snapshot_spec id headers payload s :
  wp (delete_snapshot st id headers payload) (fun r s' =>
    files s' = files s
    /\ (db s' = db s
        \/ (admin_deletion_enabled st = true /\ exists cid, parse_str id = Some cid
            /\ confirmed_retirement cid headers payload (db s) (db s')))
    /\ forall resp, r = Ok resp -> admin_deletion_enabled st = true /\ exists cid, parse_str id = Some cid
        /\ tombstone_answers cid (db s') resp
        /\ forall x, snapshot_by_id cid (db s') = Some x -> live x = false) s.
Proof.
  apply wp_and; [by apply keeps_files_delete_snapshot|]. unfold delete_snapshot, require_admin_enabled, parse_uuid.
  wp_step. wp_step. destruct (admin_deletion_enabled st) eqn:Ea; simpl; [|split; [by left|done]].
  wp_step. wp_step. destruct (parse_str id) as [cid|] eqn:Eid; simpl; [|split; [by left|done]].
  wp_step. wp_step. destruct (deletion_reason payload) as [reason|e] eqn:Er; simpl; [|split; [by left|done]].
  wp_step. wp_step; simpl; [intros x; split; [by left|done]|].
  wp_step. wp_step. destruct (snapshot_deletion_row cid (db s)) as [[snap m]|] eqn:Erow; simpl; [|split; [by left|done]].
  pose proof (snapshot_deletion_row_id _ _ _ _ Erow) as Hid.
  wp_step. wp_step. destruct (confirm_snapshot_deletion _ _ _ _) as [[]|e] eqn:Ec; simpl; [|split; [by left|done]].
  rewrite Hid in Ec. destruct (live snap) eqn:El; simpl; cycle 1.
  { eapply wp_mono; [|apply tombstone_response_spec]. intros r s' [-> Hr]. split; [by left|].
    intros resp Eresp. split; [done|]. exists cid. split_and!; [done|by apply Hr|].
    unfold snapshot_deletion_row in Erow. apply bind_Some in Erow as (y & Ey & (z & _ & [= -> ->])%bind_Some).
    intros x. rewrite Ey. by intros [= <-]. }
  wp_step. wp_step; simpl; [intros x; split; [by left|done]|]. wp_step. wp_step. rewrite Erow. simpl.
  wp_step. wp_step. rewrite Hid, Ec. simpl. rewrite El. simpl.
  wp_step. wp_step; simpl; [intros x; split; [by left|done]|].
  wp_step. wp_step. intros when. simpl. wp_step. wp_step. destruct (format_rfc3339 when) as [at_|] eqn:Eat; simpl; [|split; [by left|done]].
  wp_step. wp_step. destruct (format_rfc3339 (expiration_time _ _)) as [el|] eqn:Eel; simpl; [|split; [by left|done]].
  wp_step. wp_step. simpl. wp_step. wp_step. simpl. wp_step. wp_step; simpl; [intros x; split; [by left|done]|].
  eapply wp_mono; [|apply delete_transaction_spec; [exact Erow|exact El]].
  intros r s1 Hr. destruct r as [x|e]; simpl; [|split; [by left|done]]. destruct (Hr x eq_refl) as (-> & t & a & Et & Hrt).
  split; [|intros x; split; [by left|done]]. simpl.
  eapply wp_mono; [|apply tombstone_response_spec]. intros r s' [-> Hresp].
  assert (Hc : confirmed_retirement cid headers payload (db s) (db s1)).
  { exists when, snap, m, t, a, el, reason. by rewrite Et. }
  split; [right; split; [done|by exists cid]|]. intros resp Eresp. split; [done|]. exists cid.
  split_and!; [done|by apply Hresp|]. by eapply retired_not_live.
Qed.

(** C8: deleting a snapshot touches no file, and touches the metadata only
    where deletion is enabled and the request confirms this very snapshot and
    fingerprint; then the snapshot, live until now, is retired as a whole:
    tombstone, audit, mark, artifact rows, blob schedule, latest context.
    A successful answer is the tombstone on record, and the snapshot is not
    live any more; deleting it again changes nothing. *)
Theorem delete_snapshot_effects id headers payload s :
  wp (delete_snapshot st id headers payload) (fun r s' =>
    files s' = files s
    /\ (db s' = db s
        \/ (admin_deletion_enabled st = true /\ exists cid, parse_str id = Some cid
            /\ confirmed_retirement cid headers payload (db s) (db s')))
    /\ forall resp, r = Ok resp -> admin_deletion_enabled st = true /\ exists cid, parse_str id = Some cid
        /\ tombstone_answers cid (db s') resp
        /\ forall x, snapshot_by_id cid (db s') = Some x -> live x = false) s.
Proof. exact (delete_snapshot_spec id headers payload s). Qed.
End Retiring.
