(* ===== verification/Collection.v ===== *)
(** Garbage collection of blobs: what a pass may take whatever fails, and what
    it does take when nothing does. *)
From stdpp Require Import prelude strings gmap sorting list.
From Stdlib Require Import ZArith Ascii Lia.
From Stdlib.Strings Require Import Byte.
From S2P Require Import Prelude Errors Contract Externals Validation Chunks Fingerprint Pagination.
From S2P Require Import Tables Store Storage Uploads Receipts Completion Deletion Archive.
From S2P Require Import Invariants Publication Reclamation.

(** A blob the pass may take: its grace period is over, nothing live needs it. *)
Definition collectable (now_seq : Z) (d : Db) (b : Blob.row) : Prop :=
  gc_eligible now_seq b = true /\ has_live_reference (Blob.id b) d = false.

(** Only the table of blobs differs. *)
Definition same_but_blobs (d d' : Db) : Prop := with_blobs (fun _ => []) d' = with_blobs (fun _ => []) d.
Lemma same_but_blobs_with f d : same_but_blobs d (with_blobs f d).
Proof. done. Qed.
Lemma same_but_blobs_trans d1 d2 d3 : same_but_blobs d1 d2 -> same_but_blobs d2 d3 -> same_but_blobs d1 d3.
Proof. unfold same_but_blobs. congruence. Qed.
Lemma same_references d d' : same_but_blobs d d' ->
  artifact_rows d' = artifact_rows d /\ snapshots d' = snapshots d.
Proof. intros E. split; [exact (f_equal artifact_rows E)|exact (f_equal snapshots E)]. Qed.
Lemma has_live_reference_same d d' id : same_but_blobs d d' -> has_live_reference id d' = has_live_reference id d.
Proof.
  intros [Ea Es]%same_references. unfold has_live_reference, live_reference, live_snapshot_by_id. by rewrite Ea, Es.
Qed.

Lemma blob_id_inj (l : list Blob.row) b b' : NoDup (Blob.id <$> l) -> b ∈ l -> b' ∈ l -> Blob.id b = Blob.id b' -> b = b'.
Proof. apply NoDup_key_inj. Qed.

(** What a pass may do to the store. *)
Record collected (now_seq : Z) (s s' : Store) : Prop := {
  co_tables : same_but_blobs (db s) (db s');
  co_ids : (Blob.id <$> blobs (db s')) `sublist_of` (Blob.id <$> blobs (db s));
  co_from : forall b', b' ∈ blobs (db s') -> exists b, b ∈ blobs (db s)
            /\ (b' = b \/ b' = Blob.set_orphan None None None b);
  co_kept : forall b, b ∈ blobs (db s) ->
            Blob.id b ∈ Blob.id <$> blobs (db s') \/ collectable now_seq (db s) b;
  co_files : forall p, files s' !! p = files s !! p
             \/ (files s' !! p = None /\ exists b, b ∈ blobs (db s) /\ collectable now_seq (db s) b
                 /\ p = blob_path (Blob.stored_sha256 b));
}.

Lemma collected_refl now_seq s : collected now_seq s s.
Proof. split; try done; eauto. intros b Hb. left. by apply list_elem_of_fmap_2. Qed.

Lemma collectable_back now_seq s s' b : collected now_seq s s' -> b ∈ blobs (db s') -> collectable now_seq (db s') b ->
  b ∈ blobs (db s) /\ collectable now_seq (db s) b.
Proof.
  intros [Ht _ Hf _ _] Hb [He Hl]. destruct (Hf b Hb) as (b0 & Hb0 & [-> | ->]); [|done].
  split; [done|]. split; [done|]. by rewrite <-(has_live_reference_same _ _ _ Ht).
Qed.

Lemma collected_trans now_seq s1 s2 s3 : NoDup (Blob.id <$> blobs (db s1)) ->
  collected now_seq s1 s2 -> collected now_seq s2 s3 -> collected now_seq s1 s3.
Proof.
  intros Hnd H12 H23. pose proof H12 as [T1 I1 F1 K1 P1]. pose proof H23 as [T2 I2 F2 K2 P2]. split.
  - by eapply same_but_blobs_trans.
  - by transitivity (Blob.id <$> blobs (db s2)).
  - intros b3 (b2 & Hb2 & E2)%F2. destruct (F1 b2 Hb2) as (b1 & Hb1 & E1). exists b1. split; [done|].
    destruct E1 as [-> | ->], E2 as [-> | ->]; auto.
  - intros b Hb. destruct (K1 b Hb) as [Hin|]; [|by right]. apply list_elem_of_fmap in Hin as (b2 & Eid & Hb2).
    destruct (K2 b2 Hb2) as [?|Hc]; [left; by rewrite Eid|]. right.
    destruct (collectable_back _ _ _ _ H12 Hb2 Hc) as [Hb2' Hc'].
    by rewrite (blob_id_inj _ b b2 Hnd Hb Hb2' Eid).
  - intros p. destruct (P2 p) as [->|(E & b & Hb & Hc & ->)].
    + apply P1.
    + right. split; [done|]. exists b. destruct (collectable_back _ _ _ _ H12 Hb Hc). by split_and!.
Qed.

Section Any.
Context `{EV : Env} `{UL : UuidLib} `{TL : TimeLib} `{SL : ShaLib} `{ZL : ZstdLib} `{JL : JsonLib}.

Definition named (d : Db) (candidate : Blob.row) : Prop :=
  forall b, b ∈ blobs d -> Blob.id b = Blob.id candidate -> Blob.stored_sha256 b = Blob.stored_sha256 candidate.
Lemma named_collected now_seq s s' c : collected now_seq s s' -> named (db s) c -> named (db s') c.
Proof. intros [_ _ Hf _ _] Hn b' Hb'. destruct (Hf b' Hb') as (b & Hb & [-> | ->]); apply (Hn b Hb). Qed.

Lemma collected_delete now_seq s b d n : NoDup (Blob.id <$> blobs (db s)) ->
  b ∈ blobs (db s) -> collectable now_seq (db s) b -> delete_blob (Blob.id b) (db s) = Some (d, n) ->
  forall f, (forall p, f !! p = files s !! p \/ (f !! p = None /\ p = blob_path (Blob.stored_sha256 b))) ->
  collected now_seq s (mkStore d f (drawn s)).
Proof.
  intros Hnd Hb Hc Ed f Hf. unfold delete_blob in Ed. destruct (existsb _ (blobs (db s))); [done|].
  injection Ed as <- _. split; simpl.
  - apply same_but_blobs_with.
  - apply sublist_fmap, sublist_filter.
  - intros b' [_ ?]%elem_of_delete. eauto.
  - intros r Hr. destruct (eqs (Blob.id r) (Blob.id b)) eqn:E.
    + right. apply eqs_true in E. by rewrite (blob_id_inj _ r b Hnd Hr Hb E).
    + left. apply list_elem_of_fmap_2, elem_of_delete. by rewrite E.
  - intros p. destruct (Hf p) as [->|[E ->]]; [by left|]. right. split; [done|]. by exists b.
Qed.

Lemma gc_transaction_takes now_seq c s : NoDup (Blob.id <$> blobs (db s)) -> named (db s) c ->
  wp (transaction gc_err gc_err (gc_transaction now_seq c)) (fun _ s' => collected now_seq s s') s.
Proof.
  intros Hnd Hc. pose proof (collected_refl now_seq s) as Hrefl.
  assert (Hself : collected now_seq s (mkStore (db s) (files s) (drawn s))) by by destruct s.
  wp_step; [done|]. unfold gc_transaction. wp_step. wp_step; simpl; [done|].
  destruct (select_one _ _) as [b|] eqn:Eb; [|wp_step; simpl; by split].
  apply select_one_Some in Eb as [[Eid%eqs_true Eel]%andb_true_iff Hb].
  wp_step. wp_step; simpl; [done|]. destruct (has_live_reference _ _) eqn:Elive.
  - wp_step. wp_step; simpl; [done|]. intros d [] [= <-]. wp_step. split; [|done]. split; simpl.
    + apply same_but_blobs_with.
    + assert (E : Blob.id <$> update (fun r => eqs (Blob.id r) (Blob.id b)) (Blob.set_orphan None None None) (blobs (db s))
                  = Blob.id <$> blobs (db s)); [|by rewrite E].
      unfold update. change (map ?g ?l) with (g <$> l). rewrite <-list_fmap_compose. apply list_fmap_ext.
      intros _ r _. simpl. by destruct (eqs _ _).
    + intros b' [(q & Hq & _ & ->)|[_ ?]]%elem_of_update; eauto.
    + intros r Hr. left. destruct (eqs (Blob.id r) (Blob.id b)) eqn:E.
      * change (Blob.id r) with (Blob.id (Blob.set_orphan None None None r)). apply list_elem_of_fmap_2.
        apply elem_of_update. left. by exists r.
      * apply list_elem_of_fmap_2, elem_of_update. by right.
    + by left.
  - assert (Hcol : collectable now_seq (db s) b) by done.
    assert (Esha : Blob.stored_sha256 c = Blob.stored_sha256 b) by (symmetry; by apply Hc).
    wp_step. wp_step; simpl; [done|]. intros d n Edel.
    destruct (n =? 1).
    + wp_step. wp_step; simpl; [done|]. wp_step. rewrite Esha.
      assert (Hdel : forall p, delete (blob_path (Blob.stored_sha256 b)) (files s) !! p = files s !! p
         \/ (delete (blob_path (Blob.stored_sha256 b)) (files s) !! p = None /\ p = blob_path (Blob.stored_sha256 b))).
      { intros p. destruct (decide (p = blob_path (Blob.stored_sha256 b))) as [->|Hne].
        - right. by rewrite lookup_delete_eq.
        - left. by rewrite lookup_delete_ne. }
      split; [by eapply collected_delete|]. intros _. split; simpl; try apply Hrefl.
      intros p. destruct (Hdel p) as [?|[? ->]]; [by left|]. right. split; [done|]. by exists b.
    + wp_step. split; [|done]. eapply collected_delete; try done. by left.
Qed.

Lemma gc_loop_takes now_seq candidates : forall deleted s,
  NoDup (Blob.id <$> blobs (db s)) -> Forall (named (db s)) candidates ->
  wp (gc_loop now_seq candidates deleted) (fun _ s' => collected now_seq s s') s.
Proof.
  induction candidates as [|c cs IH]; intros deleted s Hnd Hcs; simpl.
  - wp_step. apply collected_refl.
  - apply Forall_cons in Hcs as [Hc Hcs]. wp_step. eapply wp_mono; [|by apply gc_transaction_takes].
    intros [removed|e] s1 H1; simpl; [|done]. wp_step. wp_step. destruct (to_u32 _); simpl; [|done].
    eapply wp_mono; [|apply IH].
    + intros r s2 H2. by eapply collected_trans.
    + eapply sublist_NoDup; [exact Hnd|apply H1].
    + eapply Forall_impl; [exact Hcs|]. intros x. by apply (named_collected now_seq s).
Qed.

Lemma elem_of_gc_candidates now_seq d c : c ∈ gc_candidates now_seq d -> c ∈ blobs d /\ gc_eligible now_seq c = true.
Proof.
  unfold gc_candidates. intros Hc. eapply elem_of_sublist in Hc; [|apply sublist_take].
  rewrite merge_sort_Permutation in Hc. by apply elem_of_select in Hc as [? ?].
Qed.
Lemma gc_candidates_named now_seq d : NoDup (Blob.id <$> blobs d) -> Forall (named d) (gc_candidates now_seq d).
Proof.
  intros Hnd. apply Forall_forall. intros c [Hc _]%elem_of_gc_candidates b Hb E.
  by rewrite (blob_id_inj _ b c Hnd Hb Hc E).
Qed.

(** C10: whatever fails, a collection takes only blobs whose grace period is
    over and that nothing live refers to: every other row stays, every other
    file is as it was, and no other table changes. *)
Theorem collect_orphaned_blobs_takes t s : NoDup (Blob.id <$> blobs (db s)) ->
  wp (collect_orphaned_blobs_at t) (fun _ s' => collected (sort_key_from_timestamp t) s s') s.
Proof.
  intros Hnd. unfold collect_orphaned_blobs_at. wp_step. wp_step; simpl; [intros; apply collected_refl|].
  wp_step. eapply wp_mono; [|apply gc_loop_takes; [done|by apply gc_candidates_named]].
  intros [k|e] s' Hs'; simpl; [|done]. wp_step. wp_step. destruct (to_u32 _); simpl; [by wp_step|done].
Qed.
End Any.

(* ------------------------------------------------------------------ *)
(** ** When nothing fails *)

(** The rows and files a pass over [cs] leaves of the blobs of [d]. *)
Definition swept_row (cs : list Blob.row) (d : Db) (b : Blob.row) : option Blob.row :=
  if existsb (fun c => eqs (Blob.id b) (Blob.id c)) cs
  then if has_live_reference (Blob.id b) d then Some (Blob.set_orphan None None None b) else None
  else Some b.
Definition swept_file (cs : list Blob.row) (d : Db) (p : path) : bool :=
  existsb (fun c => bool_decide (p = blob_path (Blob.stored_sha256 c)) && negb (has_live_reference (Blob.id c) d)) cs.
Definition taken (cs : list Blob.row) (d : Db) : Z :=
  Z.of_nat (length (filter (fun c => has_live_reference (Blob.id c) d = false) cs)).

(** The pass over [cs] did all its work. *)
Record swept (cs : list Blob.row) (s s' : Store) : Prop := {
  sw_rows : db s' = with_blobs (omap (swept_row cs (db s))) (db s);
  sw_files : forall p, files s' !! p = if swept_file cs (db s) p then None else files s !! p;
}.

Lemma omap_omap {A B C} (f : B -> option C) (g : A -> option B) (l : list A) :
  omap f (omap g l) = omap (fun x => g x ≫= f) l.
Proof. induction l as [|x l IH]; [done|]. cbn. destruct (g x); cbn; [by rewrite IH|exact IH]. Qed.
Lemma swept_row_cons c cs d b : swept_row (c :: cs) d b = swept_row [c] d b ≫= swept_row cs d.
Proof.
  unfold swept_row. cbn [existsb]. rewrite orb_false_r. destruct (eqs (Blob.id b) (Blob.id c)); [|done]. simpl.
  destruct (has_live_reference (Blob.id b) d) eqn:E; [|done]. simpl. rewrite E. by destruct (existsb _ cs).
Qed.

Lemma swept_cons c cs s s1 s2 : swept [c] s s1 -> swept cs s1 s2 -> swept (c :: cs) s s2.
Proof.
  intros [R1 F1] [R2 F2].
  assert (Ht : same_but_blobs (db s) (db s1)) by by rewrite R1.
  assert (Hl : forall id, has_live_reference id (db s1) = has_live_reference id (db s))
    by (intros id; by apply has_live_reference_same).
  split.
  - rewrite R2, R1. unfold with_blobs. cbn. f_equal. rewrite omap_omap. apply list_omap_ext, Forall_Forall2_diag, Forall_forall.
    intros b _. symmetry. exact (swept_row_cons c cs (db s) b).
  - intros p. rewrite F2, F1. unfold swept_file. simpl. rewrite orb_false_r.
    assert (E : existsb (fun c0 => bool_decide (p = blob_path (Blob.stored_sha256 c0)) && negb (has_live_reference (Blob.id c0) (db s1))) cs
      = existsb (fun c0 => bool_decide (p = blob_path (Blob.stored_sha256 c0)) && negb (has_live_reference (Blob.id c0) (db s))) cs).
    { clear -Hl. induction cs as [|x xs IH]; simpl; [done|]. by rewrite Hl, IH. }
    rewrite E. destruct (bool_decide _ && _); simpl; [|done]. by case_match.
Qed.

Section Calm.
Context `{EV : Env} `{UL : UuidLib} `{TL : TimeLib} `{SL : ShaLib} `{ZL : ZstdLib} `{JL : JsonLib}.
Hypothesis calm : forall n, fails n = None.

Lemma wp_operation_calm {E A} (err : SqlxError -> E) (k : M E A) Q s : wp k Q s -> wp (operation err k) Q s.
Proof. intros Hk n. unfold operation. rewrite calm. apply Hk. Qed.
Lemma wp_query_calm {E A} (err : SqlxError -> E) (f : Db -> A) Q s : Q (Ok (f (db s))) s -> wp (query err f) Q s.
Proof. intros HQ. apply wp_operation_calm. by intros n. Qed.
Lemma wp_execute_calm {E A} (err : SqlxError -> E) (f : Db -> option (Db * A)) d a Q s : f (db s) = Some (d, a) ->
  Q (Ok a) (mkStore d (files s) (drawn s)) -> wp (execute err f) Q s.
Proof. intros Ef HQ. apply wp_operation_calm. intros n. by rewrite Ef. Qed.
Lemma wp_remove_file_calm {E} (e : E) p Q s : files s !! p <> Some Directory ->
  Q (Ok tt) (mkStore (db s) (delete p (files s)) (drawn s)) -> wp (remove_file e p) Q s.
Proof. intros Hp HQ. apply wp_operation_calm. intros n. by destruct (files s !! p) as [[]|]. Qed.
Lemma wp_transaction_calm {E A} (b e : SqlxError -> E) (body : M E (TxEnd A)) Q s :
  wp body (fun r s' => exists a, r = Ok (Commit a) /\ Q (Ok a) s') s -> wp (transaction b e body) Q s.
Proof.
  intros Hb. apply wp_operation_calm. intros n. destruct (Hb n) as (a & Ea & HQ). simpl in *.
  destruct (body (s, n)) as [r [s' n']]. simpl in *. subst r. rewrite calm. exact HQ.
Qed.

Lemma select_key (l : list Blob.row) c : NoDup (Blob.id <$> l) -> c ∈ l ->
  forall p, p c = true -> select (fun b => eqs (Blob.id b) (Blob.id c) && p b) l = [c].
Proof.
  intros Hnd Hc p Hp. induction l as [|b l IH]; [by apply elem_of_nil in Hc|].
  apply NoDup_cons in Hnd as [Hb Hnd]. unfold select in *. rewrite filter_cons. destruct (eqs (Blob.id b) (Blob.id c)) eqn:E.
  - apply eqs_true in E. apply elem_of_cons in Hc as [->|Hc].
    + rewrite Hp. simpl. f_equal. apply list_filter_none. intros b' Hb'. destruct (eqs (Blob.id b') (Blob.id b)) eqn:E'; [|done].
      exfalso. apply Hb. apply eqs_true in E' as <-. by apply list_elem_of_fmap_2.
    + exfalso. apply Hb. rewrite E. by apply list_elem_of_fmap_2.
  - simpl. apply elem_of_cons in Hc as [->|Hc]; [by rewrite eqs_refl in E|]. by apply IH.
Qed.

Lemma swept_one c d (l : list Blob.row) :
  (if has_live_reference (Blob.id c) d
   then update (fun r => eqs (Blob.id r) (Blob.id c)) (Blob.set_orphan None None None) l
   else delete_where (fun b => eqs (Blob.id b) (Blob.id c) && negb (has_live_reference (Blob.id b) d)) l)
  = omap (swept_row [c] d) l.
Proof.
  induction l as [|b l IH]; [by destruct (has_live_reference _ _)|]. cbn [omap list_omap].
  unfold swept_row at 1. cbn [existsb]. rewrite orb_false_r. rewrite <-IH.
  destruct (has_live_reference (Blob.id c) d) eqn:El; unfold update, delete_where; cbn [map].
  - destruct (eqs (Blob.id b) (Blob.id c)) eqn:E; [|done]. apply eqs_true in E. by rewrite E, El.
  - rewrite filter_cons. destruct (eqs (Blob.id b) (Blob.id c)) eqn:E; [|done]. apply eqs_true in E. by rewrite E, El.
Qed.

(** Every artifact row belongs to a live snapshot, and no directory sits where
    the file of [c] would be. *)
Definition artifacts_live (d : Db) : Prop :=
  forall a, a ∈ artifact_rows d -> is_Some (live_snapshot_by_id (ArtifactRow.snapshot_id a) d).
Definition no_directory (s : Store) (c : Blob.row) : Prop :=
  files s !! blob_path (Blob.stored_sha256 c) <> Some Directory.

Lemma delete_blob_calm d c : NoDup (Blob.id <$> blobs d) -> c ∈ blobs d -> artifacts_live d ->
  has_live_reference (Blob.id c) d = false ->
  delete_blob (Blob.id c) d = Some (with_blobs (omap (swept_row [c] d)) d, 1).
Proof.
  intros Hnd Hc Hl Hr. unfold delete_blob.
  assert (E : existsb (fun b => eqs (Blob.id b) (Blob.id c) && negb (has_live_reference (Blob.id b) d)
     && existsb (fun a => eqs (ArtifactRow.blob_id a) (Blob.id b)) (artifact_rows d)) (blobs d) = false).
  { apply existsb_false. intros b _. apply not_true_iff_false. intros [[E%eqs_true _]%andb_true_iff Ha]%andb_true_iff.
    apply existsb_true in Ha as (a & Ha & Eb). unfold has_live_reference in Hr. rewrite existsb_false in Hr.
    specialize (Hr a Ha). rewrite <-E, Eb in Hr. unfold live_reference in Hr.
    by rewrite bool_decide_true in Hr by by apply Hl. }
  rewrite E. f_equal. f_equal.
  - unfold with_blobs. f_equal. rewrite <-swept_one, Hr. done.
  - rewrite (select_key (blobs d) c Hnd Hc (fun b => negb (has_live_reference (Blob.id b) d))); [done|]. by rewrite Hr.
Qed.

Lemma gc_transaction_calm now_seq c s : NoDup (Blob.id <$> blobs (db s)) -> c ∈ blobs (db s) ->
  gc_eligible now_seq c = true -> artifacts_live (db s) -> no_directory s c ->
  wp (transaction gc_err gc_err (gc_transaction now_seq c)) (fun r s' => r = Ok (taken [c] (db s)) /\ swept [c] s s') s.
Proof.
  intros Hnd Hc He Hl Hdir. apply wp_transaction_calm. unfold gc_transaction, taken.
  wp_step. apply wp_query_calm. simpl. unfold select_one.
  rewrite (select_key _ c Hnd Hc (gc_eligible now_seq)) by done. simpl.
  wp_step. apply wp_query_calm. simpl. rewrite filter_cons, filter_nil.
  pose proof (swept_one c (db s) (blobs (db s))) as Hone.
  destruct (has_live_reference (Blob.id c) (db s)) eqn:Elive; simpl.
  - wp_step. eapply wp_execute_calm; [reflexivity|]. simpl. wp_step. exists 0. split; [done|]. split; [done|]. split; simpl.
    + unfold with_blobs. by rewrite Hone.
    + intros p. unfold swept_file. simpl. by rewrite Elive, andb_false_r.
  - wp_step. eapply wp_execute_calm; [by apply delete_blob_calm|]. simpl. wp_step.
    apply wp_remove_file_calm; [done|]. simpl. wp_step. exists 1. split; [done|]. split; [done|]. split; [done|].
    intros p. unfold swept_file. simpl. rewrite Elive. simpl. rewrite andb_true_r, orb_false_r.
    case_bool_decide as Ep; [subst p; by rewrite lookup_delete_eq|]. by rewrite lookup_delete_ne.
Qed.

Lemma taken_cons c cs d d1 : same_but_blobs d d1 -> taken (c :: cs) d = taken [c] d + taken cs d1.
Proof.
  intros Ht. unfold taken.
  assert (E : filter (fun c0 => has_live_reference (Blob.id c0) d1 = false) cs
              = filter (fun c0 => has_live_reference (Blob.id c0) d = false) cs).
  { induction cs as [|x cs IH]; [done|]. rewrite !filter_cons, IH. by rewrite (has_live_reference_same _ _ _ Ht). }
  rewrite E, !filter_cons, filter_nil. destruct (has_live_reference (Blob.id c) d); simpl; lia.
Qed.
Lemma taken_bounds cs d : 0 <= taken cs d <= Z.of_nat (length cs).
Proof. unfold taken. pose proof (length_filter (fun c => has_live_reference (Blob.id c) d = false) cs). lia. Qed.

Lemma gc_loop_calm now_seq cs : forall k s,
  NoDup (Blob.id <$> blobs (db s)) -> NoDup (Blob.id <$> cs) -> artifacts_live (db s) ->
  (forall c, c ∈ cs -> c ∈ blobs (db s) /\ gc_eligible now_seq c = true /\ no_directory s c) ->
  0 <= k -> k + Z.of_nat (length cs) <= u32_max ->
  wp (gc_loop now_seq cs k) (fun r s' => r = Ok (k + taken cs (db s)) /\ swept cs s s') s.
Proof.
  induction cs as [|c cs IH]; intros k s Hnd Hncs Hl Hcs Hk Hmax; cbn [gc_loop].
  - wp_step. unfold taken. rewrite filter_nil. split; [f_equal; simpl; lia|]. split; [|done].
    assert (E : forall l : list Blob.row, omap (swept_row [] (db s)) l = l) by (intros l; induction l as [|b l IHl]; [done|cbn; by rewrite IHl]).
    unfold with_blobs. rewrite E. by destruct (db s).
  - apply NoDup_cons in Hncs as [Hc Hncs]. destruct (Hcs c ltac:(left)) as (Hin & He & Hdir).
    assert (Hname : named (db s) c) by (intros b Hb E; by rewrite (blob_id_inj _ b c Hnd Hb Hin E)).
    wp_step. eapply wp_mono; [|apply wp_and; [by apply gc_transaction_calm|by apply (gc_transaction_takes now_seq)]].
    intros r s1 [[-> H1] Htakes]. simpl. pose proof H1 as [R1 F1].
    assert (Ht : same_but_blobs (db s) (db s1)) by by rewrite R1.
    pose proof (taken_bounds [c] (db s)) as Hb1. pose proof (taken_bounds cs (db s1)) as Hb2.
    cbn [length] in Hb1, Hmax. wp_step. wp_step.
    assert (E : to_u32 (k + taken [c] (db s)) = Some (k + taken [c] (db s))).
    { unfold to_u32. rewrite (proj2 (Z.leb_le 0 _)), (proj2 (Z.leb_le _ u32_max)) by lia. done. }
    rewrite E. simpl. eapply wp_mono; [|apply IH].
    + intros r s2 [-> H2]. split; [rewrite (taken_cons c cs _ _ Ht); f_equal; lia|by eapply swept_cons].
    + eapply sublist_NoDup; [exact Hnd|apply Htakes].
    + done.
    + destruct (same_references _ _ Ht) as [Ea Es]. intros a. unfold artifacts_live, live_snapshot_by_id in *. rewrite Ea, Es. apply Hl.
    + intros x Hx. destruct (Hcs x ltac:(by right)) as (Hxin & Hxe & Hxd). split_and!; [|done|].
      * rewrite R1. simpl. apply list_elem_of_omap. exists x. split; [done|]. unfold swept_row. simpl. rewrite orb_false_r.
        destruct (eqs (Blob.id x) (Blob.id c)) eqn:Ex; [|done]. exfalso. apply Hc. apply eqs_true in Ex as <-.
        by apply list_elem_of_fmap_2.
      * unfold no_directory in *. rewrite F1. by destruct (swept_file _ _ _).
    + lia.
    + lia.
Qed.

Lemma gc_candidates_NoDup now_seq d : NoDup (Blob.id <$> blobs d) -> NoDup (Blob.id <$> gc_candidates now_seq d).
Proof.
  intros Hnd. unfold gc_candidates. eapply sublist_NoDup; [|apply sublist_fmap, sublist_take].
  rewrite merge_sort_Permutation. eapply sublist_NoDup; [exact Hnd|]. apply sublist_fmap, sublist_filter.
Qed.

(** The first two conditions below hold of every sound archive. *)
Lemma archive_sound_collects owner s : archive_sound owner s ->
  NoDup (Blob.id <$> blobs (db s)) /\ artifacts_live (db s).
Proof.
  intros Ha. split; [|exact (as_live _ _ Ha)]. pose proof (as_ids _ _ Ha) as Hn.
  unfold stored_blobs in Hn. by rewrite <-list_fmap_compose in Hn.
Qed.

(** C32: when nothing fails, a collection handles every candidate of its batch:
    the row and the file of each one that nothing live refers to are gone, the
    row of each one that is referred to again has its schedule cleared (the time
    it was orphaned and the end of its grace), so that neither is a candidate any
    more; no other row or file changes, and the answer counts both exactly.  This
    takes that the identifiers of the blobs are distinct and every artifact row is
    of a live snapshot, as in every sound archive, and that no directory sits
    where the file of a blob would be. *)
Theorem collect_orphaned_blobs_complete t s :
  NoDup (Blob.id <$> blobs (db s)) -> artifacts_live (db s) ->
  (forall c, c ∈ blobs (db s) -> no_directory s c) ->
  let cs := gc_candidates (sort_key_from_timestamp t) (db s) in
  wp (collect_orphaned_blobs_at t) (fun r s' =>
    r = Ok {| inspected_blobs := Z.of_nat (length cs); deleted_blobs := taken cs (db s) |} /\ swept cs s s') s.
Proof.
  intros Hnd Hl Hdir cs. set (q := sort_key_from_timestamp t) in *.
  assert (Hlen : (length cs <= 256)%nat).
  { unfold cs, gc_candidates. rewrite length_take. unfold GC_BATCH_SIZE. lia. }
  unfold collect_orphaned_blobs_at. fold q. wp_step. apply wp_query_calm. simpl. fold cs.
  wp_step. eapply wp_mono; [|apply gc_loop_calm; [done|by apply gc_candidates_NoDup|done| |lia|unfold u32_max; lia]].
  - intros r s' [-> Hs']. simpl. wp_step. wp_step. unfold to_u32.
    rewrite (proj2 (Z.leb_le 0 _)), (proj2 (Z.leb_le _ u32_max)) by (unfold u32_max; lia). simpl. by wp_step.
  - intros c Hc. destruct (elem_of_gc_candidates _ _ _ Hc). split_and!; [done|done|by apply Hdir].
Qed.
End Calm.
