(* ===== verification/System.v ===== *)
(** The server as a state machine: every request, in every environment, at any
    point where it may fail or be cut short, is one step of the store; what
    the reachable stores guarantee. *)
From stdpp Require Import prelude strings gmap sorting list relations.
From Stdlib Require Import ZArith Ascii Lia.
From Stdlib.Strings Require Import Byte.
From S2P Require Import Prelude Errors Contract Externals Validation Chunks Fingerprint Pagination.
From S2P Require Import Tables Store Storage Uploads Receipts Completion Deletion Recovery Archive.
From S2P Require Import Invariants Assembly Publication Reclamation Visibility Lifecycle Ledger Restart.

(** The requests and maintenance calls that reach the store; a restart runs
    the recovery pass on it. *)
Inductive Request : Type :=
| RegisterClient (client_id : string) (payload : option RegisterClientRequest)
| CreateUpload (payload : option CreateUploadRequest)
| GetUploadStatus (upload_id : string)
| PutArtifactChunk (upload_id artifact_index chunk_index : string) (headers : HeaderMap) (body : list Frame)
| AbandonUpload (upload_id : string)
| CompleteUpload (upload_id : string)
| ExpireUploads (at_ : OffsetDateTime)
| DeleteSnapshot (snapshot_id : string) (headers : HeaderMap) (payload : option DeleteSnapshotRequest)
| GetTombstone (snapshot_id : string)
| RunBlobGc
| CollectOrphans (at_ : OffsetDateTime)
| Restart.

(** Everything but the identity of the archive. *)
Definition nameless (d : Db) : Db := with_archive_metadata (fun _ => []) d.

(** What the deserializer guarantees of a request: its sizes are [u64]. *)
Definition request_typed (r : Request) : Prop :=
  match r with
  | CreateUpload (Some request) => input_typed (cu_manifest request)
  | _ => True
  end.

Section System.
Context `{UL : UuidLib} `{TL : TimeLib} `{ML : MimeLib} `{SL : ShaLib} `{ZL : ZstdLib} `{JL : JsonLib}.
Context (st : AppState).

Definition outcome {E A} (m : M E A) (w : Store * nat) : Store := (m w).2.1.

(** The store a request leaves behind. *)
Definition serve (EV : Env) (r : Request) (w : Store * nat) : Store :=
  match r with
  | RegisterClient id payload => outcome (register_client st id payload) w
  | CreateUpload payload => outcome (create_upload st payload) w
  | GetUploadStatus u => outcome (get_upload_status u) w
  | PutArtifactChunk u a i headers body => outcome (put_artifact_chunk u a i headers body) w
  | AbandonUpload u => outcome (abandon_upload u) w
  | CompleteUpload u => outcome (complete_upload st u) w
  | ExpireUploads t => outcome (expire_uploads_at t) w
  | DeleteSnapshot id headers payload => outcome (delete_snapshot st id headers payload) w
  | GetTombstone id => outcome (get_tombstone st id) w
  | RunBlobGc => outcome (run_blob_gc st) w
  | CollectOrphans t => outcome (collect_orphaned_blobs_at t) w
  | Restart => outcome (bootstrap_recovery st) w
  end.

(** One request in some environment. *)
Inductive step (s : Store) : Store -> Prop :=
| step_request (EV : Env) (r : Request) (n : nat) :
    request_typed r -> step s (serve EV r (s, n)).
(** A new archive: nothing but its identity. *)
Definition initial (s : Store) : Prop := nameless (db s) = empty_db.
Lemma initial_db s : initial s -> exists l, db s = with_archive_metadata (fun _ => l) empty_db.
Proof. intros E. exists (archive_metadata (db s)). unfold initial in E. rewrite <-E. by destruct (db s). Qed.
Inductive reachable : Store -> Prop :=
| reachable_initial s : initial s -> reachable s
| reachable_step s s' : reachable s -> step s s' -> reachable s'.

Lemma keeps_outcome {EV : Env} (I : Store -> Prop) {E A} (m : M E A) s n : keeps I m -> I s -> I (outcome m (s, n)).
Proof. intros Hm Hs. exact (Hm s Hs n). Qed.

(** A handler that leaves the archive alone keeps the invariants. *)
Lemma restartable_handler {EV : Env} {ULaws : UuidLaws UL} {E A} (m : M E A) :
  keeps chunks_backed m -> (forall s0, keeps (same_archive s0) m) -> keeps manifests_sound m -> keeps ledger m ->
  keeps (restartable st) m.
Proof.
  intros H1 H2 H3 H4 s ((Hc & Ha & Hm) & Hw & Hl).
  eapply wp_mono; [|apply wp_and; [by apply H1|apply wp_and; [by apply (archive_same st _ _ H2)|apply wp_and;
    [by apply H3|apply wp_and; [by apply (keeps_whole_archive _ H2)|by apply H4]]]]].
  intros r s' (? & ? & ? & ? & ?). by split_and!.
Qed.
(** One that changes it, by its parts. *)
Lemma restartable_parts {EV : Env} {E A} (m : M E A) :
  keeps (store_sound (Storage.owner_namespace st)) m -> keeps snapshots_whole m -> keeps ledger m ->
  keeps (restartable st) m.
Proof.
  intros H1 H2 H3 s (Hs & Hw & Hl).
  eapply wp_mono; [|apply wp_and; [by apply H1|apply wp_and; [by apply H2|by apply H3]]]. by intros r s' (? & ? & ?).
Qed.

Context {JLaws : JsonLaws JL} {ULaws : UuidLaws UL}.
Hypothesis Hst : limits_typed (manifest_limits st).

Lemma serve_restartable EV r s n : request_typed r -> restartable st s -> restartable st (serve EV r (s, n)).
Proof.
  intros Hr Hs. destruct r; simpl; (apply keeps_outcome; [|exact Hs]).
  - apply restartable_handler; [apply chunks_register_client|intros; apply same_register_client| |apply ledger_register_client].
    apply keeps_manifests_fewer. intros. apply fewer_register_client.
  - apply restartable_handler; [apply chunks_create_upload|intros; apply same_create_upload| |apply ledger_create_upload].
    apply manifests_create_upload; [done|]. by intros request ->.
  - apply restartable_handler; [apply chunks_get_upload_status|intros; apply same_get_upload_status| |apply ledger_get_upload_status].
    apply keeps_manifests_fewer. intros. apply fewer_get_upload_status.
  - apply restartable_handler; [apply chunks_put_artifact_chunk|intros; apply same_put_artifact_chunk| |apply ledger_put_artifact_chunk].
    apply keeps_manifests_fewer. intros. apply fewer_put_artifact_chunk.
  - apply restartable_handler; [apply chunks_abandon_upload|intros; apply same_abandon_upload| |apply ledger_abandon_upload].
    apply keeps_manifests_fewer. intros. apply fewer_abandon_upload.
  - apply restartable_parts; [apply complete_upload_sound|apply whole_complete_upload|apply ledger_complete_upload].
  - apply restartable_handler; [apply chunks_expire_uploads_at|intros; apply same_expire_uploads_at| |apply ledger_expire_uploads_at].
    apply keeps_manifests_fewer. intros. apply fewer_expire_uploads_at.
  - apply restartable_parts; [apply delete_snapshot_sound|apply whole_delete_snapshot|apply ledger_delete_snapshot].
  - unfold get_tombstone. keeps_tac. apply tombstone_response_reads.
  - apply restartable_parts; [apply run_blob_gc_sound| |]; unfold run_blob_gc; keeps_tac; [apply whole_collect|apply ledger_collect].
  - apply restartable_parts; [apply collect_sound|apply whole_collect|apply ledger_collect].
  - apply restartable_bootstrap_recovery.
Qed.

Lemma reachable_restartable s : reachable s -> restartable st s.
Proof.
  induction 1 as [s Hi|s s' _ IH [EV r n Hr]]; [|by apply serve_restartable].
  apply initial_db in Hi as [l Hi]. split; [split; [|split]|split].
  - intros r. rewrite Hi. by intros ?%elem_of_nil.
  - split; rewrite Hi; try (by constructor); by intros a ?%elem_of_nil.
  - split; rewrite Hi; [by intros row ?%elem_of_nil|constructor].
  - split; rewrite Hi; [by intros a ?%elem_of_nil..|constructor].
  - split; rewrite Hi; [constructor|by intros a ?%elem_of_nil|constructor..].
Qed.

(** Whatever was verified, an identity representation restores its artifact. *)
Lemma artifact_restored f a b : artifact_stored f a b ->
  exists content c, f !! blob_path (sb_digest b) = Some (Regular content)
    /\ measures content (sb_size b) (sb_digest b) /\ parse (sb_compression b) = Some c
    /\ (restores c content (ArtifactRow.original_size_bytes a) (ArtifactRow.original_sha256 a)
        \/ (c = Zstd /\ exists verified, verified <> content /\ measures verified (sb_size b) (sb_digest b)
              /\ restores c verified (ArtifactRow.original_size_bytes a) (ArtifactRow.original_sha256 a))).
Proof.
  intros (_ & (content & Hf & Hm) & c & verified & Hp & Hv & Hr). exists content, c. split_and!; [done..|].
  destruct (decide (verified = content)) as [->|Hne]; [by left|]. destruct c; [left|right; by eauto].
  destruct Hr as (original & -> & Ez & Ed). exists content. split; [done|].
  destruct Hm as [Em1 Em2], Hv as [Ev1 Ev2]. split; congruence.
Qed.

(** C1: in every store the server can reach, whatever failed on the way, a live
    snapshot has exactly the artifacts it announces, and each of them has its
    blob row and its file, with the recorded length and digest; the file
    restores the artifact's original size and digest.  (For a compressed file
    the exception is spelled out: other bytes of the same length and SHA-256
    were the ones decoded and checked.) *)
Theorem live_snapshots_restorable s snap :
  reachable s -> snap ∈ snapshots (db s) -> live snap = true ->
  Z.of_nat (length (artifacts_of (Snapshot.id snap) (db s))) = Snapshot.artifact_count snap
  /\ forall a, a ∈ artifacts_of (Snapshot.id snap) (db s) -> exists b content c,
      b ∈ stored_blobs (db s) /\ sb_id b = ArtifactRow.blob_id a
      /\ files s !! blob_path (sb_digest b) = Some (Regular content)
      /\ measures content (sb_size b) (sb_digest b) /\ parse (sb_compression b) = Some c
      /\ (restores c content (ArtifactRow.original_size_bytes a) (ArtifactRow.original_sha256 a)
          \/ (c = Zstd /\ exists verified, verified <> content /\ measures verified (sb_size b) (sb_digest b)
                /\ restores c verified (ArtifactRow.original_size_bytes a) (ArtifactRow.original_sha256 a))).
Proof.
  intros Hs Hsnap Hl. destruct (reachable_restartable s Hs) as ((_ & [_ _ _ _ HS] & _) & Hw & _). split.
  - by apply Hw.
  - intros a Ha. apply elem_of_select in Ha as [_ Ha]. destruct (HS a Ha) as (b & Hb & Hb_st).
    destruct (artifact_restored _ _ _ Hb_st) as (content & c & ?). exists b, content, c. split; [done|].
    split; [apply Hb_st|done].
Qed.

(** C3: in every store the server can reach, a chunk it accepted for an upload
    that is still open is on disk with the recorded length and digest. *)
Theorem accepted_chunks_on_disk s up r :
  reachable s -> up ∈ uploads (db s) -> status_open (Upload.status up) = true ->
  r ∈ upload_chunks (db s) -> Chunk.upload_id r = Upload.id up ->
  holds_content (files s)
    (artifact_chunk_path (Chunk.upload_id r) (Chunk.artifact_index r) (Chunk.chunk_index r))
    (Chunk.byte_length r) (Chunk.sha256 r).
Proof.
  intros Hs Hup Ho Hr Hid. destruct (reachable_restartable s Hs) as ((Hc & _) & _). destruct (Hc r Hr) as [_ Hb].
  apply Hb. apply existsb_true. exists up. split; [|done]. apply elem_of_select. split; [|done].
  by apply eqs_true.
Qed.

(** C2: in every store the server can reach, restarts included, an identifier
    of an upload is used once: no two uploads share it, and an upload that
    ended, which has an audit, is not there any more and never was opened
    again; both kinds of identifiers are ones the server has drawn. *)
Theorem uploads_stay_distinct s : reachable s ->
  NoDup (upload_ids (db s))
  /\ (forall id, id ∈ upload_ids (db s) -> id ∉ audit_ids (db s))
  /\ Forall (drawn_id (drawn s)) (upload_ids (db s) ++ audit_ids (db s)).
Proof.
  intros Hs. destruct (reachable_restartable s Hs) as (_ & _ & [N E U A]). split_and!; [done..|]. by apply Forall_app.
Qed.
End System.
