(* ===== verification/Filing.v ===== *)
(** The canonical manifests are filed for good: the row a snapshot refers to is
    never deleted or replaced, whatever request or restart comes next.  The
    schema only forbids deleting it (a foreign key); that nothing else changes
    it is read off the statements of the server. *)
From stdpp Require Import prelude strings gmap sorting list.
From Stdlib Require Import ZArith Ascii Lia.
From Stdlib.Strings Require Import Byte.
From S2P Require Import Prelude Errors Contract Externals Validation Chunks Fingerprint Pagination.
From S2P Require Import Tables Store Storage Uploads Receipts Completion Deletion Recovery Archive.
From S2P Require Import Invariants Assembly Publication Reclamation Visibility Catalogue Lifecycle Ledger Restart System.

(** The manifests the snapshots of a store refer to. *)
Definition snapshot_manifests (d : Db) : list string := Snapshot.manifest_id <$> snapshots d.
(** [d'] still refers to the manifests [d] refers to, and has them. *)
Definition files_kept (d d' : Db) : Prop :=
  forall id m, id ∈ snapshot_manifests d -> manifest_by_id id d = Some m ->
    id ∈ snapshot_manifests d' /\ manifest_by_id id d' = Some m.
Lemma files_kept_refl d : files_kept d d.
Proof. by intros id m. Qed.
Lemma files_kept_trans d1 d2 d3 : files_kept d1 d2 -> files_kept d2 d3 -> files_kept d1 d3.
Proof. intros H1 H2 id m Hid Hm. destruct (H1 id m Hid Hm). auto. Qed.

(** The statements that matter. *)
Lemma files_kept_same d d' : manifests d' = manifests d ->
  (forall id, id ∈ snapshot_manifests d -> id ∈ snapshot_manifests d') -> files_kept d d'.
Proof. intros E Hs id m Hid Hm. split; [by apply Hs|]. unfold manifest_by_id in *. by rewrite E. Qed.
Lemma files_kept_insert d conflict row t : insert_row conflict row (manifests d) = Some t ->
  files_kept d (with_manifests (fun _ => t) d).
Proof.
  intros [-> _]%insert_row_Some id m Hid Hm. split; [by destruct d|].
  unfold manifest_by_id in *. simpl. by rewrite select_one_app, Hm.
Qed.
Lemma select_one_delete_other {R} (p q : R -> bool) t : (forall r, r ∈ t -> p r = true -> q r = false) ->
  select_one p (delete_where q t) = select_one p t.
Proof.
  intros H. unfold select_one, select, delete_where. f_equal. induction t as [|r t IH]; [done|].
  specialize (IH (fun x Hx => H x (list_elem_of_further _ _ _ Hx))). specialize (H r (list_elem_of_here _ _)).
  rewrite (filter_cons _ r t). destruct (decide (q r = false)) as [Hq|Hq].
  - rewrite !filter_cons. by destruct (decide (p r = true)); rewrite IH.
  - rewrite IH, filter_cons_False; [done|]. auto.
Qed.
Lemma files_kept_delete u d d' x : delete_manifests u d = Some (d', x) -> files_kept d d'.
Proof.
  unfold delete_manifests. destruct (existsb _ _) eqn:Eb; [done|]. intros [= <- _] id m Hid Hm.
  split; [by destruct d|]. rewrite existsb_false in Eb. unfold manifest_by_id in *. simpl.
  rewrite select_one_delete_other; [done|]. intros r Hr Er%eqs_true. apply eqs_false. intros Eu.
  specialize (Eb r). rewrite elem_of_select, eqs_true in Eb. specialize (Eb (conj Eu Hr)).
  apply orb_false_iff in Eb as [Eb _]. rewrite existsb_false in Eb.
  apply list_elem_of_fmap in Hid as (s & -> & Hs). specialize (Eb s Hs). by apply eqs_false in Eb.
Qed.

Definition filed (s0 s : Store) : Prop := files_kept (db s0) (db s).
#[export] Instance filed_db s0 : DbInvariant (filed s0).
Proof. intros s s' E _. unfold filed. by rewrite E. Qed.

Section Frames.
Context `{EV : Env} `{UL : UuidLib} (s0 : Store).
Lemma keeps_filed_execute {E A} (err : SqlxError -> E) (f : Db -> option (Db * A)) :
  (forall d d' a, f d = Some (d', a) -> files_kept d d') -> keeps (filed s0) (execute err f).
Proof. intros Hf. apply keeps_execute. intros s d a Hs Ex. eapply files_kept_trans; [exact Hs|eauto]. Qed.
Lemma keeps_filed_transaction {E A} (b c : SqlxError -> E) (body : M E (TxEnd A)) :
  keeps (filed s0) body -> keeps (filed s0) (transaction b c body).
Proof.
  intros Hb s Hs. apply wp_transaction; [done|]. eapply wp_mono; [|by apply Hb]. intros r s' Hs'. by destruct r as [[a|a]|e].
Qed.
End Frames.

(** A statement on any other table, and the ones on these two. *)
Ltac filed_execute :=
  let d := fresh "d" in
  apply keeps_filed_execute; intros d; do 2 intro;
  first
    [ by apply files_kept_delete
    | unfold complete_rows, delete_upload; destruct d; simpl; table_cases; intros [= <- <-]; by apply files_kept_same
    | destruct (insert_row _ _ _) eqn:Ei; [|done]; intros [= <- <-]; by eapply files_kept_insert ].
Ltac keeps_filed_tac := repeat
  lazymatch goal with
  | |- keeps _ (execute _ _) => filed_execute
  | |- keeps _ (transaction _ _ _) => apply keeps_filed_transaction
  | |- keeps _ (for_each _ _) => apply keeps_for_each; do 2 intro
  | |- keeps _ (remove_upload_dir _ _) => apply keeps_db_remove_dir_all; apply _
  | _ => keeps_step
  end.

Section Uploads.
Context `{EV : Env} `{UL : UuidLib} `{TL : TimeLib} `{ML : MimeLib} `{SL : ShaLib} `{ZL : ZstdLib} `{JL : JsonLib}.
Context (st : AppState) (s0 : Store).

Lemma filed_terminalize upload reason : keeps (filed s0) (terminalize_upload_locked upload reason).
Proof. unfold terminalize_upload_locked, now_rfc3339, terminalize_transaction. keeps_filed_tac. Qed.
#[local] Hint Resolve filed_terminalize : keeps.
Lemma filed_register_client id payload : keeps (filed s0) (register_client st id payload).
Proof. unfold register_client, now_rfc3339. keeps_filed_tac. Qed.
Lemma filed_expire_uploads_at t : keeps (filed s0) (expire_uploads_at t).
Proof.
  unfold expire_uploads_at. keeps_filed_tac.
  match goal with |- keeps _ (expire_candidates _ ?l _) => generalize 0; induction l as [| x y IH]; intros k end; simpl.
  - keeps_filed_tac.
  - apply keeps_bind; [|intros; apply IH]. unfold expire_candidate, get_active_upload. keeps_filed_tac.
Qed.
Lemma filed_require_active_upload u : keeps (filed s0) (require_active_upload u).
Proof. unfold require_active_upload, get_active_upload. keeps_filed_tac. Qed.
Lemma filed_upload_artifact_statuses upload : keeps (filed s0) (upload_artifact_statuses upload).
Proof.
  unfold upload_artifact_statuses, get_upload_artifacts. keeps_filed_tac.
  match goal with |- keeps _ (statuses_of _ ?l) => induction l as [| x y IH] end; simpl; keeps_filed_tac.
  unfold upload_artifact_status. keeps_filed_tac.
Qed.
#[local] Hint Resolve filed_expire_uploads_at filed_require_active_upload filed_upload_artifact_statuses : keeps.
Lemma filed_get_upload_status u : keeps (filed s0) (get_upload_status u).
Proof.
  unfold get_upload_status, get_active_upload, audit_upload_response, active_upload_status_response. keeps_filed_tac.
Qed.
Lemma filed_abandon_upload u : keeps (filed s0) (abandon_upload u).
Proof. unfold abandon_upload, get_active_upload, audit_upload_response. keeps_filed_tac. Qed.
Lemma filed_put_artifact_chunk u a i headers body : keeps (filed s0) (put_artifact_chunk u a i headers body).
Proof.
  assert (Hw : forall p n k h, keeps (filed s0) (write_frames body p n k h)).
  { intros p n. induction body as [|[data| |] b IH]; intros k h; simpl; keeps_filed_tac; apply IH. }
  unfold put_artifact_chunk, get_upload_artifact, get_chunk, confirm_chunk, accept_chunk,
    store_chunk_file, ensure_chunk_dir, write_chunk_body, now_rfc3339, persist_chunk_record, verify_stored_file,
    persist_chunk_transaction, refresh_upload_status, upload_is_complete, get_upload_artifacts, update_open_status.
  keeps_filed_tac.
  match goal with |- keeps _ (all_complete _ ?l) => induction l as [| x y IH]; simpl; keeps_filed_tac end.
Qed.
Lemma filed_insert_upload_artifacts u i arts : keeps (filed s0) (insert_upload_artifacts u i arts).
Proof.
  revert i. induction arts as [|[a n] arts IH]; intros i; simpl; [keeps_filed_tac|].
  unfold insert_upload_artifact. keeps_filed_tac.
Qed.
#[local] Hint Resolve filed_insert_upload_artifacts : keeps.
Lemma filed_create_upload payload : keeps (filed s0) (create_upload st payload).
Proof.
  unfold create_upload, persist_upload, persist_transaction, get_or_create_session, ensure_terminal_capture_reuse_is_equivalent,
    persist_new_upload_detail, legacy_manifest_equivalent, active_upload_response, get_active_upload. keeps_filed_tac.
Qed.
End Uploads.

(* ------------------------------------------------------------------ *)
(** ** Completion, deletion, collection, restart *)

Section Archive.
Context `{EV : Env} `{UL : UuidLib} `{TL : TimeLib} `{ML : MimeLib} `{SL : ShaLib} `{ZL : ZstdLib} `{JL : JsonLib}.
Context (st : AppState) (s0 : Store).

Lemma filed_insert_capture_provenance upload m mid sid at_ :
  keeps (filed s0) (insert_capture_provenance st upload m mid sid at_).
Proof. unfold insert_capture_provenance, maintain_session_latest_context, upsert_session_latest_context. keeps_filed_tac. Qed.
#[local] Hint Resolve filed_insert_capture_provenance : keeps.
Lemma filed_finalize_existing upload m sid transfer :
  keeps (filed s0) (finalize_upload_for_existing_snapshot st upload m sid transfer).
Proof.
  unfold finalize_upload_for_existing_snapshot, finalize_existing_transaction, now_rfc3339. keeps_filed_tac.
Qed.
#[local] Hint Resolve filed_finalize_existing : keeps.
(** A new snapshot adds a reference. *)
Lemma files_kept_insert_snapshot row d : files_kept d (insert_snapshot row d).1.
Proof.
  unfold insert_snapshot. destruct (existsb _ _); [apply files_kept_refl|]. apply files_kept_same; [by destruct d|].
  intros id. unfold snapshot_manifests. simpl. rewrite fmap_app, elem_of_app. by left.
Qed.
Lemma filed_record_completed_upload upload m prepared promotions fp a b :
  keeps (filed s0) (record_completed_upload st upload m prepared promotions fp a b).
Proof.
  assert (Hb : forall now l ids, keeps (filed s0) (collect_blob_ids st now l ids)).
  { intros now l. induction l as [|p l IH]; intros ids; simpl; [keeps_tac|]. unfold get_or_create_blob.
    keeps_filed_tac; apply IH. }
  assert (Hi : forall now seq l sid ids, keeps (filed s0) (insert_artifacts sid now seq ids l)).
  { intros now seq l. induction l as [|p l IH]; intros sid ids; simpl; [keeps_tac|]. keeps_filed_tac; apply IH. }
  assert (Hc : forall l, keeps (filed s0) (cleanup_uncommitted_promotions st l)).
  { intros l. unfold cleanup_uncommitted_promotions, cleanup_promotion. keeps_filed_tac. }
  unfold record_completed_upload, now_rfc3339, record_transaction, finalize_winning_snapshot.
  repeat lazymatch goal with
  | |- keeps _ (execute _ (fun d => Some (insert_snapshot _ _))) =>
      apply keeps_filed_execute; intros d d' k E; apply (inj Some) in E; change d' with (d', k).1; rewrite <-E;
      apply files_kept_insert_snapshot
  | |- keeps _ (execute _ _) => filed_execute
  | |- keeps _ (transaction _ _ _) => apply keeps_filed_transaction
  | _ => keeps_step
  end.
Qed.
#[local] Hint Resolve filed_record_completed_upload filed_require_active_upload : keeps.
Lemma filed_complete_upload id : keeps (filed s0) (complete_upload st id).
Proof.
  unfold complete_upload, get_upload_manifest, get_upload_artifacts, prepare_artifacts, deduplicate,
    find_snapshot_by_fingerprint, join_existing, archive_new, promote_unique_blobs.
  repeat lazymatch goal with
  | |- keeps _ (ensure_blob_representations_compatible _ _) => apply check_representations_reads
  | |- keeps _ (completion_for_upload _ _) => apply completion_for_upload_reads
  | |- keeps _ (remove_upload_dir _ _) => apply keeps_db_remove_dir_all; apply _
  | _ => keeps_step
  end.
Qed.
Lemma files_kept_mark_deleted id at_ d : files_kept d (mark_deleted id at_ d).1.
Proof.
  apply files_kept_same; [by destruct d|]. intros x. unfold snapshot_manifests, mark_deleted. simpl. by rewrite fmap_update.
Qed.
Lemma filed_delete_snapshot id headers payload : keeps (filed s0) (delete_snapshot st id headers payload).
Proof.
  unfold delete_snapshot, delete_transaction, rebuild_session_latest_context, insert_tombstone, insert_deletion_audit,
    delete_artifacts, schedule_blob.
  repeat lazymatch goal with
  | |- keeps _ (execute _ (fun d => Some (mark_deleted _ _ _))) =>
      apply keeps_filed_execute; intros d d' k E; apply (inj Some) in E; change d' with (d', k).1; rewrite <-E;
      apply files_kept_mark_deleted
  | |- keeps _ (execute _ (fun d => match latest_context _ d with _ => _ end)) =>
      apply keeps_filed_execute; intros d; do 2 intro; destruct (latest_context _ _); destruct d; simpl;
      table_cases; intros [= <- _]; by apply files_kept_same
  | |- keeps _ (tombstone_response _ _) => apply tombstone_response_reads
  | |- keeps _ (execute _ _) => filed_execute
  | |- keeps _ (transaction _ _ _) => apply keeps_filed_transaction
  | |- keeps _ (for_each _ _) => apply keeps_for_each; do 2 intro
  | _ => keeps_step
  end.
Qed.
Lemma filed_collect t : keeps (filed s0) (collect_orphaned_blobs_at t).
Proof.
  unfold collect_orphaned_blobs_at. keeps_filed_tac.
  match goal with |- keeps _ (gc_loop _ ?l _) => generalize 0; induction l as [| x y IH]; intros k end; simpl; [keeps_tac|].
  unfold gc_transaction, delete_blob. keeps_filed_tac; apply IH.
Qed.

(** A restart rewrites snapshots, but neither their manifests nor which one
    they refer to. *)
Lemma filed_kept_books s s' : archive_kept s s' -> books_kept s s' -> filed s s'.
Proof.
  intros [_ E _ _ _] [[Em _] _]. apply files_kept_same; [done|]. intros id. unfold snapshot_manifests.
  assert (Hk : forall l : list Snapshot.row, Snapshot.manifest_id <$> l = (fun x => ph_manifest x.2) <$> (snapshot_key <$> l)).
  { intros l. by rewrite <-list_fmap_compose. }
  by rewrite !Hk, E.
Qed.
Lemma books_recover_uploads s1 : keeps (books_kept s1) (recover_uploads st).
Proof.
  pose proof (books_upgrade_upload_artifact_rows s1). pose proof (books_upgrade_legacy_uploads st s1).
  pose proof (books_upgrade_snapshot_fingerprints s1). pose proof (books_backfill_sort_keys s1).
  pose proof (books_backfill_completed_capture_provenance st s1). pose proof (books_rebuild_all_contexts s1).
  pose proof (books_remove_unknown_upload_directories s1). pose proof (books_recover_upload s1).
  pose proof (books_recover_unreferenced_blobs st s1).
  unfold recover_uploads, remove_upload_dir. keeps_filed_tac; eauto.
Qed.
Lemma filed_bootstrap_recovery : NoDup (Snapshot.id <$> snapshots (db s0)) -> forall s1, s1 = s0 ->
  wp (bootstrap_recovery st) (fun _ => filed s0) s1.
Proof.
  intros Hn s1 ->. unfold bootstrap_recovery. wp_step.
  eapply wp_mono; [|apply wp_and; [by apply (kept_recover_uploads st s0 Hn), archive_kept_refl|by apply (books_recover_uploads s0)]].
  intros [[]|e] s2 [Ha Hb]; simpl; [|by apply filed_kept_books].
  pose proof (fun t => filed_expire_uploads_at s0 t) as He.
  match goal with |- wp ?m _ _ => assert (Hk : keeps (filed s0) m) end.
  { keeps_filed_tac. }
  by apply Hk, filed_kept_books.
Qed.
End Archive.
