(* ===== verification/Refinement.v ===== *)
(** The server implements the abstract archive: every request leaves the
    catalogue as it is, publishes one snapshot, or retires one. *)
From stdpp Require Import prelude strings gmap sorting list relations.
From Stdlib Require Import ZArith Ascii Lia.
From Stdlib.Strings Require Import Byte.
From S2P Require Import Prelude Errors Contract Externals Validation Chunks Fingerprint Pagination.
From S2P Require Import Tables Store Storage Uploads Receipts Completion Deletion Recovery Archive.
From S2P Require Import Invariants Assembly Publication Reclamation Visibility Catalogue Lifecycle Ledger Restart.
From S2P Require Import Removal System.

(* ------------------------------------------------------------------ *)
(** ** Nothing happens to the catalogue *)

Lemma keys_headers (l l' : list Snapshot.row) : snapshot_key <$> l = snapshot_key <$> l' ->
  headers l = headers l' /\ gone l = gone l'.
Proof.
  unfold headers, gone, select. revert l'. induction l as [|q l IH]; intros [|q' l']; try done.
  rewrite !fmap_cons. intros E. pose proof (f_equal tail E) as Et. simpl in Et.
  assert (K : snapshot_key q = snapshot_key q') by congruence.
  pose proof (f_equal fst K) as El. pose proof (f_equal snd K) as Eh. pose proof (f_equal ph_id Eh) as Ei.
  cbn [fst snd snapshot_key ph_id header] in El, Eh, Ei.
  destruct (IH l' Et) as [E1 E2]. rewrite !filter_cons, El. clear E K El.
  destruct (live q'); cbn [negb]; repeat case_decide; try done; rewrite ?fmap_cons, ?Eh, ?Ei, E1, E2; done.
Qed.

Section Same.
Context `{EV : Env} `{UL : UuidLib} {ULaws : UuidLaws UL} `{TL : TimeLib} `{SL : ShaLib} `{ZL : ZstdLib} `{JL : JsonLib}.
Context (st : AppState).

Lemma catalogue_kept s s' : archive_kept s s' -> catalogue (db s') = catalogue (db s).
Proof.
  intros [B S _ A _]. destruct (keys_headers _ _ S) as [E1 E2]. apply catalogue_same; [done..|].
  by apply blobs_agree_eq.
Qed.
Lemma catalogue_same_archive s s' : same_archive s s' -> catalogue (db s') = catalogue (db s).
Proof. intros H. by apply catalogue_kept, same_archive_kept. Qed.
Lemma catalogue_same_rows s s' : same_rows s s' -> blobs_agree (db s) (db s') -> catalogue (db s') = catalogue (db s).
Proof. intros [E1 E2] Hb. apply catalogue_same; [by rewrite E1..| |done]. intros q _ _. unfold artifacts_of. by rewrite E2. Qed.

(** A run that leaves the archive alone leaves the catalogue alone. *)
Lemma quiet_outcome {E A} (m : M E A) s n : (forall s0, keeps (same_archive s0) m) ->
  catalogue (db (outcome m (s, n))) = catalogue (db s).
Proof. intros Hm. apply catalogue_same_archive, (Hm s s), same_archive_refl. Qed.
End Same.

(* ------------------------------------------------------------------ *)
(** ** One snapshot is published *)

(** [d'] has one snapshot more, with its artifacts. *)
Definition appended (s s' : Store) : Prop := exists row rows,
  snapshots (db s') = snapshots (db s) ++ [row] /\ artifact_rows (db s') = artifact_rows (db s) ++ rows
  /\ live row = true /\ (forall q, q ∈ snapshots (db s) -> Snapshot.id q <> Snapshot.id row)
  /\ Forall (fun a => ArtifactRow.snapshot_id a = Snapshot.id row) rows.
Definition grown (s s' : Store) : Prop := forall b, b ∈ stored_blobs (db s) -> b ∈ stored_blobs (db s').
Definition at_most_appended (s s' : Store) : Prop := same_rows s s' \/ appended s s'.
#[export] Instance grown_db s : DbInvariant (grown s).
Proof. intros s1 s2 E _ H b. rewrite E. apply H. Qed.
#[export] Instance at_most_appended_db s : DbInvariant (at_most_appended s).
Proof. intros s1 s2 E _. unfold at_most_appended, same_rows, appended. by rewrite E. Qed.

Lemma headers_app l k : headers (l ++ k) = headers l ++ headers k.
Proof. unfold headers, select. by rewrite filter_app, fmap_app. Qed.
Lemma gone_app l k : gone (l ++ k) = gone l ++ gone k.
Proof. unfold gone, select. by rewrite filter_app, fmap_app. Qed.
Lemma elem_of_published id d l : id ∈ p_id <$> (published d <$> headers l) -> exists q, q ∈ l /\ Snapshot.id q = id.
Proof.
  rewrite <-list_fmap_compose. intros (h & -> & (q & Hq & _ & ->)%elem_of_headers)%list_elem_of_fmap. by exists q.
Qed.
Lemma elem_of_gone id l : id ∈ gone l -> exists q, q ∈ l /\ Snapshot.id q = id.
Proof. intros (q & -> & [_ Hq]%elem_of_select)%list_elem_of_fmap. by exists q. Qed.

Lemma appended_catalogue s s' row rows :
  snapshots (db s') = snapshots (db s) ++ [row] -> artifact_rows (db s') = artifact_rows (db s) ++ rows ->
  live row = true -> (forall q, q ∈ snapshots (db s) -> Snapshot.id q <> Snapshot.id row) ->
  Forall (fun a => ArtifactRow.snapshot_id a = Snapshot.id row) rows ->
  grown s s' -> blobs_known (db s) -> blobs_known (db s') ->
  catalogue (db s') = mkCatalogue (c_published (catalogue (db s)) ++ [published (db s') (header row)]) (c_retired (catalogue (db s))).
Proof.
  intros E1 E2 Hl Hno Hrows Hg Hk Hk'. rewrite Forall_forall in Hrows.
  assert (Eh : headers (snapshots (db s')) = headers (snapshots (db s)) ++ [header row]).
  { rewrite E1, headers_app. f_equal. unfold headers, select. rewrite filter_cons_True by done. done. }
  assert (Eg : gone (snapshots (db s')) = gone (snapshots (db s))).
  { rewrite E1, gone_app. unfold gone at 2, select. rewrite filter_cons_False by by rewrite Hl. by rewrite app_nil_r. }
  assert (Eo : published (db s') <$> headers (snapshots (db s)) = published (db s) <$> headers (snapshots (db s))).
  { apply list_fmap_ext. intros i h Hh. apply list_elem_of_lookup_2, elem_of_headers in Hh as (q & Hq & _ & ->).
    unfold published. simpl. f_equal.
    assert (Ea : artifacts_of (Snapshot.id q) (db s') = artifacts_of (Snapshot.id q) (db s)).
    { unfold artifacts_of, select. rewrite E2, filter_app, (list_filter_none _ rows); [by rewrite app_nil_r|].
      intros a Ha. rewrite (Hrows a Ha), eqs_true. intros E. by apply (Hno q). }
    rewrite Ea. apply list_fmap_ext. intros j x Hx. unfold shown_artifact. f_equal.
    apply list_elem_of_lookup_2, list_elem_of_fmap in Hx as (a & -> & [_ Ha]%elem_of_select).
    by apply (blobs_agree_more (db s)); [done|apply Hk'| |]. }
  unfold catalogue at 1. by rewrite Eh, Eg, fmap_app, Eo.
Qed.
Lemma appended_publishes s s' : appended s s' -> grown s s' -> blobs_known (db s) -> blobs_known (db s') ->
  catalogue_step (catalogue (db s)) (catalogue (db s')).
Proof.
  intros (row & rows & E1 & E2 & Hl & Hno & Hrows) Hg Hk Hk'. rewrite (appended_catalogue s s' row rows) by done.
  apply publishes; intros H.
  - apply elem_of_published in H as (q & Hq & E). by apply (Hno q).
  - apply elem_of_gone in H as (q & Hq & E). by apply (Hno q).
Qed.

(** From a store of [I], a run ends in one of [J]. *)
Definition leads {E A} (I J : Store -> Prop) (m : M E A) : Prop := forall s, I s -> wp m (fun _ => J) s.
Lemma leads_pre {E A B} (I J : Store -> Prop) (m : M E A) (k : A -> M E B) :
  (forall s, I s -> J s) -> keeps I m -> (forall a, leads I J (k a)) -> leads I J (bind m k).
Proof.
  intros HIJ Hm Hk s Hs. apply wp_bind. eapply wp_mono; [|by apply Hm]. intros [a|e] s' Hs'; [by apply Hk|by apply HIJ].
Qed.
Lemma leads_post {E A B} (I J : Store -> Prop) (m : M E A) (k : A -> M E B) :
  leads I J m -> (forall a, keeps J (k a)) -> leads I J (bind m k).
Proof.
  intros Hm Hk s Hs. apply wp_bind. eapply wp_mono; [|by apply Hm]. intros [a|e] s' Hs'; [by apply Hk|done].
Qed.
Lemma leads_keeps {E A} (I J : Store -> Prop) (m : M E A) : (forall s, I s -> J s) -> keeps I m -> leads I J m.
Proof. intros HIJ Hm s Hs. eapply wp_mono; [|by apply Hm]. intros r s' Hs'. by apply HIJ. Qed.
Lemma leads_attempt {E F A} (I J : Store -> Prop) (m : M E A) : leads I J m -> leads I J (@attempt E F A m).
Proof. intros Hm s Hs. apply wp_attempt. by apply Hm. Qed.

Section Completing.
Context `{EV : Env} `{UL : UuidLib} `{TL : TimeLib} `{SL : ShaLib} `{ZL : ZstdLib} `{JL : JsonLib}.
Context (st : AppState) (s0 : Store).

(** *** Blobs are added *)

Lemma keeps_grown_same {E A} (m : M E A) : (forall s, keeps (same_archive s) m) -> keeps (grown s0) m.
Proof.
  intros Hm s Hs. eapply wp_mono; [|apply (Hm s s), same_archive_refl]. intros r s' [D _] b Hb.
  injection D as EB _ _. rewrite EB. by apply Hs.
Qed.
Lemma keeps_grown_execute {E A} (err : SqlxError -> E) (f : Db -> option (Db * A)) :
  (forall d d' a, f d = Some (d', a) -> forall b, b ∈ stored_blobs d -> b ∈ stored_blobs d') ->
  keeps (grown s0) (execute err f).
Proof. intros Hf. apply keeps_execute. intros s d a Hs Ex b Hb. eapply Hf; [exact Ex|]. by apply Hs. Qed.
Lemma keeps_grown_transaction {E A} (b c : SqlxError -> E) (body : M E (TxEnd A)) :
  keeps (grown s0) body -> keeps (grown s0) (transaction b c body).
Proof.
  intros Hb s Hs. apply wp_transaction; [done|]. eapply wp_mono; [|by apply Hb]. intros r s' Hs'. by destruct r as [[a|a]|e].
Qed.
Ltac grown_execute :=
  let d := fresh "d" in
  apply keeps_grown_execute; intros d; do 2 intro; unfold complete_rows; destruct d; simpl; table_cases; by intros [= <- <-].
Ltac grown_tac := repeat
  lazymatch goal with
  | |- keeps _ (execute _ _) => grown_execute
  | |- keeps _ (transaction _ _ _) => apply keeps_grown_transaction
  | |- keeps _ (for_each _ _) => apply keeps_for_each; do 2 intro
  | |- keeps _ (remove_upload_dir _ _) => apply keeps_db_remove_dir_all; apply _
  | _ => keeps_step
  end.

Lemma grown_get_or_create_blob a now : keeps (grown s0) (get_or_create_blob st a now).
Proof.
  unfold get_or_create_blob.
  repeat lazymatch goal with
  | |- keeps _ (execute _ (fun d => Some (with_blobs (update _ _) d, tt))) =>
      apply keeps_grown_execute; intros d d' x [= <- _]; by rewrite stored_blobs_update
  | |- keeps _ (execute _ _) => apply keeps_grown_execute; intros d d' x Ex y Hy
  | _ => keeps_step
  end.
  destruct (insert_or_ignore _ _ _ _) as [[t k]|] eqn:Ei; [|done]. injection Ex as <- <-.
  apply insert_or_ignore_Some in Ei as [(_ & -> & _)|(_ & -> & _)]; unfold stored_blobs in *; simpl; [done|].
  rewrite fmap_app. apply elem_of_app. by left.
Qed.
Lemma grown_record_transaction upload m prepared fp now seq a b :
  keeps (grown s0) (record_transaction st upload m prepared fp now seq a b).
Proof.
  pose proof grown_get_or_create_blob.
  assert (Hb : forall l ids, keeps (grown s0) (collect_blob_ids st now l ids)).
  { induction l as [|p l IH]; intros ids; simpl; grown_tac. }
  assert (Hi : forall l sid ids, keeps (grown s0) (insert_artifacts sid now seq ids l)).
  { induction l as [|p l IH]; intros sid ids; simpl; grown_tac. }
  pose proof (fun up m mid sid at_ => keeps_grown_same _ (fun s => same_insert_capture_provenance st s up m mid sid at_)).
  unfold record_transaction, finalize_winning_snapshot, insert_snapshot. grown_tac.
Qed.
Lemma grown_complete_upload id : keeps (grown s0) (complete_upload st id).
Proof.
  pose proof (fun u => keeps_grown_same _ (fun s => same_require_active_upload s u)).
  pose proof (fun up m sid n => keeps_grown_same _ (fun s => same_finalize_existing st s up m sid n)).
  pose proof grown_record_transaction.
  unfold complete_upload, get_upload_manifest, get_upload_artifacts, prepare_artifacts, deduplicate,
    find_snapshot_by_fingerprint, join_existing, archive_new, promote_unique_blobs, record_completed_upload, now_rfc3339.
  repeat lazymatch goal with
  | |- keeps _ (ensure_blob_representations_compatible _ _) => apply check_representations_reads
  | |- keeps _ (completion_for_upload _ _) => apply completion_for_upload_reads
  | _ => progress grown_tac
  end.
Qed.

(** *** One snapshot is added *)

Lemma same_at_most s : same_rows s0 s -> at_most_appended s0 s.
Proof. by left. Qed.
Lemma keeps_appended {E A} (m : M E A) : (forall s, keeps (same_rows s) m) -> keeps (at_most_appended s0) m.
Proof.
  intros Hm s Hs. eapply wp_mono; [|apply (Hm s s), same_rows_refl]. intros r s' [E1 E2]. destruct Hs as [[F1 F2]|Ha].
  - left. split; congruence.
  - right. destruct Ha as (row & rows & H1 & H2 & H3). exists row, rows. split_and!; [congruence|congruence|apply H3..].
Qed.
Lemma appends_transaction upload m prepared fp now seq a b :
  leads (same_rows s0) (at_most_appended s0)
    (transaction classify_database_error classify_database_error (record_transaction st upload m prepared fp now seq a b)).
Proof.
  intros s Hs. apply wp_transaction; [by left|].
  assert (Hab : forall f n, at_most_appended s0 (mkStore (db s) f n)) by (intros; by left).
  unfold record_transaction. wp_step.
  eapply wp_mono; [|apply (rows_collect_blob_ids st s0 now prepared ∅), Hs].
  intros [ids|e] s1 Hs1; simpl; [|done].
  wp_step. wp_step; simpl; [done|]. intros mid _. wp_step. wp_step; simpl; [done|].
  wp_step. wp_step. destruct (manifest_totals m) as [totals|]; simpl; [|done].
  wp_step. wp_step. simpl. set (candidate := now_v7 (drawn s1)).
  do 3 (wp_step; wp_step; match goal with |- context [then_wp _ _ ?c] => destruct c as [?|?] end; simpl; [|done]).
  wp_step. wp_step; simpl; [done|]. intros d n Ex.
  set (row := Snapshot.mk _ _ _ _ _ _ _ _ _ _ _ _ _) in Ex. unfold insert_snapshot in Ex.
  destruct (existsb _ (snapshots (db s1))) eqn:Ec; injection Ex as <- <-; simpl; [wp_step; by split|].
  rewrite existsb_false in Ec.
  assert (Hno : forall q, q ∈ snapshots (db s0) -> Snapshot.id q <> Snapshot.id row).
  { intros q Hq E. destruct Hs1 as [E1 _]. rewrite <-E1 in Hq. specialize (Ec q Hq).
    apply orb_false_iff in Ec as [Ec _]. by rewrite E, eqs_refl in Ec. }
  wp_step. unfold finalize_winning_snapshot. wp_step. eapply wp_mono; [|apply insert_artifacts_rows].
  intros [[]|e] s2 Hr; simpl; [|done]. destruct (Hr eq_refl) as (E1 & rows & E2 & _ & HF). simpl in E1, E2.
  assert (Hs2 : at_most_appended s0 s2).
  { right. exists row, rows. destruct Hs1 as [F1 F2]. split_and!; [by rewrite E1, F1|by rewrite E2, F2|done..]. }
  eapply wp_mono; [|apply (keeps_appended _ (fun s => rows_finalize_tail st s upload m mid candidate now _ _)), Hs2].
  clear Hs2. intros [[]|e] s3 Hs3; simpl; [|done]. wp_step.
  match goal with |- wp ?m _ _ => assert (Hk : forall s, keeps (same_rows s) m) end.
  { intros x. keeps_rows_tac. }
  eapply wp_mono; [|apply (keeps_appended _ Hk), Hs3]. intros [[]|e] s4 Hs4; simpl; [wp_step; by split|done].
Qed.

Lemma appends_record_completed_upload upload m prepared promotions fp a b :
  leads (same_rows s0) (at_most_appended s0) (record_completed_upload st upload m prepared promotions fp a b).
Proof.
  pose proof (fun sid => keeps_appended _ (fun s => same_archive_rows _ s (fun s => same_finalize_existing st s upload m sid a))).
  unfold record_completed_upload, now_rfc3339.
  apply leads_pre; [apply same_at_most|keeps_tac|intros now]. apply leads_pre; [apply same_at_most|keeps_tac|intros seq].
  apply leads_post; [apply appends_transaction|intros won]. keeps_tac.
Qed.
Lemma appends_complete_upload id : leads (same_rows s0) (at_most_appended s0) (complete_upload st id).
Proof.
  pose proof (fun u => same_archive_rows _ s0 (fun s => same_require_active_upload s u)) as H1.
  pose proof (fun up m sid n => same_archive_rows _ s0 (fun s => same_finalize_existing st s up m sid n)) as H2.
  assert (H3 : forall u, keeps (at_most_appended s0) (completion_for_upload st u)) by (intros; apply completion_for_upload_reads).
  assert (H4 : forall u, keeps (same_rows s0) (completion_for_upload st u)) by (intros; apply completion_for_upload_reads).
  assert (H5 : forall l, keeps (same_rows s0) (ensure_blob_representations_compatible st l))
    by (intros; apply check_representations_reads).
  unfold complete_upload, get_upload_manifest, get_upload_artifacts, prepare_artifacts, deduplicate,
    find_snapshot_by_fingerprint, join_existing, archive_new, promote_unique_blobs, remove_upload_dir.
  repeat lazymatch goal with
  | |- leads _ _ (bind (attempt (record_completed_upload _ _ _ _ _ _ _ _)) _) =>
      apply leads_post; [apply leads_attempt, appends_record_completed_upload|do 1 intro]
  | |- leads _ _ (bind _ _) => apply leads_pre; [apply same_at_most| |do 1 intro]
  | |- leads _ _ (if ?b then _ else _) => destruct b
  | |- leads _ _ (match ?x with _ => _ end) => destruct x
  | |- leads _ _ _ => apply leads_keeps; [apply same_at_most|]
  | _ => keeps_step
  end.
Qed.
End Completing.

(* ------------------------------------------------------------------ *)
(** ** One snapshot is retired *)

Lemma split_by_id d id snap m : NoDup (Snapshot.id <$> snapshots d) -> snapshot_deletion_row id d = Some (snap, m) ->
  exists l1 l2, snapshots d = l1 ++ snap :: l2 /\ Snapshot.id snap = id
    /\ (forall q, q ∈ l1 ++ l2 -> Snapshot.id q <> id).
Proof.
  intros Hn Hrow. pose proof (snapshot_deletion_row_id _ _ _ _ Hrow) as Hid.
  unfold snapshot_deletion_row in Hrow. apply bind_Some in Hrow as (x & Ex & (y & _ & [= -> ->])%bind_Some).
  unfold snapshot_by_id in Ex. apply select_one_Some in Ex as [_ Hin].
  apply list_elem_of_split in Hin as (l1 & l2 & E). exists l1, l2. split_and!; [done|done|].
  rewrite E, fmap_app, fmap_cons in Hn. apply NoDup_app in Hn as (_ & H2 & [H3 _]%NoDup_cons).
  intros q Hq <-. apply elem_of_app in Hq as [Hq|Hq]; apply (list_elem_of_fmap_2 Snapshot.id) in Hq.
  - apply (H2 _ Hq). rewrite Hid. left.
  - by rewrite Hid in H3.
Qed.
Lemma update_none {R} (p : R -> bool) f l : (forall r, r ∈ l -> p r = false) -> update p f l = l.
Proof.
  unfold update. induction l as [|r l IH]; intros Hl; [done|]. simpl. rewrite (Hl r) by left.
  f_equal. apply IH. intros q Hq. apply Hl. by right.
Qed.

Lemma retired_catalogue id reason snap m t a el seq d d' : NoDup (Snapshot.id <$> snapshots d) ->
  retired id reason snap m t a el seq d d' -> exists before p after gone',
    c_published (catalogue d) = before ++ p :: after /\ catalogue d' = mkCatalogue (before ++ after) gone'
    /\ gone' ≡ₚ p_id p :: c_retired (catalogue d).
Proof.
  intros Hn [[Hrow Hl] _ _ Em Ea Eb _ _]. destruct (split_by_id d id snap m Hn Hrow) as (l1 & l2 & E & Hid & Hno).
  assert (Es : snapshots d' = l1 ++ Snapshot.set_deleted (Tombstone.deleted_at t) snap :: l2).
  { rewrite Em, E. unfold update. rewrite map_app. simpl. rewrite Hid, eqs_refl, Hl. simpl.
    change (map ?f ?l) with (update (fun r => eqs (Snapshot.id r) id && live r) (Snapshot.set_deleted (Tombstone.deleted_at t)) l).
    rewrite !update_none; [done|..]; intros q Hq; apply andb_false_iff; left; apply eqs_false, Hno, elem_of_app; auto. }
  assert (Hb : blobs_agree d d').
  { apply blobs_agree_eq. unfold stored_blobs. rewrite Eb, <-list_fmap_compose. apply list_fmap_ext. intros i b _. simpl.
    destruct (holds_artifact_of _ _ _); [|done]. unfold rescheduled. by destruct (has_live_reference _ _). }
  assert (Eo : forall l, (forall q, q ∈ l -> Snapshot.id q <> id) -> published d' <$> headers l = published d <$> headers l).
  { intros l Hne. apply list_fmap_ext. intros i h Hh. apply list_elem_of_lookup_2, elem_of_headers in Hh as (q & Hq & _ & ->).
    apply published_same; [|done]. simpl. f_equal. unfold artifacts_of, select. rewrite Ea. unfold delete_where.
    rewrite list_filter_filter. apply list_filter_iff. intros x. rewrite eqs_true, eqs_false.
    split; [tauto|]. intros ->. split; [done|by apply Hne]. }
  unfold catalogue at 2. rewrite Es, headers_app, gone_app.
  assert (H1 : headers (Snapshot.set_deleted (Tombstone.deleted_at t) snap :: l2) = headers l2).
  { unfold headers, select. by rewrite filter_cons_False. }
  assert (H2 : gone (Snapshot.set_deleted (Tombstone.deleted_at t) snap :: l2) = id :: gone l2).
  { unfold gone, select. rewrite filter_cons_True by done. by rewrite fmap_cons, <-Hid. }
  rewrite H1, H2, fmap_app, !Eo by (intros q Hq; apply Hno, elem_of_app; auto).
  exists (published d <$> headers l1), (published d (header snap)), (published d <$> headers l2), (gone l1 ++ id :: gone l2).
  split_and!; [|done|]; simpl.
  - rewrite E, headers_app, fmap_app. f_equal. unfold headers, select. by rewrite filter_cons_True.
  - rewrite E, gone_app. unfold gone at 4, select. rewrite filter_cons_False by by rewrite Hl.
    unfold p_id. simpl. rewrite Hid. by rewrite Permutation_middle.
Qed.
Lemma retired_retires id reason snap m t a el seq d d' : NoDup (Snapshot.id <$> snapshots d) ->
  retired id reason snap m t a el seq d d' -> catalogue_step (catalogue d) (catalogue d').
Proof.
  intros Hn Hrt. destruct (retired_catalogue _ _ _ _ _ _ _ _ _ _ Hn Hrt) as (before & p & after & gone' & E & -> & Hg).
  by eapply retires.
Qed.

(* ------------------------------------------------------------------ *)
(** ** The refinement *)

Section Refinement.
Context `{UL : UuidLib} {ULaws : UuidLaws UL} `{TL : TimeLib} `{ML : MimeLib} `{SL : ShaLib} `{ZL : ZstdLib}
  `{JL : JsonLib} {JLaws : JsonLaws JL}.
Context (st : AppState).
Hypothesis Hst : limits_typed (manifest_limits st).

(** The only requests that may change the catalogue. *)
Definition changes_catalogue (r : Request) : bool :=
  match r with CompleteUpload _ | DeleteSnapshot _ _ _ => true | _ => false end.

Lemma restartable_known s : restartable st s -> blobs_known (db s).
Proof. intros ((_ & Ha & _) & _). by eapply archive_blobs_known. Qed.
Lemma complete_catalogue {EV : Env} id s n : restartable st s ->
  restartable st (outcome (complete_upload st id) (s, n)) ->
  catalogue (db (outcome (complete_upload st id) (s, n))) = catalogue (db s)
  \/ catalogue_step (catalogue (db s)) (catalogue (db (outcome (complete_upload st id) (s, n)))).
Proof.
  intros Hs Hs'. pose proof (grown_complete_upload st s id s (fun b Hb => Hb) n) as Hg.
  destruct (appends_complete_upload st s id s (same_rows_refl s) n) as [Hr|Ha].
  - left. apply catalogue_same_rows; [done|]. destruct Hr as [_ E]. intros a Ha. unfold outcome in Ha. rewrite E in Ha.
    by apply (blobs_agree_more (db s)); [apply restartable_known|apply (restartable_known _ Hs')| |].
  - right. by apply appended_publishes; [| |apply restartable_known|apply restartable_known].
Qed.
(** Deletion shows nothing that was not shown before. *)
Lemma delete_shows {EV : Env} id headers payload s n p : restartable st s ->
  p ∈ c_published (catalogue (db (outcome (delete_snapshot st id headers payload) (s, n)))) ->
  p ∈ c_published (catalogue (db s)).
Proof.
  intros (_ & Hw & _). destruct (delete_snapshot_spec st id headers payload s n) as (_ & [E|(_ & cid & _ & Hc)] & _).
  - unfold outcome. by rewrite E.
  - destruct Hc as (when & snap & m & t & a & el & reason & _ & _ & _ & Hrt).
    destruct (retired_catalogue _ _ _ _ _ _ _ _ _ _ (sw_ids _ Hw) Hrt) as (before & q & after & gone' & E & E' & _).
    unfold outcome. rewrite E, E'. simpl. rewrite !elem_of_app, elem_of_cons. tauto.
Qed.
Lemma delete_catalogue {EV : Env} id headers payload s n : restartable st s ->
  catalogue (db (outcome (delete_snapshot st id headers payload) (s, n))) = catalogue (db s)
  \/ catalogue_step (catalogue (db s)) (catalogue (db (outcome (delete_snapshot st id headers payload) (s, n)))).
Proof.
  intros (_ & Hw & _). destruct (delete_snapshot_spec st id headers payload s n) as (_ & [E|(_ & cid & _ & Hc)] & _).
  - left. unfold outcome. by rewrite E.
  - right. destruct Hc as (when & snap & m & t & a & el & reason & _ & _ & _ & Hrt).
    eapply retired_retires; [apply Hw|exact Hrt].
Qed.
Lemma collect_catalogue {EV : Env} t s n : restartable st s -> restartable st (outcome (collect_orphaned_blobs_at t) (s, n)) ->
  catalogue (db (outcome (collect_orphaned_blobs_at t) (s, n))) = catalogue (db s).
Proof.
  intros Hs Hs'. destruct (collect_reclaims st t s ltac:(apply Hs) n) as [_ [Hr _ _]].
  pose proof (rows_collect s t s (same_rows_refl s) n) as Hrows. apply catalogue_same_rows; [done|].
  apply blobs_agree_fewer; [by apply restartable_known|apply restartable_known, Hs|done].
Qed.

Lemma run_blob_gc_outcome {EV : Env} s n : outcome (run_blob_gc st) (s, n) = s
  \/ exists t, outcome (run_blob_gc st) (s, n) = outcome (collect_orphaned_blobs_at t) (s, S n).
Proof.
  unfold outcome, run_blob_gc, bind, lift, now. destruct (require_admin_enabled st); [right|by left]. exists (clock n).
  unfold map_err. by destruct (collect_orphaned_blobs_at _ _).
Qed.

Lemma serve_refines EV r s n : request_typed r -> restartable st s ->
  catalogue (db (serve st EV r (s, n))) = catalogue (db s)
  \/ (changes_catalogue r = true /\ catalogue_step (catalogue (db s)) (catalogue (db (serve st EV r (s, n))))).
Proof.
  intros Hr Hs. pose proof (serve_restartable st Hst EV r s n Hr Hs) as Hs'.
  destruct r as [id payload|payload|u|u a i headers body|u|u|t|id headers payload|id| |t|]; simpl in Hs' |- *;
    lazymatch goal with
    | |- context [complete_upload] => destruct (complete_catalogue u s n Hs Hs') as [E|Ec]; [by left|by right]
    | |- context [delete_snapshot] => destruct (delete_catalogue id headers payload s n Hs) as [E|Ec]; [by left|by right]
    | |- context [run_blob_gc] => idtac
    | |- context [collect_orphaned_blobs_at] => left; by apply collect_catalogue
    | |- context [bootstrap_recovery] => left; apply catalogue_kept; apply (kept_bootstrap_recovery st s); [apply Hs|apply archive_kept_refl]
    | |- _ => left; apply quiet_outcome; intros s0
    end.
  - apply same_register_client.
  - apply same_create_upload.
  - apply same_get_upload_status.
  - apply same_put_artifact_chunk.
  - apply same_abandon_upload.
  - apply same_expire_uploads_at.
  - unfold get_tombstone. keeps_tac. apply tombstone_response_reads.
  - left. destruct (run_blob_gc_outcome s n) as [E|[t E]]; rewrite E in Hs' |- *; [done|by apply collect_catalogue].
Qed.
Lemma reachable_catalogue s : reachable st s -> rtc catalogue_step empty_catalogue (catalogue (db s)).
Proof.
  induction 1 as [s [l Hi]%initial_db|s s' Hs IH [EV r n Hr]]; [by rewrite Hi|].
  destruct (serve_refines EV r s n Hr) as [E|[_ Hc]]; [by apply reachable_restartable|by rewrite E|]. by eapply rtc_r.
Qed.
Lemma steps_catalogue s s' : reachable st s -> rtc (step st) s s' ->
  reachable st s' /\ rtc catalogue_step (catalogue (db s)) (catalogue (db s')).
Proof.
  intros Hs Hsteps. induction Hsteps as [s|s s1 s' H1 _ IH]; [done|].
  destruct IH as [Hr Hc]; [by eapply reachable_step|]. split; [done|]. destruct H1 as [EV r n Hr1].
  destruct (serve_refines EV r s n Hr1) as [E|[_ Hc1]]; [by apply reachable_restartable|by rewrite <-E|]. by eapply rtc_l.
Qed.

(** C4: the server implements the archive of [Catalogue].  Whatever it went
    through, what a reachable store shows is a catalogue the abstract archive
    can reach; and whatever the next request is and wherever it fails, it
    leaves that catalogue as it is, publishes one snapshot under an
    identifier that was never used, or retires one; only completions and
    deletions ever change it. *)
Theorem server_refines_archive EV r s n : reachable st s -> request_typed r ->
  rtc catalogue_step empty_catalogue (catalogue (db s))
  /\ (catalogue (db (serve st EV r (s, n))) = catalogue (db s)
      \/ (changes_catalogue r = true /\ catalogue_step (catalogue (db s)) (catalogue (db (serve st EV r (s, n)))))).
Proof.
  intros Hs Hr. split; [by apply reachable_catalogue|]. apply serve_refines; [done|by apply reachable_restartable].
Qed.

(** C5: what is published is immutable.  However many requests, failures and
    restarts later, a snapshot of the catalogue is still there with the same
    header, artifacts and blobs, or it was retired; and no other snapshot
    ever goes by its identifier. *)
Theorem published_snapshots_immutable s s' p : reachable st s -> rtc (step st) s s' ->
  p ∈ c_published (catalogue (db s)) ->
  (p ∈ c_published (catalogue (db s')) \/ p_id p ∈ c_retired (catalogue (db s')))
  /\ forall p', p' ∈ c_published (catalogue (db s')) -> p_id p' = p_id p -> p' = p.
Proof.
  intros Hs Hsteps Hp. destruct (steps_catalogue s s' Hs Hsteps) as [Hs' Hc].
  pose proof (catalogue_steps_wf _ _ (reachable_catalogue s' Hs') empty_catalogue_wf) as [N G].
  destruct (catalogue_steps_keep _ _ p Hc) as [K _]. specialize (K Hp). split; [exact K|].
  intros p' Hp' Eid. destruct K as [K|K].
  - by apply (NoDup_key_inj p_id (c_published (catalogue (db s')))).
  - exfalso. apply (G _ K). rewrite <-Eid. by apply list_elem_of_fmap_2.
Qed.
End Refinement.
