(* ===== verification/Reconcile.v ===== *)
(** Reconciliation ([reconcile_snapshot] of [ingestion.rs]): the normalized
    rows of one live snapshot compared with its canonical manifest.  Reads of
    a snapshot and downloads run it before they answer. *)
From stdpp Require Import prelude strings gmap sorting list.
From Stdlib Require Import ZArith Lia.
From S2P Require Import Prelude Errors Contract Externals Validation Chunks Fingerprint.
From S2P Require Import Tables Store Storage Uploads Receipts.

Inductive ReconciliationError : Type := NotFound | Metadata | Drift.
#[export] Instance ReconciliationError_eq_dec : EqDecision ReconciliationError.
Proof. solve_decision. Defined.

(** [artifacts a JOIN blobs b ON b.id = a.blob_id] *)
Definition blob_by_id (id : string) (d : Db) : option Blob.row :=
  select_one (fun b => eqs (Blob.id b) id) (blobs d).
Definition join_blob (d : Db) (a : ArtifactRow.row) : option (ArtifactRow.row * Blob.row) :=
  pair a <$> blob_by_id (ArtifactRow.blob_id a) d.
Definition artifact_index_le (x y : ArtifactRow.row * Blob.row) : Prop :=
  ArtifactRow.artifact_index x.1 <= ArtifactRow.artifact_index y.1.
#[global] Instance artifact_index_le_dec : RelDecision artifact_index_le := fun x y => decide (_ <= _).
(** [WHERE a.snapshot_id = ?1 ORDER BY a.artifact_index] *)
Definition rows_of_snapshot (snapshot_id : string) (d : Db) : list (ArtifactRow.row * Blob.row) :=
  merge_sort artifact_index_le
    (omap (join_blob d) (select (fun a => eqs (ArtifactRow.snapshot_id a) snapshot_id) (artifact_rows d))).
(** [snapshots s JOIN manifests m ON m.id = s.manifest_id WHERE s.id = ?1 AND
    s.deleted_at IS NULL] *)
Definition live_snapshot_manifest (snapshot_id : string) (d : Db) : option (Snapshot.row * ManifestRow.row) :=
  s ← live_snapshot_by_id snapshot_id d;
  m ← manifest_by_id (Snapshot.manifest_id s) d;
  Some (s, m).

Definition drift_i64 (n : Z) : res ReconciliationError Z := ok_or (u64_to_i64 n) Drift.

(** The loop of [reconcile_snapshot] over the zipped lists. *)
Fixpoint check_rows (index : Z) (arts : list Artifact) (rows : list (ArtifactRow.row * Blob.row))
  : res ReconciliationError unit :=
  match arts, rows with
  | a :: arts, (r, b) :: rows =>
      let? i := drift_i64 index in
      reject negb (ArtifactRow.artifact_index r =? i)
             || negb (eqs (ArtifactRow.logical_path r) (logical_path a))
             || negb (bool_decide (ArtifactRow.media_type r = media_type a)) with Drift;
      let? original := drift_i64 (original_size_bytes a) in
      reject negb (ArtifactRow.original_size_bytes r =? original)
             || negb (eqs (ArtifactRow.original_sha256 r) (digest_storage_value (original_sha256 a))) with Drift;
      let? stored := drift_i64 (stored_size_bytes a) in
      reject negb (Blob.stored_size_bytes b =? stored)
             || negb (eqs (Blob.stored_sha256 b) (digest_storage_value (stored_sha256 a)))
             || negb (eqs (Blob.compression b) (as_str (compression a))) with Drift;
      check_rows (index + 1) arts rows
  | _, _ => Ok tt
  end.

(** Runs a handler up to its next case distinction. *)
Ltac wp_run := repeat (first [wp_step; [done|] | wp_step | progress simpl]).

Section Handlers.
Context `{Env} `{UuidLib} `{ShaLib} `{JsonLib}.

Definition metadata_err (e : SqlxError) : ReconciliationError := Metadata.
Definition reconcile_snapshot (snapshot_id : string) : M ReconciliationError unit :=
  let! row := query metadata_err (live_snapshot_manifest snapshot_id) in
  let! sm := lift (ok_or row NotFound) in
  let '(snapshot, mrow) := sm in
  refuse negb (eqs (sha256_hex (string_bytes (ManifestRow.canonical_json mrow))) (ManifestRow.sha256 mrow)) with Drift;
  let! manifest := lift (ok_or (manifest_of_json (ManifestRow.canonical_json mrow)) Drift) in
  let! rows := query metadata_err (rows_of_snapshot snapshot_id) in
  refuse negb (Nat.eqb (length rows) (length (artifacts manifest))) with Drift;
  let! count := lift (drift_i64 (Z.of_nat (length (artifacts manifest)))) in
  refuse negb (Snapshot.artifact_count snapshot =? count) with Drift;
  let! totals := lift (res_map_err (fun _ => Drift) (manifest_totals manifest)) in
  let! original := lift (drift_i64 totals.1) in
  refuse negb (Snapshot.total_original_size_bytes snapshot =? original) with Drift;
  let! stored := lift (drift_i64 totals.2) in
  refuse negb (Snapshot.total_stored_size_bytes snapshot =? stored) with Drift;
  lift (check_rows 0 (artifacts manifest) rows).

(* ------------------------------------------------------------------ *)
(** ** What it decides *)

(** A row and its blob say what the manifest says at this index. *)
Record row_matches (index : Z) (a : Artifact) (rb : ArtifactRow.row * Blob.row) : Prop := {
  rm_index : ArtifactRow.artifact_index rb.1 = index;
  rm_path : ArtifactRow.logical_path rb.1 = logical_path a;
  rm_media : ArtifactRow.media_type rb.1 = media_type a;
  rm_original : ArtifactRow.original_size_bytes rb.1 = original_size_bytes a;
  rm_original_digest : ArtifactRow.original_sha256 rb.1 = digest_storage_value (original_sha256 a);
  rm_stored : Blob.stored_size_bytes rb.2 = stored_size_bytes a;
  rm_stored_digest : Blob.stored_sha256 rb.2 = digest_storage_value (stored_sha256 a);
  rm_compression : Blob.compression rb.2 = as_str (compression a);
  (** Every number fits the column. *)
  rm_fits : index <= i64_max /\ original_size_bytes a <= i64_max /\ stored_size_bytes a <= i64_max;
}.
Fixpoint rows_match (index : Z) (arts : list Artifact) (rows : list (ArtifactRow.row * Blob.row)) : Prop :=
  match arts, rows with
  | [], [] => True
  | a :: arts, rb :: rows => row_matches index a rb /\ rows_match (index + 1) arts rows
  | _, _ => False
  end.

(** The snapshot [q] and its rows are the projection of its manifest [m]. *)
Record projects (d : Db) (q : Snapshot.row) (mrow : ManifestRow.row) (m : Manifest) : Prop := {
  pj_manifest : manifest_by_id (Snapshot.manifest_id q) d = Some mrow;
  pj_digest : ManifestRow.sha256 mrow = sha256_hex (string_bytes (ManifestRow.canonical_json mrow));
  pj_json : manifest_of_json (ManifestRow.canonical_json mrow) = Some m;
  pj_count : Snapshot.artifact_count q = Z.of_nat (length (artifacts m)) /\ Z.of_nat (length (artifacts m)) <= i64_max;
  pj_totals : manifest_totals m = Ok (Snapshot.total_original_size_bytes q, Snapshot.total_stored_size_bytes q)
              /\ Snapshot.total_original_size_bytes q <= i64_max /\ Snapshot.total_stored_size_bytes q <= i64_max;
  pj_rows : rows_match 0 (artifacts m) (rows_of_snapshot (Snapshot.id q) d);
}.

Lemma rows_match_length i arts rows : rows_match i arts rows -> length rows = length arts.
Proof. revert i rows. induction arts as [|a arts IH]; intros i [|rb rows]; simpl; [done..|]. intros [_ ?%IH]. by f_equal. Qed.
Lemma check_rows_Ok : forall arts i rows, length rows = length arts ->
  check_rows i arts rows = Ok tt <-> rows_match i arts rows.
Proof.
  induction arts as [|a arts IH]; intros i [|[r b] rows] Hl; try done. injection Hl as Hl.
  cbn [check_rows rows_match]. split.
  - intros Hc. unfold drift_i64 in Hc. inv_res.
    repeat match goal with
    | Hx : u64_to_i64 _ = Some _ |- _ => apply u64_to_i64_Some in Hx as [-> ?]
    | Hx : (_ || _) = false |- _ => apply orb_false_iff in Hx as [? ?]
    | Hx : negb _ = false |- _ => apply negb_false_iff in Hx
    end.
    split; [|by apply IH].
    repeat match goal with
    | Hx : eqs _ _ = true |- _ => apply eqs_true in Hx
    | Hx : (_ =? _) = true |- _ => apply Z.eqb_eq in Hx
    | Hx : bool_decide _ = true |- _ => apply bool_decide_eq_true in Hx
    end.
    by split.
  - intros [[E1 E2 E3 E4 E5 E6 E7 E8 (F1 & F2 & F3)] Hm]. simpl in *. unfold drift_i64.
    rewrite !u64_to_i64_fits by done. simpl.
    rewrite E1, E2, E3, E4, E5, E6, E7, E8, !Z.eqb_refl, !eqs_refl, bool_decide_eq_true_2 by done. simpl.
    by apply IH.
Qed.

Lemma check_rows_Err : forall arts i rows e, check_rows i arts rows = Err e -> e = Drift.
Proof.
  induction arts as [|a arts IH]; intros i [|[r b] rows] e; try done. cbn [check_rows]. unfold drift_i64.
  destruct (u64_to_i64 i); simpl; [|congruence]. case_match; [congruence|].
  destruct (u64_to_i64 (original_size_bytes a)); simpl; [|congruence]. case_match; [congruence|].
  destruct (u64_to_i64 (stored_size_bytes a)); simpl; [|congruence]. case_match; [congruence|]. apply IH.
Qed.
(** A refusal contradicts a part of [projects]. *)
Ltac drift :=
  simpl; split; [done|]; eexists _, _; split; [reflexivity|];
  let m0 := fresh "m0" in intros m0 [? ? ? [? ?] [? [? ?]] ?]; try simplify_eq;
  try match goal with H1 : ?x = Ok _, H2 : ?x = _ |- _ => rewrite H1 in H2; simplify_eq end; try done.

(** Reconciliation changes nothing; it succeeds exactly on the projection of a
    manifest, and reports [Drift] exactly when a live snapshot is not one. *)
Lemma reconcile_snapshot_spec id s :
  wp (reconcile_snapshot id) (fun r s' => s' = s /\
    match r with
    | Ok _ => exists q mrow m, live_snapshot_by_id id (db s) = Some q /\ projects (db s) q mrow m
    | Err NotFound => live_snapshot_manifest id (db s) = None
    | Err Metadata => True
    | Err Drift => exists q mrow, live_snapshot_manifest id (db s) = Some (q, mrow)
                   /\ forall m, ~ projects (db s) q mrow m
    end) s.
Proof.
  unfold reconcile_snapshot. wp_run.
  destruct (live_snapshot_manifest id (db s)) as [[q mrow]|] eqn:Es; wp_run; [|done].
  unfold live_snapshot_manifest in Es.
  destruct (live_snapshot_by_id id (db s)) as [q'|] eqn:Eq; simpl in Es; [|done].
  destruct (manifest_by_id _ _) as [m'|] eqn:Em; simpl in Es; [|done]. simplify_eq.
  assert (Hid : Snapshot.id q = id) by (by apply select_one_Some in Eq as [[?%eqs_true _]%andb_true_iff _]).
  destruct (eqs (sha256_hex (string_bytes (ManifestRow.canonical_json mrow))) (ManifestRow.sha256 mrow)) eqn:Ed; wp_run.
  2: { drift. by rewrite pj_digest0, eqs_refl in Ed. }
  apply eqs_true in Ed. destruct (manifest_of_json _) as [m|] eqn:Ej; wp_run; [|drift].
  destruct (Nat.eqb_spec (length (rows_of_snapshot id (db s))) (length (artifacts m))) as [El|El]; wp_run.
  2: { drift. by apply rows_match_length in pj_rows0. }
  unfold drift_i64. destruct (u64_to_i64 (Z.of_nat _)) as [count|] eqn:Ec; wp_run.
  2: { drift. by rewrite u64_to_i64_fits in Ec. }
  apply u64_to_i64_Some in Ec as [-> Hc].
  destruct (Z.eqb_spec (Snapshot.artifact_count q) (Z.of_nat (length (artifacts m)))) as [En|En]; wp_run; [|drift].
  destruct (manifest_totals m) as [[o t]|e] eqn:Et; wp_run; [|drift].
  destruct (u64_to_i64 o) as [o'|] eqn:Eo; wp_run.
  2: { drift. by rewrite u64_to_i64_fits in Eo. }
  apply u64_to_i64_Some in Eo as [-> Ho].
  destruct (Z.eqb_spec (Snapshot.total_original_size_bytes q) o) as [<-|]; wp_run; [|drift].
  destruct (u64_to_i64 t) as [t'|] eqn:Es; wp_run.
  2: { drift. by rewrite u64_to_i64_fits in Es. }
  apply u64_to_i64_Some in Es as [-> Hs].
  destruct (Z.eqb_spec (Snapshot.total_stored_size_bytes q) t) as [<-|]; wp_run; [|drift].
  split; [done|]. destruct (check_rows _ _ _) as [[]|e] eqn:Er.
  - exists q, mrow, m. split; [done|]. split; try done. apply check_rows_Ok in Er; by rewrite ?Hid.
  - assert (e = Drift) as -> by (eapply check_rows_Err; exact Er).
    eexists _, _. split; [reflexivity|]. intros m0 [? ? ? _ _ Hm]. simplify_eq.
    apply check_rows_Ok in Hm; [|done]. by rewrite Hm in Er.
Qed.
End Handlers.
