(* ===== verification/Canonical.v ===== *)
(** A snapshot is the projection of its canonical manifest.  The rows of a
    live snapshot never drift from the document it was published from: the
    document is filed for good, and the rows were written from it. *)
From stdpp Require Import prelude strings gmap sorting list list_numbers relations.
From Stdlib Require Import ZArith Ascii Lia.
From Stdlib.Strings Require Import Byte.
From S2P Require Import Prelude Errors Contract Externals Validation Chunks Fingerprint Pagination.
From S2P Require Import Tables Store Storage Uploads Receipts Completion Deletion Recovery Archive.
From S2P Require Import Invariants Assembly Publication Reclamation Visibility Catalogue Lifecycle Ledger Restart System.
From S2P Require Import Filing Refinement Reconcile.

(* ------------------------------------------------------------------ *)
(** ** An entry of the catalogue and its document *)

(** An artifact of the catalogue is the artifact [a] at [index] of a manifest. *)
Record entry_matches (index : Z) (a : Artifact) (x : PublishedArtifact * option StoredBlob) : Prop := {
  em_index : pa_index x.1 = index;
  em_path : pa_logical_path x.1 = logical_path a;
  em_media : pa_media_type x.1 = media_type a;
  em_original : pa_original_size x.1 = original_size_bytes a;
  em_original_digest : pa_original_sha256 x.1 = digest_storage_value (original_sha256 a);
  em_stored : exists b, x.2 = Some b /\ sb_size b = stored_size_bytes a /\ sb_digest b = stored_digest a
              /\ sb_compression b = as_str (compression a);
  em_fits : index <= i64_max /\ original_size_bytes a <= i64_max /\ stored_size_bytes a <= i64_max;
}.
Fixpoint entries_match (index : Z) (arts : list Artifact) (xs : list (PublishedArtifact * option StoredBlob)) : Prop :=
  match arts, xs with
  | [], [] => True
  | a :: arts, x :: xs => entry_matches index a x /\ entries_match (index + 1) arts xs
  | _, _ => False
  end.

Section Documents.
Context `{ML : MimeLib} `{SL : ShaLib} `{ZL : ZstdLib} `{JL : JsonLib}.

(** [mrow] holds the document [m] the entry was published from. *)
Record documents (d : Db) (p : Published) (mrow : ManifestRow.row) (m : Manifest) : Prop := {
  dc_row : manifest_by_id (ph_manifest (p_header p)) d = Some mrow;
  dc_json : manifest_of_json (ManifestRow.canonical_json mrow) = Some m;
  dc_count : ph_artifact_count (p_header p) = Z.of_nat (length (artifacts m)) /\ Z.of_nat (length (artifacts m)) <= i64_max;
  dc_totals : manifest_totals m = Ok (ph_original_bytes (p_header p), ph_stored_bytes (p_header p))
              /\ ph_original_bytes (p_header p) <= i64_max /\ ph_stored_bytes (p_header p) <= i64_max;
  dc_entries : entries_match 0 (artifacts m) (p_artifacts p);
}.
Definition canonical (s : Store) : Prop :=
  forall p, p ∈ c_published (catalogue (db s)) -> exists mrow m, documents (db s) p mrow m.

Lemma stored_of_blob d id b : stored_of d id = Some b ->
  exists r, blob_by_id id d = Some r /\ b = stored_blob r.
Proof.
  unfold stored_of, blob_by_id, stored_blobs, select_one, select. generalize (blobs d).
  intros l. induction l as [|r l IH]; [done|]. simpl. rewrite !filter_cons.
  change (eqs (sb_id (stored_blob r)) id) with (eqs (Blob.id r) id).
  destruct (decide _); [|exact IH]. simpl. intros [= <-]. by exists r.
Qed.
(** The rows of the artifacts, joined to their blobs, in the order they were
    written. *)
Lemma entries_join d arts : forall i rows,
  entries_match i arts (shown_artifact d <$> (published_artifact <$> rows)) -> rows_match i arts (omap (join_blob d) rows).
Proof.
  induction arts as [|a arts IH]; intros i [|r rows]; try done. cbn [entries_match fmap list_fmap].
  intros [[E1 E2 E3 E4 E5 (b & Eb & E6 & E7 & E8) E9] Hrest]. cbn [shown_artifact published_artifact fst snd] in *.
  apply stored_of_blob in Eb as (br & Hbr & ->). simpl in Hbr, E6, E7, E8.
  cbn [omap list_omap]. unfold join_blob at 1. rewrite Hbr. simpl. split; [by split|]. by apply IH.
Qed.
Lemma rows_match_Sorted arts : forall i rows, rows_match i arts rows ->
  StronglySorted artifact_index_le rows /\ Forall (fun rb => i <= ArtifactRow.artifact_index rb.1) rows
  /\ NoDup ((fun rb => ArtifactRow.artifact_index rb.1) <$> rows).
Proof.
  induction arts as [|a arts IH]; intros i [|rb rows]; try done; [intros _; split_and!; constructor|].
  intros [[E _ _ _ _ _ _ _ _] Hrest]. destruct (IH _ _ Hrest) as (Hs & Hle & Hn). rewrite Forall_forall in Hle.
  split_and!.
  - constructor; [done|]. apply Forall_forall. intros x Hx%Hle. unfold artifact_index_le. simpl in *. lia.
  - constructor; [simpl in *; lia|]. apply Forall_forall. intros x Hx%Hle. simpl in *. lia.
  - rewrite fmap_cons. constructor; [|done]. intros (x & Ex & Hx%Hle)%list_elem_of_fmap. simpl in *. lia.
Qed.
#[local] Instance artifact_index_le_total : Total artifact_index_le.
Proof. intros x y. unfold artifact_index_le. lia. Qed.
#[local] Instance artifact_index_le_trans : Transitive artifact_index_le.
Proof. intros x y z. unfold artifact_index_le. lia. Qed.
Lemma rows_match_sorted i arts rows : rows_match i arts rows -> merge_sort artifact_index_le rows = rows.
Proof.
  intros H. destruct (rows_match_Sorted _ _ _ H) as (Hs & _ & Hn).
  apply (Sorted_unique_strong artifact_index_le).
  - intros x y Hx Hy Hxy Hyx. rewrite merge_sort_Permutation in Hx.
    apply (NoDup_key_inj (fun rb => ArtifactRow.artifact_index rb.1) rows); [done..|].
    unfold artifact_index_le in *. lia.
  - apply Sorted_merge_sort, _.
  - by apply StronglySorted_Sorted.
  - apply merge_sort_Permutation.
Qed.

(** A live snapshot whose entry has a document is its projection. *)
Lemma documents_projects d q mrow m : ManifestRow.sha256 mrow = sha256_hex (string_bytes (ManifestRow.canonical_json mrow)) ->
  documents d (published d (header q)) mrow m -> projects d q mrow m.
Proof.
  intros Hd [Hrow Hj Hc Ht He]. split; [exact Hrow|exact Hd|exact Hj|exact Hc|exact Ht|].
  apply entries_join in He. unfold rows_of_snapshot. by erewrite rows_match_sorted.
Qed.
Lemma canonical_projects s q : manifests_sound s -> canonical s -> q ∈ snapshots (db s) -> live q = true ->
  exists mrow m, projects (db s) q mrow m /\ manifest_sound m.
Proof.
  intros Hm Hc Hq Hl. destruct (Hc (published (db s) (header q))) as (mrow & m & Hd).
  { apply list_elem_of_fmap_2, elem_of_headers. by exists q. }
  exists mrow, m. assert (Hin : mrow ∈ manifests (db s)) by (by apply dc_row, select_one_Some in Hd as [_ ?]).
  destruct (ms_filed _ Hm mrow Hin) as [H1 H2]. split; [by apply documents_projects|]. apply H2, Hd.
Qed.

(* ------------------------------------------------------------------ *)
(** ** Entries that stay *)

Lemma published_refers d p : p ∈ c_published (catalogue d) -> ph_manifest (p_header p) ∈ snapshot_manifests d.
Proof.
  intros (h & -> & (q & Hq & _ & ->)%elem_of_headers)%list_elem_of_fmap. by apply (list_elem_of_fmap_2 Snapshot.manifest_id).
Qed.
Lemma documents_kept d d' p mrow m : files_kept d d' -> p ∈ c_published (catalogue d) ->
  documents d p mrow m -> documents d' p mrow m.
Proof. intros Hf Hp%published_refers [Hrow ? ? ? ?]. split; [|done..]. by apply Hf. Qed.
Lemma canonical_kept s s' : filed s s' ->
  (forall p, p ∈ c_published (catalogue (db s')) -> p ∈ c_published (catalogue (db s))) -> canonical s -> canonical s'.
Proof.
  intros Hf Hp Hc p Hin%Hp. destruct (Hc p Hin) as (mrow & m & Hd). exists mrow, m. by eapply documents_kept.
Qed.
End Documents.

(* ------------------------------------------------------------------ *)
(** ** The rows a completion writes *)

(** The row of a prepared artifact, under the blob its digest is recorded as. *)
Definition row_of (sid : string) (ids : gmap string string) (p : PreparedArtifact) (r : ArtifactRow.row) : Prop :=
  let a := artifact p in
  ids !! stored_digest a = Some (ArtifactRow.blob_id r) /\ ArtifactRow.snapshot_id r = sid
  /\ ArtifactRow.artifact_index r = artifact_index p /\ ArtifactRow.logical_path r = logical_path a
  /\ ArtifactRow.media_type r = media_type a /\ ArtifactRow.original_size_bytes r = original_size_bytes a
  /\ original_size_bytes a <= i64_max /\ ArtifactRow.original_sha256 r = digest_storage_value (original_sha256 a).

Section Completing.
Context `{EV : Env} `{UL : UuidLib} `{TL : TimeLib} `{ML : MimeLib} `{SL : ShaLib} `{ZL : ZstdLib} `{JL : JsonLib}.
Context (st : AppState).

Lemma insert_artifacts_exact sid now seq ids l : forall s,
  wp (insert_artifacts sid now seq ids l) (fun r s' => r = Ok tt ->
    exists rows, db s' = with_artifact_rows (fun t => t ++ rows) (db s) /\ Forall2 (row_of sid ids) l rows) s.
Proof.
  induction l as [|p l IH]; intros s; simpl.
  - wp_step. intros _. exists []. split; [|constructor]. destruct (db s). unfold with_artifact_rows. simpl. by rewrite app_nil_r.
  - wp_step. wp_step. destruct (ids !! _) as [id|] eqn:Eid; simpl; [|done].
    wp_step. wp_step. simpl. wp_step. wp_step. destruct (to_sqlite_i64 _) eqn:Eo; simpl; [|done].
    apply to_sqlite_i64_Ok in Eo as [-> Ho].
    wp_step. wp_step; simpl; [done|]. intros d [] Ex.
    destruct (insert_row _ _ _) as [t|] eqn:Ei; [|done]. injection Ex as <-.
    apply insert_row_Some in Ei as [-> _]. eapply wp_mono; [|apply IH].
    intros r s' Hr Hok. destruct (Hr Hok) as (rows & E & HF). eexists (_ :: rows). split.
    + rewrite E. destruct (db s). unfold with_artifact_rows. simpl. by rewrite <-app_assoc.
    + constructor; [|exact HF]. by split_and!.
Qed.

(** Blob identifiers, whatever the state of the disk. *)
Lemma get_or_create_blob_recorded a now s :
  wp (get_or_create_blob st a now) (fun r s' =>
    blobs_added (db s) (db s') /\ forall id, r = Ok id -> blob_recorded (db s') id a) s.
Proof.
  assert (Hrefl : blobs_added (db s) (db s)) by apply blobs_added_refl.
  unfold get_or_create_blob. wp_step. wp_step. simpl. wp_step. wp_step.
  destruct (to_sqlite_i64 _) as [size|e] eqn:Ez; simpl; [|done]. apply to_sqlite_i64_Ok in Ez as [-> _].
  wp_step. wp_step; simpl; [done|]. intros d n Ex.
  destruct (insert_or_ignore _ _ _ _) as [[t k]|] eqn:Ei; [|done]. injection Ex as <- <-.
  set (s1 := mkStore _ (files s) (S (drawn s))).
  assert (Ha1 : blobs_added (db s) (db s1)).
  { apply insert_or_ignore_Some in Ei as [(-> & -> & _)|(-> & -> & _)].
    - assert (E : db s1 = db s) by (subst s1; simpl; by destruct (db s)). by rewrite E.
    - split; [|subst s1; by destruct (db s)]. intros b Hb. unfold stored_blobs. simpl.
      rewrite fmap_app. apply elem_of_app. by left. }
  clearbody s1. wp_step. wp_step; simpl; [done|]. intros row Hrow.
  apply select_one_Some in Hrow as [[_ Ed%eqs_true]%andb_true_iff Hrow].
  destruct (negb _ || _) eqn:Eb; [by wp_step|].
  apply orb_false_iff in Eb as [Ez%negb_false_iff%Z.eqb_eq Ec%negb_false_iff%eqs_true].
  wp_step. wp_step; simpl; [done|]. intros d2 [] [= <-]. wp_step.
  set (s2 := mkStore _ (files s1) (drawn s1)).
  assert (E2 : stored_blobs (db s2) = stored_blobs (db s1)) by apply stored_blobs_update.
  split.
  - eapply blobs_added_trans; [exact Ha1|]. split; [by rewrite E2|]. subst s2. by destruct (db s1).
  - intros id [= <-]. exists (stored_blob row). rewrite E2. split_and!; [|done..]. by apply list_elem_of_fmap_2.
Qed.
Lemma collect_blob_ids_recorded all now l : forall ids s, consistent all -> (forall p, p ∈ l -> p ∈ all) ->
  ids_recorded (db s) all ids ->
  wp (collect_blob_ids st now l ids) (fun r s' =>
    blobs_added (db s) (db s') /\ forall ids', r = Ok ids' -> ids_recorded (db s') all ids') s.
Proof.
  induction l as [|p l IH]; intros ids s Hc Hl Hids; simpl.
  - wp_step. split; [apply blobs_added_refl|]. by intros ids' [= <-].
  - assert (Hl' : forall q, q ∈ l -> q ∈ all) by (intros q Hq; apply Hl; by right).
    destruct (ids !! _) as [id|] eqn:E; [by apply IH|].
    wp_step. eapply wp_mono; [|apply get_or_create_blob_recorded]. intros [id|e] s1 [Ha1 Hr1]; simpl; [|done].
    eapply wp_mono; [|apply IH; [done|done|]].
    + intros r s2 [Ha2 Hr2]. split; [by eapply blobs_added_trans|done].
    + intros q id' Hq. destruct (decide (stored_digest (artifact p) = stored_digest (artifact q))) as [Eq|Hne].
      * rewrite Eq, lookup_insert_eq. intros [= <-].
        destruct (Hc p q) as [E1 E2]; [apply Hl; left|done|done|].
        eapply blob_recorded_consistent; [exact Eq|exact E1|exact E2|by apply Hr1].
      * rewrite lookup_insert_ne by done. intros Hid. eapply blob_recorded_added; [exact Ha1|]. by apply Hids.
Qed.

(* ------------------------------------------------------------------ *)
(** ** The transaction that publishes *)

(** The prepared artifacts are those of the manifest, in its order. *)
Record prepared_for (m : Manifest) (prepared : list PreparedArtifact) : Prop := {
  pf_artifacts : artifact <$> prepared = artifacts m;
  pf_indexes : artifact_index <$> prepared = seqZ 0 (Z.of_nat (length prepared));
  pf_stored : Forall (fun a => stored_size_bytes a <= i64_max) (artifacts m);
}.
(** The manifest of upload [u]. *)
Definition pending (u : string) (mrow : ManifestRow.row) (s : Store) : Prop :=
  select_one (fun r => eqs (ManifestRow.upload_id r) u) (manifests (db s)) = Some mrow
  /\ manifest_by_id (ManifestRow.id mrow) (db s) = Some mrow.
#[local] Instance pending_db u mrow : DbInvariant (pending u mrow).
Proof. intros s1 s2 E _. unfold pending. by rewrite E. Qed.

(** [s] is [s0] with the snapshot of the document [mrow], [m]. *)
Record published_from (s0 : Store) (mrow : ManifestRow.row) (m : Manifest) (row : Snapshot.row)
    (rows : list ArtifactRow.row) (prepared : list PreparedArtifact) (ids : gmap string string) (s : Store) : Prop := {
  pb_snapshots : snapshots (db s) = snapshots (db s0) ++ [row];
  pb_rows : artifact_rows (db s) = artifact_rows (db s0) ++ rows;
  pb_live : live row = true;
  pb_fresh : forall q, q ∈ snapshots (db s0) -> Snapshot.id q <> Snapshot.id row;
  pb_manifest : Snapshot.manifest_id row = ManifestRow.id mrow /\ manifest_by_id (ManifestRow.id mrow) (db s) = Some mrow;
  pb_written : Forall2 (row_of (Snapshot.id row) ids) prepared rows;
  pb_recorded : ids_recorded (db s) prepared ids;
  pb_count : Snapshot.artifact_count row = Z.of_nat (length prepared) /\ Z.of_nat (length prepared) <= i64_max;
  pb_totals : manifest_totals m = Ok (Snapshot.total_original_size_bytes row, Snapshot.total_stored_size_bytes row)
              /\ Snapshot.total_original_size_bytes row <= i64_max /\ Snapshot.total_stored_size_bytes row <= i64_max;
}.
Definition at_most_published (s0 : Store) (mrow : ManifestRow.row) (m : Manifest) (s : Store) : Prop :=
  same_rows s0 s \/ exists row rows prepared ids, prepared_for m prepared /\ published_from s0 mrow m row rows prepared ids s.
#[local] Instance at_most_published_db s0 mrow m : DbInvariant (at_most_published s0 mrow m).
Proof.
  intros s1 s2 E _ [Hs|(row & rows & prepared & ids & Hp & [P1 P2 P3 P4 P5 P6 P7 P8 P9])]; [left|right].
  - unfold same_rows. by rewrite E.
  - exists row, rows, prepared, ids. split; [done|]. split; try done; by rewrite E.
Qed.

Lemma published_from_same s0 mrow m row rows prepared ids s s' : same_archive s s' -> filed s s' ->
  published_from s0 mrow m row rows prepared ids s -> published_from s0 mrow m row rows prepared ids s'.
Proof.
  intros [D _] Hf [P1 P2 P3 P4 [P5 P5'] P6 P7 P8 P9]. injection D as EB ES EA. split; try done; [congruence|congruence|..].
  - split; [done|]. apply Hf; [|done]. rewrite <-P5. apply (list_elem_of_fmap_2 Snapshot.manifest_id). rewrite P1.
    apply elem_of_app. right. left.
  - intros p id Hp Hid. destruct (P7 p id Hp Hid) as (b & Hb & ?). exists b. by rewrite EB.
Qed.
Lemma keeps_published_same s0 mrow m {E A} (c : M E A) :
  (forall s, keeps (same_archive s) c) -> (forall s, keeps (filed s) c) -> keeps (at_most_published s0 mrow m) c.
Proof.
  intros H1 H2 s Hs. eapply wp_mono; [|apply wp_and; [apply (H1 s s), same_archive_refl|apply (H2 s s), files_kept_refl]].
  intros r s' [Ha Hf]. destruct Hs as [[E1 E2]|(row & rows & prepared & ids & Hp & Hs)].
  - left. destruct Ha as [D _]. injection D as _ ES EA. split; congruence.
  - right. exists row, rows, prepared, ids. split; [done|]. by eapply published_from_same.
Qed.

Lemma published_finalize_tail s0 mrow m upload m' mid sid now a b :
  keeps (at_most_published s0 mrow m)
    (let! transfer := lift (to_sqlite_i64 a) in
     let! persisted := lift (to_sqlite_i64 b) in
     let! updated := execute classify_database_error (fun d =>
       Some (complete_rows (Upload.id upload) sid now transfer persisted d)) in
     if updated =? 1 then insert_capture_provenance st upload m' mid sid now
     else
       let! same := query db_err (completed_with (Upload.id upload) sid) in
       if (same : bool) then ret tt else throw upload_state_conflict).
Proof.
  pose proof (fun s => same_insert_capture_provenance st s upload m' mid sid now).
  pose proof (fun s => filed_insert_capture_provenance st s upload m' mid sid now).
  apply keeps_published_same; intros s.
  - repeat lazymatch goal with
    | |- keeps _ (execute _ (fun d => Some (complete_rows _ _ _ _ _ d))) => apply same_complete_rows
    | _ => keeps_same_step
    end.
  - keeps_filed_tac.
Qed.
Lemma publishes_transaction s0 mrow m upload prepared fp now seq a b :
  prepared_for m prepared -> consistent prepared ->
  leads (fun s => same_rows s0 s /\ pending (Upload.id upload) mrow s) (at_most_published s0 mrow m)
    (transaction classify_database_error classify_database_error (record_transaction st upload m prepared fp now seq a b)).
Proof.
  intros Hprep Hc s [Hs [Hp1 Hp2]]. apply wp_transaction; [by left|].
  assert (Hab : forall f n, at_most_published s0 mrow m (mkStore (db s) f n)) by (intros; by left).
  unfold record_transaction. wp_step.
  eapply wp_mono; [|apply (collect_blob_ids_recorded prepared now prepared ∅ s Hc (fun p Hp => Hp))].
  2: { intros p id _ Hid. by rewrite lookup_empty in Hid. }
  intros [ids|e] s1 [[_ Edb] Hids]; simpl; [|done]. specialize (Hids ids eq_refl).
  assert (Em : manifests (db s1) = manifests (db s)) by (by rewrite Edb).
  assert (Hs1 : same_rows s0 s1) by (unfold same_rows in *; by rewrite Edb).
  clear Edb. unfold manifest_by_id in Hp2. rewrite <-Em in Hp1, Hp2.
  wp_step. wp_step; simpl; [done|]. intros mid Hmid. unfold manifest_id_of in Hmid. rewrite Hp1 in Hmid.
  injection Hmid as <-. wp_step. wp_step; simpl; [done|].
  wp_step. wp_step. destruct (manifest_totals m) as [totals|] eqn:Et; simpl; [|done].
  wp_step. wp_step. simpl. set (candidate := now_v7 (drawn s1)).
  do 3 (wp_step; wp_step; match goal with |- context [then_wp _ _ ?c] =>
    let Hx := fresh "Hx" in destruct c as [?|?] eqn:Hx; [apply to_sqlite_i64_Ok in Hx as [-> ?]|] end; simpl; [|done]).
  wp_step. wp_step; simpl; [done|]. intros d n Ex.
  set (row := Snapshot.mk _ _ _ _ _ _ _ _ _ _ _ _ _) in Ex. unfold insert_snapshot in Ex.
  destruct (existsb _ (snapshots (db s1))) eqn:Ec; injection Ex as <- <-; simpl; [wp_step; by split|].
  rewrite existsb_false in Ec.
  wp_step. unfold finalize_winning_snapshot. wp_step. eapply wp_mono; [|apply insert_artifacts_exact].
  intros [[]|e] s2 Hr; simpl; [|done]. destruct (Hr eq_refl) as (rows & E2 & HF). simpl in E2.
  assert (Hs2 : at_most_published s0 mrow m s2).
  { right. exists row, rows, prepared, ids. split; [done|]. destruct Hs1 as [F1 F2].
    split; rewrite ?E2; simpl; try done; [by rewrite F1|by rewrite F2| |by rewrite Et; destruct totals].
    intros q Hq E. rewrite <-F1 in Hq. specialize (Ec q Hq). apply orb_false_iff in Ec as [Ec _]. by rewrite E, eqs_refl in Ec. }
  clear Hr HF E2. eapply wp_mono; [|apply (published_finalize_tail s0 mrow m upload m (ManifestRow.id mrow) candidate now _ _), Hs2].
  clear Hs2. intros [[]|e] s3 Hs3; simpl; [|done]. wp_step.
  match goal with |- wp ?c _ _ => assert (Hk : keeps (at_most_published s0 mrow m) c) end.
  { apply keeps_published_same; intros x; [keeps_same_tac|keeps_filed_tac]. }
  eapply wp_mono; [|apply Hk, Hs3]. intros [[]|e] s4 Hs4; simpl; [wp_step; by split|done].
Qed.

Lemma leads_after {E A} (I J : Store -> Prop) (c : M E A) : (forall s, I s -> J s) -> keeps J c -> leads I J c.
Proof. intros HIJ Hc s Hs. by apply Hc, HIJ. Qed.

Section Publishing.
Context (s0 : Store) (mrow : ManifestRow.row) (m : Manifest) (upload : Upload.row) (prepared : list PreparedArtifact).
Hypothesis Hprep : prepared_for m prepared.
Hypothesis Hc : consistent prepared.
Definition ready_to_publish (s : Store) : Prop := same_rows s0 s /\ pending (Upload.id upload) mrow s.
#[local] Instance ready_to_publish_db : DbInvariant ready_to_publish.
Proof. intros s1 s2 E Hle [Hr Hp]. split; [by apply (same_rows_db s0 s1)|by apply (pending_db _ _ s1)]. Qed.
Lemma ready_at_most s : ready_to_publish s -> at_most_published s0 mrow m s.
Proof. intros [? _]. by left. Qed.
#[local] Hint Resolve ready_at_most : keeps.

Lemma published_finalize_existing m' sid n :
  keeps (at_most_published s0 mrow m) (finalize_upload_for_existing_snapshot st upload m' sid n).
Proof. apply keeps_published_same; intros s; [apply same_finalize_existing|apply filed_finalize_existing]. Qed.
#[local] Hint Resolve published_finalize_existing : keeps.

Lemma publishes_record promotions fp a b :
  leads ready_to_publish (at_most_published s0 mrow m) (record_completed_upload st upload m prepared promotions fp a b).
Proof.
  unfold record_completed_upload, now_rfc3339.
  apply leads_pre; [apply ready_at_most|keeps_tac|intros now]. apply leads_pre; [apply ready_at_most|keeps_tac|intros seq].
  apply leads_post; [by apply publishes_transaction|intros won]. keeps_tac.
Qed.
Lemma publishes_deduplicate fp n :
  leads ready_to_publish (at_most_published s0 mrow m) (deduplicate st upload m prepared fp n).
Proof.
  assert (H3 : forall u, keeps (at_most_published s0 mrow m) (completion_for_upload st u)) by (intros; apply completion_for_upload_reads).
  assert (H5 : forall l, keeps ready_to_publish (ensure_blob_representations_compatible st l))
    by (intros; apply check_representations_reads).
  unfold deduplicate, find_snapshot_by_fingerprint, archive_new, join_existing, promote_unique_blobs, remove_upload_dir.
  repeat lazymatch goal with
  | |- leads _ _ (bind (attempt (record_completed_upload _ _ _ _ _ _ _ _)) _) =>
      apply leads_post; [apply leads_attempt, publishes_record|do 1 intro]
  | |- leads _ _ (bind (cleanup_prepared _) _) => apply leads_after; [apply ready_at_most|]
  | |- leads _ _ (bind _ _) => apply leads_pre; [apply ready_at_most| |do 1 intro]
  | |- leads _ _ (if ?b then _ else _) => destruct b
  | |- leads _ _ (match ?x with _ => _ end) => destruct x
  | |- leads _ _ _ => apply leads_after; [apply ready_at_most|]
  | _ => keeps_step
  end.
Qed.
End Publishing.

(** *** The order of the artifacts *)
Lemma check_projection_indexes cs arts : forall i rows, check_projection cs i arts rows = Ok tt ->
  length arts = length rows ->
  UploadArtifact.artifact_index <$> rows = seqZ i (Z.of_nat (length rows))
  /\ Forall (fun a => stored_size_bytes a <= i64_max) arts.
Proof.
  induction arts as [|a arts IH]; intros i [|row rows] Hk Hl; try done.
  cbn [check_projection] in Hk. injection Hl as Hl. inv_res.
  match goal with Hx : to_sqlite_i64 (stored_size_bytes a) = Ok _ |- _ => apply to_sqlite_i64_Ok in Hx as [-> ?] end.
  match goal with Hx : negb (UploadArtifact.artifact_index row =? i) || _ || _ = false |- _ => apply orb_false_iff in Hx as [[Hi%negb_false_iff%Z.eqb_eq _]%orb_false_iff _] end.
  destruct (IH _ _ Hk Hl) as [E HF]. split; [|by constructor].
  rewrite (seqZ_cons i) by lia. rewrite E, Hi. do 2 f_equal; lia.
Qed.
Lemma prepare_loop_indexes upload l : forall prepared s,
  wp (prepare_loop upload l prepared) (fun r _ => forall ps, r = Ok ps ->
    artifact_index <$> ps = (artifact_index <$> prepared) ++ ((fun ar => UploadArtifact.artifact_index ar.2) <$> l)) s.
Proof.
  induction l as [|[a row] l IH]; intros prepared s; simpl.
  - wp_step. intros ps [= <-]. by rewrite app_nil_r.
  - wp_step. wp_step. destruct (to_u32 _) as [index|] eqn:Ei; simpl; [|done]. apply to_u32_u64 in Ei as [-> _].
    wp_step. wp_step. simpl. apply wp_bind_any; [done|]. intros [[]|e] s1.
    + eapply wp_mono; [|apply IH]. intros r s' Hr ps ->. rewrite (Hr ps eq_refl), fmap_app, <-app_assoc. done.
    + apply wp_bind_any; [done|]. intros _ s2. apply wp_bind_any; [done|]. intros _ s3. by wp_step.
Qed.
Lemma prepare_artifacts_for upload m rows s :
  manifest_sound m -> length (artifacts m) = length rows ->
  UploadArtifact.artifact_index <$> rows = seqZ 0 (Z.of_nat (length rows)) ->
  Forall (fun a => stored_size_bytes a <= i64_max) (artifacts m) ->
  wp (prepare_artifacts upload m rows) (fun r s' => db s' = db s /\
    forall ps, r = Ok ps -> prepared_for m ps /\ consistent ps) s.
Proof.
  intros Hm Hl Hi Hz. unfold prepare_artifacts.
  eapply wp_mono; [|apply wp_and; [apply (prepare_artifacts_spec upload m rows s); [apply Hm|done]|
    apply (prepare_loop_indexes upload (zip (artifacts m) rows) [])]].
  intros r s' [[[E _] Ha] Hx]. split; [done|]. intros ps ->. destruct Ha as [_ Ha]. specialize (Hx ps eq_refl).
  assert (Hlen : length ps = length rows) by (rewrite <-Hl, <-Ha; by rewrite length_fmap).
  split; [|by apply (prepared_consistent m)]. split; [done| |done].
  rewrite Hx, Hlen, <-Hi. simpl. transitivity (UploadArtifact.artifact_index <$> (zip (artifacts m) rows).*2).
  - by rewrite <-list_fmap_compose.
  - rewrite snd_zip by lia. done.
Qed.

(** *** The whole request *)
Lemma pending_row u json s : manifests_sound s ->
  ManifestRow.canonical_json <$> select_one (fun r => eqs (ManifestRow.upload_id r) u) (manifests (db s)) = Some json ->
  exists mrow, pending u mrow s /\ ManifestRow.canonical_json mrow = json
    /\ forall m, manifest_of_json json = Some m -> manifest_sound m.
Proof.
  intros Hm. destruct (select_one _ (manifests (db s))) as [mrow|] eqn:E; [|done]. intros [= <-]. exists mrow.
  pose proof (select_one_Some _ _ _ E) as [_ Hin]. split; [split; [exact E|]|split; [done|by apply (ms_filed _ Hm)]].
  unfold manifest_by_id. destruct (select_one (fun r => eqs (ManifestRow.id r) (ManifestRow.id mrow)) (manifests (db s))) as [r|] eqn:Er.
  - apply select_one_Some in Er as [Eid%eqs_true Hr]. f_equal.
    by apply (NoDup_key_inj ManifestRow.id (manifests (db s))); [apply Hm| | |].
  - rewrite select_one_None in Er. specialize (Er mrow Hin). by rewrite eqs_refl in Er.
Qed.
Definition publishes_one (s0 s : Store) : Prop := same_rows s0 s \/ exists mrow m row rows prepared ids,
  manifest_of_json (ManifestRow.canonical_json mrow) = Some m /\ prepared_for m prepared
  /\ published_from s0 mrow m row rows prepared ids s.
Lemma publishes_complete_upload id s0 : manifests_sound s0 ->
  wp (complete_upload st id) (fun _ s => publishes_one s0 s) s0.
Proof.
  intros Hm0. unfold complete_upload, get_upload_manifest, get_upload_artifacts.
  assert (Hno : forall s, same_rows s0 s -> publishes_one s0 s) by (intros; by left).
  wp_step. wp_step. destruct (parse_uuid _ _) as [u|]; simpl; [|by apply Hno].
  wp_step. eapply wp_mono; [|apply wp_and; [apply (same_archive_rows _ s0 (fun s => same_require_active_upload s u)), same_rows_refl|
    apply wp_and; [apply (keeps_manifests_fewer _ (fun s => fewer_require_active_upload s u)), Hm0|
      apply (require_active_upload_spec u)]]].
  intros [upload|e] s1 (Hs1 & Hm1 & Hid); simpl; [|by apply Hno].
  destruct (eqs _ _); [eapply wp_mono; [|apply (completion_for_upload_reads st (same_rows s0) u), Hs1]; intros; by apply Hno|].
  wp_step. wp_step. wp_step; simpl; [intros; by apply Hno|]. intros json Hj.
  apply pending_row in Hj as (mrow & Hpend & <- & Hsound); [|done].
  wp_step. destruct (manifest_of_json _) as [m|] eqn:Em; simpl; [|by apply Hno]. specialize (Hsound m eq_refl).
  wp_step. wp_step. destruct (validate_current_manifest_limits _ _); simpl; [|by apply Hno].
  wp_step. wp_step; simpl; [intros; by apply Hno|]. wp_step. wp_step.
  destruct (validate_upload_projection _ _ _) as [[]|] eqn:Ev; simpl; [|by apply Hno].
  unfold validate_upload_projection in Ev. inv_res.
  match goal with Hx : _ || _ = false |- _ => apply orb_false_iff in Hx as [Hl%negb_false_iff%Nat.eqb_eq _] end.
  destruct (check_projection_indexes _ _ _ _ Ev Hl) as [Hi Hz].
  wp_step. eapply wp_mono; [|by apply prepare_artifacts_for]. intros [prepared|e] s2 [Edb Hp]; simpl.
  2: { apply Hno. unfold same_rows in *. by rewrite Edb. }
  destruct (Hp prepared eq_refl) as [Hprep Hc].
  assert (Hs2 : same_rows s0 s2) by (unfold same_rows in *; by rewrite Edb).
  wp_step. wp_step. destruct (manifest_totals m); simpl; [|by apply Hno].
  wp_step. wp_step. destruct (snapshot_fingerprint m); simpl; [|by apply Hno].
  eapply wp_mono; [|eapply (publishes_deduplicate s0 mrow m upload prepared Hprep Hc); split; [exact Hs2|]].
  - intros r s3 [Hs3|(row & rows & ps & ids & Hps & Hpub)]; [by left|right]. by exists mrow, m, row, rows, ps, ids.
  - destruct (proj2 Hid upload eq_refl) as (_ & _ & [->%eqs_true _]%select_one_Some).
    unfold pending in *. by rewrite Edb.
Qed.
End Completing.

(* ------------------------------------------------------------------ *)
(** ** Every reachable store *)

Lemma written_matches d sid ids all : NoDup (sb_id <$> stored_blobs d) -> ids_recorded d all ids ->
  forall prepared rows i, Forall2 (row_of sid ids) prepared rows -> (forall p, p ∈ prepared -> p ∈ all) ->
  artifact_index <$> prepared = seqZ i (Z.of_nat (length prepared)) ->
  Forall (fun a => stored_size_bytes a <= i64_max) (artifact <$> prepared) ->
  i + Z.of_nat (length prepared) <= i64_max ->
  entries_match i (artifact <$> prepared) (shown_artifact d <$> (published_artifact <$> rows)).
Proof.
  intros Hn Hids prepared rows i HF. revert i.
  induction HF as [|p r prepared rows (R1 & _ & R2 & R3 & R4 & R5 & R6 & R7) HF IH]; intros i Hin Hi Hz Hb; [done|].
  cbn [fmap list_fmap length] in Hi, Hz, Hb |- *. apply Forall_cons in Hz as [Hz1 Hz].
  rewrite (seqZ_cons i) in Hi by lia. injection Hi as Hi1 Hi.
  destruct (Hids p _ (Hin p ltac:(left)) R1) as (b & Hb1 & Hb2 & Hb3 & Hb4 & Hb5).
  cbn [entries_match]. split.
  - split; cbn [shown_artifact published_artifact fst snd pa_index pa_logical_path pa_media_type pa_original_size
      pa_original_sha256 pa_blob_id]; [congruence|done..| |lia].
    exists b. rewrite <-Hb2. by rewrite stored_of_known.
  - apply IH; [intros q Hq; apply Hin; by right| |done|lia].
    rewrite Hi. f_equal; lia.
Qed.

Section Reachable.
Context `{UL : UuidLib} {ULaws : UuidLaws UL} `{TL : TimeLib} `{ML : MimeLib} `{SL : ShaLib} `{ZL : ZstdLib}
  `{JL : JsonLib} {JLaws : JsonLaws JL}.
Context (st : AppState).
Hypothesis Hst : limits_typed (manifest_limits st).

Lemma canonical_publishes {EV : Env} s s' : publishes_one s s' -> filed s s' -> grown s s' ->
  restartable st s -> restartable st s' -> canonical s -> canonical s'.
Proof.
  intros Hp Hf Hg Hr Hr' Hc.
  pose proof (restartable_known st s Hr) as Hk. pose proof (restartable_known st s' Hr') as Hk'.
  destruct Hp as [Hs|(mrow & m & row & rows & prepared & ids & Ej & [F1 F2 F3] & [P1 P2 P3 P4 [P5 P5'] P6 P7 P8 P9])].
  { apply (canonical_kept s); [done| |done]. rewrite (catalogue_same_rows s s'); [done|done|].
    destruct Hs as [_ E]. intros a Ha. rewrite E in Ha. by apply (blobs_agree_more (db s)); [|apply Hk'| |]. }
  assert (Hrows : Forall (fun a => ArtifactRow.snapshot_id a = Snapshot.id row) rows).
  { clear -P6. induction P6 as [|x y l k (_ & Hx & _) _ IH]; constructor; done. }
  intros p Hp. rewrite (appended_catalogue s s' row rows) in Hp by done. simpl in Hp.
  apply elem_of_app in Hp as [Hp| ->%list_elem_of_singleton].
  { destruct (Hc p Hp) as (mrow' & m' & Hd). exists mrow', m'. by eapply documents_kept. }
  exists mrow, m. assert (El : length (artifacts m) = length prepared) by (by rewrite <-F1, length_fmap).
  split; simpl; [by rewrite P5|done|by rewrite El|done|].
  assert (Ea : artifacts_of (Snapshot.id row) (db s') = rows).
  { unfold artifacts_of, select. rewrite P2, filter_app, (list_filter_none _ (artifact_rows (db s))), (list_filter_id _ rows); [done|..].
    - intros a Ha. rewrite eqs_true. rewrite Forall_forall in Hrows. by apply Hrows.
    - intros a Ha E%eqs_true. destruct Hr as (_ & Hw & _).
      destruct (sw_known _ Hw a Ha) as (q & Hq & Eq). apply (P4 q Hq). by rewrite Eq. }
  rewrite Ea, <-F1. eapply written_matches; [apply Hk'|exact P7|exact P6|done|done|by rewrite F1|].
  destruct P8 as [_ P8]. lia.
Qed.

Lemma serve_filed EV r s n : restartable st s -> filed s (serve st EV r (s, n)).
Proof.
  intros Hs. assert (H0 : filed s s) by apply files_kept_refl.
  destruct r as [id payload|payload|u|u a i headers body|u|u|t|id headers payload|id| |t|]; simpl;
    [apply (keeps_outcome (filed s)); [|done]..|].
  - apply filed_register_client.
  - apply filed_create_upload.
  - apply filed_get_upload_status.
  - apply filed_put_artifact_chunk.
  - apply filed_abandon_upload.
  - apply filed_complete_upload.
  - apply filed_expire_uploads_at.
  - apply filed_delete_snapshot.
  - unfold get_tombstone. keeps_tac. apply tombstone_response_reads.
  - unfold run_blob_gc. keeps_tac. apply filed_collect.
  - apply filed_collect.
  - destruct Hs as (_ & Hw & _). exact (filed_bootstrap_recovery st s (sw_ids _ Hw) s eq_refl n).
Qed.
Lemma serve_canonical EV r s n : request_typed r -> restartable st s -> canonical s -> canonical (serve st EV r (s, n)).
Proof.
  intros Hr Hs Hc. pose proof (serve_restartable st Hst EV r s n Hr Hs) as Hs'. pose proof (serve_filed EV r s n Hs) as Hf.
  destruct (changes_catalogue r) eqn:Ec.
  - destruct r as [| | | | |u| |id headers payload| | | |]; try done; simpl in Hs', Hf |- *.
    + eapply canonical_publishes; [|exact Hf| |exact Hs|exact Hs'|exact Hc].
      * apply (publishes_complete_upload st u s). apply Hs.
      * apply (grown_complete_upload st s u s). by intros b.
    + apply (canonical_kept s); [done| |done]. intros p. by apply delete_shows.
  - apply (canonical_kept s); [done| |done]. intros p.
    destruct (serve_refines st Hst EV r s n Hr Hs) as [E|[E _]]; [by rewrite E|congruence].
Qed.
Lemma reachable_canonical s : reachable st s -> canonical s.
Proof.
  induction 1 as [s [l Hi]%initial_db|s s' Hs IH [EV r n Hr]].
  - intros p. rewrite Hi. by intros ?%elem_of_nil.
  - by apply serve_canonical; [|apply reachable_restartable|].
Qed.

Lemma reachable_projects s q : reachable st s -> q ∈ snapshots (db s) -> live q = true ->
  exists mrow m, projects (db s) q mrow m /\ manifest_sound m.
Proof.
  intros Hs. apply canonical_projects; [|by apply reachable_canonical].
  by destruct (reachable_restartable st Hst s Hs) as ((_ & _ & Hm) & _).
Qed.
End Reachable.
