(* ===== verification/Documents.v ===== *)
(** The documents the reading half of the API answers with ([contract.rs]):
    sessions, snapshots, manifests, artifacts, and the archive's inventory. *)
From stdpp Require Import prelude strings list.
From Stdlib Require Import ZArith.
From S2P Require Import Prelude Errors Contract Externals Pagination.

Record ArtifactResponse : Type := {
  ar_artifact_id : string;
  ar_artifact_index : Z;
  ar_logical_path : string;
  ar_media_type : option string;
  ar_original_size_bytes : Z;
  ar_original_sha256 : string;
  ar_stored_size_bytes : Z;
  ar_stored_sha256 : string;
  ar_compression : Compression;
  ar_content_url : string;
  ar_metadata_url : string;
}.

Record SnapshotResponse : Type := {
  sr_snapshot_id : string;
  sr_session_id : string;
  sr_snapshot_fingerprint : string;
  sr_manifest_id : string;
  sr_manifest_sha256 : string;
  sr_completed_at : string;
  sr_artifact_count : Z;
  sr_total_original_bytes : Z;
  sr_total_stored_bytes : Z;
  sr_capture_count : Z;
  sr_manifest : Manifest;
  sr_artifacts : list ArtifactResponse;
  sr_captures_url : string;
  sr_manifest_url : string;
}.

Record SnapshotCapturesResponse : Type := {
  sc_snapshot_id : string;
  sc_captures : list CaptureProvenance;
  sc_next_cursor : option string;
  sc_high_watermark : option PageHighWatermark;
}.

Record ArchiveStats : Type := {
  st_schema_version : Z;
  st_generated_at : string;
  st_archive_instance_id : string;
  st_sessions : Z;
  st_snapshots : Z;
  st_captures : Z;
  st_artifacts : Z;
  st_blobs : Z;
  st_stored_bytes : Z;
  st_original_bytes : Z;
  st_blob_stored_bytes : Z;
  st_clients : Z;
  st_tombstones : Z;
  st_last_ingest_at : option string;
  st_oldest_activity_at : option string;
  st_newest_activity_at : option string;
}.

Record ClientInventoryEntry : Type := {
  ci_client_id : string;
  ci_hostname : option string;
  ci_display_name : option string;
  ci_first_seen_at : string;
  ci_last_seen_at : option string;
  ci_capture_count : Z;
  ci_last_capture_at : option string;
}.

Record SessionLatestSnapshot : Type := {
  ls_snapshot_id : string;
  ls_completed_at : string;
  ls_project : option string;
  ls_repository : option string;
  ls_branch : option string;
  ls_source_agent_version : option string;
  ls_artifact_set_version : Z;
  ls_snapshot_url : string;
  ls_manifest_url : string;
}.
Record SessionResponse : Type := {
  se_session_id : string;
  se_source_agent : string;
  se_source_session_id : string;
  se_created_at : string;
  se_updated_at : string;
  se_latest_snapshot : SessionLatestSnapshot;
  se_captures_url : string;
  se_snapshots_url : string;
}.

Record SnapshotSummary : Type := {
  ss_snapshot_id : string;
  ss_session_id : string;
  ss_snapshot_fingerprint : string;
  ss_manifest_id : string;
  ss_manifest_sha256 : string;
  ss_completed_at : string;
  ss_artifact_count : Z;
  ss_total_original_bytes : Z;
  ss_total_stored_bytes : Z;
  ss_capture_count : Z;
  ss_snapshot_url : string;
  ss_captures_url : string;
  ss_manifest_url : string;
}.

Record CanonicalManifestSummary : Type := {
  ms_manifest_id : string;
  ms_snapshot_id : string;
  ms_session_id : string;
  ms_capture_record_id : string;
  ms_sha256 : string;
  ms_created_at : string;
  ms_completed_at : string;
  ms_snapshot_url : string;
  ms_capture_url : string;
  ms_manifest_url : string;
}.
Record CanonicalManifestResponse : Type := {
  mr_manifest_id : string;
  mr_snapshot_id : string;
  mr_session_id : string;
  mr_capture_record_id : string;
  mr_sha256 : string;
  mr_created_at : string;
  mr_completed_at : string;
  mr_snapshot_url : string;
  mr_capture_url : string;
  mr_manifest_url : string;
  mr_manifest : Manifest;
}.

Record ArtifactMetadataResponse : Type := {
  am_artifact_id : string;
  am_snapshot_id : string;
  am_artifact_index : Z;
  am_logical_path : string;
  am_media_type : option string;
  am_original_size_bytes : Z;
  am_original_sha256 : string;
  am_stored_size_bytes : Z;
  am_stored_sha256 : string;
  am_compression : Compression;
  am_created_at : string;
  am_metadata_url : string;
  am_content_url : string;
}.
