(* ===== verification/Retrieval.v ===== *)
(** Browsing the archive ([retrieval.rs]): the filters of each collection, the
    listings with their joins, and the single-resource reads.  Every handler
    only reads; what a deleted snapshot held is never shown. *)
From stdpp Require Import prelude strings gmap sorting list.
From Stdlib Require Import ZArith Ascii Lia.
From S2P Require Import Prelude Errors Contract Externals Validation Chunks Fingerprint Pagination Documents.
From S2P Require Import Tables Store Storage Uploads Receipts Reconcile.

Definition MAX_CONTEXT_FILTER_BYTES : Z := 512.
Definition MAX_SOURCE_AGENT_FILTER_BYTES : Z := 128.
Definition SESSION_CURSOR_KIND : string := "sessions".
Definition SESSION_CAPTURE_CURSOR_KIND : string := "session_captures".
Definition SESSION_SNAPSHOT_CURSOR_KIND : string := "session_snapshots".
Definition SNAPSHOT_CAPTURE_CURSOR_KIND : string := "snapshot_captures".
Definition CAPTURE_CURSOR_KIND : string := "captures".
Definition SNAPSHOT_CURSOR_KIND : string := "snapshots".
Definition MANIFEST_CURSOR_KIND : string := "manifests".
Definition ARTIFACT_CURSOR_KIND : string := "artifacts".

(** [#[derive(Serialize)]] on a struct of filters: its fields in order, an
    absent option as [null] unless the field is skipped. *)
Inductive FilterValue : Type := FNull | FText (s : string) | FNumber (n : Z).
Definition text_value (o : option string) : FilterValue := match o with Some s => FText s | None => FNull end.
Definition number_value (o : option Z) : FilterValue := match o with Some n => FNumber n | None => FNull end.
Abbreviation FilterFields := (list (string * FilterValue)).
(** [serde_json::to_vec] on a pair of a cursor kind and a struct of filters. *)
Class FilterJson := { filters_json : string -> FilterFields -> option bytes }.

(** [transpose] of an optional fallible value. *)
Definition opt_map {A B} (f : A -> res ApiError B) (o : option A) : res ApiError (option B) :=
  match o with
  | None => Ok None
  | Some a => let? b := f a in Ok (Some b)
  end.
(** An optional filter, as the [AND column = ?] that is pushed when it is set. *)
Definition wanted {A} `{EqDecision A} (filter_ : option A) (column : A) : bool :=
  match filter_ with Some v => bool_decide (column = v) | None => true end.
Definition wanted_opt (filter_ : option string) (column : option string) : bool :=
  match filter_ with Some v => bool_decide (column = Some v) | None => true end.
Definition at_least_seq (filter_ : option Z) (column : Z) : bool :=
  match filter_ with Some v => v <=? column | None => true end.
Definition at_most_seq (filter_ : option Z) (column : Z) : bool :=
  match filter_ with Some v => column <=? v | None => true end.

(* ------------------------------------------------------------------ *)
(** ** Queries and filters *)

Definition normalize_optional_filter (value : option string) (maximum : Z) (message : string)
  : res ApiError (option string) :=
  reject match value with
         | Some v => (maximum <? str_len v) || existsb is_ascii_control (chars v)
         | None => false
         end with Api.invalid message;
  Ok value.
Definition normalize_optional_nonempty_filter (value : option string) (maximum : Z) (message : string)
  : res ApiError (option string) :=
  let? value := normalize_optional_filter value maximum message in
  reject bool_decide (value = Some ""%string) with Api.invalid message;
  Ok value.
Definition normalize_artifact_set_version (value : option Z) : res ApiError (option Z) :=
  reject bool_decide (value = Some 0)
    with Api.invalid "artifact set version must be a non-zero adapter contract version";
  Ok value.
Definition normalize_content_hash (value : option string) (message : string) : res ApiError (option string) :=
  opt_map (fun value => validate_content_hash value message ?; Ok value) value.
(** An extractor's rejection is [None]. *)
Definition query_error {T} (query : option T) : res ApiError T :=
  ok_or query (Api.invalid "query parameters are invalid").

Record SessionListQuery : Type := {
  sq_limit : option Z;
  sq_cursor : option string;
  sq_source_agent : option string;
  sq_repository : option string;
  sq_project : option string;
  sq_branch : option string;
  sq_source_agent_version : option string;
  sq_artifact_set_version : option Z;
  sq_client_id : option string;
  sq_activity_from : option string;
  sq_activity_to : option string;
}.
Record SessionFilters : Type := {
  sf_source_agent : option string;
  sf_repository : option string;
  sf_project : option string;
  sf_branch : option string;
  sf_source_agent_version : option string;
  sf_artifact_set_version : option Z;
  sf_client_id : option string;
  sf_activity_from : option Z;
  sf_activity_to : option Z;
}.
Definition session_fields (f : SessionFilters) : FilterFields :=
  [("source_agent", text_value (sf_source_agent f)); ("repository", text_value (sf_repository f));
   ("project", text_value (sf_project f)); ("branch", text_value (sf_branch f));
   ("source_agent_version", text_value (sf_source_agent_version f));
   ("artifact_set_version", number_value (sf_artifact_set_version f));
   ("client_id", text_value (sf_client_id f));
   ("activity_from", number_value (sf_activity_from f));
   ("activity_to", number_value (sf_activity_to f))]%string.

Record SessionCollectionQuery : Type := { cq_limit : option Z; cq_cursor : option string }.

Record CaptureListQuery : Type := {
  pq_limit : option Z;
  pq_cursor : option string;
  pq_client_id : option string;
  pq_capture_id : option string;
  pq_session_id : option string;
  pq_snapshot_id : option string;
  pq_source_agent : option string;
  pq_repository : option string;
  pq_project : option string;
  pq_branch : option string;
  pq_source_agent_version : option string;
  pq_artifact_set_version : option Z;
  pq_activity_from : option string;
  pq_activity_to : option string;
}.
Record CaptureFilters : Type := {
  pf_client_id : option string;
  pf_session_id : option string;
  pf_snapshot_id : option string;
  pf_source_agent : option string;
  pf_repository : option string;
  pf_project : option string;
  pf_branch : option string;
  pf_source_agent_version : option string;
  pf_artifact_set_version : option Z;
  pf_activity_from : option Z;
  pf_activity_to : option Z;
}.
Definition capture_fields (f : CaptureFilters) : FilterFields :=
  [("client_id", text_value (pf_client_id f)); ("session_id", text_value (pf_session_id f));
   ("snapshot_id", text_value (pf_snapshot_id f)); ("source_agent", text_value (pf_source_agent f));
   ("repository", text_value (pf_repository f)); ("project", text_value (pf_project f));
   ("branch", text_value (pf_branch f));
   ("source_agent_version", text_value (pf_source_agent_version f));
   ("artifact_set_version", number_value (pf_artifact_set_version f));
   ("activity_from", number_value (pf_activity_from f));
   ("activity_to", number_value (pf_activity_to f))]%string.

Record SnapshotListQuery : Type := {
  nq_limit : option Z;
  nq_cursor : option string;
  nq_session_id : option string;
  nq_source_agent : option string;
  nq_repository : option string;
  nq_project : option string;
  nq_branch : option string;
  nq_source_agent_version : option string;
  nq_artifact_set_version : option Z;
  nq_client_id : option string;
  nq_activity_from : option string;
  nq_activity_to : option string;
}.
Record SnapshotFilters : Type := {
  nf_session_id : option string;
  nf_source_agent : option string;
  nf_repository : option string;
  nf_project : option string;
  nf_branch : option string;
  nf_source_agent_version : option string;
  nf_artifact_set_version : option Z;
  nf_client_id : option string;
  nf_activity_from : option Z;
  nf_activity_to : option Z;
}.
Definition snapshot_fields (f : SnapshotFilters) : FilterFields :=
  [("session_id", text_value (nf_session_id f)); ("source_agent", text_value (nf_source_agent f));
   ("repository", text_value (nf_repository f)); ("project", text_value (nf_project f));
   ("branch", text_value (nf_branch f));
   ("source_agent_version", text_value (nf_source_agent_version f));
   ("artifact_set_version", number_value (nf_artifact_set_version f));
   ("client_id", text_value (nf_client_id f));
   ("activity_from", number_value (nf_activity_from f));
   ("activity_to", number_value (nf_activity_to f))]%string.

Record ManifestListQuery : Type := { mq_limit : option Z; mq_cursor : option string; mq_session_id : option string }.
Definition manifest_fields (session_id : option string) : FilterFields := [("session_id"%string, text_value session_id)].

Record ArtifactListQuery : Type := {
  aq_limit : option Z;
  aq_cursor : option string;
  aq_snapshot_id : option string;
  aq_session_id : option string;
  aq_original_sha256 : option string;
  aq_stored_sha256 : option string;
}.
Record ArtifactFilters : Type := {
  af_snapshot_id : option string;
  af_session_id : option string;
  af_original_sha256 : option string;
  af_stored_sha256 : option string;
}.
(** The two digests are skipped when absent. *)
Definition skipped_if_none (name : string) (o : option string) : FilterFields :=
  match o with Some s => [(name, FText s)] | None => [] end.
Definition artifact_fields (f : ArtifactFilters) : FilterFields :=
  [("snapshot_id", text_value (af_snapshot_id f)); ("session_id", text_value (af_session_id f))]%string
  ++ skipped_if_none "original_sha256" (af_original_sha256 f)
  ++ skipped_if_none "stored_sha256" (af_stored_sha256 f).

Section Filters.
Context `{TimeLib} `{UuidLib}.

Definition activity_sort_key (value message : string) : res ApiError Z :=
  ok_or (sort_key_from_rfc3339 value) (Api.invalid message).
Definition normalize_activity_range (activity_from activity_to : option string)
  : res ApiError (option Z * option Z) :=
  let? from := opt_map (fun v => activity_sort_key v "activity timestamp must be RFC 3339") activity_from in
  let? to := opt_map (fun v => activity_sort_key v "activity timestamp must be RFC 3339") activity_to in
  reject match from, to with Some from, Some to => to <? from | _, _ => false end
    with Api.invalid "activity_from must not be later than activity_to";
  Ok (from, to).
Definition normalize_client_id (value : option string) : res ApiError (option string) :=
  opt_map (fun value => parse_uuid value "client identifier is not a UUID") value.
Definition normalize_resource_id (value : option string) (message : string) : res ApiError (option string) :=
  opt_map (fun value => parse_uuid value message) value.

Definition session_filters (query : SessionListQuery) : res ApiError SessionFilters :=
  let? activity := normalize_activity_range (sq_activity_from query) (sq_activity_to query) in
  let? source_agent := normalize_optional_nonempty_filter (sq_source_agent query)
    MAX_SOURCE_AGENT_FILTER_BYTES "source agent filter is invalid" in
  let? repository := normalize_optional_filter (sq_repository query) MAX_CONTEXT_FILTER_BYTES "repository filter is invalid" in
  let? project := normalize_optional_filter (sq_project query) MAX_CONTEXT_FILTER_BYTES "project filter is invalid" in
  let? branch := normalize_optional_filter (sq_branch query) MAX_CONTEXT_FILTER_BYTES "branch filter is invalid" in
  let? version := normalize_optional_filter (sq_source_agent_version query) MAX_CONTEXT_FILTER_BYTES
    "source agent version filter is invalid" in
  let? set_version := normalize_artifact_set_version (sq_artifact_set_version query) in
  let? client_id := normalize_client_id (sq_client_id query) in
  Ok {| sf_source_agent := source_agent; sf_repository := repository; sf_project := project;
        sf_branch := branch; sf_source_agent_version := version; sf_artifact_set_version := set_version;
        sf_client_id := client_id; sf_activity_from := activity.1; sf_activity_to := activity.2 |}.

Definition capture_filters (query : CaptureListQuery) : res ApiError CaptureFilters :=
  let? activity := normalize_activity_range (pq_activity_from query) (pq_activity_to query) in
  let? client_id := normalize_client_id (pq_client_id query) in
  let? session_id := normalize_resource_id (pq_session_id query) "session identifier is not a UUID" in
  let? snapshot_id := normalize_resource_id (pq_snapshot_id query) "snapshot identifier is not a UUID" in
  let? source_agent := normalize_optional_nonempty_filter (pq_source_agent query)
    MAX_SOURCE_AGENT_FILTER_BYTES "source agent filter is invalid" in
  let? repository := normalize_optional_filter (pq_repository query) MAX_CONTEXT_FILTER_BYTES "repository filter is invalid" in
  let? project := normalize_optional_filter (pq_project query) MAX_CONTEXT_FILTER_BYTES "project filter is invalid" in
  let? branch := normalize_optional_filter (pq_branch query) MAX_CONTEXT_FILTER_BYTES "branch filter is invalid" in
  let? version := normalize_optional_filter (pq_source_agent_version query) MAX_CONTEXT_FILTER_BYTES
    "source agent version filter is invalid" in
  let? set_version := normalize_artifact_set_version (pq_artifact_set_version query) in
  Ok {| pf_client_id := client_id; pf_session_id := session_id; pf_snapshot_id := snapshot_id;
        pf_source_agent := source_agent; pf_repository := repository; pf_project := project;
        pf_branch := branch; pf_source_agent_version := version; pf_artifact_set_version := set_version;
        pf_activity_from := activity.1; pf_activity_to := activity.2 |}.

Definition snapshot_filters (query : SnapshotListQuery) : res ApiError SnapshotFilters :=
  let? activity := normalize_activity_range (nq_activity_from query) (nq_activity_to query) in
  let? session_id := normalize_resource_id (nq_session_id query) "session identifier is not a UUID" in
  let? source_agent := normalize_optional_nonempty_filter (nq_source_agent query)
    MAX_SOURCE_AGENT_FILTER_BYTES "source agent filter is invalid" in
  let? repository := normalize_optional_filter (nq_repository query) MAX_CONTEXT_FILTER_BYTES "repository filter is invalid" in
  let? project := normalize_optional_filter (nq_project query) MAX_CONTEXT_FILTER_BYTES "project filter is invalid" in
  let? branch := normalize_optional_filter (nq_branch query) MAX_CONTEXT_FILTER_BYTES "branch filter is invalid" in
  let? version := normalize_optional_filter (nq_source_agent_version query) MAX_CONTEXT_FILTER_BYTES
    "source agent version filter is invalid" in
  let? set_version := normalize_artifact_set_version (nq_artifact_set_version query) in
  let? client_id := normalize_client_id (nq_client_id query) in
  Ok {| nf_session_id := session_id; nf_source_agent := source_agent; nf_repository := repository;
        nf_project := project; nf_branch := branch; nf_source_agent_version := version;
        nf_artifact_set_version := set_version; nf_client_id := client_id;
        nf_activity_from := activity.1; nf_activity_to := activity.2 |}.

Definition artifact_filters (query : ArtifactListQuery) : res ApiError ArtifactFilters :=
  let? snapshot_id := normalize_resource_id (aq_snapshot_id query) "snapshot identifier is not a UUID" in
  let? session_id := normalize_resource_id (aq_session_id query) "session identifier is not a UUID" in
  let? original := normalize_content_hash (aq_original_sha256 query)
    "original content hash is not a lowercase sha256 hex digest" in
  let? stored := normalize_content_hash (aq_stored_sha256 query)
    "stored content hash is not a lowercase sha256 hex digest" in
  Ok {| af_snapshot_id := snapshot_id; af_session_id := session_id;
        af_original_sha256 := original; af_stored_sha256 := stored |}.
End Filters.

(* ------------------------------------------------------------------ *)
(** ** Joins *)

Definition session_by_id (id : string) (d : Db) : option Session.row :=
  select_one (fun r => eqs (Session.id r) id) (sessions d).
(** [JOIN snapshots snapshot ON snapshot.id = .. WHERE snapshot.deleted_at IS NULL] *)
Definition on_live_snapshot (snapshot_id : string) (d : Db) : bool :=
  bool_decide (is_Some (live_snapshot_by_id snapshot_id d)).
(** [(SELECT COUNT( * ) FROM captures c WHERE c.snapshot_id = s.id)] *)
Definition capture_count (snapshot_id : string) (d : Db) : Z :=
  Z.of_nat (length (select (fun c => eqs (CaptureRow.snapshot_id c) snapshot_id) (captures d))).

(** [session_latest_context p JOIN sessions s JOIN snapshots snapshot] *)
Definition SessionRow : Type := LatestContext.row * Session.row.
Definition session_join (d : Db) (p : LatestContext.row) : option SessionRow :=
  if on_live_snapshot (LatestContext.snapshot_id p) d
  then pair p <$> session_by_id (LatestContext.session_id p) d else None.
(** [capture_select_sql], joined to a live snapshot *)
Definition CaptureJoin : Type := CaptureRow.row * ManifestRow.row.
Definition capture_join (d : Db) (c : CaptureRow.row) : option CaptureJoin :=
  if on_live_snapshot (CaptureRow.snapshot_id c) d
  then pair c <$> manifest_by_id (CaptureRow.manifest_id c) d else None.
Record SnapshotListRow : Type := mkSnapshotListRow {
  sl_snapshot : Snapshot.row;
  sl_manifest : ManifestRow.row;
  sl_capture_count : Z;
}.
Definition snapshot_join (d : Db) (s : Snapshot.row) : option SnapshotListRow :=
  if live s then
    m ← manifest_by_id (Snapshot.manifest_id s) d;
    Some (mkSnapshotListRow s m (capture_count (Snapshot.id s) d))
  else None.
(** [artifacts a JOIN snapshots s JOIN blobs b] *)
Definition ArtifactJoin : Type := ArtifactRow.row * Blob.row.
Definition artifact_join (d : Db) (a : ArtifactRow.row) : option ArtifactJoin :=
  if on_live_snapshot (ArtifactRow.snapshot_id a) d then join_blob d a else None.

(** The boundary each collection is ordered by. *)
Definition session_boundary (r : SessionRow) : SortBoundary :=
  {| sort_key := LatestContext.completed_at_seq r.1; timestamp := LatestContext.completed_at r.1;
     id := LatestContext.session_id r.1 |}.
Definition capture_boundary (r : CaptureJoin) : SortBoundary :=
  {| sort_key := CaptureRow.server_completed_at_seq r.1; timestamp := CaptureRow.server_completed_at r.1;
     id := CaptureRow.id r.1 |}.
Definition snapshot_boundary (r : SnapshotListRow) : SortBoundary :=
  {| sort_key := Snapshot.completed_at_seq (sl_snapshot r); timestamp := Snapshot.completed_at (sl_snapshot r);
     id := Snapshot.id (sl_snapshot r) |}.
Definition artifact_boundary (r : ArtifactJoin) : SortBoundary :=
  {| sort_key := ArtifactRow.created_at_seq r.1; timestamp := ArtifactRow.created_at r.1; id := ArtifactRow.id r.1 |}.
Definition bounded {R} (boundary : R -> SortBoundary) (rows : list R) : list (R * SortBoundary) :=
  (fun r => (r, boundary r)) <$> rows.

(** The [FROM .. WHERE ..] of each listing. *)
Definition session_rows (f : SessionFilters) (d : Db) : list SessionRow :=
  omap (session_join d) (select (fun p =>
    wanted (sf_source_agent f) (LatestContext.source_agent p)
    && wanted_opt (sf_repository f) (LatestContext.repository p)
    && wanted_opt (sf_project f) (LatestContext.project p)
    && wanted_opt (sf_branch f) (LatestContext.branch p)
    && wanted_opt (sf_source_agent_version f) (LatestContext.source_agent_version p)
    && wanted (sf_artifact_set_version f) (LatestContext.artifact_set_version p)
    && match sf_client_id f with
       | Some client => existsb (fun c => eqs (CaptureRow.snapshot_id c) (LatestContext.snapshot_id p)
                                          && eqs (CaptureRow.client_id c) client) (captures d)
       | None => true
       end
    && at_least_seq (sf_activity_from f) (LatestContext.completed_at_seq p)
    && at_most_seq (sf_activity_to f) (LatestContext.completed_at_seq p)) (session_latest_context d)).
Definition capture_rows (f : CaptureFilters) (d : Db) : list CaptureJoin :=
  omap (capture_join d) (select (fun c =>
    match session_by_id (CaptureRow.session_id c) d with
    | None => false
    | Some session =>
        wanted (pf_client_id f) (CaptureRow.client_id c)
        && wanted (pf_session_id f) (CaptureRow.session_id c)
        && wanted (pf_snapshot_id f) (CaptureRow.snapshot_id c)
        && wanted (pf_source_agent f) (Session.source_agent session)
        && wanted_opt (pf_repository f) (CaptureRow.repository c)
        && wanted_opt (pf_project f) (CaptureRow.project c)
        && wanted_opt (pf_branch f) (CaptureRow.branch c)
        && wanted_opt (pf_source_agent_version f) (CaptureRow.source_agent_version c)
        && wanted (pf_artifact_set_version f) (CaptureRow.artifact_set_version c)
        && at_least_seq (pf_activity_from f) (CaptureRow.server_completed_at_seq c)
        && at_most_seq (pf_activity_to f) (CaptureRow.server_completed_at_seq c)
    end) (captures d)).
(** The [EXISTS (SELECT 1 FROM captures capture_context ..)] of [query_snapshot_rows]. *)
Definition has_capture_context (f : SnapshotFilters) : bool :=
  bool_decide (is_Some (nf_repository f)) || bool_decide (is_Some (nf_project f))
  || bool_decide (is_Some (nf_branch f)) || bool_decide (is_Some (nf_source_agent_version f))
  || bool_decide (is_Some (nf_artifact_set_version f)) || bool_decide (is_Some (nf_client_id f)).
Definition capture_context (f : SnapshotFilters) (snapshot_id : string) (c : CaptureRow.row) : bool :=
  eqs (CaptureRow.snapshot_id c) snapshot_id
  && wanted_opt (nf_repository f) (CaptureRow.repository c)
  && wanted_opt (nf_project f) (CaptureRow.project c)
  && wanted_opt (nf_branch f) (CaptureRow.branch c)
  && wanted_opt (nf_source_agent_version f) (CaptureRow.source_agent_version c)
  && wanted (nf_artifact_set_version f) (CaptureRow.artifact_set_version c)
  && wanted (nf_client_id f) (CaptureRow.client_id c).
Definition snapshot_rows (f : SnapshotFilters) (d : Db) : list SnapshotListRow :=
  omap (snapshot_join d) (select (fun s =>
    match session_by_id (Snapshot.session_id s) d with
    | None => false
    | Some session =>
        wanted (nf_session_id f) (Snapshot.session_id s)
        && wanted (nf_source_agent f) (Session.source_agent session)
        && (negb (has_capture_context f) || existsb (capture_context f (Snapshot.id s)) (captures d))
        && at_least_seq (nf_activity_from f) (Snapshot.completed_at_seq s)
        && at_most_seq (nf_activity_to f) (Snapshot.completed_at_seq s)
    end) (snapshots d)).
Definition manifest_rows (session_id : option string) (d : Db) : list CaptureJoin :=
  omap (capture_join d) (select (fun c => wanted session_id (CaptureRow.session_id c)) (captures d)).
Definition artifact_rows_where (f : ArtifactFilters) (d : Db) : list ArtifactJoin :=
  filter (fun ab => wanted (af_stored_sha256 f) (Blob.stored_sha256 ab.2) = true)
    (omap (artifact_join d) (select (fun a =>
       wanted (af_snapshot_id f) (ArtifactRow.snapshot_id a)
       && match af_session_id f with
          | Some session => match snapshot_by_id (ArtifactRow.snapshot_id a) d with
                            | Some s => eqs (Snapshot.session_id s) session
                            | None => false
                            end
          | None => true
          end
       && wanted (af_original_sha256 f) (ArtifactRow.original_sha256 a)) (artifact_rows d))).

(* ------------------------------------------------------------------ *)
(** ** Rows as documents *)

Local Open Scope string_scope.
Definition snapshot_url (id : string) : string := "/api/v1/snapshots/" +:+ id.
Definition session_url (id : string) : string := "/api/v1/sessions/" +:+ id.
Definition manifest_url (id : string) : string := "/api/v1/manifests/" +:+ id.
Definition capture_url (id : string) : string := "/api/v1/captures/" +:+ id.
Definition artifact_url (id : string) : string := "/api/v1/artifacts/" +:+ id.

Definition session_response (r : SessionRow) : res ApiError SessionResponse :=
  let p := r.1 in
  let? artifact_set_version := ok_or (to_u16 (LatestContext.artifact_set_version p)) Api.internal in
  let session_id := Session.id r.2 in
  let snapshot_id := LatestContext.snapshot_id p in
  Ok {| se_session_id := session_id;
        se_source_agent := Session.source_agent r.2;
        se_source_session_id := Session.source_session_id r.2;
        se_created_at := Session.created_at r.2;
        se_updated_at := Session.updated_at r.2;
        se_latest_snapshot :=
          {| ls_snapshot_id := snapshot_id;
             ls_completed_at := LatestContext.completed_at p;
             ls_project := LatestContext.project p;
             ls_repository := LatestContext.repository p;
             ls_branch := LatestContext.branch p;
             ls_source_agent_version := LatestContext.source_agent_version p;
             ls_artifact_set_version := artifact_set_version;
             ls_snapshot_url := snapshot_url snapshot_id;
             ls_manifest_url := snapshot_url snapshot_id +:+ "/manifest" |};
        se_captures_url := session_url session_id +:+ "/captures";
        se_snapshots_url := session_url session_id +:+ "/snapshots" |}.

Definition snapshot_summary (row : SnapshotListRow) : res ApiError SnapshotSummary :=
  let s := sl_snapshot row in
  let snapshot_id := Snapshot.id s in
  let manifest_id := ManifestRow.id (sl_manifest row) in
  let? artifact_count := ok_or (to_u32 (Snapshot.artifact_count s)) Api.internal in
  let? original := ok_or (i64_to_u64 (Snapshot.total_original_size_bytes s)) Api.internal in
  let? stored := ok_or (i64_to_u64 (Snapshot.total_stored_size_bytes s)) Api.internal in
  let? captures := ok_or (i64_to_u64 (sl_capture_count row)) Api.internal in
  Ok {| ss_snapshot_id := snapshot_id;
        ss_session_id := Snapshot.session_id s;
        ss_snapshot_fingerprint := digest_document_value (Snapshot.fingerprint_sha256 s);
        ss_manifest_id := manifest_id;
        ss_manifest_sha256 := digest_document_value (ManifestRow.sha256 (sl_manifest row));
        ss_completed_at := Snapshot.completed_at s;
        ss_artifact_count := artifact_count;
        ss_total_original_bytes := original;
        ss_total_stored_bytes := stored;
        ss_capture_count := captures;
        ss_snapshot_url := snapshot_url snapshot_id;
        ss_captures_url := snapshot_url snapshot_id +:+ "/captures";
        ss_manifest_url := manifest_url manifest_id |}.

Definition artifact_response (r : ArtifactJoin) : res ApiError ArtifactResponse :=
  let '(a, b) := r in
  let? index := ok_or (to_u32 (ArtifactRow.artifact_index a)) Api.internal in
  let? original := ok_or (i64_to_u64 (ArtifactRow.original_size_bytes a)) Api.internal in
  let? stored := ok_or (i64_to_u64 (Blob.stored_size_bytes b)) Api.internal in
  let? compression := ok_or (parse (Blob.compression b)) Api.internal in
  Ok {| ar_artifact_id := ArtifactRow.id a;
        ar_artifact_index := index;
        ar_logical_path := ArtifactRow.logical_path a;
        ar_media_type := ArtifactRow.media_type a;
        ar_original_size_bytes := original;
        ar_original_sha256 := digest_document_value (ArtifactRow.original_sha256 a);
        ar_stored_size_bytes := stored;
        ar_stored_sha256 := digest_document_value (Blob.stored_sha256 b);
        ar_compression := compression;
        ar_content_url := artifact_url (ArtifactRow.id a) +:+ "/content";
        ar_metadata_url := artifact_url (ArtifactRow.id a) |}.

Definition artifact_metadata_response (r : ArtifactJoin) : res ApiError ArtifactMetadataResponse :=
  let '(a, b) := r in
  let? index := ok_or (to_u32 (ArtifactRow.artifact_index a)) Api.internal in
  let? original := ok_or (i64_to_u64 (ArtifactRow.original_size_bytes a)) Api.internal in
  let? stored := ok_or (i64_to_u64 (Blob.stored_size_bytes b)) Api.internal in
  let? compression := ok_or (parse (Blob.compression b)) Api.internal in
  Ok {| am_artifact_id := ArtifactRow.id a;
        am_snapshot_id := ArtifactRow.snapshot_id a;
        am_artifact_index := index;
        am_logical_path := ArtifactRow.logical_path a;
        am_media_type := ArtifactRow.media_type a;
        am_original_size_bytes := original;
        am_original_sha256 := digest_document_value (ArtifactRow.original_sha256 a);
        am_stored_size_bytes := stored;
        am_stored_sha256 := digest_document_value (Blob.stored_sha256 b);
        am_compression := compression;
        am_created_at := ArtifactRow.created_at a;
        am_metadata_url := artifact_url (ArtifactRow.id a);
        am_content_url := artifact_url (ArtifactRow.id a) +:+ "/content" |}.

Definition manifest_summary (r : CaptureJoin) : CanonicalManifestSummary :=
  let '(c, m) := r in
  {| ms_manifest_id := ManifestRow.id m;
     ms_snapshot_id := CaptureRow.snapshot_id c;
     ms_session_id := CaptureRow.session_id c;
     ms_capture_record_id := CaptureRow.id c;
     ms_sha256 := digest_document_value (ManifestRow.sha256 m);
     ms_created_at := ManifestRow.created_at m;
     ms_completed_at := CaptureRow.server_completed_at c;
     ms_snapshot_url := snapshot_url (CaptureRow.snapshot_id c);
     ms_capture_url := capture_url (CaptureRow.id c);
     ms_manifest_url := manifest_url (ManifestRow.id m) |}.

(** A row of [manifests m], [captures c] and [snapshots s], joined. *)
Record ManifestJoin : Type := mkManifestJoin {
  mj_manifest : ManifestRow.row;
  mj_capture : CaptureRow.row;
  mj_snapshot_id : string;
}.
Definition canonical_manifest_response `{JsonLib} (r : ManifestJoin) : res ApiError CanonicalManifestResponse :=
  let m := mj_manifest r in
  let? manifest := ok_or (manifest_of_json (ManifestRow.canonical_json m)) Api.internal in
  Ok {| mr_manifest_id := ManifestRow.id m;
        mr_snapshot_id := mj_snapshot_id r;
        mr_session_id := CaptureRow.session_id (mj_capture r);
        mr_capture_record_id := CaptureRow.id (mj_capture r);
        mr_sha256 := digest_document_value (ManifestRow.sha256 m);
        mr_created_at := ManifestRow.created_at m;
        mr_completed_at := CaptureRow.server_completed_at (mj_capture r);
        mr_snapshot_url := snapshot_url (mj_snapshot_id r);
        mr_capture_url := capture_url (CaptureRow.id (mj_capture r));
        mr_manifest_url := manifest_url (ManifestRow.id m);
        mr_manifest := manifest |}.
Local Close Scope string_scope.

(** [rows.map(render).collect::<Result<Vec<_>, _>>()] *)
Fixpoint render_rows {R T} (render : R -> res ApiError T) (rows : list (R * SortBoundary))
  : res ApiError (list (T * SortBoundary)) :=
  match rows with
  | [] => Ok []
  | (row, boundary) :: rows =>
      let? item := render row in
      let? items := render_rows render rows in
      Ok ((item, boundary) :: items)
  end.

(* ------------------------------------------------------------------ *)
(** ** Handlers *)

Inductive CapturesAnswer : Type :=
| ExactCapture (capture : CaptureProvenance)
| CapturePage (page : PaginatedResponse CaptureProvenance).

Section Handlers.
Context `{Env} `{UuidLib} `{TimeLib} `{ShaLib} `{JsonLib} `{CursorCodec} `{FilterJson}.

Definition filter_hash (kind : string) (fields : FilterFields) : res ApiError string :=
  filter_hash_of (filters_json kind fields).

(** What every listing does once its filters are normalized. *)
Definition list_page {R T} (kind : string) (fields : FilterFields) (limit : option Z) (cursor : option string)
    (boundary : R -> SortBoundary) (rows_of : Db -> list R) (render : R -> res ApiError T)
  : M ApiError (PaginatedResponse T) :=
  let! fhash := lift (filter_hash kind fields) in
  let! page := lift (parse_page limit cursor kind fhash) in
  let! rows := query db_err (fun d => query_page (bounded boundary (rows_of d)) page) in
  let! rows := lift (render_rows render rows) in
  lift (page_from_rows rows page kind fhash).
Definition capture_document (r : CaptureJoin) : res ApiError CaptureProvenance := capture_from_row r.1 r.2.

Definition list_sessions (query : option SessionListQuery) : M ApiError (PaginatedResponse SessionResponse) :=
  let! query := lift (query_error query) in
  let! filters := lift (session_filters query) in
  list_page SESSION_CURSOR_KIND (session_fields filters) (sq_limit query) (sq_cursor query)
    session_boundary (session_rows filters) session_response.

Definition get_session (session_id : string) : M ApiError SessionResponse :=
  let! session_id := lift (parse_uuid session_id "session identifier is not a UUID") in
  let! row := query db_err (fun d =>
    head (omap (session_join d)
            (select (fun p => eqs (LatestContext.session_id p) session_id) (session_latest_context d)))) in
  let! row := lift (ok_or row (Api.not_found "session_not_found" "session was not found")) in
  lift (session_response row).

Definition list_session_captures (session_id : string) (query : option SessionCollectionQuery)
  : M ApiError (PaginatedResponse CaptureProvenance) :=
  let! session_id := lift (parse_uuid session_id "session identifier is not a UUID") in
  let! query := lift (query_error query) in
  list_page SESSION_CAPTURE_CURSOR_KIND [("session_id"%string, FText session_id)] (cq_limit query) (cq_cursor query)
    capture_boundary
    (fun d => omap (capture_join d) (select (fun c => eqs (CaptureRow.session_id c) session_id) (captures d)))
    capture_document.

Definition list_captures (query : CaptureListQuery) : M ApiError (PaginatedResponse CaptureProvenance) :=
  let! filters := lift (capture_filters query) in
  list_page CAPTURE_CURSOR_KIND (capture_fields filters) (pq_limit query) (pq_cursor query)
    capture_boundary (capture_rows filters) capture_document.

(** The fields an exact lookup cannot be combined with. *)
Definition has_list_filters (query : CaptureListQuery) : bool :=
  bool_decide (is_Some (pq_limit query)) || bool_decide (is_Some (pq_cursor query))
  || bool_decide (is_Some (pq_session_id query)) || bool_decide (is_Some (pq_snapshot_id query))
  || bool_decide (is_Some (pq_source_agent query)) || bool_decide (is_Some (pq_repository query))
  || bool_decide (is_Some (pq_project query)) || bool_decide (is_Some (pq_branch query))
  || bool_decide (is_Some (pq_source_agent_version query))
  || bool_decide (is_Some (pq_artifact_set_version query))
  || bool_decide (is_Some (pq_activity_from query)) || bool_decide (is_Some (pq_activity_to query)).
Definition captures (query : option CaptureListQuery) : M ApiError CapturesAnswer :=
  let! query := lift (query_error query) in
  match pq_capture_id query with
  | Some capture_id =>
      let! client_id := lift (ok_or (pq_client_id query)
        (Api.invalid "capture_id requires a client_id exact lookup")) in
      refuse has_list_filters query
        with Api.invalid "capture exact lookup cannot be combined with list filters";
      let! client_id := lift (parse_uuid client_id "client identifier is not a UUID") in
      let! _ := lift (validate_capture_identifier capture_id) in
      let! capture := capture_by_client client_id capture_id in
      ret (ExactCapture capture)
  | None =>
      let! page := list_captures query in
      ret (CapturePage page)
  end.

Definition get_capture_by_upload (upload_id : string) : M ApiError CaptureProvenance :=
  let! upload_id := lift (parse_uuid upload_id "upload identifier is not a UUID") in
  capture_for_upload upload_id.

Definition get_capture (capture_record_id : string) : M ApiError CaptureProvenance :=
  let! capture_record_id := lift (parse_uuid capture_record_id "capture record identifier is not a UUID") in
  let! row := query db_err (visible_capture (fun c => eqs (CaptureRow.id c) capture_record_id)) in
  let! cm := lift (ok_or row (Api.not_found "capture_not_found" "capture was not found")) in
  lift (capture_from_row cm.1 cm.2).

Definition get_snapshot_captures (snapshot_id : string) (query : option SessionCollectionQuery)
  : M ApiError SnapshotCapturesResponse :=
  let! snapshot_id := lift (parse_uuid snapshot_id "snapshot identifier is not a UUID") in
  let! q := lift (query_error query) in
  let! exists_ := Store.query db_err (on_live_snapshot snapshot_id) in
  refuse negb exists_ with Api.not_found "snapshot_not_found" "snapshot was not found";
  let! page := list_page SNAPSHOT_CAPTURE_CURSOR_KIND [("snapshot_id"%string, FText snapshot_id)]
    (cq_limit q) (cq_cursor q) capture_boundary
    (fun d => omap (capture_join d) (select (fun c => eqs (CaptureRow.snapshot_id c) snapshot_id) (Tables.captures d)))
    capture_document in
  ret {| sc_snapshot_id := snapshot_id; sc_captures := items page;
         sc_next_cursor := next_cursor page; sc_high_watermark := page_high_watermark page |}.

Definition list_snapshots (query : option SnapshotListQuery) : M ApiError (PaginatedResponse SnapshotSummary) :=
  let! query := lift (query_error query) in
  let! filters := lift (snapshot_filters query) in
  list_page SNAPSHOT_CURSOR_KIND (snapshot_fields filters) (nq_limit query) (nq_cursor query)
    snapshot_boundary (snapshot_rows filters) snapshot_summary.

Definition only_session (session_id : string) : SnapshotFilters :=
  {| nf_session_id := Some session_id; nf_source_agent := None; nf_repository := None; nf_project := None;
     nf_branch := None; nf_source_agent_version := None; nf_artifact_set_version := None;
     nf_client_id := None; nf_activity_from := None; nf_activity_to := None |}.
Definition list_session_snapshots (session_id : string) (query : option SessionCollectionQuery)
  : M ApiError (PaginatedResponse SnapshotSummary) :=
  let! session_id := lift (parse_uuid session_id "session identifier is not a UUID") in
  let! query := lift (query_error query) in
  let filters := only_session session_id in
  list_page SESSION_SNAPSHOT_CURSOR_KIND (snapshot_fields filters) (cq_limit query) (cq_cursor query)
    snapshot_boundary (snapshot_rows filters) snapshot_summary.

(** What a failed reconciliation is answered with. *)
Definition snapshot_reconciliation_error (e : ReconciliationError) : ApiError :=
  match e with
  | NotFound => Api.not_found "snapshot_not_found" "snapshot was not found"
  | Drift | Metadata => Api.internal
  end.
Fixpoint render_all {R T} (render : R -> res ApiError T) (rows : list R) : res ApiError (list T) :=
  match rows with
  | [] => Ok []
  | row :: rows => let? item := render row in let? items := render_all render rows in Ok (item :: items)
  end.
Definition snapshot_response (snapshot_id : string) : M ApiError SnapshotResponse :=
  let! row := query db_err (fun d =>
    s ← live_snapshot_by_id snapshot_id d; snapshot_join d s) in
  let! row := lift (ok_or row (Api.not_found "snapshot_not_found" "snapshot was not found")) in
  map_err snapshot_reconciliation_error (reconcile_snapshot snapshot_id) &;
  let s := sl_snapshot row in
  let m := sl_manifest row in
  let! manifest := lift (ok_or (manifest_of_json (ManifestRow.canonical_json m)) Api.internal) in
  let! artifacts := query db_err (rows_of_snapshot snapshot_id) in
  let! artifacts := lift (render_all artifact_response artifacts) in
  let! artifact_count := lift (ok_or (to_u32 (Snapshot.artifact_count s)) Api.internal) in
  let! original := lift (ok_or (i64_to_u64 (Snapshot.total_original_size_bytes s)) Api.internal) in
  let! stored := lift (ok_or (i64_to_u64 (Snapshot.total_stored_size_bytes s)) Api.internal) in
  let! capture_count := lift (ok_or (i64_to_u64 (sl_capture_count row)) Api.internal) in
  ret {| sr_snapshot_id := Snapshot.id s;
         sr_session_id := Snapshot.session_id s;
         sr_snapshot_fingerprint := digest_document_value (Snapshot.fingerprint_sha256 s);
         sr_manifest_id := ManifestRow.id m;
         sr_manifest_sha256 := digest_document_value (ManifestRow.sha256 m);
         sr_completed_at := Snapshot.completed_at s;
         sr_artifact_count := artifact_count;
         sr_total_original_bytes := original;
         sr_total_stored_bytes := stored;
         sr_capture_count := capture_count;
         sr_manifest := manifest;
         sr_artifacts := artifacts;
         sr_captures_url := snapshot_url (Snapshot.id s) +:+ "/captures";
         sr_manifest_url := manifest_url (ManifestRow.id m) |}.
Definition get_snapshot (snapshot_id : string) : M ApiError SnapshotResponse :=
  let! snapshot_id := lift (parse_uuid snapshot_id "snapshot identifier is not a UUID") in
  snapshot_response snapshot_id.

Definition list_manifests (query : option ManifestListQuery) : M ApiError (PaginatedResponse CanonicalManifestSummary) :=
  let! query := lift (query_error query) in
  let! session_id := lift (normalize_resource_id (mq_session_id query) "session identifier is not a UUID") in
  list_page MANIFEST_CURSOR_KIND (manifest_fields session_id) (mq_limit query) (mq_cursor query)
    capture_boundary (manifest_rows session_id) (fun r => Ok (manifest_summary r)).

Definition canonical_manifest_by_id (manifest_id : string) : M ApiError CanonicalManifestResponse :=
  let! row := query db_err (fun d =>
    m ← manifest_by_id manifest_id d;
    c ← select_one (fun c => eqs (CaptureRow.manifest_id c) (ManifestRow.id m)
                             && on_live_snapshot (CaptureRow.snapshot_id c) d) (Tables.captures d);
    Some (mkManifestJoin m c (CaptureRow.snapshot_id c))) in
  let! row := lift (ok_or row (Api.not_found "manifest_not_found" "manifest was not found")) in
  lift (canonical_manifest_response row).
Definition get_manifest (manifest_id : string) : M ApiError CanonicalManifestResponse :=
  let! manifest_id := lift (parse_uuid manifest_id "manifest identifier is not a UUID") in
  canonical_manifest_by_id manifest_id.

Definition get_snapshot_manifest (snapshot_id : string) : M ApiError CanonicalManifestResponse :=
  let! snapshot_id := lift (parse_uuid snapshot_id "snapshot identifier is not a UUID") in
  let! row := query db_err (fun d =>
    s ← live_snapshot_by_id snapshot_id d;
    m ← manifest_by_id (Snapshot.manifest_id s) d;
    c ← select_one (fun c => eqs (CaptureRow.manifest_id c) (ManifestRow.id m)) (Tables.captures d);
    Some (mkManifestJoin m c (Snapshot.id s))) in
  let! row := lift (ok_or row (Api.not_found "snapshot_not_found" "snapshot was not found")) in
  lift (canonical_manifest_response row).

Definition list_artifacts (query : option ArtifactListQuery) : M ApiError (PaginatedResponse ArtifactMetadataResponse) :=
  let! query := lift (query_error query) in
  let! filters := lift (artifact_filters query) in
  list_page ARTIFACT_CURSOR_KIND (artifact_fields filters) (aq_limit query) (aq_cursor query)
    artifact_boundary (artifact_rows_where filters) artifact_metadata_response.

Definition artifact_metadata_row (artifact_id : string) : M ApiError (option ArtifactJoin) :=
  query db_err (fun d =>
    head (omap (artifact_join d) (select (fun a => eqs (ArtifactRow.id a) artifact_id) (artifact_rows d)))).
Definition get_artifact_metadata (artifact_id : string) : M ApiError ArtifactMetadataResponse :=
  let! artifact_id := lift (parse_uuid artifact_id "artifact identifier is not a UUID") in
  let! row := artifact_metadata_row artifact_id in
  let! row := lift (ok_or row (Api.not_found "artifact_not_found" "artifact was not found")) in
  lift (artifact_metadata_response row).
End Handlers.
