(* ===== verification/Download.v ===== *)
(** Downloads ([download_artifact] of [retrieval.rs]): the metadata is checked
    against the canonical manifest, the blob is read through and hashed before
    a byte is sent, and the body is a stream that holds a permit until it
    ends. *)
From stdpp Require Import prelude strings gmap sorting list.
From Stdlib Require Import ZArith Ascii Lia.
From Stdlib.Strings Require Import Byte.
From S2P Require Import Prelude Errors Contract Externals Validation Chunks Fingerprint Pagination.
From S2P Require Import Tables Store Storage Uploads Receipts Reconcile Retrieval.

(** [base64::STANDARD], [base64::URL_SAFE_NO_PAD] and [HeaderValue::from_str]. *)
Class HttpLib := {
  base64_standard : bytes -> string;
  base64_url : bytes -> string;
  header_value_ok : string -> bool;
}.
(** What [Metadata] says of a file beside its length: device, inode, times.
    [modified()] is read from [mtime] and [mtime_nsec]. *)
Record FileStamp : Type := mkStamp { dev : Z; ino : Z; mtime : Z; mtime_nsec : Z; ctime : Z; ctime_nsec : Z }.
#[export] Instance FileStamp_eq_dec : EqDecision FileStamp.
Proof. solve_decision. Defined.
(** The stamp of a file at an operation of a run. *)
Class FileStamps := { stamp : nat -> path -> FileStamp }.

Record DownloadRow : Type := mkDownloadRow {
  dr_artifact : ArtifactRow.row;
  dr_blob : Blob.row;
  dr_manifest : ManifestRow.row;
}.
Record DownloadMetadata : Type := {
  dm_logical_path : string;
  dm_media_type : option string;
  dm_original_size_bytes : Z;
  dm_original_sha256 : string;
  dm_stored_size_bytes : Z;
  dm_stored_sha256 : string;
  dm_compression : Compression;
}.

Definition storage_digest (value : string) : option string :=
  if (str_len value =? 64) && forallb is_lower_hex (chars value) then Some value else None.
Definition canonical_digest (value : string) : option string :=
  d ← strip_prefix "sha256:" value; storage_digest d.

(* ------------------------------------------------------------------ *)
(** ** The body *)

(** What one poll of [ReaderStream] yields: up to a buffer of bytes, the
    failure of a read, or the end of the file. *)
Inductive ReaderItem : Type := ReadBytes (data : bytes) | ReadFailed.
Inductive IoError : Type := TimedOut | ReadError.
Inductive Poll (A : Type) : Type := Ready (a : A) | Pending.
Arguments Ready {A} _.
Arguments Pending {A}.
Record VerifiedDownloadStream : Type := mkStream {
  reader : list ReaderItem;
  permit : bool;
  timed_out : bool;
}.
Definition new_stream (items : list ReaderItem) : VerifiedDownloadStream := mkStream items true false.

(** [poll_next]: [expired] says that the deadline has passed, [ready] that the
    reader has its next item at hand. *)
Definition poll_next (expired ready : bool) (s : VerifiedDownloadStream)
  : Poll (option (res IoError bytes)) * VerifiedDownloadStream :=
  if timed_out s then (Ready None, s)
  else if expired then (Ready (Some (Err TimedOut)), mkStream (reader s) false true)
  else if negb ready then (Pending, s)
  else match reader s with
       | [] => (Ready None, mkStream [] false (timed_out s))
       | ReadFailed :: rest => (Ready (Some (Err ReadError)), mkStream rest false (timed_out s))
       | ReadBytes data :: rest => (Ready (Some (Ok data)), mkStream rest (permit s) (timed_out s))
       end.

(** The polls of the HTTP layer: at each one, whether the deadline has passed
    and whether the reader is ready. *)
Definition PollResult : Type := Poll (option (res IoError bytes)).
Fixpoint drive (polls : list (bool * bool)) (s : VerifiedDownloadStream)
  : list PollResult * VerifiedDownloadStream :=
  match polls with
  | [] => ([], s)
  | (expired, ready) :: polls =>
      let '(result, s) := poll_next expired ready s in
      let '(results, s) := drive polls s in
      (result :: results, s)
  end.
Definition payload (r : PollResult) : bytes :=
  match r with Ready (Some (Ok data)) => data | _ => [] end.
(** What the client has received. *)
Definition delivered (results : list PollResult) : bytes := results ≫= payload.
(** The stream reports that it is over, or that it failed. *)
Definition is_failure (r : PollResult) : Prop := exists e, r = Ready (Some (Err e)).
Definition is_end (r : PollResult) : Prop := r = Ready None \/ is_failure r.
Definition item_bytes (i : ReaderItem) : bytes := match i with ReadBytes data => data | ReadFailed => [] end.
Definition content (items : list ReaderItem) : bytes := items ≫= item_bytes.

(** A stream that timed out holds no permit. *)
Definition stream_wf (s : VerifiedDownloadStream) : Prop := timed_out s = true -> permit s = false.

Lemma poll_next_spec expired ready s : stream_wf s ->
  let '(r, s') := poll_next expired ready s in
  stream_wf s'
  /\ payload r ++ content (reader s') = content (reader s)
  /\ (permit s' = true <-> permit s = true /\ ~ is_end r)
  /\ (r = Ready None -> timed_out s = true \/ reader s' = [])
  /\ (timed_out s' = true -> timed_out s = true \/ is_failure r).
Proof.
  unfold stream_wf. destruct s as [items p t]. unfold poll_next, is_end, is_failure. simpl.
  destruct t; [|destruct expired; [|destruct ready; [destruct items as [|[data|] items]|]]]; simpl; intros Hwf;
    split_and!; try done; try (split; [done|naive_solver]); naive_solver.
Qed.
Lemma drive_spec polls : forall s, stream_wf s ->
  let '(rs, s') := drive polls s in
  delivered rs ++ content (reader s') = content (reader s)
  /\ (permit s' = true <-> permit s = true /\ Forall (fun r => ~ is_end r) rs)
  /\ (Ready None ∈ rs -> timed_out s = true \/ Exists is_failure rs \/ content (reader s') = []).
Proof.
  induction polls as [|[expired ready] polls IH]; intros s Hs; cbn [drive].
  { split; [done|]. split; [|by intros ?%elem_of_nil]. rewrite Forall_nil. tauto. }
  pose proof (poll_next_spec expired ready s Hs) as Hp.
  destruct (poll_next expired ready s) as [r s1]. destruct Hp as (Hs1 & Hc1 & Hp1 & He1 & Ht1).
  specialize (IH s1 Hs1). destruct (drive polls s1) as [rs s2]. destruct IH as (Hc & Hp & He).
  split_and!.
  - change (delivered (r :: rs)) with (payload r ++ delivered rs). by rewrite <-app_assoc, Hc.
  - rewrite Hp, Hp1, Forall_cons. tauto.
  - rewrite Exists_cons. intros [Er|Hin]%elem_of_cons.
    + destruct (He1 (eq_sym Er)) as [?|E0]; [by left|]. right. right.
      rewrite E0 in Hc. by apply app_nil in Hc as [_ ?].
    + destruct (He Hin) as [[?|?]%Ht1|[?|?]]; tauto.
Qed.

(* ------------------------------------------------------------------ *)
(** ** Handlers *)

Record DownloadResponse : Type := { headers : list (string * string); body : bytes }.

Section Handlers.
Context `{Env} `{UuidLib} `{MimeLib} `{ShaLib} `{JsonLib} `{HttpLib} `{FileStamps}.

Definition header_value (value : string) : res ApiError string :=
  if header_value_ok value then Ok value else Err Api.artifact_integrity.

Definition download_metadata_from_row (row : DownloadRow) : res ApiError DownloadMetadata :=
  let '(a, b, m) := (dr_artifact row, dr_blob row, dr_manifest row) in
  let integrity {A} (o : option A) := ok_or o Api.artifact_integrity in
  reject negb (eqs (sha256_hex (string_bytes (ManifestRow.canonical_json m))) (ManifestRow.sha256 m))
    with Api.artifact_integrity;
  let? manifest := integrity (manifest_of_json (ManifestRow.canonical_json m)) in
  let? artifact_index := integrity (i64_to_u64 (ArtifactRow.artifact_index a)) in
  let? artifact := integrity (artifacts manifest !! Z.to_nat artifact_index) in
  let? original_digest := integrity (canonical_digest (original_sha256 artifact)) in
  let? stored_digest := integrity (canonical_digest (stored_sha256 artifact)) in
  let? original_size := integrity (i64_to_u64 (ArtifactRow.original_size_bytes a)) in
  let? stored_size := integrity (i64_to_u64 (Blob.stored_size_bytes b)) in
  let? row_compression := integrity (parse (Blob.compression b)) in
  reject negb (eqs (ArtifactRow.logical_path a) (logical_path artifact))
         || negb (bool_decide (ArtifactRow.media_type a = media_type artifact))
         || negb (original_size =? original_size_bytes artifact)
         || negb (bool_decide (storage_digest (ArtifactRow.original_sha256 a) = Some original_digest))
         || negb (stored_size =? stored_size_bytes artifact)
         || negb (bool_decide (storage_digest (Blob.stored_sha256 b) = Some stored_digest))
         || negb (bool_decide (row_compression = compression artifact))
    with Api.artifact_integrity;
  Ok {| dm_logical_path := logical_path artifact;
        dm_media_type := media_type artifact;
        dm_original_size_bytes := original_size_bytes artifact;
        dm_original_sha256 := digest_document_value original_digest;
        dm_stored_size_bytes := stored_size_bytes artifact;
        dm_stored_sha256 := stored_digest;
        dm_compression := compression artifact |}.

(** The query of [verified_download_metadata]. *)
Definition download_row (artifact_id : string) (d : Db) : option DownloadRow :=
  head (omap (fun a =>
    s ← live_snapshot_by_id (ArtifactRow.snapshot_id a) d;
    m ← manifest_by_id (Snapshot.manifest_id s) d;
    b ← blob_by_id (ArtifactRow.blob_id a) d;
    Some (mkDownloadRow a b m)) (select (fun a => eqs (ArtifactRow.id a) artifact_id) (artifact_rows d))).
Definition download_reconciliation_error (e : ReconciliationError) : ApiError :=
  match e with
  | Metadata => Api.database
  | NotFound | Drift => Api.artifact_integrity
  end.
Definition verified_download_metadata (artifact_id : string) : M ApiError (option DownloadMetadata) :=
  let! row := query db_err (download_row artifact_id) in
  match row with
  | None => ret None
  | Some row =>
      let! metadata := lift (download_metadata_from_row row) in
      map_err download_reconciliation_error (reconcile_snapshot (ArtifactRow.snapshot_id (dr_artifact row))) &;
      ret (Some metadata)
  end.

(** [HeaderMap::insert], each name once. *)
Definition insert_header (name value : string) : string * string := (name, value).
Definition compression_header (c : Compression) : string :=
  match c with Identity => "identity" | Zstd => "zstd" end.
Definition add_download_headers (metadata : DownloadMetadata) (stored_digest_base64 : string)
  : res ApiError (list (string * string)) :=
  reject match dm_media_type metadata with Some t => negb (mime_parses t) | None => false end
    with Api.artifact_integrity;
  let? content_type := header_value (default "application/octet-stream"%string (dm_media_type metadata)) in
  let? content_length := header_value (to_decimal (dm_stored_size_bytes metadata)) in
  let? digest := header_value ("SHA-256=" +:+ stored_digest_base64) in
  let? content_digest := header_value ("sha-256=:" +:+ stored_digest_base64 +:+ ":") in
  let? path := header_value (base64_url (string_bytes (dm_logical_path metadata))) in
  let? media := match dm_media_type metadata with
                | Some t => let? v := header_value t in Ok [insert_header "x-patwari-media-type" v]
                | None => Ok []
                end in
  let? original_size := header_value (to_decimal (dm_original_size_bytes metadata)) in
  let? original_sha256 := header_value (dm_original_sha256 metadata) in
  let? stored_size := header_value (to_decimal (dm_stored_size_bytes metadata)) in
  let? stored_sha256 := header_value (digest_document_value (dm_stored_sha256 metadata)) in
  Ok ([insert_header "content-type" content_type; insert_header "content-length" content_length;
       insert_header "cache-control" "no-transform"]
      ++ (if bool_decide (dm_compression metadata = Zstd) then [insert_header "content-encoding" "zstd"] else [])
      ++ [insert_header "digest" digest; insert_header "content-digest" content_digest;
          insert_header "x-patwari-logical-path" path;
          insert_header "x-patwari-logical-path-encoding" "base64url"]
      ++ media
      ++ [insert_header "x-patwari-compression" (compression_header (dm_compression metadata));
          insert_header "x-patwari-original-size-bytes" original_size;
          insert_header "x-patwari-original-sha256" original_sha256;
          insert_header "x-patwari-stored-size-bytes" stored_size;
          insert_header "x-patwari-stored-sha256" stored_sha256]).

(** [File::metadata]: the kind and length of the file, and its stamp. *)
Record FileMetadata : Type := mkFileMetadata { is_file : bool; file_len : Z; file_stamp : FileStamp }.
Definition file_metadata {E} (err : E) (p : path) : M E FileMetadata :=
  operation (fun _ => err) (fun '(s, n) =>
    (Ok (match files s !! p with
         | Some (Regular b) => mkFileMetadata true (byte_len b) (stamp n p)
         | _ => mkFileMetadata false 0 (stamp n p)
         end), (s, n))).
(** [open_blob_without_following_symlinks] *)
Definition open_blob_without_following_symlinks {E} (err : E) (p : path) : M E unit :=
  operation (fun _ => err) (fun '(s, n) =>
    match files s !! p with
    | Some Symlink | None => (Err err, (s, n))
    | _ => (Ok tt, (s, n))
    end).
Definition metadata_changed_during_preflight (before after : FileMetadata) : bool :=
  negb (file_len before =? file_len after)
  || negb (bool_decide (file_stamp before = file_stamp after)).

(** The read loop of [preflight_blob]: the total and the bytes hashed. *)
Fixpoint preflight_reads (reads : list bytes) (ends_cleanly : bool) (expected_size total : Z) (hashed : bytes)
  : res ApiError (Z * bytes) :=
  match reads with
  | [] => if ends_cleanly then Ok (total, hashed) else Err Api.artifact_integrity
  | data :: reads =>
      let? total := ok_or (checked_add_u64 total (byte_len data)) Api.artifact_integrity in
      reject expected_size <? total with Api.artifact_integrity;
      preflight_reads reads ends_cleanly expected_size total (hashed ++ data)
  end.
(** The open file is rewound, so the body starts at its first byte: it is
    answered as the content of the file, with the digest in base64. *)
Definition preflight_blob (p : path) (expected_size : Z) (expected_sha256 : string) : M ApiError (bytes * string) :=
  refuse bool_decide (storage_digest expected_sha256 = None) with Api.artifact_integrity;
  let! regular := is_regular_file p in
  refuse negb regular with Api.artifact_integrity;
  open_blob_without_following_symlinks Api.artifact_integrity p &;
  let! before := file_metadata Api.artifact_integrity p in
  refuse negb (is_file before) || negb (file_len before =? expected_size) with Api.artifact_integrity;
  let! r := read_file Api.artifact_integrity p in
  let! measured := lift (preflight_reads r.1 r.2 expected_size 0 []) in
  let '(total, hashed) := measured in
  let! after := file_metadata Api.artifact_integrity p in
  refuse negb (total =? expected_size) || negb (eqs (sha256_hex hashed) expected_sha256)
         || metadata_changed_during_preflight before after
    with Api.artifact_integrity;
  sync Api.artifact_integrity &;
  ret (hashed, base64_standard (sha256 hashed)).

Definition download_artifact (artifact_id : string) : M ApiError DownloadResponse :=
  let! artifact_id := lift (parse_uuid artifact_id "artifact identifier is not a UUID") in
  sync Api.internal &;
  let! metadata := verified_download_metadata artifact_id in
  let! metadata := lift (ok_or metadata (Api.not_found "artifact_not_found" "artifact was not found")) in
  let! file := preflight_blob (blob_path (dm_stored_sha256 metadata)) (dm_stored_size_bytes metadata)
                 (dm_stored_sha256 metadata) in
  let! headers := lift (add_download_headers metadata file.2) in
  ret {| headers := headers; body := file.1 |}.

(* ------------------------------------------------------------------ *)
(** ** What a download is *)

Lemma preflight_reads_Ok reads : forall clean size total hashed t h,
  preflight_reads reads clean size total hashed = Ok (t, h) -> total = byte_len hashed ->
  clean = true /\ h = hashed ++ concat reads /\ t = byte_len h.
Proof.
  induction reads as [|data reads IH]; intros clean size total hashed t h; cbn [preflight_reads concat].
  - destruct clean; [|done]. intros [= <- <-] ->. by rewrite app_nil_r.
  - intros Hr Ht. inv_res.
    match goal with Hx : checked_add_u64 _ _ = Some _ |- _ => apply checked_add_u64_Some in Hx as [-> _] end.
    apply IH in Hr as (? & -> & ?); [by rewrite app_assoc|]. unfold byte_len. rewrite length_app. lia.
Qed.

Lemma wp_open {E} (e : E) p (Q : res E unit -> Store -> Prop) s :
  Q (Err e) s -> Q (Ok tt) s -> wp (open_blob_without_following_symlinks e p) Q s.
Proof. intros He Hok. apply wp_operation; [done|]. intros n. simpl. by destruct (files s !! p) as [[]|]. Qed.
Lemma preflight_blob_spec p size digest s :
  wp (preflight_blob p size digest) (fun r s' => s' = s /\
    match r with
    | Ok (body, encoded) => files s !! p = Some (Regular body) /\ byte_len body = size
        /\ sha256_hex body = digest /\ encoded = base64_standard (sha256 body)
    | Err e => e = Api.artifact_integrity
    end) s.
Proof.
  unfold preflight_blob. case_bool_decide; [by apply wp_throw|].
  apply wp_bind, wp_is_regular_file; simpl; [by apply wp_throw|]. intros b Eb.
  assert (Hmeta : forall Q, Q (Err Api.artifact_integrity) s ->
            (forall st, Q (Ok (mkFileMetadata true (byte_len b) st)) s) ->
            wp (file_metadata Api.artifact_integrity p) Q s).
  { intros Q He Hok. apply wp_operation; [done|]. intros n. simpl. rewrite Eb. apply Hok. }
  apply wp_bind, wp_open; simpl; [done|].
  apply wp_bind, Hmeta; simpl; [done|]. intros st1. case_match; [by apply wp_throw|].
  apply wp_bind, wp_read_file; cbn [then_wp fst snd]; [done|]. intros b' Eb'. rewrite Eb in Eb'. injection Eb' as <-.
  assert (Hread : forall content clean, (clean = true -> content = b) ->
    wp (let! measured := lift (preflight_reads [content] clean size 0 []) in
        let '(total, hashed) := measured in
        let! after := file_metadata Api.artifact_integrity p in
        refuse negb (total =? size) || negb (eqs (sha256_hex hashed) digest)
               || metadata_changed_during_preflight (mkFileMetadata true (byte_len b) st1) after
          with Api.artifact_integrity;
        sync Api.artifact_integrity &;
        ret (hashed, base64_standard (sha256 hashed)))
      (fun r s' => s' = s /\ match r with
        | Ok (body, encoded) => files s !! p = Some (Regular body) /\ byte_len body = size
            /\ sha256_hex body = digest /\ encoded = base64_standard (sha256 body)
        | Err e => e = Api.artifact_integrity
        end) s).
  { intros c clean Hclean. apply wp_bind, wp_lift.
    destruct (preflight_reads [c] clean size 0 []) as [[t h]|e] eqn:Er.
    - apply preflight_reads_Ok in Er as (-> & -> & ->); [|done]. rewrite Hclean by done. simpl. rewrite app_nil_r.
      apply wp_bind, Hmeta; simpl; [done|]. intros st2. case_match eqn:Ec; [by apply wp_throw|].
      apply orb_false_iff in Ec as [[E1%negb_false_iff%Z.eqb_eq E2%negb_false_iff%eqs_true]%orb_false_iff _].
      apply wp_bind, wp_sync; simpl; [done|]. by apply wp_ret.
    - simpl. split; [done|]. revert Er. cbn [preflight_reads]. destruct (checked_add_u64 _ _); simpl; [|congruence].
      case_match; [congruence|]. by destruct clean; [|congruence]. }
  split; [by apply Hread|intros k; by apply Hread].
Qed.

(** The row of a download, and the artifact of the manifest it stands for. *)
Record downloads (d : Db) (id : string) (row : DownloadRow) (q : Snapshot.row) (m : Manifest) (art : Artifact) : Prop := {
  dl_artifact : dr_artifact row ∈ artifact_rows d;
  dl_id : ArtifactRow.id (dr_artifact row) = id;
  dl_live : live_snapshot_by_id (ArtifactRow.snapshot_id (dr_artifact row)) d = Some q;
  dl_blob : blob_by_id (ArtifactRow.blob_id (dr_artifact row)) d = Some (dr_blob row);
  dl_projects : projects d q (dr_manifest row) m;
  dl_position : artifacts m !! Z.to_nat (ArtifactRow.artifact_index (dr_artifact row)) = Some art;
  dl_path : ArtifactRow.logical_path (dr_artifact row) = logical_path art;
  dl_original_size : ArtifactRow.original_size_bytes (dr_artifact row) = original_size_bytes art;
  dl_original_digest : original_sha256 art = "sha256:" +:+ ArtifactRow.original_sha256 (dr_artifact row);
  dl_stored_size : Blob.stored_size_bytes (dr_blob row) = stored_size_bytes art;
  dl_stored_digest : stored_sha256 art = "sha256:" +:+ Blob.stored_sha256 (dr_blob row);
  dl_compression : parse (Blob.compression (dr_blob row)) = Some (compression art);
}.
(** What the client is told of it. *)
Definition metadata_of (art : Artifact) (stored : string) : DownloadMetadata :=
  {| dm_logical_path := logical_path art; dm_media_type := media_type art;
     dm_original_size_bytes := original_size_bytes art; dm_original_sha256 := original_sha256 art;
     dm_stored_size_bytes := stored_size_bytes art; dm_stored_sha256 := stored;
     dm_compression := compression art |}.

Lemma storage_digest_Some v w : storage_digest v = Some w -> w = v /\ strip_prefix "sha256:" v = None.
Proof.
  unfold storage_digest. destruct (_ && _) eqn:E; [|done]. intros [= <-]. split; [done|].
  apply andb_true_iff in E as [_ E]. rewrite forallb_true in E.
  destruct (strip_prefix "sha256:" v) as [t|] eqn:Ep; [|done]. apply strip_prefix_Some in Ep as ->.
  exfalso. assert (Hc : is_lower_hex "s"%char = true) by (apply E; left). by vm_compute in Hc.
Qed.
Lemma canonical_digest_Some v w : canonical_digest v = Some w ->
  v = "sha256:" +:+ w /\ digest_document_value w = v.
Proof.
  unfold canonical_digest. intros (t & Ep%strip_prefix_Some & [-> Hs]%storage_digest_Some)%bind_Some.
  split; [done|]. unfold digest_document_value, digest_storage_value. by rewrite Hs.
Qed.

Lemma download_row_Some id d row : download_row id d = Some row ->
  exists q, dr_artifact row ∈ artifact_rows d /\ ArtifactRow.id (dr_artifact row) = id
    /\ live_snapshot_by_id (ArtifactRow.snapshot_id (dr_artifact row)) d = Some q
    /\ manifest_by_id (Snapshot.manifest_id q) d = Some (dr_manifest row)
    /\ blob_by_id (ArtifactRow.blob_id (dr_artifact row)) d = Some (dr_blob row).
Proof.
  intros (a & Ha & (q & Eq & (m & Em & (b & Eb & [= <-])%bind_Some)%bind_Some)%bind_Some)%head_Some_elem_of%list_elem_of_omap.
  apply elem_of_select in Ha as [Eid%eqs_true Ha]. by exists q.
Qed.

(** The checks of a row against its manifest, read off a success. *)
Lemma download_metadata_from_row_Ok row md : download_metadata_from_row row = Ok md ->
  exists m art, manifest_of_json (ManifestRow.canonical_json (dr_manifest row)) = Some m
    /\ artifacts m !! Z.to_nat (ArtifactRow.artifact_index (dr_artifact row)) = Some art
    /\ ArtifactRow.logical_path (dr_artifact row) = logical_path art
    /\ ArtifactRow.original_size_bytes (dr_artifact row) = original_size_bytes art
    /\ original_sha256 art = "sha256:" +:+ ArtifactRow.original_sha256 (dr_artifact row)
    /\ Blob.stored_size_bytes (dr_blob row) = stored_size_bytes art
    /\ stored_sha256 art = "sha256:" +:+ Blob.stored_sha256 (dr_blob row)
    /\ parse (Blob.compression (dr_blob row)) = Some (compression art)
    /\ md = metadata_of art (Blob.stored_sha256 (dr_blob row)).
Proof.
  unfold download_metadata_from_row. intros Hmd. inv_res. bool_to_prop.
  repeat match goal with
  | Hx : i64_to_u64 _ = Some _ |- _ => apply i64_to_u64_Some in Hx as [-> ?]
  | Hx : canonical_digest _ = Some _ |- _ => apply canonical_digest_Some in Hx as [? ?]
  | Hx : storage_digest _ = Some _ |- _ => apply storage_digest_Some in Hx as [? _]
  | Hx : eqs _ _ = true |- _ => apply eqs_true in Hx
  | Hx : (_ =? _) = true |- _ => apply Z.eqb_eq in Hx
  end; simplify_eq.
  eexists _, _. split_and!; try done; try congruence. unfold metadata_of. f_equal; congruence.
Qed.

(** Every check of a row answers the same error. *)
Lemma download_metadata_from_row_Err row e : download_metadata_from_row row = Err e -> e = Api.artifact_integrity.
Proof.
  unfold download_metadata_from_row.
  repeat match goal with
  | |- context [if ?b then Err _ else _] => destruct b; [by intros [= <-]|]
  | |- context [ok_or ?o _] => destruct o; simpl; [|by intros [= <-]]
  end. done.
Qed.

Lemma add_download_headers_Err md digest e : add_download_headers md digest = Err e -> e = Api.artifact_integrity.
Proof.
  unfold add_download_headers, header_value. destruct (dm_media_type md) as [t|];
  repeat match goal with
  | |- context [if ?b then Err _ else _] => destruct b; [by intros [= <-]|]
  | |- context [if header_value_ok ?v then Ok _ else _] =>
      destruct (header_value_ok v); cbn [res_bind]; [|by intros [= <-]]
  end; done.
Qed.

(** A download changes nothing. What it answers is the file of the blob of an
    artifact of a live snapshot, with the size and digest the snapshot's
    manifest records, under the headers of that manifest entry. *)
Lemma download_artifact_spec artifact_id s :
  wp (download_artifact artifact_id) (fun r s' => s' = s /\
    match r with
    | Ok resp => exists id row q m art,
        parse_str artifact_id = Some id
        /\ downloads (db s) id row q m art
        /\ files s !! blob_path (Blob.stored_sha256 (dr_blob row)) = Some (Regular (body resp))
        /\ byte_len (body resp) = stored_size_bytes art
        /\ "sha256:" +:+ sha256_hex (body resp) = stored_sha256 art
        /\ add_download_headers (metadata_of art (Blob.stored_sha256 (dr_blob row)))
             (base64_standard (sha256 (body resp))) = Ok (headers resp)
    | Err e => e = Api.not_found "artifact_not_found" "artifact was not found" ->
        forall id, parse_str artifact_id = Some id -> download_row id (db s) = None
    end) s.
Proof.
  unfold download_artifact, parse_uuid. apply wp_bind, wp_lift.
  destruct (parse_str artifact_id) as [id|] eqn:Eid; simpl; [|done].
  apply wp_bind, wp_sync; simpl; [done|].
  unfold verified_download_metadata. apply wp_bind, wp_bind, wp_query; simpl; [done|].
  destruct (download_row id (db s)) as [row|] eqn:Erow; simpl.
  2: { apply wp_ret. simpl. apply wp_bind, wp_lift. simpl. split; [done|]. by intros _ ? [= <-]. }
  apply wp_bind, wp_lift.
  destruct (download_metadata_from_row row) as [md|e] eqn:Emd; simpl.
  2: { by apply download_metadata_from_row_Err in Emd as ->. }
  apply wp_bind, wp_map_err. eapply wp_mono; [|apply reconcile_snapshot_spec].
  intros [[]|e] s' [-> Hr]; simpl; [|split; [done|by destruct e]].
  destruct Hr as (q & mrow & m & Eq & Hproj). apply wp_ret. simpl. apply wp_bind, wp_lift. simpl.
  apply download_row_Some in Erow as (q' & Ha & Hid & Eq' & Em & Eb). rewrite Eq in Eq'. injection Eq' as <-.
  assert (mrow = dr_manifest row) as -> by (destruct Hproj; congruence).
  apply download_metadata_from_row_Ok in Emd as (m' & art & Ej & Hpos & E1 & E2 & E3 & E4 & E5 & E6 & ->).
  assert (m' = m) as -> by (destruct Hproj; congruence).
  apply wp_bind. eapply wp_mono; [|apply preflight_blob_spec].
  intros [[content digest]|e] s' [-> Hb]; simpl; [|by subst].
  destruct Hb as (Hf & Hl & Hd & ->). apply wp_bind, wp_lift.
  destruct (add_download_headers _ _) as [hs|e] eqn:Eh; simpl.
  - apply wp_ret. split; [done|]. exists id, row, q, m, art. simpl in *. split_and!; try done.
    by rewrite Hd.
  - split; [done|]. by apply add_download_headers_Err in Eh as ->.
Qed.
End Handlers.
