(* ===== verification/Delivery.v ===== *)
(** What reads of a live archive deliver: reconciliation never reports a drift
    in a store the server can reach, and a download of any artifact of it
    succeeds when nothing fails, with the bytes, sizes and digests of its
    manifest; the body is cut short only by a failure that is reported. *)
From stdpp Require Import prelude strings gmap sorting list relations.
From Stdlib Require Import ZArith Ascii Lia.
From Stdlib.Strings Require Import Byte.
From S2P Require Import Prelude Errors Contract Externals Validation Chunks Fingerprint Pagination.
From S2P Require Import Tables Store Storage Uploads Receipts Completion Deletion Recovery Archive.
From S2P Require Import Invariants Assembly Publication Reclamation Visibility Catalogue Lifecycle Ledger Restart.
From S2P Require Import Collection System Filing Refinement Reconcile Canonical Documents Retrieval Download.

(** Visible ASCII, which [HeaderValue::from_str] accepts. *)
Definition is_visible (c : ascii) : bool := ((32 <=? code c) && (code c <=? 126))%N.
Definition visible (s : string) : bool := forallb is_visible (chars s).
Class HttpLaws (HL : HttpLib) := {
  header_value_visible : forall v, visible v = true -> header_value_ok v = true;
  base64_standard_visible : forall b, visible (base64_standard b) = true;
  base64_url_visible : forall b, visible (base64_url b) = true;
}.

Lemma visible_app a b : visible (a +:+ b) = visible a && visible b.
Proof. unfold visible. by rewrite chars_app, forallb_app. Qed.
Lemma visible_decimal n : is_u64 n -> visible (to_decimal n) = true.
Proof.
  intros Hn. destruct (to_decimal_spec n Hn) as (_ & HF & _). apply forallb_true. rewrite Forall_forall in HF.
  intros c Hc%HF. unfold is_ascii_digit, is_visible in *.
  apply andb_true_iff in Hc as [?%N.leb_le ?%N.leb_le]. apply andb_true_iff. rewrite !N.leb_le. lia.
Qed.
Lemma visible_digest v : sha256_document v -> visible v = true.
Proof.
  intros (h & -> & _ & Hh). rewrite visible_app. apply andb_true_iff. split; [done|].
  apply forallb_true. intros c Hc%Hh. unfold is_lower_hex, is_ascii_lowercase, is_visible, is_ascii_digit in *.
  apply orb_true_iff in Hc as [[?%N.leb_le ?%N.leb_le]%andb_true_iff|[[?%N.leb_le ?%N.leb_le]%andb_true_iff _]%andb_true_iff];
    apply andb_true_iff; rewrite !N.leb_le; lia.
Qed.

(** A digest of a manifest, as the columns and the headers hold it. *)
Lemma digest_document_parts v : sha256_document v ->
  canonical_digest v = Some (digest_storage_value v) /\ storage_digest (digest_storage_value v) = Some (digest_storage_value v)
  /\ digest_document_value (digest_storage_value v) = v /\ v = "sha256:" +:+ digest_storage_value v.
Proof.
  intros (h & -> & Hl & Hh). assert (E : digest_storage_value ("sha256:" +:+ h) = h).
  { unfold digest_storage_value. by rewrite (proj2 (strip_prefix_Some _ _ _) eq_refl). }
  assert (Hs : storage_digest h = Some h).
  { unfold storage_digest, str_len. rewrite Hl. rewrite (proj2 (forallb_true _ _)) by done. done. }
  rewrite E. split_and!; [|done| |done].
  - unfold canonical_digest. by rewrite (proj2 (strip_prefix_Some _ _ _) eq_refl).
  - apply storage_digest_Some in Hs as [_ Hn]. unfold digest_document_value, digest_storage_value. by rewrite Hn.
Qed.

(** The rows of a snapshot are in the place of their artifact. *)
Lemma rows_match_lookup arts : forall i rows r b, rows_match i arts rows -> (r, b) ∈ rows ->
  exists k art, arts !! k = Some art /\ row_matches (i + Z.of_nat k) art (r, b).
Proof.
  induction arts as [|a arts IH]; intros i [|x rows] r b; try done; [by intros _ ?%elem_of_nil|].
  intros [Hx Hm] [<-|Hin]%elem_of_cons.
  - exists 0%nat, a. split; [done|]. by rewrite Z.add_0_r.
  - destruct (IH _ _ _ _ Hm Hin) as (k & art & Hk & Hr). exists (S k), art. split; [done|].
    replace (i + Z.of_nat (S k)) with (i + 1 + Z.of_nat k) by lia. done.
Qed.

(* ------------------------------------------------------------------ *)
(** ** Reconciliation *)

(** Runs a handler up to its next case distinction, when nothing fails. *)
Ltac calm_run := repeat first
  [ lazymatch goal with
    | |- wp (query _ _) _ _ => apply wp_query_calm; [assumption|]
    | |- wp (sync _) _ _ => unfold sync; apply wp_operation_calm; [assumption|]
    | |- wp (read_file _ _) _ _ => fail
    | |- wp _ _ _ => wp_step
    end
  | progress simpl ].

Section Reconciling.
Context `{EV : Env} `{UL : UuidLib} {ULaws : UuidLaws UL} `{TL : TimeLib} `{ML : MimeLib} `{SL : ShaLib} `{ZL : ZstdLib}
  `{JL : JsonLib} {JLaws : JsonLaws JL}.
Context (st : AppState).
Hypothesis Hst : limits_typed (manifest_limits st).

Lemma live_in d id q : live_snapshot_by_id id d = Some q -> q ∈ snapshots d /\ live q = true /\ Snapshot.id q = id.
Proof. intros [[E%eqs_true Hl]%andb_true_iff Hq]%select_one_Some. done. Qed.
Lemma reachable_live_projects s id q : reachable st s -> live_snapshot_by_id id (db s) = Some q ->
  exists mrow m, projects (db s) q mrow m /\ manifest_sound m.
Proof. intros Hs (Hq & Hl & _)%live_in. by apply (reachable_projects st Hst). Qed.

Lemma reconcile_calm id q mrow m s : (forall k, fails k = None) ->
  live_snapshot_by_id id (db s) = Some q -> projects (db s) q mrow m ->
  wp (reconcile_snapshot id) (fun r s' => s' = s /\ r = Ok tt) s.
Proof.
  intros Hcalm Hq [P1 P2 P3 [P4 P4'] (P5 & P6 & P7) P8]. pose proof (live_in _ _ _ Hq) as (_ & _ & Hid).
  rewrite Hid in P8. unfold reconcile_snapshot. calm_run.
  unfold live_snapshot_manifest. rewrite Hq. simpl. rewrite P1. simpl. calm_run.
  rewrite P2, eqs_refl. calm_run. rewrite P3. calm_run.
  rewrite (rows_match_length _ _ _ P8), Nat.eqb_refl. calm_run.
  unfold drift_i64. rewrite u64_to_i64_fits by done. calm_run. rewrite P4, Z.eqb_refl. calm_run.
  rewrite P5. calm_run. rewrite !u64_to_i64_fits by done. calm_run. rewrite Z.eqb_refl. calm_run.
  rewrite Z.eqb_refl. calm_run. split; [done|].
  apply check_rows_Ok; [by apply rows_match_length in P8|done].
Qed.
Lemma reconcile_calm_missing id s : (forall k, fails k = None) -> live_snapshot_by_id id (db s) = None ->
  wp (reconcile_snapshot id) (fun r s' => s' = s /\ r = Err NotFound) s.
Proof.
  intros Hcalm Hq. unfold reconcile_snapshot. calm_run.
  unfold live_snapshot_manifest. rewrite Hq. simpl. by calm_run.
Qed.

(** C13: in every store the server can reach, reconciliation never reports a
    drift.  It changes nothing; it succeeds exactly on the live snapshots, each
    of which is the projection of its manifest, misses one exactly when none of
    that identifier is live, and gives no answer only when a query failed. *)
Theorem reconcile_never_drifts id s n : reachable st s ->
  let '(r, (s', _)) := reconcile_snapshot id (s, n) in
  s' = s /\ match r with
            | Ok _ => exists q mrow m, live_snapshot_by_id id (db s) = Some q /\ projects (db s) q mrow m
            | Err NotFound => live_snapshot_by_id id (db s) = None
            | Err Drift => False
            | Err Metadata => ~ forall k, fails k = None
            end.
Proof.
  intros Hs. pose proof (reconcile_snapshot_spec id s n) as Hr.
  assert (Hc : (forall k, fails k = None) -> (reconcile_snapshot id (s, n)).1 <> Err Metadata).
  { intros Hcalm. destruct (live_snapshot_by_id id (db s)) as [q|] eqn:Eq.
    - destruct (reachable_live_projects s id q Hs Eq) as (mrow & m & Hp & _).
      destruct (reconcile_calm id q mrow m s Hcalm Eq Hp n) as [_ ->]. done.
    - destruct (reconcile_calm_missing id s Hcalm Eq n) as [_ ->]. done. }
  destruct (reconcile_snapshot id (s, n)) as [[[]|e] [s' k]]; simpl in *; [done|].
  destruct Hr as [-> Hr]. split; [done|]. destruct e.
  - unfold live_snapshot_manifest in Hr. destruct (live_snapshot_by_id id (db s)) as [q|] eqn:Eq; [|done].
    destruct (reachable_live_projects s id q Hs Eq) as (mrow & m & [Hm _ _ _ _ _] & _). simpl in Hr. by rewrite Hm in Hr.
  - intros Hcalm. by apply (Hc Hcalm).
  - destruct Hr as (q & mrow & Hlive & Hno). unfold live_snapshot_manifest in Hlive.
    destruct (live_snapshot_by_id id (db s)) as [q'|] eqn:Eq; [|done]. simpl in Hlive.
    destruct (reachable_live_projects s id q' Hs Eq) as (mrow' & m & Hp & _). rewrite (pj_manifest _ _ _ _ Hp) in Hlive.
    simplify_eq/=. by apply (Hno m).
Qed.
End Reconciling.

(* ------------------------------------------------------------------ *)
(** ** Downloads *)

Section Downloading.
Context `{EV : Env} `{UL : UuidLib} {ULaws : UuidLaws UL} `{TL : TimeLib} `{ML : MimeLib} `{SL : ShaLib} `{ZL : ZstdLib}
  `{JL : JsonLib} {JLaws : JsonLaws JL} `{HL : HttpLib} {HLaws : HttpLaws HL} `{FS : FileStamps}.
Context (st : AppState).
Hypothesis Hst : limits_typed (manifest_limits st).

(** The row found for a download and its blob, file and manifest. *)
Record ready_download (s : Store) (row : DownloadRow) (q : Snapshot.row) (m : Manifest) (k : nat) (art : Artifact) : Prop := {
  rd_live : live_snapshot_by_id (ArtifactRow.snapshot_id (dr_artifact row)) (db s) = Some q;
  rd_projects : projects (db s) q (dr_manifest row) m;
  rd_sound : manifest_sound m;
  rd_artifact : artifacts m !! k = Some art;
  rd_matches : row_matches (Z.of_nat k) art (dr_artifact row, dr_blob row);
  rd_stored : artifact_stored (files s) (dr_artifact row) (stored_blob (dr_blob row));
}.
Lemma reachable_download s row q : reachable st s -> dr_artifact row ∈ artifact_rows (db s) ->
  live_snapshot_by_id (ArtifactRow.snapshot_id (dr_artifact row)) (db s) = Some q ->
  manifest_by_id (Snapshot.manifest_id q) (db s) = Some (dr_manifest row) ->
  blob_by_id (ArtifactRow.blob_id (dr_artifact row)) (db s) = Some (dr_blob row) ->
  exists m k art, ready_download s row q m k art.
Proof.
  intros Hs Ha Hq Em Eb. destruct (reachable_live_projects st Hst s _ q Hs Hq) as (mrow & m & Hp & Hm).
  assert (mrow = dr_manifest row) as -> by (pose proof (pj_manifest _ _ _ _ Hp); congruence).
  pose proof (live_in _ _ _ Hq) as (_ & _ & Hqid).
  destruct (rows_match_lookup _ _ _ (dr_artifact row) (dr_blob row) (pj_rows _ _ _ _ Hp)) as (k & art & Hk & Hr).
  { unfold rows_of_snapshot. rewrite merge_sort_Permutation, list_elem_of_omap.
    exists (dr_artifact row). split; [apply elem_of_select; split; [by apply eqs_true|done]|].
    unfold join_blob. by rewrite Eb. }
  exists m, k, art. split; try done.
  destruct (reachable_restartable st Hst s Hs) as ((_ & [_ Hids _ _ HS] & _) & _).
  destruct (HS _ Ha) as (sb & Hsb & Hst_). replace (stored_blob (dr_blob row)) with sb; [done|].
  apply select_one_Some in Eb as [Ebid%eqs_true Hb]. apply (NoDup_key_inj sb_id (stored_blobs (db s))); [done|done| |].
  - by apply list_elem_of_fmap_2.
  - destruct Hst_ as [-> _]. by rewrite <-Ebid.
Qed.
Lemma reachable_artifact_found s a : reachable st s -> a ∈ artifact_rows (db s) ->
  exists row, download_row (ArtifactRow.id a) (db s) = Some row.
Proof.
  intros Hs Ha. destruct (reachable_restartable st Hst s Hs) as ((_ & [_ _ _ HL_ HS] & _) & _).
  destruct (HL_ a Ha) as [q Hq]. destruct (HS a Ha) as (sb & Hsb & Hsid & _).
  destruct (reachable_live_projects st Hst s _ q Hs Hq) as (mrow & m & Hp & _).
  assert (exists b, blob_by_id (ArtifactRow.blob_id a) (db s) = Some b) as [b Hb].
  { destruct (stored_of_blob (db s) (sb_id sb) sb) as (b & Hb & _); [|exists b; by rewrite <-Hsid].
    apply stored_of_known; [|done]. by destruct (reachable_restartable st Hst s Hs) as ((_ & [_ ? _ _ _] & _) & _). }
  unfold download_row. destruct (omap _ _) as [|row l] eqn:E; [|by exists row].
  exfalso. eapply (not_elem_of_nil (mkDownloadRow a b mrow)). rewrite <-E. apply list_elem_of_omap.
  exists a. split; [apply elem_of_select; split; [by apply eqs_true|done]|].
  rewrite Hq. simpl. rewrite (pj_manifest _ _ _ _ Hp). simpl. by rewrite Hb.
Qed.

(** What a download answers of an artifact: its stored bytes, which restore the
    original its manifest announces. *)
Record delivers (s : Store) (resp : DownloadResponse) (row : DownloadRow) (art : Artifact) : Prop := {
  de_file : files s !! blob_path (Blob.stored_sha256 (dr_blob row)) = Some (Regular (body resp));
  de_size : byte_len (body resp) = stored_size_bytes art;
  de_digest : "sha256:" +:+ sha256_hex (body resp) = stored_sha256 art;
  de_restores : forall h, original_sha256 art = "sha256:" +:+ h ->
    restores (compression art) (body resp) (original_size_bytes art) h
    \/ (compression art = Zstd /\ exists verified, verified <> body resp
          /\ byte_len verified = byte_len (body resp) /\ sha256_hex verified = sha256_hex (body resp)
          /\ restores Zstd verified (original_size_bytes art) h);
  de_headers : add_download_headers (metadata_of art (Blob.stored_sha256 (dr_blob row)))
                 (base64_standard (sha256 (body resp))) = Ok (headers resp);
}.

Lemma downloads_delivers s id resp row q m art : reachable st s -> downloads (db s) id row q m art ->
  files s !! blob_path (Blob.stored_sha256 (dr_blob row)) = Some (Regular (body resp)) ->
  byte_len (body resp) = stored_size_bytes art -> "sha256:" +:+ sha256_hex (body resp) = stored_sha256 art ->
  add_download_headers (metadata_of art (Blob.stored_sha256 (dr_blob row))) (base64_standard (sha256 (body resp))) = Ok (headers resp) ->
  delivers s resp row art.
Proof.
  intros Hs Hd Hf Hl Hdig Hh. split; try done. intros h Eh.
  destruct (reachable_download s row q Hs) as (m' & k & art' & [_ _ _ _ _ Hst_]); try apply Hd.
  destruct (artifact_restored _ _ _ Hst_) as (content & c & Hf' & Hm & Hc & Hr).
  cbn [stored_blob sb_digest sb_size sb_compression] in Hf', Hm, Hc, Hr.
  rewrite Hf in Hf'. injection Hf' as <-. rewrite (dl_compression _ _ _ _ _ _ Hd) in Hc. injection Hc as <-.
  rewrite (dl_original_digest _ _ _ _ _ _ Hd) in Eh. apply (inj (String.append "sha256:")) in Eh as <-.
  rewrite <-(dl_original_size _ _ _ _ _ _ Hd). destruct Hr as [Hr|(-> & v & Hne & [V1 V2] & Hr)]; [by left|right].
  split; [done|]. exists v. destruct Hm as [M1 M2]. split_and!; [done|congruence|congruence|done].
Qed.

(** C11: a download from a store the server can reach changes nothing, and
    whatever fails on the way, an answer is the stored file of an artifact of a
    live snapshot: the manifest of the snapshot records its size and digest,
    the headers are those of its manifest entry, and the bytes restore the
    original the manifest announces (up to an explicit SHA-256 collision of a
    compressed file).  The answer that there is no such artifact is right. *)
Theorem download_restores_artifact id s n : reachable st s ->
  let '(r, (s', _)) := download_artifact id (s, n) in
  s' = s /\ match r with
            | Ok resp => exists uuid row q m art, parse_str id = Some uuid /\ downloads (db s) uuid row q m art
                         /\ delivers s resp row art
            | Err e => e = Api.not_found "artifact_not_found" "artifact was not found" ->
                forall uuid a, parse_str id = Some uuid -> a ∈ artifact_rows (db s) -> ArtifactRow.id a <> uuid
            end.
Proof.
  intros Hs. pose proof (download_artifact_spec id s n) as Hd.
  destruct (download_artifact id (s, n)) as [[resp|e] [s' k]]; simpl in Hd; destruct Hd as [-> Hd]; (split; [done|]).
  - destruct Hd as (uuid & row & q & m & art & Eid & Hd & Hf & Hl & Hdig & Hh). exists uuid, row, q, m, art.
    split_and!; [done..|]. by eapply downloads_delivers.
  - intros He uuid a Eid Ha Hid. destruct (reachable_artifact_found s a Hs Ha) as [row Hrow].
    rewrite Hid, (Hd He uuid Eid) in Hrow. done.
Qed.

(* ------------------------------------------------------------------ *)
(** ** When nothing fails *)

Lemma row_metadata row q m k art s : ready_download s row q m k art ->
  download_metadata_from_row row = Ok (metadata_of art (Blob.stored_sha256 (dr_blob row)))
  /\ storage_digest (Blob.stored_sha256 (dr_blob row)) = Some (Blob.stored_sha256 (dr_blob row)).
Proof.
  intros [_ [_ P2 P3 _ _ _] [Ht Hsd Hod _ _ _] Hk [E1 E2 E3 E4 E5 E6 E7 E8 _] _]. cbn [fst snd] in E1, E2, E3, E4, E5, E6, E7, E8.
  apply list_elem_of_lookup_2 in Hk as Hin. rewrite Forall_forall in Ht, Hsd, Hod.
  destruct (Ht art Hin) as [[Ho _] [Hz _]].
  destruct (digest_document_parts _ (Hod art Hin)) as (O1 & O2 & O3 & _).
  destruct (digest_document_parts _ (Hsd art Hin)) as (S1 & S2 & _ & _).
  split; [|by rewrite E7]. unfold download_metadata_from_row. rewrite P2, eqs_refl, P3. cbn [negb ok_or res_bind].
  rewrite E1, (proj2 (i64_to_u64_Some (Z.of_nat k) _) (conj eq_refl (Nat2Z.is_nonneg k))). cbn [ok_or res_bind].
  rewrite Nat2Z.id, Hk. cbn [ok_or res_bind]. rewrite O1, S1. cbn [ok_or res_bind].
  rewrite E4, (proj2 (i64_to_u64_Some _ _) (conj eq_refl Ho)). cbn [ok_or res_bind].
  rewrite E6, (proj2 (i64_to_u64_Some _ _) (conj eq_refl Hz)). cbn [ok_or res_bind].
  rewrite E8, parse_as_str. cbn [ok_or res_bind].
  rewrite E2, E3, E5, E7, O2, S2, eqs_refl, !Z.eqb_refl, !bool_decide_true by done. cbn [negb orb].
  unfold metadata_of. by rewrite O3.
Qed.

(** The media type of an artifact is a value a header can have. *)
Definition sendable (a : Artifact) : bool :=
  match media_type a with Some t => header_value_ok t | None => true end.
Lemma headers_shown row q m k art s encoded : ready_download s row q m k art -> sendable art = true ->
  visible encoded = true ->
  exists hs, add_download_headers (metadata_of art (Blob.stored_sha256 (dr_blob row))) encoded = Ok hs
    /\ ("content-length", to_decimal (stored_size_bytes art))%string ∈ hs
    /\ ("digest", "SHA-256=" +:+ encoded)%string ∈ hs
    /\ ("x-patwari-stored-sha256", stored_sha256 art)%string ∈ hs
    /\ ("x-patwari-original-sha256", original_sha256 art)%string ∈ hs
    /\ (("content-encoding", "zstd")%string ∈ hs <-> compression art = Zstd).
Proof.
  intros [_ _ [Ht Hsd Hod _ _ Hmt] Hk [_ _ _ _ _ _ E7 _ _] _] Hm He. simpl in E7.
  apply list_elem_of_lookup_2 in Hk as Hin. rewrite Forall_forall in Ht, Hsd, Hod, Hmt. destruct (Ht art Hin) as [Ho Hz]. specialize (Hmt art Hin).
  destruct (digest_document_parts _ (Hsd art Hin)) as (_ & _ & S3 & _).
  unfold add_download_headers, metadata_of, header_value. cbn [dm_logical_path dm_media_type dm_original_size_bytes
    dm_original_sha256 dm_stored_size_bytes dm_stored_sha256 dm_compression].
  rewrite E7, S3.
  assert (Hv : forall v, visible v = true -> header_value_ok v = true) by apply header_value_visible.
  rewrite (Hv _ (visible_decimal _ Ho)), (Hv _ (visible_decimal _ Hz)), (Hv _ (visible_digest _ (Hsd art Hin))),
    (Hv _ (visible_digest _ (Hod art Hin))), (Hv _ (base64_url_visible _)).
  rewrite !(Hv (_ +:+ _)) by (rewrite ?visible_app, He; reflexivity).
  unfold sendable in Hm.
  destruct (media_type art) as [t|].
  - destruct Hmt as (_ & _ & ->). cbn [negb from_option Datatypes.id]. rewrite Hm. cbn [res_bind].
    eexists. split; [reflexivity|]. destruct (compression art); simpl; set_solver.
  - cbn [negb from_option]. rewrite (Hv "application/octet-stream"%string) by reflexivity. cbn [res_bind].
    eexists. split; [reflexivity|]. destruct (compression art); simpl; set_solver.
Qed.

Lemma headers_refused row q m k art s digest encoded : ready_download s row q m k art -> sendable art = false ->
  add_download_headers (metadata_of art digest) encoded = Err Api.artifact_integrity.
Proof.
  intros [_ _ [_ _ _ _ _ Hmt] Hk _ _] Hm. apply list_elem_of_lookup_2 in Hk. rewrite Forall_forall in Hmt. specialize (Hmt art Hk).
  unfold sendable in Hm. unfold add_download_headers, metadata_of, header_value. cbn [dm_media_type].
  destruct (media_type art) as [t|]; [|done]. destruct Hmt as (_ & _ & ->). cbn [negb from_option Datatypes.id]. by rewrite Hm.
Qed.

(** The files of the archive are at rest: their stamps do not change. *)
Definition still : Prop := forall p i j, stamp i p = stamp j p.
Lemma wp_still_file p content s : (forall k, fails k = None) -> files s !! p = Some (Regular content) ->
  (forall {E} Q, Q (Ok true) s -> wp (@is_regular_file EV E p) Q s)
  /\ (forall {E} (e : E) Q, Q (Ok tt) s -> wp (open_blob_without_following_symlinks e p) Q s)
  /\ (forall {E} (e : E) Q, (forall k, Q (Ok (mkFileMetadata true (byte_len content) (stamp k p))) s) -> wp (file_metadata e p) Q s)
  /\ (forall {E} (e : E) Q, Q (Ok ([content], true)) s -> wp (read_file e p) Q s).
Proof.
  intros Hcalm Hf. split_and!; intros E.
  - intros Q HQ n. unfold is_regular_file. by rewrite Hcalm, Hf.
  - intros e Q HQ. apply wp_operation_calm; [done|]. intros n. by rewrite Hf.
  - intros e Q HQ. apply wp_operation_calm; [done|]. intros n. rewrite Hf. apply HQ.
  - intros e Q HQ. apply wp_operation_calm; [done|]. intros n. by rewrite Hf, Hcalm.
Qed.
Lemma preflight_calm p size digest content s : (forall k, fails k = None) -> still ->
  files s !! p = Some (Regular content) -> measures content size digest -> size <= u64_max ->
  storage_digest digest = Some digest ->
  wp (preflight_blob p size digest) (fun r s' => s' = s /\ r = Ok (content, base64_standard (sha256 content))) s.
Proof.
  intros Hcalm Hstill Hf [<- <-] Hmax Hd. destruct (wp_still_file p content s Hcalm Hf) as (W1 & W2 & W3 & W4).
  unfold preflight_blob. rewrite Hd, bool_decide_false by done.
  wp_step. apply W1. calm_run. apply W2. calm_run. apply W3. intros i. calm_run. rewrite Z.eqb_refl. calm_run.
  apply W4. calm_run. cbn [preflight_reads fst snd]. rewrite checked_add_u64_fits by lia. cbn [ok_or res_bind].
  rewrite Z.add_0_l, Z.ltb_irrefl. calm_run. apply W3. intros j. calm_run.
  unfold metadata_changed_during_preflight. cbn [file_len file_stamp].
  rewrite !Z.eqb_refl, eqs_refl, (bool_decide_true (stamp i p = stamp j p)) by apply Hstill. by calm_run.
Qed.
Lemma ready_downloads s row q m k art : dr_artifact row ∈ artifact_rows (db s) ->
  blob_by_id (ArtifactRow.blob_id (dr_artifact row)) (db s) = Some (dr_blob row) ->
  ready_download s row q m k art -> downloads (db s) (ArtifactRow.id (dr_artifact row)) row q m art.
Proof.
  intros Ha Hb [R1 R2 [_ Hsd Hod _ _ _] Hk [E1 E2 _ E4 E5 E6 E7 E8 _] _]. cbn [fst snd] in *.
  apply list_elem_of_lookup_2 in Hk as Hin. rewrite Forall_forall in Hsd, Hod.
  split; try done.
  - by rewrite E1, Nat2Z.id.
  - rewrite E5. apply digest_document_parts, Hod, Hin.
  - rewrite E7. apply digest_document_parts, Hsd, Hin.
  - rewrite E8. apply parse_as_str.
Qed.

(** A download when nothing fails: what is left to decide is the headers. *)
Lemma download_calm id s n uuid row q m k art content : (forall k, fails k = None) -> still ->
  parse_str id = Some uuid -> download_row uuid (db s) = Some row ->
  live_snapshot_by_id (ArtifactRow.snapshot_id (dr_artifact row)) (db s) = Some q ->
  ready_download s row q m k art ->
  files s !! blob_path (Blob.stored_sha256 (dr_blob row)) = Some (Regular content) ->
  measures content (Blob.stored_size_bytes (dr_blob row)) (Blob.stored_sha256 (dr_blob row)) ->
  (download_artifact id (s, n)).1
  = (let? hs := add_download_headers (metadata_of art (Blob.stored_sha256 (dr_blob row))) (base64_standard (sha256 content)) in
     Ok {| headers := hs; body := content |}).
Proof.
  intros Hcalm Hstill Hid Hrow Hq Hready Hf Hmeas. pose proof (row_metadata _ _ _ _ _ _ Hready) as [Hmd Hsd].
  pose proof (rd_matches _ _ _ _ _ _ Hready) as Hmatch.
  assert (Hwp : wp (download_artifact id) (fun r _ => r
    = (let? hs := add_download_headers (metadata_of art (Blob.stored_sha256 (dr_blob row))) (base64_standard (sha256 content)) in
       Ok {| headers := hs; body := content |})) s); [|apply Hwp].
  unfold download_artifact, parse_uuid, verified_download_metadata. rewrite Hid. calm_run.
  rewrite Hrow. calm_run. rewrite Hmd. calm_run.
  eapply wp_mono; [|apply (reconcile_calm _ q _ m _ Hcalm Hq (rd_projects _ _ _ _ _ _ Hready))].
  intros r s' [-> ->]. calm_run. rewrite <-(rm_stored _ _ _ Hmatch).
  eapply wp_mono; [|apply (preflight_calm _ _ _ content); [done..| | |done]].
  - intros r s' [-> ->]. simpl. calm_run. cbn [fst snd]. by destruct (add_download_headers _ _); calm_run.
  - exact Hmeas.
  - rewrite (rm_stored _ _ _ Hmatch). simpl. pose proof (rm_fits _ _ _ Hmatch) as (_ & _ & ?). unfold i64_max, u64_max in *. lia.
Qed.

(** C12: when nothing fails and the files are at rest, the download of any
    artifact of a store the server can reach finds its live snapshot and its
    manifest entry, and succeeds exactly when the media type recorded for it, if
    there is one, is a value a header can have: the answer is then its stored
    bytes, announced by the length, the encoding and the digests of its manifest
    entry.  Nothing checks that of a media type when the artifact is accepted
    (only that it parses): an artifact whose media type is not a header value is
    answered with the error of a damaged artifact, every time. *)
Theorem download_succeeds id a s n : reachable st s -> (forall k, fails k = None) -> still ->
  a ∈ artifact_rows (db s) -> parse_str id = Some (ArtifactRow.id a) ->
  exists row q m art, downloads (db s) (ArtifactRow.id a) row q m art /\
    match (download_artifact id (s, n)).1 with
    | Ok resp => sendable art = true /\ delivers s resp row art
        /\ ("content-length", to_decimal (byte_len (body resp)))%string ∈ headers resp
        /\ ("digest", "SHA-256=" +:+ base64_standard (sha256 (body resp)))%string ∈ headers resp
        /\ ("x-patwari-original-sha256", original_sha256 art)%string ∈ headers resp
        /\ (("content-encoding", "zstd")%string ∈ headers resp <-> compression art = Zstd)
    | Err e => sendable art = false /\ e = Api.artifact_integrity
    end.
Proof.
  intros Hs Hcalm Hstill Ha Hid. destruct (reachable_artifact_found s a Hs Ha) as [row Hrow].
  destruct (download_row_Some _ _ _ Hrow) as (q & Hra & Hrid & Hq & Em & Eb).
  destruct (reachable_download s row q Hs Hra Hq Em Eb) as (m & k & art & Hready).
  destruct (artifact_restored _ _ _ (rd_stored _ _ _ _ _ _ Hready)) as (content & _ & Hf & Hmeas & _).
  cbn [stored_blob sb_digest sb_size] in Hf, Hmeas.
  pose proof (rd_matches _ _ _ _ _ _ Hready) as Hmatch.
  pose proof (download_calm id s n _ row q m k art content Hcalm Hstill Hid Hrow Hq Hready Hf Hmeas) as Hrun.
  pose proof (ready_downloads _ _ _ _ _ _ Hra Eb Hready) as Hd. rewrite Hrid in Hd.
  exists row, q, m, art. split; [done|]. rewrite Hrun. destruct (sendable art) eqn:Es.
  - destruct (headers_shown _ _ _ _ _ _ (base64_standard (sha256 content)) Hready Es (base64_standard_visible _))
      as (hs & Eh & H_1 & H_2 & _ & H_4 & H_5). rewrite Eh. cbn [res_bind body headers].
    assert (Hsize : byte_len content = stored_size_bytes art) by (rewrite <-(rm_stored _ _ _ Hmatch); apply Hmeas).
    split_and!; [done| |by rewrite Hsize|done..].
    eapply downloads_delivers; [done|exact Hd|done|done| |done].
    rewrite (dl_stored_digest _ _ _ _ _ _ Hd). f_equal. apply Hmeas.
  - by rewrite (headers_refused _ _ _ _ _ _ _ _ Hready Es).
Qed.
End Downloading.

(* ------------------------------------------------------------------ *)
(** ** The body on its way *)

(** C38: however the client polls the body, and whenever the deadline passes or
    a read fails, what was delivered followed by what is left is the content of
    the file, in order and once; the permit of the download is held exactly
    until the stream has reported its end or a failure; and an end that no
    failure precedes means that all of the content was delivered. *)
Theorem download_stream_exact items polls :
  let '(results, s) := drive polls (new_stream items) in
  delivered results ++ content (reader s) = content items
  /\ (permit s = true <-> Forall (fun r => ~ is_end r) results)
  /\ (Ready None ∈ results -> Exists is_failure results \/ delivered results = content items).
Proof.
  pose proof (drive_spec polls (new_stream items) ltac:(done)) as Hd.
  destruct (drive polls (new_stream items)) as [results s]. destruct Hd as (Hc & Hp & He). simpl in Hc, Hp, He.
  split; [done|]. split; [rewrite Hp; tauto|].
  intros [?|[?|E]]%He; [done|by left|right]. by rewrite E, app_nil_r in Hc.
Qed.
