(* ===== verification/Integrity.v ===== *)
(** The integrity scanner ([integrity.rs]): a scan reads the whole archive, a
    page of metadata at a time, compares it with the files, and records what
    it observes in tables of its own; the history of the runs.

    The tasks of one page run one after the other here: they only read, and
    their results are recorded in the order they were started. *)
From stdpp Require Import prelude strings gmap sorting list.
From Stdlib Require Import ZArith Ascii Lia.
From Stdlib.Strings Require Import Byte.
From S2P Require Import Prelude Errors Contract Externals Validation Chunks Fingerprint Pagination.
From S2P Require Import Tables Store Storage Uploads Receipts Completion Deletion Reconcile Download.

Definition PAGE_SIZE : nat := 64.
Definition REPORT_FINDING_LIMIT : nat := 256.
Definition HISTORY_LIMIT : Z := 256.

Module IntegrityScanError.
Inductive t : Type := Maintenance | Clock | Metadata | Storage | Worker | Persistence.
End IntegrityScanError.
Abbreviation ScanError := IntegrityScanError.t.

(** Documents ([contract.rs]). *)
Record IntegrityFindingCounts : Type := mkCounts {
  total : Z;
  info : Z;
  warning : Z;
  error : Z;
  by_kind : gmap string Z;
}.
Record IntegrityFindingSummary : Type := {
  if_finding_id : string;
  if_run_id : string;
  if_kind : IntegrityFindingKind;
  if_severity : IntegritySeverity;
  if_snapshot_id : option string;
  if_artifact_id : option string;
  if_blob_id : option string;
  if_detected_at : string;
  if_detail_code : string;
}.
Record IntegrityRunSummary : Type := {
  ir_run_id : string;
  ir_owner_namespace : string;
  ir_status : IntegrityRunStatus;
  ir_started_at : string;
  ir_completed_at : option string;
  ir_counts : IntegrityFindingCounts;
}.
Record IntegrityReport : Type := {
  rep_run_id : string;
  rep_owner_namespace : string;
  rep_status : IntegrityRunStatus;
  rep_started_at : string;
  rep_completed_at : string;
  rep_counts : IntegrityFindingCounts;
  rep_findings : list IntegrityFindingSummary;
  rep_findings_truncated : bool;
}.

(** [PRAGMA quick_check(1)] and [PRAGMA foreign_key_check]. *)
Class SqliteChecks := {
  quick_check : Db -> string;
  foreign_key_failure : Db -> bool;
}.

(* ------------------------------------------------------------------ *)
(** ** The recorder *)

Record ScanRecorder : Type := mkRecorder {
  run_id : string;
  recorder_owner : string;
  started_at : string;
  counts : IntegrityFindingCounts;
  report_findings : list IntegrityFindingSummary;
}.
Definition set_counts (f : IntegrityFindingCounts -> IntegrityFindingCounts) (rc : ScanRecorder) : ScanRecorder :=
  mkRecorder (run_id rc) (recorder_owner rc) (started_at rc) (f (counts rc)) (report_findings rc).

(** A step of a scan: it changes the recorder it is lent, and what it recorded
    stays when it fails. *)
Definition Scan (A : Type) : Type := ScanRecorder -> M Empty_set (res ScanError A * ScanRecorder).
Definition sret {A} (a : A) : Scan A := fun rc => ret (Ok a, rc).
Definition sthrow {A} (e : ScanError) : Scan A := fun rc => ret (Err e, rc).
Definition sbind {A B} (m : Scan A) (k : A -> Scan B) : Scan B := fun rc =>
  let! r := m rc in
  match r with
  | (Ok a, rc) => k a rc
  | (Err e, rc) => ret (Err e, rc)
  end.
Definition observe {A} (m : M ScanError A) : Scan A := fun rc => let! r := attempt m in ret (r, rc).
Definition recorder : Scan ScanRecorder := fun rc => ret (Ok rc, rc).
Definition modify (f : ScanRecorder -> ScanRecorder) : Scan unit := fun rc => ret (Ok tt, f rc).

Notation "'do!' p ':=' m 'in' k" := (sbind m (fun p => k))
  (at level 10, p pattern, m at level 100, k at level 200) : rust_scope.

Fixpoint scan_each {A} (l : list A) (body : A -> Scan unit) : Scan unit :=
  match l with
  | [] => sret tt
  | a :: l => do! _ := body a in scan_each l body
  end.

(** What the checks of a file answer. *)
Module HashReadError.
Inductive t : Type := TooLarge | Io.
End HashReadError.
Module StoredFileCheck.
Inductive t : Type := Healthy | Missing | NonRegular | SizeMismatch | HashMismatch | Unreadable | Transient.
End StoredFileCheck.
Module OriginalFileCheck.
Inductive t : Type := Healthy | StoredInvalid | Mismatch (detail_code : string) | Transient.
End OriginalFileCheck.
Record ArtifactJob : Type := mkArtifactJob {
  aj_snapshot_id : string;
  aj_artifact_id : string;
  aj_blob_id : string;
  aj_stored_sha256 : string;
  aj_stored_size_bytes : Z;
  aj_original_sha256 : string;
  aj_original_size_bytes : Z;
  aj_compression : Compression;
}.

Section Scanner.
Context `{Env} `{UuidLib} `{TimeLib} `{MimeLib} `{ShaLib} `{ZstdLib} `{JsonLib} `{FileStamps} `{SqliteChecks}.

Definition persistence_err (e : SqlxError) : ScanError := IntegrityScanError.Persistence.
Definition metadata_failed (e : SqlxError) : ScanError := IntegrityScanError.Metadata.

(** [OffsetDateTime::now_utc] and its RFC 3339 text. *)
Definition scan_clock : M ScanError (OffsetDateTime * string) :=
  let! t := now in
  let! text := lift (ok_or (format_rfc3339 t) IntegrityScanError.Clock) in
  ret (t, text).

(** [INSERT INTO integrity_runs]; a time before 1970 violates a CHECK. *)
Definition insert_run (row : IntegrityRun.row) (d : Db) : option (Db * unit) :=
  if IntegrityRun.started_at_seq row <? 0 then None
  else t ← insert_row (fun r => eqs (IntegrityRun.id r) (IntegrityRun.id row)) row (integrity_runs d);
       Some (with_integrity_runs (fun _ => t) d, tt).
Definition begin (st : AppState) : M ScanError ScanRecorder :=
  let! clock := scan_clock in
  let! id := new_uuid in
  let! _ := execute persistence_err
    (insert_run (IntegrityRun.mk id (Storage.owner_namespace st) clock.2 (sort_key_from_timestamp clock.1)
                   None None (as_str Running) 0 0 0 0)) in
  ret (mkRecorder id (Storage.owner_namespace st) clock.2 (mkCounts 0 0 0 0 ∅) []).

Definition insert_finding (row : IntegrityFinding.row) (d : Db) : option (Db * Z) :=
  if IntegrityFinding.detected_at_seq row <? 0 then None
  else t ← insert_row (fun r => eqs (IntegrityFinding.id r) (IntegrityFinding.id row)) row (integrity_findings d);
       Some (with_integrity_findings (fun _ => t) d, 1).

(** One [checked_add(1)] of a counter. *)
Definition bump (read : IntegrityFindingCounts -> Z) (write : Z -> IntegrityFindingCounts -> IntegrityFindingCounts)
  : Scan unit :=
  do! rc := recorder in
  do! n := observe (lift (ok_or (checked_add_u64 (read (counts rc)) 1) IntegrityScanError.Persistence)) in
  modify (set_counts (write n)).
Definition set_total n c := mkCounts n (info c) (warning c) (error c) (by_kind c).
Definition set_info n c := mkCounts (total c) n (warning c) (error c) (by_kind c).
Definition set_warning n c := mkCounts (total c) (info c) n (error c) (by_kind c).
Definition set_error n c := mkCounts (total c) (info c) (warning c) n (by_kind c).
Definition set_kind (k : IntegrityFindingKind) n c := mkCounts (total c) (info c) (warning c) (error c) (<[as_str k := n]> (by_kind c)).
Definition kind_count (k : IntegrityFindingKind) (c : IntegrityFindingCounts) : Z := default 0 (by_kind c !! as_str k).

Definition push_finding (f : IntegrityFindingSummary) (rc : ScanRecorder) : ScanRecorder :=
  if Nat.ltb (length (report_findings rc)) REPORT_FINDING_LIMIT
  then mkRecorder (run_id rc) (recorder_owner rc) (started_at rc) (counts rc) (report_findings rc ++ [f])
  else rc.
Definition record (kind : IntegrityFindingKind) (severity : IntegritySeverity)
    (snapshot_id artifact_id blob_id : option string) (detail_code : string) : Scan unit :=
  do! rc := recorder in
  do! clock := observe scan_clock in
  do! finding_id := observe new_uuid in
  do! inserted := observe (execute persistence_err
    (insert_finding (IntegrityFinding.mk finding_id (run_id rc) (recorder_owner rc) (as_str kind) (as_str severity)
       snapshot_id artifact_id blob_id clock.2 (sort_key_from_timestamp clock.1) detail_code))) in
  if negb (inserted =? 1) then sthrow IntegrityScanError.Persistence else
  do! _ := bump total set_total in
  do! _ := match severity with
           | Info => bump info set_info
           | Warning => bump warning set_warning
           | Error => bump error set_error
           end in
  do! _ := bump (kind_count kind) (set_kind kind) in
  modify (push_finding {| if_finding_id := finding_id; if_run_id := run_id rc; if_kind := kind;
    if_severity := severity; if_snapshot_id := snapshot_id; if_artifact_id := artifact_id;
    if_blob_id := blob_id; if_detected_at := clock.2; if_detail_code := detail_code |}).

Definition final_status (rc : ScanRecorder) : IntegrityRunStatus :=
  if negb (warning (counts rc) =? 0) || negb (error (counts rc) =? 0) then ActionRequired else Healthy.

(** [UPDATE integrity_runs .. WHERE id = ? AND status = 'running'] *)
Definition close_run (id completed_at : string) (seq : Z) (status : string) (t i w e : Z) (d : Db) : option (Db * Z) :=
  let open r := eqs (IntegrityRun.id r) id && eqs (IntegrityRun.status r) (as_str Running) in
  let n := Z.of_nat (length (select open (integrity_runs d))) in
  if (seq <? 0) && negb (n =? 0) then None
  else Some (with_integrity_runs (update open (IntegrityRun.set_completed completed_at seq status t i w e)) d, n).
Definition finish (rc : ScanRecorder) (status : IntegrityRunStatus) : M ScanError string :=
  let! clock := scan_clock in
  let persisted n := lift (ok_or (u64_to_i64 n) IntegrityScanError.Persistence) in
  let! t := persisted (total (counts rc)) in
  let! i := persisted (info (counts rc)) in
  let! w := persisted (warning (counts rc)) in
  let! e := persisted (error (counts rc)) in
  let! updated := execute persistence_err
    (close_run (run_id rc) clock.2 (sort_key_from_timestamp clock.1) (as_str status) t i w e) in
  refuse negb (updated =? 1) with IntegrityScanError.Persistence;
  ret clock.2.
Definition complete (rc : ScanRecorder) : M ScanError IntegrityReport :=
  let status := final_status rc in
  let! completed_at := finish rc status in
  ret {| rep_run_id := run_id rc; rep_owner_namespace := recorder_owner rc; rep_status := status;
         rep_started_at := started_at rc; rep_completed_at := completed_at; rep_counts := counts rc;
         rep_findings := report_findings rc;
         rep_findings_truncated := Z.of_nat (length (report_findings rc)) <? total (counts rc) |}.
Definition fail (rc : ScanRecorder) : M ScanError unit := finish rc Failed &; ret tt.

(* ------------------------------------------------------------------ *)
(** ** Pages *)

(** [WHERE id > ?1 ORDER BY id ASC LIMIT ?2] *)
Definition by_id {R} (key : R -> string) (x y : R) : Prop := String.le (key x) (key y).
#[global] Instance by_id_dec {R} (key : R -> string) : RelDecision (by_id key).
Proof. intros x y. unfold by_id. apply _. Defined.
Definition after_id (after id : string) : bool := negb (String.leb id after).
Definition page {R} (key : R -> string) (after : string) (rows : list R) : list R :=
  take PAGE_SIZE (merge_sort (by_id key) (select (fun r => after_id after (key r)) rows)).
(** The loop over the pages of [rows]: every round starts after the last row of
    the one before. *)
Fixpoint scan_pages {R} (fuel : nat) (key : R -> string) (rows : Db -> list R) (body : list R -> Scan unit)
    (after : string) : Scan unit :=
  match fuel with
  | O => sthrow IntegrityScanError.Worker
  | S fuel =>
      do! rs := observe (query metadata_failed (fun d => page key after (rows d))) in
      match last rs with
      | None => sret tt
      | Some r => do! _ := body rs in scan_pages fuel key rows body (key r)
      end
  end.
(** A round takes a row at least, so there are no more rounds than rows. *)
Definition pages {R} (key : R -> string) (rows : Db -> list R) (body : list R -> Scan unit) : Scan unit := fun rc '(s, n) =>
  scan_pages (S (length (rows (db s)))) key rows body "" rc (s, n).

(* ------------------------------------------------------------------ *)
(** ** The database *)

Definition scan_database_integrity : Scan unit :=
  do! quick := observe (query metadata_failed quick_check) in
  do! _ := if negb (eqs quick "ok")
           then record DatabaseIntegrityFailure Error None None None "sqlite_quick_check_failed" else sret tt in
  do! failure := observe (query metadata_failed foreign_key_failure) in
  if (failure : bool)
  then record DatabaseIntegrityFailure Error None None None "sqlite_foreign_key_check_failed" else sret tt.

(** [artifacts a JOIN snapshots s LEFT JOIN blobs b WHERE s.deleted_at IS NULL
    AND b.id IS NULL] *)
Definition dangling (d : Db) : list ArtifactRow.row :=
  select (fun a => bool_decide (is_Some (live_snapshot_by_id (ArtifactRow.snapshot_id a) d))
                   && bool_decide (blob_by_id (ArtifactRow.blob_id a) d = None)) (artifact_rows d).
Definition record_artifact (kind : IntegrityFindingKind) (detail : string) (a : ArtifactRow.row) : Scan unit :=
  record kind Error (Some (ArtifactRow.snapshot_id a)) (Some (ArtifactRow.id a)) (Some (ArtifactRow.blob_id a)) detail.
Definition scan_dangling_artifact_references : Scan unit :=
  pages ArtifactRow.id dangling (fun rows => scan_each rows
    (record_artifact ArtifactBlobReferenceMissing "artifact_references_missing_blob_row")).

(** [artifacts a JOIN snapshots s WHERE s.deleted_at IS NOT NULL] *)
Definition tombstoned_artifacts (d : Db) : list ArtifactRow.row :=
  select (fun a => existsb (fun s => eqs (Snapshot.id s) (ArtifactRow.snapshot_id a) && negb (live s)) (snapshots d))
    (artifact_rows d).
Definition scan_tombstoned_artifact_references : Scan unit :=
  pages ArtifactRow.id tombstoned_artifacts (fun rows => scan_each rows
    (record_artifact SnapshotProjectionDrift "tombstoned_snapshot_has_artifact_reference")).

(* ------------------------------------------------------------------ *)
(** ** Files *)

(** [hash_reader] of [integrity.rs] *)
Fixpoint scan_hash_reads (reads : list bytes) (ends_cleanly : bool) (maximum_size sum : Z) (hashed : bytes)
  : res HashReadError.t (Z * string) :=
  match reads with
  | [] => if ends_cleanly then Ok (sum, sha256_hex hashed) else Err HashReadError.Io
  | data :: reads =>
      let? sum := ok_or (checked_add_u64 sum (byte_len data)) HashReadError.TooLarge in
      reject maximum_size <? sum with HashReadError.TooLarge;
      scan_hash_reads reads ends_cleanly maximum_size sum (hashed ++ data)
  end.
Definition scan_hash_reader (r : list bytes * bool) (maximum_size : Z) : res HashReadError.t (Z * string) :=
  scan_hash_reads r.1 r.2 maximum_size 0 [].

(** [fs::symlink_metadata]: [None] is [NotFound], an error any other failure. *)
Definition symlink_metadata (p : path) : M unit (option FileMetadata) :=
  operation (fun _ => tt) (fun '(s, n) =>
    (Ok (if exists_in (files s) p
         then Some (match files s !! p with
                    | Some (Regular b) => mkFileMetadata true (byte_len b) (stamp n p)
                    | _ => mkFileMetadata false 0 (stamp n p)
                    end)
         else None), (s, n))).
(** [open_without_following_symlinks]: [false] is [NotFound]. *)
Definition open_without_following_symlinks (p : path) : M unit bool :=
  operation (fun _ => tt) (fun '(s, n) =>
    match files s !! p with
    | Some Symlink => (Err tt, (s, n))
    | _ => (Ok (exists_in (files s) p), (s, n))
    end).
Definition file_changed (before after : FileMetadata) : bool :=
  negb (file_len before =? file_len after) || negb (bool_decide (file_stamp before = file_stamp after)).

Definition scan_stored_file (p : path) (stored_size_bytes : Z) (stored_sha256 : string) : M ScanError StoredFileCheck.t :=
  let! metadata := attempt (symlink_metadata p) in
  match metadata with
  | Err _ => ret StoredFileCheck.Unreadable
  | Ok None => ret StoredFileCheck.Missing
  | Ok (Some metadata) =>
  if negb (is_file metadata) then ret StoredFileCheck.NonRegular else
  let! opened := attempt (open_without_following_symlinks p) in
  match opened with
  | Err _ => ret StoredFileCheck.Unreadable
  | Ok false => ret StoredFileCheck.Missing
  | Ok true =>
  let! before := attempt (file_metadata tt p) in
  match before with
  | Err _ => ret StoredFileCheck.Unreadable
  | Ok before =>
  if negb (is_file before) then ret StoredFileCheck.NonRegular else
  if negb (file_len before =? stored_size_bytes) then ret StoredFileCheck.SizeMismatch else
  let! r := attempt (read_file tt p) in
  match res_map_err (fun _ => HashReadError.Io) r with
  | Err _ => ret StoredFileCheck.Unreadable
  | Ok r =>
  match scan_hash_reader r stored_size_bytes with
  | Err HashReadError.TooLarge => ret StoredFileCheck.SizeMismatch
  | Err HashReadError.Io => ret StoredFileCheck.Unreadable
  | Ok (size, digest) =>
  let! after := attempt (file_metadata tt p) in
  match after with
  | Err _ => ret StoredFileCheck.Unreadable
  | Ok after =>
  if file_changed before after then ret StoredFileCheck.Transient else
  if negb (size =? stored_size_bytes) then ret StoredFileCheck.SizeMismatch else
  if negb (eqs digest stored_sha256) then ret StoredFileCheck.HashMismatch else
  ret StoredFileCheck.Healthy
  end end end end end end.

(** The reader of the original: [None] when the decoder refuses the file. *)
Definition decoder (c : Compression) (r : list bytes * bool) : option (list bytes * bool) :=
  match c with
  | Identity => Some r
  | Zstd => if zstd_open (concat r.1)
            then let decoded := zstd_reads (concat r.1) in Some (decoded.1, decoded.2 && r.2)
            else None
  end.
Definition unreadable_original (c : Compression) : string :=
  match c with Identity => "original_content_unreadable" | Zstd => "zstd_decode_failed" end.
Definition scan_artifact_original_file (p : path) (job : ArtifactJob) : M ScanError OriginalFileCheck.t :=
  let! stored := scan_stored_file p (aj_stored_size_bytes job) (aj_stored_sha256 job) in
  match stored with
  | StoredFileCheck.Healthy =>
  let! opened := attempt (open_without_following_symlinks p) in
  match opened with
  | Err _ | Ok false => ret OriginalFileCheck.StoredInvalid
  | Ok true =>
  let! before := attempt (file_metadata tt p) in
  match before with
  | Err _ => ret OriginalFileCheck.StoredInvalid
  | Ok before =>
  if negb (is_file before) then ret OriginalFileCheck.StoredInvalid else
  let! r := attempt (read_file tt p) in
  match r with
  | Err _ => ret (OriginalFileCheck.Mismatch (unreadable_original (aj_compression job)))
  | Ok r =>
  match decoder (aj_compression job) r with
  | None => ret (OriginalFileCheck.Mismatch "zstd_decode_failed")
  | Some reader =>
  match scan_hash_reader reader (aj_original_size_bytes job) with
  | Err HashReadError.TooLarge => ret (OriginalFileCheck.Mismatch "original_size_mismatch")
  | Err HashReadError.Io => ret (OriginalFileCheck.Mismatch (unreadable_original (aj_compression job)))
  | Ok (size, digest) =>
  let! after := attempt (symlink_metadata p) in
  match after with
  | Err _ | Ok None => ret OriginalFileCheck.Transient
  | Ok (Some after) =>
  if negb (is_file after) then ret OriginalFileCheck.Transient else
  if file_changed before after then ret OriginalFileCheck.Transient else
  if negb (size =? aj_original_size_bytes job) then ret (OriginalFileCheck.Mismatch "original_size_mismatch") else
  if negb (eqs digest (aj_original_sha256 job)) then ret (OriginalFileCheck.Mismatch "original_sha256_mismatch") else
  ret OriginalFileCheck.Healthy
  end end end end end end
  | _ => ret OriginalFileCheck.StoredInvalid
  end.

(* ------------------------------------------------------------------ *)
(** ** Artifacts *)

Definition compression_name (c : Compression) : string :=
  match c with Identity => "identity" | Zstd => "zstd" end.
(** [document_digest]: the same test as [canonical_digest] of the downloads. *)
Definition document_digest (value : string) : option string :=
  d ← strip_prefix "sha256:" value; storage_digest d.

(** [artifacts a LEFT JOIN blobs b WHERE a.snapshot_id = ?1 ORDER BY
    a.artifact_index, a.id] *)
Definition projection_le (x y : ArtifactRow.row * option Blob.row) : Prop :=
  ArtifactRow.artifact_index x.1 < ArtifactRow.artifact_index y.1
  \/ (ArtifactRow.artifact_index x.1 = ArtifactRow.artifact_index y.1
      /\ String.le (ArtifactRow.id x.1) (ArtifactRow.id y.1)).
#[global] Instance projection_le_dec : RelDecision projection_le.
Proof. intros x y. unfold projection_le. apply _. Defined.
Definition artifact_projection (snapshot_id : string) (d : Db) : list (ArtifactRow.row * option Blob.row) :=
  merge_sort projection_le
    ((fun a => (a, blob_by_id (ArtifactRow.blob_id a) d))
       <$> select (fun a => eqs (ArtifactRow.snapshot_id a) snapshot_id) (artifact_rows d)).

(** The body of the loop of [artifact_jobs]: the job of one artifact, if any. *)
Definition artifact_job (st : AppState) (snapshot_id : string) (rows : list (ArtifactRow.row * option Blob.row))
    (index : Z) (a : Artifact) : Scan (option ArtifactJob) :=
  do! expected_index := observe (lift (ok_or (u64_to_i64 index) IntegrityScanError.Metadata)) in
  match select_one (fun r => ArtifactRow.artifact_index r.1 =? expected_index) rows with
  | None | Some (_, None) => sret None
  | Some (row, Some blob) =>
      let finding kind detail :=
        do! _ := record kind Error (Some snapshot_id) (Some (ArtifactRow.id row)) (Some (ArtifactRow.blob_id row)) detail in
        sret None in
      match document_digest (stored_sha256 a) with
      | None => finding ManifestUnparseable "canonical_manifest_stored_digest_invalid"
      | Some stored =>
      match document_digest (original_sha256 a) with
      | None => finding ManifestUnparseable "canonical_manifest_original_digest_invalid"
      | Some original =>
      if (max_artifact_stored_bytes st <? stored_size_bytes a)
         || (max_artifact_original_bytes st <? original_size_bytes a)
      then finding ArtifactOriginalMismatch "artifact_declared_size_exceeds_scan_limit" else
      if negb (bool_decide (Some (Blob.stored_size_bytes blob) = u64_to_i64 (stored_size_bytes a)))
         || negb (eqs (Blob.stored_sha256 blob) stored)
         || negb (eqs (Blob.compression blob) (compression_name (compression a)))
      then sret None else
      sret (Some (mkArtifactJob snapshot_id (ArtifactRow.id row) (ArtifactRow.blob_id row) stored (stored_size_bytes a)
                    original (original_size_bytes a) (compression a)))
      end end
  end.
Fixpoint artifact_jobs_from (st : AppState) (snapshot_id : string) (rows : list (ArtifactRow.row * option Blob.row))
    (index : Z) (arts : list Artifact) : Scan (list ArtifactJob) :=
  match arts with
  | [] => sret []
  | a :: arts =>
      do! job := artifact_job st snapshot_id rows index a in
      do! jobs := artifact_jobs_from st snapshot_id rows (index + 1) arts in
      sret (match job with Some job => job :: jobs | None => jobs end)
  end.
Definition artifact_jobs (st : AppState) (snapshot_id : string) (m : Manifest) : Scan (list ArtifactJob) :=
  do! rows := observe (query metadata_failed (artifact_projection snapshot_id)) in
  artifact_jobs_from st snapshot_id rows 0 (artifacts m).

(** The query of [artifact_is_current]. *)
Definition artifact_current (job : ArtifactJob) (size : Z) (d : Db) : bool :=
  existsb (fun a =>
    eqs (ArtifactRow.id a) (aj_artifact_id job) && eqs (ArtifactRow.snapshot_id a) (aj_snapshot_id job)
    && eqs (ArtifactRow.blob_id a) (aj_blob_id job)
    && bool_decide (is_Some (live_snapshot_by_id (ArtifactRow.snapshot_id a) d))
    && existsb (fun b => eqs (Blob.id b) (ArtifactRow.blob_id a) && eqs (Blob.stored_sha256 b) (aj_stored_sha256 job)
                         && (Blob.stored_size_bytes b =? size)) (blobs d)) (artifact_rows d).
Definition artifact_is_current (job : ArtifactJob) : M ScanError bool :=
  let! size := lift (ok_or (u64_to_i64 (aj_stored_size_bytes job)) IntegrityScanError.Metadata) in
  query metadata_failed (artifact_current job size).

(** [ArtifactScanResult] without the identifiers of the job. *)
Definition scan_artifact_job (job : ArtifactJob) : M ScanError OriginalFileCheck.t :=
  let! current := artifact_is_current job in
  if negb current then ret OriginalFileCheck.Transient else
  let! result := scan_artifact_original_file (blob_path (aj_stored_sha256 job)) job in
  let! current := artifact_is_current job in
  if negb current then ret OriginalFileCheck.Transient else ret result.
Definition record_artifact_result (job : ArtifactJob) (result : OriginalFileCheck.t) : Scan unit :=
  let finding kind severity :=
    record kind severity (Some (aj_snapshot_id job)) (Some (aj_artifact_id job)) (Some (aj_blob_id job)) in
  match result with
  | OriginalFileCheck.Healthy | OriginalFileCheck.StoredInvalid => sret tt
  | OriginalFileCheck.Mismatch detail_code => finding ArtifactOriginalMismatch Error detail_code
  | OriginalFileCheck.Transient => finding TransientChange Info "artifact_changed_during_scan"
  end.

(** The tasks of the jobs, started in order, then joined in order: the first
    one that failed ends the scan, after the results before it. *)
Fixpoint run_jobs {J R} (work : J -> M ScanError R) (jobs : list J) : M ScanError (list (J * res ScanError R)) :=
  match jobs with
  | [] => ret []
  | job :: jobs =>
      let! r := attempt (work job) in
      let! rs := run_jobs work jobs in
      ret ((job, r) :: rs)
  end.
Definition scan_jobs {J R} (work : J -> M ScanError R) (report : J -> R -> Scan unit) (jobs : list J) : Scan unit :=
  do! results := observe (run_jobs work jobs) in
  scan_each results (fun '(job, r) => do! r := observe (lift r) in report job r).
Definition scan_artifact_jobs : list ArtifactJob -> Scan unit := scan_jobs scan_artifact_job record_artifact_result.

(* ------------------------------------------------------------------ *)
(** ** Snapshots *)

Definition validate_manifest_schema (m : Manifest) (limits : ManifestLimits) : option Manifest :=
  match normalize_manifest (as_manifest_input m) limits with Ok m => Some m | Err _ => None end.
(** [analyze_manifest]: the digest, the manifest if it is valid, the reason if
    it is not. *)
Definition analyze_manifest (canonical_json : string) (limits : ManifestLimits) : string * option Manifest * string :=
  let parsed := manifest_of_json canonical_json in
  let manifest := m ← parsed; validate_manifest_schema m limits in
  (sha256_hex (string_bytes canonical_json), manifest,
   match manifest, parsed with
   | Some _, _ => "canonical_manifest_valid"
   | None, None => "canonical_manifest_unparseable"
   | None, Some _ => "canonical_manifest_schema_invalid"
   end)%string.

(** A row of the query of [scan_snapshots]. *)
Record SnapshotScanRow : Type := mkSnapshotScan {
  ss_id : string;
  ss_deleted_at : option string;
  ss_manifest_row_id : option string;
  ss_manifest_size_bytes : option Z;
  ss_tombstone_id : option string;
}.
Definition snapshot_scan_rows (d : Db) : list SnapshotScanRow :=
  (fun s => let m := manifest_by_id (Snapshot.manifest_id s) d in
     mkSnapshotScan (Snapshot.id s) (Snapshot.deleted_at s) (ManifestRow.id <$> m)
       ((fun m => str_len (ManifestRow.canonical_json m)) <$> m)
       (Tombstone.id <$> select_one (fun t => eqs (Tombstone.snapshot_id t) (Snapshot.id s)) (tombstones d)))
    <$> snapshots d.

(** [snapshots s JOIN manifests m WHERE s.id = ?1 AND length(..) <= ?2] *)
Definition manifest_document (snapshot_id : string) (max : Z) (d : Db) : option ManifestRow.row :=
  s ← select_one (fun s => eqs (Snapshot.id s) snapshot_id) (snapshots d);
  m ← manifest_by_id (Snapshot.manifest_id s) d;
  if str_len (ManifestRow.canonical_json m) <=? max then Some m else None.
Definition load_manifest_document (snapshot_id : string) (max_manifest_bytes : Z) : M ScanError (option ManifestRow.row) :=
  let! max := lift (ok_or (u64_to_i64 max_manifest_bytes) IntegrityScanError.Metadata) in
  query metadata_failed (manifest_document snapshot_id max).

Definition scan_snapshot (st : AppState) (row : SnapshotScanRow) : Scan unit :=
  let finding kind severity := record kind severity (Some (ss_id row)) None None in
  let tombstoned := bool_decide (is_Some (ss_deleted_at row)) in
  do! _ := if tombstoned
           then if bool_decide (is_Some (ss_tombstone_id row))
                then finding TombstonedSnapshot Info "snapshot_tombstoned"
                else finding TombstonedSnapshot Error "tombstone_record_missing"
           else sret tt in
  match ss_manifest_row_id row, ss_manifest_size_bytes row with
  | None, _ => finding ManifestMissing Error "snapshot_manifest_row_missing"
  | Some _, None => finding ManifestMissing Error "snapshot_manifest_metadata_missing"
  | Some _, Some manifest_size =>
  do! manifest_size_bytes := observe (lift (ok_or (i64_to_u64 manifest_size) IntegrityScanError.Metadata)) in
  if max_request_body_bytes st <? manifest_size_bytes
  then finding ManifestUnparseable Error "canonical_manifest_exceeds_scan_limit" else
  do! document := observe (load_manifest_document (ss_id row) (max_request_body_bytes st)) in
  match document with
  | None => finding TransientChange Info "snapshot_changed_during_scan"
  | Some document =>
  let '(computed_hash, manifest, invalid_detail_code) :=
    analyze_manifest (ManifestRow.canonical_json document) (manifest_limits st) in
  do! _ := if negb (eqs computed_hash (ManifestRow.sha256 document))
           then finding ManifestHashMismatch Error "canonical_manifest_hash_mismatch" else sret tt in
  match manifest with
  | None => finding ManifestUnparseable Error invalid_detail_code
  | Some manifest =>
  if tombstoned then sret tt else
  do! reconciled := observe (attempt (reconcile_snapshot (ss_id row))) in
  let jobs := do! jobs := artifact_jobs st (ss_id row) manifest in scan_artifact_jobs jobs in
  match reconciled with
  | Ok _ => jobs
  | Err Drift => do! _ := finding SnapshotProjectionDrift Error "normalized_snapshot_projection_mismatch" in jobs
  | Err NotFound => finding TransientChange Info "snapshot_changed_during_scan"
  | Err Metadata => sthrow IntegrityScanError.Metadata
  end end end end.
Definition scan_snapshots (st : AppState) : Scan unit :=
  pages ss_id snapshot_scan_rows (fun rows => scan_each rows (scan_snapshot st)).

(* ------------------------------------------------------------------ *)
(** ** Blobs *)

(** A row of [blobs b] with [has_live_reference]. *)
Definition blob_scan_row (d : Db) (b : Blob.row) : Blob.row * bool := (b, has_live_reference (Blob.id b) d).
Definition blob_scan_rows (d : Db) : list (Blob.row * bool) := blob_scan_row d <$> blobs d.
Definition current_blob_row (blob_id : string) : M ScanError (option (Blob.row * bool)) :=
  query metadata_failed (fun d => blob_scan_row d <$> blob_by_id blob_id d).

Definition record_blob_liveness (row : Blob.row * bool) (now_seq : Z) : Scan unit :=
  let '(b, has_live_reference) := row in
  let finding kind severity := record kind severity None None (Some (Blob.id b)) in
  let has_candidate := bool_decide (is_Some (Blob.orphaned_at b)) || bool_decide (is_Some (Blob.eligible_after b))
                       || bool_decide (is_Some (Blob.eligible_after_seq b)) in
  if has_live_reference
  then if has_candidate then finding BlobStaleCandidate Warning "candidate_has_live_artifact_reference" else sret tt
  else match Blob.orphaned_at b, Blob.eligible_after b, Blob.eligible_after_seq b with
       | Some _, Some _, Some eligible_after_seq =>
           if now_seq <? eligible_after_seq
           then finding BlobGraceCandidate Info "orphan_within_gc_grace"
           else finding BlobGcEligibleCandidate Warning "orphan_gc_eligible"
       | None, None, None => finding BlobOrphan Error "blob_has_no_live_artifact_reference"
       | _, _, _ => finding BlobOrphan Error "orphan_candidate_metadata_inconsistent"
       end.
Definition is_storage_digest (value : string) : bool := bool_decide (is_Some (storage_digest value)).
Definition classify_blob_liveness (row : Blob.row * bool) (now_seq : Z) : Scan unit :=
  if is_storage_digest (Blob.stored_sha256 row.1)
  then do! current := observe (current_blob_row (Blob.id row.1)) in
       match current with
       | None => record TransientChange Info None None (Some (Blob.id row.1)) "blob_changed_during_scan"
       | Some current => record_blob_liveness current now_seq
       end
  else record_blob_liveness row now_seq.

Record BlobJob : Type := mkBlobJob { bj_blob_id : string; bj_stored_sha256 : string; bj_stored_size_bytes : Z }.
Definition blob_is_current (job : BlobJob) : M ScanError bool :=
  let! size := lift (ok_or (u64_to_i64 (bj_stored_size_bytes job)) IntegrityScanError.Metadata) in
  query metadata_failed (fun d =>
    existsb (fun b => eqs (Blob.id b) (bj_blob_id job) && eqs (Blob.stored_sha256 b) (bj_stored_sha256 job)
                      && (Blob.stored_size_bytes b =? size)) (blobs d)).
Definition scan_blob_job (job : BlobJob) : M ScanError StoredFileCheck.t :=
  let! current := blob_is_current job in
  if negb current then ret StoredFileCheck.Transient else
  let! result := scan_stored_file (blob_path (bj_stored_sha256 job)) (bj_stored_size_bytes job) (bj_stored_sha256 job) in
  let! current := blob_is_current job in
  if negb current then ret StoredFileCheck.Transient else ret result.
(** The mapping of [scan_blob_job], recorded by [record_blob_result]. *)
Definition record_blob_result (job : BlobJob) (result : StoredFileCheck.t) : Scan unit :=
  let finding kind severity := record kind severity None None (Some (bj_blob_id job)) in
  match result with
  | StoredFileCheck.Healthy => sret tt
  | StoredFileCheck.Missing => finding BlobFileMissing Error "canonical_blob_file_missing"
  | StoredFileCheck.NonRegular => finding BlobFileNonRegular Error "canonical_blob_file_not_regular"
  | StoredFileCheck.SizeMismatch => finding BlobFileSizeMismatch Error "canonical_blob_file_size_mismatch"
  | StoredFileCheck.HashMismatch => finding BlobFileHashMismatch Error "canonical_blob_file_hash_mismatch"
  | StoredFileCheck.Unreadable => finding BlobFileMissing Error "canonical_blob_file_unreadable"
  | StoredFileCheck.Transient => finding TransientChange Info "blob_changed_during_scan"
  end.
Definition scan_blob_jobs : list BlobJob -> Scan unit := scan_jobs scan_blob_job record_blob_result.

(** The loop over one page of rows: the jobs it leaves. *)
Fixpoint blob_jobs (st : AppState) (now_seq : Z) (rows : list (Blob.row * bool)) : Scan (list BlobJob) :=
  match rows with
  | [] => sret []
  | row :: rows =>
      let b := row.1 in
      do! _ := classify_blob_liveness row now_seq in
      if negb (is_storage_digest (Blob.stored_sha256 b))
         || negb ((0 <=? Blob.stored_size_bytes b) && (Blob.stored_size_bytes b <=? max_artifact_stored_bytes st))
         || negb (eqs (Blob.compression b) "identity" || eqs (Blob.compression b) "zstd")
      then do! _ := record BlobMetadataInvalid Error None None (Some (Blob.id b)) "blob_row_metadata_invalid" in
           blob_jobs st now_seq rows
      else do! jobs := blob_jobs st now_seq rows in
           sret (mkBlobJob (Blob.id b) (Blob.stored_sha256 b) (Blob.stored_size_bytes b) :: jobs)
  end.
Definition scan_blob_rows (st : AppState) : Scan unit :=
  do! t := observe now in
  pages (fun row => Blob.id row.1) blob_scan_rows (fun rows =>
    do! jobs := blob_jobs st (sort_key_from_timestamp t) rows in scan_blob_jobs jobs).

(* ------------------------------------------------------------------ *)
(** ** The blob directory *)

(** [Path::extension] of a name that does not start with a dot. *)
Definition extension (name : string) : option string := pq ← rsplit_once "." (chars name); Some (of_chars pq.2).
Definition temporary_storage_name (name : string) : bool :=
  bool_decide (is_Some (strip_prefix "." name))
  || match extension name with
     | Some e => existsb (eqs (to_ascii_lowercase e)) ["partial"; "tmp"; "temp"]%string
     | None => false
     end.
Definition shard_name (value : string) : bool := (str_len value =? 2) && forallb is_lower_hex (chars value).

Definition storage_failed : ScanError := IntegrityScanError.Storage.
Definition is_dir (p : path) : M ScanError bool :=
  operation (fun _ => storage_failed) (fun w => (Ok (is_dir_in (files w.1) p), w)).
Definition unexpected_file (detail : string) : Scan unit := record UnexpectedBlobFile Error None None None detail.
Definition scan_entries (dir : path) (body : string -> Scan unit) : Scan unit :=
  do! names := observe (read_dir storage_failed dir) in
  do! _ := scan_each names (fun name => do! _ := observe (next_entry storage_failed) in body name) in
  observe (next_entry storage_failed).

Definition record_unowned_blob_file_if_current (st : AppState) (digest : string) (p : path) : Scan unit :=
  do! known := observe (query metadata_failed (fun d =>
    existsb (fun b => eqs (Blob.owner_namespace b) (Storage.owner_namespace st) && eqs (Blob.stored_sha256 b) digest) (blobs d))) in
  if (known : bool) then sret tt else
  do! found := observe (attempt (symlink_metadata p)) in
  match found with
  | Ok (Some _) => unexpected_file "canonical_blob_file_has_no_blob_row"
  | _ => sret tt
  end.
Definition inventory_blob_shard (st : AppState) (shard : string) : Scan unit :=
  let directory := ["blobs"%string; "sha256"%string; shard] in
  scan_entries directory (fun name =>
    if temporary_storage_name name then sret tt else
    do! _ := observe (is_dir (directory ++ [name])) in
    if is_storage_digest name && bool_decide (is_Some (strip_prefix shard name))
    then record_unowned_blob_file_if_current st name (directory ++ [name])
    else unexpected_file "invalid_canonical_blob_entry").
Definition inventory_sha256_directory (st : AppState) : Scan unit :=
  let root := ["blobs"; "sha256"]%string in
  scan_entries root (fun name =>
    if temporary_storage_name name then sret tt else
    do! dir := observe (is_dir (root ++ [name])) in
    if dir && shard_name name then inventory_blob_shard st name else unexpected_file "invalid_canonical_blob_shard").
(** The root is there since [StorageLayout::create]: it is a directory unless
    something else took its place. *)
Definition blob_root_is_dir : M ScanError bool :=
  operation (fun _ => storage_failed) (fun w =>
    (Ok (match files w.1 !! ["blobs"%string] with Some (Regular _) | Some Symlink => false | _ => true end), w)).
Definition inventory_blob_files (st : AppState) : Scan unit :=
  do! root_is_dir := observe blob_root_is_dir in
  if negb root_is_dir then unexpected_file "blob_root_not_directory" else
  scan_entries ["blobs"%string] (fun name =>
    do! dir := observe (is_dir ["blobs"%string; name]) in
    if eqs name "sha256"
    then if (dir : bool) then inventory_sha256_directory st else unexpected_file "blob_sha256_root_not_directory"
    else if negb (temporary_storage_name name) then unexpected_file "noncanonical_blob_root_entry" else sret tt).

(* ------------------------------------------------------------------ *)
(** ** A scan *)

Definition scan_all (st : AppState) : Scan unit :=
  do! _ := scan_database_integrity in
  do! _ := scan_dangling_artifact_references in
  do! _ := scan_tombstoned_artifact_references in
  do! _ := scan_snapshots st in
  do! _ := scan_blob_rows st in
  inventory_blob_files st.
Definition scan_archive (st : AppState) : M ScanError IntegrityReport :=
  let! rc := begin st in
  let! scanned := map_err (Empty_set_rect (fun _ => ScanError)) (scan_all st rc) in
  match scanned with
  | (Ok _, rc) => complete rc
  | (Err e, rc) =>
      let! failed := attempt (fail rc) in
      match failed with
      | Ok _ => throw e
      | Err _ => throw IntegrityScanError.Persistence
      end
  end.

(* ------------------------------------------------------------------ *)
(** ** The history *)

(** [WHERE owner_namespace = ?1 AND completed_at_seq IS NOT NULL ORDER BY
    completed_at_seq DESC, id DESC] *)
Definition run_ge (x y : IntegrityRun.row) : Prop :=
  default 0 (IntegrityRun.completed_at_seq y) < default 0 (IntegrityRun.completed_at_seq x)
  \/ (IntegrityRun.completed_at_seq x = IntegrityRun.completed_at_seq y
      /\ String.le (IntegrityRun.id y) (IntegrityRun.id x)).
#[global] Instance run_ge_dec : RelDecision run_ge.
Proof. intros x y. unfold run_ge. apply _. Defined.
Definition completed_runs (st : AppState) (d : Db) : list string :=
  IntegrityRun.id <$> merge_sort run_ge
    (select (fun r => eqs (IntegrityRun.owner_namespace r) (Storage.owner_namespace st)
                      && bool_decide (is_Some (IntegrityRun.completed_at_seq r))) (integrity_runs d)).

(** [SELECT kind, COUNT(star) .. GROUP BY kind] into a [BTreeMap] *)
Definition kind_rows (id : string) (d : Db) : gmap string Z :=
  foldl (fun counts f => <[IntegrityFinding.kind f := default 0 (counts !! IntegrityFinding.kind f) + 1]> counts) ∅
    (select (fun f => eqs (IntegrityFinding.run_id f) id) (integrity_findings d)).
Definition run_summary (id : string) : M ScanError IntegrityRunSummary :=
  let! row := fetch_one metadata_failed (fun d => select_one (fun r => eqs (IntegrityRun.id r) id) (integrity_runs d)) in
  let! kinds := query metadata_failed (kind_rows id) in
  let metadata {A} (o : option A) := lift (ok_or o IntegrityScanError.Metadata) in
  let! status := metadata (parse (IntegrityRun.status row)) in
  let! t := metadata (i64_to_u64 (IntegrityRun.finding_count row)) in
  let! i := metadata (i64_to_u64 (IntegrityRun.info_count row)) in
  let! w := metadata (i64_to_u64 (IntegrityRun.warning_count row)) in
  let! e := metadata (i64_to_u64 (IntegrityRun.error_count row)) in
  ret {| ir_run_id := IntegrityRun.id row; ir_owner_namespace := IntegrityRun.owner_namespace row; ir_status := status;
         ir_started_at := IntegrityRun.started_at row; ir_completed_at := IntegrityRun.completed_at row;
         ir_counts := mkCounts t i w e kinds |}.
Definition latest_health (st : AppState) : M ScanError (option IntegrityRunSummary) :=
  let! id := query metadata_failed (fun d => head (completed_runs st d)) in
  match id with
  | None => ret None
  | Some id => let! summary := run_summary id in ret (Some summary)
  end.
Fixpoint summaries (ids : list string) : M ScanError (list IntegrityRunSummary) :=
  match ids with
  | [] => ret []
  | id :: ids => let! s := run_summary id in let! rest := summaries ids in ret (s :: rest)
  end.
Definition list_runs (st : AppState) (limit : Z) : M ScanError (list IntegrityRunSummary) :=
  let! limit := lift (ok_or (u64_to_i64 (Z.min limit HISTORY_LIMIT)) IntegrityScanError.Metadata) in
  let! ids := query metadata_failed (fun d => take (Z.to_nat limit) (completed_runs st d)) in
  summaries ids.

Definition finding_le (x y : IntegrityFinding.row) : Prop :=
  IntegrityFinding.detected_at_seq x < IntegrityFinding.detected_at_seq y
  \/ (IntegrityFinding.detected_at_seq x = IntegrityFinding.detected_at_seq y
      /\ String.le (IntegrityFinding.id x) (IntegrityFinding.id y)).
#[global] Instance finding_le_dec : RelDecision finding_le.
Proof. intros x y. unfold finding_le. apply _. Defined.
Definition finding_summary (row : IntegrityFinding.row) : res ScanError IntegrityFindingSummary :=
  let? kind := ok_or (parse (IntegrityFinding.kind row)) IntegrityScanError.Metadata in
  let? severity := ok_or (parse (IntegrityFinding.severity row)) IntegrityScanError.Metadata in
  Ok {| if_finding_id := IntegrityFinding.id row; if_run_id := IntegrityFinding.run_id row; if_kind := kind;
        if_severity := severity; if_snapshot_id := IntegrityFinding.snapshot_id row;
        if_artifact_id := IntegrityFinding.artifact_id row; if_blob_id := IntegrityFinding.blob_id row;
        if_detected_at := IntegrityFinding.detected_at row; if_detail_code := IntegrityFinding.detail_code row |}.
Fixpoint finding_summaries (rows : list IntegrityFinding.row) : res ScanError (list IntegrityFindingSummary) :=
  match rows with
  | [] => Ok []
  | row :: rows => let? f := finding_summary row in let? rest := finding_summaries rows in Ok (f :: rest)
  end.
Definition list_findings (id : string) (limit : Z) : M ScanError (list IntegrityFindingSummary) :=
  let! limit := lift (ok_or (u64_to_i64 (Z.min limit HISTORY_LIMIT)) IntegrityScanError.Metadata) in
  let! rows := query metadata_failed (fun d => take (Z.to_nat limit)
    (merge_sort finding_le (select (fun f => eqs (IntegrityFinding.run_id f) id) (integrity_findings d)))) in
  lift (finding_summaries rows).
End Scanner.
