(* ===== verification/Scanning.v ===== *)
(** What a scan does: it observes the archive without touching it, its report
    is the account of the findings it recorded, and a healthy report certifies
    the archive it looked at. *)
From stdpp Require Import prelude strings gmap sorting list.
From Stdlib Require Import ZArith Ascii Lia.
From Stdlib.Strings Require Import Byte.
From S2P Require Import Prelude Errors Contract Externals Validation Chunks Fingerprint Pagination.
From S2P Require Import Tables Store Storage Uploads Receipts Completion Deletion Archive Collection.
From S2P Require Import Reconcile Canonical Download Delivery Integrity.

(* ------------------------------------------------------------------ *)
(** ** What a scan leaves behind *)

(** What a scan looks at: everything but the history of the scans. *)
Definition archive_of (d : Db) : Db := with_integrity_runs (fun _ => []) (with_integrity_findings (fun _ => []) d).
Definition View : Type := Db * Files.
Definition view (s : Store) : View := (archive_of (db s), files s).

(** The counts of a list of findings. *)
Definition with_severity (v : IntegritySeverity) (fs : list IntegrityFinding.row) : Z :=
  Z.of_nat (length (select (fun f => eqs (IntegrityFinding.severity f) (as_str v)) fs)).
Definition kinds_of (fs : list IntegrityFinding.row) : gmap string Z :=
  foldl (fun counts f => <[IntegrityFinding.kind f := default 0 (counts !! IntegrityFinding.kind f) + 1]> counts) ∅ fs.
Definition tally (fs : list IntegrityFinding.row) : IntegrityFindingCounts :=
  mkCounts (Z.of_nat (length fs)) (with_severity Info fs) (with_severity Warning fs) (with_severity Error fs) (kinds_of fs).

(** The recorder accounts for these findings: it shows the first of them and
    counts them all. *)
Record accounts (fs : list IntegrityFinding.row) (rc : ScanRecorder) : Prop := {
  ac_findings : finding_summaries (take REPORT_FINDING_LIMIT fs) = Ok (report_findings rc);
  ac_counts : Z.of_nat (length fs) <= u64_max -> counts rc = tally fs;
}.
Definition of_run (rc : ScanRecorder) (f : IntegrityFinding.row) : Prop :=
  IntegrityFinding.run_id f = run_id rc /\ IntegrityFinding.owner_namespace f = recorder_owner rc
  /\ exists v : IntegritySeverity, IntegrityFinding.severity f = as_str v.

(** [fs] was recorded since [rc], [s]; nothing else changed. *)
Record scanned (rc : ScanRecorder) (s : Store) (fs : list IntegrityFinding.row) (rc' : ScanRecorder) (s' : Store) : Prop := {
  sn_view : view s' = view s;
  sn_runs : integrity_runs (db s') = integrity_runs (db s);
  sn_findings : integrity_findings (db s') = integrity_findings (db s) ++ fs;
  sn_of_run : Forall (of_run rc) fs;
  sn_run : run_id rc' = run_id rc /\ recorder_owner rc' = recorder_owner rc /\ started_at rc' = started_at rc;
  sn_accounts : forall gs, accounts gs rc -> accounts (gs ++ fs) rc';
}.

Lemma scanned_refl rc s s' : db s' = db s -> files s' = files s -> scanned rc s [] rc s'.
Proof.
  intros E1 E2. split; [by unfold view; rewrite E1, E2|by rewrite E1|by rewrite E1, app_nil_r|constructor|done|].
  intros gs. by rewrite app_nil_r.
Qed.
Lemma scanned_trans rc s fs rc1 s1 gs rc2 s2 : scanned rc s fs rc1 s1 -> scanned rc1 s1 gs rc2 s2 ->
  scanned rc s (fs ++ gs) rc2 s2.
Proof.
  intros [V1 R1 F1 O1 (I1 & J1 & K1) A1] [V2 R2 F2 O2 (I2 & J2 & K2) A2]. split; [congruence|congruence| | | |].
  - by rewrite F2, F1, app_assoc.
  - apply Forall_app. split; [done|]. eapply Forall_impl; [exact O2|]. intros f (E1 & E2 & ?). split_and!; [congruence..|done].
  - split_and!; congruence.
  - intros hs Hh. rewrite app_assoc. auto.
Qed.

(** These findings are counted without an overflow. *)
Definition fits (rc : ScanRecorder) (fs : list IntegrityFinding.row) : Prop := forall gs,
  accounts gs rc -> Z.of_nat (length gs) <= u64_max -> Z.of_nat (length (gs ++ fs)) <= u64_max.
Lemma fits_nil rc : fits rc [].
Proof. intros gs _. by rewrite app_nil_r. Qed.
Lemma fits_trans rc s fs rc1 s1 gs : scanned rc s fs rc1 s1 -> fits rc fs -> fits rc1 gs -> fits rc (fs ++ gs).
Proof. intros Hs F1 F2 hs Hh Hl. rewrite app_assoc. apply F2; [by eapply sn_accounts|by apply F1]. Qed.

(** A finding that leaves the archive healthy. *)
Definition harmless (f : IntegrityFinding.row) : Prop :=
  IntegrityFinding.severity f = as_str Info /\ IntegrityFinding.kind f <> as_str TransientChange.

Section Rules.
Context `{EV : Env} `{UL : UuidLib} `{TL : TimeLib} `{ML : MimeLib} `{SL : ShaLib} `{ZL : ZstdLib} `{JL : JsonLib}
  `{FS : FileStamps} `{QL : SqliteChecks}.

(** A step of a scan ends with [Q] of its answer, its recorder and the store. *)
Definition swp {A} (m : Scan A) (Q : res ScanError A -> ScanRecorder -> Store -> Prop) (rc : ScanRecorder) (s : Store) : Prop :=
  wp (m rc) (fun r s' => match r with Ok (a, rc') => Q a rc' s' | Err e => False end) s.

(** A step of a scan records findings and changes nothing else; when it ends
    well and recorded only harmless ones, [P] holds of what it looked at. *)
Definition scans {A} (P : View -> A -> Prop) (m : Scan A) : Prop := forall rc s,
  swp m (fun r rc' s' => exists fs, scanned rc s fs rc' s'
    /\ forall a, r = Ok a -> fits rc fs /\ (Forall harmless fs -> P (view s) a)) rc s.

Lemma scans_mono {A} (P Q : View -> A -> Prop) m : scans P m -> (forall v a, P v a -> Q v a) -> scans Q m.
Proof.
  intros Hm HPQ rc s. eapply wp_mono; [|apply Hm]. intros [[r rc']|e] s'; [|done].
  intros (fs & Hs & Hp). exists fs. split; [done|]. intros a Ha. destruct (Hp a Ha). eauto.
Qed.
Lemma scans_ret {A} (a : A) (P : View -> A -> Prop) : (forall v, P v a) -> scans P (sret a).
Proof. intros HP rc s. apply wp_ret. exists []. split; [by apply scanned_refl|]. intros ? [= <-]. by split; [apply fits_nil|]. Qed.
Lemma scans_throw {A} e (P : View -> A -> Prop) : scans P (sthrow e).
Proof. intros rc s. apply wp_ret. exists []. split; [by apply scanned_refl|]. done. Qed.
Lemma scans_bind {A B} (P : View -> A -> Prop) (Q : View -> B -> Prop) (m : Scan A) (k : A -> Scan B) :
  scans P m -> (forall a, scans (fun v b => P v a -> Q v b) (k a)) -> scans Q (sbind m k).
Proof.
  intros Hm Hk rc s. unfold sbind, swp. apply wp_bind. eapply wp_mono; [|apply Hm].
  intros [[[a|e] rc1]|[]] s1; simpl; intros (fs & Hs & Hp).
  - eapply wp_mono; [|apply (Hk a)]. intros [[r rc2]|e] s2; [|done]. intros (gs & Hs2 & Hq).
    destruct (Hp a eq_refl) as [F1 Hp1].
    exists (fs ++ gs). split; [by eapply scanned_trans|]. intros b Hb. destruct (Hq b Hb) as [F2 Hq2].
    split; [by eapply fits_trans|]. intros [Hf Hg]%Forall_app.
    rewrite <-(sn_view _ _ _ _ _ Hs). apply (Hq2 Hg). rewrite (sn_view _ _ _ _ _ Hs). by apply Hp1.
  - apply wp_ret. by exists fs.
Qed.
(** Calls that only read. *)
Lemma scans_observe {A} (P : View -> A -> Prop) (m : M ScanError A) :
  (forall s, wp m (fun r s' => db s' = db s /\ files s' = files s /\ forall a, r = Ok a -> P (view s) a) s) ->
  scans P (observe m).
Proof.
  intros Hm rc s. unfold observe, swp. apply wp_bind, wp_attempt. eapply wp_mono; [|apply Hm].
  intros r s' (E1 & E2 & Hp). simpl. apply wp_ret. exists []. split; [by apply scanned_refl|]. intros a Ha. split; [apply fits_nil|auto].
Qed.
Lemma scans_query {A} (f : Db -> A) err (P : View -> A -> Prop) : (forall d fs, P (archive_of d, fs) (f d)) ->
  scans P (observe (query err f)).
Proof.
  intros HP. apply scans_observe. intros s. apply wp_query; [done|]. split_and!; [done..|].
  intros a [= <-]. apply HP.
Qed.
Lemma scans_each {A} (R : View -> A -> Prop) (body : A -> Scan unit) l :
  (forall a, scans (fun v _ => R v a) (body a)) -> scans (fun v _ => Forall (R v) l) (scan_each l body).
Proof.
  intros Hb. induction l as [|a l IH]; simpl; [apply scans_ret; constructor|].
  eapply scans_bind; [apply Hb|]. intros []. eapply scans_mono; [exact IH|]. intros v [] ?. by constructor.
Qed.
End Rules.

(* ------------------------------------------------------------------ *)
(** ** The account of the findings *)

Lemma with_severity_le v fs : 0 <= with_severity v fs <= Z.of_nat (length fs).
Proof. unfold with_severity, select. pose proof (length_filter (fun f => eqs (IntegrityFinding.severity f) (as_str v) = true) fs). lia. Qed.
Lemma with_severity_snoc v fs f : with_severity v (fs ++ [f]) =
  with_severity v fs + (if eqs (IntegrityFinding.severity f) (as_str v) then 1 else 0).
Proof.
  unfold with_severity, select. rewrite filter_app, length_app, filter_cons, filter_nil.
  destruct (eqs _ _); simpl; lia.
Qed.
Lemma kinds_of_snoc fs f : kinds_of (fs ++ [f]) =
  <[IntegrityFinding.kind f := default 0 (kinds_of fs !! IntegrityFinding.kind f) + 1]> (kinds_of fs).
Proof. unfold kinds_of. by rewrite foldl_app. Qed.
Lemma kinds_of_le fs k : 0 <= default 0 (kinds_of fs !! k) <= Z.of_nat (length fs).
Proof.
  induction fs as [|f fs IH] using rev_ind; [unfold kinds_of; simpl; by rewrite lookup_empty|].
  rewrite kinds_of_snoc, length_app. simpl. destruct (decide (k = IntegrityFinding.kind f)) as [->|Hne].
  - rewrite lookup_insert_eq. simpl. lia.
  - rewrite lookup_insert_ne by done. lia.
Qed.
Lemma kinds_of_None fs k : kinds_of fs !! k = None <-> Forall (fun f => IntegrityFinding.kind f <> k) fs.
Proof.
  induction fs as [|f fs IH] using rev_ind; [unfold kinds_of; simpl; by rewrite Forall_nil, lookup_empty|].
  rewrite kinds_of_snoc, Forall_app, Forall_cons, Forall_nil, lookup_insert_None. rewrite IH. naive_solver.
Qed.

(** The counter that a recorded finding of this severity moves. *)
Definition severity_count (v : IntegritySeverity) : IntegrityFindingCounts -> Z :=
  match v with Info => info | Warning => warning | Error => error end.
Definition set_severity (v : IntegritySeverity) : Z -> IntegrityFindingCounts -> IntegrityFindingCounts :=
  match v with Info => set_info | Warning => set_warning | Error => set_error end.
Definition counted (k : IntegrityFindingKind) (v : IntegritySeverity) (c : IntegrityFindingCounts) : IntegrityFindingCounts :=
  set_kind k (kind_count k c + 1) (set_severity v (severity_count v c + 1) (set_total (total c + 1) c)).
Lemma tally_snoc fs f k v : IntegrityFinding.kind f = as_str k -> IntegrityFinding.severity f = as_str v ->
  tally (fs ++ [f]) = counted k v (tally fs).
Proof.
  intros Ek Ev. unfold tally. rewrite length_app, !with_severity_snoc, kinds_of_snoc, Ek, Ev.
  unfold counted, kind_count, set_kind, set_total. rewrite Nat2Z.inj_add.
  destruct v; cbn [severity_count set_severity]; unfold set_info, set_warning, set_error;
    cbn [total info warning error by_kind]; rewrite eqs_refl; f_equal; try lia;
    by rewrite ?(proj2 (eqs_false _ _)), ?Z.add_0_r by done.
Qed.

Lemma finding_summaries_length fs : forall l, finding_summaries fs = Ok l -> length l = length fs.
Proof.
  induction fs as [|f fs IH]; intros l Hl; cbn [finding_summaries] in Hl; [by injection Hl as <-|].
  inv_res. simpl. f_equal. by apply IH.
Qed.
Lemma finding_summaries_snoc fs f : forall l x, finding_summaries fs = Ok l -> finding_summary f = Ok x ->
  finding_summaries (fs ++ [f]) = Ok (l ++ [x]).
Proof.
  induction fs as [|g fs IH]; intros l x Hl Hx; cbn [finding_summaries app] in *.
  - injection Hl as <-. by rewrite Hx.
  - inv_res. erewrite Hx0. simpl. by erewrite IH.
Qed.

Lemma accounts_far fs f rc rc' : accounts fs rc -> u64_max <= Z.of_nat (length fs) ->
  report_findings rc' = report_findings rc -> accounts (fs ++ [f]) rc'.
Proof.
  intros [A1 _] Hl E. split.
  - rewrite take_app_le, A1, E; [done|]. unfold REPORT_FINDING_LIMIT, u64_max in *. lia.
  - rewrite length_app. simpl. lia.
Qed.
Lemma counter_far fs rc read : accounts fs rc -> (forall fs, read (tally fs) <= Z.of_nat (length fs)) ->
  u64_max < read (counts rc) + 1 -> u64_max <= Z.of_nat (length fs).
Proof.
  intros [_ A2] Hr Hm. destruct (Z.le_gt_cases (Z.of_nat (length fs)) u64_max) as [Hle|]; [|lia].
  rewrite A2 in Hm by done. specialize (Hr fs). lia.
Qed.
Lemma accounts_snoc fs f x k v rc : accounts fs rc -> finding_summary f = Ok x ->
  IntegrityFinding.kind f = as_str k -> IntegrityFinding.severity f = as_str v ->
  accounts (fs ++ [f]) (push_finding x (set_counts (counted k v) rc)).
Proof.
  intros [A1 A2] Hx Ek Ev. pose proof (finding_summaries_length _ _ A1) as Hl. rewrite length_take in Hl.
  split.
  - unfold push_finding. cbn [report_findings set_counts]. destruct (Nat.ltb_spec (length (report_findings rc)) REPORT_FINDING_LIMIT) as [Hlt|Hge].
    + cbn [report_findings]. assert (length fs < REPORT_FINDING_LIMIT)%nat by lia.
      rewrite take_ge by (rewrite length_app; simpl; lia). rewrite take_ge in A1 by lia.
      by apply finding_summaries_snoc.
    + cbn [report_findings]. rewrite take_app_le by lia. exact A1.
  - rewrite length_app. simpl. intros Hm. rewrite (tally_snoc _ _ k v), <-A2 by (done || lia).
    unfold push_finding. by destruct (Nat.ltb _ _).
Qed.

Section Recording.
Context `{EV : Env} `{UL : UuidLib} `{TL : TimeLib}.

Lemma swp_bind {A B} (m : Scan A) (k : A -> Scan B) Q rc s :
  swp m (fun r rc' s' => match r with Ok a => swp (k a) Q rc' s' | Err e => Q (Err e) rc' s' end) rc s ->
  swp (sbind m k) Q rc s.
Proof.
  intros Hm. unfold sbind, swp. apply wp_bind. eapply wp_mono; [|exact Hm].
  intros [[[a|e] rc']|[]] s'; simpl; [done|]. intros HQ. by apply wp_ret.
Qed.
Lemma swp_observe {A} (m : M ScanError A) (Q : res ScanError A -> ScanRecorder -> Store -> Prop) rc s :
  wp m (fun r s' => Q r rc s') s -> swp (observe m) Q rc s.
Proof. intros Hm. unfold observe, swp. apply wp_bind, wp_attempt. eapply wp_mono; [|exact Hm]. intros r s' HQ. simpl. by apply wp_ret. Qed.
Lemma swp_bump read write (Q : res ScanError unit -> ScanRecorder -> Store -> Prop) rc s :
  (u64_max < read (counts rc) + 1 -> Q (Err IntegrityScanError.Persistence) rc s) ->
  Q (Ok tt) (set_counts (write (read (counts rc) + 1)) rc) s -> swp (bump read write) Q rc s.
Proof.
  intros He Hok. unfold bump. apply swp_bind, wp_ret. simpl. apply swp_bind, swp_observe, wp_lift.
  unfold checked_add_u64. destruct (Z.leb_spec (read (counts rc) + 1) u64_max); simpl; [by apply wp_ret|by apply He].
Qed.

Lemma swp_bump_total (Q : res ScanError unit -> ScanRecorder -> Store -> Prop) rc s :
  (u64_max < total (counts rc) + 1 -> Q (Err IntegrityScanError.Persistence) rc s) ->
  (total (counts rc) + 1 <= u64_max -> Q (Ok tt) (set_counts (set_total (total (counts rc) + 1)) rc) s) ->
  swp (bump total set_total) Q rc s.
Proof.
  intros He Hok. destruct (Z.le_gt_cases (total (counts rc) + 1) u64_max).
  - apply swp_bump; [lia|auto].
  - unfold bump. apply swp_bind, wp_ret. simpl. apply swp_bind, swp_observe, wp_lift.
    unfold checked_add_u64. destruct (Z.leb_spec (total (counts rc) + 1) u64_max); simpl; [lia|]. by apply He.
Qed.

(** A finding is in its table, in the report and in the counts, or nowhere. *)
Lemma scans_record kind severity sn ar bl detail :
  scans (fun _ _ => severity = Info /\ kind <> TransientChange) (record kind severity sn ar bl detail).
Proof.
  intros rc s. unfold record. apply swp_bind, wp_ret. simpl.
  assert (Hno : forall e s', db s' = db s -> files s' = files s -> exists fs, scanned rc s fs rc s' /\
    forall a : unit, Err (E := ScanError) e = Ok a -> fits rc fs /\ (Forall harmless fs -> severity = Info /\ kind <> TransientChange)).
  { intros e s' E1 E2. exists []. split; [by apply scanned_refl|done]. }
  apply swp_bind, swp_observe. unfold scan_clock. apply wp_bind, wp_now. intros t. simpl. apply wp_bind, wp_lift.
  destruct (format_rfc3339 t) as [text|]; simpl; [|by apply Hno]. apply wp_ret.
  apply swp_bind, swp_observe, wp_new_uuid. simpl. apply swp_bind, swp_observe, wp_execute; simpl; [intros; by apply Hno|].
  intros d n Ex. unfold insert_finding in Ex. destruct (_ <? 0); [done|].
  set (f := IntegrityFinding.mk _ _ _ _ _ _ _ _ _ _ _) in Ex. destruct (insert_row _ _ _) as [l|] eqn:El; [|done].
  injection Ex as <- <-. apply insert_row_Some in El as [-> _]. simpl.
  set (s1 := mkStore _ (files s) _).
  assert (Hs1 : forall rc', run_id rc' = run_id rc /\ recorder_owner rc' = recorder_owner rc /\ started_at rc' = started_at rc ->
    (forall gs, accounts gs rc -> accounts (gs ++ [f]) rc') -> scanned rc s [f] rc' s1).
  { intros rc' Hrun Hacc. split; [done|by destruct (db s)|done| |done|exact Hacc].
    apply Forall_singleton. split_and!; [done..|by exists severity]. }
  assert (Hfar : forall e rc', run_id rc' = run_id rc /\ recorder_owner rc' = recorder_owner rc /\ started_at rc' = started_at rc ->
    report_findings rc' = report_findings rc -> (forall gs, accounts gs rc -> u64_max <= Z.of_nat (length gs)) ->
    exists fs, scanned rc s fs rc' s1 /\ forall a : unit, Err (E := ScanError) e = Ok a -> fits rc fs /\ (Forall harmless fs -> severity = Info /\ kind <> TransientChange)).
  { intros e rc' Hrun Hrep Hl. exists [f]. split; [|done]. apply Hs1; [done|]. intros gs Hg. by eapply accounts_far; eauto. }
  apply swp_bind, swp_bump_total; [intros Hm; cbn beta iota; apply Hfar; [done..|]; intros gs Hg; by apply (counter_far _ _ total Hg)|].
  intros Hmax.
  assert (Hsev : forall gs v, severity_count v (tally gs) <= Z.of_nat (length gs)) by (intros gs []; apply with_severity_le).
  apply swp_bind.
  match goal with |- swp ?b _ _ _ => replace b with (bump (severity_count severity) (set_severity severity)) by by destruct severity end.
  apply swp_bump.
  { intros Hm. cbn beta iota. apply Hfar; [by destruct severity|by destruct severity|]. intros gs Hg. apply (counter_far _ _ (severity_count severity) Hg); [intros; apply Hsev|].
    by destruct severity. }
  apply swp_bind, swp_bump.
  { intros Hm. cbn beta iota. apply Hfar; [by destruct severity|by destruct severity|]. intros gs Hg. apply (counter_far _ _ (kind_count kind) Hg).
    - intros hs. unfold kind_count. apply kinds_of_le.
    - by destruct severity. }
  apply wp_ret. exists [f]. split.
  - set (x := Build_IntegrityFindingSummary _ _ _ _ _ _ _ _ _). apply Hs1; [unfold push_finding; by case_match|].
    intros gs Hg. replace (set_counts _ _) with (set_counts (counted kind severity) rc) by by destruct severity.
    apply (accounts_snoc gs f x kind severity rc Hg); [|done..]. subst f. unfold finding_summary.
    cbn [IntegrityFinding.kind IntegrityFinding.severity].
    change (FindingKind.as_str kind) with (as_str kind). change (Severity.as_str severity) with (as_str severity).
    by rewrite (parse_as_str kind), (parse_as_str severity).
  - intros _ _. split.
    { intros gs [_ A2] Hl. rewrite A2 in Hmax by done. rewrite length_app. cbn [total tally length] in *. lia. }
    intros [[E1 E2] _]%Forall_cons. simpl in E1, E2. split.
    + by apply (as_str_inj severity Info).
    + intros ->. by apply E2.
Qed.

(** A refusal to call a state healthy. *)
Lemma scans_unhealthy (P : View -> unit -> Prop) kind severity sn ar bl detail :
  severity <> Info \/ kind = TransientChange -> scans P (record kind severity sn ar bl detail).
Proof. intros Hbad. eapply scans_mono; [apply scans_record|]. intros v [] [E1 E2]. by destruct Hbad. Qed.
End Recording.

(* ------------------------------------------------------------------ *)
(** ** Pages reach every row *)

Lemma length_select_lt {R} (p q : R -> bool) l r : (forall x, q x = true -> p x = true) ->
  r ∈ l -> p r = true -> q r = false -> (length (select q l) < length (select p l))%nat.
Proof.
  intros Hqp. assert (Hle : forall l, (length (select q l) <= length (select p l))%nat).
  { intros k. unfold select. induction k as [|x k IH]; [done|]. rewrite !filter_cons.
    destruct (q x) eqn:E; [rewrite (Hqp x E); simpl; lia|]. destruct (p x); simpl; lia. }
  unfold select in *. induction l as [|x l IH]; intros Hr Hp Hq; [by apply elem_of_nil in Hr|].
  rewrite !filter_cons. apply elem_of_cons in Hr as [->|Hr].
  - rewrite Hp, Hq. simpl. specialize (Hle l). lia.
  - specialize (IH Hr Hp Hq). destruct (q x) eqn:E; [rewrite (Hqp x E); simpl; lia|]. destruct (p x); simpl; lia.
Qed.
Lemma after_id_true after id : after_id after id = true <-> ~ String.le id after.
Proof. unfold after_id, String.le. rewrite negb_true_iff. destruct (String.leb id after); simpl; naive_solver. Qed.

Section Pages.
Context {R : Type} (key : R -> string).
#[local] Instance by_id_total : Total (by_id key).
Proof. intros x y. apply String.le_total. Qed.
#[local] Instance by_id_trans : Transitive (by_id key).
Proof. intros x y z. unfold by_id. apply transitivity. Qed.


Lemma page_parts after l : exists rest, merge_sort (by_id key) (select (fun r => after_id after (key r)) l) = page key after l ++ rest
  /\ (rest <> [] -> page key after l <> []).
Proof.
  unfold page. eexists (drop PAGE_SIZE _). rewrite take_drop. split; [done|].
  set (k := merge_sort _ _). intros Hd Ht. apply Hd. destruct k as [|x k]; [done|]. done.
Qed.
Lemma page_sub after l x : x ∈ page key after l -> x ∈ l /\ after_id after (key x) = true.
Proof.
  destruct (page_parts after l) as (rest & E & _). intros Hx.
  assert (Hm : x ∈ merge_sort (by_id key) (select (fun r => after_id after (key r)) l)) by (rewrite E; apply elem_of_app; by left).
  rewrite merge_sort_Permutation in Hm. apply elem_of_select in Hm as [? ?]. done.
Qed.
Lemma page_last after l r : NoDup (key <$> l) -> last (page key after l) = Some r ->
  r ∈ l /\ after_id after (key r) = true
  /\ forall x, x ∈ l -> after_id after (key x) = true -> x ∈ page key after l \/ after_id (key r) (key x) = true.
Proof.
  intros Hn Hl. pose proof (last_Some_elem_of _ _ Hl) as Hr%page_sub. split; [apply Hr|split; [apply Hr|]].
  destruct (page_parts after l) as (rest & E & _). apply last_Some in Hl as [before El].
  intros x Hx Ha. assert (Hm : x ∈ page key after l ++ rest).
  { rewrite <-E, merge_sort_Permutation. by apply elem_of_select. }
  apply elem_of_app in Hm as [?|Hm]; [by left|right].
  pose proof (StronglySorted_merge_sort (by_id key) (select (fun r => after_id after (key r)) l)) as Hs.
  assert (Hnd : NoDup (key <$> page key after l ++ rest)).
  { rewrite <-E, merge_sort_Permutation. eapply sublist_NoDup; [exact Hn|]. apply sublist_fmap, sublist_filter. }
  rewrite E, El, <-app_assoc in Hs. simpl in Hs.
  assert (Hs' : StronglySorted (by_id key) (r :: rest)).
  { clear -Hs. induction before as [|y k IH]; [done|]. simpl in Hs. apply StronglySorted_inv in Hs as [Hs _]. by apply IH. }
  clear Hs. rename Hs' into Hs.
  rewrite El, <-app_assoc in Hnd. cbn [app] in Hnd. rewrite fmap_app, fmap_cons in Hnd. apply NoDup_app in Hnd as (_ & _ & [Hnd _]%NoDup_cons).
  apply StronglySorted_inv in Hs as [_ Hs]. rewrite Forall_forall in Hs. specialize (Hs x Hm). unfold by_id in Hs.
  apply after_id_true. intros Hle. apply Hnd. rewrite (anti_symm String.le (key r) (key x) Hs Hle).
  by apply list_elem_of_fmap_2.
Qed.
Lemma page_none after l x : last (page key after l) = None -> x ∈ l -> after_id after (key x) = false.
Proof.
  intros Hl Hx. destruct (after_id after (key x)) eqn:Ea; [|done]. exfalso.
  destruct (page_parts after l) as (rest & E & Hne). apply last_None in Hl. rewrite Hl in E, Hne. simpl in E.
  destruct rest; [|by apply Hne]. assert (Hm : x ∈ select (fun r => after_id after (key r)) l) by by apply elem_of_select.
  rewrite <-merge_sort_Permutation, E in Hm. by apply elem_of_nil in Hm.
Qed.
Lemma page_less after l r : NoDup (key <$> l) -> last (page key after l) = Some r ->
  (length (select (fun x => after_id (key r) (key x)) l) < length (select (fun x => after_id after (key x)) l))%nat.
Proof.
  intros Hn Hl. destruct (page_last after l r Hn Hl) as (Hr & Ha & _).
  apply (length_select_lt _ _ _ r); [|done|done|].
  - intros x. rewrite !after_id_true. intros Hx Hle. apply Hx. etrans; [exact Hle|].
    apply after_id_true in Ha. destruct (String.le_total (key r) after); [done|done].
  - destruct (after_id (key r) (key r)) eqn:E; [|done]. apply after_id_true in E. by destruct E.
Qed.
End Pages.

Section Paging.
Context `{EV : Env} `{UL : UuidLib} `{TL : TimeLib}.
Context {R : Type} (key : R -> string) (rows : Db -> list R) (body : list R -> Scan unit) (P : View -> R -> Prop).
Hypothesis Hrows : forall d, rows (archive_of d) = rows d.
Hypothesis Hbody : forall rs, scans (fun v _ => Forall (P v) rs) (body rs).

(** When the keys are those of a table, the pages reach every row, and the scan
    is over after the last. *)
Definition keyed (v : View) : Prop := NoDup (key <$> rows v.1) /\ "" ∉ key <$> rows v.1.
Lemma scans_scan_pages fuel : forall after,
  scans (fun v _ => keyed v -> forall x, x ∈ rows v.1 -> after_id after (key x) = true -> P v x)
    (scan_pages fuel key rows body after).
Proof.
  induction fuel as [|fuel IH]; intros after; cbn [scan_pages]; [apply scans_throw|].
  eapply (scans_bind (fun v rs => rs = page key after (rows v.1))).
  { apply scans_query. intros d fs. simpl. by rewrite Hrows. }
  intros rs. destruct (last rs) as [r|] eqn:El.
  - eapply scans_bind; [apply Hbody|]. intros []. eapply scans_mono; [apply IH|].
    intros v [] Hrest HF -> Hk x Hx Ha. rewrite Forall_forall in HF.
    destruct (page_last key after (rows v.1) r (proj1 Hk) El) as (_ & _ & Hsplit).
    destruct (Hsplit x Hx Ha) as [Hin|Hin]; [by apply HF|by apply Hrest].
  - apply scans_ret. intros v -> Hk x Hx Ha. by rewrite (page_none key after (rows v.1) x El Hx) in Ha.
Qed.
Lemma scans_pages : scans (fun v _ => keyed v -> Forall (P v) (rows v.1)) (pages key rows body).
Proof.
  intros rc s n. unfold pages. pose proof (scans_scan_pages (S (length (rows (db s)))) "" rc s n) as Hp.
  revert Hp. cbn beta iota. destruct (scan_pages _ _ _ _ _ _ _) as [[[r rc']|[]] [s' k]]. simpl.
  intros (fs & Hs & Hp). exists fs. split; [done|]. intros a Hr. destruct (Hp a Hr) as [Hfit Hp']. split; [done|]. intros Hf Hk. apply Forall_forall. intros x Hx.
  apply (Hp' Hf Hk x Hx). apply after_id_true. intros Hle. apply (proj2 Hk).
  replace "" with (key x); [by apply list_elem_of_fmap_2|]. revert Hle. unfold String.le.
  by destruct (key x).
Qed.
End Paging.

(* ------------------------------------------------------------------ *)
(** ** References *)

Section References.
Context `{EV : Env} `{UL : UuidLib} `{TL : TimeLib} `{QL : SqliteChecks}.

Lemma scans_weaken {A} (P : View -> A -> Prop) m : scans P m -> scans (fun _ _ => True) m.
Proof. intros Hm. by eapply scans_mono. Qed.
Lemma scans_database_integrity : scans (fun _ _ => True) scan_database_integrity.
Proof.
  assert (Hr : forall d, scans (fun _ (_ : unit) => True) (record DatabaseIntegrityFailure Error None None None d)).
  { intros d. eapply scans_weaken, scans_record. }
  unfold scan_database_integrity. eapply (scans_bind (fun _ _ => True)); [by apply scans_query|].
  intros quick. eapply (scans_bind (fun _ _ => True)); [destruct (negb _); [apply Hr|by apply scans_ret]|].
  intros []. eapply (scans_bind (fun _ _ => True)); [by apply scans_query|]. intros [].
  - eapply scans_mono; [apply Hr|done].
  - by apply scans_ret.
Qed.
Lemma scans_no_rows {R} (key : R -> string) rows (body : R -> Scan unit) :
  (forall d, rows (archive_of d) = rows d) -> (forall r, scans (fun _ _ => False) (body r)) ->
  scans (fun v _ => keyed key rows v -> rows v.1 = []) (pages key rows (fun rs => scan_each rs body)).
Proof.
  intros Hr Hb. eapply scans_mono; [apply (scans_pages key rows _ (fun _ _ => False) Hr)|].
  - intros rs. by apply scans_each.
  - intros v [] HP Hk. specialize (HP Hk). destruct (rows v.1); [done|]. by apply Forall_inv in HP.
Qed.
Lemma scans_dangling : scans (fun v _ => keyed ArtifactRow.id dangling v -> dangling v.1 = []) scan_dangling_artifact_references.
Proof. apply scans_no_rows; [done|]. intros r. apply scans_unhealthy. by left. Qed.
Lemma scans_tombstoned :
  scans (fun v _ => keyed ArtifactRow.id tombstoned_artifacts v -> tombstoned_artifacts v.1 = []) scan_tombstoned_artifact_references.
Proof. apply scans_no_rows; [done|]. intros r. apply scans_unhealthy. by left. Qed.

(** *** Tasks *)

Lemma run_jobs_spec {J R} (work : J -> M ScanError R) (P : View -> J -> R -> Prop) :
  (forall j s, wp (work j) (fun r s' => db s' = db s /\ files s' = files s /\ forall x, r = Ok x -> P (view s) j x) s) ->
  forall js s, wp (run_jobs work js) (fun r s' => db s' = db s /\ files s' = files s /\
    forall rs, r = Ok rs -> rs.*1 = js /\ Forall (fun jr => forall x, jr.2 = Ok x -> P (view s) jr.1 x) rs) s.
Proof.
  intros Hw js. induction js as [|j js IH]; intros s; cbn [run_jobs].
  - apply wp_ret. split_and!; [done..|]. by intros rs [= <-].
  - apply wp_bind, wp_attempt. eapply wp_mono; [|apply Hw]. intros r s1 (E1 & E2 & Hp). simpl.
    apply wp_bind. eapply wp_mono; [|apply IH]. intros [rs|e] s2 (F1 & F2 & Hrs); simpl.
    + apply wp_ret. split_and!; [congruence..|]. intros x [= <-]. destruct (Hrs rs eq_refl) as [<- HF].
      assert (Ev : view s1 = view s) by (unfold view; by rewrite E1, E2). rewrite Ev in HF.
      by split; [|constructor].
    + split_and!; [congruence..|done].
Qed.
Lemma scans_jobs {J R} (work : J -> M ScanError R) (report : J -> R -> Scan unit) (P : View -> J -> R -> Prop) (Q : View -> J -> Prop) js :
  (forall j s, wp (work j) (fun r s' => db s' = db s /\ files s' = files s /\ forall x, r = Ok x -> P (view s) j x) s) ->
  (forall j x, scans (fun v _ => P v j x -> Q v j) (report j x)) ->
  scans (fun v _ => Forall (Q v) js) (scan_jobs work report js).
Proof.
  intros Hw Hr. unfold scan_jobs.
  eapply (scans_bind (fun v rs => rs.*1 = js /\ Forall (fun jr => forall x, jr.2 = Ok x -> P v jr.1 x) rs)).
  { apply scans_observe. intros s. by apply (run_jobs_spec work P). }
  intros rs. eapply scans_mono; [apply (scans_each (fun v jr => (forall x, jr.2 = Ok x -> P v jr.1 x) -> Q v jr.1))|].
  - intros [j r]. eapply (scans_bind (fun _ x => r = Ok x)).
    + apply scans_observe. intros s. apply wp_lift. split_and!; [done..|]. by intros x ->.
    + intros x. eapply scans_mono; [apply Hr|]. intros v [] HP -> Hall. by apply HP, Hall.
  - intros v [] HF [<- HP]. rewrite Forall_fmap. rewrite Forall_forall in HF, HP |- *. auto.
Qed.
End References.

(* ------------------------------------------------------------------ *)
(** ** Files *)

Section Files.
Context `{EV : Env} `{SL : ShaLib} `{ZL : ZstdLib} `{FS : FileStamps}.

Lemma scan_hash_reads_Ok reads : forall clean max n hashed size digest,
  scan_hash_reads reads clean max n hashed = Ok (size, digest) -> n = byte_len hashed ->
  clean = true /\ size = byte_len (hashed ++ concat reads) /\ digest = sha256_hex (hashed ++ concat reads).
Proof.
  induction reads as [|data reads IH]; intros clean max n hashed size digest; cbn [scan_hash_reads concat].
  - destruct clean; [|done]. intros [= <- <-] ->. by rewrite app_nil_r.
  - intros Hr Hn. inv_res.
    match goal with Hx : checked_add_u64 _ _ = Some _ |- _ => apply checked_add_u64_Some in Hx as [-> _] end.
    apply IH in Hr as (? & -> & ->); [by rewrite app_assoc|]. unfold byte_len. rewrite length_app. lia.
Qed.
Lemma scan_hash_reader_Ok r max size digest : scan_hash_reader r max = Ok (size, digest) ->
  r.2 = true /\ size = byte_len (concat r.1) /\ digest = sha256_hex (concat r.1).
Proof. intros Hr. by apply scan_hash_reads_Ok in Hr. Qed.

(** An observation of a file that ends with [Q] of what was found. *)
Lemma wp_stat p (Q : res unit (option FileMetadata) -> Store -> Prop) s :
  Q (Err tt) s -> (exists_in (files s) p = false -> Q (Ok None) s) ->
  (forall md, is_file md = true -> (exists b, files s !! p = Some (Regular b)) -> Q (Ok (Some md)) s) ->
  (forall md, is_file md = false -> Q (Ok (Some md)) s) -> wp (symlink_metadata p) Q s.
Proof.
  intros H1 H2 H3 H4. apply wp_operation; [done|]. intros n. simpl. destruct (exists_in (files s) p) eqn:Ee; [|by apply H2].
  destruct (files s !! p) as [[b| |]|] eqn:Ep; [apply H3; [done|by exists b]|by apply H4..].
Qed.
Lemma wp_open_entry p (Q : res unit bool -> Store -> Prop) s : Q (Err tt) s -> (forall b, Q (Ok b) s) ->
  wp (open_without_following_symlinks p) Q s.
Proof. intros H1 H2. apply wp_operation; [done|]. intros n. simpl. destruct (files s !! p) as [[]|]; simpl; auto. Qed.
Lemma wp_file_md p (Q : res unit FileMetadata -> Store -> Prop) s : Q (Err tt) s -> (forall md, Q (Ok md) s) ->
  wp (file_metadata tt p) Q s.
Proof. intros H1 H2. apply wp_operation; [done|]. intros n. apply H2. Qed.

(** A stored file that passes has the recorded size and digest. *)
Lemma scan_stored_file_spec p size digest s :
  wp (scan_stored_file p size digest) (fun r s' => s' = s /\
    (r = Ok StoredFileCheck.Healthy -> exists content, files s !! p = Some (Regular content) /\ measures content size digest)) s.
Proof.
  assert (Hno : forall c, c <> StoredFileCheck.Healthy -> s = s /\ (Ok (E := ScanError) c = Ok StoredFileCheck.Healthy ->
    exists content, files s !! p = Some (Regular content) /\ measures content size digest)) by (intros c Hc; split; [done|congruence]).
  unfold scan_stored_file.
  apply wp_bind, wp_attempt, wp_stat; simpl; [by apply wp_ret, Hno|intros _; by apply wp_ret, Hno| |].
  2: { intros md ->. by apply wp_ret, Hno. }
  intros md -> (content & Ef). simpl. apply wp_bind, wp_attempt, wp_open_entry; simpl; [by apply wp_ret, Hno|].
  intros [|]; [|by apply wp_ret, Hno]. apply wp_bind, wp_attempt, wp_file_md; simpl; [by apply wp_ret, Hno|].
  intros before. case_match; [by apply wp_ret, Hno|]. case_match; [by apply wp_ret, Hno|].
  apply wp_bind, wp_attempt, wp_read_file; cbn [then_wp res_map_err]; [by apply wp_ret, Hno|].
  intros b Eb. rewrite Ef in Eb. injection Eb as <-.
  assert (Hread : forall data clean, (clean = true -> data = content) ->
    wp (match scan_hash_reader ([data], clean) size with
        | Err HashReadError.TooLarge => ret StoredFileCheck.SizeMismatch
        | Err HashReadError.Io => ret StoredFileCheck.Unreadable
        | Ok (n, hash) =>
            let! after := attempt (file_metadata tt p) in
            match after with
            | Err _ => ret StoredFileCheck.Unreadable
            | Ok after =>
                if file_changed before after then ret StoredFileCheck.Transient else
                if negb (n =? size) then ret StoredFileCheck.SizeMismatch else
                if negb (eqs hash digest) then ret StoredFileCheck.HashMismatch else ret StoredFileCheck.Healthy
            end
        end) (fun r s' => s' = s /\ (r = Ok (E := ScanError) StoredFileCheck.Healthy ->
          exists content, files s !! p = Some (Regular content) /\ measures content size digest)) s).
  { intros data clean Hclean. destruct (scan_hash_reader _ _) as [[n hash]|[]] eqn:Eh; [|by apply wp_ret, Hno..].
    apply scan_hash_reader_Ok in Eh as (E1 & -> & ->). simpl in E1. rewrite (Hclean E1). simpl. rewrite app_nil_r.
    apply wp_bind, wp_attempt, wp_file_md; simpl; [by apply wp_ret, Hno|]. intros after.
    case_match; [by apply wp_ret, Hno|]. case_match eqn:En; [by apply wp_ret, Hno|]. case_match eqn:Eh; [by apply wp_ret, Hno|].
    apply wp_ret. split; [done|]. intros _. exists content. split; [done|].
    apply negb_false_iff, Z.eqb_eq in En. apply negb_false_iff, eqs_true in Eh. by split. }
  split; [by apply Hread|intros k; by apply Hread].
Qed.

(** *** When nothing fails and the files are at rest *)

Section Still.
Context (p : path) (content : bytes) (s : Store).
Hypothesis Hcalm : forall k, fails k = None.
Hypothesis Hstill : still.
Hypothesis Hfile : files s !! p = Some (Regular content).
Lemma wp_still_stat (Q : res unit (option FileMetadata) -> Store -> Prop) :
  (forall k, Q (Ok (Some (mkFileMetadata true (byte_len content) (stamp k p)))) s) -> wp (symlink_metadata p) Q s.
Proof.
  intros HQ. apply wp_operation_calm; [done|]. intros n. simpl. rewrite Hfile.
  assert (E : exists_in (files s) p = true) by (unfold exists_in; by rewrite bool_decide_true by by rewrite Hfile).
  rewrite E. apply HQ.
Qed.
Lemma wp_still_open (Q : res unit bool -> Store -> Prop) : Q (Ok true) s -> wp (open_without_following_symlinks p) Q s.
Proof.
  intros HQ. apply wp_operation_calm; [done|]. intros n. simpl. rewrite Hfile.
  assert (E : exists_in (files s) p = true) by (unfold exists_in; by rewrite bool_decide_true by by rewrite Hfile).
  by rewrite E.
Qed.
Lemma file_unchanged i j : file_changed (mkFileMetadata true (byte_len content) (stamp i p))
  (mkFileMetadata true (byte_len content) (stamp j p)) = false.
Proof. unfold file_changed. simpl. by rewrite Z.eqb_refl, bool_decide_true by apply Hstill. Qed.

Lemma scan_stored_file_calm size digest : measures content size digest -> size <= u64_max ->
  wp (scan_stored_file p size digest) (fun r s' => s' = s /\ r = Ok StoredFileCheck.Healthy) s.
Proof.
  intros [<- <-] Hmax. destruct (wp_still_file p content s Hcalm Hfile) as (_ & _ & W3 & W4). unfold scan_stored_file.
  apply wp_bind, wp_attempt, wp_still_stat; intros i; simpl. apply wp_bind, wp_attempt, wp_still_open; simpl.
  apply wp_bind, wp_attempt, W3; intros j; simpl. rewrite Z.eqb_refl. simpl. apply wp_bind, wp_attempt, W4; cbn [then_wp res_map_err].
  unfold scan_hash_reader. cbn [scan_hash_reads fst snd]. rewrite checked_add_u64_fits by lia. cbn [ok_or res_bind].
  rewrite Z.add_0_l, Z.ltb_irrefl. apply wp_bind, wp_attempt, W3; intros k; cbn [then_wp].
  rewrite file_unchanged, Z.eqb_refl, eqs_refl. simpl. by apply wp_ret.
Qed.
Lemma scan_artifact_original_calm job : measures content (aj_stored_size_bytes job) (aj_stored_sha256 job) ->
  aj_stored_size_bytes job <= u64_max ->
  wp (scan_artifact_original_file p job) (fun r s' => s' = s /\ forall x, r = Ok x ->
    x = OriginalFileCheck.Healthy \/ x = OriginalFileCheck.StoredInvalid ->
    restores (aj_compression job) content (aj_original_size_bytes job) (aj_original_sha256 job)) s.
Proof.
  intros Hm Hmax. destruct (wp_still_file p content s Hcalm Hfile) as (_ & _ & W3 & W4). unfold scan_artifact_original_file.
  apply wp_bind. eapply wp_mono; [|by apply scan_stored_file_calm]. intros r s' [-> ->]. cbn [then_wp].
  assert (Hno : forall d, s = s /\ forall x, Ok (E := ScanError) (OriginalFileCheck.Mismatch d) = Ok x ->
    x = OriginalFileCheck.Healthy \/ x = OriginalFileCheck.StoredInvalid ->
    restores (aj_compression job) content (aj_original_size_bytes job) (aj_original_sha256 job)).
  { intros d. split; [done|]. intros x [= <-] [?|?]; done. }
  apply wp_bind, wp_attempt, wp_still_open; simpl. apply wp_bind, wp_attempt, W3; intros i; simpl.
  apply wp_bind, wp_attempt, W4; cbn [then_wp].
  destruct (decoder (aj_compression job) ([content], true)) as [reader|] eqn:Ed; [|by apply wp_ret].
  destruct (scan_hash_reader reader (aj_original_size_bytes job)) as [[n hash]|[]] eqn:Eh; [|by apply wp_ret..].
  apply wp_bind, wp_attempt, wp_still_stat; intros k; cbn [then_wp is_file negb]. rewrite file_unchanged.
  destruct (n =? aj_original_size_bytes job) eqn:En; simpl; [|by apply wp_ret].
  destruct (eqs hash (aj_original_sha256 job)) eqn:Es; simpl; [|by apply wp_ret].
  apply wp_ret. split; [done|]. intros _ _ _. apply Z.eqb_eq in En. apply eqs_true in Es.
  apply scan_hash_reader_Ok in Eh as (E1 & -> & ->). exists (concat reader.1). split; [|by split].
  destruct (aj_compression job); simpl in Ed |- *.
  - injection Ed as <-. simpl. by rewrite app_nil_r.
  - rewrite app_nil_r in Ed. destruct (zstd_open content); [|done]. injection Ed as <-. simpl in E1 |- *.
    by rewrite andb_true_r in E1.
Qed.
End Still.

(** Whatever happens, the checks of a file change nothing. *)
Lemma scan_artifact_original_reads p job s : wp (scan_artifact_original_file p job) (fun _ s' => s' = s) s.
Proof.
  unfold scan_artifact_original_file. apply wp_bind. eapply wp_mono; [|apply scan_stored_file_spec].
  intros [c|e] s' [-> _]; [|done]. cbn [then_wp]. destruct c; try by apply wp_ret.
  apply wp_bind, wp_attempt, wp_open_entry; simpl; [by apply wp_ret|]. intros [|]; [|by apply wp_ret].
  apply wp_bind, wp_attempt, wp_file_md; simpl; [by apply wp_ret|]. intros before. case_match; [by apply wp_ret|].
  assert (Hrest : forall r, wp (match decoder (aj_compression job) r with
     | None => ret (OriginalFileCheck.Mismatch "zstd_decode_failed")
     | Some reader => match scan_hash_reader reader (aj_original_size_bytes job) with
       | Err HashReadError.TooLarge => ret (OriginalFileCheck.Mismatch "original_size_mismatch")
       | Err HashReadError.Io => ret (OriginalFileCheck.Mismatch (unreadable_original (aj_compression job)))
       | Ok (size, digest) =>
         let! after := attempt (symlink_metadata p) in
         match after with
         | Err _ | Ok None => ret OriginalFileCheck.Transient
         | Ok (Some after) =>
         if negb (is_file after) then ret OriginalFileCheck.Transient else
         if file_changed before after then ret OriginalFileCheck.Transient else
         if negb (size =? aj_original_size_bytes job) then ret (OriginalFileCheck.Mismatch "original_size_mismatch") else
         if negb (eqs digest (aj_original_sha256 job)) then ret (OriginalFileCheck.Mismatch "original_sha256_mismatch") else
         ret OriginalFileCheck.Healthy
         end end end) (fun (_ : res ScanError _) s' => s' = s) s).
  { intros r. destruct (decoder _ _); [|by apply wp_ret]. destruct (scan_hash_reader _ _) as [[n hash]|[]]; [|by apply wp_ret..].
    apply wp_bind, wp_attempt, wp_stat; simpl; [by apply wp_ret|intros; by apply wp_ret|..];
      intros md Hmd; rewrite Hmd; simpl; intros; repeat case_match; by apply wp_ret. }
  apply wp_bind, wp_attempt, wp_read_file; cbn [then_wp]; [by apply wp_ret|].
  intros b _. split; [apply Hrest|intros k; apply Hrest].
Qed.
End Files.

(* ------------------------------------------------------------------ *)
(** ** Snapshots *)

Section Snapshots.
Context `{EV : Env} `{UL : UuidLib} `{TL : TimeLib} `{ML : MimeLib} `{SL : ShaLib} `{ZL : ZstdLib} `{JL : JsonLib}
  `{FS : FileStamps}.
Context (st : AppState).

Lemma projects_archive d q mrow m : projects d q mrow m -> projects (archive_of d) q mrow m.
Proof. intros [P1 P2 P3 P4 P5 P6]. split; [exact P1|exact P2|exact P3|exact P4|exact P5|exact P6]. Qed.

(** What the job of an artifact certifies. *)
Definition job_verified (v : View) (job : ArtifactJob) : Prop :=
  (forall k, fails k = None) -> still -> aj_stored_size_bytes job <= u64_max ->
  forall content, v.2 !! blob_path (aj_stored_sha256 job) = Some (Regular content) ->
    measures content (aj_stored_size_bytes job) (aj_stored_sha256 job) ->
    restores (aj_compression job) content (aj_original_size_bytes job) (aj_original_sha256 job).

Lemma artifact_is_current_reads job s : wp (artifact_is_current job) (fun _ s' => s' = s) s.
Proof. unfold artifact_is_current. apply wp_bind, wp_lift. destruct (ok_or _ _); simpl; [|done]. by apply wp_query. Qed.
Lemma scan_artifact_job_spec job s : wp (scan_artifact_job job) (fun r s' => db s' = db s /\ files s' = files s /\
  forall x, r = Ok x -> x = OriginalFileCheck.Healthy \/ x = OriginalFileCheck.StoredInvalid -> job_verified (view s) job) s.
Proof.
  assert (Hreads : wp (scan_artifact_job job) (fun _ s' => s' = s) s).
  { unfold scan_artifact_job. apply wp_bind. eapply wp_mono; [|apply artifact_is_current_reads]. intros [[]|e] s' ->; [|by apply wp_ret|done].
    cbn [then_wp negb]. apply wp_bind. eapply wp_mono; [|apply scan_artifact_original_reads]. intros [x|e] s' ->; [|done].
    cbn [then_wp]. apply wp_bind. eapply wp_mono; [|apply artifact_is_current_reads]. intros [[]|e] s' ->; [by apply wp_ret..|done]. }
  intros n. specialize (Hreads n) as E. simpl in E. rewrite E. split_and!; [done..|].
  intros x Ex Hx Hcalm Hstill Hmax content Hf Hm.
  assert (Hwp : wp (scan_artifact_job job) (fun r _ => forall x, r = Ok x ->
    x = OriginalFileCheck.Healthy \/ x = OriginalFileCheck.StoredInvalid ->
    restores (aj_compression job) content (aj_original_size_bytes job) (aj_original_sha256 job)) s); [|by apply (Hwp n x)].
  unfold scan_artifact_job. apply wp_bind. eapply wp_mono; [|apply artifact_is_current_reads]. intros [[]|e] s' ->; [| |done].
  2: { apply wp_ret. by intros ? [= <-] [?|?]. }
  cbn [then_wp negb]. apply wp_bind. eapply wp_mono; [|by apply (scan_artifact_original_calm _ content s Hcalm Hstill Hf)].
  intros [y|e] s' [-> Hy]; [|done]. cbn [then_wp]. apply wp_bind. eapply wp_mono; [|apply artifact_is_current_reads].
  intros [[]|e] s' ->; [| |done]; apply wp_ret; intros ? [= <-]; [by apply Hy|by intros [?|?]].
Qed.
Lemma scans_artifact_jobs jobs : scans (fun v _ => Forall (job_verified v) jobs) (scan_artifact_jobs jobs).
Proof.
  unfold scan_artifact_jobs.
  apply (scans_jobs _ _ (fun v j x => x = OriginalFileCheck.Healthy \/ x = OriginalFileCheck.StoredInvalid -> job_verified v j)).
  - apply scan_artifact_job_spec.
  - intros j []; simpl; [apply scans_ret; by auto..| |]; apply scans_unhealthy; auto.
Qed.

(** The job that [artifact_jobs] makes of an artifact in its place. *)
Definition job_of (id : string) (a : Artifact) (row : ArtifactRow.row) (h : string) (b : Blob.row) : ArtifactJob :=
  mkArtifactJob id (ArtifactRow.id row) (ArtifactRow.blob_id row) (Blob.stored_sha256 b) (stored_size_bytes a) h
    (original_size_bytes a) (compression a).
Definition job_made (id : string) (rows : list (ArtifactRow.row * option Blob.row)) (k : Z) (a : Artifact) (jobs : list ArtifactJob) : Prop :=
  forall row b, select_one (fun r => ArtifactRow.artifact_index r.1 =? k) rows = Some (row, Some b) ->
    row_matches k a (row, b) -> exists h, document_digest (original_sha256 a) = Some h /\ job_of id a row h b ∈ jobs.
Lemma document_digest_Some v h : document_digest v = Some h -> digest_storage_value v = h /\ v = "sha256:" +:+ h.
Proof.
  unfold document_digest. intros (t & Ep & [-> _]%storage_digest_Some)%bind_Some.
  unfold digest_storage_value. rewrite Ep. split; [done|]. by apply strip_prefix_Some.
Qed.
Lemma scans_artifact_job id rows k a : scans (fun _ oj => job_made id rows k a (option_list oj)) (artifact_job st id rows k a).
Proof.
  unfold artifact_job. eapply (scans_bind (fun _ i => i = k)).
  { apply scans_observe. intros s. apply wp_lift. split_and!; [done..|]. intros i.
    destruct (u64_to_i64 k) eqn:E; simpl; [|done]. by apply u64_to_i64_Some in E as [-> _]; intros [= <-]. }
  intros i.
  destruct (select_one (fun r => ArtifactRow.artifact_index r.1 =? i) rows) as [[row [b|]]|] eqn:Esel.
  2: { apply scans_ret. intros v -> row' b E. by rewrite Esel in E. }
  2: { apply scans_ret. intros v -> row' b E. by rewrite Esel in E. }
  assert (Hbad : forall kind detail, scans (fun _ oj => i = k -> job_made id rows k a (option_list oj))
    (do! _ := record kind Error (Some id) (Some (ArtifactRow.id row)) (Some (ArtifactRow.blob_id row)) detail in sret None)).
  { intros kind detail. eapply (scans_bind (fun _ _ => False)); [apply scans_unhealthy; by left|]. intros []. by apply scans_ret. }
  destruct (document_digest (stored_sha256 a)) as [stored|] eqn:Es; [|apply Hbad].
  destruct (document_digest (original_sha256 a)) as [original|] eqn:Eo; [|apply Hbad].
  destruct (_ || _); [apply Hbad|]. apply document_digest_Some in Es as [Es _].
  case_match eqn:Ec; apply scans_ret; intros v -> row' b' E [_ _ _ _ _ E6 E7 E8 (_ & _ & E9)]; rewrite Esel in E; injection E as <- <-;
    cbn [fst snd] in *.
  - exfalso. rewrite E6, E7, E8, <-Es, eqs_refl, u64_to_i64_fits, bool_decide_true in Ec by done.
    by destruct (compression a); rewrite ?eqs_refl in Ec.
  - exists original. split; [done|]. unfold job_of. rewrite E7, Es. left.
Qed.
Lemma scans_artifact_jobs_from id rows arts : forall i,
  scans (fun _ jobs => forall k a, arts !! k = Some a -> job_made id rows (i + Z.of_nat k) a jobs)
    (artifact_jobs_from st id rows i arts).
Proof.
  induction arts as [|a arts IH]; intros i; cbn [artifact_jobs_from]; [by apply scans_ret|].
  eapply scans_bind; [apply scans_artifact_job|]. intros oj. eapply scans_bind; [apply IH|]. intros jobs. apply scans_ret.
  intros v Hrest Hjob [|k] a' Ha.
  - injection Ha as <-. rewrite Z.add_0_r. intros row b H1 H2. destruct (Hjob row b H1 H2) as (h & Eh & Hin). exists h.
    split; [done|]. destruct oj; [|by apply elem_of_nil in Hin]. apply list_elem_of_singleton in Hin as ->. left.
  - replace (i + Z.of_nat (S k)) with (i + 1 + Z.of_nat k) by lia. intros row b H1 H2.
    destruct (Hrest k a' Ha row b H1 H2) as (h & Eh & Hin). exists h. split; [done|]. destruct oj; [by right|done].
Qed.
Lemma scans_make_jobs id m :
  scans (fun v jobs => forall k a, artifacts m !! k = Some a -> job_made id (artifact_projection id v.1) (Z.of_nat k) a jobs)
    (artifact_jobs st id m).
Proof.
  unfold artifact_jobs. eapply (scans_bind (fun v rows => rows = artifact_projection id v.1)); [by apply scans_query|].
  intros rows. eapply scans_mono; [apply scans_artifact_jobs_from|]. intros v jobs Hj -> k a Ha. by apply Hj.
Qed.

(** The bytes of a blob restore the original of a row. *)
Definition row_restored (fs : Files) (a : ArtifactRow.row) (b : Blob.row) : Prop :=
  exists c content, parse (Blob.compression b) = Some c /\ fs !! blob_path (Blob.stored_sha256 b) = Some (Regular content)
    /\ restores c content (ArtifactRow.original_size_bytes a) (ArtifactRow.original_sha256 a).
(** A live snapshot that a scan found healthy: its rows are the projection of
    its manifest, which is valid; and when the manifest lists its artifacts in
    the order it is normalized to, no row refers to a blob that is not there and nothing failed, the blobs that
    are intact restore the originals of their artifacts. *)
Record snapshot_verified (v : View) (q : Snapshot.row) (mrow : ManifestRow.row) (m m' : Manifest) : Prop := {
  sv_live : live_snapshot_by_id (Snapshot.id q) v.1 = Some q;
  sv_projects : projects v.1 q mrow m;
  sv_valid : validate_manifest_schema m (manifest_limits st) = Some m';
  sv_restored : artifacts m' = artifacts m -> dangling v.1 = [] -> (forall k, fails k = None) -> still ->
    forall a b, (a, b) ∈ rows_of_snapshot (Snapshot.id q) v.1 -> blob_file v.2 (stored_blob b) -> row_restored v.2 a b;
}.

Lemma elem_of_projection id d a ob : (a, ob) ∈ artifact_projection id d <->
  a ∈ artifact_rows d /\ ArtifactRow.snapshot_id a = id /\ ob = blob_by_id (ArtifactRow.blob_id a) d.
Proof.
  unfold artifact_projection. rewrite merge_sort_Permutation, list_elem_of_fmap. split.
  - intros (x & [= -> ->] & [E%eqs_true Hx]%elem_of_select). done.
  - intros (Ha & E & ->). exists a. split; [done|]. apply elem_of_select. by rewrite eqs_true.
Qed.
Lemma elem_of_rows id d a b : (a, b) ∈ rows_of_snapshot id d <->
  a ∈ artifact_rows d /\ ArtifactRow.snapshot_id a = id /\ blob_by_id (ArtifactRow.blob_id a) d = Some b.
Proof.
  unfold rows_of_snapshot. rewrite merge_sort_Permutation, list_elem_of_omap. unfold join_blob. split.
  - intros (x & [E%eqs_true Hx]%elem_of_select & Ej). destruct (blob_by_id _ _) eqn:Eb; [|done]. simpl in Ej. by injection Ej as -> ->.
  - intros (Ha & E & Eb). exists a. split; [apply elem_of_select; by rewrite eqs_true|]. by rewrite Eb.
Qed.
(** The row of an index, when every row has its blob. *)
Lemma projection_find id d arts k art a b : dangling d = [] -> is_Some (live_snapshot_by_id id d) ->
  rows_match 0 arts (rows_of_snapshot id d) -> arts !! k = Some art -> row_matches (Z.of_nat k) art (a, b) ->
  (a, b) ∈ rows_of_snapshot id d ->
  select_one (fun r => ArtifactRow.artifact_index r.1 =? Z.of_nat k) (artifact_projection id d) = Some (a, Some b).
Proof.
  intros Hd Hlive Hm Hk [Ei _ _ _ _ _ _ _ _] Hin. simpl in Ei.
  destruct (rows_match_Sorted _ _ _ Hm) as (_ & _ & Hn).
  destruct (select_one _ _) as [[a' ob]|] eqn:E.
  - apply select_one_Some in E as [Ei'%Z.eqb_eq Hin']. simpl in Ei'. apply elem_of_projection in Hin' as (Ha' & Eid & ->).
    destruct (blob_by_id (ArtifactRow.blob_id a') d) as [b'|] eqn:Eb.
    + assert ((a', b') = (a, b)) as [= -> ->]; [|done].
      apply (NoDup_key_inj (fun rb => ArtifactRow.artifact_index rb.1) (rows_of_snapshot id d)); [done| |done|simpl; congruence].
      by apply elem_of_rows.
    + exfalso. eapply (not_elem_of_nil a'). rewrite <-Hd. apply elem_of_select. split; [|done].
      rewrite Eid, Eb, !bool_decide_true by done. done.
  - exfalso. apply elem_of_rows in Hin as (Ha & Eid & Eb). rewrite select_one_None in E.
    specialize (E (a, Some b)). simpl in E. rewrite Ei, Z.eqb_refl in E. discriminate E.
    apply elem_of_projection. by rewrite Eb.
Qed.

Lemma jobs_restore v q mrow m jobs : projects v.1 q mrow m -> live_snapshot_by_id (Snapshot.id q) v.1 = Some q ->
  (forall k a, artifacts m !! k = Some a -> job_made (Snapshot.id q) (artifact_projection (Snapshot.id q) v.1) (Z.of_nat k) a jobs) ->
  Forall (job_verified v) jobs -> dangling v.1 = [] -> (forall k, fails k = None) -> still ->
  forall a b, (a, b) ∈ rows_of_snapshot (Snapshot.id q) v.1 -> blob_file v.2 (stored_blob b) -> row_restored v.2 a b.
Proof.
  intros Hp Hl Hj HF Hd Hcalm Hstill a b Hin (content & Hf & Hm). cbn [stored_blob sb_digest sb_size] in Hf, Hm.
  destruct (rows_match_lookup _ _ _ a b (pj_rows _ _ _ _ Hp) Hin) as (k & art & Hk & Hr). rewrite Z.add_0_l in Hr.
  pose proof (projection_find _ _ _ k art a b Hd (mk_is_Some _ _ Hl) (pj_rows _ _ _ _ Hp) Hk Hr Hin) as Hsel.
  destruct (Hj k art Hk a b Hsel Hr) as (h & Eh & Hjob). rewrite Forall_forall in HF. specialize (HF _ Hjob Hcalm Hstill).
  destruct Hr as [_ _ _ E4 E5 E6 _ E8 (_ & _ & Hfit)]. cbn [fst snd] in *. unfold job_of in HF. simpl in HF. rewrite <-E6 in HF, Hfit.
  apply document_digest_Some in Eh as [Eh _]. exists (compression art), content. split_and!; [by rewrite E8; apply parse_as_str|done|].
  rewrite E4, E5, Eh. apply HF; [unfold i64_max, u64_max in *; lia|done|done].
Qed.

Lemma scans_snapshot row : scans (fun v _ => NoDup (Snapshot.id <$> snapshots v.1) -> ss_deleted_at row = None ->
    exists q mrow m m', Snapshot.id q = ss_id row /\ snapshot_verified v q mrow m m') (scan_snapshot st row).
Proof.
  unfold scan_snapshot.
  assert (Hbad : forall (P : View -> unit -> Prop) kind d, scans P (record kind Error (Some (ss_id row)) None None d)).
  { intros. apply scans_unhealthy. by left. }
  eapply (scans_bind (fun _ _ => True)).
  { destruct (bool_decide _); [destruct (bool_decide _)|]; [eapply scans_weaken, scans_record..|by apply scans_ret]. }
  intros []. destruct (ss_manifest_row_id row) as [mid|], (ss_manifest_size_bytes row) as [size|]; try (by apply Hbad).
  eapply (scans_bind (fun _ _ => True)).
  { apply scans_observe. intros s. by apply wp_lift. }
  intros size'. destruct (_ <? _); [by apply Hbad|].
  eapply (scans_bind (fun v document => forall r, document = Some r -> exists max, manifest_document (ss_id row) max v.1 = Some r)).
  { apply scans_observe. intros s. unfold load_manifest_document. apply wp_bind, wp_lift.
    destruct (u64_to_i64 _) as [max|]; simpl; [|done]. apply wp_query; [done|]. split_and!; [done..|]. intros a [= <-] r Hr. by exists max. }
  intros [document|]; [|apply scans_unhealthy; by right].
  destruct (analyze_manifest _ _) as [[hash manifest] detail] eqn:Ea.
  eapply (scans_bind (fun _ _ => True)).
  { destruct (negb _); [eapply scans_weaken, scans_record|by apply scans_ret]. }
  intros []. destruct manifest as [m'|]; [|by apply Hbad]. destruct (bool_decide _) eqn:Edel.
  { apply scans_ret. intros v _ _ _ _ _ Hdel. rewrite Hdel in Edel. by rewrite bool_decide_false in Edel by (by intros [? ?]). }
  eapply (scans_bind (fun v r => match r with
    | Ok _ => exists q mrow m, live_snapshot_by_id (ss_id row) v.1 = Some q /\ projects v.1 q mrow m | Err _ => True end)).
  { apply scans_observe. intros s. apply wp_attempt. eapply wp_mono; [|apply reconcile_snapshot_spec].
    intros r s' [-> Hr]. split_and!; [done..|]. intros r' [= <-]. destruct r; [|done].
    destruct Hr as (q & mrow & m & Hq & Hp). exists q, mrow, m. split; [exact Hq|by apply projects_archive]. }
  intros [[]|[]]; [|apply scans_unhealthy; by right|apply scans_throw|].
  2: { eapply (scans_bind (fun _ _ => False)); [by apply Hbad|]. intros []. eapply scans_bind; [apply scans_make_jobs|].
       intros jobs. eapply scans_mono; [apply scans_artifact_jobs|]. by intros v [] _ _ ?. }
  eapply scans_bind; [apply scans_make_jobs|]. intros jobs. eapply scans_mono; [apply scans_artifact_jobs|].
  intros v [] HF Hj (q & mrow & m & Hq & Hp) _ Hdoc _ _ Hn _. pose proof (live_in _ _ _ Hq) as (Hqin & _ & Hid).
  destruct (Hdoc document eq_refl) as (max & Hmd). unfold manifest_document in Hmd.
  apply bind_Some in Hmd as (q' & Hq' & (mr & Hmr & Hif)%bind_Some). case_match; [|done]. injection Hif as ->.
  assert (q' = q) as ->.
  { apply select_one_Some in Hq' as [E%eqs_true Hin]. apply (NoDup_key_inj Snapshot.id (snapshots v.1)); [done..|congruence]. }
  assert (document = mrow) as -> by (pose proof (pj_manifest _ _ _ _ Hp); congruence).
  unfold analyze_manifest in Ea. rewrite (pj_json _ _ _ _ Hp) in Ea. simpl in Ea. injection Ea as _ Ev _.
  exists q, mrow, m, m'. split; [done|]. rewrite <-Hid in Hq, Hj. split; [done..|].
  intros Em Hd Hcalm Hstill. rewrite Em in Hj. by apply (jobs_restore v q mrow m jobs).
Qed.
Lemma scans_scan_snapshots : scans (fun v _ => keyed ss_id snapshot_scan_rows v ->
  forall q, q ∈ snapshots v.1 -> live q = true -> exists mrow m m', snapshot_verified v q mrow m m') (scan_snapshots st).
Proof.
  unfold scan_snapshots. eapply scans_mono.
  { apply (scans_pages ss_id snapshot_scan_rows _ (fun v row => NoDup (Snapshot.id <$> snapshots v.1) -> ss_deleted_at row = None ->
      exists q mrow m m', Snapshot.id q = ss_id row /\ snapshot_verified v q mrow m m')); [done|].
    intros rs. apply (scans_each (fun v row => NoDup (Snapshot.id <$> snapshots v.1) -> ss_deleted_at row = None ->
      exists q mrow m m', Snapshot.id q = ss_id row /\ snapshot_verified v q mrow m m')), scans_snapshot. }
  intros v [] HF Hk q Hq Hl. specialize (HF Hk). destruct Hk as [Hn _].
  assert (E : ss_id <$> snapshot_scan_rows v.1 = Snapshot.id <$> snapshots v.1).
  { unfold snapshot_scan_rows. rewrite <-list_fmap_compose. done. }
  rewrite E in Hn. rewrite Forall_forall in HF. unfold snapshot_scan_rows in HF.
  specialize (HF _ (list_elem_of_fmap_2 _ _ _ Hq) Hn). simpl in HF.
  destruct HF as (q' & mrow & m & m' & Hid & Hv).
  - unfold live in Hl. by apply bool_decide_eq_true in Hl.
  - assert (q' = q) as ->; [|by exists mrow, m, m'].
    pose proof (live_in _ _ _ (sv_live _ _ _ _ _ Hv)) as (Hin & _ & _). by apply (NoDup_key_inj Snapshot.id (snapshots v.1)).
Qed.
End Snapshots.
