(* ===== verification/Certification.v ===== *)
(** The end of a scan: the blobs and the blob directory, what a healthy report
    certifies, and the account that a run leaves in the history. *)
From stdpp Require Import prelude strings gmap sorting list.
From Stdlib Require Import ZArith Ascii Lia.
From Stdlib.Strings Require Import Byte.
From S2P Require Import Prelude Errors Contract Externals Validation Chunks Fingerprint Pagination.
From S2P Require Import Tables Store Storage Uploads Receipts Completion Deletion Archive Collection.
From S2P Require Import Reconcile Canonical Download Delivery Integrity Scanning.

Section Blobs.
Context `{EV : Env} `{UL : UuidLib} `{TL : TimeLib} `{SL : ShaLib} `{FS : FileStamps}.
Context (st : AppState).

(** A blob a scan found healthy: its metadata are in range, its file has the
    recorded size and digest, and it is a candidate for collection just when no
    live artifact refers to it. *)
Record blob_verified (v : View) (b : Blob.row) : Prop := {
  bv_digest : is_storage_digest (Blob.stored_sha256 b) = true;
  bv_size : 0 <= Blob.stored_size_bytes b <= max_artifact_stored_bytes st;
  bv_compression : is_Some (parse (T := Compression) (Blob.compression b));
  bv_file : blob_file v.2 (stored_blob b);
  bv_candidate : if has_live_reference (Blob.id b) v.1
    then Blob.orphaned_at b = None /\ Blob.eligible_after b = None /\ Blob.eligible_after_seq b = None
    else is_Some (Blob.orphaned_at b) /\ is_Some (Blob.eligible_after b) /\ is_Some (Blob.eligible_after_seq b);
}.
Definition candidacy (row : Blob.row * bool) : Prop :=
  if row.2
  then Blob.orphaned_at row.1 = None /\ Blob.eligible_after row.1 = None /\ Blob.eligible_after_seq row.1 = None
  else is_Some (Blob.orphaned_at row.1) /\ is_Some (Blob.eligible_after row.1) /\ is_Some (Blob.eligible_after_seq row.1).

Lemma scans_blob_liveness row now_seq : scans (fun _ _ => candidacy row) (record_blob_liveness row now_seq).
Proof.
  destruct row as [b live]. unfold record_blob_liveness, candidacy. cbn [fst snd].
  assert (Hbad : forall (P : View -> unit -> Prop) kind sv d, sv <> Info ->
    scans P (record kind sv None None (Some (Blob.id b)) d)) by (intros; apply scans_unhealthy; by left).
  destruct live.
  - destruct (Blob.orphaned_at b), (Blob.eligible_after b), (Blob.eligible_after_seq b);
      try (rewrite bool_decide_true by done; cbn [orb]; by apply Hbad);
      rewrite ?(bool_decide_true (is_Some (Some _))), ?(bool_decide_false (is_Some None)) by (done || by intros [? ?]);
      cbn [orb]; try (by apply Hbad). by apply scans_ret.
  - destruct (Blob.orphaned_at b), (Blob.eligible_after b), (Blob.eligible_after_seq b); try by apply Hbad.
    destruct (now_seq <? _); [|by apply Hbad]. eapply scans_mono; [apply scans_record|]. done.
Qed.
Lemma blob_by_id_in d b : NoDup (Blob.id <$> blobs d) -> b ∈ blobs d -> blob_by_id (Blob.id b) d = Some b.
Proof.
  intros Hn Hb. unfold blob_by_id. destruct (select_one _ _) as [b'|] eqn:E.
  - apply select_one_Some in E as [E%eqs_true Hb']. f_equal. by apply (NoDup_key_inj Blob.id (blobs d)).
  - rewrite select_one_None in E. specialize (E b Hb). by rewrite eqs_refl in E.
Qed.
Lemma elem_of_blob_scan row d : row ∈ blob_scan_rows d -> row.1 ∈ blobs d /\ row = blob_scan_row d row.1.
Proof. unfold blob_scan_rows. by intros (b & -> & Hb)%list_elem_of_fmap. Qed.

Lemma scans_classify row now_seq : scans (fun v _ => NoDup (Blob.id <$> blobs v.1) -> row ∈ blob_scan_rows v.1 -> candidacy row)
  (classify_blob_liveness row now_seq).
Proof.
  unfold classify_blob_liveness. destruct (is_storage_digest _).
  - eapply (scans_bind (fun v o => o = blob_scan_row v.1 <$> blob_by_id (Blob.id row.1) v.1)).
    { apply scans_query. intros d fs. cbn [fst]. unfold blob_by_id. destruct (select_one _ _); done. }
    intros [current|]; [|apply scans_unhealthy; by right].
    eapply scans_mono; [apply scans_blob_liveness|]. intros v [] Hc E Hn [Hb Er]%elem_of_blob_scan.
    rewrite (blob_by_id_in _ _ Hn Hb) in E. simpl in E. injection E as ->. by rewrite Er.
  - eapply scans_mono; [apply scans_blob_liveness|]. done.
Qed.

(** The job of a blob whose metadata are in range. *)
Definition blob_job (b : Blob.row) : BlobJob := mkBlobJob (Blob.id b) (Blob.stored_sha256 b) (Blob.stored_size_bytes b).
Record blob_classified (row : Blob.row * bool) (jobs : list BlobJob) : Prop := {
  bc_digest : is_storage_digest (Blob.stored_sha256 row.1) = true;
  bc_size : 0 <= Blob.stored_size_bytes row.1 <= max_artifact_stored_bytes st;
  bc_compression : is_Some (parse (T := Compression) (Blob.compression row.1));
  bc_candidacy : candidacy row;
  bc_job : blob_job row.1 ∈ jobs;
}.
Lemma scans_blob_jobs now_seq rows : scans (fun v jobs => NoDup (Blob.id <$> blobs v.1) ->
    Forall (fun row => row ∈ blob_scan_rows v.1 -> blob_classified row jobs) rows) (blob_jobs st now_seq rows).
Proof.
  induction rows as [|row rows IH]; cbn [blob_jobs]; [by apply scans_ret|].
  eapply scans_bind; [apply scans_classify|]. intros [].
  destruct (negb _ || _ || _) eqn:Ebad.
  { eapply (scans_bind (fun _ _ => False)); [apply scans_unhealthy; by left|]. intros []. eapply scans_weaken in IH.
    eapply scans_mono; [exact IH|]. by intros v jobs _ []. }
  apply orb_false_iff in Ebad as [[E1%negb_false_iff E2%negb_false_iff]%orb_false_iff E3%negb_false_iff].
  eapply scans_bind; [exact IH|]. intros jobs. apply scans_ret. intros v Hrest Hc Hn. constructor.
  - intros Hin. split; [done|lia| |by apply Hc|left].
    apply orb_true_iff in E3 as [E3%eqs_true|E3%eqs_true]; rewrite E3; [by exists Identity|by exists Zstd].
  - eapply Forall_impl; [by apply Hrest|]. intros r Hr Hin. destruct (Hr Hin). split; [done..|by right].
Qed.

Lemma scan_blob_job_spec job s : wp (scan_blob_job job) (fun r s' => db s' = db s /\ files s' = files s /\
  forall x, r = Ok x -> x = StoredFileCheck.Healthy ->
    exists content, (view s).2 !! blob_path (bj_stored_sha256 job) = Some (Regular content)
      /\ measures content (bj_stored_size_bytes job) (bj_stored_sha256 job)) s.
Proof.
  assert (Hcur : forall Q, (forall e, Q (Err e) s) -> (forall b, Q (Ok b) s) -> wp (blob_is_current job) Q s).
  { intros Q H1 H2. unfold blob_is_current. apply wp_bind, wp_lift. destruct (ok_or _ _); simpl; [|by apply H1].
    apply wp_query; [intros; apply H1|apply H2]. }
  assert (Hno : db s = db s /\ files s = files s /\ forall x, Ok (E := ScanError) StoredFileCheck.Transient = Ok x ->
    x = StoredFileCheck.Healthy -> exists content, (view s).2 !! blob_path (bj_stored_sha256 job) = Some (Regular content)
      /\ measures content (bj_stored_size_bytes job) (bj_stored_sha256 job)) by (split_and!; [done..|by intros x [= <-]]).
  unfold scan_blob_job. apply wp_bind, Hcur; [by intros|]. intros [|]; cbn [then_wp negb]; [|by apply wp_ret, Hno].
  apply wp_bind. eapply wp_mono; [|apply scan_stored_file_spec]. intros [c|e] s' [-> Hc]; [|done]. cbn [then_wp].
  apply wp_bind, Hcur; [by intros|]. intros [|]; cbn [then_wp negb]; [|by apply wp_ret, Hno].
  apply wp_ret. split_and!; [done..|]. intros x [= <-] ->. by apply Hc.
Qed.
Lemma scans_scan_blob_jobs jobs : scans (fun v _ => Forall (fun j =>
    exists content, v.2 !! blob_path (bj_stored_sha256 j) = Some (Regular content)
      /\ measures content (bj_stored_size_bytes j) (bj_stored_sha256 j)) jobs) (scan_blob_jobs jobs).
Proof.
  unfold scan_blob_jobs. eapply (scans_jobs _ _ (fun v j x => x = StoredFileCheck.Healthy ->
    exists content, v.2 !! blob_path (bj_stored_sha256 j) = Some (Regular content)
      /\ measures content (bj_stored_size_bytes j) (bj_stored_sha256 j))).
  - apply scan_blob_job_spec.
  - intros j []; simpl; [apply scans_ret; by auto|..]; apply scans_unhealthy; auto.
Qed.

Lemma scans_blob_rows : scans (fun v _ => keyed Blob.id blobs v -> Forall (blob_verified v) (blobs v.1)) (scan_blob_rows st).
Proof.
  unfold scan_blob_rows. eapply (scans_bind (fun _ _ => True)).
  { apply scans_observe. intros s. apply wp_now. intros t. done. }
  intros t. eapply scans_mono.
  { apply (scans_pages (fun row => Blob.id row.1) blob_scan_rows _
      (fun v row => NoDup (Blob.id <$> blobs v.1) -> row ∈ blob_scan_rows v.1 -> blob_verified v row.1)); [done|].
    intros rs. eapply scans_bind; [apply scans_blob_jobs|]. intros jobs. eapply scans_mono; [apply scans_scan_blob_jobs|].
    intros v [] HF Hc. apply Forall_forall. intros row Hr Hn Hin. pose proof (proj1 (Forall_forall _ _) (Hc Hn)) as Hc'. rewrite Forall_forall in HF.
    destruct (Hc' row Hr Hin) as [C1 C2 C3 C4 C5]. destruct (elem_of_blob_scan _ _ Hin) as [_ Er]. split; [done..| |].
    - apply (HF _ C5).
    - rewrite Er in C4. exact C4. }
  intros v [] HF _ [Hn Hne]. assert (E : (fun row : Blob.row * bool => Blob.id row.1) <$> blob_scan_rows v.1 = Blob.id <$> blobs v.1).
  { unfold blob_scan_rows. by rewrite <-list_fmap_compose. }
  assert (Hk : keyed (fun row : Blob.row * bool => Blob.id row.1) blob_scan_rows v) by (unfold keyed; rewrite E; done).
  specialize (HF Hk). rewrite Forall_forall in HF. apply Forall_forall. intros b Hb.
  assert (Hin : blob_scan_row v.1 b ∈ blob_scan_rows v.1) by by apply list_elem_of_fmap_2.
  apply (HF _ Hin Hn Hin).
Qed.
End Blobs.

(* ------------------------------------------------------------------ *)
(** ** The blob directory *)

Section Inventory.
Context `{EV : Env} `{UL : UuidLib} `{TL : TimeLib} `{FS : FileStamps}.
Context (st : AppState).

(** An entry of a shard is a write in progress or the file of a blob. *)
Definition shard_entry (d : Db) (shard name : string) : Prop :=
  temporary_storage_name name = true
  \/ is_Some (strip_prefix shard name)
     /\ exists b, b ∈ blobs d /\ Blob.owner_namespace b = Storage.owner_namespace st /\ Blob.stored_sha256 b = name.
Definition shard_entries (d : Db) (f : Files) (shard : string) : Prop :=
  forall name, name ∈ entry_names ["blobs"; "sha256"; shard] f -> shard_entry d shard name.
Definition sha256_entries (d : Db) (f : Files) : Prop :=
  forall name, name ∈ entry_names ["blobs"; "sha256"] f ->
    temporary_storage_name name = true \/ shard_name name = true /\ shard_entries d f name.
Definition root_entries (d : Db) (f : Files) : Prop :=
  forall name, name ∈ entry_names ["blobs"] f ->
    temporary_storage_name name = true \/ name = "sha256" /\ sha256_entries d f.

Lemma entry_exists dir f name : name ∈ entry_names dir f -> exists_in f (dir ++ [name]) = true.
Proof.
  intros (rest & Hs)%elem_of_entry_names. unfold exists_in. apply orb_true_iff. destruct rest as [|x rest].
  - left. by apply bool_decide_eq_true.
  - right. unfold is_dir_in. apply orb_true_iff. right. apply negb_true_iff, bool_decide_eq_false. intros E.
    assert (Hx : x ∈ entry_names (dir ++ [name]) f) by (apply elem_of_entry_names; exists rest; by rewrite <-app_assoc).
    rewrite E in Hx. by apply elem_of_nil in Hx.
Qed.
Lemma scans_entries dir (body : string -> Scan unit) (R : View -> string -> Prop) :
  (forall name, scans (fun v _ => R v name) (body name)) ->
  scans (fun v _ => forall name, name ∈ entry_names dir v.2 -> R v name) (scan_entries dir body).
Proof.
  intros Hb. unfold scan_entries. eapply (scans_bind (fun v names => names = entry_names dir v.2)).
  { apply scans_observe. intros s. apply wp_read_dir; split_and!; try done. by intros ? [= <-]. }
  intros names. eapply (scans_bind (fun v _ => Forall (R v) names)).
  { apply (scans_each R). intros name. eapply (scans_bind (fun _ _ => True)).
    - apply scans_observe. intros s. by apply wp_next_entry.
    - intros []. eapply scans_mono; [apply Hb|done]. }
  intros []. apply scans_observe. intros s. apply wp_next_entry; split_and!; try done.
  intros [] _ HF ->. by apply Forall_forall.
Qed.
Lemma scans_unexpected (P : View -> unit -> Prop) detail : scans P (unexpected_file detail).
Proof. apply scans_unhealthy. by left. Qed.
Lemma scans_is_dir p : scans (fun _ _ => True) (observe (is_dir p)).
Proof. apply scans_observe. intros s. apply wp_operation; [done|]. by intros n. Qed.

Lemma scans_unowned shard name : scans (fun v _ => (forall k, fails k = None) ->
    name ∈ entry_names ["blobs"; "sha256"; shard] v.2 ->
    exists b, b ∈ blobs v.1 /\ Blob.owner_namespace b = Storage.owner_namespace st /\ Blob.stored_sha256 b = name)
  (record_unowned_blob_file_if_current st name ["blobs"; "sha256"; shard; name]).
Proof.
  unfold record_unowned_blob_file_if_current.
  eapply (scans_bind (fun v known => known = existsb (fun b => eqs (Blob.owner_namespace b) (Storage.owner_namespace st)
    && eqs (Blob.stored_sha256 b) name) (blobs v.1))).
  { by apply scans_query. }
  intros [|].
  - apply scans_ret. intros v E _ _. symmetry in E. apply existsb_exists in E as (b & Hb & [E1%eqs_true E2%eqs_true]%andb_true_iff).
    exists b. split; [by apply list_elem_of_In|done].
  - eapply (scans_bind (fun v found => (forall k, fails k = None) -> exists_in v.2 ["blobs"; "sha256"; shard; name] = true ->
      exists md, found = Ok (Some md))).
    { apply scans_observe. intros s. apply wp_attempt.
      eapply (wp_mono _ (fun r s' => s' = s /\ ((forall k, fails k = None) -> exists_in (files s) ["blobs"; "sha256"; shard; name] = true ->
        exists md, r = Ok (Some md)))).
      - intros r s' [-> Hr]. split_and!; [done..|]. intros a [= <-]. exact Hr.
      - intros n. unfold symlink_metadata, operation. destruct (fails n) eqn:En.
        + split; [done|]. intros Hc. by rewrite Hc in En.
        + cbn beta iota. split; [done|]. intros _ ->. by eexists. }
    intros [[md|]|].
    + apply scans_unexpected.
    + apply scans_ret. intros v Hf _ Hc Hn%entry_exists. by destruct (Hf Hc Hn).
    + apply scans_ret. intros v Hf _ Hc Hn%entry_exists. by destruct (Hf Hc Hn).
Qed.
Lemma scans_blob_shard shard : scans (fun v _ => (forall k, fails k = None) -> shard_entries v.1 v.2 shard) (inventory_blob_shard st shard).
Proof.
  unfold inventory_blob_shard. eapply scans_mono.
  { apply (scans_entries _ _ (fun v name => (forall k, fails k = None) -> name ∈ entry_names ["blobs"; "sha256"; shard] v.2 ->
      shard_entry v.1 shard name)).
    intros name. destruct (temporary_storage_name name) eqn:Et; [apply scans_ret; intros; by left|].
    eapply scans_bind; [apply scans_is_dir|]. intros dir. destruct (is_storage_digest name && _) eqn:Ed; [|apply scans_unexpected].
    apply andb_true_iff in Ed as [_ Ed%bool_decide_eq_true].
    eapply scans_mono; [apply scans_unowned|]. intros v [] Hb _ Hc Hn. right. split; [done|by apply Hb]. }
  intros v [] Hb Hc name Hn. by apply Hb.
Qed.
Lemma scans_sha256_directory : scans (fun v _ => (forall k, fails k = None) -> sha256_entries v.1 v.2) (inventory_sha256_directory st).
Proof.
  unfold inventory_sha256_directory. eapply scans_mono.
  { apply (scans_entries _ _ (fun v name => (forall k, fails k = None) ->
      temporary_storage_name name = true \/ shard_name name = true /\ shard_entries v.1 v.2 name)).
    intros name. destruct (temporary_storage_name name) eqn:Et; [apply scans_ret; intros; by left|].
    eapply scans_bind; [apply scans_is_dir|]. intros dir. destruct (dir && shard_name name) eqn:Ed; [|apply scans_unexpected].
    apply andb_true_iff in Ed as [_ Ed].
    eapply scans_mono; [apply scans_blob_shard|]. intros v [] Hs _ Hc. right. split; [done|by apply Hs]. }
  intros v [] Hb Hc name Hn. by apply Hb.
Qed.
Lemma scans_blob_files : scans (fun v _ => (forall k, fails k = None) -> root_entries v.1 v.2) (inventory_blob_files st).
Proof.
  unfold inventory_blob_files. eapply (scans_bind (fun _ _ => True)).
  { apply scans_observe. intros s. apply wp_operation; [done|]. by intros n. }
  intros [|]; [|apply scans_unexpected]. eapply scans_mono.
  { apply (scans_entries _ _ (fun v name => (forall k, fails k = None) ->
      temporary_storage_name name = true \/ name = "sha256" /\ sha256_entries v.1 v.2)).
    intros name. eapply scans_bind; [apply scans_is_dir|]. intros dir. destruct (eqs name "sha256") eqn:En.
    - apply eqs_true in En. destruct dir; [|apply scans_unexpected].
      eapply scans_mono; [apply scans_sha256_directory|]. intros v [] Hs _ Hc. right. split; [done|by apply Hs].
    - destruct (temporary_storage_name name) eqn:Et; [apply scans_ret; intros; by left|apply scans_unexpected]. }
  intros v [] Hb _ Hc name Hn. by apply Hb.
Qed.
End Inventory.

(* ------------------------------------------------------------------ *)
(** ** A whole scan *)

(** The rows of a table have distinct identifiers, and none is empty. *)
Record tables_keyed (d : Db) : Prop := {
  tk_artifacts : NoDup (ArtifactRow.id <$> artifact_rows d) /\ "" ∉ ArtifactRow.id <$> artifact_rows d;
  tk_snapshots : NoDup (Snapshot.id <$> snapshots d) /\ "" ∉ Snapshot.id <$> snapshots d;
  tk_blobs : NoDup (Blob.id <$> blobs d) /\ "" ∉ Blob.id <$> blobs d;
}.
Lemma keyed_select {R} (key : R -> string) (rows : Db -> list R) p (v : View) :
  NoDup (key <$> rows v.1) /\ "" ∉ key <$> rows v.1 -> keyed key (fun d => select p (rows d)) v.
Proof.
  intros [Hn He]. unfold keyed, select. split.
  - eapply sublist_NoDup; [exact Hn|]. apply sublist_fmap, sublist_filter.
  - intros Hin. apply He. apply list_elem_of_fmap in Hin as (x & -> & [_ Hx]%list_elem_of_filter). by apply list_elem_of_fmap_2.
Qed.

Section Runs.
Context `{EV : Env} `{UL : UuidLib} `{TL : TimeLib} `{ML : MimeLib} `{SL : ShaLib} `{ZL : ZstdLib} `{JL : JsonLib}
  `{FS : FileStamps} `{QL : SqliteChecks}.
Context (st : AppState).

(** What a scan that found nothing amiss certifies of the archive. *)
Record certified (v : View) : Prop := {
  ct_references : dangling v.1 = [];
  ct_tombstones : tombstoned_artifacts v.1 = [];
  ct_snapshots : forall q, q ∈ snapshots v.1 -> live q = true -> exists mrow m m', snapshot_verified st v q mrow m m';
  ct_blobs : Forall (blob_verified st v) (blobs v.1);
  ct_files : (forall k, fails k = None) -> root_entries st v.1 v.2;
}.
Lemma scans_all : scans (fun v _ => tables_keyed v.1 -> certified v) (scan_all st).
Proof.
  unfold scan_all. eapply scans_bind; [apply scans_database_integrity|]. intros [].
  eapply scans_bind; [apply scans_dangling|]. intros []. eapply scans_bind; [apply scans_tombstoned|]. intros [].
  eapply scans_bind; [apply scans_scan_snapshots|]. intros []. eapply scans_bind; [apply scans_blob_rows|]. intros [].
  eapply scans_mono; [apply scans_blob_files|]. intros v [] Hf Hb Hs Ht Hd _ [K1 K2 K3]. split.
  - by apply Hd, (keyed_select ArtifactRow.id artifact_rows).
  - by apply Ht, (keyed_select ArtifactRow.id artifact_rows).
  - apply Hs. unfold keyed.
    assert (E : ss_id <$> snapshot_scan_rows v.1 = Snapshot.id <$> snapshots v.1) by (unfold snapshot_scan_rows; by rewrite <-list_fmap_compose).
    by rewrite E.
  - by apply Hb.
  - exact Hf.
Qed.

(** The row of a run, from its start to its end. *)
Definition opened (rc : ScanRecorder) (seq : Z) : IntegrityRun.row :=
  IntegrityRun.mk (run_id rc) (recorder_owner rc) (started_at rc) seq None None (as_str Running) 0 0 0 0.
Definition closed (rc : ScanRecorder) (status : IntegrityRunStatus) (at_ : string) (at_seq seq : Z) : IntegrityRun.row :=
  IntegrityRun.set_completed at_ at_seq (as_str status) (total (counts rc)) (info (counts rc)) (warning (counts rc)) (error (counts rc))
    (opened rc seq).
Definition fresh_run (d : Db) (rc : ScanRecorder) : Prop := run_id rc ∉ IntegrityRun.id <$> integrity_runs d.

Lemma begin_spec s : wp (begin st) (fun r s' => view s' = view s /\ integrity_findings (db s') = integrity_findings (db s) /\
  match r with
  | Ok rc => fresh_run (db s) rc /\ recorder_owner rc = Storage.owner_namespace st /\ accounts [] rc
             /\ exists seq, integrity_runs (db s') = integrity_runs (db s) ++ [opened rc seq]
  | Err _ => integrity_runs (db s') = integrity_runs (db s)
  end) s.
Proof.
  unfold begin, scan_clock. apply wp_bind, wp_bind, wp_now. intros t. simpl. apply wp_bind, wp_lift.
  destruct (format_rfc3339 t) as [text|]; simpl; [|done]. apply wp_ret. simpl. apply wp_bind, wp_new_uuid. simpl.
  apply wp_bind, wp_execute; simpl; [done|]. intros d [] Ex. unfold insert_run in Ex. destruct (_ <? 0); [done|].
  destruct (insert_row _ _ _) as [l|] eqn:El; [|done]. injection Ex as <-. apply insert_row_Some in El as [-> Hfresh].
  apply wp_ret. split; [by unfold view; simpl; destruct (db s)|split; [done|]]. split_and!.
  - unfold fresh_run. intros (q & E & Hq)%list_elem_of_fmap. specialize (Hfresh q Hq). simpl in E, Hfresh. by rewrite <-E, eqs_refl in Hfresh.
  - done.
  - split; [done|]. by intros _.
  - by eexists.
Qed.

Lemma update_last {R} (p : R -> bool) f (l : list R) x : (forall q, q ∈ l -> p q = false) -> p x = true ->
  update p f (l ++ [x]) = l ++ [f x] /\ length (select p (l ++ [x])) = 1%nat.
Proof.
  intros Hl Hx. unfold update, select. rewrite map_app, filter_app. simpl. rewrite Hx. split.
  - f_equal. rewrite <-(map_id l) at 2. apply map_ext_in. intros q Hq%list_elem_of_In. by rewrite Hl.
  - rewrite filter_cons_True by done. rewrite filter_nil, length_app.
    change (length (select p l) + 1 = 1)%nat. enough (E : select p l = []) by by rewrite E.
    destruct (select p l) as [|q k] eqn:E; [done|]. exfalso.
    assert (Hq : q ∈ select p l) by (rewrite E; left). apply elem_of_select in Hq as [Hq Hin]. by rewrite Hl in Hq.
Qed.
Lemma finish_run_spec rc status runs seq s : integrity_runs (db s) = runs ++ [opened rc seq] ->
  run_id rc ∉ IntegrityRun.id <$> runs ->
  wp (finish rc status) (fun r s' => view s' = view s /\ integrity_findings (db s') = integrity_findings (db s) /\
    match r with
    | Ok at_ => total (counts rc) <= i64_max /\ exists at_seq, integrity_runs (db s') = runs ++ [closed rc status at_ at_seq seq]
    | Err _ => integrity_runs (db s') = integrity_runs (db s)
    end) s.
Proof.
  intros Er Hf. unfold finish, scan_clock. apply wp_bind, wp_bind, wp_now. intros t. simpl. apply wp_bind, wp_lift.
  destruct (format_rfc3339 t) as [text|]; simpl; [|done]. apply wp_ret. simpl.
  assert (Hp : forall n (k : Z -> M ScanError string) Q, Q (Err IntegrityScanError.Persistence) s -> (n <= i64_max -> wp (k n) Q s) ->
    wp (let! t := lift (ok_or (u64_to_i64 n) IntegrityScanError.Persistence) in k t) Q s).
  { intros n k Q H1 H2. apply wp_bind, wp_lift. destruct (u64_to_i64 n) as [m|] eqn:E; simpl; [|done].
    apply u64_to_i64_Some in E as [-> Hm]. by apply H2. }
  apply Hp; [done|]. intros Ht. apply Hp; [done|]. intros _. apply Hp; [done|]. intros _. apply Hp; [done|]. intros _.
  apply wp_bind, wp_execute; simpl; [done|]. intros d n Ex. unfold close_run in Ex. rewrite Er in Ex.
  set (p := fun r : IntegrityRun.row => _ && _) in Ex.
  assert (Hl : forall q, q ∈ runs -> p q = false).
  { intros q Hq. subst p. cbn beta. destruct (eqs (IntegrityRun.id q) (run_id rc)) eqn:E; [|done]. apply eqs_true in E. exfalso.
    apply Hf. rewrite <-E. by apply list_elem_of_fmap_2. }
  assert (Hx : p (opened rc seq) = true) by (subst p; cbn; by rewrite !eqs_refl).
  destruct (update_last p (fun r => r) runs (opened rc seq) Hl Hx) as [_ El]. rewrite El in Ex.
  destruct (_ && _); [done|]. injection Ex as <- <-. simpl. apply wp_ret.
  split; [by unfold view; simpl; destruct (db s)|split; [done|split; [done|]]]. eexists. simpl. rewrite Er.
  apply (proj1 (update_last p _ runs (opened rc seq) Hl Hx)).
Qed.

(** The report of a run tells its findings. *)
Record explains (rep : IntegrityReport) (fs : list IntegrityFinding.row) : Prop := {
  ex_run : Forall (fun f => IntegrityFinding.run_id f = rep_run_id rep) fs;
  ex_counts : rep_counts rep = tally fs;
  ex_shown : finding_summaries (take REPORT_FINDING_LIMIT fs) = Ok (rep_findings rep);
  ex_truncated : rep_findings_truncated rep = true <-> (REPORT_FINDING_LIMIT < length fs)%nat;
  ex_healthy : rep_status rep = Healthy <-> Forall (fun f => IntegrityFinding.severity f = as_str Info) fs;
}.
(** .. and the row of the run is the report. *)
Record kept_as (row : IntegrityRun.row) (rep : IntegrityReport) : Prop := {
  kp_id : IntegrityRun.id row = rep_run_id rep;
  kp_owner : IntegrityRun.owner_namespace row = rep_owner_namespace rep;
  kp_started : IntegrityRun.started_at row = rep_started_at rep;
  kp_completed : IntegrityRun.completed_at row = Some (rep_completed_at rep);
  kp_status : IntegrityRun.status row = as_str (rep_status rep);
  kp_total : IntegrityRun.finding_count row = total (rep_counts rep) /\ total (rep_counts rep) <= i64_max;
  kp_info : IntegrityRun.info_count row = info (rep_counts rep);
  kp_warning : IntegrityRun.warning_count row = warning (rep_counts rep);
  kp_error : IntegrityRun.error_count row = error (rep_counts rep);
}.

Definition report_of (rc : ScanRecorder) (at_ : string) : IntegrityReport :=
  {| rep_run_id := run_id rc; rep_owner_namespace := recorder_owner rc; rep_status := final_status rc;
     rep_started_at := started_at rc; rep_completed_at := at_; rep_counts := counts rc;
     rep_findings := report_findings rc;
     rep_findings_truncated := Z.of_nat (length (report_findings rc)) <? total (counts rc) |}.
Lemma tables_keyed_view s : tables_keyed (db s) -> tables_keyed (view s).1.
Proof. intros [K1 K2 K3]. by split. Qed.
(** What a scan does to the store, whatever happens to it. *)
Record scan_effect (s : Store) (rc : ScanRecorder) (seq : Z) (fs : list IntegrityFinding.row)
    (r : res ScanError IntegrityReport) (s' : Store) : Prop := {
  se_view : view s' = view s;
  se_fresh : fresh_run (db s) rc;
  se_owner : recorder_owner rc = Storage.owner_namespace st;
  se_findings : integrity_findings (db s') = integrity_findings (db s) ++ fs;
  se_of_run : Forall (of_run rc) fs;
  se_accounts : accounts fs rc;
  se_result : match r with
    | Ok rep => counts rc = tally fs /\ total (counts rc) <= i64_max /\ rep = report_of rc (rep_completed_at rep) /\
        exists at_seq, integrity_runs (db s') =
          integrity_runs (db s) ++ [closed rc (final_status rc) (rep_completed_at rep) at_seq seq]
    | Err _ => integrity_runs (db s') = integrity_runs (db s) ++ [opened rc seq] \/
        exists at_ at_seq, integrity_runs (db s') = integrity_runs (db s) ++ [closed rc Failed at_ at_seq seq]
    end;
  se_certified : forall rep, r = Ok rep -> Forall harmless fs -> tables_keyed (db s) -> certified (view s);
}.
Lemma scan_archive_effect s : wp (scan_archive st) (fun r s' =>
  (exists e, r = Err e /\ view s' = view s /\ integrity_runs (db s') = integrity_runs (db s)
             /\ integrity_findings (db s') = integrity_findings (db s))
  \/ exists rc seq fs, scan_effect s rc seq fs r s') s.
Proof.
  unfold scan_archive. apply wp_bind. eapply wp_mono; [|apply begin_spec].
  intros [rc0|e] s0 (V0 & F0 & H0); cbn [then_wp]; [|left; by exists e].
  destruct H0 as (Hfresh & Eowner & Hacc0 & seq & R0).
  apply wp_bind, wp_map_err. eapply wp_mono; [|apply (scans_all rc0 s0)].
  intros [[scanned rc]|[]] s1; cbn [then_wp]. intros (fs & [V1 R1 F1 O1 (I1 & J1 & K1) A1] & Hok). right. exists rc, seq, fs.
  assert (Eo : opened rc0 seq = opened rc seq) by (unfold opened; by rewrite I1, J1, K1).
  assert (Hacc : accounts fs rc) by by apply (A1 []).
  assert (R1' : integrity_runs (db s1) = integrity_runs (db s) ++ [opened rc seq]) by (by rewrite R1, R0, Eo).
  assert (Hf : run_id rc ∉ IntegrityRun.id <$> integrity_runs (db s)) by by rewrite I1.
  assert (Of : Forall (of_run rc) fs).
  { eapply Forall_impl; [exact O1|]. intros f (E1 & E2 & E3). split_and!; [by rewrite I1|by rewrite J1|done]. }
  destruct scanned as [[]|e].
  - destruct (Hok tt eq_refl) as [Hfit Hcert]. unfold complete. apply wp_bind.
    eapply wp_mono; [|by apply finish_run_spec]. intros [at_|e] s2 (V2 & F2 & H2); cbn [then_wp].
    + destruct H2 as (Hmax & at_seq & R2). apply wp_ret. split; [congruence|done|by rewrite J1|congruence|done..| |].
      * split_and!; [|done|done|by exists at_seq]. apply Hacc. apply (Hfit [] Hacc0). done.
      * intros _ _ Hh Hk. rewrite <-V0. apply (Hcert Hh). rewrite V0. by apply tables_keyed_view.
    + split; [congruence|done|by rewrite J1|congruence|done..|left; congruence|done].
  - apply wp_bind, wp_attempt. unfold fail. apply wp_bind. eapply wp_mono; [|by apply finish_run_spec].
    intros [at_|e'] s2 (V2 & F2 & H2); cbn [then_wp]; [apply wp_ret; cbn [then_wp]|];
      (apply wp_throw; split; [congruence|done|by rewrite J1|congruence|done..| |done]).
    + right. destruct H2 as (_ & at_seq & R2). by eexists _, _.
    + left. congruence.
Qed.

Lemma final_status_Healthy rc : final_status rc = Healthy <-> warning (counts rc) = 0 /\ error (counts rc) = 0.
Proof.
  unfold final_status. destruct (Z.eqb_spec (warning (counts rc)) 0), (Z.eqb_spec (error (counts rc)) 0); simpl; split; try done; by intros [? ?].
Qed.
Lemma with_severity_0 v fs : with_severity v fs = 0 <-> Forall (fun f => IntegrityFinding.severity f <> as_str v) fs.
Proof.
  unfold with_severity. rewrite Forall_forall. split.
  - intros E f Hf Hv. assert (Hin : f ∈ select (fun f => eqs (IntegrityFinding.severity f) (as_str v)) fs).
    { apply elem_of_select. by rewrite Hv, eqs_refl. }
    destruct (select _ _); [by apply elem_of_nil in Hin|simpl in E; lia].
  - intros Hne. destruct (select _ _) as [|f l] eqn:E; [done|]. exfalso.
    assert (Hin : f ∈ select (fun f => eqs (IntegrityFinding.severity f) (as_str v)) fs) by (rewrite E; left).
    apply elem_of_select in Hin as [Hv%eqs_true Hin]. by apply (Hne f Hin).
Qed.
Lemma harmless_severities rc fs : Forall (of_run rc) fs ->
  (with_severity Warning fs = 0 /\ with_severity Error fs = 0 <-> Forall (fun f => IntegrityFinding.severity f = as_str Info) fs).
Proof.
  intros Hr. rewrite !with_severity_0, !Forall_forall. rewrite Forall_forall in Hr. split.
  - intros [H1 H2] f Hf. destruct (Hr f Hf) as (_ & _ & v & Ev). specialize (H1 f Hf). specialize (H2 f Hf). rewrite Ev in *.
    by destruct v.
  - intros Hi. split; intros f Hf; rewrite (Hi f Hf); done.
Qed.
Lemma effect_referenced s rc seq fs r s' : scan_effect s rc seq fs r s' ->
  Forall (fun f => IntegrityFinding.run_id f ∈ IntegrityRun.id <$> integrity_runs (db s)) (integrity_findings (db s)) ->
  Forall (fun f => IntegrityFinding.run_id f ∈ IntegrityRun.id <$> integrity_runs (db s')) (integrity_findings (db s')).
Proof.
  intros [_ _ _ F Ho _ Hr _] Href.
  assert (Hrun : exists row, integrity_runs (db s') = integrity_runs (db s) ++ [row] /\ IntegrityRun.id row = run_id rc).
  { destruct r as [rep|e]; [destruct Hr as (_ & _ & _ & at_seq & R)|destruct Hr as [R|(at_ & at_seq & R)]]; eexists; split; exact R || done. }
  destruct Hrun as (row & R & Ei). rewrite F, R, fmap_app, Forall_app. split; (eapply Forall_impl; [done|]).
  - intros f Hf. apply elem_of_app. by left.
  - intros f [Ef _]. apply elem_of_app. right. simpl. rewrite Ei, Ef. left.
Qed.
Lemma report_explains s rc seq fs rep s' : scan_effect s rc seq fs (Ok rep) s' -> explains rep fs.
Proof.
  intros [_ _ _ _ Ho [Hs _] (Ec & _ & -> & _) _]. split; cbn [rep_run_id rep_counts rep_findings rep_findings_truncated rep_status report_of].
  - eapply Forall_impl; [exact Ho|]. by intros f [? _].
  - done.
  - done.
  - apply finding_summaries_length in Hs. rewrite length_take in Hs. rewrite Hs, Ec. cbn [total tally]. rewrite Z.ltb_lt. lia.
  - rewrite final_status_Healthy, Ec. by apply (harmless_severities rc).
Qed.
Lemma report_keeps s rc seq fs rep s' : scan_effect s rc seq fs (Ok rep) s' ->
  exists row, integrity_runs (db s') = integrity_runs (db s) ++ [row] /\ kept_as row rep.
Proof.
  intros [_ _ _ _ _ _ (Ec & Hm & -> & at_seq & E) _]. eexists. split; [exact E|]. by split.
Qed.
End Runs.

(** *** The history *)

(** [run_id REFERENCES integrity_runs(id)] *)
Definition findings_referenced (d : Db) : Prop :=
  Forall (fun f => IntegrityFinding.run_id f ∈ IntegrityRun.id <$> integrity_runs d) (integrity_findings d).
Lemma select_all_of {R} (p : R -> bool) l k : (forall x, x ∈ l -> p x = false) -> (forall x, x ∈ k -> p x = true) ->
  select p (l ++ k) = k.
Proof.
  intros Hl Hk. unfold select. rewrite filter_app.
  assert (E1 : filter (fun r => p r = true) l = []).
  { induction l as [|x l IH]; [done|]. rewrite filter_cons, (Hl x) by left. apply IH. intros; apply Hl; by right. }
  assert (E2 : filter (fun r => p r = true) k = k).
  { induction k as [|x k IH]; [done|]. rewrite filter_cons, (Hk x) by left. simpl. f_equal. apply IH. intros; apply Hk; by right. }
  by rewrite E1, E2.
Qed.
Definition summary_of (rep : IntegrityReport) : IntegrityRunSummary :=
  {| ir_run_id := rep_run_id rep; ir_owner_namespace := rep_owner_namespace rep; ir_status := rep_status rep;
     ir_started_at := rep_started_at rep; ir_completed_at := Some (rep_completed_at rep); ir_counts := rep_counts rep |}.

Section History.
Context `{EV : Env} `{UL : UuidLib} `{TL : TimeLib} `{ML : MimeLib} `{SL : ShaLib} `{ZL : ZstdLib} `{JL : JsonLib}
  `{FS : FileStamps} `{QL : SqliteChecks}.
Context (st : AppState).

Lemma wp_fetch_one_calm {E A} (err : SqlxError -> E) (f : Db -> option A) a Q s : (forall k, fails k = None) ->
  f (db s) = Some a -> Q (Ok a) s -> wp (fetch_one err f) Q s.
Proof. intros Hc Ef HQ. apply wp_operation_calm; [done|]. intros n. simpl. by rewrite Ef. Qed.
Lemma run_summary_calm id row s rep : (forall k, fails k = None) ->
  select_one (fun r => eqs (IntegrityRun.id r) id) (integrity_runs (db s)) = Some row -> kept_as row rep ->
  kind_rows id (db s) = by_kind (rep_counts rep) -> 0 <= total (rep_counts rep) -> 0 <= info (rep_counts rep) ->
  0 <= warning (rep_counts rep) -> 0 <= error (rep_counts rep) ->
  wp (run_summary id) (fun r s' => s' = s /\ r = Ok (summary_of rep)) s.
Proof.
  intros Hc Hrow [K1 K2 K3 K4 K5 [K6 _] K7 K8 K9] Hkinds H1 H2 H3 H4. unfold run_summary.
  apply wp_bind. eapply wp_fetch_one_calm; [done|exact Hrow|]. cbn [then_wp].
  apply wp_bind, wp_query_calm; [done|]. cbn [then_wp]. rewrite K5, parse_as_str, K6, K7, K8, K9.
  assert (E : forall z, 0 <= z -> i64_to_u64 z = Some z) by (intros; by apply i64_to_u64_Some).
  rewrite !E by done. cbn [ok_or]. repeat (apply wp_bind, wp_lift; cbn [then_wp]). apply wp_ret. split; [done|].
  unfold summary_of. rewrite K1, K2, K3, K4, Hkinds. by destruct (rep_counts rep).
Qed.
End History.

(** *** The rounds of a scan *)

Section Rounds.
Context `{EV : Env}.
Context {R : Type} (key : R -> string) (rows : Db -> list R) (body : list R -> Scan unit).
Hypothesis Hrows : forall d, rows (archive_of d) = rows d.
Hypothesis Hbody : forall rs, scans (fun _ _ => True) (body rs).

Lemma scan_pages_more fuel : forall after rc s n, NoDup (key <$> rows (db s)) ->
  (length (select (fun x => after_id after (key x)) (rows (db s))) < fuel)%nat ->
  scan_pages (S fuel) key rows body after rc (s, n) = scan_pages fuel key rows body after rc (s, n).
Proof.
  induction fuel as [|fuel IH]; intros after rc s n Hn Hl; [lia|].
  change (scan_pages (S (S fuel)) key rows body after) with (do! rs := observe (query metadata_failed (fun d => page key after (rows d))) in
      match last rs with None => sret tt | Some r => do! _ := body rs in scan_pages (S fuel) key rows body (key r) end).
  change (scan_pages (S fuel) key rows body after) with (do! rs := observe (query metadata_failed (fun d => page key after (rows d))) in
      match last rs with None => sret tt | Some r => do! _ := body rs in scan_pages fuel key rows body (key r) end).
  pose proof (wp_query (E := ScanError) metadata_failed (fun d => page key after (rows d))
    (fun r s' => s' = s /\ forall rs, r = Ok rs -> rs = page key after (rows (db s))) s) as Hq.
  specialize (Hq (fun x => conj eq_refl (fun rs (E : Err _ = Ok rs) => match E with end))
                 (conj eq_refl (fun rs E => eq_sym (f_equal (fun r => match r with Ok a => a | Err _ => rs end) E)))).
  specialize (Hq n). unfold sbind at 1 3, observe, bind, attempt.
  destruct (query _ _ (s, n)) as [[rs|e] [s1 n1]]; simpl in Hq |- *; destruct Hq as [-> Hq]; [|done]. rewrite (Hq rs eq_refl).
  destruct (last (page key after (rows (db s)))) as [r|] eqn:El; [|done].
  unfold sbind, bind. pose proof (Hbody (page key after (rows (db s))) rc s n1) as Hb.
  destruct (body _ rc (s, n1)) as [[[r2 rc2]|[]] [s2 n2]]; simpl in Hb. destruct r2 as [[]|e]; [|done]. destruct Hb as (fs & [V _ _ _ _ _] & _).
  assert (E : rows (db s2) = rows (db s)).
  { rewrite <-(Hrows (db s2)), <-(Hrows (db s)). apply (f_equal fst) in V. exact (f_equal rows V). }
  apply IH; rewrite E; [done|]. pose proof (page_less key after (rows (db s)) r Hn El). lia.
Qed.
Lemma scan_pages_rounds k : forall rc s n, NoDup (key <$> rows (db s)) ->
  scan_pages (k + S (length (rows (db s)))) key rows body "" rc (s, n) = pages key rows body rc (s, n).
Proof.
  induction k as [|k IH]; intros rc s n Hn; [done|]. rewrite <-IH by done. simpl (S k + _)%nat. apply scan_pages_more; [done|].
  pose proof (length_filter (fun x => after_id "" (key x) = true) (rows (db s))). unfold select. lia.
Qed.
End Rounds.

Section Claims.
Context `{EV : Env} `{UL : UuidLib} `{TL : TimeLib} `{ML : MimeLib} `{SL : ShaLib} `{ZL : ZstdLib} `{JL : JsonLib}
  `{FS : FileStamps} `{QL : SqliteChecks}.
Context (st : AppState).

Lemma scan_observes s : wp (scan_archive st) (fun _ s' => view s' = view s) s.
Proof. eapply wp_mono; [|apply scan_archive_effect]. intros r s' [(e & _ & V & _)|(rc & seq & fs & He)]; [done|apply He]. Qed.

(** C15: a scan only observes. Whatever fails while it runs, the metadata and the
    files of the archive are what they were; the history has at most one run
    more, of a new identifier and of this archive's owner, and every new finding
    is one of that run. When the scan fails the run is marked as failed, or left
    as running; it is never completed. *)
Theorem scan_only_observes s : wp (scan_archive st) (fun r s' => view s' = view s /\ exists runs fs,
  integrity_runs (db s') = integrity_runs (db s) ++ runs /\ (length runs <= 1)%nat
  /\ integrity_findings (db s') = integrity_findings (db s) ++ fs
  /\ Forall (fun row => IntegrityRun.id row ∉ IntegrityRun.id <$> integrity_runs (db s)
        /\ IntegrityRun.owner_namespace row = Storage.owner_namespace st
        /\ (is_ok r = false -> IntegrityRun.status row = "failed" \/ IntegrityRun.status row = "running")) runs
  /\ Forall (fun f => exists row, row ∈ runs /\ IntegrityFinding.run_id f = IntegrityRun.id row
        /\ IntegrityFinding.owner_namespace f = IntegrityRun.owner_namespace row) fs) s.
Proof.
  eapply wp_mono; [|apply scan_archive_effect]. intros r s' [(e & -> & V & R & F)|(rc & seq & fs & [V Hf Eo F Ho _ Hr _])].
  - split; [done|]. exists [], []. rewrite !app_nil_r. split_and!; [done|simpl; lia|done|constructor|constructor].
  - split; [done|]. assert (Hrun : exists row, integrity_runs (db s') = integrity_runs (db s) ++ [row]
      /\ IntegrityRun.id row = run_id rc /\ IntegrityRun.owner_namespace row = recorder_owner rc
      /\ (is_ok r = false -> IntegrityRun.status row = "failed" \/ IntegrityRun.status row = "running")).
    { destruct r as [rep|e]; [|destruct Hr as [R|(at_ & at_seq & R)]].
      - destruct Hr as (_ & _ & _ & at_seq & R). by eexists.
      - eexists. split_and!; [exact R|done..|]. intros _. by right.
      - eexists. split_and!; [exact R|done..|]. intros _. by left. }
    destruct Hrun as (row & R & Ei & Ew & Es). exists [row], fs. split_and!; [done|done|done| |].
    + apply Forall_singleton. rewrite Ei, Ew. split_and!; done.
    + eapply Forall_impl; [exact Ho|]. intros f (E1 & E2 & _). exists row. split; [left|]. by rewrite Ei, Ew.
Qed.

(** C16: a report is exact. The row of the run holds the times, the status and
    the counts of the report; the counts are those of the findings recorded for
    the run, the report shows the first of them and says so when it leaves some
    out, and it is healthy just when each of them is only information. *)
Theorem scan_report_exact s : wp (scan_archive st) (fun r s' => forall rep, r = Ok rep -> exists row fs,
  integrity_runs (db s') = integrity_runs (db s) ++ [row] /\ integrity_findings (db s') = integrity_findings (db s) ++ fs
  /\ kept_as row rep /\ explains rep fs) s.
Proof.
  eapply wp_mono; [|apply scan_archive_effect]. intros r s' [(e & -> & _)|(rc & seq & fs & He)] rep Hr; [done|]. subst r.
  destruct (report_keeps st _ _ _ _ _ _ He) as (row & R & Hk). exists row, fs. split_and!; [done|by eapply se_findings|done|].
  by eapply report_explains.
Qed.

(** The history tells what the report told. Once the findings of a store
    refer to its runs, a scan leaves them so, and reading the run of a report back
    when no operation fails gives the status, the times and every count of the
    report, the counts by kind recomputed from the findings. *)
Theorem report_is_history s : findings_referenced (db s) ->
  wp (scan_archive st) (fun r s' => findings_referenced (db s') /\ forall rep, r = Ok rep ->
    (forall k, fails k = None) -> wp (run_summary (rep_run_id rep)) (fun q s'' => s'' = s' /\ q = Ok (summary_of rep)) s') s.
Proof.
  intros Href. eapply wp_mono; [|apply scan_archive_effect]. intros r s' [(e & -> & _ & R & F)|(rc & seq & fs & He)].
  { split; [|done]. unfold findings_referenced. by rewrite R, F. }
  split; [by eapply effect_referenced|]. intros rep -> Hc. pose proof (report_explains st _ _ _ _ _ _ He) as [Er Ec _ _ _].
  destruct (report_keeps st _ _ _ _ _ _ He) as (row & R & Hk). pose proof (se_fresh st _ _ _ _ _ _ He) as Hf. unfold fresh_run in Hf.
  assert (Ei : run_id rc = rep_run_id rep) by (destruct (se_result st _ _ _ _ _ _ He) as (_ & _ & -> & _); done). rewrite Ei in Hf.
  assert (Hrow : select (fun r => eqs (IntegrityRun.id r) (rep_run_id rep)) (integrity_runs (db s')) = [row]).
  { rewrite R. apply select_all_of.
    - intros q Hq. apply eqs_false. intros E. apply Hf. rewrite <-E. by apply list_elem_of_fmap_2.
    - intros q ->%list_elem_of_singleton. by apply eqs_true, (kp_id _ _ Hk). }
  apply (run_summary_calm _ row); [done|by unfold select_one; rewrite Hrow|done|..].
  - unfold kind_rows. rewrite (se_findings st _ _ _ _ _ _ He), select_all_of, Ec; [done|..].
    + intros f Hin. apply eqs_false. intros E. apply Hf. rewrite <-E. unfold findings_referenced in Href.
      rewrite Forall_forall in Href. by apply Href.
    + intros f Hin. apply eqs_true. rewrite Forall_forall in Er. by apply Er.
  - rewrite Ec. cbn [total tally]. lia.
  - rewrite Ec. apply with_severity_le.
  - rewrite Ec. apply with_severity_le.
  - rewrite Ec. apply with_severity_le.
Qed.

(** The loops over the pages of a table end. Each of them takes no more
    rounds than the table has rows, and one to see the end: allowing it any
    number of rounds more changes nothing. *)
Theorem page_loops_end k rc s n : tables_keyed (db s) ->
  scan_pages (k + S (length (dangling (db s)))) ArtifactRow.id dangling (fun rows => scan_each rows
    (record_artifact ArtifactBlobReferenceMissing "artifact_references_missing_blob_row")) "" rc (s, n)
    = scan_dangling_artifact_references rc (s, n)
  /\ scan_pages (k + S (length (tombstoned_artifacts (db s)))) ArtifactRow.id tombstoned_artifacts (fun rows => scan_each rows
    (record_artifact SnapshotProjectionDrift "tombstoned_snapshot_has_artifact_reference")) "" rc (s, n)
    = scan_tombstoned_artifact_references rc (s, n)
  /\ scan_pages (k + S (length (snapshots (db s)))) ss_id snapshot_scan_rows (fun rows => scan_each rows (scan_snapshot st)) "" rc (s, n)
    = scan_snapshots st rc (s, n)
  /\ forall seq, scan_pages (k + S (length (blobs (db s)))) (fun row => Blob.id row.1) blob_scan_rows
      (fun rows => do! jobs := blob_jobs st seq rows in scan_blob_jobs jobs) "" rc (s, n)
    = pages (fun row => Blob.id row.1) blob_scan_rows (fun rows => do! jobs := blob_jobs st seq rows in scan_blob_jobs jobs) rc (s, n).
Proof.
  intros [[K1 K1'] [K2 _] [K3 _]].
  assert (Hart : forall (kind : IntegrityFindingKind) d rs, scans (fun _ _ => True) (scan_each rs (record_artifact kind d))).
  { intros kind d rs. eapply scans_weaken, scans_each. intros a. apply scans_record. }
  split_and!.
  - apply scan_pages_rounds; [done|intros; apply Hart|]. by apply (keyed_select ArtifactRow.id artifact_rows _ (db s, files s)).
  - apply scan_pages_rounds; [done|intros; apply Hart|]. by apply (keyed_select ArtifactRow.id artifact_rows _ (db s, files s)).
  - replace (length (snapshots (db s))) with (length (snapshot_scan_rows (db s))) by (unfold snapshot_scan_rows; apply length_fmap).
    apply scan_pages_rounds; [done| |].
    + intros rs. eapply scans_weaken, scans_each, scans_snapshot.
    + unfold snapshot_scan_rows. by rewrite <-list_fmap_compose.
  - intros seq. replace (length (blobs (db s))) with (length (blob_scan_rows (db s))) by (unfold blob_scan_rows; apply length_fmap).
    apply (scan_pages_rounds (fun row => Blob.id row.1)); [done| |].
    + intros rs. eapply scans_bind; [eapply scans_weaken, scans_blob_jobs|]. intros jobs. eapply scans_mono; [apply scans_scan_blob_jobs|done].
    + unfold blob_scan_rows. by rewrite <-list_fmap_compose.
Qed.

(** The originals of a live snapshot come back from the blobs, if its manifest
    lists the artifacts by their paths. *)
Definition originals_restored (v : View) : Prop := forall q, q ∈ snapshots v.1 -> live q = true ->
  exists mrow m, projects v.1 q mrow m /\
    (StronglySorted path_le (artifacts m) ->
     forall a b, (a, b) ∈ rows_of_snapshot (Snapshot.id q) v.1 -> row_restored v.2 a b).
Lemma validated_sorted m limits m' : validate_manifest_schema m limits = Some m' ->
  StronglySorted path_le (artifacts m) -> artifacts m' = artifacts m.
Proof.
  unfold validate_manifest_schema. destruct (normalize_manifest _ _) eqn:E; [|done]. intros [= <-] Hs.
  by eapply normalize_manifest_sorted.
Qed.
Lemma certified_restored v : certified st v -> (forall k, fails k = None) -> still -> originals_restored v.
Proof.
  intros [C1 C2 C3 C4 C5] Hc Hs q Hq Hl. destruct (C3 q Hq Hl) as (mrow & m & m' & [S1 S2 S3 S4]). exists mrow, m.
  split; [done|]. intros Hsort a b Hab. apply S4; [by eapply validated_sorted|done..|]. rewrite Forall_forall in C4.
  apply (bv_file st v b). apply C4. apply elem_of_rows in Hab as (_ & _ & Hb). by apply select_one_Some in Hb as [_ Hb].
Qed.

Lemma scan_certifies s : tables_keyed (db s) ->
  wp (scan_archive st) (fun r _ => forall rep, r = Ok rep -> rep_status rep = Healthy ->
    by_kind (rep_counts rep) !! "transient_change" = None ->
    certified st (view s) /\ ((forall k, fails k = None) -> still -> originals_restored (view s))) s.
Proof.
  intros Hk. eapply wp_mono; [|apply scan_archive_effect].
  intros r s' [(e & -> & _)|(rc & seq & fs & He)] rep Hr Hs Ht; [done|]. subst r.
  pose proof (report_explains st _ _ _ _ _ _ He) as [_ Ec _ _ Eh]. apply Eh in Hs. rewrite Ec in Ht. cbn [by_kind tally] in Ht.
  apply kinds_of_None in Ht. assert (Hc : certified st (view s)).
  { eapply se_certified; [exact He|done| |done]. apply Forall_forall. intros f Hf. rewrite Forall_forall in Hs, Ht.
    split; [by apply Hs|]. by apply Ht. }
  split; [done|]. by apply certified_restored.
Qed.

(** C14: a healthy report without a transient change certifies the archive: no
    artifact of a live snapshot dangles and none of a deleted one remains, every
    live snapshot is the projection of a valid manifest, every blob has metadata
    in range, a file of its size and digest, and is a candidate for collection
    just when nothing live refers to it.  That much holds whatever failed on the
    way.  If no operation failed, every file below the blob directory is a write
    in progress or belongs to a blob; a failed look at such a file makes the scan
    pass over it in silence ([record_unowned_blob_file_if_current]).  If no operation
    failed and the files were at rest, the blobs restore every original of each
    live snapshot whose stored manifest lists its artifacts by their paths, as the
    manifests that the server files do ([manifest_sound]); the scan numbers the
    artifacts of the sorted manifest, and passes over those of another order in
    silence ([artifact_jobs]). *)
Theorem healthy_scan_certifies s : tables_keyed (db s) ->
  wp (scan_archive st) (fun r _ => forall rep, r = Ok rep -> rep_status rep = Healthy ->
    by_kind (rep_counts rep) !! "transient_change" = None ->
    certified st (view s) /\ ((forall k, fails k = None) -> still -> originals_restored (view s))) s.
Proof. apply scan_certifies. Qed.
End Claims.
