(* ===== verification/Config.v ===== *)
(** The settings of the server ([config.rs]): how the environment is read, the
    bounds a configuration is held to, and the state the service makes of it.

    A duration is a number of nanoseconds. [usize] has 64 bits. The syntax of a
    socket address is a parameter ([SocketAddrs]). *)
From stdpp Require Import prelude strings gmap list.
From Stdlib Require Import ZArith Ascii Lia.
From S2P Require Import Prelude Errors Contract Externals Validation Chunks Fingerprint Tables Store Storage Uploads.

Definition DEFAULT_BIND_ADDR : string := "127.0.0.1:8080".
(** [SocketAddr::from_str], which reads the default address. *)
Class SocketAddrs := {
  SocketAddr : Type;
  parse_socket_addr : string -> option SocketAddr;
  default_bind_addr : SocketAddr;
  default_bind_addr_valid : parse_socket_addr DEFAULT_BIND_ADDR = Some default_bind_addr;
}.

Definition from_secs (n : Z) : Z := n * 1000000000.
Definition as_secs (d : Z) : Z := d / 1000000000.
Definition from_hours (n : Z) : Z := from_secs (n * 3600).
Definition from_mins (n : Z) : Z := from_secs (n * 60).

Definition DEFAULT_DATA_DIR : string := "data".
Definition DEFAULT_MAX_REQUEST_BODY_BYTES : Z := 32 * 1024 * 1024.
Definition DEFAULT_MAX_CONCURRENCY : Z := 64.
Definition DEFAULT_MAX_DOWNLOAD_CONCURRENCY : Z := 8.
Definition DEFAULT_REQUEST_TIMEOUT : Z := from_secs 30.
Definition DEFAULT_CHUNK_SIZE_BYTES : Z := 4 * 1024 * 1024.
Definition DEFAULT_MAX_ARTIFACT_STORED_BYTES : Z := 1024 * 1024 * 1024.
Definition DEFAULT_MAX_ARTIFACT_ORIGINAL_BYTES : Z := 4 * 1024 * 1024 * 1024.
Definition DEFAULT_MAX_ARTIFACT_COUNT : Z := 128.
Definition DEFAULT_MAX_SNAPSHOT_STORED_BYTES : Z := 4 * 1024 * 1024 * 1024.
Definition DEFAULT_MAX_SNAPSHOT_ORIGINAL_BYTES : Z := 16 * 1024 * 1024 * 1024.
Definition DEFAULT_UPLOAD_EXPIRY : Z := from_hours 24.
Definition DEFAULT_ADMIN_DELETION_ENABLED : bool := false.
Definition DEFAULT_BLOB_GC_GRACE : Z := from_hours (90 * 24).
Definition DEFAULT_INTEGRITY_SCAN_CONCURRENCY : Z := 4.
Definition DEFAULT_INTEGRITY_SCAN_BUFFER_BYTES : Z := 64 * 1024.

Definition MIN_REQUEST_BODY_BYTES : Z := 1024.
Definition MAX_REQUEST_BODY_BYTES : Z := 64 * 1024 * 1024.
Definition MAX_CONCURRENCY : Z := 256.
Definition MAX_DOWNLOAD_CONCURRENCY : Z := 64.
Definition MAX_REQUEST_TIMEOUT : Z := from_mins 5.
Definition MIN_CHUNK_SIZE_BYTES : Z := 1024.
Definition MAX_CHUNK_SIZE_BYTES : Z := 32 * 1024 * 1024.
Definition MAX_ARTIFACT_BYTES : Z := 8 * 1024 * 1024 * 1024.
Definition MAX_ARTIFACT_COUNT : Z := 1024.
Definition MAX_SNAPSHOT_BYTES : Z := 64 * 1024 * 1024 * 1024.
Definition MIN_UPLOAD_EXPIRY : Z := from_mins 1.
Definition MAX_UPLOAD_EXPIRY : Z := from_hours 720.
Definition MIN_BLOB_GC_GRACE : Z := from_mins 1.
Definition MAX_BLOB_GC_GRACE : Z := from_hours (365 * 24).
Definition MAX_INTEGRITY_SCAN_CONCURRENCY : Z := 32.
Definition MIN_INTEGRITY_SCAN_BUFFER_BYTES : Z := 4 * 1024.
Definition MAX_INTEGRITY_SCAN_BUFFER_BYTES : Z := 1024 * 1024.

Module ConfigError.
Inductive t : Type :=
  | EmptyDataDir | InvalidBindAddr | InvalidRequestBodyLimit | InvalidConcurrencyLimit | InvalidDownloadConcurrencyLimit
  | InvalidRequestTimeout | InvalidChunkSize | ChunkExceedsRequestBody | InvalidStoredArtifactLimit
  | InvalidOriginalArtifactLimit | InvalidArtifactCountLimit | InvalidStoredSnapshotLimit | InvalidOriginalSnapshotLimit
  | TooManyChunks | InvalidUploadExpiry | InvalidAdminDeletionEnabled | InvalidBlobGcGrace
  | InvalidIntegrityScanConcurrency | InvalidIntegrityScanBuffer.
End ConfigError.
Import ConfigError.

(** *** Values *)

Definition bounded (minimum maximum : Z) (parsed : Z) : option Z :=
  if (minimum <=? parsed) && (parsed <=? maximum) then Some parsed else None.
Definition parse_bounded_usize (value : string) (minimum maximum : Z) : option Z :=
  parsed ← parse_uint u64_max value; bounded minimum maximum parsed.
Definition parse_bounded_u64 (value : string) (minimum maximum : Z) : option Z :=
  parsed ← parse_uint u64_max value; bounded minimum maximum parsed.
(** [value.strip_suffix(c)] *)
Definition strip_suffix (c : ascii) (value : string) : option string :=
  match rev (chars value) with
  | x :: l => if bool_decide (x = c) then Some (of_chars (rev l)) else None
  | [] => None
  end.
Definition duration_unit (value : string) : option (string * Z) :=
  match strip_suffix "s" value with
  | Some value => Some (value, 1)
  | None =>
  match strip_suffix "m" value with
  | Some value => Some (value, 60)
  | None =>
  match strip_suffix "h" value with
  | Some value => Some (value, 60 * 60)
  | None => value ← strip_suffix "d" value; Some (value, 24 * 60 * 60)
  end end end.
Definition parse_duration (value : string) : option Z :=
  nm ← duration_unit value;
  seconds ← parse_uint u64_max nm.1;
  seconds ← (if 0 <? seconds then Some seconds else None);
  total ← checked_mul_u64 seconds nm.2;
  Some (from_secs total).
Definition parse_duration_within (minimum maximum : Z) (value : string) : option Z :=
  duration ← parse_duration value; bounded minimum maximum duration.
Definition parse_bool (value : string) : option bool :=
  if bool_decide (value = "true") then Some true else if bool_decide (value = "false") then Some false else None.
Definition max_stored_bytes_for_chunk_size (chunk_size : Z) : res ConfigError.t Z :=
  ok_or (checked_mul_u64 chunk_size MAX_CHUNK_COUNT) TooManyChunks.

(* ------------------------------------------------------------------ *)
(** ** The settings *)

Record Config `{SocketAddrs} : Type := mkConfig {
  data_dir : string;
  bind_addr : SocketAddr;
  max_request_body_bytes : Z;
  max_concurrency : Z;
  max_download_concurrency : Z;
  request_timeout : Z;
  chunk_size_bytes : Z;
  max_artifact_stored_bytes : Z;
  max_artifact_original_bytes : Z;
  max_artifact_count : Z;
  max_snapshot_stored_bytes : Z;
  max_snapshot_original_bytes : Z;
  upload_expiry : Z;
  admin_deletion_enabled : bool;
  blob_gc_grace : Z;
  integrity_scan_concurrency : Z;
  integrity_scan_buffer_bytes : Z;
}.

Section Settings.
Context `{SocketAddrs}.
Implicit Types c : Config.

Definition default_config : Config := {|
  data_dir := DEFAULT_DATA_DIR; bind_addr := default_bind_addr;
  max_request_body_bytes := DEFAULT_MAX_REQUEST_BODY_BYTES; max_concurrency := DEFAULT_MAX_CONCURRENCY;
  max_download_concurrency := DEFAULT_MAX_DOWNLOAD_CONCURRENCY; request_timeout := DEFAULT_REQUEST_TIMEOUT;
  chunk_size_bytes := DEFAULT_CHUNK_SIZE_BYTES; max_artifact_stored_bytes := DEFAULT_MAX_ARTIFACT_STORED_BYTES;
  max_artifact_original_bytes := DEFAULT_MAX_ARTIFACT_ORIGINAL_BYTES; max_artifact_count := DEFAULT_MAX_ARTIFACT_COUNT;
  max_snapshot_stored_bytes := DEFAULT_MAX_SNAPSHOT_STORED_BYTES;
  max_snapshot_original_bytes := DEFAULT_MAX_SNAPSHOT_ORIGINAL_BYTES; upload_expiry := DEFAULT_UPLOAD_EXPIRY;
  admin_deletion_enabled := DEFAULT_ADMIN_DELETION_ENABLED; blob_gc_grace := DEFAULT_BLOB_GC_GRACE;
  integrity_scan_concurrency := DEFAULT_INTEGRITY_SCAN_CONCURRENCY;
  integrity_scan_buffer_bytes := DEFAULT_INTEGRITY_SCAN_BUFFER_BYTES |}.

(** [(minimum..=maximum).contains(&value)] *)
Definition contains (minimum maximum value : Z) : bool := (minimum <=? value) && (value <=? maximum).
Definition validate c : res ConfigError.t unit :=
  reject bool_decide (data_dir c = "") with EmptyDataDir;
  reject negb (contains MIN_REQUEST_BODY_BYTES MAX_REQUEST_BODY_BYTES (max_request_body_bytes c)) with InvalidRequestBodyLimit;
  reject negb (contains 1 MAX_CONCURRENCY (max_concurrency c)) with InvalidConcurrencyLimit;
  reject negb (contains 1 MAX_DOWNLOAD_CONCURRENCY (max_download_concurrency c)) with InvalidDownloadConcurrencyLimit;
  reject (request_timeout c =? 0) || (MAX_REQUEST_TIMEOUT <? request_timeout c) with InvalidRequestTimeout;
  reject negb (contains MIN_CHUNK_SIZE_BYTES MAX_CHUNK_SIZE_BYTES (chunk_size_bytes c)) with InvalidChunkSize;
  reject max_request_body_bytes c <? chunk_size_bytes c with ChunkExceedsRequestBody;
  reject (max_artifact_stored_bytes c =? 0) || (MAX_ARTIFACT_BYTES <? max_artifact_stored_bytes c) with InvalidStoredArtifactLimit;
  reject (max_artifact_original_bytes c =? 0) || (MAX_ARTIFACT_BYTES <? max_artifact_original_bytes c) with InvalidOriginalArtifactLimit;
  reject negb (contains 1 MAX_ARTIFACT_COUNT (max_artifact_count c)) with InvalidArtifactCountLimit;
  reject (max_snapshot_stored_bytes c =? 0) || (MAX_SNAPSHOT_BYTES <? max_snapshot_stored_bytes c) with InvalidStoredSnapshotLimit;
  reject (max_snapshot_original_bytes c =? 0) || (MAX_SNAPSHOT_BYTES <? max_snapshot_original_bytes c) with InvalidOriginalSnapshotLimit;
  let? most := max_stored_bytes_for_chunk_size (chunk_size_bytes c) in
  reject most <? max_artifact_stored_bytes c with TooManyChunks;
  reject (upload_expiry c <? MIN_UPLOAD_EXPIRY) || (MAX_UPLOAD_EXPIRY <? upload_expiry c) with InvalidUploadExpiry;
  reject (blob_gc_grace c <? MIN_BLOB_GC_GRACE) || (MAX_BLOB_GC_GRACE <? blob_gc_grace c) with InvalidBlobGcGrace;
  reject negb (contains 1 MAX_INTEGRITY_SCAN_CONCURRENCY (integrity_scan_concurrency c)) with InvalidIntegrityScanConcurrency;
  reject negb (contains MIN_INTEGRITY_SCAN_BUFFER_BYTES MAX_INTEGRITY_SCAN_BUFFER_BYTES (integrity_scan_buffer_bytes c))
    with InvalidIntegrityScanBuffer;
  Ok tt.

(** [if let Some(value) = values.get(key) { .. parse(value).ok_or(err)? }]: the
    value of a setting, [current] when it is not there. *)
Definition setting {A} (values : gmap string string) (key : string) (parse : string -> option A) (err : ConfigError.t) (current : A)
  : res ConfigError.t A :=
  match values !! key with
  | None => Ok current
  | Some value => ok_or (parse value) err
  end.
Definition parse_data_dir (value : string) : option string := if trim_is_empty value then None else Some value.

Definition from_values (values : gmap string string) : res ConfigError.t Config :=
  let? data_dir := setting values "PATWARI_DATA_DIR" parse_data_dir EmptyDataDir DEFAULT_DATA_DIR in
  let? bind_addr := setting values "PATWARI_BIND_ADDR" parse_socket_addr InvalidBindAddr default_bind_addr in
  let? max_request_body_bytes := setting values "PATWARI_MAX_REQUEST_BODY_BYTES"
    (fun v => parse_bounded_usize v MIN_REQUEST_BODY_BYTES MAX_REQUEST_BODY_BYTES) InvalidRequestBodyLimit DEFAULT_MAX_REQUEST_BODY_BYTES in
  let chunk_was_explicit := bool_decide (is_Some (values !! "PATWARI_UPLOAD_CHUNK_SIZE_BYTES")) in
  let? chunk_size_bytes := setting values "PATWARI_UPLOAD_CHUNK_SIZE_BYTES"
    (fun v => parse_bounded_usize v MIN_CHUNK_SIZE_BYTES MAX_CHUNK_SIZE_BYTES) InvalidChunkSize
    (Z.min DEFAULT_CHUNK_SIZE_BYTES max_request_body_bytes) in
  reject max_request_body_bytes <? chunk_size_bytes with ChunkExceedsRequestBody;
  reject negb chunk_was_explicit && (chunk_size_bytes <? MIN_CHUNK_SIZE_BYTES) with InvalidChunkSize;
  let? max_concurrency := setting values "PATWARI_MAX_CONCURRENCY"
    (fun v => parse_bounded_usize v 1 MAX_CONCURRENCY) InvalidConcurrencyLimit DEFAULT_MAX_CONCURRENCY in
  let? max_download_concurrency := setting values "PATWARI_MAX_DOWNLOAD_CONCURRENCY"
    (fun v => parse_bounded_usize v 1 MAX_DOWNLOAD_CONCURRENCY) InvalidDownloadConcurrencyLimit DEFAULT_MAX_DOWNLOAD_CONCURRENCY in
  let? request_timeout := setting values "PATWARI_REQUEST_TIMEOUT"
    (fun v => duration ← parse_duration v; if duration <=? MAX_REQUEST_TIMEOUT then Some duration else None)
    InvalidRequestTimeout DEFAULT_REQUEST_TIMEOUT in
  let stored_limit_was_explicit := bool_decide (is_Some (values !! "PATWARI_MAX_ARTIFACT_STORED_BYTES")) in
  let? max_artifact_stored_bytes :=
    match values !! "PATWARI_MAX_ARTIFACT_STORED_BYTES" with
    | Some value => ok_or (parse_bounded_u64 value 1 MAX_ARTIFACT_BYTES) InvalidStoredArtifactLimit
    | None => let? most := max_stored_bytes_for_chunk_size chunk_size_bytes in Ok (Z.min DEFAULT_MAX_ARTIFACT_STORED_BYTES most)
    end in
  let? most := max_stored_bytes_for_chunk_size chunk_size_bytes in
  reject most <? max_artifact_stored_bytes with (if stored_limit_was_explicit then TooManyChunks else InvalidStoredArtifactLimit);
  let? max_artifact_original_bytes := setting values "PATWARI_MAX_ARTIFACT_ORIGINAL_BYTES"
    (fun v => parse_bounded_u64 v 1 MAX_ARTIFACT_BYTES) InvalidOriginalArtifactLimit DEFAULT_MAX_ARTIFACT_ORIGINAL_BYTES in
  let? max_artifact_count := setting values "PATWARI_MAX_ARTIFACT_COUNT"
    (fun v => parse_bounded_usize v 1 MAX_ARTIFACT_COUNT) InvalidArtifactCountLimit DEFAULT_MAX_ARTIFACT_COUNT in
  let? max_snapshot_stored_bytes := setting values "PATWARI_MAX_SNAPSHOT_STORED_BYTES"
    (fun v => parse_bounded_u64 v 1 MAX_SNAPSHOT_BYTES) InvalidStoredSnapshotLimit DEFAULT_MAX_SNAPSHOT_STORED_BYTES in
  let? max_snapshot_original_bytes := setting values "PATWARI_MAX_SNAPSHOT_ORIGINAL_BYTES"
    (fun v => parse_bounded_u64 v 1 MAX_SNAPSHOT_BYTES) InvalidOriginalSnapshotLimit DEFAULT_MAX_SNAPSHOT_ORIGINAL_BYTES in
  let? upload_expiry := setting values "PATWARI_UPLOAD_EXPIRY"
    (parse_duration_within MIN_UPLOAD_EXPIRY MAX_UPLOAD_EXPIRY) InvalidUploadExpiry DEFAULT_UPLOAD_EXPIRY in
  let? admin_deletion_enabled := setting values "PATWARI_ADMIN_DELETION_ENABLED"
    parse_bool InvalidAdminDeletionEnabled DEFAULT_ADMIN_DELETION_ENABLED in
  let? blob_gc_grace := setting values "PATWARI_BLOB_GC_GRACE"
    (parse_duration_within MIN_BLOB_GC_GRACE MAX_BLOB_GC_GRACE) InvalidBlobGcGrace DEFAULT_BLOB_GC_GRACE in
  let? integrity_scan_concurrency := setting values "PATWARI_INTEGRITY_SCAN_CONCURRENCY"
    (fun v => parse_bounded_usize v 1 MAX_INTEGRITY_SCAN_CONCURRENCY) InvalidIntegrityScanConcurrency DEFAULT_INTEGRITY_SCAN_CONCURRENCY in
  let? integrity_scan_buffer_bytes := setting values "PATWARI_INTEGRITY_SCAN_BUFFER_BYTES"
    (fun v => parse_bounded_usize v MIN_INTEGRITY_SCAN_BUFFER_BYTES MAX_INTEGRITY_SCAN_BUFFER_BYTES)
    InvalidIntegrityScanBuffer DEFAULT_INTEGRITY_SCAN_BUFFER_BYTES in
  let config := mkConfig _ data_dir bind_addr max_request_body_bytes max_concurrency max_download_concurrency request_timeout
    chunk_size_bytes max_artifact_stored_bytes max_artifact_original_bytes max_artifact_count max_snapshot_stored_bytes
    max_snapshot_original_bytes upload_expiry admin_deletion_enabled blob_gc_grace integrity_scan_concurrency
    integrity_scan_buffer_bytes in
  let? _ := validate config in
  Ok config.

(** The state [bootstrap_with_recovery] makes of a configuration. *)
Definition app_state c (identity : ArchiveMetadata.row) : AppState := {|
  Storage.archive_instance_id := ArchiveMetadata.archive_instance_id identity;
  Storage.owner_namespace := ArchiveMetadata.owner_namespace identity;
  Storage.max_request_body_bytes := max_request_body_bytes c; Storage.chunk_size_bytes := chunk_size_bytes c;
  Storage.max_artifact_stored_bytes := max_artifact_stored_bytes c;
  Storage.max_artifact_original_bytes := max_artifact_original_bytes c;
  Storage.max_artifact_count := max_artifact_count c; Storage.max_snapshot_stored_bytes := max_snapshot_stored_bytes c;
  Storage.max_snapshot_original_bytes := max_snapshot_original_bytes c; Storage.upload_expiry := as_secs (upload_expiry c);
  Storage.admin_deletion_enabled := admin_deletion_enabled c; Storage.blob_gc_grace := as_secs (blob_gc_grace c) |}.
End Settings.

(* ------------------------------------------------------------------ *)
(** ** What the texts denote *)

Lemma bounded_Some lo hi n m : bounded lo hi n = Some m <-> m = n /\ lo <= n <= hi.
Proof. unfold bounded. destruct (Z.leb_spec lo n), (Z.leb_spec n hi); simpl; naive_solver lia. Qed.
Lemma parse_bounded_usize_Some v lo hi n : parse_bounded_usize v lo hi = Some n <-> parse_uint u64_max v = Some n /\ lo <= n <= hi.
Proof. unfold parse_bounded_usize. rewrite bind_Some. setoid_rewrite bounded_Some. naive_solver. Qed.
Lemma parse_bounded_u64_Some v lo hi n : parse_bounded_u64 v lo hi = Some n <-> parse_uint u64_max v = Some n /\ lo <= n <= hi.
Proof. apply parse_bounded_usize_Some. Qed.
Lemma strip_suffix_Some c v t : strip_suffix c v = Some t <-> v = t +:+ String.String c "".
Proof.
  unfold strip_suffix. split.
  - destruct (rev (chars v)) as [|x l] eqn:E; [done|]. case_bool_decide as Hx; [|done]. intros [= <-]. subst x.
    apply (inj chars). rewrite chars_app, chars_of_chars. apply (f_equal (@rev _)) in E. rewrite rev_involutive in E. exact E.
  - intros ->. rewrite chars_app, rev_app_distr. simpl. rewrite bool_decide_true by done. by rewrite rev_involutive, of_chars_chars.
Qed.

(** The unit a duration ends with. *)
Definition unit_seconds (u : ascii) : option Z :=
  if bool_decide (u = "s"%char) then Some 1 else if bool_decide (u = "m"%char) then Some 60
  else if bool_decide (u = "h"%char) then Some 3600 else if bool_decide (u = "d"%char) then Some 86400 else None.
Lemma strip_suffix_ne c u t : u <> c -> strip_suffix c (t +:+ String.String u "") = None.
Proof. intros Hne. unfold strip_suffix. rewrite chars_app, rev_app_distr. simpl. by rewrite bool_decide_false. Qed.
Lemma duration_unit_Some v number m : duration_unit v = Some (number, m) <->
  exists u, v = number +:+ String.String u "" /\ unit_seconds u = Some m.
Proof.
  split.
  - unfold duration_unit.
    destruct (strip_suffix "s" v) as [t|] eqn:E1; [apply strip_suffix_Some in E1; intros [= <- <-]; by exists "s"%char|].
    destruct (strip_suffix "m" v) as [t|] eqn:E2; [apply strip_suffix_Some in E2; intros [= <- <-]; by exists "m"%char|].
    destruct (strip_suffix "h" v) as [t|] eqn:E3; [apply strip_suffix_Some in E3; intros [= <- <-]; by exists "h"%char|].
    intros (t & E4%strip_suffix_Some & [= <- <-])%bind_Some. by exists "d"%char.
  - intros (u & -> & Hu). unfold unit_seconds in Hu. unfold duration_unit.
    repeat case_bool_decide; simplify_eq; rewrite ?strip_suffix_ne by done; by rewrite (proj2 (strip_suffix_Some _ _ number)).
Qed.

(** A number of seconds, minutes, hours or days: a positive number followed by
    its unit, and no more seconds than a [u64] holds. *)
Definition denotes_duration (v : string) (d : Z) : Prop := exists number u n m,
  v = number +:+ String.String u "" /\ unit_seconds u = Some m /\ parse_uint u64_max number = Some n
  /\ 0 < n /\ n * m <= u64_max /\ d = from_secs (n * m).
Lemma parse_duration_Some v d : parse_duration v = Some d <-> denotes_duration v d.
Proof.
  unfold parse_duration, denotes_duration. rewrite bind_Some. split.
  - intros ([number m] & (u & -> & Hu)%duration_unit_Some & (n & En & (n' & Hn & (t & Ht & [= <-])%bind_Some)%bind_Some)%bind_Some).
    destruct (Z.ltb_spec 0 n); [|done]. injection Hn as <-. apply checked_mul_u64_Some in Ht as [-> Ht]. by exists number, u, n, m.
  - intros (number & u & n & m & -> & Hu & En & Hn & Hm & ->). exists (number, m). split; [apply duration_unit_Some; by exists u|].
    simpl. rewrite En. simpl. rewrite (proj2 (Z.ltb_lt _ _) Hn). simpl.
    by rewrite (proj2 (checked_mul_u64_Some n m (n * m)) (conj eq_refl Hm)).
Qed.
Lemma parse_duration_within_Some lo hi v d : parse_duration_within lo hi v = Some d <-> denotes_duration v d /\ lo <= d <= hi.
Proof. unfold parse_duration_within. rewrite bind_Some. setoid_rewrite bounded_Some. setoid_rewrite parse_duration_Some. naive_solver. Qed.

(* ------------------------------------------------------------------ *)
(** ** The bounds *)

Section Bounds.
Context `{SocketAddrs}.
Implicit Types c : Config.

(** What [validate] holds a configuration to. *)
Record config_ok c : Prop := {
  ok_data_dir : data_dir c <> "";
  ok_body : 1024 <= max_request_body_bytes c <= 67108864;
  ok_concurrency : 1 <= max_concurrency c <= 256;
  ok_downloads : 1 <= max_download_concurrency c <= 64;
  ok_timeout : 0 < request_timeout c <= from_secs 300;
  ok_chunk : 1024 <= chunk_size_bytes c <= 33554432;
  ok_chunk_body : chunk_size_bytes c <= max_request_body_bytes c;
  ok_stored : 1 <= max_artifact_stored_bytes c <= 8589934592;
  ok_original : 1 <= max_artifact_original_bytes c <= 8589934592;
  ok_count : 1 <= max_artifact_count c <= 1024;
  ok_snapshot_stored : 1 <= max_snapshot_stored_bytes c <= 68719476736;
  ok_snapshot_original : 1 <= max_snapshot_original_bytes c <= 68719476736;
  ok_chunks : max_artifact_stored_bytes c <= chunk_size_bytes c * MAX_CHUNK_COUNT;
  ok_expiry : from_secs 60 <= upload_expiry c <= from_secs (30 * 86400);
  ok_grace : from_secs 60 <= blob_gc_grace c <= from_secs (365 * 86400);
  ok_scans : 1 <= integrity_scan_concurrency c <= 32;
  ok_buffer : 4096 <= integrity_scan_buffer_bytes c <= 1048576;
}.
(** The bounds the documentation and the messages of the errors give, which the
    environment is held to: [validate] asks less of two of them, for which any
    timeout above zero and any nonempty path will do. *)
Record config_documented c : Prop := {
  dd_ok : config_ok c;
  dd_data_dir : trim_is_empty (data_dir c) = false;
  dd_timeout : from_secs 1 <= request_timeout c <= from_secs 300;
}.
(** The fields of a configuration are unsigned. *)
Record config_typed c : Prop := {
  ty_timeout : 0 <= request_timeout c;
  ty_stored : 0 <= max_artifact_stored_bytes c;
  ty_original : 0 <= max_artifact_original_bytes c;
  ty_snapshot_stored : 0 <= max_snapshot_stored_bytes c;
  ty_snapshot_original : 0 <= max_snapshot_original_bytes c;
}.

Lemma contains_true lo hi n : contains lo hi n = true <-> lo <= n <= hi.
Proof. unfold contains. rewrite andb_true_iff, !Z.leb_le. done. Qed.
Lemma most_for_chunk n m : max_stored_bytes_for_chunk_size n = Ok m <-> m = n * MAX_CHUNK_COUNT /\ n * MAX_CHUNK_COUNT <= u64_max.
Proof. unfold max_stored_bytes_for_chunk_size. by rewrite ok_or_Ok, checked_mul_u64_Some. Qed.
(** The bounds of the source, as numbers. *)
Ltac numbers := unfold MIN_REQUEST_BODY_BYTES, MAX_REQUEST_BODY_BYTES, MAX_CONCURRENCY, MAX_DOWNLOAD_CONCURRENCY, MAX_REQUEST_TIMEOUT,
  MIN_CHUNK_SIZE_BYTES, MAX_CHUNK_SIZE_BYTES, MAX_ARTIFACT_BYTES, MAX_ARTIFACT_COUNT, MAX_SNAPSHOT_BYTES, MIN_UPLOAD_EXPIRY,
  MAX_UPLOAD_EXPIRY, MIN_BLOB_GC_GRACE, MAX_BLOB_GC_GRACE, MAX_INTEGRITY_SCAN_CONCURRENCY, MIN_INTEGRITY_SCAN_BUFFER_BYTES,
  MAX_INTEGRITY_SCAN_BUFFER_BYTES, from_mins, from_hours, from_secs, MAX_CHUNK_COUNT, u64_max in *.
Lemma validate_Ok c : config_typed c -> validate c = Ok tt <-> config_ok c.
Proof.
  intros [T1 T2 T3 T4 T5]. unfold validate. split.
  - intros E. inv_res. rewrite most_for_chunk in *. bool_to_prop. destruct_and?.
    repeat match goal with Hx : contains _ _ _ = true |- _ => apply contains_true in Hx end.
    numbers. split; numbers; try done; try lia.
  - intros [E1 E2 E3 E4 E5 E6 E7 E8 E9 E10 E11 E12 E13 E14 E15 E16 E17]. numbers.
    assert (Hm : max_stored_bytes_for_chunk_size (chunk_size_bytes c) = Ok (chunk_size_bytes c * MAX_CHUNK_COUNT))
      by (apply most_for_chunk; numbers; lia).
    rewrite bool_decide_false by done.
    repeat match goal with |- context [contains ?lo ?hi ?n] => rewrite (proj2 (contains_true lo hi n)) by lia; cbn [negb] end.
    rewrite Hm. cbn [res_bind]. numbers.
    repeat match goal with |- context [?a =? 0] => rewrite (proj2 (Z.eqb_neq a 0)) by lia; cbn [orb] end.
    repeat match goal with |- context [?a <? ?b] => rewrite (proj2 (Z.ltb_ge a b)) by lia; cbn [orb] end. done.
Qed.

(** What the environment says of one setting. *)
Definition gives {A} (values : gmap string string) (key : string) (means : string -> A -> Prop) (default : A) (a : A) : Prop :=
  match values !! key with
  | None => a = default
  | Some v => means v a
  end.
Definition number_in (lo hi : Z) (v : string) (n : Z) : Prop := parse_uint u64_max v = Some n /\ lo <= n <= hi.
Definition duration_in (lo hi : Z) (v : string) (d : Z) : Prop := denotes_duration v d /\ lo <= d <= hi.
Lemma setting_Ok {A} values key (parse : string -> option A) (means : string -> A -> Prop) err default a :
  (forall v a, parse v = Some a <-> means v a) ->
  setting values key parse err default = Ok a <-> gives values key means default a.
Proof. intros Hp. unfold setting, gives. destruct (values !! key); [by rewrite ok_or_Ok|naive_solver]. Qed.

(** A configuration is what the environment says: every setting that is there
    denotes its value, the others have their default, which is cut down to what
    the request body and the chunks allow. *)
Record says (values : gmap string string) c : Prop := {
  sy_data_dir : gives values "PATWARI_DATA_DIR" (fun v d => trim_is_empty v = false /\ d = v) "data" (data_dir c);
  sy_bind : gives values "PATWARI_BIND_ADDR" (fun v a => parse_socket_addr v = Some a) default_bind_addr (bind_addr c);
  sy_body : gives values "PATWARI_MAX_REQUEST_BODY_BYTES" (number_in 1024 67108864) 33554432 (max_request_body_bytes c);
  sy_chunk : gives values "PATWARI_UPLOAD_CHUNK_SIZE_BYTES" (number_in 1024 33554432)
    (Z.min 4194304 (max_request_body_bytes c)) (chunk_size_bytes c);
  sy_chunk_body : chunk_size_bytes c <= max_request_body_bytes c;
  sy_concurrency : gives values "PATWARI_MAX_CONCURRENCY" (number_in 1 256) 64 (max_concurrency c);
  sy_downloads : gives values "PATWARI_MAX_DOWNLOAD_CONCURRENCY" (number_in 1 64) 8 (max_download_concurrency c);
  sy_timeout : gives values "PATWARI_REQUEST_TIMEOUT" (duration_in (from_secs 1) (from_secs 300)) (from_secs 30) (request_timeout c);
  sy_stored : gives values "PATWARI_MAX_ARTIFACT_STORED_BYTES" (number_in 1 8589934592)
    (Z.min 1073741824 (chunk_size_bytes c * MAX_CHUNK_COUNT)) (max_artifact_stored_bytes c);
  sy_chunks : max_artifact_stored_bytes c <= chunk_size_bytes c * MAX_CHUNK_COUNT;
  sy_original : gives values "PATWARI_MAX_ARTIFACT_ORIGINAL_BYTES" (number_in 1 8589934592) 4294967296 (max_artifact_original_bytes c);
  sy_count : gives values "PATWARI_MAX_ARTIFACT_COUNT" (number_in 1 1024) 128 (max_artifact_count c);
  sy_snapshot_stored : gives values "PATWARI_MAX_SNAPSHOT_STORED_BYTES" (number_in 1 68719476736) 4294967296 (max_snapshot_stored_bytes c);
  sy_snapshot_original : gives values "PATWARI_MAX_SNAPSHOT_ORIGINAL_BYTES" (number_in 1 68719476736) 17179869184
    (max_snapshot_original_bytes c);
  sy_expiry : gives values "PATWARI_UPLOAD_EXPIRY" (duration_in (from_secs 60) (from_secs (30 * 86400))) (from_secs 86400) (upload_expiry c);
  sy_deletion : gives values "PATWARI_ADMIN_DELETION_ENABLED" (fun v b => v = if (b : bool) then "true" else "false"%string) false
    (admin_deletion_enabled c);
  sy_grace : gives values "PATWARI_BLOB_GC_GRACE" (duration_in (from_secs 60) (from_secs (365 * 86400))) (from_secs (90 * 86400)) (blob_gc_grace c);
  sy_scans : gives values "PATWARI_INTEGRITY_SCAN_CONCURRENCY" (number_in 1 32) 4 (integrity_scan_concurrency c);
  sy_buffer : gives values "PATWARI_INTEGRITY_SCAN_BUFFER_BYTES" (number_in 4096 1048576) 65536 (integrity_scan_buffer_bytes c);
}.
Lemma gives_in values key lo hi default n : gives values key (number_in lo hi) default n -> lo <= default <= hi -> lo <= n <= hi.
Proof. unfold gives, number_in. destruct (values !! key); [naive_solver|by intros ->]. Qed.
Lemma gives_within values key lo hi default d : gives values key (duration_in lo hi) default d -> lo <= default <= hi -> lo <= d <= hi.
Proof. unfold gives, duration_in. destruct (values !! key); [naive_solver|by intros ->]. Qed.
Lemma denotes_positive v d : denotes_duration v d -> from_secs 1 <= d.
Proof.
  intros (number & u & n & m & _ & Hu & _ & Hn & _ & ->). unfold unit_seconds in Hu. unfold from_secs.
  repeat case_bool_decide; simplify_eq; lia.
Qed.
Lemma says_ok values c : says values c -> config_ok c.
Proof.
  intros []. assert (Hb : 1024 <= max_request_body_bytes c <= 67108864) by (eapply gives_in; [eassumption|lia]).
  assert (Hc : 1024 <= chunk_size_bytes c <= 33554432) by (eapply gives_in; [eassumption|lia]).
  split; try done; try (eapply gives_in; [eassumption|unfold MAX_CHUNK_COUNT; lia]);
    try (eapply gives_within; [eassumption|unfold from_secs; lia]).
  - unfold gives in sy_data_dir0. destruct (_ !! _) as [v|]; [|by rewrite sy_data_dir0].
    destruct sy_data_dir0 as [Hv ->]. by intros ->.
  - assert (Ht : from_secs 1 <= request_timeout c <= from_secs 300) by (eapply gives_within; [eassumption|unfold from_secs; lia]).
    unfold from_secs in *. lia.
Qed.
Lemma says_documented values c : says values c -> config_documented c.
Proof.
  intros Hs. split; [by eapply says_ok| |eapply gives_within; [apply Hs|unfold from_secs; lia]].
  pose proof (sy_data_dir _ _ Hs) as Hd. unfold gives in Hd. destruct (_ !! _) as [v|]; [by destruct Hd as [? ->]|by rewrite Hd].
Qed.

Lemma number_setting values key lo hi err default n :
  setting values key (fun v => parse_bounded_usize v lo hi) err default = Ok n <-> gives values key (number_in lo hi) default n.
Proof. apply setting_Ok. intros. apply parse_bounded_usize_Some. Qed.
Lemma duration_setting values key lo hi err default d :
  setting values key (parse_duration_within lo hi) err default = Ok d <-> gives values key (duration_in lo hi) default d.
Proof. apply setting_Ok. intros. apply parse_duration_within_Some. Qed.
Lemma data_dir_setting values err d : setting values "PATWARI_DATA_DIR" parse_data_dir err "data" = Ok d <->
  gives values "PATWARI_DATA_DIR" (fun v d => trim_is_empty v = false /\ d = v) "data" d.
Proof. apply setting_Ok. intros v a. unfold parse_data_dir. destruct (trim_is_empty v); naive_solver. Qed.
Lemma timeout_setting values err d :
  setting values "PATWARI_REQUEST_TIMEOUT" (fun v => duration ← parse_duration v; if duration <=? MAX_REQUEST_TIMEOUT then Some duration else None)
    err DEFAULT_REQUEST_TIMEOUT = Ok d <->
  gives values "PATWARI_REQUEST_TIMEOUT" (duration_in (from_secs 1) (from_secs 300)) (from_secs 30) d.
Proof.
  apply setting_Ok. intros v a. rewrite bind_Some. setoid_rewrite parse_duration_Some. unfold duration_in.
  change MAX_REQUEST_TIMEOUT with (from_secs 300). split.
  - intros (b & Hb & E). destruct (Z.leb_spec b (from_secs 300)); [|done]. injection E as <-. pose proof (denotes_positive _ _ Hb). split; [done|lia].
  - intros [Hd [_ Hm]]. exists a. split; [done|]. by rewrite (proj2 (Z.leb_le _ _) Hm).
Qed.
Lemma bool_setting values err b : setting values "PATWARI_ADMIN_DELETION_ENABLED" parse_bool err false = Ok b <->
  gives values "PATWARI_ADMIN_DELETION_ENABLED" (fun v b => v = if (b : bool) then "true" else "false"%string) false b.
Proof. apply setting_Ok. intros v a. unfold parse_bool. repeat case_bool_decide; destruct a; naive_solver. Qed.
Lemma stored_setting values chunk err n : chunk * MAX_CHUNK_COUNT <= u64_max ->
  match values !! "PATWARI_MAX_ARTIFACT_STORED_BYTES" with
  | Some value => ok_or (parse_bounded_u64 value 1 MAX_ARTIFACT_BYTES) err
  | None => let? most := max_stored_bytes_for_chunk_size chunk in Ok (Z.min DEFAULT_MAX_ARTIFACT_STORED_BYTES most)
  end = Ok n <->
  gives values "PATWARI_MAX_ARTIFACT_STORED_BYTES" (number_in 1 8589934592) (Z.min 1073741824 (chunk * MAX_CHUNK_COUNT)) n.
Proof.
  intros Hm. unfold gives. destruct (values !! _) as [v|]; [by rewrite ok_or_Ok, parse_bounded_u64_Some|].
  rewrite (proj2 (most_for_chunk _ _) (conj eq_refl Hm)). cbn [res_bind]. change DEFAULT_MAX_ARTIFACT_STORED_BYTES with 1073741824. naive_solver.
Qed.
Lemma number_setting64 values key lo hi err default n :
  setting values key (fun v => parse_bounded_u64 v lo hi) err default = Ok n <-> gives values key (number_in lo hi) default n.
Proof. apply number_setting. Qed.
Lemma bind_setting values err a : setting values "PATWARI_BIND_ADDR" parse_socket_addr err default_bind_addr = Ok a <->
  gives values "PATWARI_BIND_ADDR" (fun v a => parse_socket_addr v = Some a) default_bind_addr a.
Proof. by apply setting_Ok. Qed.
Ltac read_settings := repeat match goal with
  | Hx : setting _ _ _ _ _ = Ok _ |- _ =>
      first [apply data_dir_setting in Hx|apply bind_setting in Hx|apply timeout_setting in Hx|apply bool_setting in Hx|apply number_setting in Hx|apply duration_setting in Hx]
  end.
Lemma config_ok_typed c : config_ok c -> config_typed c.
Proof. intros []. split; lia. Qed.
Ltac set_to lem := erewrite (proj2 (lem _ _ _ _ _ _ _)) || erewrite (proj2 (lem _ _ _)); [cbn [res_bind]|eassumption].
Lemma from_values_Ok values c : from_values values = Ok c <-> says values c.
Proof.
  unfold from_values. split.
  - intros E. inv_res. read_settings. rewrite most_for_chunk in *. destruct_and?. subst.
    match goal with Hs : match _ with Some _ => _ | None => _ end = Ok _ |- _ => apply stored_setting in Hs; [|done] end.
    bool_to_prop. split; try done.
  - intros Hs. pose proof (says_ok _ _ Hs) as Hok. pose proof (ok_chunk _ Hok).
    assert (Hv : validate c = Ok tt) by by apply validate_Ok; [apply config_ok_typed|]. destruct Hs.
    assert (Hm : chunk_size_bytes c * MAX_CHUNK_COUNT <= u64_max) by (unfold MAX_CHUNK_COUNT, u64_max; lia).
    set_to data_dir_setting. set_to bind_setting. set_to number_setting. set_to number_setting.
    rewrite (proj2 (Z.ltb_ge _ _)) by done. rewrite (proj2 (Z.ltb_ge _ MIN_CHUNK_SIZE_BYTES)), andb_false_r by apply (ok_chunk _ Hok).
    set_to number_setting. set_to number_setting. set_to timeout_setting.
    rewrite (proj2 (stored_setting _ _ _ _ Hm) sy_stored0). cbn [res_bind].
    rewrite (proj2 (most_for_chunk _ _) (conj eq_refl Hm)). cbn [res_bind]. rewrite (proj2 (Z.ltb_ge _ _)) by done.
    set_to number_setting64. set_to number_setting. set_to number_setting64. set_to number_setting64. set_to duration_setting.
    set_to bool_setting. set_to duration_setting. set_to number_setting. set_to number_setting.
    destruct c. cbn in Hv |- *. by rewrite Hv.
Qed.

(** The default configuration, with a directory of blanks and a timeout of a
    nanosecond: nothing of the environment could give either. *)
Definition loose_config : Config := {|
  data_dir := " "; bind_addr := default_bind_addr;
  max_request_body_bytes := DEFAULT_MAX_REQUEST_BODY_BYTES; max_concurrency := DEFAULT_MAX_CONCURRENCY;
  max_download_concurrency := DEFAULT_MAX_DOWNLOAD_CONCURRENCY; request_timeout := 1;
  chunk_size_bytes := DEFAULT_CHUNK_SIZE_BYTES; max_artifact_stored_bytes := DEFAULT_MAX_ARTIFACT_STORED_BYTES;
  max_artifact_original_bytes := DEFAULT_MAX_ARTIFACT_ORIGINAL_BYTES; max_artifact_count := DEFAULT_MAX_ARTIFACT_COUNT;
  max_snapshot_stored_bytes := DEFAULT_MAX_SNAPSHOT_STORED_BYTES;
  max_snapshot_original_bytes := DEFAULT_MAX_SNAPSHOT_ORIGINAL_BYTES; upload_expiry := DEFAULT_UPLOAD_EXPIRY;
  admin_deletion_enabled := DEFAULT_ADMIN_DELETION_ENABLED; blob_gc_grace := DEFAULT_BLOB_GC_GRACE;
  integrity_scan_concurrency := DEFAULT_INTEGRITY_SCAN_CONCURRENCY;
  integrity_scan_buffer_bytes := DEFAULT_INTEGRITY_SCAN_BUFFER_BYTES |}.
Lemma loose_config_validates : config_typed loose_config /\ validate loose_config = Ok tt
  /\ trim_is_empty (data_dir loose_config) = true /\ request_timeout loose_config < from_secs 1.
Proof. by split_and!; [split|vm_compute..]. Qed.

(** C25: the environment is read exactly. A configuration is accepted when every
    setting that is there denotes its value within its bounds, and the chunks fit
    the request body and the stored artifacts fit the chunks; it is then what the
    settings say, with the documented defaults for the others, and within the
    documented bounds. Nothing invalid is passed over, and nothing valid refused.
    A configuration made by a program is valid exactly when it respects the bounds
    of [config_ok]; these are the same but for two, and looser there: a timeout of
    less than a second and a directory of blanks, which the environment refuses,
    are valid. *)
Theorem from_values_exact values c :
  (from_values values = Ok c <-> says values c)
  /\ (from_values values = Ok c -> config_documented c)
  /\ (config_typed c -> (validate c = Ok tt <-> config_ok c))
  /\ exists loose, config_typed loose /\ validate loose = Ok tt
       /\ trim_is_empty (data_dir loose) = true /\ request_timeout loose < from_secs 1.
Proof.
  split_and!; [apply from_values_Ok| |apply validate_Ok|exists loose_config; apply loose_config_validates].
  intros Hs%from_values_Ok. by eapply says_documented.
Qed.

(** C26: a configuration read from the environment keeps its promises to the
    handlers: every bound holds, the limits of the state made of it are machine
    integers, every artifact within the stored limit has a layout within the
    bounded number of chunks, a chunk fits a request body, and no part of a
    second of the grace periods is lost. *)
Theorem settings_fit values c identity : from_values values = Ok c ->
  config_ok c /\ limits_typed (manifest_limits (app_state c identity))
  /\ (forall size, 0 <= size <= Storage.max_artifact_stored_bytes (app_state c identity) ->
       exists n, chunk_count size (Storage.chunk_size_bytes (app_state c identity)) = Ok n /\ n <= MAX_CHUNK_COUNT)
  /\ Storage.chunk_size_bytes (app_state c identity) <= Storage.max_request_body_bytes (app_state c identity)
  /\ from_secs (Storage.upload_expiry (app_state c identity)) = upload_expiry c
  /\ from_secs (Storage.blob_gc_grace (app_state c identity)) = blob_gc_grace c.
Proof.
  intros Hs%from_values_Ok. pose proof (says_ok _ _ Hs) as Hok. split; [done|].
  assert (Hsecs : forall key lo hi default d, gives values key (duration_in lo hi) (from_secs default) d -> from_secs (as_secs d) = d).
  { intros key lo hi default d Hd. assert (exists k, d = from_secs k) as [k ->].
    - unfold gives in Hd. destruct (_ !! _) as [v|]; [|by exists default].
      destruct Hd as [(number & u & n & m & _ & _ & _ & _ & _ & ->) _]. by eexists.
    - unfold as_secs, from_secs. by rewrite Z.div_mul. }
  split_and!.
  - destruct Hok. repeat split; simpl; unfold u64_max; lia.
  - cbn [app_state Storage.max_artifact_stored_bytes Storage.chunk_size_bytes]. intros size Hsize. destruct Hok.
    assert (Hc : ceil_div size (chunk_size_bytes c) <= MAX_CHUNK_COUNT) by (unfold ceil_div; apply Z.lt_succ_r, Z.div_lt_upper_bound; lia).
    exists (ceil_div size (chunk_size_bytes c)). split; [|done]. rewrite chunk_count_spec by (unfold u64_max; lia).
    by rewrite (proj2 (Z.ltb_ge _ _)).
  - apply (ok_chunk_body _ Hok).
  - eapply Hsecs, (sy_expiry _ _ Hs).
  - eapply Hsecs, (sy_grace _ _ Hs).
Qed.
End Bounds.

(** *** An environment *)

#[local] Instance text_addresses : SocketAddrs := {
  SocketAddr := string; parse_socket_addr s := if bool_decide (s = DEFAULT_BIND_ADDR) then Some s else None;
  default_bind_addr := DEFAULT_BIND_ADDR; default_bind_addr_valid := eq_refl }.
Definition small_volume : gmap string string := list_to_map [
  ("PATWARI_DATA_DIR", "/srv/archive"); ("PATWARI_MAX_REQUEST_BODY_BYTES", "8192"); ("PATWARI_UPLOAD_EXPIRY", "2h");
  ("PATWARI_ADMIN_DELETION_ENABLED", "true"); ("PATWARI_BLOB_GC_GRACE", "7d")]%string.
Definition small_config : res ConfigError.t Config := from_values small_volume.
Lemma small_config_reads : match small_config with
  | Ok c => Some (data_dir c, chunk_size_bytes c, max_artifact_stored_bytes c, as_secs (upload_expiry c), admin_deletion_enabled c)
  | Err _ => None end = Some ("/srv/archive"%string, 8192, 536870912, 7200, true).
Proof. by vm_compute. Qed.
Lemma small_config_refuses : from_values (<["PATWARI_UPLOAD_EXPIRY" := "2w"]> small_volume) = Err InvalidUploadExpiry
  /\ from_values (<["PATWARI_UPLOAD_CHUNK_SIZE_BYTES" := "8193"]> small_volume) = Err ChunkExceedsRequestBody
  /\ from_values (<["PATWARI_MAX_ARTIFACT_STORED_BYTES" := "536870913"]> small_volume) = Err TooManyChunks.
Proof. split_and!; by vm_compute. Qed.
Lemma settings_fit_witness : exists c, from_values small_volume = Ok c /\ config_ok c
  /\ limits_typed (manifest_limits (app_state c (ArchiveMetadata.mk "v1" "archive" ""))).
Proof.
  destruct (from_values small_volume) as [c|e] eqn:E.
  - exists c. destruct (settings_fit small_volume c (ArchiveMetadata.mk "v1" "archive" "") E) as (H1 & H2 & _).
    split; [reflexivity|]. split; [exact H1|exact H2].
  - exfalso. pose proof small_config_reads as Hr. unfold small_config in Hr. rewrite E in Hr. discriminate Hr.
Defined.
