(* ===== verification/Inventory.v ===== *)
(** Archive-wide inventory ([inventory.rs]): the totals of the archive and the
    registered clients; the totals are those of the catalogue the archive shows. *)
From stdpp Require Import prelude strings gmap sorting list.
From Stdlib Require Import ZArith Ascii Lia.
From Stdlib.Strings Require Import Byte.
From S2P Require Import Prelude Errors Contract Externals Validation Chunks Fingerprint Pagination.
From S2P Require Import Tables Store Storage Uploads Receipts Completion Deletion Recovery Archive Invariants Visibility.
From S2P Require Import Catalogue Collection System Refinement Reconcile Documents Retrieval.

Definition STATS_SCHEMA_VERSION : Z := 1.
Definition counter (value : Z) : res ApiError Z := ok_or (i64_to_u64 value) Api.internal.

(** [COUNT( * )] *)
Definition count {R} (rows : list R) : Z := Z.of_nat (length rows).
(** [COALESCE(SUM(..), 0)], which refuses to overflow. *)
Definition total_of {R} (size : R -> Z) (rows : list R) : Z := foldr (fun r n => size r + n) 0 rows.
Definition sum_column {R} (size : R -> Z) (rows : list R) : option Z :=
  let n := total_of size rows in if (i64_min <=? n) && (n <=? i64_max) then Some n else None.

(** [ORDER BY c.server_completed_at_seq DESC, c.id DESC] and the like, from the
    row that comes first. *)
Section FirstRow.
Context {R : Type} (seq : R -> Z) (id : R -> string).
Definition later_first (x y : R) : Prop := seq y < seq x \/ (seq x = seq y /\ String.le (id y) (id x)).
Definition earlier_first (x y : R) : Prop := seq x < seq y \/ (seq x = seq y /\ String.le (id x) (id y)).
#[global] Instance later_first_dec : RelDecision later_first.
Proof. intros x y. unfold later_first. apply _. Defined.
#[global] Instance earlier_first_dec : RelDecision earlier_first.
Proof. intros x y. unfold earlier_first. apply _. Defined.
Definition latest_row (rows : list R) : option R := head (merge_sort later_first rows).
Definition earliest_row (rows : list R) : option R := head (merge_sort earlier_first rows).
End FirstRow.

Definition live_captures (d : Db) : list CaptureRow.row := select (fun c => on_live_snapshot (CaptureRow.snapshot_id c) d) (Tables.captures d).
Definition live_artifacts (d : Db) : list ArtifactRow.row := select (fun a => on_live_snapshot (ArtifactRow.snapshot_id a) d) (artifact_rows d).
Definition live_contexts (d : Db) : list LatestContext.row :=
  select (fun p => on_live_snapshot (LatestContext.snapshot_id p) d) (session_latest_context d).
Definition last_capture_at (rows : list CaptureRow.row) : option string :=
  CaptureRow.server_completed_at <$> latest_row CaptureRow.server_completed_at_seq CaptureRow.id rows.

Record StatsRow : Type := {
  sr_sessions : Z;
  sr_snapshots : Z;
  sr_captures : Z;
  sr_artifacts : Z;
  sr_blobs : Z;
  sr_stored_bytes : Z;
  sr_original_bytes : Z;
  sr_blob_stored_bytes : Z;
  sr_clients : Z;
  sr_tombstones : Z;
  sr_last_ingest_at : option string;
  sr_oldest_activity_at : option string;
  sr_newest_activity_at : option string;
}.
Definition stats_row (d : Db) : option StatsRow :=
  stored ← sum_column Snapshot.total_stored_size_bytes (select live (snapshots d));
  original ← sum_column Snapshot.total_original_size_bytes (select live (snapshots d));
  blob_stored ← sum_column Blob.stored_size_bytes (blobs d);
  Some {| sr_sessions := count (live_contexts d); sr_snapshots := count (select live (snapshots d));
          sr_captures := count (live_captures d); sr_artifacts := count (live_artifacts d); sr_blobs := count (blobs d);
          sr_stored_bytes := stored; sr_original_bytes := original; sr_blob_stored_bytes := blob_stored;
          sr_clients := count (clients d); sr_tombstones := count (tombstones d);
          sr_last_ingest_at := last_capture_at (live_captures d);
          sr_oldest_activity_at := LatestContext.completed_at
            <$> earliest_row LatestContext.completed_at_seq LatestContext.session_id (live_contexts d);
          sr_newest_activity_at := LatestContext.completed_at
            <$> latest_row LatestContext.completed_at_seq LatestContext.session_id (live_contexts d) |}.

Record ClientRow : Type := {
  cl_client_id : string;
  cl_hostname : option string;
  cl_display_name : option string;
  cl_first_seen_at : string;
  cl_last_seen_at : string;
  cl_capture_count : Z;
  cl_last_capture_at : option string;
}.
Definition captures_of_client (client_id : string) (d : Db) : list CaptureRow.row :=
  select (fun c => eqs (CaptureRow.client_id c) client_id) (live_captures d).
Definition client_row (d : Db) (c : Client.row) : ClientRow :=
  {| cl_client_id := Client.id c; cl_hostname := Client.hostname c; cl_display_name := Client.display_name c;
     cl_first_seen_at := Client.created_at c; cl_last_seen_at := Client.updated_at c;
     cl_capture_count := count (captures_of_client (Client.id c) d);
     cl_last_capture_at := last_capture_at (captures_of_client (Client.id c) d) |}.
Definition client_le (x y : Client.row) : Prop := String.le (Client.id x) (Client.id y).
#[global] Instance client_le_dec : RelDecision client_le.
Proof. intros x y. unfold client_le. apply _. Defined.
Definition client_rows (d : Db) : list ClientRow := client_row d <$> merge_sort client_le (clients d).

Section Handlers.
Context `{Env} `{UuidLib} `{TimeLib}.

Definition archive_stats (st : AppState) (generated_at : string) (row : StatsRow) : res ApiError ArchiveStats :=
  let? sessions := counter (sr_sessions row) in
  let? snapshots := counter (sr_snapshots row) in
  let? captures := counter (sr_captures row) in
  let? artifacts := counter (sr_artifacts row) in
  let? blobs := counter (sr_blobs row) in
  let? stored_bytes := counter (sr_stored_bytes row) in
  let? original_bytes := counter (sr_original_bytes row) in
  let? blob_stored_bytes := counter (sr_blob_stored_bytes row) in
  let? clients := counter (sr_clients row) in
  let? tombstones := counter (sr_tombstones row) in
  Ok {| st_schema_version := STATS_SCHEMA_VERSION; st_generated_at := generated_at;
        st_archive_instance_id := archive_instance_id st; st_sessions := sessions; st_snapshots := snapshots;
        st_captures := captures; st_artifacts := artifacts; st_blobs := blobs; st_stored_bytes := stored_bytes;
        st_original_bytes := original_bytes; st_blob_stored_bytes := blob_stored_bytes; st_clients := clients;
        st_tombstones := tombstones; st_last_ingest_at := sr_last_ingest_at row;
        st_oldest_activity_at := sr_oldest_activity_at row; st_newest_activity_at := sr_newest_activity_at row |}.
Definition get_stats (st : AppState) : M ApiError ArchiveStats :=
  let! generated_at := now_rfc3339 in
  let! row := fetch_one db_err stats_row in
  lift (archive_stats st generated_at row).

Definition client_entry (row : ClientRow) : res ApiError ClientInventoryEntry :=
  let? capture_count := counter (cl_capture_count row) in
  Ok {| ci_client_id := cl_client_id row; ci_hostname := cl_hostname row; ci_display_name := cl_display_name row;
        ci_first_seen_at := cl_first_seen_at row; ci_last_seen_at := Some (cl_last_seen_at row);
        ci_capture_count := capture_count; ci_last_capture_at := cl_last_capture_at row |}.
Fixpoint client_entries (rows : list ClientRow) : res ApiError (list ClientInventoryEntry) :=
  match rows with
  | [] => Ok []
  | row :: rows => let? e := client_entry row in let? rest := client_entries rows in Ok (e :: rest)
  end.
Definition list_clients : M ApiError (PaginatedResponse ClientInventoryEntry) :=
  let! rows := query db_err client_rows in
  let! items := lift (client_entries rows) in
  ret {| items := items; next_cursor := None; page_high_watermark := None |}.
End Handlers.

(* ------------------------------------------------------------------ *)
(** ** The totals of the catalogue *)

Lemma total_of_map {R S} (f : S -> R) (size : R -> Z) l : total_of size (f <$> l) = total_of (fun x => size (f x)) l.
Proof. induction l as [|x l IH]; [done|]. rewrite fmap_cons. simpl. by rewrite <-IH. Qed.
Lemma total_of_ext {R} (f g : R -> Z) l : (forall x, x ∈ l -> f x = g x) -> total_of f l = total_of g l.
Proof.
  induction l as [|x l IH]; intros Hfg; [done|]. simpl. rewrite Hfg by left. f_equal. apply IH. intros y Hy. apply Hfg. by right.
Qed.
Lemma total_of_plus {R} (f g : R -> Z) l : total_of (fun x => f x + g x) l = total_of f l + total_of g l.
Proof. induction l as [|x l IH]; simpl; lia. Qed.
Lemma total_of_zero {R} (l : list R) : total_of (fun _ => 0) l = 0.
Proof. induction l; simpl; lia. Qed.
(** The rows that belong to some key, counted key by key. *)
Lemma count_by_key {R Q} (key : R -> string) (id : Q -> string) (qs : list Q) (rows : list R) : NoDup (id <$> qs) ->
  (forall a, a ∈ rows -> exists q, q ∈ qs /\ id q = key a) ->
  total_of (fun q => count (select (fun a => eqs (key a) (id q)) rows)) qs = count rows.
Proof.
  intros Hn. induction rows as [|a rows IH]; intros Hk; [apply total_of_zero|].
  assert (E : forall q, count (select (fun a => eqs (key a) (id q)) (a :: rows)) =
    (if eqs (key a) (id q) then 1 else 0) + count (select (fun a => eqs (key a) (id q)) rows)).
  { intros q. unfold count, select. rewrite filter_cons. destruct (eqs (key a) (id q)); simpl; lia. }
  rewrite (total_of_ext _ _ qs (fun q _ => E q)), total_of_plus, IH by (intros; apply Hk; by right).
  destruct (Hk a) as (q & Hq & Eq); [left|]. enough (total_of (fun q => if eqs (key a) (id q) then 1 else 0) qs = 1).
  { unfold count. simpl. lia. }
  clear E IH Hk. revert q Hq Eq. induction qs as [|p qs IH]; intros q Hq Eq; [by apply elem_of_nil in Hq|].
  apply NoDup_cons in Hn as [Hp Hn]. simpl. destruct (eqs (key a) (id p)) eqn:Ep.
  - apply eqs_true in Ep. rewrite (total_of_ext _ (fun _ => 0)), total_of_zero; [done|].
    intros x Hx. destruct (eqs (key a) (id x)) eqn:Ex; [|done]. apply eqs_true in Ex. exfalso. apply Hp. rewrite <-Ep, Ex.
    by apply list_elem_of_fmap_2.
  - apply elem_of_cons in Hq as [->|Hq]; [by rewrite Eq, eqs_refl in Ep|]. rewrite (IH Hn q Hq Eq). done.
Qed.

(** The captures and the latest contexts of what is published. *)
Definition published_captures (c : Catalogue) (d : Db) : list CaptureRow.row :=
  filter (fun r => CaptureRow.snapshot_id r ∈ p_id <$> c_published c) (Tables.captures d).
Definition published_contexts (c : Catalogue) (d : Db) : list LatestContext.row :=
  filter (fun r => LatestContext.snapshot_id r ∈ p_id <$> c_published c) (session_latest_context d).
(** [answer] is the text of the row that comes first; none if there is no row. *)
Definition first_text {R} (before : R -> R -> Prop) (text : R -> string) (rows : list R) (answer : option string) : Prop :=
  match answer with
  | None => rows = []
  | Some t => exists r, r ∈ rows /\ text r = t /\ forall r', r' ∈ rows -> r' = r \/ before r r'
  end.
(** What the inventory says of a catalogue: every field of the answer. *)
Record tells (st : AppState) (c : Catalogue) (d : Db) (doc : ArchiveStats) : Prop := {
  tl_document : st_schema_version doc = 1 /\ st_archive_instance_id doc = archive_instance_id st;
  tl_snapshots : st_snapshots doc = Z.of_nat (length (c_published c));
  tl_sessions : st_sessions doc = Z.of_nat (length (published_contexts c d));
  tl_captures : st_captures doc = Z.of_nat (length (published_captures c d));
  tl_artifacts : st_artifacts doc = total_of (fun p => ph_artifact_count (p_header p)) (c_published c);
  tl_stored : st_stored_bytes doc = total_of (fun p => ph_stored_bytes (p_header p)) (c_published c);
  tl_original : st_original_bytes doc = total_of (fun p => ph_original_bytes (p_header p)) (c_published c);
  tl_blobs : st_blobs doc = Z.of_nat (length (stored_blobs d)) /\ st_blob_stored_bytes doc = total_of sb_size (stored_blobs d);
  tl_clients : st_clients doc = Z.of_nat (length (clients d));
  tl_tombstones : st_tombstones doc = Z.of_nat (length (tombstones d));
  tl_last_ingest : first_text (fun x y =>
      CaptureRow.server_completed_at_seq y < CaptureRow.server_completed_at_seq x
      \/ (CaptureRow.server_completed_at_seq y = CaptureRow.server_completed_at_seq x
          /\ String.le (CaptureRow.id y) (CaptureRow.id x)))
    CaptureRow.server_completed_at (published_captures c d) (st_last_ingest_at doc);
  tl_oldest : first_text (fun x y =>
      LatestContext.completed_at_seq x < LatestContext.completed_at_seq y
      \/ (LatestContext.completed_at_seq x = LatestContext.completed_at_seq y
          /\ String.le (LatestContext.session_id x) (LatestContext.session_id y)))
    LatestContext.completed_at (published_contexts c d) (st_oldest_activity_at doc);
  tl_newest : first_text (fun x y =>
      LatestContext.completed_at_seq y < LatestContext.completed_at_seq x
      \/ (LatestContext.completed_at_seq y = LatestContext.completed_at_seq x
          /\ String.le (LatestContext.session_id y) (LatestContext.session_id x)))
    LatestContext.completed_at (published_contexts c d) (st_newest_activity_at doc);
}.

(** The first row of a sorted listing comes before every other. *)
Lemma first_text_sorted {R} (before : R -> R -> Prop) `{!RelDecision before} (text : R -> string) rows :
  Total before -> Transitive before -> first_text before text rows (text <$> head (merge_sort before rows)).
Proof.
  intros Ht Htr. pose proof (merge_sort_Permutation before rows) as Hp.
  pose proof (StronglySorted_merge_sort before rows) as Hs. destruct (merge_sort before rows) as [|r l]; simpl.
  - by apply Permutation_nil_l in Hp.
  - exists r. split; [rewrite <-Hp; left|]. split; [done|]. intros r'. rewrite <-Hp, elem_of_cons.
    intros [->|Hin]; [by left|right]. apply StronglySorted_inv in Hs as [_ Hs]. rewrite Forall_forall in Hs. by apply Hs.
Qed.
Lemma first_text_weaken {R} (before before' : R -> R -> Prop) (text : R -> string) rows answer :
  (forall x y, before x y -> before' x y) -> first_text before text rows answer -> first_text before' text rows answer.
Proof.
  intros Hb. destruct answer as [t|]; [|done]. intros (r & Hr & Et & Hf). exists r. split_and!; [done..|].
  intros r' Hr'. destruct (Hf r' Hr'); [by left|right; auto].
Qed.
Section OrderLaws.
Context {R : Type} (seq : R -> Z) (id : R -> string).
#[local] Instance later_first_total : Total (later_first seq id).
Proof. intros x y. unfold later_first. destruct (total String.le (id x) (id y)); destruct (Z.lt_trichotomy (seq x) (seq y)) as [?|[?|?]]; naive_solver. Qed.
#[local] Instance later_first_trans : Transitive (later_first seq id).
Proof.
  intros x y z [?|[? ?]] [?|[? ?]]; [left; lia..|right]. split; [lia|]. by transitivity (id y).
Qed.
#[local] Instance earlier_first_total : Total (earlier_first seq id).
Proof. intros x y. unfold earlier_first. destruct (total String.le (id x) (id y)); destruct (Z.lt_trichotomy (seq x) (seq y)) as [?|[?|?]]; naive_solver. Qed.
#[local] Instance earlier_first_trans : Transitive (earlier_first seq id).
Proof.
  intros x y z [?|[? ?]] [?|[? ?]]; [left; lia..|right]. split; [lia|]. by transitivity (id y).
Qed.
Lemma latest_row_first text rows : first_text (fun x y => seq y < seq x \/ (seq y = seq x /\ String.le (id y) (id x)))
  text rows (text <$> latest_row seq id rows).
Proof.
  unfold latest_row. eapply first_text_weaken; [|apply first_text_sorted; apply _].
  unfold later_first. intros x y. naive_solver.
Qed.
Lemma earliest_row_first text rows : first_text (fun x y => seq x < seq y \/ (seq x = seq y /\ String.le (id x) (id y)))
  text rows (text <$> earliest_row seq id rows).
Proof. apply first_text_sorted; apply _. Qed.
End OrderLaws.

(** A snapshot is live when the catalogue shows it. *)
Lemma on_live_snapshot_published id d : on_live_snapshot id d = true <-> id ∈ p_id <$> c_published (catalogue d).
Proof.
  unfold on_live_snapshot, live_snapshot_by_id. rewrite bool_decide_eq_true, list_elem_of_fmap. split.
  - intros [q Hq]. apply select_one_Some in Hq as [[<-%eqs_true Hl]%andb_true_iff Hq].
    exists (published d (header q)). split; [done|]. apply list_elem_of_fmap_2, elem_of_headers. by exists q.
  - intros (p & -> & (h & -> & (q & Hq & Hl & ->)%elem_of_headers)%list_elem_of_fmap).
    destruct (select_one _ _) eqn:E; [done|]. rewrite select_one_None in E. specialize (E q Hq).
    simpl in E. by rewrite eqs_refl, Hl in E.
Qed.
Lemma live_captures_published d : live_captures d = published_captures (catalogue d) d.
Proof. unfold live_captures, published_captures, select. apply list_filter_iff. intros c. apply on_live_snapshot_published. Qed.
Lemma live_contexts_published d : live_contexts d = published_contexts (catalogue d) d.
Proof. unfold live_contexts, published_contexts, select. apply list_filter_iff. intros c. apply on_live_snapshot_published. Qed.

(** The totals a signed column holds. *)
Definition totals_fit (d : Db) : Prop :=
  0 <= total_of Snapshot.total_stored_size_bytes (select live (snapshots d)) <= i64_max
  /\ 0 <= total_of Snapshot.total_original_size_bytes (select live (snapshots d)) <= i64_max
  /\ 0 <= total_of Blob.stored_size_bytes (blobs d) <= i64_max.

Lemma sum_column_Some {R} (size : R -> Z) rows n : sum_column size rows = Some n <-> n = total_of size rows /\ i64_min <= n <= i64_max.
Proof. unfold sum_column. destruct (Z.leb_spec i64_min (total_of size rows)), (Z.leb_spec (total_of size rows) i64_max); simpl; naive_solver lia. Qed.
Lemma sum_column_fits {R} (size : R -> Z) rows : 0 <= total_of size rows <= i64_max -> sum_column size rows = Some (total_of size rows).
Proof. intros Hf. apply sum_column_Some. unfold i64_min. lia. Qed.
Lemma counter_Ok n m : counter n = Ok m <-> m = n /\ 0 <= n.
Proof. unfold counter. by rewrite ok_or_Ok, i64_to_u64_Some. Qed.
Lemma live_artifacts_all `{ShaLib} `{ZstdLib} owner s : archive_sound owner s -> live_artifacts (db s) = artifact_rows (db s).
Proof.
  intros Ha. unfold live_artifacts, select. pose proof (as_live _ _ Ha) as Hl. revert Hl. generalize (artifact_rows (db s)).
  intros l. induction l as [|a l IH]; intros Hl; [done|].
  rewrite filter_cons_True by (apply bool_decide_true, Hl; left). f_equal. apply IH. intros; apply Hl; by right.
Qed.
Lemma live_artifacts_count `{ShaLib} `{ZstdLib} owner s : archive_sound owner s -> snapshots_whole s ->
  count (live_artifacts (db s)) = total_of Snapshot.artifact_count (select live (snapshots (db s))).
Proof.
  intros Ha Hw. rewrite (live_artifacts_all owner s Ha).
  rewrite <-(count_by_key ArtifactRow.snapshot_id Snapshot.id (select live (snapshots (db s)))).
  - apply total_of_ext. intros q [Hl Hq]%elem_of_select. by apply (sw_count _ Hw q).
  - eapply sublist_NoDup; [apply (sw_ids _ Hw)|]. apply sublist_fmap, sublist_filter.
  - intros a Hin. destruct (as_live _ _ Ha a Hin) as [q Hq]. unfold live_snapshot_by_id in Hq.
    apply select_one_Some in Hq as [[E%eqs_true Hl]%andb_true_iff Hq]. exists q. split; [by apply elem_of_select|done].
Qed.

Section Totals.
Context `{EV : Env} `{UL : UuidLib} {ULaws : UuidLaws UL} `{TL : TimeLib} {TLaws : TimeLaws TL} `{ML : MimeLib}
  `{SL : ShaLib} {SLaws : ShaLaws SL} `{ZL : ZstdLib} `{JL : JsonLib} {JLaws : JsonLaws JL}.
Context (st : AppState) (Hst : limits_typed (manifest_limits st)).

Lemma wp_now_clock {E} (Q : res E OffsetDateTime -> Store -> Prop) s : (forall k, Q (Ok (clock k)) s) -> wp now Q s.
Proof. intros HQ n. apply HQ. Qed.
Lemma archive_stats_tells s row text doc : reachable st s -> stats_row (db s) = Some row -> archive_stats st text row = Ok doc ->
  tells st (catalogue (db s)) (db s) doc.
Proof.
  intros Hs Er Ed. pose proof (reachable_restartable st Hst s Hs) as ((_ & Ha & _) & Hw & _).
  unfold stats_row in Er. apply bind_Some in Er as (n1 & [E1 _]%sum_column_Some & Er).
  apply bind_Some in Er as (n2 & [E2 _]%sum_column_Some & Er). apply bind_Some in Er as (n3 & [E3 _]%sum_column_Some & Er). injection Er as <-.
  unfold archive_stats in Ed. inv_res. rewrite counter_Ok in *. destruct_and?. subst.
  assert (Hpub : forall f : Published -> Z, forall g, (forall q, f (published (db s) (header q)) = g q) ->
    total_of f (c_published (catalogue (db s))) = total_of g (select live (snapshots (db s)))).
  { intros f g Hfg. unfold catalogue, headers. cbn [c_published]. rewrite !total_of_map. by apply total_of_ext. }
  split; cbn [st_schema_version st_archive_instance_id st_sessions st_captures st_snapshots st_artifacts st_stored_bytes
      st_original_bytes st_blobs st_blob_stored_bytes st_clients st_tombstones st_last_ingest_at st_oldest_activity_at
      st_newest_activity_at];
    rewrite ?(Hpub _ Snapshot.artifact_count), ?(Hpub _ Snapshot.total_stored_size_bytes), ?(Hpub _ Snapshot.total_original_size_bytes) by done;
    try done.
  - unfold catalogue, headers. cbn [c_published]. by rewrite !length_fmap.
  - by rewrite <-live_contexts_published.
  - by rewrite <-live_captures_published.
  - by apply (live_artifacts_count (Storage.owner_namespace st)).
  - unfold stored_blobs. rewrite length_fmap, total_of_map. done.
  - rewrite <-live_captures_published. apply latest_row_first.
  - rewrite <-live_contexts_published. apply earliest_row_first.
  - rewrite <-live_contexts_published. apply latest_row_first.
Qed.
Lemma archive_stats_time text row doc : archive_stats st text row = Ok doc -> text = st_generated_at doc.
Proof. unfold archive_stats. intros E. by inv_res. Qed.
Lemma archive_stats_fits s text : totals_fit (db s) -> exists row doc, stats_row (db s) = Some row /\ archive_stats st text row = Ok doc.
Proof.
  intros (F1 & F2 & F3). eexists _, _. split.
  - unfold stats_row. by rewrite (sum_column_fits _ _ F1), (sum_column_fits _ _ F2), (sum_column_fits _ _ F3).
  - unfold archive_stats. cbn. unfold count.
    repeat (match goal with |- context [counter ?n] => rewrite (proj2 (counter_Ok n n)) by (split; [done|lia]) end; cbn [res_bind]). done.
Qed.

(** C27: the inventory is that of the catalogue the archive shows: it counts the
    published snapshots, the sessions whose latest context is one of them, their
    captures, their artifacts and bytes, the blobs that hold them, the clients
    and the tombstones, and the times it reports are those of the last of these
    captures and of the first and the last of these contexts. Reading it changes
    nothing, and when nothing fails and the clock has a text it is answered as
    soon as the totals fit the counters. *)
Theorem stats_tell_catalogue s : reachable st s ->
  wp (get_stats st) (fun r s' => s' = s /\ forall doc, r = Ok doc ->
    tells st (catalogue (db s)) (db s) doc /\ exists k, format_rfc3339 (clock k) = Some (st_generated_at doc)) s
  /\ ((forall k, fails k = None) -> (forall k, is_Some (format_rfc3339 (clock k))) -> totals_fit (db s) ->
      wp (get_stats st) (fun r _ => exists doc, r = Ok doc /\ tells st (catalogue (db s)) (db s) doc) s).
Proof.
  intros Hs. unfold get_stats, now_rfc3339. split.
  - apply wp_bind, wp_bind, wp_now_clock. intros k. simpl. apply wp_lift. destruct (format_rfc3339 (clock k)) as [text|] eqn:Et; simpl; [|done].
    apply wp_bind, wp_fetch_one; [done|]. intros row Er. simpl. apply wp_lift. split; [done|]. intros doc Ed.
    split; [by apply (archive_stats_tells s row text)|]. exists k. rewrite Et. f_equal. by apply (archive_stats_time text row).
  - intros Hc Ht Hf. apply wp_bind, wp_bind, wp_now_clock. intros k. simpl. apply wp_lift. destruct (Ht k) as [text ->]. simpl.
    destruct (archive_stats_fits s text Hf) as (row & doc & Er & Ed).
    apply wp_bind, wp_operation_calm; [done|]. intros n. simpl. rewrite Er. simpl. rewrite Ed. exists doc. split; [done|].
    by apply (archive_stats_tells s row text).
Qed.
End Totals.
