(* ===== verification/Apart.v ===== *)
(** The tables no request touches: the identity of the archive and the history
    of its scans. *)
From stdpp Require Import prelude strings gmap sorting list.
From Stdlib Require Import ZArith Ascii Lia.
From Stdlib.Strings Require Import Byte.
From S2P Require Import Prelude Errors Contract Externals Validation Chunks Fingerprint Pagination.
From S2P Require Import Tables Store Storage Uploads Receipts Completion Deletion Recovery Archive Invariants.
From S2P Require Import Assembly Publication Reclamation Visibility Lifecycle Ledger Restart System.

Definition set_apart (d : Db) : list ArchiveMetadata.row * list IntegrityRun.row * list IntegrityFinding.row :=
  (archive_metadata d, integrity_runs d, integrity_findings d).
Definition apart (s0 s : Store) : Prop := set_apart (db s) = set_apart (db s0).
#[export] Instance apart_db s0 : DbInvariant (apart s0).
Proof. intros s s' E _. unfold apart. by rewrite E. Qed.

Section Frames.
Context `{EV : Env} `{UL : UuidLib} (s0 : Store).
Lemma keeps_apart_execute {E A} (err : SqlxError -> E) (f : Db -> option (Db * A)) :
  (forall d d' a, f d = Some (d', a) -> set_apart d' = set_apart d) -> keeps (apart s0) (execute err f).
Proof. intros Hf. apply keeps_execute. intros s d a Hs Ex. unfold apart in *. simpl. rewrite <-Hs. eauto. Qed.
Lemma keeps_apart_transaction {E A} (b c : SqlxError -> E) (body : M E (TxEnd A)) :
  keeps (apart s0) body -> keeps (apart s0) (transaction b c body).
Proof.
  intros Hb s Hs. apply wp_transaction; [done|]. eapply wp_mono; [|by apply Hb]. intros r s' Hs'. by destruct r as [[a|a]|e].
Qed.
End Frames.

(** A statement on any other table. *)
Ltac apart_execute :=
  let d := fresh "d" in
  apply keeps_apart_execute; intros d; do 2 intro;
  unfold complete_rows, delete_upload, delete_manifests, insert_snapshot, mark_deleted; destruct d; simpl; table_cases;
  intros; repeat case_match;
  repeat match goal with Hx : context [insert_row ?a ?x ?y] |- _ => destruct (insert_row a x y) end; simplify_eq/=; done.
Ltac keeps_apart_tac := repeat
  lazymatch goal with
  | |- keeps _ (execute _ _) => apart_execute
  | |- keeps _ (transaction _ _ _) => apply keeps_apart_transaction
  | |- keeps _ (for_each _ _) => apply keeps_for_each; do 2 intro
  | |- keeps _ (remove_upload_dir _ _) => apply keeps_db_remove_dir_all; apply _
  | _ => keeps_step
  end.

Section Uploads.
Context `{EV : Env} `{UL : UuidLib} `{TL : TimeLib} `{ML : MimeLib} `{SL : ShaLib} `{ZL : ZstdLib} `{JL : JsonLib}.
Context (st : AppState) (s0 : Store).

Lemma apart_terminalize upload reason : keeps (apart s0) (terminalize_upload_locked upload reason).
Proof. unfold terminalize_upload_locked, now_rfc3339, terminalize_transaction. keeps_apart_tac. Qed.
#[local] Hint Resolve apart_terminalize : keeps.
Lemma apart_register_client id payload : keeps (apart s0) (register_client st id payload).
Proof. unfold register_client, now_rfc3339. keeps_apart_tac. Qed.
Lemma apart_expire_uploads_at t : keeps (apart s0) (expire_uploads_at t).
Proof.
  unfold expire_uploads_at. keeps_apart_tac.
  match goal with |- keeps _ (expire_candidates _ ?l _) => generalize 0; induction l as [| x y IH]; intros k end; simpl.
  - keeps_apart_tac.
  - apply keeps_bind; [|intros; apply IH]. unfold expire_candidate, get_active_upload. keeps_apart_tac.
Qed.
Lemma apart_require_active_upload u : keeps (apart s0) (require_active_upload u).
Proof. unfold require_active_upload, get_active_upload. keeps_apart_tac. Qed.
Lemma apart_upload_artifact_statuses upload : keeps (apart s0) (upload_artifact_statuses upload).
Proof.
  unfold upload_artifact_statuses, get_upload_artifacts. keeps_apart_tac.
  match goal with |- keeps _ (statuses_of _ ?l) => induction l as [| x y IH] end; simpl; keeps_apart_tac.
  unfold upload_artifact_status. keeps_apart_tac.
Qed.
#[local] Hint Resolve apart_expire_uploads_at apart_require_active_upload apart_upload_artifact_statuses : keeps.
Lemma apart_get_upload_status u : keeps (apart s0) (get_upload_status u).
Proof.
  unfold get_upload_status, get_active_upload, audit_upload_response, active_upload_status_response. keeps_apart_tac.
Qed.
Lemma apart_abandon_upload u : keeps (apart s0) (abandon_upload u).
Proof. unfold abandon_upload, get_active_upload, audit_upload_response. keeps_apart_tac. Qed.
Lemma apart_put_artifact_chunk u a i headers body : keeps (apart s0) (put_artifact_chunk u a i headers body).
Proof.
  assert (Hw : forall p n k h, keeps (apart s0) (write_frames body p n k h)).
  { intros p n. induction body as [|[data| |] b IH]; intros k h; simpl; keeps_apart_tac; apply IH. }
  unfold put_artifact_chunk, get_upload_artifact, get_chunk, confirm_chunk, accept_chunk,
    store_chunk_file, ensure_chunk_dir, write_chunk_body, now_rfc3339, persist_chunk_record, verify_stored_file,
    persist_chunk_transaction, refresh_upload_status, upload_is_complete, get_upload_artifacts, update_open_status.
  keeps_apart_tac.
  match goal with |- keeps _ (all_complete _ ?l) => induction l as [| x y IH]; simpl; keeps_apart_tac end.
Qed.
Lemma apart_insert_upload_artifacts u i arts : keeps (apart s0) (insert_upload_artifacts u i arts).
Proof.
  revert i. induction arts as [|[a n] arts IH]; intros i; simpl; [keeps_apart_tac|].
  unfold insert_upload_artifact. keeps_apart_tac.
Qed.
#[local] Hint Resolve apart_insert_upload_artifacts : keeps.
Lemma apart_create_upload payload : keeps (apart s0) (create_upload st payload).
Proof.
  unfold create_upload, persist_upload, persist_transaction, get_or_create_session, ensure_terminal_capture_reuse_is_equivalent,
    persist_new_upload_detail, legacy_manifest_equivalent, active_upload_response, get_active_upload. keeps_apart_tac.
Qed.
End Uploads.

(* ------------------------------------------------------------------ *)
(** ** Completion, deletion, collection, restart *)

Section Archive.
Context `{EV : Env} `{UL : UuidLib} `{TL : TimeLib} `{ML : MimeLib} `{SL : ShaLib} `{ZL : ZstdLib} `{JL : JsonLib}.
Context (st : AppState) (s0 : Store).

Lemma apart_insert_capture_provenance upload m mid sid at_ :
  keeps (apart s0) (insert_capture_provenance st upload m mid sid at_).
Proof. unfold insert_capture_provenance, maintain_session_latest_context, upsert_session_latest_context. keeps_apart_tac. Qed.
#[local] Hint Resolve apart_insert_capture_provenance : keeps.
Lemma apart_finalize_existing upload m sid transfer :
  keeps (apart s0) (finalize_upload_for_existing_snapshot st upload m sid transfer).
Proof.
  unfold finalize_upload_for_existing_snapshot, finalize_existing_transaction, now_rfc3339. keeps_apart_tac.
Qed.
#[local] Hint Resolve apart_finalize_existing : keeps.
Lemma apart_record_completed_upload upload m prepared promotions fp a b :
  keeps (apart s0) (record_completed_upload st upload m prepared promotions fp a b).
Proof.
  assert (Hb : forall now l ids, keeps (apart s0) (collect_blob_ids st now l ids)).
  { intros now l. induction l as [|p l IH]; intros ids; simpl; [keeps_tac|]. unfold get_or_create_blob.
    keeps_apart_tac; apply IH. }
  assert (Hi : forall now seq l sid ids, keeps (apart s0) (insert_artifacts sid now seq ids l)).
  { intros now seq l. induction l as [|p l IH]; intros sid ids; simpl; [keeps_tac|]. keeps_apart_tac; apply IH. }
  assert (Hc : forall l, keeps (apart s0) (cleanup_uncommitted_promotions st l)).
  { intros l. unfold cleanup_uncommitted_promotions, cleanup_promotion. keeps_apart_tac. }
  unfold record_completed_upload, now_rfc3339, record_transaction, finalize_winning_snapshot.
  repeat lazymatch goal with
  | |- keeps _ (execute _ _) => apart_execute
  | |- keeps _ (transaction _ _ _) => apply keeps_apart_transaction
  | _ => keeps_step
  end.
Qed.
#[local] Hint Resolve apart_record_completed_upload apart_require_active_upload : keeps.
Lemma apart_complete_upload id : keeps (apart s0) (complete_upload st id).
Proof.
  unfold complete_upload, get_upload_manifest, get_upload_artifacts, prepare_artifacts, deduplicate,
    find_snapshot_by_fingerprint, join_existing, archive_new, promote_unique_blobs.
  repeat lazymatch goal with
  | |- keeps _ (ensure_blob_representations_compatible _ _) => apply check_representations_reads
  | |- keeps _ (completion_for_upload _ _) => apply completion_for_upload_reads
  | |- keeps _ (remove_upload_dir _ _) => apply keeps_db_remove_dir_all; apply _
  | _ => keeps_step
  end.
Qed.
Lemma apart_delete_snapshot id headers payload : keeps (apart s0) (delete_snapshot st id headers payload).
Proof.
  unfold delete_snapshot, delete_transaction, rebuild_session_latest_context, insert_tombstone, insert_deletion_audit,
    delete_artifacts, schedule_blob.
  repeat lazymatch goal with
  | |- keeps _ (tombstone_response _ _) => apply tombstone_response_reads
  | |- keeps _ (execute _ _) => apart_execute
  | |- keeps _ (transaction _ _ _) => apply keeps_apart_transaction
  | |- keeps _ (for_each _ _) => apply keeps_for_each; do 2 intro
  | _ => keeps_step
  end.
Qed.
Lemma apart_collect t : keeps (apart s0) (collect_orphaned_blobs_at t).
Proof.
  unfold collect_orphaned_blobs_at. keeps_apart_tac.
  match goal with |- keeps _ (gc_loop _ ?l _) => generalize 0; induction l as [| x y IH]; intros k end; simpl; [keeps_tac|].
  unfold gc_transaction, delete_blob. keeps_apart_tac; apply IH.
Qed.

Lemma apart_tombstone id : keeps (apart s0) (get_tombstone st id).
Proof.
  unfold get_tombstone.
  repeat lazymatch goal with
  | |- keeps _ (tombstone_response _ _) => apply tombstone_response_reads
  | _ => keeps_step
  end.
Qed.
Lemma apart_run_blob_gc : keeps (apart s0) (run_blob_gc st).
Proof. pose proof apart_collect. unfold run_blob_gc, now. keeps_apart_tac. Qed.

(** *** The recovery pass *)

Lemma apart_project_artifacts u single recorded l : forall i,
  keeps (apart s0) (project_artifacts u single recorded i l).
Proof.
  induction l as [|[a n] l IH]; intros i; simpl; [keeps_tac|]. unfold insert_upload_artifact, op, op_some.
  keeps_apart_tac; apply IH.
Qed.
Lemma apart_backfill_rows rows set_key : (forall id key d, set_apart (set_key id key d) = set_apart d) ->
  keeps (apart s0) (backfill_rows rows set_key).
Proof.
  intros Hk. unfold backfill_rows, op, op_some. keeps_apart_tac.
Qed.
#[local] Hint Resolve apart_project_artifacts : keeps.
Ltac recovery_tac := repeat
  lazymatch goal with
  | |- keeps _ (execute _ _) => apart_execute
  | |- keeps _ (transaction _ _ _) => apply keeps_apart_transaction
  | |- keeps _ (for_each _ _) => apply keeps_for_each; do 2 intro
  | |- keeps _ (for_entries _ _ _) => apply keeps_for_entries; do 1 intro
  | |- keeps _ (remove_upload_dir _ _) => apply keeps_db_remove_dir_all; apply _
  | |- keeps _ (op _) => unfold op
  | |- keeps _ (op_some _) => unfold op_some
  | |- keeps _ (remove_recovery_entry _) => unfold remove_recovery_entry
  | |- keeps _ (verify_stored_file _ _ _) => unfold verify_stored_file
  | |- keeps _ (backfill_rows _ _) => apply apart_backfill_rows; intros ? ? d; by destruct d
  | _ => keeps_step
  end.
Lemma apart_upgrades : keeps (apart s0) upgrade_upload_artifact_rows /\ keeps (apart s0) (upgrade_legacy_uploads st)
  /\ keeps (apart s0) upgrade_snapshot_fingerprints /\ keeps (apart s0) backfill_sort_keys.
Proof.
  unfold upgrade_upload_artifact_rows, upgrade_upload_artifact_row, upgrade_legacy_uploads, upgrade_legacy_upload,
    migrate_legacy_file, ensure_chunk_dir, upgrade_snapshot_fingerprints, update_fingerprint, backfill_sort_keys, delete_dead_artifacts.
  split_and!; recovery_tac.
Qed.
Lemma apart_provenance : keeps (apart s0) (backfill_completed_capture_provenance st) /\ keeps (apart s0) rebuild_all_contexts.
Proof.
  unfold backfill_completed_capture_provenance, backfill_capture, get_active_upload, get_upload_manifest, rebuild_all_contexts.
  split; recovery_tac.
Qed.
Lemma apart_all_complete u l : keeps (apart s0) (all_complete u l).
Proof. induction l; simpl; recovery_tac. Qed.
#[local] Hint Resolve apart_all_complete : keeps.
Lemma apart_remove_unknown_upload_directories known : keeps (apart s0) (remove_unknown_upload_directories known).
Proof. unfold remove_unknown_upload_directories. recovery_tac. Qed.
Lemma apart_recover_upload row : keeps (apart s0) (recover_upload row).
Proof.
  unfold recover_upload, recover_active_upload, get_upload_artifacts, recover_artifact_chunks, recover_chunk,
    upload_is_complete, update_open_status. recovery_tac.
Qed.
Lemma apart_recover_unreferenced_blobs : keeps (apart s0) (recover_unreferenced_blobs st).
Proof.
  unfold recover_unreferenced_blobs, keep_referenced, schedule_unreferenced, remove_unknown_blobs. recovery_tac.
Qed.
#[local] Hint Resolve apart_remove_unknown_upload_directories apart_recover_upload apart_recover_unreferenced_blobs
  apart_expire_uploads_at : keeps.
Lemma apart_bootstrap_recovery : keeps (apart s0) (bootstrap_recovery st).
Proof.
  pose proof apart_upgrades as (? & ? & ? & ?). pose proof apart_provenance as [? ?].
  unfold bootstrap_recovery, recover_uploads. recovery_tac.
Qed.
End Archive.

(** Every request and every restart leaves the identity of the archive and the
    history of its scans as they were. *)
Lemma apart_serve `{UL : UuidLib} `{TL : TimeLib} `{ML : MimeLib} `{SL : ShaLib} `{ZL : ZstdLib} `{JL : JsonLib}
    st (EV : Env) r s n : apart s (serve st EV r (s, n)).
Proof.
  destruct r; simpl; (apply keeps_outcome; [|reflexivity]);
    eauto using apart_register_client, apart_create_upload, apart_get_upload_status, apart_put_artifact_chunk,
      apart_abandon_upload, apart_complete_upload, apart_expire_uploads_at, apart_delete_snapshot, apart_tombstone,
      apart_run_blob_gc, apart_collect, apart_bootstrap_recovery.
Qed.
