(* ===== verification/Bootstrap.v ===== *)
(** Start of a server ([service.rs], [database.rs]) and its health
    ([health.rs]): the configuration is validated, the directories are made, the
    identity of the archive is found or made, the state is built from both and
    the recovery pass runs.

    The startup permit and the look at the lease (Maintenance) may turn the start
    away, and opening the database or bringing its schema up to date (sqlx) may
    fail; none of them changes the tables of an archive of this schema. *)
From stdpp Require Import prelude strings gmap sorting list.
From Stdlib Require Import ZArith Ascii Lia.
From Stdlib.Strings Require Import Byte.
From S2P Require Import Prelude Errors Contract Externals Validation Chunks Fingerprint Pagination.
From S2P Require Import Tables Store Storage Uploads Receipts Completion Deletion Recovery Archive Invariants Visibility.
From S2P Require Import Ledger Restart Catalogue System Refinement Config Apart.

Definition OWNER_NAMESPACE : string := "v1".

Module BootstrapError.
Inductive t : Type :=
  | Configuration (e : ConfigError.t) | Storage | Database | Migration | Identity | Clock | Recovery | Bind | Serve.
End BootstrapError.
Abbreviation BootstrapError := BootstrapError.t.

(** [ArchiveIdentity] is the row of [archive_metadata], a table of one row. *)
Abbreviation ArchiveIdentity := ArchiveMetadata.row.
Definition insert_identity (row : ArchiveIdentity) (d : Db) : option (Db * unit) :=
  l ← insert_or_ignore (fun _ => true) (fun _ => true) row (archive_metadata d);
  Some (with_archive_metadata (fun _ => l.1) d, tt).

Section Bootstrap.
Context `{Env} `{UuidLib} `{TimeLib} `{JsonLib} `{ShaLib} `{ZstdLib} `{MimeLib} `{SocketAddrs}.

Definition identity_err (e : SqlxError) : BootstrapError := BootstrapError.Identity.
Definition initialize_identity : M BootstrapError ArchiveIdentity :=
  transaction identity_err identity_err (
    let! t := now in
    let! created_at := lift (ok_or (format_rfc3339 t) BootstrapError.Clock) in
    let! archive_instance_id := new_uuid in
    let! _ := execute identity_err (insert_identity (ArchiveMetadata.mk OWNER_NAMESPACE archive_instance_id created_at)) in
    let! row := fetch_one identity_err (fun d => head (archive_metadata d)) in
    ret (Commit row)).

Definition step_of_start (e : BootstrapError) : M BootstrapError unit := operation (fun _ => e) (ret tt).
Definition connect : M BootstrapError ArchiveIdentity :=
  step_of_start BootstrapError.Database &;
  step_of_start BootstrapError.Migration &;
  initialize_identity.
Definition bootstrap_with_recovery (c : Config) (recover_uploads : bool) : M BootstrapError (AppState * ArchiveIdentity) :=
  let! _ := lift (res_map_err BootstrapError.Configuration (validate c)) in
  step_of_start BootstrapError.Recovery &;   (* the startup permit *)
  storage_create BootstrapError.Storage &;
  let! identity := connect in
  step_of_start BootstrapError.Recovery &;   (* [ensure_not_active] *)
  let st := app_state c identity in
  let! _ := if recover_uploads then map_err (fun _ => BootstrapError.Recovery) (bootstrap_recovery st) else ret tt in
  ret (st, identity).
Definition bootstrap (c : Config) : M BootstrapError (AppState * ArchiveIdentity) := bootstrap_with_recovery c true.
Definition bootstrap_for_integrity (c : Config) : M BootstrapError (AppState * ArchiveIdentity) := bootstrap_with_recovery c false.

(** *** Health *)

Definition liveness : string := "live".
Definition readiness : M Empty_set (StatusCode * string) :=
  let! database := attempt (query (fun _ => tt) (fun _ => tt)) in
  let! storage_ready := is_usable in
  ret (if is_ok database && storage_ready then (OK, "ready"%string) else (SERVICE_UNAVAILABLE, "not_ready"%string)).
Definition api_not_found : ApiError := Api.not_found "endpoint_not_found" "API endpoint was not found".
(** [elapsed]: the error is that of the timeout layer. *)
Definition handle_timeout (elapsed : bool) : ApiError :=
  if elapsed then Api.new REQUEST_TIMEOUT "request_timeout" "request exceeded the configured time limit" else Api.internal.
End Bootstrap.

(* ------------------------------------------------------------------ *)
(** ** The identity stays *)

Section Identity.
Context `{EV : Env} `{UL : UuidLib} `{TL : TimeLib}.

Lemma initialize_identity_wp (Q : res BootstrapError ArchiveIdentity -> Store -> Prop) s :
  (forall k, (drawn s <= k)%nat -> Q (Err BootstrapError.Clock) (mkStore (db s) (files s) k)) ->
  (forall k, (drawn s <= k)%nat -> Q (Err BootstrapError.Identity) (mkStore (db s) (files s) k)) ->
  (forall row, head (archive_metadata (db s)) = Some row -> Q (Ok row) (mkStore (db s) (files s) (S (drawn s)))) ->
  (forall text, archive_metadata (db s) = [] ->
    let row := ArchiveMetadata.mk OWNER_NAMESPACE (now_v7 (drawn s)) text in
    Q (Ok row) (mkStore (with_archive_metadata (fun _ => [row]) (db s)) (files s) (S (drawn s)))) ->
  wp initialize_identity Q s.
Proof.
  intros Hcl He Hold Hnew. assert (He' : Q (Err BootstrapError.Identity) s) by (specialize (He (drawn s) (le_n _)); by destruct s).
  unfold initialize_identity. apply wp_transaction; [intros; apply He'|].
  apply wp_bind, wp_now. intros t. simpl. apply wp_bind, wp_lift. destruct (format_rfc3339 t) as [text|]; simpl; [|by apply Hcl].
  apply wp_bind, wp_new_uuid. simpl. apply wp_bind, wp_execute; simpl; [intros; apply He; simpl; lia|].
  intros d [] Ex. unfold insert_identity in Ex. apply bind_Some in Ex as ([l n] & El & [= <-]). cbn [fst] in *.
  apply insert_or_ignore_Some in El as [(-> & -> & q & Hq & _)|(-> & -> & Hno)].
  - assert (Ed : with_archive_metadata (fun _ => archive_metadata (db s)) (db s) = db s) by by destruct (db s).
    rewrite Ed. apply wp_bind, wp_fetch_one; [intros; apply He; simpl; lia|]. intros row Hrow. simpl in Hrow |- *. apply wp_ret. simpl.
    split; [by apply Hold|]. intros; apply He; simpl; lia.
  - destruct (archive_metadata (db s)) as [|q l] eqn:Em.
    + apply wp_bind, wp_fetch_one; [intros; apply He; simpl; lia|]. simpl. intros row [= <-]. apply wp_ret. simpl.
      split; [by apply Hnew|]. intros; apply He; simpl; lia.
    + destruct (Hno q) as [? _]; [left|done].
Qed.
End Identity.

(* ------------------------------------------------------------------ *)
(** ** A start *)

(** An archive that was started before, or never. *)
Definition named (d : Db) : Prop :=
  archive_metadata d = []
  \/ exists identity, archive_metadata d = [identity] /\ ArchiveMetadata.owner_namespace identity = OWNER_NAMESPACE.

Section Start.
Context `{EV : Env} `{UL : UuidLib} {ULaws : UuidLaws UL} `{TL : TimeLib} `{JL : JsonLib} `{SL : ShaLib} `{ZL : ZstdLib}
  `{ML : MimeLib} `{SA : SocketAddrs}.

Lemma wp_storage_create {E} (err : E) (Q : res E unit -> Store -> Prop) s :
  Q (Ok tt) s -> Q (Err err) s -> wp (storage_create err) Q s.
Proof. intros H1 H2. unfold storage_create, STORAGE_DIRECTORIES. simpl. repeat wp_step; simpl; done. Qed.

Lemma wp_step_of_start e (Q : res BootstrapError unit -> Store -> Prop) s :
  Q (Err e) s -> Q (Ok tt) s -> wp (step_of_start e) Q s.
Proof. intros H1 H2. apply wp_operation; [done|]. by intros n. Qed.
Lemma restartable_owner st st' s : Storage.owner_namespace st = Storage.owner_namespace st' ->
  restartable st s -> restartable st' s.
Proof. unfold restartable. by intros ->. Qed.
Lemma restartable_nameless st s l k : (drawn s <= k)%nat -> restartable st s ->
  restartable st (mkStore (with_archive_metadata (fun _ => l) (db s)) (files s) k).
Proof.
  intros Hk. destruct s as [[] ? ?]. intros ((Hc & [] & []) & [] & []). split; [split; [exact Hc|split]|split]; split; try match goal with Hx : _ |- _ => exact Hx end;
    (eapply Forall_impl; [match goal with Hx : _ |- _ => exact Hx end|eauto using drawn_id_le]).
Qed.

(** Everything a start keeps. *)
Record resumed (s s' : Store) : Prop := {
  rs_restartable : forall st, Storage.owner_namespace st = OWNER_NAMESPACE -> restartable st s -> restartable st s';
  rs_catalogue : catalogue (db s') = catalogue (db s);
  rs_runs : integrity_runs (db s') = integrity_runs (db s);
  rs_findings : integrity_findings (db s') = integrity_findings (db s);
}.
Lemma resumed_named s l k : (drawn s <= k)%nat ->
  resumed s (mkStore (with_archive_metadata (fun _ => l) (db s)) (files s) k).
Proof. intros Hk. split; [intros st _; by apply restartable_nameless|done..]. Qed.
Lemma resumed_drawn s k : (drawn s <= k)%nat -> resumed s (mkStore (db s) (files s) k).
Proof.
  intros Hk. assert (E : with_archive_metadata (fun _ => archive_metadata (db s)) (db s) = db s) by by destruct (db s).
  pose proof (resumed_named s (archive_metadata (db s)) k Hk) as Hr. by rewrite E in Hr.
Qed.
Lemma resumed_refl s : resumed s s.
Proof. by split. Qed.
Lemma resumed_trans s s1 s2 : resumed s s1 -> resumed s1 s2 -> resumed s s2.
Proof. intros [A1 B1 C1 D1] [A2 B2 C2 D2]. split; [eauto|congruence..]. Qed.
Lemma recovery_resumes st s : Storage.owner_namespace st = OWNER_NAMESPACE -> restartable st s ->
  wp (bootstrap_recovery st) (fun _ s' => resumed s s' /\ archive_metadata (db s') = archive_metadata (db s)) s.
Proof.
  intros Ho Hs. eapply wp_mono; [|apply wp_and; [by apply (restartable_bootstrap_recovery st)|apply wp_and;
    [apply (kept_bootstrap_recovery st s), archive_kept_refl; apply Hs|by apply (apart_bootstrap_recovery st s)]]].
  intros r s' (Hr & Hk & Ha). unfold apart, set_apart in Ha. simplify_eq. split; [|done]. split; try done.
  - intros st' Ho' _. by apply (restartable_owner st); [congruence|].
  - by apply catalogue_kept.
Qed.

(** What a start with configuration [c] from the store [s] promises. *)
Definition starts (c : Config) (s : Store) (r : res BootstrapError (AppState * ArchiveIdentity)) (s' : Store) : Prop :=
  resumed s s' /\ named (db s') /\ (forall identity, archive_metadata (db s) = [identity] -> archive_metadata (db s') = [identity])
  /\ match r with
     | Ok (st, identity) => config_ok c /\ st = app_state c identity /\ archive_metadata (db s') = [identity]
         /\ (archive_metadata (db s) = [] ->
             parse_str (ArchiveMetadata.archive_instance_id identity) = Some (ArchiveMetadata.archive_instance_id identity))
     | Err (BootstrapError.Configuration e) => validate c = Err e /\ s' = s
     | Err _ => config_ok c
     end.

(** From the identity on. *)
Lemma recovery_starts c s s1 row : config_ok c ->
  (forall st, Storage.owner_namespace st = OWNER_NAMESPACE -> restartable st s) -> resumed s s1 ->
  archive_metadata (db s1) = [row] -> ArchiveMetadata.owner_namespace row = OWNER_NAMESPACE ->
  (forall identity, archive_metadata (db s) = [identity] -> identity = row) ->
  (archive_metadata (db s) = [] -> exists n, ArchiveMetadata.archive_instance_id row = now_v7 n) ->
  wp (step_of_start BootstrapError.Recovery &;
      let! _ := map_err (fun _ => BootstrapError.Recovery) (bootstrap_recovery (app_state c row)) in ret (app_state c row, row))
    (starts c s) s1.
Proof.
  intros Hc Hs H1 Em Ho Hold Hnew.
  assert (Hst : Storage.owner_namespace (app_state c row) = OWNER_NAMESPACE) by done.
  apply wp_bind, wp_step_of_start; cbn [then_wp].
  { split_and!; try done; [by right; eauto|]. intros identity Hi. by rewrite (Hold _ Hi). }
  apply wp_bind, wp_map_err. eapply wp_mono; [|apply (recovery_resumes _ _ Hst), H1; [done|by apply Hs]].
  intros r s' [Hr Ha]. rewrite Em in Ha. pose proof (resumed_trans _ _ _ H1 Hr) as H2.
  assert (Hn : named (db s')) by (right; eauto).
  assert (Hk : forall identity, archive_metadata (db s) = [identity] -> archive_metadata (db s') = [identity]).
  { intros identity Hi. by rewrite (Hold _ Hi). }
  destruct r as [[]|e]; simpl; [apply wp_ret|]; split_and!; try done.
  intros Hi. destruct (Hnew Hi) as [n ->]. apply parse_now_v7.
Qed.
Lemma bootstrap_wp c s : config_typed c -> named (db s) ->
  (forall st, Storage.owner_namespace st = OWNER_NAMESPACE -> restartable st s) ->
  wp (bootstrap c) (starts c s) s.
Proof.
  intros Hc Hn Hs. unfold bootstrap, bootstrap_with_recovery. apply wp_bind, wp_lift.
  destruct (validate c) as [[]|e] eqn:Ev; simpl.
  2: { by split_and!; [apply resumed_refl|..]. }
  apply validate_Ok in Ev; [|done].
  assert (Hrefuse : forall e, match e with BootstrapError.Configuration _ => False | _ => True end -> starts c s (Err e) s).
  { intros e He. split_and!; [apply resumed_refl|done..|]. by destruct e. }
  apply wp_bind, wp_step_of_start; cbn [then_wp]; [by apply Hrefuse|].
  apply wp_bind, wp_storage_create; cbn [then_wp]; [|by apply Hrefuse].
  apply wp_bind. unfold connect. apply wp_bind, wp_step_of_start; cbn [then_wp]; [by apply Hrefuse|].
  apply wp_bind, wp_step_of_start; cbn [then_wp]; [by apply Hrefuse|]. apply initialize_identity_wp; cbn [then_wp].
  - intros k Hk. split_and!; try done. by apply resumed_drawn.
  - intros k Hk. split_and!; try done. by apply resumed_drawn.
  - intros row Hrow. destruct Hn as [Hn|(identity & Hi & Ho)]; [by rewrite Hn in Hrow|].
    rewrite Hi in Hrow. injection Hrow as <-. apply recovery_starts; try done.
    + destruct s as [d fs k]. apply (resumed_drawn (mkStore d fs k)). simpl. lia.
    + intros ? ?. congruence.
    + intros Hno. congruence.
  - intros text Hno. eapply recovery_starts; [done|done|apply resumed_named; lia|reflexivity|done| |by eauto].
    intros ? ?. congruence.
Qed.

(** C24: a start takes up the archive where it was left. From any store a server
    reached, with its identity or without one yet, whatever the recovery pass
    does or fails at: the catalogue and the scan history are the same, the store
    is sound again, and an identity that was there stays. The start succeeds
    with the state made of a valid configuration and of the one identity of the
    archive, a new identifier when there was none; an invalid configuration is
    reported before anything is touched. *)
Theorem start_resumes {JLaws : JsonLaws JL} c st s : limits_typed (manifest_limits st) -> Storage.owner_namespace st = OWNER_NAMESPACE ->
  reachable st s -> named (db s) -> config_typed c -> wp (bootstrap c) (starts c s) s.
Proof.
  intros Hst Ho Hs Hn Hc. apply (bootstrap_wp c s Hc Hn). intros st' Ho'. apply (restartable_owner st); [congruence|].
  exact (reachable_restartable st Hst s Hs).
Qed.

(** A store that answers "ready" is as it was: what was probed was removed, and
    nothing else is touched even when a probe fails. *)
Lemma directory_is_writable_spec dir s :
  wp (directory_is_writable (E := Empty_set) dir) (fun r s' => db s' = db s
    /\ (forall p e, files s !! p = Some e -> files s' !! p = Some e) /\ (r = Ok true -> files s' = files s)) s.
Proof.
  unfold directory_is_writable. apply wp_bind, wp_new_uuid. cbn [then_wp]. apply wp_bind, wp_attempt.
  set (probe := dir ++ _). apply wp_create_new; cbn [then_wp files db drawn]; [by apply wp_ret|].
  intros Hno. apply wp_bind, wp_attempt, wp_remove_file; cbn [then_wp files db drawn]; apply wp_ret; split_and!; try done.
  - intros p e Hp. cbn [files]. rewrite lookup_insert_ne; [done|]. by intros ->; rewrite Hno in Hp.
  - cbn [files]. intros p e Hp. by rewrite delete_insert_id.
  - intros _. cbn [files]. by apply delete_insert_id.
Qed.
Lemma all_writable_spec dirs : forall s,
  wp (all_writable (E := Empty_set) dirs) (fun r s' => db s' = db s
    /\ (forall p e, files s !! p = Some e -> files s' !! p = Some e) /\ (r = Ok true -> files s' = files s)) s.
Proof.
  induction dirs as [|dir dirs IH]; intros s; simpl; [by apply wp_ret|].
  apply wp_bind. eapply wp_mono; [|apply directory_is_writable_spec]. intros [[|]|[]] s1 (E1 & G1 & F1); simpl.
  - eapply wp_mono; [|apply IH]. intros r s2 (E2 & G2 & F2). rewrite E2, E1. specialize (F1 eq_refl). split_and!; [done|eauto|].
    intros Hr. by rewrite (F2 Hr).
  - by apply wp_ret.
Qed.
Lemma readiness_spec s : wp readiness (fun r s' => db s' = db s
  /\ (forall p e, files s !! p = Some e -> files s' !! p = Some e)
  /\ (r = Ok (OK, "ready"%string) -> files s' = files s)) s.
Proof.
  unfold readiness, is_usable. apply wp_bind, wp_attempt, wp_query; [intros x|]; cbn [then_wp]; apply wp_bind;
    (eapply wp_mono; [|apply all_writable_spec]); intros [b|[]] s' (E & G & F); apply wp_ret; split_and!; try done.
  destruct b; [by intros _; apply F|done].
Qed.
End Start.
