(* ===== verification/Disk.v ===== *)
(** Directories: what backup and restore do to whole trees of the file system.

    The server keeps to files below its data directory (Store); a backup makes,
    renames and removes directories, and may find them empty. Here a directory
    that was made is an entry of its own, and the paths are absolute and
    canonical. *)
From stdpp Require Import prelude strings gmap list fin_maps.
From Stdlib Require Import ZArith Lia.
From Stdlib.Strings Require Import Byte.
From S2P Require Import Prelude Errors Contract Externals Tables Store.

(** What the host tells of a path: whether a symbolic link there leads anywhere,
    and the device it is on. *)
Class Host := {
  resolves : path -> bool;
  device : path -> Z;
}.

Definition file_name (p : path) : option string := last p.
Definition parent (p : path) : path := removelast p.

(* ------------------------------------------------------------------ *)
(** ** Trees *)

(** What is at [dir] and below, by the path from there. *)
Definition subtree (dir : path) (fs : Files) : Files :=
  list_to_map (omap (fun kv => q ← strip_dir dir kv.1; Some (q, kv.2)) (map_to_list fs)).
Definition off_tree (dir : path) (fs : Files) : Files := filter (fun kv => below dir kv.1 = false) fs.
(** [fs] with the tree [t] at [dir]. *)
Definition graft (dir : path) (t fs : Files) : Files := kmap (app dir) t ∪ off_tree dir fs.
Definition move_tree (src dst : path) (fs : Files) : Files := graft dst (subtree src fs) (off_tree src fs).
(** The directories on the way to [made ++ todo]; something else in the way is
    an error. *)
Fixpoint dirs_from (made todo : path) (fs : Files) : option Files :=
  match todo with
  | [] => Some fs
  | c :: todo =>
      let q := made ++ [c] in
      match fs !! q with
      | Some Directory => dirs_from q todo fs
      | None => dirs_from q todo (<[q := Directory]> fs)
      | Some _ => None
      end
  end.

Section Operations.
Context `{Env} `{Host}.

(** [path.exists()]: an error is "no". *)
Definition path_exists {E} (p : path) : M E bool := fun '(s, n) =>
  (Ok (match fails n with
       | Some _ => false
       | None => match files s !! p with Some Symlink => resolves p | _ => exists_in (files s) p end
       end), (s, S n)).
(** [symlink_metadata(p).is_ok_and(is_dir)] *)
Definition is_directory {E} (p : path) : M E bool := fun '(s, n) =>
  (Ok (match fails n with Some _ => false | None => is_dir_in (files s) p end), (s, S n)).
(** [fs::canonicalize] of a path that is canonical. *)
Definition canonicalize {E} (err : E) (p : path) : M E path :=
  operation (fun _ => err) (fun w => if exists_in (files w.1) p then (Ok p, w) else (Err err, w)).
(** [fs::metadata(p)] and [.len()] of a regular file. *)
Definition metadata_len {E} (err : E) (p : path) : M E Z :=
  operation (fun _ => err) (fun w =>
    match files w.1 !! p with
    | Some (Regular b) => (Ok (Z.of_nat (length b)), w)
    | Some Symlink => if resolves p then (Ok 0, w) else (Err err, w)
    | _ => if is_dir_in (files w.1) p then (Ok 0, w) else (Err err, w)
    end).
(** [fs::metadata(p)] and [.dev()] *)
Definition metadata_dev {E} (err : E) (p : path) : M E Z :=
  operation (fun _ => err) (fun w => if exists_in (files w.1) p then (Ok (device p), w) else (Err err, w)).
(** [fs::read_dir(p)] collected into a set. *)
Definition read_names {E} (err : E) (p : path) : M E (gset string) :=
  let! names := read_dir err p in
  for_each names (fun _ => next_entry err) &;
  ret (list_to_set names).

(** [fs::create_dir_all]: a failure may come after some of the directories are made. *)
Definition make_dir_all {E} (err : E) (p : path) : M E unit := fun '(s, n) =>
  match fails n with
  | Some _ => (Err err, (set_files (fun fs => default fs (dirs_from [] (take (read_before n) p) fs)) s, S n))
  | None => match dirs_from [] p (files s) with
            | Some fs => (Ok tt, (set_files (fun _ => fs) s, S n))
            | None => (Err err, (s, S n))
            end
  end.
Inductive MakeDirResult : Type := Made | AlreadyThere | MakeDirFailed.
(** [fs::create_dir] *)
Definition make_dir {E} (p : path) : M E MakeDirResult := fun '(s, n) =>
  match fails n with
  | Some _ => (Ok MakeDirFailed, (s, S n))
  | None => if exists_in (files s) p then (Ok AlreadyThere, (s, S n))
            else if is_dir_in (files s) (parent p) then (Ok Made, (set_files <[p := Directory]> s, S n))
            else (Ok MakeDirFailed, (s, S n))
  end.
(** [fs::remove_dir]: of an empty directory. *)
Definition remove_dir {E} (err : E) (p : path) : M E unit :=
  operation (fun _ => err) (fun '(s, n) =>
    if is_dir_in (files s) p && bool_decide (entry_names p (files s) = []) then (Ok tt, (set_files (delete p) s, n))
    else (Err err, (s, n))).
(** [fs::rename] of a directory to a name that is free or an empty directory. *)
Definition rename_dir {E} (err : E) (src dst : path) : M E unit :=
  operation (fun _ => err) (fun '(s, n) =>
    if is_dir_in (files s) src && negb (below src dst) && negb (below dst src)
       && bool_decide (files s !! dst = None \/ files s !! dst = Some Directory) && bool_decide (entry_names dst (files s) = [])
    then (Ok tt, (set_files (move_tree src dst) s, n))
    else (Err err, (s, n))).
End Operations.

(* ------------------------------------------------------------------ *)
(** ** Trees, by what is at a path *)

Lemma strip_dir_app dir q : strip_dir dir (dir ++ q) = Some q.
Proof. by apply strip_dir_Some. Qed.
Lemma strip_dir_below dir p : below dir p = true <-> exists q, strip_dir dir p = Some q.
Proof.
  unfold below. rewrite bool_decide_eq_true. unfold prefix. by setoid_rewrite strip_dir_Some.
Qed.
Lemma below_app dir q : below dir (dir ++ q) = true.
Proof. apply strip_dir_below. exists q. apply strip_dir_app. Qed.
Lemma below_inv dir p : below dir p = true -> exists q, p = dir ++ q.
Proof. by intros [q ->%strip_dir_Some]%strip_dir_below; eauto. Qed.
Lemma below_trans d1 d2 d3 : below d1 d2 = true -> below d2 d3 = true -> below d1 d3 = true.
Proof. unfold below. rewrite !bool_decide_eq_true. intros. by etrans. Qed.
Lemma not_below_strip dir p : below dir p = false <-> strip_dir dir p = None.
Proof.
  rewrite <-not_true_iff_false, strip_dir_below, eq_None_not_Some. done.
Qed.

Lemma subtree_lookup dir fs q : subtree dir fs !! q = fs !! (dir ++ q).
Proof.
  unfold subtree. set (f := fun kv : path * Entry => q ← strip_dir dir kv.1; Some (q, kv.2)).
  assert (Hf : forall kv q x, f kv = Some (q, x) <-> kv = (dir ++ q, x)).
  { intros [p y] r x. unfold f. simpl. rewrite bind_Some. split.
    - by intros (z & ->%strip_dir_Some & [= -> ->]).
    - intros [= -> ->]. exists r. by rewrite strip_dir_app. }
  assert (Hn : NoDup (omap f (map_to_list fs)).*1).
  { generalize (NoDup_fst_map_to_list fs). induction (map_to_list fs) as [|kv l IH]; simpl; [constructor|].
    rewrite NoDup_cons. intros [Hk Hl]. destruct (f kv) as [[r x]|] eqn:E; [|by apply IH]. apply Hf in E as ->. simpl.
    rewrite NoDup_cons. split; [|by apply IH]. intros ([r' y] & -> & (kv & Hin & E)%list_elem_of_omap)%list_elem_of_fmap.
    apply Hf in E as ->. apply Hk. apply list_elem_of_fmap. by exists (dir ++ r', y). }
  apply option_eq. intros x. rewrite <-elem_of_list_to_map by exact Hn. rewrite list_elem_of_omap, <-elem_of_map_to_list.
  split; [by intros (kv & Hin & ->%Hf)|]. intros Hin. exists (dir ++ q, x). split; [done|]. by apply Hf.
Qed.
Lemma off_tree_lookup dir fs p : off_tree dir fs !! p = if below dir p then None else fs !! p.
Proof.
  unfold off_tree. rewrite map_lookup_filter. destruct (fs !! p) as [x|]; simpl; [|by destruct (below _ _)].
  destruct (below dir p); [by rewrite option_guard_False|by rewrite option_guard_True].
Qed.
Lemma graft_lookup dir t fs p : graft dir t fs !! p = match strip_dir dir p with Some q => t !! q | None => fs !! p end.
Proof.
  unfold graft. destruct (strip_dir dir p) as [q|] eqn:E.
  - assert (Hb : below dir p = true) by (apply strip_dir_below; eauto). apply strip_dir_Some in E as ->.
    rewrite lookup_union, off_tree_lookup, Hb, (right_id_L None _). by apply lookup_kmap; apply _.
  - rewrite lookup_union_r, off_tree_lookup; [by rewrite (proj2 (not_below_strip _ _) E)|].
    apply lookup_kmap_None; [apply _|]. intros q ->. by rewrite strip_dir_app in E.
Qed.
Lemma graft_below dir t fs q : graft dir t fs !! (dir ++ q) = t !! q.
Proof. by rewrite graft_lookup, strip_dir_app. Qed.
Lemma graft_off dir t fs p : below dir p = false -> graft dir t fs !! p = fs !! p.
Proof. intros E%not_below_strip. by rewrite graft_lookup, E. Qed.
Lemma move_tree_below src dst fs q : move_tree src dst fs !! (dst ++ q) = fs !! (src ++ q).
Proof. unfold move_tree. by rewrite graft_below, subtree_lookup. Qed.
Lemma move_tree_off src dst fs p : below dst p = false ->
  move_tree src dst fs !! p = if below src p then None else fs !! p.
Proof. intros Hp. unfold move_tree. by rewrite graft_off, off_tree_lookup. Qed.

Lemma is_dir_in_true fs p : is_dir_in fs p = true <-> fs !! p = Some Directory \/ exists name rest, is_Some (fs !! (p ++ name :: rest)).
Proof.
  unfold is_dir_in. rewrite orb_true_iff, bool_decide_eq_true, negb_true_iff, bool_decide_eq_false. apply or_iff_compat_l.
  setoid_rewrite <-elem_of_entry_names. destruct (entry_names p fs) as [|x l]; split; try done.
  - by intros [x ?%elem_of_nil].
  - intros _. exists x. left.
Qed.
Lemma no_entries fs p : entry_names p fs = [] <-> forall q, q <> [] -> fs !! (p ++ q) = None.
Proof.
  split.
  - intros E [|name rest] Hq; [done|]. apply eq_None_not_Some. intros Hs.
    assert (Hin : name ∈ entry_names p fs) by (apply elem_of_entry_names; eauto). rewrite E in Hin. by apply elem_of_nil in Hin.
  - intros Hno. destruct (entry_names p fs) as [|x l] eqn:E; [done|]. exfalso.
    assert (Hin : x ∈ entry_names p fs) by (rewrite E; left). apply elem_of_entry_names in Hin as (rest & Hs).
    rewrite Hno in Hs; [by destruct Hs|done].
Qed.
Lemma exists_in_false fs p : exists_in fs p = false <-> forall q, fs !! (p ++ q) = None.
Proof.
  unfold exists_in. rewrite orb_false_iff, bool_decide_eq_false, <-eq_None_not_Some. split.
  - intros [H1 H2] q. destruct q as [|name rest]; [by rewrite app_nil_r|]. apply eq_None_not_Some. intros Hs.
    enough (is_dir_in fs p = true) by congruence. apply is_dir_in_true. eauto.
  - intros Hall. split; [by rewrite <-(app_nil_r p)|]. apply not_true_iff_false. rewrite is_dir_in_true.
    specialize (Hall []) as H0. rewrite app_nil_r, ?H0 in *. intros [E|(name & rest & Hs)]; [congruence|].
    rewrite Hall in Hs. by destruct Hs.
Qed.

(** Directories made on the way to [p]. *)
Definition dirs_made (p : path) (fs fs' : Files) : Prop :=
  forall q, fs' !! q = fs !! q \/ (fs !! q = None /\ fs' !! q = Some Directory /\ below q p = true /\ q <> []).
Lemma dirs_made_refl p fs : dirs_made p fs fs.
Proof. by left. Qed.
Lemma dirs_made_trans p fs1 fs2 fs3 : dirs_made p fs1 fs2 -> dirs_made p fs2 fs3 -> dirs_made p fs1 fs3.
Proof.
  intros H1 H2 q. destruct (H1 q) as [E1|(E1 & E2 & Hb & Hn)], (H2 q) as [E3|(E3 & E4 & Hb' & Hn')];
    first [left; congruence|right; split_and!; congruence].
Qed.
Lemma dirs_made_below p p' fs fs' : below p p' = true -> dirs_made p fs fs' -> dirs_made p' fs fs'.
Proof. intros Hp H q. destruct (H q) as [?|(?&?&?&?)]; [by left|right]. split_and!; [done..| |done]. by eapply below_trans. Qed.
Lemma dirs_made_keeps p fs fs' q x : dirs_made p fs fs' -> fs !! q = Some x -> fs' !! q = Some x.
Proof. intros H Hx. destruct (H q) as [?|(?&_)]; congruence. Qed.
Lemma prefix_snoc_cases (q p : path) c : q `prefix_of` p ++ [c] -> q = p ++ [c] \/ q `prefix_of` p.
Proof.
  intros [r Er]. destruct r as [|x r _] using rev_ind; [rewrite app_nil_r in Er; by left|]. right.
  rewrite app_assoc in Er. apply app_inj_tail in Er as [-> _]. by exists r.
Qed.
Lemma dirs_from_made todo : forall made fs fs', dirs_from made todo fs = Some fs' ->
  dirs_made (made ++ todo) fs fs' /\ (forall q, below q (made ++ todo) = true -> below q made = false -> fs' !! q = Some Directory).
Proof.
  induction todo as [|c todo IH]; intros made fs fs' E; simpl in E.
  { injection E as <-. split; [apply dirs_made_refl|]. rewrite app_nil_r. congruence. }
  replace (made ++ c :: todo) with ((made ++ [c]) ++ todo) by by rewrite <-app_assoc.
  assert (Hend : forall fs1, dirs_from (made ++ [c]) todo fs1 = Some fs' -> fs1 !! (made ++ [c]) = Some Directory ->
    dirs_made ((made ++ [c]) ++ todo) fs1 fs' /\ forall q, below q ((made ++ [c]) ++ todo) = true -> below q made = false -> fs' !! q = Some Directory).
  { intros fs1 E1 H1. destruct (IH _ _ _ E1) as [Hd Hall]. split; [done|]. intros q Hq Hno.
    destruct (below q (made ++ [c])) eqn:Eq; [|by apply Hall].
    apply bool_decide_eq_true in Eq. apply prefix_snoc_cases in Eq as [->|Eq]; [by eapply dirs_made_keeps|].
    apply bool_decide_eq_false in Hno. done. }
  destruct (fs !! (made ++ [c])) as [[]|] eqn:Ec; try done; [by apply Hend|].
  destruct (Hend _ E) as [H1 H2]; [by rewrite lookup_insert_eq|]. split; [|done].
  eapply dirs_made_trans; [|exact H1]. intros q. destruct (decide (q = made ++ [c])) as [->|Hne].
  - right. rewrite lookup_insert_eq. split_and!; [done..|apply below_app|by destruct made].
  - left. by rewrite lookup_insert_ne.
Qed.

(* ------------------------------------------------------------------ *)
(** ** Rules *)

Section Rules.
Context `{EV : Env} `{HO : Host} {E : Type}.
Implicit Types (s : Store) (e : E) (p : path).

Lemma wp_path_exists p (Q : res E bool -> Store -> Prop) s :
  Q (Ok false) s -> (exists_in (files s) p = true -> Q (Ok true) s) -> wp (path_exists p) Q s.
Proof.
  intros H1 H2 n. unfold path_exists. destruct (fails n); [done|]. cbn [fst snd].
  assert (Hx : files s !! p = Some Symlink -> exists_in (files s) p = true) by by intros Ep; unfold exists_in; rewrite Ep.
  destruct (files s !! p) as [[]|] eqn:Ep; try (destruct (exists_in (files s) p); by auto).
  destruct (resolves p); [by apply H2, Hx|done].
Qed.
Lemma wp_is_directory p (Q : res E bool -> Store -> Prop) s :
  Q (Ok false) s -> (is_dir_in (files s) p = true -> Q (Ok true) s) -> wp (is_directory p) Q s.
Proof. intros H1 H2 n. unfold is_directory. destruct (fails n); [done|]. cbn [fst snd]. destruct (is_dir_in _ _); auto. Qed.
Lemma wp_canonicalize e p (Q : res E path -> Store -> Prop) s :
  Q (Err e) s -> (exists_in (files s) p = true -> Q (Ok p) s) -> wp (canonicalize e p) Q s.
Proof. intros H1 H2. apply wp_operation; [done|]. intros n. cbn [fst snd]. destruct (exists_in _ _); simpl; auto. Qed.
Lemma wp_metadata_len e p (Q : res E Z -> Store -> Prop) s :
  Q (Err e) s -> (forall z, (forall b, files s !! p = Some (Regular b) -> z = Z.of_nat (length b)) -> Q (Ok z) s) ->
  wp (metadata_len e p) Q s.
Proof.
  intros H1 H2. apply wp_operation; [done|]. intros n. cbn [fst snd].
  destruct (files s !! p) as [[b| |]|]; simpl; repeat case_match; simpl; try done; apply H2; naive_solver.
Qed.
Lemma wp_metadata_dev e p (Q : res E Z -> Store -> Prop) s :
  Q (Err e) s -> Q (Ok (device p)) s -> wp (metadata_dev e p) Q s.
Proof. intros H1 H2. apply wp_operation; [done|]. intros n. cbn [fst snd]. by destruct (exists_in _ _). Qed.
Lemma wp_read_names e p (Q : res E (gset string) -> Store -> Prop) s :
  Q (Err e) s -> Q (Ok (list_to_set (entry_names p (files s)))) s -> wp (read_names e p) Q s.
Proof.
  intros H1 H2. unfold read_names. apply wp_bind, wp_read_dir; [done|]. cbn [then_wp].
  generalize (entry_names p (files s)) at 1 as l. intros l. apply wp_bind. induction l as [|x l IH]; simpl.
  - apply wp_ret. by apply wp_ret.
  - apply wp_bind, wp_next_entry; [done|exact IH].
Qed.
Lemma wp_make_dir_all e p (Q : res E unit -> Store -> Prop) s :
  (forall fs, dirs_made p (files s) fs -> Q (Err e) (mkStore (db s) fs (drawn s))) ->
  (forall fs, dirs_made p (files s) fs -> (forall q, q <> [] -> below q p = true -> fs !! q = Some Directory) -> Q (Ok tt) (mkStore (db s) fs (drawn s))) ->
  wp (make_dir_all e p) Q s.
Proof.
  intros H1 H2 n. unfold make_dir_all. destruct (fails n) as [x|]; simpl.
  - apply H1. set (k := read_before n). destruct (dirs_from [] (take k p) (files s)) as [fs|] eqn:Ed; simpl; [|apply dirs_made_refl].
    apply dirs_from_made in Ed as [Hd _]. eapply dirs_made_below; [|exact Hd]. simpl. unfold below.
    rewrite bool_decide_eq_true. exists (drop k p). by rewrite take_drop.
  - destruct (dirs_from [] p (files s)) as [fs|] eqn:Ed; simpl.
    + apply dirs_from_made in Ed as [Hd Hp]. apply H2; [done|]. intros q Hq Hb. apply Hp; [done|]. by destruct q.
    + specialize (H1 (files s) (dirs_made_refl _ _)). by destruct s.
Qed.
Lemma wp_make_dir p (Q : res E MakeDirResult -> Store -> Prop) s :
  Q (Ok MakeDirFailed) s -> Q (Ok AlreadyThere) s ->
  (exists_in (files s) p = false -> Q (Ok Made) (mkStore (db s) (<[p := Directory]> (files s)) (drawn s))) -> wp (make_dir p) Q s.
Proof.
  intros H1 H2 H3 n. unfold make_dir. destruct (fails n); [done|]. destruct (exists_in _ _) eqn:Ex; [done|].
  destruct (is_dir_in _ _); [by apply H3|done].
Qed.
Lemma wp_remove_dir e p (Q : res E unit -> Store -> Prop) s :
  Q (Err e) s -> (is_dir_in (files s) p = true -> entry_names p (files s) = [] -> Q (Ok tt) (mkStore (db s) (delete p (files s)) (drawn s))) ->
  wp (remove_dir e p) Q s.
Proof.
  intros H1 H2. apply wp_operation; [done|]. intros n. destruct (is_dir_in _ _); simpl; [|done].
  case_bool_decide; simpl; auto.
Qed.
Lemma wp_rename_dir e src dst (Q : res E unit -> Store -> Prop) s :
  Q (Err e) s ->
  (is_dir_in (files s) src = true -> below src dst = false -> below dst src = false ->
   files s !! dst = None \/ files s !! dst = Some Directory -> entry_names dst (files s) = [] ->
   Q (Ok tt) (mkStore (db s) (move_tree src dst (files s)) (drawn s))) ->
  wp (rename_dir e src dst) Q s.
Proof.
  intros H1 H2. apply wp_operation; [done|]. intros n. destruct (is_dir_in _ _) eqn:E1; simpl; [|done].
  destruct (below src dst) eqn:E2; simpl; [done|]. destruct (below dst src) eqn:E3; simpl; [done|].
  case_bool_decide; simpl; [|done]. case_bool_decide; simpl; auto.
Qed.
End Rules.
