(* ===== verification/Scenario.v ===== *)
(** A run of the server on a concrete capture: registration, an upload of two
    artifacts in three chunks, a completion that fails half way, a restart, the
    retry, a deletion and the collection of what it left.  The theorems are applied
    to the stores of this run. *)
From stdpp Require Import prelude strings gmap sorting list relations.
From Stdlib Require Import ZArith Ascii Lia.
From Stdlib.Strings Require Import Byte.
From S2P Require Import Prelude Errors Contract Externals Validation Chunks Fingerprint Pagination.
From S2P Require Import Config Inventory Bootstrap.
From S2P Require Import Tables Store Storage Uploads Receipts Completion Deletion Archive Invariants Assembly.
From S2P Require Import Publication Reclamation Visibility Lifecycle Ledger Restart Outcomes Removal Collection System.
From S2P Require Import Catalogue Refinement Reconcile Download Delivery Integrity Scanning Certification.

#[local] Existing Instances calendar_time calendar_laws counter_uuids counter_uuids_laws any_mime sum_sha sum_sha_laws
  magic_zstd.

(* ------------------------------------------------------------------ *)
(** ** The capture *)

(** Five bytes kept as they are, and three that arrive compressed. *)
Definition plain : bytes := [x68; x65; x6c; x6c; x6f].
Definition packed : bytes := [x28; x61; x62; x63].
Definition unpacked : bytes := [x61; x62; x63].
Definition digest_of (b : bytes) : string := digest_document_value (sha256_hex b).

Definition demo_artifacts : list Artifact :=
  [ {| logical_path := "logs/a.txt"; media_type := Some "text/plain"%string;
       original_size_bytes := 5; original_sha256 := digest_of plain;
       stored_size_bytes := 5; stored_sha256 := digest_of plain; compression := Identity |};
    {| logical_path := "logs/b.txt"; media_type := None;
       original_size_bytes := 3; original_sha256 := digest_of unpacked;
       stored_size_bytes := 4; stored_sha256 := digest_of packed; compression := Zstd |} ].
Definition demo_input : ManifestInput :=
  {| mi_schema_version := 1; mi_session := mi_session sample_input; mi_capture := mi_capture sample_input;
     mi_artifacts := Some demo_artifacts; mi_artifact := None |}.
Definition demo_manifest : Manifest :=
  {| schema_version := 1; session := session sample_manifest; capture := capture sample_manifest;
     artifacts := demo_artifacts |}.
#[local] Instance demo_json : JsonLib := table_json [demo_manifest] [[]; [("k", "v")]%string].
#[local] Instance demo_json_laws : JsonLaws demo_json.
Proof. apply table_json_laws. Qed.

Definition day : Z := 86400.
Definition demo_state : AppState :=
  {| archive_instance_id := "archive"; Storage.owner_namespace := "v1"; max_request_body_bytes := 1048576; chunk_size_bytes := 4;
     max_artifact_stored_bytes := 100; max_artifact_original_bytes := 100; max_artifact_count := 4;
     max_snapshot_stored_bytes := 200; max_snapshot_original_bytes := 200; upload_expiry := day;
     admin_deletion_enabled := true; blob_gc_grace := day |}.
Lemma demo_limits_typed : limits_typed (manifest_limits demo_state).
Proof. unfold limits_typed, is_u64, u64_max. simpl. lia. Qed.
Lemma demo_input_typed : input_typed demo_input.
Proof. intros arts [= <-]. repeat constructor; simpl; unfold u64_max; lia. Qed.

(** A day on which nothing fails, and one on which everything does from some
    operation on. *)
Definition first_day : OffsetDateTime := mkTime 1767225600000000000 0.
Definition third_day : OffsetDateTime := mkTime 1767398400000000000 0.
Definition calm_env : Env :=
  {| clock _ := first_day; fails _ := None; removed_before _ _ := false; read_before _ := 0%nat |}.
Definition crash_env (k : nat) : Env :=
  {| clock _ := first_day; fails n := if (k <=? n)%nat then Some OtherSqlxError else None;
     removed_before _ _ := false; read_before _ := 0%nat |}.

Definition demo_client : string := "01890000-0000-7000-8000-00000000c0de".
Definition demo_request : CreateUploadRequest :=
  {| cu_client_id := demo_client; cu_capture_id := Some "capture-1"%string; cu_idempotency_key := None;
     cu_manifest := demo_input |}.
Definition chunk_headers (b : bytes) : HeaderMap :=
  [ ("content-type", HText "application/octet-stream");
    (CHUNK_SHA256_HEADER, HText (digest_of b));
    (CHUNK_LENGTH_HEADER, HText (to_decimal (byte_len b))) ]%string.

(** One request on a store. *)
Definition then_serve (EV : Env) (r : Request) (s : Store) : Store := serve demo_state EV r (s, 0%nat).
Definition put (u : string) (a i : string) (b : bytes) : Request :=
  PutArtifactChunk u a i (chunk_headers b) [FData b; FTrailers].

Definition demo_identity : ArchiveMetadata.row := ArchiveMetadata.mk "v1" "01890000-0000-7000-8000-00000000a4c4" "2025-12-31T00:00:00Z".
Definition empty_store : Store := mkStore (with_archive_metadata (fun _ => [demo_identity]) empty_db) ∅ 0.
Definition registered : Store := then_serve calm_env
  (RegisterClient demo_client (Some {| rc_hostname := None; rc_display_name := None; rc_metadata := [] |})) empty_store.
Definition opened : Store := then_serve calm_env (CreateUpload (Some demo_request)) registered.

Definition demo_upload : string := counter_uuid 1.
Definition plain_0 : Store := then_serve calm_env (put demo_upload "0" "0" [x68; x65; x6c; x6c]) opened.
Definition plain_1 : Store := then_serve calm_env (put demo_upload "0" "1" [x6f]) plain_0.
Definition received : Store := then_serve calm_env (put demo_upload "1" "0" packed) plain_1.
(** The first completion is cut short; the server starts again, and the
    second one is not. *)
Definition interrupted : Store := then_serve (crash_env 40) (CompleteUpload demo_upload) received.
Definition recovered : Store := then_serve calm_env Restart interrupted.
Definition archived : Store := then_serve calm_env (CompleteUpload demo_upload) recovered.

(** The snapshot, its deletion and its collection two days later. *)
Definition demo_snapshot : Snapshot.row :=
  Snapshot.mk (counter_uuid 12) "v1" (counter_uuid 0) (counter_uuid 2) (sha256_hex []) "2026-01-01T00:00:00Z"
    1767225600000000 2 8 9 1 None None.
Definition demo_confirmation : string := expected_confirmation (counter_uuid 12) (sha256_hex []).
Definition deletion (c : string) : Request :=
  DeleteSnapshot (counter_uuid 12) [] (Some {| ds_reason := Some "expired"%string; confirmation := Some c |}).
Definition deleted : Store := then_serve calm_env (deletion demo_confirmation) archived.
Definition collected_store : Store := then_serve calm_env (CollectOrphans third_day) deleted.

(** What the run leaves at each point. *)
Example received_chunks :
  (fun c => (Chunk.artifact_index c, Chunk.chunk_index c, Chunk.byte_length c)) <$> upload_chunks (db received)
  = [(0, 0, 4); (0, 1, 1); (1, 0, 4)].
Proof. by vm_compute. Qed.
Example interrupted_archives_nothing : snapshots (db interrupted) = [] /\ blobs (db interrupted) = []
  /\ uploads (db interrupted) = uploads (db received).
Proof. by vm_compute. Qed.
(** The restart throws away the half assembled file and keeps the chunks. *)
Example interrupted_files : size (files interrupted) = 5%nat.
Proof. by vm_compute. Qed.
Example recovered_files : map_to_list (files recovered) = map_to_list (files received)
  /\ upload_chunks (db recovered) = upload_chunks (db received).
Proof. by vm_compute. Qed.
Example archived_snapshots : snapshots (db archived) = [demo_snapshot].
Proof. by vm_compute. Qed.
Example archived_files :
  files archived !! blob_path (sha256_hex plain) = Some (Regular plain)
  /\ files archived !! blob_path (sha256_hex packed) = Some (Regular packed)
  /\ size (files archived) = 2%nat.
Proof. by vm_compute. Qed.
Example wrong_confirmation_deletes_nothing :
  db (then_serve calm_env (deletion "delete-snapshot") archived) = db archived.
Proof. by vm_compute. Qed.
Example deleted_keeps_files :
  map_to_list (files deleted) = map_to_list (files archived) /\ artifact_rows (db deleted) = []
  /\ (Tombstone.snapshot_id <$> tombstones (db deleted)) = [counter_uuid 12].
Proof. by vm_compute. Qed.
Example nothing_left : blobs (db collected_store) = [] /\ map_to_list (files collected_store) = [].
Proof. by vm_compute. Qed.

(* ------------------------------------------------------------------ *)
(** ** The run is one of the state machine *)

Lemma reachable_serve s EV r : reachable demo_state s -> request_typed r -> reachable demo_state (then_serve EV r s).
Proof. intros Hs Hr. exact (reachable_step demo_state s _ Hs (step_request demo_state s EV r 0 Hr)). Qed.
Lemma reachable_received : reachable demo_state received.
Proof.
  do 5 (apply reachable_serve; [|done || exact demo_input_typed]). by apply reachable_initial.
Qed.
Lemma reachable_archived : reachable demo_state archived.
Proof. do 3 (apply reachable_serve; [|done]). apply reachable_received. Qed.

Lemma demo_snapshot_in : demo_snapshot ∈ snapshots (db archived).
Proof. rewrite archived_snapshots. by apply list_elem_of_singleton. Qed.
Definition received_chunk : Chunk.row :=
  Chunk.mk demo_upload 1 0 4 (sha256_hex packed) "2026-01-01T00:00:00Z".
Definition received_upload : Upload.row := default
  (Upload.mk "" "" "" "" "" "" "" "" None "" None 0 0 0 0 "" 0 0 0 0 0) (head (uploads (db received))).
Lemma received_upload_in : received_upload ∈ uploads (db received).
Proof.
  assert (E : uploads (db received) = [received_upload]) by by vm_compute. rewrite E. by apply list_elem_of_singleton.
Qed.
Lemma received_chunk_in : received_chunk ∈ upload_chunks (db received).
Proof.
  assert (E : last (upload_chunks (db received)) = Some received_chunk) by by vm_compute. by apply last_Some_elem_of.
Qed.
Lemma received_upload_facts : status_open (Upload.status received_upload) = true
  /\ Chunk.upload_id received_chunk = Upload.id received_upload.
Proof. by vm_compute. Qed.

Lemma live_snapshots_restorable_witness :
  Z.of_nat (length (artifacts_of (counter_uuid 12) (db archived))) = 2
  /\ forall a, a ∈ artifacts_of (counter_uuid 12) (db archived) -> exists b content c,
      b ∈ stored_blobs (db archived) /\ sb_id b = ArtifactRow.blob_id a
      /\ files archived !! blob_path (sb_digest b) = Some (Regular content)
      /\ measures content (sb_size b) (sb_digest b) /\ parse (sb_compression b) = Some c
      /\ (restores c content (ArtifactRow.original_size_bytes a) (ArtifactRow.original_sha256 a)
          \/ (c = Zstd /\ exists verified, verified <> content /\ measures verified (sb_size b) (sb_digest b)
                /\ restores c verified (ArtifactRow.original_size_bytes a) (ArtifactRow.original_sha256 a))).
Proof.
  apply (live_snapshots_restorable demo_state demo_limits_typed archived demo_snapshot).
  - apply reachable_archived.
  - apply demo_snapshot_in.
  - reflexivity.
Defined.

Lemma uploads_stay_distinct_witness : upload_ids (db received) = [demo_upload]
  /\ NoDup (upload_ids (db received)) /\ demo_upload ∉ audit_ids (db received).
Proof.
  destruct (uploads_stay_distinct demo_state demo_limits_typed received reachable_received) as (H1 & H2 & _).
  assert (E : upload_ids (db received) = [demo_upload]) by by vm_compute.
  split_and!; [exact E|exact H1|]. apply H2. rewrite E. left.
Defined.
(** The completion publishes the snapshot, the deletion retires it. *)
Lemma reachable_recovered : reachable demo_state recovered.
Proof. do 2 (apply reachable_serve; [|done]). apply reachable_received. Qed.
Example recovered_catalogue : catalogue (db recovered) = empty_catalogue.
Proof. by vm_compute. Qed.
Definition demo_published : Published := published (db archived) (header demo_snapshot).
Example demo_published_artifacts :
  map (fun x => (pa_logical_path x.1, pa_original_size x.1, option_map sb_size x.2)) (p_artifacts demo_published)
  = [("logs/a.txt", 5, Some 5); ("logs/b.txt", 3, Some 4)]%string.
Proof. by vm_compute. Qed.
Lemma archived_catalogue : catalogue (db archived) = mkCatalogue [demo_published] [].
Proof. unfold catalogue. by rewrite archived_snapshots. Qed.
Lemma server_refines_archive_witness :
  rtc catalogue_step empty_catalogue (catalogue (db recovered))
  /\ (catalogue (db archived) = catalogue (db recovered)
      \/ (changes_catalogue (CompleteUpload demo_upload) = true
          /\ catalogue_step (catalogue (db recovered)) (catalogue (db archived)))).
Proof.
  apply (server_refines_archive demo_state demo_limits_typed calm_env (CompleteUpload demo_upload) recovered 0).
  - apply reachable_recovered.
  - exact I.
Defined.
Lemma published_snapshots_immutable_witness :
  demo_published ∈ c_published (catalogue (db deleted)) \/ p_id demo_published ∈ c_retired (catalogue (db deleted)).
Proof.
  apply (published_snapshots_immutable demo_state demo_limits_typed archived deleted demo_published).
  - apply reachable_archived.
  - apply rtc_once. exact (step_request demo_state archived calm_env (deletion demo_confirmation) 0 I).
  - rewrite archived_catalogue. left.
Defined.
Example deleted_catalogue : c_retired (catalogue (db deleted)) = [counter_uuid 12] /\ c_published (catalogue (db deleted)) = [].
Proof. by vm_compute. Qed.
(** The reads of the archive. *)
#[local] Instance demo_http : HttpLib := {
  base64_standard b := of_chars (repeat "A"%char (length b));
  base64_url b := of_chars (repeat "A"%char (length b));
  header_value_ok := visible }.
Lemma visible_letters n : visible (of_chars (repeat "A"%char n)) = true.
Proof. unfold visible. rewrite chars_of_chars. by induction n. Qed.
#[local] Instance demo_http_laws : HttpLaws demo_http.
Proof. split; [done|intros b; apply visible_letters..]. Qed.
#[local] Instance demo_stamps : FileStamps := { stamp _ _ := mkStamp 0 0 0 0 0 0 }.
Definition demo_artifact : ArtifactRow.row := default
  (ArtifactRow.mk "" "" "" "" None 0 "" "" 0 0) (artifact_rows (db archived) !! 1%nat).
Lemma demo_artifact_in : demo_artifact ∈ artifact_rows (db archived).
Proof. apply (list_elem_of_lookup_2 _ 1%nat). vm_compute. reflexivity. Qed.

Definition reconciling : res ReconciliationError unit * (Store * nat) :=
  reconcile_snapshot (H := calm_env) (Snapshot.id demo_snapshot) (archived, 0%nat).
Lemma reconciling_Ok : reconciling.1 = Ok tt.
Proof. by vm_compute. Qed.
Lemma reconcile_never_drifts_witness : exists q mrow m,
  live_snapshot_by_id (Snapshot.id demo_snapshot) (db archived) = Some q /\ projects (db archived) q mrow m.
Proof.
  pose proof (reconcile_never_drifts (EV := calm_env) demo_state demo_limits_typed (Snapshot.id demo_snapshot) archived 0%nat
    reachable_archived) as H.
  fold reconciling in H. pose proof reconciling_Ok as E. revert H E. destruct reconciling as [r [s' k]].
  cbn [fst]. intros [_ H] ->. exact H.
Defined.

Definition downloading : res ApiError DownloadResponse * (Store * nat) :=
  download_artifact (H := calm_env) (ArtifactRow.id demo_artifact) (archived, 0%nat).
Lemma downloading_body : match downloading.1 with Ok resp => Some (body resp) | Err _ => None end = Some packed.
Proof. by vm_compute. Qed.
Lemma demo_artifact_id : parse_str (ArtifactRow.id demo_artifact) = Some (ArtifactRow.id demo_artifact).
Proof. by vm_compute. Qed.
Lemma download_restores_artifact_witness : exists resp row q m art,
  downloading.1 = Ok resp /\ body resp = packed
  /\ downloads (db archived) (ArtifactRow.id demo_artifact) row q m art /\ delivers archived resp row art.
Proof.
  pose proof (download_restores_artifact (EV := calm_env) demo_state demo_limits_typed (ArtifactRow.id demo_artifact) archived 0%nat
    reachable_archived) as H.
  fold downloading in H. pose proof downloading_body as E. revert H E. destruct downloading as [[resp|e] [s' k]];
    cbn [fst]; [|done]. intros [_ H] Eb. injection Eb as Eb. destruct H as (uuid & row & q & m & art & Eid & Hd & Hv).
  exists resp, row, q, m, art.
  pose proof (inj Some _ _ (eq_trans (eq_sym demo_artifact_id) Eid)) as <-.
  split; [reflexivity|]. split; [exact Eb|]. split; [exact Hd|exact Hv].
Defined.
Lemma download_succeeds_witness : exists resp row q m art, downloading.1 = Ok resp
    /\ downloads (db archived) (ArtifactRow.id demo_artifact) row q m art /\ delivers archived resp row art
    /\ ("content-length", to_decimal (byte_len (body resp)))%string ∈ Download.headers resp
    /\ ("digest", "SHA-256=" +:+ base64_standard (sha256 (body resp)))%string ∈ Download.headers resp
    /\ ("x-patwari-original-sha256", original_sha256 art)%string ∈ Download.headers resp
    /\ (("content-encoding", "zstd")%string ∈ Download.headers resp <-> compression art = Zstd).
Proof.
  pose proof (download_succeeds (EV := calm_env) demo_state demo_limits_typed (ArtifactRow.id demo_artifact) demo_artifact archived 0%nat
    reachable_archived (fun _ => eq_refl) (fun _ _ _ => eq_refl) demo_artifact_in demo_artifact_id) as H.
  change (download_artifact (H := calm_env) (ArtifactRow.id demo_artifact) (archived, 0%nat)) with downloading in H.
  pose proof downloading_body as E. revert H E. destruct downloading as [[resp|e] w]; cbn [fst]; [|done].
  intros (row & q & m & art & Hd & _ & Hv) _. exists resp, row, q, m, art. split; [reflexivity|]. split; [exact Hd|exact Hv].
Defined.

(** *** A scan of the archive *)

#[local] Instance demo_checks : SqliteChecks := { quick_check _ := "ok"%string; foreign_key_failure _ := false }.
Definition scanning : res ScanError IntegrityReport * (Store * nat) := scan_archive (H := calm_env) demo_state (archived, 0%nat).
Definition verdict (r : res ScanError IntegrityReport) : option (IntegrityRunStatus * Z * option Z) :=
  match r with Ok rep => Some (rep_status rep, total (rep_counts rep), by_kind (rep_counts rep) !! "transient_change"%string) | Err _ => None end.
Lemma scanning_verdict : verdict scanning.1 = Some (Healthy, 0, None).
Proof. by vm_compute. Qed.
Lemma archived_keyed : tables_keyed (db archived).
Proof. split; (split; [apply (bool_decide_unpack _)|apply (bool_decide_unpack (_ ∉ _))]; by vm_compute). Qed.
Lemma scanning_report : exists rep s k, scan_archive (H := calm_env) demo_state (archived, 0%nat) = (Ok rep, (s, k))
  /\ rep_status rep = Healthy /\ by_kind (rep_counts rep) !! "transient_change"%string = None.
Proof.
  pose proof scanning_verdict as E. revert E. unfold scanning. destruct (scan_archive _ _) as [[rep|e] [s k]]; cbn [fst verdict]; [|done].
  intros E. apply (inj Some) in E. exists rep, s, k. split; [done|].
  apply (f_equal (fun x => (x.1.1, x.2))) in E. cbn [fst snd] in E.
  split; [exact (f_equal fst E)|exact (f_equal snd E)].
Qed.
Lemma healthy_scan_certifies_witness : certified (EV := calm_env) demo_state (view archived)
  /\ originals_restored (view archived).
Proof.
  destruct scanning_report as (rep & s & k & E & Es & Et).
  pose proof (healthy_scan_certifies (EV := calm_env) demo_state archived archived_keyed 0%nat) as H.
  rewrite E in H. destruct (H rep eq_refl Es Et) as [H1 H2]. split; [exact H1|]. apply H2; [done|by intros ? ? ?].
Defined.
Lemma report_is_history_witness : exists rep s k, scan_archive (H := calm_env) demo_state (archived, 0%nat) = (Ok rep, (s, k))
  /\ (run_summary (H := calm_env) (rep_run_id rep) (s, k)).1 = Ok (summary_of rep).
Proof.
  destruct scanning_report as (rep & s & k & E & _). exists rep, s, k. split; [exact E|].
  assert (Hf : findings_referenced (db archived)) by (assert (E0 : integrity_findings (db archived) = []) by (by vm_compute);
    unfold findings_referenced; rewrite E0; constructor).
  pose proof (report_is_history (EV := calm_env) demo_state archived Hf 0%nat) as H.
  rewrite E in H. destruct H as [_ H]. exact (proj2 (H rep eq_refl (fun _ => eq_refl) k)).
Defined.
Lemma page_loops_end_witness :
  scan_pages (H := calm_env) (7 + S (length (snapshots (db archived)))) ss_id snapshot_scan_rows
    (fun rows => scan_each rows (scan_snapshot (H := calm_env) demo_state)) ""
    (mkRecorder "run" "v1" "" (mkCounts 0 0 0 0 ∅) []) (archived, 0%nat)
  = scan_snapshots (H := calm_env) demo_state (mkRecorder "run" "v1" "" (mkCounts 0 0 0 0 ∅) []) (archived, 0%nat).
Proof. exact (proj1 (proj2 (proj2 (page_loops_end (EV := calm_env) demo_state 7 _ archived 0%nat archived_keyed)))). Defined.

Lemma accepted_chunks_on_disk_witness :
  holds_content (files received) (artifact_chunk_path demo_upload 1 0) 4 (sha256_hex packed).
Proof.
  apply (accepted_chunks_on_disk demo_state demo_limits_typed received received_upload received_chunk).
  - apply reachable_received.
  - apply received_upload_in.
  - apply received_upload_facts.
  - apply received_chunk_in.
  - apply received_upload_facts.
Defined.

(* ------------------------------------------------------------------ *)
(** ** The theorems about one request, on the stores of the run *)

Lemma reachable_plain_0 : reachable demo_state plain_0.
Proof. do 3 (apply reachable_serve; [|done || exact demo_input_typed]). by apply reachable_initial. Qed.
Lemma plain_0_backed : chunks_backed plain_0.
Proof. apply (reachable_restartable demo_state demo_limits_typed plain_0 reachable_plain_0). Qed.

(** Acknowledging the second chunk of the first artifact. *)
Definition second_chunk : res ApiError unit * (Store * nat) :=
  put_artifact_chunk (H:=calm_env) demo_upload "0" "1" (chunk_headers [x6f]) [FData [x6f]; FTrailers] (plain_0, 0%nat).
Lemma put_artifact_chunk_durable_witness : second_chunk.1 = Ok tt
  /\ exists cu ca ci request, parse_str demo_upload = Some cu /\ parse_artifact_index "0" = Ok ca
      /\ parse_uint u64_max "1" = Some ci /\ chunk_durable cu ca ci request second_chunk.2.1
      /\ forall announced, parse_chunk_headers (chunk_headers [x6f]) = Ok (Some announced) -> request = announced.
Proof.
  assert (E : second_chunk.1 = Ok tt) by by vm_compute. split; [exact E|].
  exact (proj2 (put_artifact_chunk_durable (EV:=calm_env) demo_upload "0" "1" (chunk_headers [x6f])
    [FData [x6f]; FTrailers] plain_0 plain_0_backed 0%nat) E).
Defined.

(** Abandoning it after its first chunk. *)
Definition abandoning : res ApiError UploadStatusResponse * (Store * nat) :=
  abandon_upload (H:=calm_env) demo_upload (plain_0, 0%nat).
Definition plain_0_upload : Upload.row := default received_upload (head (uploads (db plain_0))).
Lemma abandon_upload_ends_witness : exists resp, abandoning.1 = Ok resp /\ us_status resp = Abandoned
  /\ ended demo_upload abandoning.2.1.
Proof.
  assert (E : is_ok abandoning.1 && match abandoning.1 with Ok r => bool_decide (us_status r = Abandoned) | _ => false end = true)
    by by vm_compute.
  pose proof (fun Hsel => abandon_upload_ends (EV:=calm_env) demo_upload demo_upload plain_0_upload plain_0
    eq_refl Hsel 0%nat) as H. change (abandon_upload demo_upload (plain_0, 0%nat)) with abandoning in H.
  destruct (abandoning.1) as [resp|e]; [|done]. exists resp. split; [done|].
  split; [by apply bool_decide_eq_true in E|].
  refine (proj1 (proj2 (H _) resp eq_refl)). by vm_compute.
Defined.

(** The completion of the run, and the same request again. *)
Definition completing : res ApiError CompletionResponse * (Store * nat) :=
  complete_upload (H:=calm_env) demo_state demo_upload (interrupted, 0%nat).
Lemma complete_upload_receipt_witness : exists c up snap m cap,
  completing.1 = Ok c /\ completion_rows demo_state demo_upload (db completing.2.1) c up snap m cap.
Proof.
  assert (E : is_ok completing.1 = true) by by vm_compute.
  pose proof (complete_upload_receipt (EV:=calm_env) demo_state demo_upload demo_upload interrupted eq_refl 0%nat) as H.
  change (complete_upload demo_state demo_upload (interrupted, 0%nat)) with completing in H.
  destruct (completing.1) as [c|e]; [|done]. destruct (H c eq_refl) as (up & snap & m & cap & Hr).
  by exists c, up, snap, m, cap.
Defined.

Definition completing_again : res ApiError CompletionResponse * (Store * nat) :=
  complete_upload (H:=crash_env 4) demo_state demo_upload (archived, 0%nat).
Definition archived_upload : Upload.row := default received_upload (head (uploads (db archived))).
Lemma complete_upload_retry_witness : completing_again.2.1 = archived.
Proof.
  refine (proj1 (complete_upload_retry (EV:=crash_env 4) demo_state demo_upload demo_upload archived_upload archived
    _ _ _ 0%nat)); by vm_compute.
Defined.

(* ------------------------------------------------------------------ *)
(** ** Collection *)

Lemma deleted_ids : NoDup (Blob.id <$> blobs (db deleted)).
Proof. apply (bool_decide_unpack _). by vm_compute. Qed.
Lemma deleted_no_directory c : c ∈ blobs (db deleted) -> no_directory deleted c.
Proof.
  assert (E : forallb (fun c => bool_decide (files deleted !! blob_path (Blob.stored_sha256 c) <> Some Directory))
    (blobs (db deleted)) = true) by by vm_compute.
  rewrite forallb_true in E. intros Hc%E. by apply bool_decide_eq_true in Hc.
Qed.
Lemma deleted_artifacts : artifact_rows (db deleted) = [].
Proof. by vm_compute. Qed.

Lemma collect_orphaned_blobs_takes_witness :
  collected (sort_key_from_timestamp third_day) deleted
    (collect_orphaned_blobs_at (H:=crash_env 5) third_day (deleted, 0%nat)).2.1.
Proof. exact (collect_orphaned_blobs_takes (EV:=crash_env 5) third_day deleted deleted_ids 0%nat). Defined.

Definition due : list Blob.row := gc_candidates (sort_key_from_timestamp third_day) (db deleted).
Lemma two_due : Z.of_nat (length due) = 2 /\ taken due (db deleted) = 2.
Proof. by vm_compute. Qed.
Lemma collect_orphaned_blobs_complete_witness :
  wp (collect_orphaned_blobs_at (H:=calm_env) third_day) (fun r s' =>
    r = Ok {| inspected_blobs := Z.of_nat (length due); deleted_blobs := taken due (db deleted) |}
    /\ swept due deleted s') deleted.
Proof.
  apply (collect_orphaned_blobs_complete (EV:=calm_env) (fun _ => eq_refl) third_day deleted deleted_ids).
  - intros a. rewrite deleted_artifacts. intros []%elem_of_nil.
  - exact deleted_no_directory.
Defined.

(* ------------------------------------------------------------------ *)
(** ** An upload the expiry pass does not see *)

Definition half_past : OffsetDateTime := mkTime 1767225600500000000 0.
Definition overdue_upload : Upload.row :=
  Upload.mk demo_upload "v1" (counter_uuid 0) demo_client "capture-1" "capture-1" (sha256_hex []) "created" None
    "2026-01-01T00:00:00Z" None 4 2 5 5 "2026-01-01T00:00:00Z" 2 9 8 0 0.
Definition overdue_store : Store := mkStore (with_uploads (fun _ => [overdue_upload]) empty_db) ∅ 2.

(** The pass compares deadlines as texts, and a deadline without fraction
    sorts after the same second with one ("Z" is above "."): the upload below
    expired half a second ago, the server refuses its chunks for that, and
    yet the pass selects nothing and reports no expiry. *)
Theorem expiry_pass_overlooks :
  is_expired overdue_upload half_past = Ok true
  /\ format_rfc3339 half_past = Some "2026-01-01T00:00:00.5Z"%string
  /\ expiry_candidate "2026-01-01T00:00:00.5Z" overdue_upload = false
  /\ (expire_uploads_at (H:=calm_env) half_past (overdue_store, 0%nat)).1 = Ok 0
  /\ uploads (db (expire_uploads_at (H:=calm_env) half_past (overdue_store, 0%nat)).2.1) = [overdue_upload].
Proof. by vm_compute. Qed.

(* ------------------------------------------------------------------ *)
(** ** The totals, and the next start *)

Definition stats := get_stats (H:=calm_env) demo_state (archived, 0%nat).
Lemma stats_tell_catalogue_witness : exists doc, stats.1 = Ok doc /\ tells demo_state (catalogue (db archived)) (db archived) doc.
Proof.
  refine (proj2 (stats_tell_catalogue (EV:=calm_env) demo_state demo_limits_typed archived reachable_archived) _ _ _ 0%nat).
  - reflexivity.
  - intros k. eexists. vm_compute. reflexivity.
  - unfold totals_fit. vm_compute. intuition discriminate.
Defined.

#[local] Existing Instance text_addresses.
Definition demo_config : Config :=
  match from_values {["PATWARI_BLOB_GC_GRACE" := "1d"]}%string with Ok c => c | Err _ => default_config end.
Definition next_start := bootstrap (H:=calm_env) demo_config (archived, 0%nat).
Lemma demo_config_typed : config_typed demo_config.
Proof. split; vm_compute; discriminate. Qed.
Lemma start_resumes_witness : starts demo_config archived next_start.1 next_start.2.1
  /\ (exists st, next_start.1 = Ok (st, demo_identity)) /\ size (files next_start.2.1) = 2%nat.
Proof.
  split; [|split; [eexists; vm_compute; reflexivity|vm_compute; reflexivity]].
  refine (start_resumes (EV:=calm_env) demo_config demo_state archived demo_limits_typed eq_refl reachable_archived _
    demo_config_typed 0%nat).
  right. exists demo_identity. split; [vm_compute|]; reflexivity.
Defined.
