(* ===== verification/Maintenance.v ===== *)
(** Cross-process maintenance coordination ([maintenance.rs]): the lease row
    of [maintenance_gate] and the advisory lock of [archive-maintenance.lock],
    and the operations of the server that take them.  The code is written in
    a small language of system calls; the tasks of all the processes
    interleave between two calls, may be cancelled (a crash, a dropped
    request) at any of them, and every call may fail.

    A task that is cancelled does nothing more, and its lock goes with it.  That
    is so of a process that dies.  Of a request that is dropped inside a process
    that lives on (a timeout of [service.rs], a client that goes away) it leaves
    the runtime out: the file operation on a blocking thread of tokio, or the
    statement in the worker of the connection, that was under way at that point
    is still carried out after the permit was dropped. *)
From stdpp Require Import prelude strings gmap relations.
From Stdlib Require Import ZArith Lia FunctionalExtensionality.
From S2P Require Import Prelude Errors Externals.

Import MaintenanceGateError BackupError.
Abbreviation MaintenanceGateError := MaintenanceGateError.t.
Abbreviation BackupError := BackupError.t.

(** The singleton row of [maintenance_gate]. *)
Record GateRow : Type := mkGateRow {
  exclusive_token : option string;
  exclusive_until_unix : option Z;
}.
Definition open_gate : GateRow := mkGateRow None None.

(** [LEASE_DURATION] in seconds, [EXCLUSIVE_WAIT_LIMIT] and the pause between
    two attempts in milliseconds. *)
Definition LEASE_DURATION : Z := 6 * 60 * 60.
Definition EXCLUSIVE_WAIT_LIMIT : Z := 15 * 60 * 1000.
Definition EXCLUSIVE_RETRY : Z := 100.

(* ------------------------------------------------------------------ *)
(** ** System calls and programs *)

Inductive LockAnswer : Type := Locked | WouldBlock | LockFailed.
Inductive Mode : Type := Shared | Exclusive.
#[export] Instance Mode_eq_dec : EqDecision Mode.
Proof. solve_decision. Defined.

Section programs.
Context {Archive : Type}.

Inductive Call : Type -> Type :=
| OpenLockFile : Call bool
| TryLockShared : Call LockAnswer
| TryLockExclusive : Call LockAnswer
| Unlock : Call bool
| CloseFile : Call unit
| SelectGate : Call (option GateRow)
| UpdateGate (update : GateRow -> option GateRow) : Call (option Z)
| UnixTimestamp : Call Z
| NowV7 : Call string
| InstantNow : Call Z
| SleepUntil (deadline : Z) : Call unit
| ReadArchive : Call Archive
| WriteArchive (f : Archive -> Archive) : Call unit.

(** [Loop body k]: [loop { body }], left with [k x] once [body] breaks with
    [Some x]. *)
Inductive Prog (A : Type) : Type :=
| Ret (a : A)
| Do {X : Type} (c : Call X) (k : X -> Prog A)
| Loop {X : Type} (body : Prog (option X)) (k : X -> Prog A).
Arguments Ret {A} _.
Arguments Do {A X} _ _.
Arguments Loop {A X} _ _.

Fixpoint bind {A B} (p : Prog A) (f : A -> Prog B) : Prog B :=
  match p with
  | Ret a => f a
  | Do c k => Do c (fun x => bind (k x) f)
  | Loop body k => Loop body (fun x => bind (k x) f)
  end.
Definition call {X} (c : Call X) : Prog X := Do c Ret.

Lemma bind_ext {A B} (p : Prog A) (f g : A -> Prog B) : (forall a, f a = g a) -> bind p f = bind p g.
Proof. intros E. f_equal. by apply functional_extensionality. Qed.
Lemma bind_assoc {A B C} (p : Prog A) (f : A -> Prog B) (g : B -> Prog C) :
  bind (bind p f) g = bind p (fun a => bind (f a) g).
Proof.
  revert f g. induction p as [A a|A X c k IH|A X body _ k IH]; intros f g; simpl; [done|..];
    f_equal; apply functional_extensionality; intros x; apply IH.
Qed.
End programs.
Arguments Call : clear implicits.
Arguments Prog : clear implicits.
Arguments Ret {Archive A} _.
Arguments Do {Archive A X} _ _.
Arguments Loop {Archive A X} _ _.

Declare Scope gate_scope.
Delimit Scope gate_scope with gate.
Notation "'let!' p ':=' c 'in' k" := (bind c (fun p => k))
  (at level 10, p pattern, c at level 100, k at level 200) : gate_scope.
Notation "c '&>' k" := (bind c (fun _ => k))
  (at level 100, k at level 200, right associativity) : gate_scope.
Local Open Scope gate_scope.

(* ------------------------------------------------------------------ *)
(** ** The code *)

Section code.
Context {Archive : Type}.
Abbreviation prog := (Prog Archive).
Abbreviation gate T := (Prog Archive (res MaintenanceGateError T)).

Definition open_lock_file : gate unit :=
  let! opened := call OpenLockFile in
  Ret (if opened then Ok tt else Err Unavailable).

Definition unix_timestamp : prog Z := call UnixTimestamp.

Definition lease_until : prog Z :=
  let! now := unix_timestamp in Ret (now + LEASE_DURATION).

(** [sqlx::query(..).execute(database)], with the rows affected. *)
Definition execute_gate (update : GateRow -> option GateRow) : gate Z :=
  let! answer := call (UpdateGate update) in Ret (ok_or answer Unavailable).

(** [UPDATE .. SET exclusive_token = NULL .. WHERE exclusive_token = ?1 AND
    exclusive_until_unix <= ?2] *)
Definition expire_update (token : string) (now : Z) (row : GateRow) : option GateRow :=
  if bool_decide (exclusive_token row = Some token)
     && match exclusive_until_unix row with Some until => until <=? now | None => false end
  then Some open_gate else None.

(** [UPDATE .. SET exclusive_token = ?1, exclusive_until_unix = ?2 WHERE
    exclusive_token IS NULL OR exclusive_until_unix <= ?3] *)
Definition claim_update (token : string) (until now : Z) (row : GateRow) : option GateRow :=
  if bool_decide (exclusive_token row = None)
     || match exclusive_until_unix row with Some u => u <=? now | None => false end
  then Some (mkGateRow (Some token) (Some until)) else None.

(** [UPDATE .. SET exclusive_token = NULL .. WHERE exclusive_token = ?1] *)
Definition clear_update (token : string) (row : GateRow) : option GateRow :=
  if bool_decide (exclusive_token row = Some token) then Some open_gate else None.

(** One turn of the loop of [maintenance_is_active]: [inl] goes round again. *)
Definition maintenance_look : Prog Archive (unit + res MaintenanceGateError bool) :=
  let! answer := call SelectGate in
  match answer with
  | None => Ret (inr (Err Unavailable))
  | Some row =>
      match exclusive_token row with
      | None => Ret (inr (Ok false))
      | Some token =>
          let! now := unix_timestamp in
          match exclusive_until_unix row with
          | None => Ret (inr (Ok true))
          | Some until =>
              if now <? until then Ret (inr (Ok true))
              else
                let! cleared := execute_gate (expire_update token now) in
                match cleared with
                | Ok _ => Ret (inl tt)
                | Err e => Ret (inr (Err e))
                end
          end
      end
  end.
Fixpoint maintenance_is_active_for (turns : nat) : gate bool :=
  match turns with
  | O => Ret (Ok true)
  | S turns =>
      let! looked := maintenance_look in
      match looked with
      | inl _ => maintenance_is_active_for turns
      | inr r => Ret r
      end
  end.
Definition maintenance_is_active : gate bool := maintenance_is_active_for 2.

Definition claim_lease (token : string) : gate unit :=
  let! now := unix_timestamp in
  let! until := lease_until in
  let! updated := execute_gate (claim_update token until now) in
  Ret (match updated with
       | Err e => Err e
       | Ok rows_affected => if rows_affected =? 1 then Ok tt else Err Busy
       end).

Definition clear_lease (token : string) : gate unit :=
  let! updated := execute_gate (clear_update token) in
  Ret (res_bind updated (fun _ => Ok tt)).

(** A permit is the open file that carries the lock: dropping the permit
    closes the file. *)
Definition drop_permit : prog unit := call CloseFile.

Definition SharedFilePermit_acquire : gate unit :=
  let! file := open_lock_file in
  match file with
  | Err e => Ret (Err e)
  | Ok _ =>
      let! answer := call TryLockShared in
      match answer with
      | Locked => Ret (Ok tt)
      | WouldBlock => drop_permit &> Ret (Err Busy)
      | LockFailed => drop_permit &> Ret (Err Unavailable)
      end
  end.

Definition SharedPermit_acquire : gate unit :=
  let! file := SharedFilePermit_acquire in
  match file with
  | Err e => Ret (Err e)
  | Ok _ =>
      let! active := maintenance_is_active in
      match active with
      | Err e => drop_permit &> Ret (Err e)
      | Ok true => drop_permit &> Ret (Err Busy)
      | Ok false => Ret (Ok tt)
      end
  end.

Definition ensure_not_active : gate unit :=
  let! active := maintenance_is_active in
  Ret (match active with
       | Err e => Err e
       | Ok true => Err Busy
       | Ok false => Ok tt
       end).

(** One turn of the waiting loop: [None] goes round again. *)
Definition wait_turn (token : string) (wait_started : Z)
    : prog (option (res MaintenanceGateError unit)) :=
  let! answer := call TryLockExclusive in
  match answer with
  | Locked => Ret (Some (Ok tt))
  | LockFailed =>
      clear_lease token &> drop_permit &> Ret (Some (Err Unavailable))
  | WouldBlock =>
      let! now := call InstantNow in
      if EXCLUSIVE_WAIT_LIMIT <=? now - wait_started then
        clear_lease token &> drop_permit &> Ret (Some (Err Busy))
      else
        let! now := call InstantNow in
        call (SleepUntil (now + EXCLUSIVE_RETRY)) &>
        Ret None
  end.

(** Gives the token, which [release] needs. *)
Definition ExclusivePermit_acquire : gate string :=
  let! token := call NowV7 in
  let! claimed := claim_lease token in
  match claimed with
  | Err e => Ret (Err e)
  | Ok _ =>
      let! file := open_lock_file in
      match file with
      | Err e => clear_lease token &> Ret (Err e)
      | Ok _ =>
          let! wait_started := call InstantNow in
          Loop (wait_turn token wait_started)
               (fun r => Ret (res_bind r (fun _ => Ok token)))
      end
  end.

Definition release (token : string) : gate unit :=
  let! cleared := clear_lease token in
  match cleared with
  | Err e => drop_permit &> Ret (Err e)
  | Ok _ =>
      let! unlocked := call Unlock in
      drop_permit &>
      Ret (if unlocked : bool then Ok tt else Err Unavailable)
  end.
End code.

(** Who takes the permits.  What a request, a migration, a recovery or a
    backup does meanwhile is an argument: any program that leaves the lock
    file alone ([archive_work] and [archive_reader] below). *)
Section callers.
Context {Archive : Type}.
Abbreviation prog := (Prog Archive).

Definition gate_api_requests {R} (next : prog (res ApiError R)) : prog (res ApiError R) :=
  let! permit := SharedPermit_acquire in
  match permit with
  | Ok _ => let! response := next in drop_permit &> Ret response
  | Err Busy => Ret (Err Api.maintenance)
  | Err Unavailable => Ret (Err Api.maintenance_unavailable)
  end.

(** [Service::expire_uploads], [Service::collect_blob_garbage] and
    [Service::verify_integrity]: [refused] is their [map_err]. *)
Definition under_shared_permit {E R} (refused : E) (work : prog (res E R)) : prog (res E R) :=
  let! permit := SharedPermit_acquire in
  match permit with
  | Ok _ => let! result := work in drop_permit &> Ret result
  | Err _ => Ret (Err refused)
  end.

Definition bootstrap_with_recovery {E} (recovery : E) (recover : bool)
    (create_storage connect recover_uploads : prog (res E unit)) : prog (res E unit) :=
  let! permit := SharedFilePermit_acquire in
  match permit with
  | Err _ => Ret (Err recovery)
  | Ok _ =>
      let! result :=
        let! storage := create_storage in
        match storage with Err e => Ret (Err e) | Ok _ =>
        let! database := connect in
        match database with Err e => Ret (Err e) | Ok _ =>
        let! active := ensure_not_active in
        match active with Err _ => Ret (Err recovery) | Ok _ =>
        if recover then recover_uploads else Ret (Ok tt)
        end end end in
      drop_permit &> Ret result
  end.

(** The end of [backup::create]; [create_locked] reads the archive. *)
Definition backup_create {R} (create_locked : prog (res BackupError R)) : prog (res BackupError R) :=
  let! permit := ExclusivePermit_acquire in
  match permit with
  | Err e => Ret (Err (map_gate_error e))
  | Ok token =>
      let! result := create_locked in
      let! released := release token in
      Ret (match result, res_map_err map_gate_error released with
           | Ok result, Ok _ => Ok result
           | Err e, _ => Err e
           | Ok _, Err e => Err e
           end)
  end.

(** What a request handler may do: anything but touch the lock file. *)
Inductive archive_work : forall {R}, prog R -> Prop :=
| work_ret {R} (r : R) : archive_work (Ret r)
| work_read {R} (k : Archive -> prog R) : (forall a, archive_work (k a)) -> archive_work (Do ReadArchive k)
| work_write {R} f (k : unit -> prog R) : (forall u, archive_work (k u)) -> archive_work (Do (WriteArchive f) k).
Inductive archive_reader : forall {R}, prog R -> Prop :=
| reader_ret {R} (r : R) : archive_reader (Ret r)
| reader_read {R} (k : Archive -> prog R) : (forall a, archive_reader (k a)) -> archive_reader (Do ReadArchive k).
End callers.

(* ------------------------------------------------------------------ *)
(** ** The machine *)

Abbreviation Task := nat.

(** [flock] has the lock each task's open file carries; [wall] is the wall
    clock (seconds, may jump), [instant] the monotonic one (milliseconds). *)
Record World {Archive : Type} : Type := mkWorld {
  gate : GateRow;
  flock : gmap Task Mode;
  archive : Archive;
  wall : Z;
  instant : Z;
  drawn_tokens : nat;
}.
Arguments World : clear implicits.

Section machine.
Context {Archive : Type} `{UuidLib}.
Abbreviation world := (World Archive).

Definition set_gate (g : GateRow) (w : world) : world :=
  mkWorld _ g (flock w) (archive w) (wall w) (instant w) (drawn_tokens w).
Definition set_flock (l : gmap Task Mode) (w : world) : world :=
  mkWorld _ (gate w) l (archive w) (wall w) (instant w) (drawn_tokens w).
Definition set_archive (a : Archive) (w : world) : world :=
  mkWorld _ (gate w) (flock w) a (wall w) (instant w) (drawn_tokens w).
Definition set_clocks (s ms : Z) (w : world) : world :=
  mkWorld _ (gate w) (flock w) (archive w) s ms (drawn_tokens w).
Definition draw_token (w : world) : world :=
  mkWorld _ (gate w) (flock w) (archive w) (wall w) (instant w) (S (drawn_tokens w)).

(** Whether an open file other than [t]'s carries a lock of these modes. *)
Definition held_by_other (t : Task) (modes : Mode -> bool) (w : world) : bool :=
  bool_decide (map_Exists (fun _ m => modes m) (delete t (flock w))).
Definition is_exclusive (m : Mode) : bool := bool_decide (m = Exclusive).

Definition try_lock (t : Task) (mode : Mode) (fails blocked : bool) (w : world) : LockAnswer * world :=
  if fails then (LockFailed, w)
  else if blocked then (WouldBlock, w)
  else (Locked, set_flock (<[t := mode]> (flock w)) w).

(** One call of task [t]; [fails] says that the system refuses it. *)
Definition perform {X} (t : Task) (fails : bool) (c : Call Archive X) (w : world) : X * world :=
  match c with
  | OpenLockFile => (negb fails, w)
  | TryLockShared => try_lock t Shared fails (held_by_other t is_exclusive w) w
  | TryLockExclusive => try_lock t Exclusive fails (held_by_other t (fun _ => true) w) w
  | Unlock => if fails then (false, w) else (true, set_flock (delete t (flock w)) w)
  | CloseFile => (tt, set_flock (delete t (flock w)) w)
  | SelectGate => ((if fails then None else Some (gate w)), w)
  | UpdateGate update =>
      if fails then (None, w)
      else match update (gate w) with
           | Some row => (Some 1, set_gate row w)
           | None => (Some 0, w)
           end
  | UnixTimestamp => (wall w, w)
  | NowV7 => (now_v7 (drawn_tokens w), draw_token w)
  | InstantNow => (instant w, w)
  | SleepUntil _ => (tt, w)
  | ReadArchive => (archive w, w)
  | WriteArchive f => (tt, set_archive (f (archive w)) w)
  end.
(** A sleeper wakes no earlier than its deadline. *)
Definition ready {X} (c : Call Archive X) (w : world) : Prop :=
  match c with SleepUntil deadline => deadline <= instant w | _ => True end.

(** The programs the processes of the archive run. *)
Inductive served : Prog Archive unit -> Prop :=
| serve_request {R} (next : Prog Archive (res ApiError R)) :
    archive_work next -> served (gate_api_requests next &> Ret tt)
| serve_maintenance {E R} (refused : E) (work : Prog Archive (res E R)) :
    archive_work work -> served (under_shared_permit refused work &> Ret tt)
| serve_bootstrap {E} (recovery : E) recover create_storage connect recover_uploads :
    archive_work create_storage -> archive_work connect -> archive_work recover_uploads ->
    served (bootstrap_with_recovery recovery recover create_storage connect recover_uploads &> Ret tt)
| serve_backup {R} (create_locked : Prog Archive (res BackupError R)) :
    archive_reader create_locked -> served (backup_create create_locked &> Ret tt).

Record Machine : Type := mkMachine { world_of : world; tasks : gmap Task (Prog Archive unit) }.

Inductive step : Machine -> Machine -> Prop :=
| step_spawn w ts t p : ts !! t = None -> served p ->
    step (mkMachine w ts) (mkMachine w (<[t := p]> ts))
| step_call w ts t X (c : Call Archive X) k fails x w' :
    ts !! t = Some (Do c k) -> ready c w -> perform t fails c w = (x, w') ->
    step (mkMachine w ts) (mkMachine w' (<[t := k x]> ts))
| step_loop w ts t X (body : Prog Archive (option X)) k :
    ts !! t = Some (Loop body k) ->
    step (mkMachine w ts)
         (mkMachine w (<[t := let! r := body in match r with Some x => k x | None => Loop body k end]> ts))
| step_end w ts t p :
    (** The task returned, was cancelled, or died with its process: it does
        nothing more. *)
    ts !! t = Some p ->
    step (mkMachine w ts) (mkMachine (set_flock (delete t (flock w)) w) (delete t ts))
| step_clock w ts s ms : instant w <= ms ->
    step (mkMachine w ts) (mkMachine (set_clocks s ms w) ts).

(** Before the first process starts nobody holds the lock; the row may be
    whatever earlier processes left. *)
Definition initial (m : Machine) : Prop := flock (world_of m) = ∅ /\ tasks m = ∅.
Definition reachable (m : Machine) : Prop := exists m0, initial m0 /\ rtc step m0 m.
End machine.
Arguments Machine : clear implicits.

(* ------------------------------------------------------------------ *)
(** ** A program logic for the lock a task holds *)

Section logic.
Context {Archive : Type}.

Definition may_call {X} (c : Call Archive X) (h : option Mode) : Prop :=
  match c with
  | TryLockShared | TryLockExclusive => h = None
  | WriteArchive _ => h = Some Shared
  | ReadArchive => is_Some h
  | _ => True
  end.
Definition lock_after {X} (c : Call Archive X) (h : option Mode) : X -> option Mode :=
  match c with
  | TryLockShared => fun x => match x with Locked => Some Shared | _ => None end
  | TryLockExclusive => fun x => match x with Locked => Some Exclusive | _ => None end
  | Unlock => fun x => if x then None else h
  | CloseFile => fun _ => None
  | _ => fun _ => h
  end.

(** [lwp p Q h]: started with the lock [h], [p] only calls what [may_call]
    allows, and returns in [Q]. *)
Fixpoint lwp {A} (p : Prog Archive A) (Q : A -> option Mode -> Prop) (h : option Mode) : Prop :=
  match p with
  | Ret a => Q a h
  | Do c k => may_call c h /\ forall x, lwp (k x) Q (lock_after c h x)
  | Loop body k =>
      exists I : option Mode -> Prop, I h /\ forall h', I h' ->
        lwp body (fun r h => match r with None => I h | Some x => lwp (k x) Q h end) h'
  end.

Lemma lwp_mono {A} (p : Prog Archive A) (P Q : A -> option Mode -> Prop) h :
  (forall a h, P a h -> Q a h) -> lwp p P h -> lwp p Q h.
Proof.
  revert P Q h. induction p as [A a|A X c k IH|A X body IHb k IHk]; intros P Q h HPQ; simpl.
  - apply HPQ.
  - intros [Hc Hk]. split; [done|]. intros x. by apply (IH x P).
  - intros (I & HI & Hb). exists I. split; [done|]. intros h' Hh'.
    eapply IHb; [|by apply Hb]. intros [x|] h''; [|done]. by apply IHk.
Qed.
Lemma lwp_bind {A B} (p : Prog Archive A) (f : A -> Prog Archive B) Q h :
  lwp p (fun a => lwp (f a) Q) h -> lwp (bind p f) Q h.
Proof.
  revert h. induction p as [A a|A X c k IH|A X body IHb k IHk]; intros h; simpl; [done|..].
  - intros [Hc Hk]. split; [done|]. intros x. by apply IH.
  - intros (I & HI & Hb). exists I. split; [done|]. intros h' Hh'.
    eapply lwp_mono; [|by apply Hb]. intros [x|] h''; [|done]. by apply IHk.
Qed.

(** Every permit operation leaves exactly the lock its answer says. *)
Definition permit_held {T} (mode : Mode) (r : res MaintenanceGateError T) (h : option Mode) : Prop :=
  h = if is_ok r then Some mode else None.
Definition keeps {T} (h : option Mode) (_ : T) (h' : option Mode) : Prop := h' = h.

Lemma lwp_open h : lwp open_lock_file (keeps h) h.
Proof. by repeat split. Qed.
Lemma lwp_execute update h : lwp (execute_gate update) (keeps h) h.
Proof. by repeat split. Qed.
Lemma lwp_clear token h : lwp (clear_lease token) (keeps h) h.
Proof. by repeat split. Qed.
Lemma lwp_claim token h : lwp (claim_lease token) (keeps h) h.
Proof. by repeat split. Qed.
Lemma lwp_look h : lwp maintenance_look (keeps h) h.
Proof.
  split; [done|]. intros [row|]; [|done]. simpl. destruct (exclusive_token row); [|done].
  split; [done|]. intros now. destruct (exclusive_until_unix row) as [until|]; [|done].
  destruct (now <? until); [done|]. split; [done|]. by intros [n|].
Qed.
Lemma lwp_active turns h : lwp (maintenance_is_active_for turns) (keeps h) h.
Proof.
  induction turns as [|turns IH]; [done|]. cbn [maintenance_is_active_for].
  apply lwp_bind. eapply lwp_mono; [|apply lwp_look]. intros [[]|r] ? ->; [apply IH|done].
Qed.
(** Chains [lwp_bind] with the specification of the first program. *)
Tactic Notation "lwp_step" uconstr(L) :=
  apply lwp_bind; eapply lwp_mono;
  [let r := fresh "r" in let h := fresh "h" in intros r h; cbn beta|apply L].

Lemma lwp_shared_file : lwp SharedFilePermit_acquire (permit_held Shared) None.
Proof.
  lwp_step lwp_open. intros ->. destruct r; [|done]. split; [done|]. by intros [].
Qed.
Lemma lwp_shared : lwp SharedPermit_acquire (permit_held Shared) None.
Proof.
  lwp_step lwp_shared_file. intros ->. destruct r as [[]|e]; cbn iota; [|done].
  lwp_step lwp_active. intros ->. by destruct r as [[]|].
Qed.
Lemma lwp_ensure h : lwp ensure_not_active (keeps h) h.
Proof. lwp_step (lwp_active 2). by intros ->. Qed.
Lemma lwp_wait_turn token started :
  lwp (wait_turn token started)
      (fun r h => match r with None => h = None | Some r => permit_held Exclusive r h end) None.
Proof.
  split; [done|]. intros []; simpl.
  - done.
  - split; [done|]. intros now. destruct (_ <=? _); repeat split.
  - by repeat split.
Qed.
Lemma lwp_exclusive : lwp ExclusivePermit_acquire (permit_held Exclusive) None.
Proof.
  apply lwp_bind. split; [done|]. intros token. cbn beta.
  lwp_step lwp_claim. intros ->. destruct r; cbn iota; [|done].
  lwp_step lwp_open. intros ->. destruct r; cbn iota.
  2: { lwp_step lwp_clear. by intros ->. }
  apply lwp_bind. split; [done|]. intros started. exists (eq None). split; [done|]. intros ? <-.
  eapply lwp_mono; [|apply lwp_wait_turn]. intros [r|] h; [|done].
  intros ->. by destruct r.
Qed.
Lemma lwp_release token h : lwp (release token) (fun _ h' => h' = None) h.
Proof.
  lwp_step lwp_clear. intros ->. destruct r; cbn iota; [|by repeat split].
  split; [done|]. by repeat split.
Qed.
Lemma lwp_work {R} (p : Prog Archive R) : archive_work p -> lwp p (keeps (Some Shared)) (Some Shared).
Proof.
  induction 1; simpl; [done|..]; split; eauto; done.
Qed.
Lemma lwp_reader {R} (p : Prog Archive R) h : archive_reader p -> is_Some h -> lwp p (keeps h) h.
Proof. intros Hp Hh. induction Hp; simpl; [done|]. split; eauto. Qed.

Lemma lwp_gate {R} (next : Prog Archive (res ApiError R)) :
  archive_work next -> lwp (gate_api_requests next) (fun _ h => h = None) None.
Proof.
  intros Hn. lwp_step lwp_shared. intros ->. destruct r as [[]|[]]; cbn iota; [|done..].
  lwp_step lwp_work; [|done]. done.
Qed.
Lemma lwp_under {E R} (refused : E) (work : Prog Archive (res E R)) :
  archive_work work -> lwp (under_shared_permit refused work) (fun _ h => h = None) None.
Proof.
  intros Hn. lwp_step lwp_shared. intros ->. destruct r as [[]|]; cbn iota; [|done].
  lwp_step lwp_work; [|done]. done.
Qed.
Lemma lwp_bootstrap {E} (recovery : E) recover create_storage connect recover_uploads :
  archive_work create_storage -> archive_work connect -> archive_work recover_uploads ->
  lwp (bootstrap_with_recovery (Archive := Archive) recovery recover create_storage connect recover_uploads)
      (fun _ h => h = None) None.
Proof.
  intros Hs Hc Hr. lwp_step lwp_shared_file. intros ->. destruct r as [[]|]; cbn iota; [|done].
  apply lwp_bind. eapply lwp_mono with (P := keeps (Some Shared)); [done|].
  lwp_step lwp_work; [|done]. intros ->. destruct r as [[]|]; cbn iota; [|done].
  lwp_step lwp_work; [|done]. intros ->. destruct r as [[]|]; cbn iota; [|done].
  lwp_step lwp_ensure. intros ->. destruct r as [[]|]; cbn iota; [|done].
  destruct recover; [by apply lwp_work|done].
Qed.
Lemma lwp_backup {R} (create_locked : Prog Archive (res BackupError R)) :
  archive_reader create_locked -> lwp (backup_create create_locked) (fun _ h => h = None) None.
Proof.
  intros Hc. lwp_step lwp_exclusive. intros ->. destruct r as [token|]; cbn iota; [|done].
  lwp_step lwp_reader; [|done..]. intros ->. lwp_step lwp_release. by intros ->.
Qed.
Lemma lwp_served `{UuidLib} (p : Prog Archive unit) : served p -> lwp p (fun _ _ => True) None.
Proof.
  intros [R next Hn|E R refused work Hn|E recovery recover cs co ru H1 H2 H3|R cl Hn];
    apply lwp_bind; (eapply lwp_mono; [|by (apply lwp_gate || apply lwp_under || apply lwp_bootstrap || apply lwp_backup)]); done.
Qed.
End logic.

(* ------------------------------------------------------------------ *)
(** ** The invariant of the machine *)

Section invariant.
Context {Archive : Type} `{UuidLib}.
Abbreviation machine := (Machine Archive).

Definition alone (l : gmap Task Mode) : Prop :=
  forall t t', l !! t = Some Exclusive -> is_Some (l !! t') -> t' = t.
Definition holds (t : Task) (mode : Mode) (m : machine) : Prop :=
  flock (world_of m) !! t = Some mode.

Record sound (m : machine) : Prop := {
  s_tasks : forall t p, tasks m !! t = Some p -> lwp p (fun _ _ => True) (flock (world_of m) !! t);
  s_owned : forall t, is_Some (flock (world_of m) !! t) -> is_Some (tasks m !! t);
  s_alone : alone (flock (world_of m));
}.

Lemma held_by_other_false t modes (w : World Archive) :
  held_by_other t modes w = false <-> forall t' m, flock w !! t' = Some m -> t' <> t -> modes m = false.
Proof.
  unfold held_by_other. rewrite bool_decide_eq_false, map_not_Exists.
  split.
  - intros Hf t' m Hm Hne. apply not_true_is_false. intros E. eapply (Hf t' m); [|by rewrite E].
    by rewrite lookup_delete_ne.
  - intros Hf t' m [Hne Hm]%lookup_delete_Some Hb. by rewrite (Hf t' m) in Hb.
Qed.
Lemma alone_shared l t : (forall t' m, l !! t' = Some m -> t' <> t -> is_exclusive m = false) ->
  alone l -> alone (<[t := Shared]> l).
Proof.
  intros Hf Ha u u' Hu Hu'. apply lookup_insert_Some in Hu as [[_ ?]|[Hne Hu]]; [done|].
  specialize (Hf u _ Hu ltac:(done)). done.
Qed.
Lemma alone_exclusive l t : (forall t' m, l !! t' = Some m -> t' <> t -> true = false) ->
  alone (<[t := Exclusive]> l).
Proof.
  intros Hf u u' Hu [m Hu'].
  apply lookup_insert_Some in Hu as [[<- _]|[Hne Hu]]; [|by specialize (Hf u _ Hu ltac:(done))].
  apply lookup_insert_Some in Hu' as [[<- _]|[Hne Hu']]; [done|]. by specialize (Hf u' _ Hu' ltac:(done)).
Qed.
Lemma alone_delete l t : alone l -> alone (delete t l).
Proof.
  intros Ha u u' [_ Hu]%lookup_delete_Some [m [_ Hu']%lookup_delete_Some]. eauto.
Qed.

(** What a call does to the locks. *)
Lemma perform_locks {X} t fails (c : Call Archive X) (w : World Archive) x (w' : World Archive) :
  perform t fails c w = (x, w') -> may_call c (flock w !! t) -> alone (flock w) ->
  flock w' !! t = lock_after c (flock w !! t) x /\ (forall t', t' <> t -> flock w' !! t' = flock w !! t') /\ alone (flock w').
Proof.
  destruct c; simpl; intros E Hc Ha; try (by simplify_eq).
  - unfold try_lock in E. destruct fails; simplify_eq; [by rewrite Hc|].
    destruct (held_by_other _ _ _) eqn:Hb; simplify_eq; [by rewrite Hc|].
    rewrite held_by_other_false in Hb. cbn [flock set_flock]. rewrite lookup_insert_eq.
    split_and!; [done| |by apply alone_shared]. intros t' Hne. by rewrite lookup_insert_ne.
  - unfold try_lock in E. destruct fails; simplify_eq; [by rewrite Hc|].
    destruct (held_by_other _ _ _) eqn:Hb; simplify_eq; [by rewrite Hc|].
    rewrite held_by_other_false in Hb. cbn [flock set_flock]. rewrite lookup_insert_eq.
    split_and!; [done| |by apply alone_exclusive]. intros t' Hne. by rewrite lookup_insert_ne.
  - destruct fails; simplify_eq; [done|]. cbn [flock set_flock]. rewrite lookup_delete_eq.
    split_and!; [done| |by apply alone_delete]. intros t' Hne. by rewrite lookup_delete_ne.
  - simplify_eq. cbn [flock set_flock]. rewrite lookup_delete_eq.
    split_and!; [done| |by apply alone_delete]. intros t' Hne. by rewrite lookup_delete_ne.
  - destruct fails; simplify_eq; [done|]. destruct (update (gate w)); by simplify_eq.
Qed.
Lemma perform_archive {X} t fails (c : Call Archive X) (w : World Archive) x (w' : World Archive) :
  perform t fails c w = (x, w') -> flock w !! t <> Some Shared -> may_call c (flock w !! t) ->
  archive w' = archive w.
Proof.
  destruct c; simpl; intros E Hs Hc; try by simplify_eq.
  - unfold try_lock in E. repeat case_match; by simplify_eq.
  - unfold try_lock in E. repeat case_match; by simplify_eq.
  - case_match; by simplify_eq.
  - repeat case_match; by simplify_eq.
Qed.

Lemma step_sound (m m' : machine) : step m m' -> sound m -> sound m'.
Proof.
  intros Hs [Ht Ho Ha].
  destruct Hs as [w ts t p Hn Hp|w ts t X c k fails x w' Hn _ E|w ts t X body k Hn|w ts t p Hn|w ts s ms _];
    cbn [world_of tasks] in *.
  - split; cbn [world_of tasks]; [|intros u Hu; apply lookup_insert_is_Some; destruct (decide (t = u)); eauto|done].
    intros u q [[<- <-]|[Hne Hu]]%lookup_insert_Some; [|by apply Ht].
    replace (flock w !! t) with (@None Mode); [by apply lwp_served|].
    symmetry. apply eq_None_not_Some. intros Hl%Ho. rewrite Hn in Hl. by destruct Hl.
  - destruct (Ht _ _ Hn) as [Hc Hk]. destruct (perform_locks _ _ _ _ _ _ E Hc Ha) as (Ht' & Hf & Ha').
    split; cbn [world_of tasks]; [| |done].
    + intros u q [[<- <-]|[Hne Hu]]%lookup_insert_Some; [rewrite Ht'; apply Hk|].
      rewrite Hf by done. by apply Ht.
    + intros u Hu. apply lookup_insert_is_Some. destruct (decide (t = u)); [by left|right].
      split; [done|]. apply Ho. by rewrite <-Hf.
  - destruct (Ht _ _ Hn) as (I & HI & Hb). split; cbn [world_of tasks]; [| |done].
    + intros u q [[<- <-]|[Hne Hu]]%lookup_insert_Some; [|by apply Ht].
      apply lwp_bind. eapply lwp_mono; [|by apply Hb]. intros [y|] h; [done|]. simpl. eauto.
    + intros u Hu. apply lookup_insert_is_Some. destruct (decide (t = u)); eauto.
  - split; cbn [world_of tasks flock set_flock]; [| |by apply alone_delete].
    + intros u q [Hne Hu]%lookup_delete_Some. rewrite lookup_delete_ne by done. by apply Ht.
    + intros u [mode [Hne Hu]%lookup_delete_Some]. rewrite lookup_delete_ne by done. eauto.
  - by split.
Qed.
Lemma reachable_sound (m : machine) : reachable m -> sound m.
Proof.
  intros (m0 & [Hf Ht] & Hs). assert (H0 : sound m0).
  { split; rewrite ?Hf, ?Ht; [done|..].
    - intros t [? ?]. by rewrite lookup_empty in *.
    - intros t t' E. by rewrite lookup_empty in E. }
  clear Hf Ht. induction Hs; eauto using step_sound.
Qed.
Lemma exclusive_step (m m' : machine) e : sound m -> holds e Exclusive m -> step m m' ->
  archive (world_of m') = archive (world_of m).
Proof.
  intros [Ht Ho Ha] He Hs.
  destruct Hs as [| w ts t X c k fails x w' Hn _ E| | |]; try done. cbn [world_of tasks] in *.
  apply (perform_archive t fails c w x w' E); [|by apply (Ht _ _ Hn)].
  intros Hsh. assert (t = e) as -> by (eapply Ha; [exact He|by eexists]).
  unfold holds in He. simpl in He. congruence.
Qed.

(** C35: For as long as a task holds the exclusive maintenance lock -- in any
    interleaving of requests, maintenance passes, bootstraps and backups of
    any number of processes, with any system call failing, any task dying at
    any point and the clocks moving as they like -- no other task holds the
    lock in any mode, and the archive does not change: whatever the lease row
    says, a backup copies one state of the archive.  (A task dies between two
    calls: that the call a dropped request was in may end after its permit is
    gone is left out, as the head of this file says.) *)
Theorem backup_reads_one_archive (m m' : machine) (e : Task) :
  reachable m -> holds e Exclusive m ->
  rtc (fun a b => step a b /\ holds e Exclusive b) m m' ->
  archive (world_of m') = archive (world_of m) /\ forall t, t <> e -> flock (world_of m') !! t = None.
Proof.
  intros Hr%reachable_sound He Hs.
  assert (sound m' /\ holds e Exclusive m' /\ archive (world_of m') = archive (world_of m)) as (Hm & He' & Harch).
  { induction Hs as [m|m m1 m2 [H1 He1] Hs IH]; [done|].
    destruct (IH (step_sound _ _ H1 Hr) He1) as (? & ? & Ea). split_and!; [done..|].
    by rewrite Ea, (exclusive_step _ _ _ Hr He H1). }
  split; [done|]. intros t Hne. apply eq_None_not_Some. intros Hl.
  apply Hne. eapply (s_alone _ Hm); eauto.
Qed.
End invariant.

(* ------------------------------------------------------------------ *)
(** ** Running one task *)

(** What the rest of the world does before the [n]-th call of the task, and
    the calls the system refuses. *)
Record Interference {Archive : Type} : Type := mkInterference {
  meanwhile : nat -> World Archive -> World Archive;
  refuses : forall {X}, nat -> Call Archive X -> bool;
}.
Arguments Interference : clear implicits.
Definition calm {Archive} : Interference Archive :=
  mkInterference Archive (fun _ w => w) (fun _ _ _ => false).

Section running.
Context {Archive : Type} `{UuidLib} (t : Task) (e : Interference Archive).
Abbreviation world := (World Archive).

(** A sleep lasts until its deadline. *)
Definition due {X} (c : Call Archive X) (w : world) : world :=
  match c with
  | SleepUntil deadline => set_clocks (wall w) (Z.max (instant w) deadline) w
  | _ => w
  end.
Fixpoint exec (fuel : nat) {A} (n : nat) (p : Prog Archive A) (w : world) : option (A * nat * world) :=
  match fuel with
  | O => None
  | S fuel =>
      match p with
      | Ret a => Some (a, n, w)
      | Do c k =>
          let '(x, w) := perform t (refuses e n c) c (due c (meanwhile e n w)) in
          exec fuel (S n) (k x) w
      | Loop body k =>
          exec fuel n (let! r := body in match r with Some x => k x | None => Loop body k end) w
      end
  end.

(** [p] returns, and then [Q] holds of its answer, of the number of calls
    made and of the world. *)
Definition ends {A} (n : nat) (p : Prog Archive A) (w : world) (Q : A -> nat -> world -> Prop) : Prop :=
  exists fuel a n' w', exec fuel n p w = Some (a, n', w') /\ Q a n' w'.

Lemma ends_ret {A} n (a : A) w (Q : A -> nat -> world -> Prop) : Q a n w -> ends n (Ret a) w Q.
Proof. intros HQ. by exists 1%nat, a, n, w. Qed.
Lemma ends_do {A X} n (c : Call Archive X) (k : X -> Prog Archive A) w x w' Q :
  perform t (refuses e n c) c (due c (meanwhile e n w)) = (x, w') ->
  ends (S n) (k x) w' Q -> ends n (Do c k) w Q.
Proof.
  intros E (fuel & a & n' & w'' & Hx & HQ). exists (S fuel), a, n', w''. cbn [exec]. by rewrite E.
Qed.
Lemma ends_loop {A X} n (body : Prog Archive (option X)) (k : X -> Prog Archive A) w Q :
  ends n (let! r := body in match r with Some x => k x | None => Loop body k end) w Q ->
  ends n (Loop body k) w Q.
Proof. intros (fuel & a & n' & w' & Hx & HQ). by exists (S fuel), a, n', w'. Qed.
Lemma exec_bind {A B} fuel : forall n (p : Prog Archive A) (f : A -> Prog Archive B) w a n' w' Q,
  exec fuel n p w = Some (a, n', w') -> ends n' (f a) w' Q -> ends n (bind p f) w Q.
Proof.
  induction fuel as [|fuel IH]; [done|]. intros n p f w a n' w' Q Hx Hf.
  destruct p as [a'|X c k|X body k]; cbn [exec bind] in *.
  - by simplify_eq.
  - destruct (perform _ _ _ _) as [x w1] eqn:E. eapply ends_do; [exact E|]. eauto.
  - apply ends_loop. specialize (IH _ _ f _ _ _ _ _ Hx Hf). rewrite bind_assoc in IH.
    erewrite (bind_ext body); [exact IH|]. by intros [x|].
Qed.
Lemma ends_mono {A} n (p : Prog Archive A) w (P Q : A -> nat -> world -> Prop) :
  ends n p w P -> (forall a n' w', P a n' w' -> Q a n' w') -> ends n p w Q.
Proof. intros (fuel & a & n' & w' & Hx & HP) H1. exists fuel, a, n', w'. auto. Qed.
Lemma ends_bind {A B} n (p : Prog Archive A) (f : A -> Prog Archive B) w Q :
  ends n p w (fun a n' w' => ends n' (f a) w' Q) -> ends n (bind p f) w Q.
Proof. intros (fuel & a & n' & w' & Hx & HQ). eapply exec_bind; eauto. Qed.
End running.

Section adequacy.
Context {Archive : Type} `{UuidLib} (t : Task) (e : Interference Archive).

Lemma step_call_at ts w X (c : Call Archive X) k fails x w' :
  ready c w -> perform t fails c w = (x, w') ->
  step (mkMachine w (<[t := Do c k]> ts)) (mkMachine w' (<[t := k x]> ts)).
Proof.
  intros Hr E. rewrite <-(insert_insert_eq ts t (k x) (Do c k)).
  eapply step_call; [apply lookup_insert_eq|exact Hr|exact E].
Qed.
Lemma step_loop_at ts (w : World Archive) X (body : Prog Archive (option X)) k :
  step (mkMachine w (<[t := Loop body k]> ts))
       (mkMachine w (<[t := let! r := body in match r with Some x => k x | None => Loop body k end]> ts)).
Proof.
  rewrite <-(insert_insert_eq ts t (let! r := body in _) (Loop body k)).
  apply step_loop, lookup_insert_eq.
Qed.

(** What [exec] computes is a sequence of steps of the machine. *)
Lemma exec_steps {A} fuel n (p : Prog Archive A) w a n' w' ts (K : A -> Prog Archive unit) :
  (forall n w, meanwhile e n w = w) -> exec t e fuel n p w = Some (a, n', w') ->
  rtc step (mkMachine w (<[t := bind p K]> ts)) (mkMachine w' (<[t := K a]> ts)).
Proof.
  intros Hm. revert n p w. induction fuel as [|fuel IH]; [done|]. intros n p w Hx.
  destruct p as [a'|X c k|X body k]; cbn [exec] in Hx.
  - by simplify_eq.
  - rewrite Hm in Hx. destruct (perform _ _ _ _) as [x w1] eqn:E.
    transitivity (mkMachine (due c w) (<[t := bind (Do c k) K]> ts)).
    { destruct c; try done. apply rtc_once, step_clock. lia. }
    eapply rtc_l; [|by eapply IH]. eapply (step_call_at ts _ _ c (fun x => bind (k x) K)); [|exact E].
    destruct c; simpl; try done. lia.
  - eapply rtc_l; [apply (step_loop_at ts w _ body (fun x => bind (k x) K))|].
    apply IH in Hx. rewrite bind_assoc in Hx.
    erewrite bind_ext in Hx; [exact Hx|]. by intros [x|].
Qed.
Lemma exec_more {A} fuel : forall n (p : Prog Archive A) w r k,
  exec t e fuel n p w = Some r -> exec t e (fuel + k) n p w = Some r.
Proof.
  induction fuel as [|fuel IH]; [done|]. intros n p w r k. destruct p; cbn [exec Nat.add]; [done| |apply IH].
  destruct (perform _ _ _ _). apply IH.
Qed.
Lemma ends_exec {A} fuel n (p : Prog Archive A) w a n' w' Q :
  ends t e n p w Q -> exec t e fuel n p w = Some (a, n', w') -> Q a n' w'.
Proof.
  intros (g & b & m & w2 & Hg & HQ) Hx.
  pose proof (exec_more _ _ _ _ _ g Hx) as H1. pose proof (exec_more _ _ _ _ _ fuel Hg) as H2.
  rewrite Nat.add_comm in H2. rewrite H1 in H2. by simplify_eq.
Qed.
End adequacy.

(* ------------------------------------------------------------------ *)
(** ** The permits of one task *)

Section permits.
Context {Archive : Type} `{UuidLib}.
Abbreviation world := (World Archive).

(** The [CHECK] constraint of [maintenance_gate]. *)
Definition gate_check (row : GateRow) : Prop :=
  is_Some (exclusive_token row) <-> is_Some (exclusive_until_unix row).
Definition lease_live (w : world) : bool :=
  match exclusive_until_unix (gate w) with Some until => wall w <? until | None => false end.

Lemma set_flock_id (w : world) : set_flock (flock w) w = w.
Proof. by destruct w. Qed.
(** One call of an undisturbed task. *)
Ltac run_call := eapply ends_do; [reflexivity|]; simpl.

Lemma shared_permit_spec t (w : world) (Hc : gate_check (gate w)) (Hf : flock w !! t = None) :
  ends t calm 0 SharedPermit_acquire w (fun answer _ w' =>
    if held_by_other t is_exclusive w || lease_live w
    then answer = Err Busy /\ w' = w
    else answer = Ok tt /\ w' = set_gate open_gate (set_flock (<[t := Shared]> (flock w)) w)).
Proof.
  run_call. unfold lease_live. destruct (held_by_other t is_exclusive w) eqn:Hb; simpl;
    (eapply ends_do; [simpl; unfold try_lock; simpl; rewrite Hb; reflexivity|]); simpl.
  { run_call. apply ends_ret. split; [done|]. rewrite delete_id by done. apply set_flock_id. }
  run_call. destruct w as [[[token|] [until|]] l a s ms d]; simpl in *.
  2: by destruct Hc as [[? ?]%(fun f => f (mk_is_Some _ _ eq_refl)) _].
  2: by destruct Hc as [_ [? ?]%(fun f => f (mk_is_Some _ _ eq_refl))].
  - run_call. destruct (s <? until) eqn:Hl; simpl.
    { run_call. apply ends_ret. split; [done|]. unfold set_flock. simpl. by rewrite delete_insert_id. }
    eapply ends_do.
    { simpl. unfold expire_update. simpl. rewrite bool_decide_eq_true_2 by done.
      rewrite (proj2 (Z.leb_le until s)) by lia. reflexivity. }
    run_call. by apply ends_ret.
  - by apply ends_ret.
Qed.
(** Undisturbed, [SharedPermit::acquire] admits its caller exactly when no
    other open file carries the exclusive lock and no lease is live: the lock
    is then held and a lease that had expired is cleared from the row.
    Otherwise it answers [Busy], holds nothing and changes nothing. *)
Theorem shared_permit_decides t (w : world) (Hc : gate_check (gate w)) (Hf : flock w !! t = None) :
  ends t calm 0 SharedPermit_acquire w (fun answer _ w' =>
    if held_by_other t is_exclusive w || lease_live w
    then answer = Err Busy /\ w' = w
    else answer = Ok tt /\ w' = set_gate open_gate (set_flock (<[t := Shared]> (flock w)) w)).
Proof. by apply shared_permit_spec. Qed.

(* ------------------------------------------------------------------ *)
(** ** Waiting for the exclusive lock *)

(** The other tasks cannot take the lock out of [t]'s file, turn the
    monotonic clock back, or write a token they did not draw themselves. *)
Record tame (t : Task) (token : string) (e : Interference Archive) : Prop := {
  tame_clock : forall n w, instant w <= instant (meanwhile e n w);
  tame_lock : forall n w, flock (meanwhile e n w) !! t = flock w !! t;
  tame_token : forall n w, exclusive_token (gate (meanwhile e n w)) = Some token ->
    exclusive_token (gate w) = Some token;
}.
Definition updates_work (e : Interference Archive) : Prop :=
  forall n update, refuses e n (UpdateGate update) = false.

(** What [ExclusivePermit::acquire] leaves, [J] being a fact about the row
    that the other tasks keep. *)
Definition acquired (t : Task) (token : string) (e : Interference Archive) (J : GateRow -> Prop)
    (r : res MaintenanceGateError string) (w : world) : Prop :=
  match r with
  | Ok token' => token' = token /\ flock w !! t = Some Exclusive /\ J (gate w)
  | Err _ => flock w !! t = None /\ (updates_work e -> exclusive_token (gate w) <> Some token)
  end.

Lemma clear_update_token token (row : GateRow) :
  exclusive_token (default row (clear_update token row)) <> Some token.
Proof. unfold clear_update. by case_bool_decide. Qed.

Section waiting.
Context (t : Task) (token : string) (e : Interference Archive) (He : tame t token e).
Context (J : GateRow -> Prop) (HJ : forall n w, J (gate w) -> J (gate (meanwhile e n w))).

Lemma ends_clear n (w : world) : flock w !! t = None ->
  ends t e n (clear_lease token) w (fun _ n' w' => n' = S n /\ flock w' !! t = None /\
    (updates_work e -> exclusive_token (gate w') <> Some token)).
Proof.
  intros Hl. rewrite <-(tame_lock _ _ _ He n w) in Hl. unfold clear_lease, execute_gate, call. simpl.
  destruct (refuses e n (UpdateGate (clear_update token))) eqn:Hr.
  - eapply ends_do; [simpl; rewrite Hr; reflexivity|]. apply ends_ret. split_and!; [done..|].
    intros Hu. by rewrite Hu in Hr.
  - pose proof (clear_update_token token (gate (meanwhile e n w))) as Hc.
    destruct (clear_update token (gate (meanwhile e n w))) eqn:E;
      (eapply ends_do; [simpl; rewrite Hr, E; reflexivity|]); apply ends_ret; by split_and!.
Qed.
(** Giving up: the lease is cleared and the file dropped. *)
Lemma ends_give_up {A} n (w : world) (r : A) (Q : A -> nat -> world -> Prop) : flock w !! t = None ->
  (forall w', flock w' !! t = None ->
     (updates_work e -> exclusive_token (gate w') <> Some token) -> Q r (S (S n)) w') ->
  ends t e n (clear_lease token &> drop_permit &> Ret r) w Q.
Proof.
  intros Hl HQ. apply ends_bind. eapply ends_mono; [by apply ends_clear|]. intros _ n' w' (-> & Hf & Hc).
  eapply ends_do; [reflexivity|]. apply ends_ret, HQ; cbn [flock set_flock gate due].
  - apply lookup_delete_eq.
  - intros Hu E%(tame_token _ _ _ He). by apply Hc.
Qed.

Lemma ends_wait started : forall k n w,
  flock w !! t = None -> J (gate w) -> started <= instant w ->
  EXCLUSIVE_WAIT_LIMIT - (instant w - started) <= EXCLUSIVE_RETRY * Z.of_nat k ->
  ends t e n (Loop (wait_turn token started) (fun r => Ret (res_bind r (fun _ => Ok token)))) w
    (fun r n' w' => (n' <= n + 4 * S k)%nat /\ acquired t token e J r w').
Proof.
  induction k as [|k IH]; intros n w Hl HJw Hs Hk; apply ends_loop, ends_bind; unfold wait_turn, call; cbn [bind];
    pose proof (tame_clock _ _ _ He n w) as Hi; pose proof (tame_lock _ _ _ He n w) as Hl1;
    apply HJ with (n := n) in HJw; rewrite Hl in Hl1; set (w1 := meanwhile e n w) in *;
    (destruct (refuses e n TryLockExclusive) eqn:Hr;
     [|destruct (held_by_other t (fun _ => true) w1) eqn:Hb]).
  1, 4: eapply ends_do; [simpl; unfold try_lock; rewrite Hr; reflexivity|];
    apply ends_give_up; [done|]; intros w2 ? Hw2; apply ends_ret; split; [lia|done].
  2, 4: eapply ends_do; [simpl; unfold try_lock; rewrite Hr; fold w1; rewrite Hb; reflexivity|];
    apply ends_ret; simpl; apply ends_ret; split; [lia|]; split_and!; [done| |done]; apply lookup_insert_eq.
  all: eapply ends_do; [simpl; unfold try_lock; rewrite Hr; fold w1; rewrite Hb; reflexivity|];
    eapply ends_do; [reflexivity|]; cbn beta;
    pose proof (tame_clock _ _ _ He (S n) w1) as Hi2; pose proof (tame_lock _ _ _ He (S n) w1) as Hl2;
    apply HJ with (n := S n) in HJw; rewrite Hl1 in Hl2; simpl;
    set (w2 := meanwhile e (S n) w1) in *;
    destruct (Z.leb_spec EXCLUSIVE_WAIT_LIMIT (instant w2 - started)).
  1, 3: apply ends_give_up; [done|]; intros w3 ? Hw3; apply ends_ret; split; [lia|done].
  - lia.
  - eapply ends_do; [reflexivity|]. eapply ends_do; [reflexivity|]. apply ends_ret. cbn beta iota.
    set (w3 := meanwhile e (S (S n)) w2). set (w4 := meanwhile e (S (S (S n))) w3). simpl.
    fold w3 w4. pose proof (tame_clock _ _ _ He (S (S n)) w2) as Hi3.
    pose proof (tame_clock _ _ _ He (S (S (S n))) w3) as Hi4. fold w3 w4 in Hi3, Hi4.
    eapply ends_mono; [apply IH|]; cbn [flock gate instant set_clocks].
    + unfold w4, w3. by rewrite !(tame_lock _ _ _ He).
    + by apply HJ, HJ.
    + lia.
    + lia.
    + intros r n' w' [Hn Ha]. split; [lia|done].
Qed.

(** Claiming: the row is the task's own exactly when the claim succeeds. *)
Lemma ends_claim n (w : world) : flock w !! t = None -> exclusive_token (gate w) <> Some token ->
  ends t e n (claim_lease token) w (fun r n' w' => n' = (3 + n)%nat /\ flock w' !! t = None /\
    match r with
    | Ok _ => gate w' = mkGateRow (Some token) (Some (wall (meanwhile e (S n) (meanwhile e n w)) + LEASE_DURATION))
    | Err _ => exclusive_token (gate w') <> Some token
    end).
Proof.
  intros Hl Hw. unfold claim_lease, lease_until, unix_timestamp, execute_gate, call. simpl.
  eapply ends_do; [reflexivity|]. eapply ends_do; [reflexivity|]. simpl.
  set (w1 := meanwhile e n w). set (w2 := meanwhile e (S n) w1).
  set (w3 := meanwhile e (S (S n)) w2).
  set (claim := claim_update token (wall w2 + LEASE_DURATION) (wall w1)).
  assert (flock w3 !! t = None) as Hl3 by (unfold w3, w2, w1; by rewrite !(tame_lock _ _ _ He)).
  assert (exclusive_token (gate w3) <> Some token) as Hw3.
  { intros E. by apply (tame_token _ _ _ He), (tame_token _ _ _ He), (tame_token _ _ _ He) in E. }
  destruct (refuses e (S (S n)) (UpdateGate claim)) eqn:Hr.
  { eapply ends_do; [simpl; rewrite Hr; reflexivity|]. apply ends_ret. by split_and!. }
  destruct (claim (gate w3)) as [row|] eqn:E;
    (eapply ends_do; [simpl; rewrite Hr; fold w3; rewrite E; reflexivity|]); apply ends_ret; split_and!; try done.
  simpl. unfold claim, claim_update in E. destruct (_ || _); by simplify_eq.
Qed.
End waiting.

Lemma acquire_spec t e (w : world) (J : GateRow -> Prop) :
  let token := now_v7 (drawn_tokens (meanwhile e 0 w)) in
  let w1 := draw_token (meanwhile e 0 w) in
  tame t token e -> (forall n w, J (gate w) -> J (gate (meanwhile e n w))) ->
  flock w !! t = None -> exclusive_token (gate w) <> Some token ->
  J (mkGateRow (Some token) (Some (wall (meanwhile e 2 (meanwhile e 1 w1)) + LEASE_DURATION))) ->
  ends t e 0 ExclusivePermit_acquire w (fun r n w' => Z.of_nat n <= 36010 /\ acquired t token e J r w').
Proof.
  intros token w1 He HJ Hl Hw Hrow.
  unfold ExclusivePermit_acquire. apply ends_bind. eapply ends_do; [reflexivity|]. apply ends_ret.
  change (draw_token (due NowV7 (meanwhile e 0 w))) with w1. cbn beta.
  change (now_v7 (drawn_tokens (due NowV7 (meanwhile e 0 w)))) with token.
  assert (flock w1 !! t = None) as Hl1 by (unfold w1; simpl; by rewrite (tame_lock _ _ _ He)).
  assert (exclusive_token (gate w1) <> Some token) as Hw1 by (intros E; by apply (tame_token _ _ _ He) in E).
  apply ends_bind.
  eapply ends_mono; [by apply (ends_claim t token e He)|].
  intros [[]|x] n w2 (-> & Hl2 & Hw2).
  2: { apply ends_ret. split; [lia|]. by split. }
  change (3 + 1)%nat with 4%nat. cbn iota. apply ends_bind. eapply ends_do; [reflexivity|].
  apply ends_ret. set (w3 := due OpenLockFile (meanwhile e 4 w2)).
  assert (flock w3 !! t = None) as Hl3 by (unfold w3; simpl; by rewrite (tame_lock _ _ _ He)).
  destruct (refuses e 4 OpenLockFile); cbn iota.
  - apply ends_bind. eapply ends_mono; [by apply (ends_clear t token e He)|].
    intros _ n w4 (-> & Hl4 & Hw4). apply ends_ret. split; [lia|]. by split.
  - apply ends_bind. eapply ends_do; [reflexivity|]. apply ends_ret.
    eapply ends_mono; [apply (ends_wait t token e He J HJ _ (Z.to_nat 9000))|].
    + simpl. by rewrite (tame_lock _ _ _ He).
    + simpl. rewrite <-Hw2 in Hrow. by apply HJ, HJ.
    + lia.
    + unfold EXCLUSIVE_WAIT_LIMIT, EXCLUSIVE_RETRY. lia.
    + intros r n w4 [Hn Ha]. split; [lia|done].
Qed.

(** C36: Whatever the other tasks and the system do meanwhile (the monotonic
    clock not going back, and no other task writing the token that was drawn
    or taking the lock out of this one's file), [ExclusivePermit::acquire]
    returns, after at most 36,010 calls: it claims the lease first, and then its
    loop polls for the lock at most 9,001 times, 100 milliseconds apart, within
    its 15 minutes.  It either holds the exclusive lock under the token it drew,
    or holds no lock; and then its lease is no longer in the row if the database
    refused no update: the code ignores the answer of the statement that clears
    it, so a refusal leaves the lease there until it expires. *)
Theorem exclusive_acquire_ends t e (w : world) :
  let token := now_v7 (drawn_tokens (meanwhile e 0 w)) in
  forall (He : tame t token e) (Hl : flock w !! t = None) (Hw : exclusive_token (gate w) <> Some token),
  ends t e 0 ExclusivePermit_acquire w (fun r n w' =>
    Z.of_nat n <= 36010 /\ acquired t token e (fun _ => True) r w').
Proof.
  intros token He Hl Hw. by apply acquire_spec.
Qed.

(** C37: A backup that dies delays the archive by a bounded time.  When
    [ExclusivePermit::acquire] has claimed the lease, the row names its token
    with a deadline six hours after the claim; once its process is gone, and
    with it the lock, a request is turned away before that deadline and
    admitted, under the shared lock, from then on. *)
Theorem dead_backup_delays_six_hours t (w : world) fuel token n w1
    (Hx : exec t calm fuel 0 ExclusivePermit_acquire w = Some (Ok token, n, w1))
    (Hl : flock w !! t = None) (Hw : exclusive_token (gate w) <> Some (now_v7 (drawn_tokens w)))
    (w2 : world) (Hg : gate w2 = gate w1) (Hdead : flock w2 = ∅) (t' : Task) :
  ends t' calm 0 SharedPermit_acquire w2 (fun answer _ w' =>
    if wall w2 <? wall w + LEASE_DURATION then answer = Err Busy
    else answer = Ok tt /\ flock w' = {[ t' := Shared ]}).
Proof.
  assert (gate w1 = mkGateRow (Some token) (Some (wall w + LEASE_DURATION))) as Hrow.
  { pose proof (acquire_spec t calm w (eq (mkGateRow (Some (now_v7 (drawn_tokens w))) (Some (wall w + LEASE_DURATION)))))
      as Ha.
    assert (tame t (now_v7 (drawn_tokens (meanwhile calm 0 w))) calm) as Ht by done.
    specialize (Ha Ht ltac:(done) Hl Hw eq_refl).
    apply (ends_exec _ _ _ _ _ _ _ _ _ _ Ha) in Hx as (_ & -> & _ & <-). done. }
  eapply ends_mono; [apply shared_permit_spec|].
  - by rewrite Hg, Hrow.
  - by rewrite Hdead, lookup_empty.
  - intros answer m w'. replace (held_by_other t' is_exclusive w2) with false.
    2: { symmetry. apply held_by_other_false. intros u mode Hu. by rewrite Hdead, lookup_empty in Hu. }
    unfold lease_live. rewrite Hg, Hrow. simpl. destruct (_ <? _); [by intros []|].
    intros [-> ->]. split; [done|]. simpl. by rewrite Hdead.
Qed.
End permits.

(* ------------------------------------------------------------------ *)
(** ** A server, its archive a number *)

Section example.
#[local] Existing Instance counter_uuids.

Definition idle : World nat := mkWorld nat open_gate ∅ 7%nat 100 0 0.
Definition backup_task : Prog nat unit := backup_create (call ReadArchive &> Ret (Ok tt)) &> Ret tt.
(** A handler that changes the archive. *)
Definition request_task : Prog nat unit := gate_api_requests (call (WriteArchive S) &> Ret (Ok tt)) &> Ret tt.
Definition backup_token : string := now_v7 0%nat.
Definition during_backup : World nat :=
  mkWorld nat (mkGateRow (Some backup_token) (Some 21700)) {[ 0%nat := Exclusive ]} 7%nat 100 0 1%nat.

Example backup_acquires :
  exec 0%nat calm 40 0 ExclusivePermit_acquire idle = Some (Ok backup_token, 7%nat, during_backup).
Proof. vm_compute. reflexivity. Qed.
Example request_is_turned_away :
  exec 1%nat calm 40 0 request_task during_backup
  = Some (tt, 3%nat, during_backup).
Proof. vm_compute. reflexivity. Qed.
(** After six hours and the death of the backup, the same request gets in. *)
Example request_after_death :
  exec 1%nat calm 40 0 (gate_api_requests (call (WriteArchive S) &> Ret (Ok tt)))
    (set_clocks 21700 0 (set_flock ∅ during_backup))
  = Some (Ok tt, 8%nat, mkWorld nat open_gate ∅ 8%nat 21700 0 1%nat).
Proof. vm_compute. reflexivity. Qed.

Lemma backup_reads_one_archive_witness :
  exists m m' : Machine nat, tasks m' !! 1%nat = Some request_task /\ archive (world_of m) = 7%nat /\
    archive (world_of m') = archive (world_of m) /\
    forall t, t <> 0%nat -> flock (world_of m') !! t = None.
Proof.
  assert (Hw : archive_work (call (WriteArchive S) &> Ret (@Ok ApiError unit tt)))
    by (repeat (constructor; try intros _)).
  assert (Hb : archive_reader (call (Archive := nat) ReadArchive &> Ret (@Ok BackupError unit tt)))
    by (constructor; intros; constructor).
  pose proof (exec_steps 0%nat calm _ _ _ _ _ _ _ ∅
    (fun permit : res MaintenanceGateError string =>
       bind match permit with
            | Err e => Ret (Err (map_gate_error e))
            | Ok token =>
                let! result := call ReadArchive &> Ret (Ok tt) in
                let! released := release token in
                Ret (match result, res_map_err map_gate_error released with
                     | Ok result, Ok _ => Ok result
                     | Err e, _ => Err e
                     | Ok _, Err e => Err e
                     end)
            end (fun _ => Ret tt)) ltac:(done) backup_acquires) as Hs.
  rewrite <-bind_assoc in Hs.
  eexists _, (mkMachine during_backup (<[1%nat := request_task]> _)). split; [apply lookup_insert_eq|].
  split; [|refine (backup_reads_one_archive _ _ 0%nat _ _ _)].
  2: { exists (mkMachine idle ∅). split; [by split|]. eapply rtc_l; [|exact Hs].
       apply step_spawn; [done|]. by apply (serve_backup (call ReadArchive &> Ret (Ok tt))). }
  - reflexivity.
  - reflexivity.
  - apply rtc_once. split; [|reflexivity]. apply step_spawn; [reflexivity|].
    by apply (serve_request (call (WriteArchive S) &> Ret (Ok tt))).
Defined.
Lemma shared_permit_decides_witness :
  gate_check (gate during_backup) /\ flock during_backup !! 1%nat = None /\
  ends 1%nat calm 0 SharedPermit_acquire during_backup (fun answer _ w' =>
    if held_by_other 1%nat is_exclusive during_backup || lease_live during_backup
    then answer = Err Busy /\ w' = during_backup
    else answer = Ok tt /\ w' = set_gate open_gate (set_flock (<[1%nat := Shared]> (flock during_backup)) during_backup)).
Proof.
  assert (gate_check (gate during_backup)) by (split; by eexists).
  split; [done|]. split; [reflexivity|]. by apply (shared_permit_decides 1%nat during_backup).
Defined.
Lemma exclusive_acquire_ends_witness :
  ends 1%nat calm 0 ExclusivePermit_acquire during_backup (fun r n w' =>
    Z.of_nat n <= 36010 /\ acquired 1%nat (now_v7 1%nat) calm (fun _ => True) r w').
Proof.
  apply (exclusive_acquire_ends 1%nat calm during_backup); [done|reflexivity|].
  intros E. vm_compute in E. discriminate.
Defined.
Lemma dead_backup_delays_six_hours_witness :
  ends 1%nat calm 0 SharedPermit_acquire (set_flock ∅ during_backup) (fun answer _ w' =>
    if wall (set_flock ∅ during_backup) <? wall idle + LEASE_DURATION then answer = Err Busy
    else answer = Ok tt /\ flock w' = {[ 1%nat := Shared ]}).
Proof.
  by apply (dead_backup_delays_six_hours 0%nat idle 40 backup_token 7 during_backup backup_acquires).
Defined.
End example.
