(* ===== verification/Backup.v ===== *)
(** Backup, verification and restore of an archive ([backup.rs]).

    The store is the host: [db] is the live database of the source archive and
    [files] the whole file system, with absolute canonical paths. The database
    of a backup or of a staged copy is a file, whose bytes hold the tables
    (SqliteFiles). While a backup reads, the maintenance lock keeps everyone
    else out (Maintenance). *)
From stdpp Require Import prelude strings gmap sorting list.
From Stdlib Require Import ZArith Ascii Lia.
From Stdlib.Strings Require Import Byte.
From S2P Require Import Prelude Errors Contract Externals Validation Chunks Fingerprint Pagination.
From S2P Require Import Config Tables Store Storage Uploads Completion Deletion Recovery Download Integrity Bootstrap Disk.

Definition BACKUP_FORMAT_VERSION : Z := 1.
Definition MANIFEST_FILE_NAME : string := "manifest.json".
Definition DATABASE_FILE_NAME : string := "patwari.db".
Definition MAX_MANIFEST_BYTES : Z := 64 * 1024 * 1024.
(** [env!("CARGO_PKG_VERSION")] *)
Definition CARGO_PKG_VERSION : string := "0.1.0".

Abbreviation BackupError := BackupError.t.
Abbreviation MaintenanceGateError := MaintenanceGateError.t.

(* ------------------------------------------------------------------ *)
(** ** Documents *)

Record BackupCreateResult : Type := mkCreateResult {
  cr_backup_format_version : Z;
  cr_archive_instance_id : string;
  cr_owner_namespace : string;
  cr_created_at : string;
  cr_blob_count : Z;
}.
Record BackupVerification : Type := mkVerification {
  bv_backup_format_version : Z;
  bv_archive_instance_id : string;
  bv_owner_namespace : string;
  bv_blob_count : Z;
  bv_integrity : IntegrityReport;
}.
Record BackupRestoreResult : Type := mkRestoreResult {
  br_archive_instance_id : string;
  br_owner_namespace : string;
  br_blob_count : Z;
  br_integrity : IntegrityReport;
}.
Record BackupFile : Type := mkBackupFile {
  bf_filename : string;
  bf_sha256 : string;
  bf_size_bytes : Z;
}.
Record BlobInventoryEntry : Type := mkBlobEntry {
  be_filename : string;
  be_sha256 : string;
  be_size_bytes : Z;
}.
Record LatestIntegrityHealth : Type := mkHealth {
  lh_run_id : string;
  lh_status : string;
  lh_started_at : string;
  lh_completed_at : string;
  lh_finding_count : Z;
  lh_info_count : Z;
  lh_warning_count : Z;
  lh_error_count : Z;
}.
Record BackupManifest : Type := mkBackupManifest {
  bm_backup_format_version : Z;
  bm_created_at : string;
  bm_archive_instance_id : string;
  bm_owner_namespace : string;
  bm_archive_created_at : string;
  bm_application_version : string;
  bm_schema_version : Z;
  bm_sqlite : BackupFile;
  bm_blobs : list BlobInventoryEntry;
  bm_latest_integrity_health : option LatestIntegrityHealth;
}.

(** The fields are machine integers. *)
Definition entry_typed (e : BlobInventoryEntry) : Prop := is_u64 (be_size_bytes e).
Definition health_typed (h : LatestIntegrityHealth) : Prop :=
  is_u64 (lh_finding_count h) /\ is_u64 (lh_info_count h) /\ is_u64 (lh_warning_count h) /\ is_u64 (lh_error_count h).
Definition manifest_typed (m : BackupManifest) : Prop :=
  0 <= bm_backup_format_version m < 2 ^ 16 /\ i64_min <= bm_schema_version m <= i64_max
  /\ is_u64 (bf_size_bytes (bm_sqlite m)) /\ Forall entry_typed (bm_blobs m)
  /\ (forall h, bm_latest_integrity_health m = Some h -> health_typed h).

(* ------------------------------------------------------------------ *)
(** ** What the model does not define *)

(** A database file: bytes that hold the tables, as SQLite writes them at some
    moment, and the version of the newest migration of the source. *)
Class SqliteFiles := {
  image : nat -> Db -> bytes;
  load : bytes -> option Db;
  latest_migration : option Z;
}.
(** [serde_json] on the manifest; white space after the document is ignored. *)
Class BackupJson := {
  to_vec_pretty : BackupManifest -> bytes;
  from_slice : bytes -> option BackupManifest;
}.
Class BackupJsonLaws (B : BackupJson) := {
  from_slice_to_vec : forall m, manifest_typed m -> from_slice (to_vec_pretty m ++ [x0a]) = Some m;
}.
(** What the exclusive permit answers at an operation (Maintenance). *)
Class Gate := { gate_refuses : nat -> option MaintenanceGateError }.

(* ------------------------------------------------------------------ *)
(** ** Names *)

Definition validate_raw_digest (value : string) : option string :=
  if (str_len value =? 64) && forallb is_lower_hex (chars value) then Some value else None.
Definition digest_value (value : string) : option string :=
  value ← strip_prefix "sha256:" value; validate_raw_digest value.
Definition digest_document (raw_digest : string) : string := "sha256:" +:+ raw_digest.
Definition blob_relative_filename (raw_digest : string) : string :=
  "blobs/sha256/" +:+ of_chars (take 2 (chars raw_digest)) +:+ "/" +:+ raw_digest.
(** [root.join(filename)] of a relative name. *)
Definition join (root : path) (filename : string) : path := root ++ (of_chars <$> split_on "/" (chars filename)).

(** [parent_or_current] of an absolute path. *)
Definition parent_or_current (p : path) : option path := match p with [] => None | _ => Some (parent p) end.

(* ------------------------------------------------------------------ *)
(** ** Files *)

Section Operations.
Context `{Env} `{UuidLib} `{TimeLib} `{MimeLib} `{ShaLib} `{ZstdLib} `{JsonLib} `{FileStamps} `{SqliteChecks} `{SocketAddrs}.
Context `{Host} `{SqliteFiles} `{BackupJson} `{Gate}.
Abbreviation B := (M BackupError).

(** A call that may fail and changes nothing the model knows. *)
Definition host_call (err : BackupError) : B unit := operation (fun _ => err) (ret tt).
Definition sync_directory (p : path) : B unit := sync BackupError.Storage.

Record FileDigest : Type := mkFileDigest { size_bytes : Z; digest : string }.
Definition hash_regular_file (p : path) : B FileDigest :=
  let! regular := is_regular_file p in
  refuse negb regular with BackupError.Storage;
  let! r := read_file BackupError.Storage p in
  let '(reads, whole) := r in
  refuse negb whole with BackupError.Storage;
  let! size := lift (ok_or (checked_add_u64 0 (byte_len (concat reads))) BackupError.Storage) in
  ret (mkFileDigest size (sha256_hex (concat reads))).

(** [io::copy] writes what it reads until a read fails. *)
Definition copy_regular_file (source destination : path) : B unit :=
  let! regular := is_regular_file source in
  refuse negb regular with BackupError.Storage;
  make_dir_all BackupError.Storage (parent destination) &;
  let! r := read_file BackupError.Storage source in
  create_new BackupError.Storage destination &;
  write_all BackupError.Storage destination (concat r.1) &;
  refuse negb r.2 with BackupError.Storage;
  sync BackupError.Storage.

(** The metadata of both names is read; they are names of one file, so device
    and inode are the same. *)
Definition verify_hard_link (source destination : path) : B unit :=
  host_call BackupError.Storage &;
  host_call BackupError.Storage.
Definition copy_blob (source destination : path) (expected_size : Z) (expected_digest : string) : B unit :=
  let! regular := is_regular_file source in
  refuse negb regular with BackupError.Storage;
  make_dir_all BackupError.Storage (parent destination) &;
  (let! linked := hard_link source destination in
   match linked with
   | Linked => verify_hard_link source destination
   | _ => copy_regular_file source destination
   end) &;
  let! measured := hash_regular_file destination in
  refuse negb (size_bytes measured =? expected_size) || negb (eqs (digest measured) expected_digest) with BackupError.Storage;
  sync_directory (parent destination).

Definition write_manifest (p : path) (manifest : BackupManifest) : B unit :=
  let bytes := to_vec_pretty manifest in
  create_new BackupError.Storage p &;
  write_all BackupError.Storage p bytes &;
  write_all BackupError.Storage p [x0a] &;
  sync BackupError.Storage.

(* ------------------------------------------------------------------ *)
(** ** Staging *)

Definition staging_name (purpose uuid : string) : string := ".patwari-" +:+ purpose +:+ "-" +:+ uuid.
Fixpoint staging_attempts (n : nat) (parent : path) (purpose : string) : B path :=
  match n with
  | O => throw BackupError.Storage
  | S n =>
      let! uuid := new_uuid in
      let p := parent ++ [staging_name purpose uuid] in
      let! made := make_dir p in
      match made with
      | Made => ret p
      | AlreadyThere => staging_attempts n parent purpose
      | MakeDirFailed => throw BackupError.Storage
      end
  end.
(** [StagingDirectory::create] *)
Definition staging_create (parent : path) (purpose : string) : B path :=
  make_dir_all BackupError.Storage parent &;
  staging_attempts 8 parent purpose.
(** [StagingDirectory::finalize] *)
Definition staging_finalize (staging destination : path) : B unit :=
  let! there := path_exists destination in
  refuse there with BackupError.InvalidOutput;
  sync_directory staging &;
  rename_dir BackupError.Storage staging destination &;
  let! parent := lift (ok_or (parent_or_current destination) BackupError.InvalidOutput) in
  sync_directory parent.
(** The life of a staging directory: it is dropped, and removed with what it
    holds as far as that works, unless [body] finalized it. *)
Definition with_staging {A} (parent : path) (purpose : string) (finalized : bool) (body : path -> B A) : B A :=
  let! staging := staging_create parent purpose in
  let! result := attempt (body staging) in
  match result with
  | Ok a => if finalized then ret a else attempt (remove_dir_all tt staging) &; ret a
  | Err e => attempt (remove_dir_all tt staging) &; throw e
  end.

(* ------------------------------------------------------------------ *)
(** ** The destination *)

Definition validate_new_output (output : path) : B unit :=
  let! there := path_exists output in
  refuse bool_decide (file_name output = None) || there with BackupError.InvalidOutput;
  let! parent := lift (ok_or (parent_or_current output) BackupError.InvalidOutput) in
  make_dir_all BackupError.Storage parent &;
  let! directory := is_directory parent in
  refuse negb directory with BackupError.InvalidOutput;
  ret tt.
Definition output_is_within_data_dir (output data_dir : path) : B bool :=
  let! root := canonicalize BackupError.Source data_dir in
  let! parent := lift (ok_or (parent_or_current output) BackupError.InvalidOutput) in
  let! parent := canonicalize BackupError.Storage parent in
  let! filename := lift (ok_or (file_name output) BackupError.InvalidOutput) in
  ret (below root (parent ++ [filename])).
Definition source_paths (data_dir : path) : B (path * path) :=
  let database := data_dir ++ [DATABASE_FILE_NAME] in
  let blob_root := data_dir ++ ["blobs"%string] in
  let! file := is_regular_file database in
  let! blobs := if (file : bool) then is_directory blob_root else ret false in
  let! maintenance := if (blobs : bool) then is_directory (data_dir ++ ["maintenance"%string]) else ret false in
  refuse negb maintenance with BackupError.Source;
  ret (database, blob_root).

(* ------------------------------------------------------------------ *)
(** ** [create] *)

Definition metadata_unread (e : SqlxError) : BackupError := BackupError.Metadata.

Definition health_row (r : IntegrityRun.row) : option LatestIntegrityHealth :=
  completed_at ← IntegrityRun.completed_at r;
  finding_count ← i64_to_u64 (IntegrityRun.finding_count r);
  info_count ← i64_to_u64 (IntegrityRun.info_count r);
  warning_count ← i64_to_u64 (IntegrityRun.warning_count r);
  error_count ← i64_to_u64 (IntegrityRun.error_count r);
  Some (mkHealth (IntegrityRun.id r) (IntegrityRun.status r) (IntegrityRun.started_at r) completed_at
          finding_count info_count warning_count error_count).
(** [WHERE completed_at IS NOT NULL ORDER BY completed_at_seq DESC, id DESC LIMIT 1] *)
Definition latest_run (d : Db) : option IntegrityRun.row :=
  head (merge_sort run_ge (select (fun r => bool_decide (is_Some (IntegrityRun.completed_at r))) (integrity_runs d))).
Definition load_latest_integrity_health : B (option LatestIntegrityHealth) :=
  let! row := query metadata_unread latest_run in
  match row with
  | None => ret None
  | Some row => let! health := lift (ok_or (health_row row) BackupError.Metadata) in ret (Some health)
  end.

(** SQLite writes the file: a failure may leave part of it. *)
Definition write_database (err : BackupError) (destination : path) : B unit := fun '(s, n) =>
  let content := image n (db s) in
  match fails n with
  | Some _ => (Err err, (set_files <[destination := Regular (take (read_before n) content)]> s, S n))
  | None => (Ok tt, (set_files <[destination := Regular content]> s, S n))
  end.
(** [online_sqlite_backup_blocking]: the copy, the lease cleared in it (no table
    of the model), and its log written back. *)
Definition online_sqlite_backup (destination : path) : B unit :=
  host_call BackupError.Source &;
  host_call BackupError.Storage &;
  host_call BackupError.Source &;
  write_database BackupError.Source destination &;
  write_database BackupError.Storage destination &;
  write_database BackupError.Storage destination.

(** [ORDER BY stored_sha256 ASC] *)
Definition blob_row_le (x y : Blob.row) : Prop := String.le (Blob.stored_sha256 x) (Blob.stored_sha256 y).
#[local] Instance blob_row_le_dec : RelDecision blob_row_le.
Proof. intros x y. unfold blob_row_le. apply _. Defined.
Definition backup_blob_rows (d : Db) : list Blob.row := merge_sort blob_row_le (blobs d).

Fixpoint copy_blobs (blob_root staging : path) (rows : list Blob.row) : B (list BlobInventoryEntry) :=
  match rows with
  | [] => ret []
  | row :: rows =>
      let! raw_digest := lift (ok_or (validate_raw_digest (Blob.stored_sha256 row)) BackupError.Metadata) in
      let! size := lift (ok_or (i64_to_u64 (Blob.stored_size_bytes row)) BackupError.Metadata) in
      let filename := blob_relative_filename raw_digest in
      let source := blob_root ++ ["sha256"%string; of_chars (take 2 (chars raw_digest)); raw_digest] in
      copy_blob source (join staging filename) size raw_digest &;
      let! blobs := copy_blobs blob_root staging rows in
      ret (mkBlobEntry filename (digest_document raw_digest) size :: blobs)
  end.

Definition active_uploads (d : Db) : Z :=
  Z.of_nat (length (select (fun u => eqs (Upload.status u) "created" || eqs (Upload.status u) "artifact_uploaded") (uploads d))).
(** [created_at] of the result and the manifest. *)
Definition create_staged (blob_root : path) (output : path) (archive : ArchiveMetadata.row) (schema_version : Z)
    (rows : list Blob.row) (health : option LatestIntegrityHealth) (staging : path) : B BackupManifest :=
  make_dir_all BackupError.Storage (staging ++ ["blobs"; "sha256"]%string) &;
  let sqlite_destination := staging ++ [DATABASE_FILE_NAME] in
  online_sqlite_backup sqlite_destination &;
  let! sqlite_digest := hash_regular_file sqlite_destination in
  let! blobs := copy_blobs blob_root staging rows in
  let! t := now in
  let! created_at := lift (ok_or (format_rfc3339 t) BackupError.Metadata) in
  let manifest := mkBackupManifest BACKUP_FORMAT_VERSION created_at (ArchiveMetadata.archive_instance_id archive)
    (ArchiveMetadata.owner_namespace archive) (ArchiveMetadata.created_at archive) CARGO_PKG_VERSION schema_version
    (mkBackupFile DATABASE_FILE_NAME (digest_document (digest sqlite_digest)) (size_bytes sqlite_digest)) blobs health in
  write_manifest (staging ++ [MANIFEST_FILE_NAME]) manifest &;
  staging_finalize staging output &;
  ret manifest.
Definition create_locked (blob_root output : path) : B BackupCreateResult :=
  let! active := query metadata_unread active_uploads in
  refuse negb (active =? 0) with BackupError.ActiveUploads;
  let! archive := fetch_one metadata_unread (fun d => head (archive_metadata d)) in
  let! schema_version := query metadata_unread (fun _ => latest_migration) in
  let! schema_version := lift (ok_or schema_version BackupError.Metadata) in
  let! rows := query metadata_unread backup_blob_rows in
  let! health := load_latest_integrity_health in
  host_call BackupError.Metadata &;   (* PRAGMA wal_checkpoint(PASSIVE) *)
  let! output_parent := lift (ok_or (parent_or_current output) BackupError.InvalidOutput) in
  let! manifest := with_staging output_parent "backup" true
    (create_staged blob_root output archive schema_version rows health) in
  ret (mkCreateResult BACKUP_FORMAT_VERSION (bm_archive_instance_id manifest) (bm_owner_namespace manifest)
         (bm_created_at manifest) (Z.of_nat (length (bm_blobs manifest)))).

(** The exclusive permit is acquired or released, or it is not (Maintenance). *)
Definition gate : B unit := fun '(s, n) =>
  (match gate_refuses n with Some e => Err (map_gate_error e) | None => Ok tt end, (s, S n)).
Definition create (data_dir output : path) : B BackupCreateResult :=
  validate_new_output output &;
  let! within := output_is_within_data_dir output data_dir in
  refuse within with BackupError.InvalidOutput;
  let! paths := source_paths data_dir in
  host_call BackupError.Source &;   (* [connect_source_database] *)
  gate &;
  let! result := attempt (create_locked paths.2 output) in
  let! released := attempt gate in
  lift (match result, released with
        | Ok result, Ok _ => Ok result
        | Err e, _ => Err e
        | Ok _, Err e => Err e
        end).

(* ------------------------------------------------------------------ *)
(** ** [validate_backup] *)

(** The digests of entries whose names are theirs. *)
Definition entry_digest (entry : BlobInventoryEntry) : res BackupError string :=
  let? digest := ok_or (digest_value (be_sha256 entry)) BackupError.Manifest in
  reject negb (eqs (be_filename entry) (blob_relative_filename digest)) with BackupError.Manifest;
  Ok digest.
Fixpoint ascending_entries (prior : option string) (entries : list BlobInventoryEntry) : res BackupError unit :=
  match entries with
  | [] => Ok tt
  | entry :: entries =>
      let? digest := ok_or (digest_value (be_sha256 entry)) BackupError.Manifest in
      reject negb (eqs (be_filename entry) (blob_relative_filename digest))
             || match prior with Some previous => bool_decide (String.le digest previous) | None => false end
        with BackupError.Manifest;
      ascending_entries (Some digest) entries
  end.
Definition validate_manifest_shape (m : BackupManifest) : res BackupError unit :=
  reject negb (bm_backup_format_version m =? BACKUP_FORMAT_VERSION)
         || bool_decide (parse_str (bm_archive_instance_id m) = None)
         || eqs (bm_owner_namespace m) "" || eqs (bm_archive_created_at m) "" || eqs (bm_created_at m) ""
         || eqs (bm_application_version m) "" || (bm_schema_version m <=? 0)
         || negb (eqs (bf_filename (bm_sqlite m)) DATABASE_FILE_NAME)
         || bool_decide (digest_value (bf_sha256 (bm_sqlite m)) = None)
    with BackupError.Manifest;
  ascending_entries None (bm_blobs m).
(** [collect::<Result<BTreeSet<_>, _>>()] *)
Fixpoint expected_digests (entries : list BlobInventoryEntry) : res BackupError (gset string) :=
  match entries with
  | [] => Ok ∅
  | entry :: entries =>
      let? digest := entry_digest entry in
      let? digests := expected_digests entries in
      Ok ({[digest]} ∪ digests)
  end.

Definition validate_backup_root_entries (backup : path) : B unit :=
  let! actual := read_names BackupError.Manifest backup in
  refuse negb (bool_decide (actual = {[MANIFEST_FILE_NAME; DATABASE_FILE_NAME; "blobs"%string]})) with BackupError.Manifest;
  ret tt.
Definition is_shard_name (name : string) : bool := (str_len name =? 2) && forallb is_lower_hex (chars name).
Fixpoint inventory_shard (shard : path) (name : string) (blobs : list string) (inventory : gset string) : B (gset string) :=
  match blobs with
  | [] => next_entry BackupError.Manifest &; ret inventory
  | digest :: blobs =>
      next_entry BackupError.Manifest &;
      refuse bool_decide (validate_raw_digest digest = None) || bool_decide (strip_prefix name digest = None)
        with BackupError.Manifest;
      let! regular := is_regular_file (shard ++ [digest]) in
      refuse negb regular || bool_decide (digest ∈ inventory) with BackupError.Manifest;
      inventory_shard shard name blobs ({[digest]} ∪ inventory)
  end.
Fixpoint inventory_shards (sha256_root : path) (shards : list string) (inventory : gset string) : B (gset string) :=
  match shards with
  | [] => next_entry BackupError.Manifest &; ret inventory
  | name :: shards =>
      next_entry BackupError.Manifest &;
      refuse negb (is_shard_name name) with BackupError.Manifest;
      let! directory := is_directory (sha256_root ++ [name]) in
      refuse negb directory with BackupError.Manifest;
      let! blobs := read_dir BackupError.Manifest (sha256_root ++ [name]) in
      let! inventory := inventory_shard (sha256_root ++ [name]) name blobs inventory in
      inventory_shards sha256_root shards inventory
  end.
Definition backup_blob_inventory (backup : path) : B (gset string) :=
  let! directory := is_directory (backup ++ ["blobs"%string]) in
  refuse negb directory with BackupError.Manifest;
  let! entries := read_names BackupError.Manifest (backup ++ ["blobs"%string]) in
  refuse negb (bool_decide (entries = {["sha256"%string]})) with BackupError.Manifest;
  let sha256_root := backup ++ ["blobs"; "sha256"]%string in
  let! directory := is_directory sha256_root in
  refuse negb directory with BackupError.Manifest;
  let! shards := read_dir BackupError.Manifest sha256_root in
  inventory_shards sha256_root shards ∅.

Definition invalid {A} (m : B A) : B A := map_err (fun _ => BackupError.Manifest) m.
Definition validate_entry (backup : path) (entry : BlobInventoryEntry) : B unit :=
  let! expected := lift (ok_or (digest_value (be_sha256 entry)) BackupError.Manifest) in
  let! measured := invalid (hash_regular_file (join backup (be_filename entry))) in
  refuse negb (size_bytes measured =? be_size_bytes entry) || negb (eqs (digest measured) expected) with BackupError.Manifest;
  ret tt.
Definition read_manifest (backup : path) : B BackupManifest :=
  let! directory := is_directory backup in
  refuse negb directory with BackupError.Manifest;
  let manifest_path := backup ++ [MANIFEST_FILE_NAME] in
  let! len := metadata_len BackupError.Manifest manifest_path in
  let! regular := if MAX_MANIFEST_BYTES <? len then ret false else is_regular_file manifest_path in
  refuse negb regular with BackupError.Manifest;
  let! r := read_file BackupError.Manifest manifest_path in
  refuse negb r.2 with BackupError.Manifest;
  lift (ok_or (from_slice (concat r.1)) BackupError.Manifest).
Definition validate_backup (backup : path) : B BackupManifest :=
  let! manifest := read_manifest backup in
  let! _ := lift (validate_manifest_shape manifest) in
  validate_backup_root_entries backup &;
  let! measured := invalid (hash_regular_file (backup ++ [DATABASE_FILE_NAME])) in
  refuse negb (size_bytes measured =? bf_size_bytes (bm_sqlite manifest)) with BackupError.Manifest;
  let! expected := lift (ok_or (digest_value (bf_sha256 (bm_sqlite manifest))) BackupError.Manifest) in
  refuse negb (eqs (digest measured) expected) with BackupError.Manifest;
  let! expected := lift (expected_digests (bm_blobs manifest)) in
  refuse negb (Nat.eqb (size expected) (length (bm_blobs manifest))) with BackupError.Manifest;
  let! actual := backup_blob_inventory backup in
  refuse negb (bool_decide (actual = expected)) with BackupError.Manifest;
  for_each (bm_blobs manifest) (validate_entry backup) &;
  ret manifest.

(* ------------------------------------------------------------------ *)
(** ** [verify] and [restore] *)

Definition copy_backup_blob (backup destination : path) (blob : BlobInventoryEntry) : B unit :=
  let! digest := lift (ok_or (digest_value (be_sha256 blob)) BackupError.Manifest) in
  copy_blob (join backup (be_filename blob)) (join destination (be_filename blob)) (be_size_bytes blob) digest.
Definition copy_backup_to_data_dir (backup : path) (manifest : BackupManifest) (destination : path) : B unit :=
  copy_regular_file (backup ++ [DATABASE_FILE_NAME]) (destination ++ [DATABASE_FILE_NAME]) &;
  for_each (bm_blobs manifest) (copy_backup_blob backup destination) &;
  sync_directory destination.

(** A service on the data directory [dir]: its tables are those of the database
    file there (with its log), its files the ones below [dir]; SQLite leaves the
    tables it ends with in the file, and the directories of the storage and the
    lock file are made when they are not there. *)
Definition service_files : Files :=
  list_to_map (((fun d => ([d], Directory)) <$> STORAGE_DIRECTORIES) ++ [(["maintenance"; "archive-maintenance.lock"]%string, Regular [])]).
Definition open_database (dir : path) (fs : Files) : option Db :=
  match fs !! (dir ++ [DATABASE_FILE_NAME]) with Some (Regular content) => load content | _ => None end.
Definition service_in {A} (err : BackupError) (dir : path) (m : B A) : B A := fun '(s, n) =>
  match fails n, open_database dir (files s) with
  | None, Some d =>
      let '(r, (t, n')) := m (mkStore d (subtree dir (files s)) (drawn s), S n) in
      (r, (mkStore (db s) (graft dir (<[[DATABASE_FILE_NAME] := Regular (image n' (db t))]> (files t ∪ service_files)) (files s)) (drawn t), n'))
  | _, _ => (Err err, (s, S n))
  end.

Definition path_text (p : path) : string := "/" +:+ String.concat "/" p.
Definition set_data_dir (dir : string) (c : Config) : Config := {|
  Config.data_dir := dir; Config.bind_addr := Config.bind_addr c;
  Config.max_request_body_bytes := Config.max_request_body_bytes c; Config.max_concurrency := Config.max_concurrency c;
  Config.max_download_concurrency := Config.max_download_concurrency c; Config.request_timeout := Config.request_timeout c;
  Config.chunk_size_bytes := Config.chunk_size_bytes c; Config.max_artifact_stored_bytes := Config.max_artifact_stored_bytes c;
  Config.max_artifact_original_bytes := Config.max_artifact_original_bytes c;
  Config.max_artifact_count := Config.max_artifact_count c; Config.max_snapshot_stored_bytes := Config.max_snapshot_stored_bytes c;
  Config.max_snapshot_original_bytes := Config.max_snapshot_original_bytes c; Config.upload_expiry := Config.upload_expiry c;
  Config.admin_deletion_enabled := Config.admin_deletion_enabled c; Config.blob_gc_grace := Config.blob_gc_grace c;
  Config.integrity_scan_concurrency := Config.integrity_scan_concurrency c;
  Config.integrity_scan_buffer_bytes := Config.integrity_scan_buffer_bytes c |}.
Definition with_data_dir (dir : path) : Config -> Config := set_data_dir (path_text dir).

(** [Service::verify_integrity]: a shared permit, then a scan. *)
Definition verify_integrity (st : AppState) : M ScanError IntegrityReport :=
  operation (fun _ => IntegrityScanError.Maintenance) (ret tt) &;
  scan_archive st.
Definition scan_service (config : Config) (manifest : BackupManifest) : B IntegrityReport :=
  let! service := map_err (fun _ => BackupError.Bootstrap) (bootstrap_for_integrity config) in
  let '(st, identity) := service in
  refuse negb (eqs (ArchiveMetadata.archive_instance_id identity) (bm_archive_instance_id manifest))
         || negb (eqs (ArchiveMetadata.owner_namespace identity) (bm_owner_namespace manifest)) with BackupError.Manifest;
  map_err (fun _ => BackupError.Scan) (verify_integrity st).
Definition scan_staged_archive (data_dir : path) (scanner_config : Config) (manifest : BackupManifest) : B IntegrityReport :=
  service_in BackupError.Bootstrap data_dir (scan_service (with_data_dir data_dir scanner_config) manifest).

Definition verify (backup : path) (scanner_config : Config) : B BackupVerification :=
  let! manifest := validate_backup backup in
  let! staging_parent := lift (ok_or (parent_or_current backup) BackupError.Manifest) in
  let! integrity := with_staging staging_parent "verify" false (fun staging =>
    copy_backup_to_data_dir backup manifest staging &;
    scan_staged_archive staging scanner_config manifest) in
  ret (mkVerification (bm_backup_format_version manifest) (bm_archive_instance_id manifest) (bm_owner_namespace manifest)
         (Z.of_nat (length (bm_blobs manifest))) integrity).

Definition ensure_empty_directory (p : path) : B unit :=
  let! directory := is_directory p in
  refuse negb directory with BackupError.DestinationNotEmpty;
  let! entries := read_dir BackupError.DestinationNotEmpty p in
  refuse negb (bool_decide (entries = [])) with BackupError.DestinationNotEmpty;
  ret tt.
Definition is_directory_writable (directory : path) : B bool :=
  let! uuid := new_uuid in
  let probe := directory ++ [".patwari-restore-probe-" +:+ uuid] in
  let! created := attempt (create_new tt probe) in
  match created with
  | Ok _ => attempt (remove_file tt probe) &; ret true
  | Err _ => ret false
  end.
Definition is_same_filesystem (left right : path) : B bool :=
  let! left := metadata_dev BackupError.UnsafeDestination left in
  let! right := metadata_dev BackupError.UnsafeDestination right in
  ret (left =? right).
Definition ensure_restorable_destination (parent destination : path) : B unit :=
  let! directory := is_directory parent in
  let! writable := if (directory : bool) then is_directory_writable parent else ret false in
  refuse negb writable with BackupError.UnsafeDestination;
  let! there := path_exists destination in
  let! same := if (there : bool) then is_same_filesystem parent destination else ret true in
  refuse negb same with BackupError.UnsafeDestination;
  ret tt.
Definition validate_restore_destination (destination : path) : B unit :=
  let! parent := lift (ok_or (parent_or_current destination) BackupError.DestinationNotEmpty) in
  refuse bool_decide (file_name destination = None) with BackupError.DestinationNotEmpty;
  make_dir_all BackupError.Storage parent &;
  ensure_restorable_destination parent destination &;
  let! there := path_exists destination in
  if (there : bool) then ensure_empty_directory destination else ret tt.

Definition healthy (report : IntegrityReport) : bool := match rep_status report with Healthy => true | _ => false end.
Definition restore_staged (backup data_dir : path) (scanner_config : Config) (manifest : BackupManifest) (staging : path)
  : B IntegrityReport :=
  copy_backup_to_data_dir backup manifest staging &;
  let! integrity := scan_staged_archive staging scanner_config manifest in
  refuse negb (healthy integrity) with BackupError.Integrity;
  let! there := path_exists data_dir in
  (if (there : bool) then ensure_empty_directory data_dir &; remove_dir BackupError.DestinationNotEmpty data_dir else ret tt) &;
  staging_finalize staging data_dir &;
  ret integrity.
Definition restore (backup data_dir : path) (scanner_config : Config) : B BackupRestoreResult :=
  let! verification := verify backup scanner_config in
  refuse negb (healthy (bv_integrity verification)) with BackupError.Integrity;
  validate_restore_destination data_dir &;
  let! manifest := validate_backup backup in
  let! parent := lift (ok_or (parent_or_current data_dir) BackupError.DestinationNotEmpty) in
  let! integrity := with_staging parent "restore" true (restore_staged backup data_dir scanner_config manifest) in
  ret (mkRestoreResult (bv_archive_instance_id verification) (bv_owner_namespace verification) (bv_blob_count verification) integrity).
End Operations.
