(* ===== verification/Safekeeping.v ===== *)
(** What a backup holds: the effect of [create], an exact copy of the archive
    or nothing at its output. *)
From stdpp Require Import prelude strings gmap sorting list.
From Stdlib Require Import ZArith Ascii Lia.
From Stdlib.Strings Require Import Byte.
From S2P Require Import Prelude Errors Contract Externals Validation Chunks Fingerprint Pagination.
From S2P Require Import Config Tables Store Storage Uploads Completion Deletion Recovery Archive Download Integrity Bootstrap Disk Backup.

(* ------------------------------------------------------------------ *)
(** ** Work in a staging directory *)

Lemma removelast_app_r (g q : path) : q <> [] -> removelast (g ++ q) = g ++ removelast q.
Proof. intros Hq. by apply removelast_app. Qed.

(** *** Names *)

Lemma split_on_none c l : c ∉ l -> split_on c l = [l].
Proof.
  induction l as [|x l IH]; [done|]. intros Hc. simpl. rewrite bool_decide_false by (intros ->; apply Hc; left).
  rewrite IH; [done|]. intros H. apply Hc. by right.
Qed.
Lemma split_on_app c l l' : c ∉ l -> split_on c (l ++ c :: l') = l :: split_on c l'.
Proof.
  induction l as [|x l IH]; intros Hc; simpl; [by rewrite bool_decide_true|].
  rewrite bool_decide_false by (intros ->; apply Hc; left). rewrite IH; [done|]. intros H. apply Hc. by right.
Qed.
Lemma validate_raw_digest_Some v d : validate_raw_digest v = Some d <-> d = v /\ str_len v = 64 /\ forallb is_lower_hex (chars v) = true.
Proof.
  unfold validate_raw_digest. destruct (str_len v =? 64) eqn:E1, (forallb is_lower_hex (chars v)) eqn:E2; simpl; 
    rewrite ?Z.eqb_eq, ?Z.eqb_neq in E1; naive_solver.
Qed.
Lemma hex_no_slash v : forallb is_lower_hex (chars v) = true -> "/"%char ∉ chars v.
Proof. rewrite forallb_true. intros Hh Hs. by apply Hh in Hs. Qed.
Lemma join_blob root d v : validate_raw_digest v = Some d -> join root (blob_relative_filename d) = root ++ blob_path d.
Proof.
  intros (-> & _ & Hh)%validate_raw_digest_Some. pose proof (hex_no_slash v Hh) as Hs. unfold join, blob_relative_filename. f_equal.
  assert (E : chars ("blobs/sha256/" +:+ of_chars (take 2 (chars v)) +:+ "/" +:+ v)
    = chars "blobs" ++ "/"%char :: (chars "sha256" ++ "/"%char :: (take 2 (chars v) ++ "/"%char :: chars v))).
  { rewrite !chars_app, chars_of_chars. reflexivity. }
  rewrite E, (split_on_app "/" (chars "blobs")) by (apply (bool_decide_unpack _); by vm_compute).
  rewrite (split_on_app "/" (chars "sha256")) by (apply (bool_decide_unpack _); by vm_compute).
  rewrite split_on_app, split_on_none; [|done|].
  - rewrite !fmap_cons, !of_chars_chars. reflexivity.
  - intros Hin. apply Hs. rewrite <-(take_drop 2 (chars v)). apply elem_of_app. by left.
Qed.

Section Staging.
Context `{EV : Env} `{UL : UuidLib} `{TL : TimeLib} `{ML : MimeLib} `{SL : ShaLib} `{ZL : ZstdLib} `{JL : JsonLib}
  `{FS : FileStamps} `{SC : SqliteChecks} `{SA : SocketAddrs} `{HO : Host} `{SQ : SqliteFiles} `{BJ : BackupJson} `{GA : Gate}.
Context (g : path).

(** Every directory on the way to [g] is there. *)
Definition based (fs : Files) : Prop := forall p, p <> [] -> below p g = true -> is_Some (fs !! p).
Definition outside (fs fs' : Files) : Prop := forall p, below g p = false -> fs' !! p = fs !! p.
(** What is new has one of the names [N] below [g]; the rest is as it was. *)
Definition adds (N : path -> Prop) (fs fs' : Files) : Prop :=
  forall p, fs' !! p = fs !! p \/ (fs !! p = None /\ exists q, p = g ++ q /\ N q).
Definition staged {A : Type} (N : path -> Prop) (C : A -> Files -> Prop) (s : Store) (r : res BackupError A) (s' : Store) : Prop :=
  db s' = db s /\ outside (files s) (files s') /\ forall a, r = Ok a -> adds N (files s) (files s') /\ C a (files s').

Lemma outside_refl fs : outside fs fs.
Proof. by intros p _. Qed.
Lemma outside_trans fs1 fs2 fs3 : outside fs1 fs2 -> outside fs2 fs3 -> outside fs1 fs3.
Proof. intros H1 H2 p Hp. by rewrite H2, H1. Qed.
Lemma adds_refl N fs : adds N fs fs.
Proof. by left. Qed.
Lemma adds_trans N fs1 fs2 fs3 : adds N fs1 fs2 -> adds N fs2 fs3 -> adds N fs1 fs3.
Proof.
  intros H1 H2 p. destruct (H1 p) as [E1|[E1 Hq]], (H2 p) as [E2|[E2 Hq']];
    [left; congruence|right; split; [congruence|done]|by right|by right].
Qed.
Lemma adds_mono (N N' : path -> Prop) fs fs' : (forall q, N q -> N' q) -> adds N fs fs' -> adds N' fs fs'.
Proof. intros HN H p. destruct (H p) as [?|(?&q&?&?)]; [by left|right]. eauto 6. Qed.
Lemma adds_keeps N fs fs' p x : adds N fs fs' -> fs !! p = Some x -> fs' !! p = Some x.
Proof. intros H Hx. destruct (H p) as [E|[E _]]; congruence. Qed.
Lemma adds_outside N fs fs' : adds N fs fs' -> outside fs fs'.
Proof. intros H p Hp. destruct (H p) as [E|(_ & q & -> & _)]; [done|]. by rewrite below_app in Hp. Qed.
Lemma adds_based N fs fs' : adds N fs fs' -> based fs -> based fs'.
Proof. intros H Hb p Hp Hg. destruct (Hb p Hp Hg) as [x Hx]. exists x. by eapply adds_keeps. Qed.
Lemma adds_insert (N : path -> Prop) fs q x : fs !! (g ++ q) = None -> N q -> adds N fs (<[g ++ q := x]> fs).
Proof.
  intros Hno HN p. destruct (decide (p = g ++ q)) as [->|Hne]; [right; eauto|left; by rewrite lookup_insert_ne].
Qed.
Lemma outside_insert fs q x : outside fs (<[g ++ q := x]> fs).
Proof. intros p Hp. rewrite lookup_insert_ne; [done|]. intros <-. by rewrite below_app in Hp. Qed.

Lemma staged_refl {A : Type} (N : path -> Prop) (C : A -> Files -> Prop) s r : (forall a, r = Ok a -> C a (files s)) -> staged N C s r s.
Proof. intros HC. split_and!; [done|apply outside_refl|]. intros a E. split; [apply adds_refl|by apply HC]. Qed.
Lemma staged_err {A : Type} (N : path -> Prop) (C : A -> Files -> Prop) s e s' : db s' = db s -> outside (files s) (files s') -> staged N C s (Err e) s'.
Proof. intros ? ?. by split_and!. Qed.
Lemma staged_mono {A : Type} (N N' : path -> Prop) (C C' : A -> Files -> Prop) s r s' :
  (forall q, N q -> N' q) -> (forall a fs, adds N (files s) fs -> C a fs -> C' a fs) -> staged N C s r s' -> staged N' C' s r s'.
Proof.
  intros HN HC (D & O & K). split_and!; [done..|]. intros a E. destruct (K a E) as [H1 H2]. split; [by eapply adds_mono|eauto].
Qed.
(** From the middle of a run. *)
Lemma staged_trans {A B : Type} (N : path -> Prop) (C1 : A -> Files -> Prop) (C2 : B -> Files -> Prop) s a s1 r s2 :
  staged N C1 s (Ok a) s1 -> staged N C2 s1 r s2 -> staged N C2 s r s2.
Proof.
  intros (D1 & O1 & K1) (D2 & O2 & K2). destruct (K1 a eq_refl) as [H1 _]. split_and!; [congruence|by eapply outside_trans|].
  intros b E. destruct (K2 b E) as [H2 H3]. split; [by eapply adds_trans|done].
Qed.
Lemma staged_bind {A B : Type} (N : path -> Prop) (C1 : A -> Files -> Prop) (C2 : B -> Files -> Prop) (m : M BackupError A) (k : A -> M BackupError B) s :
  wp m (staged N C1 s) s ->
  (forall a s1, db s1 = db s -> adds N (files s) (files s1) -> C1 a (files s1) -> wp (k a) (staged N C2 s1) s1) ->
  wp (bind m k) (staged N C2 s) s.
Proof.
  intros Hm Hk. apply wp_bind. eapply wp_mono; [|exact Hm]. intros [a|e] s1 Hs; simpl.
  - pose proof Hs as (D & O & K). destruct (K a eq_refl) as [H1 H2].
    eapply wp_mono; [|by apply Hk]. intros r s2. by eapply staged_trans.
  - destruct Hs as (D & O & _). by apply staged_err.
Qed.
Lemma staged_lift {A : Type} (N : path -> Prop) (c : res BackupError A) s : wp (lift c) (staged N (fun a _ => c = Ok a) s) s.
Proof. apply wp_lift, staged_refl. done. Qed.
Lemma staged_ret {A : Type} (N : path -> Prop) (C : A -> Files -> Prop) a s : C a (files s) -> wp (ret a) (staged N C s) s.
Proof. intros HC. apply wp_ret, staged_refl. by intros _ [= <-]. Qed.
Lemma wp_host_call err (Q : res BackupError unit -> Store -> Prop) s : Q (Err err) s -> Q (Ok tt) s -> wp (host_call err) Q s.
Proof. intros H1 H2. apply wp_operation; [done|]. by intros n. Qed.
Lemma staged_call (N : path -> Prop) err s : wp (host_call err) (staged N (fun _ _ => True) s) s.
Proof. apply wp_operation; [intros; by apply staged_refl|]. intros n. by apply staged_refl. Qed.
Lemma staged_sync (N : path -> Prop) err s : wp (sync err) (staged N (fun _ _ => True) s) s.
Proof. apply wp_sync; by apply staged_refl. Qed.

(** *** The operations *)

(** Directories made below [g]. *)
Lemma dirs_adds fs fs' q : based fs -> dirs_made (g ++ q) fs fs' -> adds (fun r => below r q = true) fs fs'.
Proof.
  intros Hb Hd p. destruct (Hd p) as [E|(E1 & E2 & Hp & Hn)]; [by left|]. right. split; [done|].
  unfold below in *. rewrite bool_decide_eq_true in Hp. destruct (decide (g `prefix_of` p)) as [[r ->]|Hng].
  - exists r. split; [done|]. apply bool_decide_eq_true_2. by apply prefix_app_inv in Hp.
  - exfalso. assert (Hpg : p `prefix_of` g).
    { destruct (prefix_weak_total p g (g ++ q)) as [?|?]; [done|by apply prefix_app_r|done|done]. }
    destruct (Hb p Hn) as [x Hx]; [by apply bool_decide_eq_true_2|congruence].
Qed.

Lemma dirs_outside fs fs' q : based fs -> dirs_made (g ++ q) fs fs' -> outside fs fs'.
Proof. intros. by eapply adds_outside, dirs_adds. Qed.
Definition toward (q : path) : path -> Prop := fun r => below r q = true.
Lemma staged_make_dirs err q s : based (files s) ->
  wp (make_dir_all err (g ++ q)) (staged (toward q) (fun _ fs => q <> [] -> fs !! (g ++ q) = Some Directory) s) s.
Proof.
  intros Hb. apply wp_make_dir_all.
  - intros fs Hd. apply staged_err; [done|]. by eapply dirs_outside.
  - intros fs Hd Hall. split_and!; [done|by eapply dirs_outside|]. intros _ _. split; [by apply dirs_adds|]. intros Hq. apply Hall.
    + by destruct g, q.
    + rewrite <-(app_nil_r (g ++ q)) at 2. apply below_app.
Qed.
Lemma wp_regular p (Q : res BackupError bool -> Store -> Prop) s :
  Q (Ok false) s -> (forall b, files s !! p = Some (Regular b) -> Q (Ok true) s) -> wp (is_regular_file p) Q s.
Proof. apply wp_is_regular_file. Qed.

(** The digest of a file that was read to its end. *)
Lemma hash_regular_file_spec p s : wp (hash_regular_file p) (fun r s' => s' = s /\ forall d, r = Ok d ->
  exists content, files s !! p = Some (Regular content) /\ measures content (size_bytes d) (digest d) /\ byte_len content <= u64_max) s.
Proof.
  unfold hash_regular_file. apply wp_bind, wp_is_regular_file; cbn [then_wp]; [by apply wp_throw|]. intros b Hb. simpl.
  apply wp_bind, wp_read_file; cbn [then_wp]; [done|]. intros c Hc. clear b Hb. split; [|intros k]; simpl; [|by apply wp_throw].
  apply wp_bind, wp_lift. rewrite app_nil_r. unfold checked_add_u64. destruct (_ <=? u64_max) eqn:E; simpl; [|done].
  apply wp_ret. split; [done|]. intros d [= <-]. exists c. split; [done|]. apply Z.leb_le in E. by split; [split|].
Qed.
Lemma staged_hash p s (N : path -> Prop) : wp (hash_regular_file p) (staged N (fun d fs => exists content,
  fs !! p = Some (Regular content) /\ measures content (size_bytes d) (digest d) /\ byte_len content <= u64_max) s) s.
Proof. eapply wp_mono; [|apply hash_regular_file_spec]. intros r s' [-> Hr]. apply staged_refl. exact Hr. Qed.

Lemma toward_self q : toward q q.
Proof. unfold toward. rewrite <-(app_nil_r q) at 2. apply below_app. Qed.
Lemma toward_removelast q r : q <> [] -> toward (removelast q) r -> toward q r.
Proof.
  intros Hq Hr. eapply below_trans; [exact Hr|]. rewrite (app_removelast_last "" Hq) at 2. apply below_app.
Qed.

Definition copied (source : path) (q : path) (fs0 : Files) (fs : Files) : Prop :=
  exists content, fs0 !! source = Some (Regular content) /\ fs !! (g ++ q) = Some (Regular content).
Lemma staged_copy source q s : based (files s) -> q <> [] ->
  wp (copy_regular_file source (g ++ q)) (staged (toward q) (fun _ => copied source q (files s)) s) s.
Proof.
  intros Hb Hq. unfold copy_regular_file, parent. rewrite removelast_app_r by done.
  apply wp_bind, wp_is_regular_file; cbn [then_wp]; [by apply wp_throw, staged_refl|]. intros b Hsrc. simpl.
  eapply (staged_bind _ (fun _ _ => True)).
  { eapply wp_mono; [|by apply staged_make_dirs]. intros r s'. apply staged_mono; [intros; by apply toward_removelast|done]. }
  intros [] s1 Hd1 Ha1 _. pose proof (adds_keeps _ _ _ _ _ Ha1 Hsrc) as Hsrc1.
  apply wp_bind, wp_read_file; cbn [then_wp]; [by apply staged_refl|]. intros c Hc. rewrite Hsrc1 in Hc. injection Hc as <-.
  split; [|intros k]; (apply wp_bind, wp_create_new; cbn [then_wp]; [by apply staged_refl|]); intros Hno;
    (apply wp_bind, wp_write_all; cbn [then_wp]; [apply staged_err; [done|apply outside_insert]|]); cbn [files db];
    rewrite lookup_insert_eq; intros d [= <-]; simpl; rewrite ?app_nil_r, insert_insert_eq.
  - apply wp_sync; [apply staged_err; [done|apply outside_insert]|]. split_and!; [done|apply outside_insert|]. intros _ _. split.
    + apply adds_insert; [done|apply toward_self].
    + exists b. cbn [files]. by rewrite lookup_insert_eq.
  - apply wp_throw, staged_err; [done|apply outside_insert].
Qed.

(** A checked copy: the bytes of the source, of the size and digest expected. *)
Definition copied_as (source : path) (q : path) (size : Z) (dg : string) (fs0 fs : Files) : Prop :=
  exists content, fs0 !! source = Some (Regular content) /\ fs !! (g ++ q) = Some (Regular content) /\ measures content size dg
    /\ is_u64 size.
Lemma staged_copy_blob source q size dg s : based (files s) -> q <> [] ->
  wp (copy_blob source (g ++ q) size dg) (staged (toward q) (fun _ => copied_as source q size dg (files s)) s) s.
Proof.
  intros Hb Hq. unfold copy_blob, parent. rewrite removelast_app_r by done.
  apply wp_bind, wp_is_regular_file; cbn [then_wp]; [by apply wp_throw, staged_refl|]. intros b Hsrc. simpl.
  eapply (staged_bind _ (fun _ _ => True)).
  { eapply wp_mono; [|by apply staged_make_dirs]. intros r s'. apply staged_mono; [intros; by apply toward_removelast|done]. }
  intros [] s1 Hd1 Ha1 _. pose proof (adds_keeps _ _ _ _ _ Ha1 Hsrc) as Hsrc1. pose proof (adds_based _ _ _ Ha1 Hb) as Hb1.
  assert (Hcopy : wp (copy_regular_file source (g ++ q)) (staged (toward q) (fun _ fs => fs !! (g ++ q) = Some (Regular b)) s1) s1).
  { eapply wp_mono; [|by apply staged_copy]. intros r s'. apply staged_mono; [done|]. intros _ fs _ (c & Hc & Hq'). congruence. }
  eapply (staged_bind _ (fun _ fs => fs !! (g ++ q) = Some (Regular b))).
  - apply wp_bind, wp_hard_link; cbn [then_wp]; [exact Hcopy|by intros|]. intros x Hx Hno. rewrite Hsrc1 in Hx. injection Hx as <-.
    set (s2 := mkStore _ _ _). assert (Hs2 : staged (toward q) (fun _ fs => fs !! (g ++ q) = Some (Regular b)) s1 (Ok tt) s2).
    { split_and!; [done|apply outside_insert|]. intros _ _. split; [apply adds_insert; [done|apply toward_self]|]. by cbn; rewrite lookup_insert_eq. }
    unfold verify_hard_link. eapply wp_mono; [intros r s3; eapply staged_trans, Hs2|].
    eapply (staged_bind _ (fun _ _ => True)); [apply staged_call|]. intros [] s3 D3 A3 _.
    eapply wp_mono; [|apply staged_call]. intros r s4. apply staged_mono; [done|]. intros _ fs A _. eapply adds_keeps; [exact A|].
    eapply adds_keeps; [exact A3|]. by cbn; rewrite lookup_insert_eq.
  - intros [] s2 D2 A2 H2. eapply staged_bind; [apply staged_hash|]. intros d s3 D3 A3 (c & Hc & Hm & Hu).
    rewrite (adds_keeps _ _ _ _ _ A3 H2) in Hc. injection Hc as <-.
    destruct (_ || _) eqn:Ex; [by apply wp_throw, staged_refl|].
    apply orb_false_iff in Ex as [<-%negb_false_iff%Z.eqb_eq <-%negb_false_iff%eqs_true].
    eapply wp_mono; [|apply staged_sync]. intros r s4. apply staged_mono; [done|]. intros _ fs A _.
    exists b. split_and!; [done| |done|destruct Hm as [<- _]; unfold is_u64, byte_len in *; lia]. do 2 (eapply adds_keeps; [eassumption|]). done.
Qed.

Lemma staged_write_manifest q m s : q <> [] ->
  wp (write_manifest (g ++ q) m) (staged (toward q) (fun _ fs => fs !! (g ++ q) = Some (Regular (to_vec_pretty m ++ [x0a]))) s) s.
Proof.
  intros Hq. unfold write_manifest. apply wp_bind, wp_create_new; cbn [then_wp]; [by apply staged_refl|]. intros Hno.
  apply wp_bind, wp_write_all; cbn [then_wp]; [apply staged_err; [done|apply outside_insert]|]. cbn [files db].
  rewrite lookup_insert_eq. intros d [= <-]. rewrite insert_insert_eq.
  apply wp_bind, wp_write_all; cbn [then_wp]; [apply staged_err; [done|apply outside_insert]|]. cbn [files db].
  rewrite lookup_insert_eq. intros d [= <-]. rewrite insert_insert_eq.
  apply wp_sync; [apply staged_err; [done|apply outside_insert]|]. split_and!; [done|apply outside_insert|]. intros _ _. split.
  - apply adds_insert; [done|apply toward_self].
  - cbn [files]. by rewrite lookup_insert_eq.
Qed.

(** Whether the file is being written for the first time or not. *)
Lemma write_database_wp err q (Q : res BackupError unit -> Store -> Prop) s :
  (forall x, Q (Err err) (mkStore (db s) (<[g ++ q := x]> (files s)) (drawn s))) ->
  (forall n, Q (Ok tt) (mkStore (db s) (<[g ++ q := Regular (image n (db s))]> (files s)) (drawn s))) ->
  wp (write_database err (g ++ q)) Q s.
Proof. intros H1 H2 n. unfold write_database. destruct (fails n); simpl; [apply H1|apply H2]. Qed.
Lemma staged_sqlite q s : q <> [] -> files s !! (g ++ q) = None ->
  wp (online_sqlite_backup (g ++ q)) (staged (toward q) (fun _ fs => exists n, fs !! (g ++ q) = Some (Regular (image n (db s)))) s) s.
Proof.
  intros Hq Hno. unfold online_sqlite_backup.
  do 3 (apply wp_bind, wp_host_call; cbn [then_wp]; [by apply staged_refl|]).
  do 2 (apply wp_bind, write_database_wp; cbn [then_wp db files drawn];
    [intros; apply staged_err; [done|]; cbn [files]; rewrite ?insert_insert_eq; apply outside_insert|intros ?]).
  apply write_database_wp; cbn [db files drawn]; rewrite !insert_insert_eq.
  - intros x. rewrite insert_insert_eq. apply staged_err; [done|apply outside_insert].
  - intros k. rewrite insert_insert_eq. split_and!; [done|apply outside_insert|]. intros _ _. split.
    + apply adds_insert; [done|apply toward_self].
    + exists k. cbn [files]. by rewrite lookup_insert_eq.
Qed.

(** *** The blobs *)

Record blob_copied (fs0 : Files) (data_dir b : path) (row : Blob.row) (entry : BlobInventoryEntry) (fs : Files) : Prop := {
  bc_digest : validate_raw_digest (Blob.stored_sha256 row) = Some (Blob.stored_sha256 row);
  bc_size : is_u64 (Blob.stored_size_bytes row);
  bc_entry : entry = mkBlobEntry (blob_relative_filename (Blob.stored_sha256 row)) (digest_document (Blob.stored_sha256 row))
                       (Blob.stored_size_bytes row);
  bc_content : exists content, fs0 !! (data_dir ++ blob_path (Blob.stored_sha256 row)) = Some (Regular content)
                 /\ fs !! (b ++ blob_path (Blob.stored_sha256 row)) = Some (Regular content)
                 /\ measures content (Blob.stored_size_bytes row) (Blob.stored_sha256 row);
}.
Definition toward_blobs (rows : list Blob.row) : path -> Prop :=
  fun r => exists row, row ∈ rows /\ toward (blob_path (Blob.stored_sha256 row)) r.
Lemma blob_copied_adds fs0 data_dir N fs fs' row entry : adds N fs fs' ->
  blob_copied fs0 data_dir g row entry fs -> blob_copied fs0 data_dir g row entry fs'.
Proof. intros Ha [H1 H2 H3 (c & H4 & H5 & H6)]. split; try done. exists c. split_and!; try done. by eapply adds_keeps. Qed.

Lemma staged_copy_blobs fs0 data_dir rows : (forall p, below g (data_dir ++ p) = false) ->
  forall s, based (files s) -> outside fs0 (files s) ->
  wp (copy_blobs (data_dir ++ ["blobs"%string]) g rows)
    (staged (toward_blobs rows) (fun entries fs => Forall2 (fun row entry => blob_copied fs0 data_dir g row entry fs) rows entries) s) s.
Proof.
  intros Hoff. induction rows as [|row rows IH]; intros s Hb Ho; simpl; [by apply staged_ret|].
  eapply staged_bind; [apply staged_lift|]. intros dg s1 D1 A1 E1%ok_or_Ok. pose proof E1 as [-> _]%validate_raw_digest_Some.
  eapply staged_bind; [apply staged_lift|]. intros size s2 D2 A2 E2%ok_or_Ok.
  pose proof (adds_based _ _ _ A2 (adds_based _ _ _ A1 Hb)) as Hb2.
  assert (Ho2 : outside fs0 (files s2)) by (eapply outside_trans; [exact Ho|eapply outside_trans; eapply adds_outside; eassumption]).
  rewrite (join_blob g _ _ E1), <-app_assoc. change (["blobs"%string] ++ ["sha256"%string; _; _]) with (blob_path (Blob.stored_sha256 row)).
  apply i64_to_u64_Some in E2 as [-> _].
  eapply staged_bind.
  { eapply wp_mono; [|by apply staged_copy_blob]. intros r s'. apply staged_mono; [|intros a fs _ HC; exact HC].
    intros q Hq. exists row. split; [left|done]. }
  intros [] s3 D3 A3 (content & Hc0 & Hc1 & Hm & Hu). rewrite Ho2 in Hc0 by done.
  assert (Ho3 : outside fs0 (files s3)) by (eapply outside_trans; [exact Ho2|by eapply adds_outside]).
  eapply staged_bind.
  { eapply wp_mono; [|by apply IH; [eapply adds_based|]]. intros r s'. apply staged_mono; [|intros a fs _ HC; exact HC].
    intros q (row' & Hin & Hq). exists row'. split; [by right|done]. }
  intros entries s4 D4 A4 Hall. apply staged_ret. constructor; [|done].
  apply (blob_copied_adds _ _ _ _ _ _ _ A4). split; [done..|]. eauto.
Qed.

(** *** What a backup holds *)

Definition backup_names (rows : list Blob.row) : path -> Prop := fun q =>
  toward ["blobs"; "sha256"]%string q \/ toward [DATABASE_FILE_NAME] q \/ toward [MANIFEST_FILE_NAME] q \/ toward_blobs rows q.

Record written (fs0 : Files) (data_dir : path) (d : Db) (b : path) (m : BackupManifest) (fs : Files) : Prop := {
  wr_identity : exists identity, head (archive_metadata d) = Some identity
    /\ bm_archive_instance_id m = ArchiveMetadata.archive_instance_id identity
    /\ bm_owner_namespace m = ArchiveMetadata.owner_namespace identity
    /\ bm_archive_created_at m = ArchiveMetadata.created_at identity;
  wr_version : bm_backup_format_version m = BACKUP_FORMAT_VERSION /\ bm_application_version m = CARGO_PKG_VERSION
    /\ latest_migration = Some (bm_schema_version m);
  wr_created : exists t, format_rfc3339 t = Some (bm_created_at m);
  wr_health : match latest_run d with
    | None => bm_latest_integrity_health m = None
    | Some row => exists h, health_row row = Some h /\ bm_latest_integrity_health m = Some h
    end;
  wr_manifest : fs !! (b ++ [MANIFEST_FILE_NAME]) = Some (Regular (to_vec_pretty m ++ [x0a]));
  wr_database : exists n, fs !! (b ++ [DATABASE_FILE_NAME]) = Some (Regular (image n d))
    /\ bm_sqlite m = mkBackupFile DATABASE_FILE_NAME (digest_document (sha256_hex (image n d))) (byte_len (image n d))
    /\ byte_len (image n d) <= u64_max;
  wr_blobs : Forall2 (fun row entry => blob_copied fs0 data_dir b row entry fs) (backup_blob_rows d) (bm_blobs m);
  wr_dirs : fs !! (b ++ ["blobs"; "sha256"]%string) = Some Directory;
  wr_only : forall q, is_Some (fs !! (b ++ q)) -> q = [] \/ backup_names (backup_blob_rows d) q;
  wr_idle : active_uploads d = 0;
}.

(** The rest of [create_staged] before the directory is moved. *)
Lemma toward_backup rows q : toward ["blobs"; "sha256"]%string q -> backup_names rows q.
Proof. by left. Qed.
Definition fresh (fs : Files) : Prop := fs !! g = Some Directory /\ forall q, q <> [] -> fs !! (g ++ q) = None.

End Staging.

Section Create.
Context `{EV : Env} `{UL : UuidLib} `{TL : TimeLib} `{ML : MimeLib} `{SL : ShaLib} `{ZL : ZstdLib} `{JL : JsonLib}
  `{FS : FileStamps} `{SC : SqliteChecks} `{SA : SocketAddrs} `{HO : Host} `{SQ : SqliteFiles} `{BJ : BackupJson} `{GA : Gate}.

(** A tree under another name. *)
Lemma written_moved fs0 data_dir d g b m fs fs' : (forall q, fs' !! (b ++ q) = fs !! (g ++ q)) ->
  written fs0 data_dir d g m fs -> written fs0 data_dir d b m fs'.
Proof.
  intros E []. split; try done; [by rewrite E|setoid_rewrite E; done| |by rewrite E|setoid_rewrite E; done].
  eapply Forall2_impl; [eassumption|]. intros row entry [H1 H2 H3 (c & H4 & H5 & H6)]. split; try done. exists c. by rewrite E.
Qed.

(** The end of a staging directory. *)
Record free (dst : path) (fs : Files) : Prop := {
  fr_self : fs !! dst = None \/ fs !! dst = Some Directory;
  fr_below : forall q, q <> [] -> fs !! (dst ++ q) = None;
}.
Record moved (g dst : path) (fs fs' : Files) : Prop := {
  mv_free : free dst fs;
  mv_apart : below g dst = false /\ below dst g = false;
  mv_tree : fs' = move_tree g dst fs;
}.
Lemma staging_finalize_spec g dst s : wp (staging_finalize g dst) (fun r s' => db s' = db s /\
  ((r <> Ok tt /\ files s' = files s) \/ moved g dst (files s) (files s'))) s.
Proof.
  unfold staging_finalize. apply wp_bind, wp_path_exists; cbn [then_wp]; [|intros _; apply wp_throw; by split; [|left]].
  apply wp_bind, wp_sync; cbn [then_wp]; [by split; [|left]|].
  apply wp_bind, wp_rename_dir; cbn [then_wp]; [by split; [|left]|]. intros Hd A1 A2 Hf He.
  assert (Hm : moved g dst (files s) (move_tree g dst (files s))).
  { split; [split; [done|by apply no_entries]|done..]. }
  apply wp_bind, wp_lift. destruct (parent_or_current dst) as [q|]; simpl; [|by split; [|right]].
  apply wp_sync; by split; [|right].
Qed.

(** The staged copy, moved or not. *)
Definition staged_move (W : BackupManifest -> Files -> Prop) (g dst : path) (s : Store) (r : res BackupError BackupManifest)
    (s' : Store) : Prop :=
  db s' = db s /\
  ((outside g (files s) (files s') /\ forall m, r <> Ok m)
   \/ exists m fs, outside g (files s) fs /\ fs !! g = Some Directory /\ W m fs /\ moved g dst fs (files s') /\ forall a, r = Ok a -> a = m).

Lemma create_staged_spec data_dir output archive version rows health g s :
  (forall p, below g (data_dir ++ p) = false) -> based g (files s) -> fresh g (files s) ->
  head (archive_metadata (db s)) = Some archive -> latest_migration = Some version -> rows = backup_blob_rows (db s) ->
  active_uploads (db s) = 0 ->
  match latest_run (db s) with None => health = None | Some row => exists h, health_row row = Some h /\ health = Some h end ->
  wp (create_staged (data_dir ++ ["blobs"%string]) output archive version rows health g)
    (staged_move (fun m fs => written (files s) data_dir (db s) g m fs) g output s) s.
Proof.
  intros Hoff Hb [Hg Hf] Ha Hv -> Hi Hh. unfold create_staged. set (rows := backup_blob_rows (db s)).
  set (N := backup_names rows).
  (* before the directory is moved *)
  assert (Hbind : forall A (C : A -> Files -> Prop) (m : M BackupError A) (k : A -> M BackupError BackupManifest) s0,
    db s0 = db s -> adds g N (files s) (files s0) -> wp m (staged g N C s0) s0 ->
    (forall a s1, db s1 = db s -> adds g N (files s) (files s1) -> adds g N (files s0) (files s1) -> C a (files s1) ->
      wp (k a) (staged_move (fun m fs => written (files s) data_dir (db s) g m fs) g output s) s1) ->
    wp (bind m k) (staged_move (fun m fs => written (files s) data_dir (db s) g m fs) g output s) s0).
  { intros A C m k s0 D0 A0 Hm Hk. apply wp_bind. eapply wp_mono; [|exact Hm]. intros [a|e] s1 (D1 & O1 & K1); simpl.
    - destruct (K1 a eq_refl) as [A1 HC]. apply Hk; [congruence|by eapply adds_trans|done..].
    - split; [congruence|]. left. split; [|done]. eapply outside_trans; [by eapply adds_outside|done]. }
  eapply (Hbind _ (fun _ fs => fs !! (g ++ ["blobs"; "sha256"]%string) = Some Directory /\ fs !! (g ++ [DATABASE_FILE_NAME]) = None));
    [done|apply adds_refl| |].
  { eapply wp_mono; [|by apply staged_make_dirs]. intros r s'. apply staged_mono; [intros q Hq; by left|]. intros a fs Had HC.
    split; [by apply HC|]. destruct (Had (g ++ [DATABASE_FILE_NAME])) as [->|(_ & q & <-%(inj (app g)) & Hq)]; [by apply Hf|done]. }
  intros [] s1 D1 A1 _ [Hdirs Hno].
  eapply Hbind; [done|done| |].
  { eapply wp_mono; [|by apply staged_sqlite]. intros r s'. apply staged_mono; [intros q Hq; right; by left|]. intros a fs _ HC. exact HC. }
  intros [] s2 D2 A2 A12 [n Hdb]. rewrite D1 in Hdb.
  eapply Hbind; [done|done|apply staged_hash|]. intros dg s3 D3 A3 A23 (content & Hc & [Hsize Hdg] & Hmax).
  rewrite (adds_keeps _ _ _ _ _ _ A23 Hdb) in Hc. injection Hc as <-.
  eapply Hbind; [done|done| |].
  { eapply wp_mono; [|apply (staged_copy_blobs g (files s) data_dir rows Hoff)].
    - intros r s'. apply staged_mono; [intros q Hq; do 3 right; done|]. intros a fs _ HC. exact HC.
    - exact (adds_based _ _ _ _ A3 Hb).
    - exact (adds_outside _ _ _ _ A3). }
  intros blobs s4 D4 A4 A34 Hblobs.
  apply wp_bind, wp_now. intros t. simpl. apply wp_bind, wp_lift. destruct (format_rfc3339 t) as [created_at|] eqn:Et; simpl.
  2: { split; [done|]. left. split; [exact (adds_outside _ _ _ _ A4)|done]. }
  set (m := mkBackupManifest _ _ _ _ _ _ _ _ _ _).
  eapply Hbind; [done|done| |].
  { eapply wp_mono; [|by apply (staged_write_manifest g [MANIFEST_FILE_NAME] m)]. intros r s'. apply staged_mono; [intros q Hq; right; right; by left|].
    intros a fs _ HC. exact HC. }
  intros [] s5 D5 A5 A45 Hman.
  assert (Hw : written (files s) data_dir (db s) g m (files s5)).
  { assert (K : forall p x, files s2 !! p = Some x -> files s5 !! p = Some x).
    { intros p x Hx. do 3 (eapply adds_keeps; [eassumption|]). done. }
    split; try done.
    - exists archive. done.
    - by exists t.
    - exists n. split; [by apply K|]. split; [by rewrite Hsize, Hdg|done].
    - eapply Forall2_impl; [exact Hblobs|]. intros row entry. by eapply blob_copied_adds.
    - by eapply K, adds_keeps.
    - intros q [x Hx]. destruct (decide (q = [])) as [->|Hq]; [by left|]. right.
      destruct (A5 (g ++ q)) as [E|(_ & q' & <-%(inj (app g)) & HN)]; [|done]. rewrite Hf in E by done. congruence. }
  apply wp_bind. eapply wp_mono; [|apply staging_finalize_spec]. intros r s6 [D6 H6]. simpl.
  assert (Hgo : outside g (files s) (files s5)) by exact (adds_outside _ _ _ _ A5).
  destruct H6 as [[Hr Hsame]|Hm].
  - destruct r as [[]|e]; [done|]. simpl. split; [congruence|]. left. by rewrite Hsame.
  - destruct r as [[]|e]; simpl; [apply wp_ret|]; (split; [congruence|]); right; exists m, (files s5);
      (split_and!; [done|exact (adds_keeps _ _ _ _ _ _ A5 Hg)|done|done|]); [by intros a [= <-]|done].
Qed.

(** *** A staging directory, from its creation on *)

Definition litter (parent p : path) : Prop := exists purpose uuid rest, p = parent ++ staging_name purpose uuid :: rest.
Definition is_staging (parent : path) (purpose : string) (g : path) : Prop := exists uuid, g = parent ++ [staging_name purpose uuid].
Lemma staging_litter parent purpose g p : is_staging parent purpose g -> below g p = true -> litter parent p.
Proof. intros [uuid ->] [q ->]%below_inv. exists purpose, uuid, q. by rewrite <-app_assoc. Qed.

Record staging_made (parent : path) (purpose : string) (fs : Files) (g : path) (fs' : Files) : Prop := {
  sm_name : is_staging parent purpose g;
  sm_new : exists fs1, dirs_made parent fs fs1 /\ (forall q, fs1 !! (g ++ q) = None) /\ fs' = <[g := Directory]> fs1;
  sm_based : based g fs';
}.
Lemma staging_attempts_spec parent purpose n : forall s, (forall q, q <> [] -> below q parent = true -> files s !! q = Some Directory) ->
  wp (staging_attempts n parent purpose) (fun r s' => db s' = db s /\ match r with
    | Err _ => files s' = files s
    | Ok g => is_staging parent purpose g /\ (forall q, files s !! (g ++ q) = None) /\ files s' = <[g := Directory]> (files s) /\ based g (files s')
    end) s.
Proof.
  induction n as [|n IH]; intros s Hp; simpl; [by apply wp_throw|].
  apply wp_bind, wp_new_uuid. cbn [then_wp]. set (g := parent ++ _). set (s1 := mkStore _ _ _).
  apply wp_bind, wp_make_dir; cbn [then_wp]; [by apply wp_throw|by apply (IH s1)|]. intros Hno. apply wp_ret. split; [done|].
  cbn [files s1] in *. split_and!; [by eexists|by apply exists_in_false|done|].
  intros p Hne Hb. apply bool_decide_eq_true, prefix_snoc_cases in Hb as [->|Hb]; [exists Directory; by rewrite lookup_insert_eq|].
  assert (Hpg : p <> g). { intros ->. destruct Hb as [r Er]. apply (f_equal length) in Er. unfold g in Er. rewrite !length_app in Er. simpl in Er. lia. }
  rewrite lookup_insert_ne by done. exists Directory. apply Hp; [done|]. by apply bool_decide_eq_true_2.
Qed.
Lemma staging_create_spec parent purpose s :
  wp (staging_create parent purpose) (fun r s' => db s' = db s /\ match r with
    | Err _ => dirs_made parent (files s) (files s')
    | Ok g => staging_made parent purpose (files s) g (files s')
    end) s.
Proof.
  unfold staging_create. apply wp_bind, wp_make_dir_all; cbn [then_wp]; [by intros fs Hd|]. intros fs Hd Hall.
  eapply wp_mono; [|by apply (staging_attempts_spec _ _ 8)]. intros r s' [D H]. split; [done|].
  destruct r as [g|e]; cbn [files] in H; [|by rewrite H]. destruct H as (H1 & H2 & H3 & H4). split; eauto.
Qed.

(** What was there stays, and what is new is below the output, staged, or a
    directory on the way. *)
Record kept (output : path) (fs fs' : Files) : Prop := {
  kp_entries : forall p x, fs !! p = Some x -> fs' !! p = Some x;
  kp_new : forall p, fs !! p = None -> is_Some (fs' !! p) ->
    below output p = true \/ litter (parent output) p \/ (fs' !! p = Some Directory /\ below p (parent output) = true);
}.
Definition nothing_at (output : path) (fs fs' : Files) : Prop :=
  forall p, below output p = true -> ~ litter (parent output) p -> fs' !! p = fs !! p.
Lemma dirs_kept output fs fs' : output <> [] -> dirs_made (parent output) fs fs' -> kept output fs fs' /\ nothing_at output fs fs'.
Proof.
  intros Ho Hd. split; [split|].
  - intros p x. by apply dirs_made_keeps with (parent output).
  - intros p Hno [x Hx]. destruct (Hd p) as [E|(_ & E & Hb & _)]; [congruence|]. auto.
  - intros p Hp _. destruct (Hd p) as [E|(_ & E & Hb & _)]; [done|]. exfalso.
    apply bool_decide_eq_true in Hb as [r Er]. apply below_inv in Hp as [q ->].
    apply (f_equal length) in Er. unfold parent in Er. rewrite removelast_firstn_len, length_take, !length_app in Er.
    destruct output; [done|simpl in *; lia].
Qed.

(** The life of a staging directory: whatever is removed of it at the end. *)
Definition dropped (g : path) (s2 s3 : Store) : Prop :=
  db s3 = db s2 /\ outside g (files s2) (files s3) /\ forall p, files s3 !! p = files s2 !! p \/ files s3 !! p = None.
Lemma dropped_refl g s : dropped g s s.
Proof. split_and!; [done|apply outside_refl|by left]. Qed.
Lemma remove_dropped {E} (e : E) g s : wp (remove_dir_all e g) (fun _ s' => dropped g s s') s.
Proof.
  apply wp_remove_dir_all.
  - intros fs H1 H2. by split_and!.
  - intros fs H1 H2. split_and!; [done..|]. intros p. cbn [files]. destruct (below g p) eqn:Ep; [right; by apply H2|left; by apply H1].
Qed.
Lemma with_staging_wp {A} parent purpose finalized (body : path -> M BackupError A) (Q : res BackupError A -> Store -> Prop) s :
  (forall e s1, db s1 = db s -> dirs_made parent (files s) (files s1) -> Q (Err e) s1) ->
  (forall g s1, db s1 = db s -> staging_made parent purpose (files s) g (files s1) ->
     wp (body g) (fun r s2 => forall s3, dropped g s2 s3 -> Q r s3) s1) ->
  wp (with_staging parent purpose finalized body) Q s.
Proof.
  intros He Hb. unfold with_staging. apply wp_bind. eapply wp_mono; [|apply staging_create_spec].
  intros [g|e] s1 [D1 H1]; simpl; [|by apply He]. apply wp_bind, wp_attempt. eapply wp_mono; [|by apply Hb].
  intros r s2 HQ. simpl. destruct r as [a|e].
  - destruct finalized; [apply wp_ret, HQ, dropped_refl|]. apply wp_bind, wp_attempt. eapply wp_mono; [|apply remove_dropped].
    intros u s3 H3. simpl. apply wp_ret. by apply HQ.
  - apply wp_bind, wp_attempt. eapply wp_mono; [|apply remove_dropped]. intros u s3 H3. simpl. apply wp_throw. by apply HQ.
Qed.

(** Before and after the creation of a staging directory. *)
Lemma staging_entries parent purpose fs g fs' p x : staging_made parent purpose fs g fs' -> fs !! p = Some x ->
  below g p = false /\ fs' !! p = Some x.
Proof.
  intros [_ (fs1 & Hd & Hno & ->) _] Hx. pose proof (dirs_made_keeps _ _ _ _ _ Hd Hx) as H1.
  assert (Hb : below g p = false). { destruct (below g p) eqn:E; [|done]. apply below_inv in E as [q ->]. congruence. }
  split; [done|]. rewrite lookup_insert_ne; [done|]. intros <-. by rewrite <-(app_nil_r g) in Hb at 2; rewrite below_app in Hb.
Qed.
Lemma staging_back parent purpose fs g fs' p x : staging_made parent purpose fs g fs' -> fs' !! p = Some x ->
  fs !! p = Some x \/ below g p = true \/ (x = Directory /\ below p parent = true /\ fs !! p = None).
Proof.
  intros [_ (fs1 & Hd & Hno & ->) _] Hx. destruct (decide (p = g)) as [->|Hne].
  - right. left. rewrite <-(app_nil_r g) at 2. apply below_app.
  - rewrite lookup_insert_ne in Hx by done. destruct (Hd p) as [E|(E & E' & Hb & _)]; [left; congruence|]. right. right. split_and!; congruence.
Qed.
Lemma staging_fresh parent purpose fs g fs' : staging_made parent purpose fs g fs' -> fresh g fs'.
Proof.
  intros [_ (fs1 & Hd & Hno & ->) _]. split; [by rewrite lookup_insert_eq|]. intros q Hq. rewrite lookup_insert_ne; [done|].
  intros E. apply Hq. apply (app_inv_head g). by rewrite <-E, app_nil_r.
Qed.

Lemma staging_regular parent purpose fs g fs' p c : staging_made parent purpose fs g fs' ->
  fs' !! p = Some (Regular c) -> fs !! p = Some (Regular c).
Proof.
  intros Hs Hc. destruct (staging_back _ _ _ _ _ _ _ Hs Hc) as [?|[Hb|(? & _)]]; [done| |done].
  apply below_inv in Hb as [q ->]. destruct (staging_fresh _ _ _ _ _ Hs) as [H1 H2]. destruct (decide (q = [])) as [->|Hq].
  - rewrite app_nil_r in Hc. congruence.
  - by rewrite H2 in Hc.
Qed.
Lemma written_source fs0 fs0' data_dir d b m fs : (forall p c, fs0 !! p = Some (Regular c) -> fs0' !! p = Some (Regular c)) ->
  written fs0 data_dir d b m fs -> written fs0' data_dir d b m fs.
Proof.
  intros Hs []. split; try done. eapply Forall2_impl; [eassumption|].
  intros row entry [H1 H2 H3 (c & H4 & H5 & H6)]. split; try done. exists c. split_and!; auto.
Qed.
Lemma on_the_way output p : output <> [] -> below output p = true -> below p (parent output) = true -> False.
Proof.
  intros Ho Hp Hb. apply bool_decide_eq_true in Hb as [r Er]. apply below_inv in Hp as [q ->].
  apply (f_equal length) in Er. unfold parent in Er. rewrite removelast_firstn_len, length_take, !length_app in Er.
  destruct output; [done|simpl in *; lia].
Qed.

(** Nothing was moved: what is left is below the staging directory. *)
Lemma unmoved_kept output purpose fs g fs1 fs2 : output <> [] -> staging_made (parent output) purpose fs g fs1 ->
  outside g fs1 fs2 -> kept output fs fs2 /\ nothing_at output fs fs2.
Proof.
  intros Ho Hs Hout. pose proof (sm_name _ _ _ _ _ Hs) as Hname. split; [split|].
  - intros p x Hx. destruct (staging_entries _ _ _ _ _ _ _ Hs Hx) as [Hb H1]. by rewrite Hout.
  - intros p Hno [y Hy]. destruct (below g p) eqn:Hb; [right; left; by eapply staging_litter|]. rewrite Hout in Hy by done.
    destruct (staging_back _ _ _ _ _ _ _ Hs Hy) as [?|[?|(-> & Hd & _)]]; [congruence..|]. right. right. by rewrite Hout.
  - intros p Hp Hl. destruct (below g p) eqn:Hb; [destruct Hl; by eapply staging_litter|]. rewrite Hout by done.
    destruct (fs !! p) as [x|] eqn:E; [by eapply staging_entries|]. destruct (fs1 !! p) as [y|] eqn:E1; [|done].
    destruct (staging_back _ _ _ _ _ _ _ Hs E1) as [?|[?|(-> & Hd & _)]]; [congruence..|]. destruct (on_the_way output p); done.
Qed.
(** It was moved: the output holds the tree, and the rest is as before. *)
Lemma moved_kept output purpose fs g fs1 fsm fs2 : staging_made (parent output) purpose fs g fs1 -> outside g fs1 fsm ->
  fsm !! g = Some Directory -> moved g output fsm fs2 -> kept output fs fs2 /\ forall q, fs2 !! (output ++ q) = fsm !! (g ++ q).
Proof.
  intros Hs Hout Hg [[Hf1 Hf2] [Ha1 Ha2] ->]. split; [split|intros; apply move_tree_below].
  - intros p x Hx. destruct (staging_entries _ _ _ _ _ _ _ Hs Hx) as [Hb H1]. rewrite <-(Hout p Hb) in H1.
    destruct (below output p) eqn:Ho; [|by rewrite move_tree_off, Hb]. apply below_inv in Ho as [q ->]. rewrite move_tree_below.
    destruct (decide (q = [])) as [->|Hq]; [|by rewrite Hf2 in H1]. rewrite app_nil_r in *. destruct Hf1 as [E|E]; congruence.
  - intros p Hno [y Hy]. destruct (below output p) eqn:Ho; [by left|]. rewrite move_tree_off in Hy |- * by done.
    destruct (below g p) eqn:Hb; [done|]. rewrite (Hout p Hb) in Hy |- *.
    destruct (staging_back _ _ _ _ _ _ _ Hs Hy) as [?|[?|(-> & Hd & _)]]; [congruence..|]. right. right. by rewrite Hy.
Qed.
(** What is dropped after a move is gone already. *)
Lemma dropped_moved g output fsm s2 s3 : moved g output fsm (files s2) -> dropped g s2 s3 -> forall p, files s3 !! p = files s2 !! p.
Proof.
  intros [_ [Ha1 Ha2] E] (_ & Hout & Hor) p. destruct (below g p) eqn:Hb; [|by apply Hout].
  enough (files s2 !! p = None) as Hno by (destruct (Hor p); congruence). rewrite E, move_tree_off; [by rewrite Hb|].
  destruct (below output p) eqn:Ho; [|done]. apply bool_decide_eq_true in Hb, Ho. apply bool_decide_eq_false in Ha1, Ha2.
  by destruct (prefix_weak_total g output p).
Qed.

Definition created {A} (answer : BackupManifest -> A) (data_dir output : path) (s : Store) (r : res BackupError A) (s' : Store) : Prop :=
  db s' = db s /\ kept output (files s) (files s') /\
  ((exists m, written (files s) data_dir (db s) output m (files s') /\ forall a, r = Ok a -> a = answer m)
   \/ ((forall a, r <> Ok a) /\ nothing_at output (files s) (files s'))).
Lemma kept_ext output fs fs1 fs2 : (forall p, fs2 !! p = fs1 !! p) -> kept output fs fs1 -> kept output fs fs2.
Proof. intros E [K1 K2]. split; [intros p x; rewrite E; auto|intros p; rewrite E; auto]. Qed.
Lemma staged_created data_dir output purpose g s s1 r s2 s3 : output <> [] -> db s1 = db s ->
  staging_made (parent output) purpose (files s) g (files s1) ->
  staged_move (fun m fs => written (files s1) data_dir (db s1) g m fs) g output s1 r s2 -> dropped g s2 s3 ->
  created (fun m => m) data_dir output s r s3.
Proof.
  intros Ho D1 Hs [D2 H2] Hd. pose proof Hd as (D3 & Hout3 & _). split; [congruence|].
  destruct H2 as [[Hout Hr]|(m & fsm & Hout & Hg & Hw & Hm & Hr)].
  - destruct (unmoved_kept output purpose (files s) g (files s1) (files s3) Ho Hs) as [K N]; [by eapply outside_trans|]. auto.
  - pose proof (dropped_moved _ _ _ _ _ Hm Hd) as E. destruct (moved_kept _ _ _ _ _ _ _ Hs Hout Hg Hm) as [K T].
    split; [by eapply kept_ext|]. left. exists m. split; [|done]. rewrite D1 in Hw. eapply written_moved, written_source, Hw.
    + intros q. by rewrite E, T.
    + intros p c. by eapply staging_regular.
Qed.

Definition result_of (m : BackupManifest) : BackupCreateResult :=
  mkCreateResult BACKUP_FORMAT_VERSION (bm_archive_instance_id m) (bm_owner_namespace m) (bm_created_at m)
    (Z.of_nat (length (bm_blobs m))).
Lemma created_refused {A} (answer : BackupManifest -> A) data_dir output s e s' : output <> [] -> db s' = db s ->
  dirs_made (parent output) (files s) (files s') -> created answer data_dir output s (Err e) s'.
Proof. intros Ho D Hd. destruct (dirs_kept output _ _ Ho Hd). split; [done|]. auto. Qed.

(** The source archive is not below a staging directory. *)
Lemma source_apart data_dir output purpose fs g fs' : output <> [] -> exists_in fs data_dir = true -> below data_dir output = false ->
  staging_made (parent output) purpose fs g fs' -> forall p, below g (data_dir ++ p) = false.
Proof.
  intros Ho Hex Hno Hs p. destruct (below g (data_dir ++ p)) eqn:Hb; [|done]. exfalso.
  assert (Hfree : forall q x, fs !! q = Some x -> below g q = false) by (intros q x Hx; by eapply staging_entries).
  assert (Hg : below g data_dir = false).
  { destruct (below g data_dir) eqn:E; [|done]. apply below_inv in E as [r ->]. apply not_false_iff_true in Hex. destruct Hex.
    apply exists_in_false. intros q. destruct (fs !! _) as [x|] eqn:Ex; [|done]. apply Hfree in Ex. by rewrite <-app_assoc, below_app in Ex. }
  destruct (sm_name _ _ _ _ _ Hs) as [uuid Eg]. apply bool_decide_eq_true in Hb. apply bool_decide_eq_false in Hg, Hno.
  destruct (prefix_weak_total g data_dir (data_dir ++ p)) as [?|Hd]; [done|by apply prefix_app_r|done|].
  rewrite Eg in Hd. apply prefix_snoc_cases in Hd as [->|[r Hr]]; [by rewrite Eg in Hg|].
  apply Hno. rewrite (app_removelast_last "" Ho). unfold parent in Hr. rewrite Hr, <-app_assoc. by eexists.
Qed.

Lemma load_health_spec s : wp load_latest_integrity_health (fun r s' => s' = s /\ forall h, r = Ok h ->
  match latest_run (db s) with None => h = None | Some row => exists x, health_row row = Some x /\ h = Some x end) s.
Proof.
  unfold load_latest_integrity_health. apply wp_bind, wp_query; cbn [then_wp]; [by intros|].
  destruct (latest_run (db s)) as [row|]; [|apply wp_ret; split; [done|by intros h [= <-]]].
  apply wp_bind, wp_lift. destruct (health_row row) as [x|]; simpl; [|done]. apply wp_ret. split; [done|]. intros h [= <-]. eauto.
Qed.
Lemma create_locked_spec data_dir output s : output <> [] -> exists_in (files s) data_dir = true -> below data_dir output = false ->
  wp (create_locked (data_dir ++ ["blobs"%string]) output) (created result_of data_dir output s) s.
Proof.
  intros Ho Hex Hno. assert (Hr : forall e, created result_of data_dir output s (Err e) s).
  { intros e. apply created_refused; [done..|apply dirs_made_refl]. }
  unfold create_locked. apply wp_bind, wp_query; cbn [then_wp]; [auto|].
  destruct (Z.eqb_spec (active_uploads (db s)) 0) as [Hi|_]; simpl; [|apply wp_throw, Hr].
  apply wp_bind, wp_fetch_one; cbn [then_wp]; [auto|]. intros archive Ha.
  apply wp_bind, wp_query; cbn [then_wp]; [auto|]. apply wp_bind, wp_lift. destruct latest_migration as [version|] eqn:Hv; simpl; [|auto].
  apply wp_bind, wp_query; cbn [then_wp]; [auto|]. apply wp_bind. eapply wp_mono; [|apply load_health_spec].
  intros [health|e] s' [-> Hh]; simpl; [|auto]. specialize (Hh _ eq_refl).
  apply wp_bind, wp_host_call; cbn [then_wp]; [auto|]. apply wp_bind, wp_lift. unfold parent_or_current.
  destruct output as [|c output']; [done|]. set (output := c :: output') in *. simpl.
  apply wp_bind, with_staging_wp; simpl.
  - intros e s1 D1 Hd. by apply created_refused.
  - intros g s1 D1 Hs. eapply wp_mono; [|apply (create_staged_spec data_dir); rewrite ?D1; try done].
    + intros r s2 Hm s3 Hd. pose proof (staged_created data_dir output "backup" g s s1 r s2 s3 Ho D1 Hs) as Hc.
      specialize (Hc Hm Hd). destruct Hc as (D3 & K & Hc). destruct r as [m|e]; simpl; [apply wp_ret|].
      * split; [done|]. split; [done|]. destruct Hc as [(m' & Hw & E)|[E _]]; [left|by destruct (E m)].
        exists m'. split; [done|]. rewrite (E _ eq_refl). by intros a [= <-].
      * split; [done|]. split; [done|]. destruct Hc as [(m' & Hw & E)|[E N]]; [left|right; by split]. exists m'. by split.
    + by eapply source_apart.
    + apply Hs.
    + by eapply staging_fresh.
Qed.

Lemma created_same {A} (answer : BackupManifest -> A) data_dir output s e : created answer data_dir output s (Err e) s.
Proof.
  split; [done|]. split; [split; [done|]|right; by split]. intros p Hno [x Hx]. congruence.
Qed.
(** The way to the output may be made first, and a success withheld. *)
Lemma created_before {A} (answer : BackupManifest -> A) data_dir output s s1 r s2 : output <> [] -> db s1 = db s ->
  dirs_made (parent output) (files s) (files s1) -> created answer data_dir output s1 r s2 -> created answer data_dir output s r s2.
Proof.
  intros Ho D1 Hd (D2 & [K1 K2] & Hc). destruct (dirs_kept output _ _ Ho Hd) as [_ N1]. split; [congruence|]. split; [split|].
  - intros p x Hx. by eapply K1, dirs_made_keeps.
  - intros p Hno Hp. destruct (files s1 !! p) as [x|] eqn:E1; [|by apply K2]. right. right.
    destruct (Hd p) as [E|(_ & E & Hb & _)]; [congruence|]. split; [by apply K1|done].
  - destruct Hc as [(m & Hw & Hr)|[Hr N2]]; [left|right].
    + exists m. split; [|done]. rewrite <-D1. eapply written_source, Hw. intros p c Hp. destruct (Hd p) as [E|(_ & E & _)]; congruence.
    + split; [done|]. intros p Hp Hl. by rewrite N2, N1.
Qed.
Lemma created_less {A} (answer : BackupManifest -> A) data_dir output s r r' s' : (forall a, r' = Ok a -> r = Ok a) ->
  created answer data_dir output s r s' -> created answer data_dir output s r' s'.
Proof.
  intros Hr (D & K & [(m & Hw & E)|[E N]]); (split; [done|]; split; [done|]); [left; exists m; by split; auto|right].
  split; [|done]. intros a Ha%Hr. by apply E in Ha.
Qed.
Lemma wp_gate (Q : res BackupError unit -> Store -> Prop) s : (forall e, Q (Err e) s) -> Q (Ok tt) s -> wp gate Q s.
Proof. intros H1 H2 n. unfold gate. destruct (gate_refuses n); simpl; auto. Qed.
Lemma wp_source_paths data_dir (Q : res BackupError (path * path) -> Store -> Prop) s :
  Q (Err BackupError.Source) s -> Q (Ok (data_dir ++ [DATABASE_FILE_NAME], data_dir ++ ["blobs"%string])) s -> wp (source_paths data_dir) Q s.
Proof.
  intros H1 H2. unfold source_paths. apply wp_bind.
  assert (Hend : forall b : bool, wp (refuse negb b with BackupError.Source;
    ret (data_dir ++ [DATABASE_FILE_NAME], data_dir ++ ["blobs"%string])) Q s) by (intros []; [by apply wp_ret|by apply wp_throw]).
  assert (Hb : forall b : bool, wp (let! maintenance := if b then is_directory (data_dir ++ ["maintenance"%string]) else ret false in
    refuse negb maintenance with BackupError.Source; ret (data_dir ++ [DATABASE_FILE_NAME], data_dir ++ ["blobs"%string])) Q s).
  { intros []; apply wp_bind; [apply wp_is_directory; intros; apply Hend|apply wp_ret, Hend]. }
  apply wp_is_regular_file; cbn [then_wp]; [|intros]; (apply wp_bind; [apply wp_ret, Hb || (apply wp_is_directory; intros; apply Hb)]).
Qed.
Lemma validate_new_output_spec output s : wp (validate_new_output output) (fun r s' =>
  match r with
  | Ok _ => output <> [] /\ db s' = db s /\ dirs_made (parent output) (files s) (files s')
  | Err e => s' = s \/ (output <> [] /\ db s' = db s /\ dirs_made (parent output) (files s) (files s'))
  end) s.
Proof.
  unfold validate_new_output. apply wp_bind.
  apply wp_path_exists; cbn [then_wp]; [|intros _; rewrite orb_true_r; apply wp_throw; by left].
  case_bool_decide as Hn; [apply wp_throw; by left|]. simpl.
  assert (Ho : output <> []) by (intros ->; by apply Hn). unfold parent_or_current. destruct output as [|c output']; [done|].
  set (output := c :: output') in *. apply wp_bind, wp_lift. simpl. apply wp_bind, wp_make_dir_all; cbn [then_wp]; [intros fs Hd; by right|].
  intros fs Hd _. apply wp_bind, wp_is_directory; cbn [then_wp]; [apply wp_throw; by right|]. intros _. by apply wp_ret.
Qed.

Lemma create_all_or_nothing_spec data_dir output s :
  wp (create data_dir output) (created result_of data_dir output s) s.
Proof.
  unfold create. apply wp_bind. eapply wp_mono; [|apply validate_new_output_spec]. intros [[]|e] s1 H1; simpl.
  2: { destruct H1 as [->|(Ho & D & Hd)]; [apply created_same|by apply created_refused]. }
  destruct H1 as (Ho & D1 & Hd1). assert (Hr : forall e, created result_of data_dir output s (Err e) s1) by by intros; apply created_refused.
  assert (Eo : parent_or_current output = Some (parent output)) by by destruct output.
  assert (Elast : exists c, file_name output = Some c /\ parent output ++ [c] = output).
  { exists (List.last output ""%string). split; [|symmetry; by apply app_removelast_last].
    unfold file_name. rewrite (app_removelast_last "" Ho) at 1. apply last_snoc. }
  destruct Elast as (c & Ec & Ep).
  unfold output_is_within_data_dir. rewrite Eo, Ec. apply wp_bind, wp_bind, wp_canonicalize; cbn [then_wp]; [auto|]. intros Hex.
  apply wp_bind, wp_lift. simpl. apply wp_bind, wp_canonicalize; cbn [then_wp]; [auto|]. intros _.
  apply wp_bind, wp_lift. simpl. apply wp_ret. rewrite Ep. destruct (below data_dir output) eqn:Hno; simpl; [by apply wp_throw|].
  apply wp_bind, wp_source_paths; cbn [then_wp]; [auto|]. apply wp_bind, wp_host_call; cbn [then_wp]; [auto|].
  apply wp_bind, wp_gate; cbn [then_wp]; [auto|]. apply wp_bind, wp_attempt. simpl.
  eapply wp_mono; [|by apply create_locked_spec]. intros r s2 H2. simpl. apply wp_bind, wp_attempt, wp_gate; [intros e|]; simpl; apply wp_lift.
  all: eapply created_before; [done..|]; eapply created_less; [|exact H2]; destruct r; naive_solver.
Qed.

(** C19: a backup is all or nothing, and harms nothing. Whatever fails at any
    point, the source database is unchanged and every file and directory that
    was there is still there with its content; what is new is the output, a
    staging directory that could not be removed, or a directory on the way to
    the output. Either the output is the complete backup of the archive: its
    manifest, a database with exactly the tables of the source, and for each
    blob row the bytes of its file, of the recorded size and digest, and nothing
    else; or an error is reported and nothing is at the output. Success is only
    reported of a complete backup, of an archive without active uploads. *)
Theorem create_all_or_nothing data_dir output s :
  wp (create data_dir output) (created result_of data_dir output s) s.
Proof. apply create_all_or_nothing_spec. Qed.
End Create.
