(* ===== verification/Attestation.v ===== *)
(** What [validate_backup] attests: the directory holds exactly the files its
    manifest announces. *)
From stdpp Require Import prelude strings gmap sorting list.
From Stdlib Require Import ZArith Ascii Lia.
From Stdlib.Strings Require Import Byte.
From S2P Require Import Prelude Errors Contract Externals Validation Chunks Fingerprint Pagination.
From S2P Require Import Config Tables Store Storage Uploads Completion Deletion Recovery Archive Download Integrity Bootstrap Disk Backup.
From S2P Require Import Safekeeping.

Section Attestation.
Context `{EV : Env} `{UL : UuidLib} `{TL : TimeLib} `{ML : MimeLib} `{SL : ShaLib} `{ZL : ZstdLib} `{JL : JsonLib}
  `{FS : FileStamps} `{SC : SqliteChecks} `{SA : SocketAddrs} `{HO : Host} `{SQ : SqliteFiles} `{BJ : BackupJson} `{GA : Gate}.

(** *** Rules that tell a failed call from an answer *)

Definition calm : Prop := forall k, fails k = None.

Section Rules.
Context {E : Type}.
Implicit Types (s : Store) (e : E) (p : path).

Lemma wpc_operation {A} (err : SqlxError -> E) (k : M E A) (Q : res E A -> Store -> Prop) s :
  (~ calm -> forall x, Q (Err (err x)) s) -> wp k Q s -> wp (operation err k) Q s.
Proof.
  intros H1 H2 n. unfold operation. destruct (fails n) eqn:En; [|apply H2]. apply H1. intros Hc. by rewrite Hc in En.
Qed.
Lemma wpc_is_directory p (Q : res E bool -> Store -> Prop) s :
  (forall d : bool, (d = true -> is_dir_in (files s) p = true) -> (calm -> d = is_dir_in (files s) p) -> Q (Ok d) s) -> wp (is_directory p) Q s.
Proof.
  intros H n. unfold is_directory. apply H; destruct (fails n) eqn:En; try done. intros Hc. by rewrite Hc in En.
Qed.
Definition regular (fs : Files) p : Prop := exists c, fs !! p = Some (Regular c).
Lemma wpc_is_regular p (Q : res E bool -> Store -> Prop) s :
  (forall d : bool, (d = true -> regular (files s) p) -> (calm -> d = false -> ~ regular (files s) p) -> Q (Ok d) s) -> wp (is_regular_file p) Q s.
Proof.
  intros H n. unfold is_regular_file. apply H; destruct (fails n) eqn:En; try done; [| |].
  - destruct (files s !! p) as [[c| |]|] eqn:Ep; try done. intros _. by exists c.
  - intros Hc. by rewrite Hc in En.
  - intros _. destruct (files s !! p) as [[c| |]|] eqn:Ep; try done; intros _ [c' Ec]; congruence.
Qed.
Lemma wpc_metadata_len e p (Q : res E Z -> Store -> Prop) s :
  ((calm -> ~ regular (files s) p) -> Q (Err e) s) ->
  (forall z, (forall c, files s !! p = Some (Regular c) -> z = Z.of_nat (length c)) -> Q (Ok z) s) -> wp (metadata_len e p) Q s.
Proof.
  intros H1 H2. apply wpc_operation; [intros Hn _; apply H1; intros Hc; by destruct Hn|]. intros n. cbn [fst snd].
  assert (H3 : (forall c, files s !! p <> Some (Regular c)) -> Q (Err e) s) by (intros Hno; apply H1; by intros _ [c ?%Hno]).
  destruct (files s !! p) as [[c| |]|] eqn:Ep; repeat case_match; cbn [fst snd]; (apply H2 || apply H3); naive_solver.
Qed.
Lemma wpc_read_file e p (Q : res E (list bytes * bool) -> Store -> Prop) s :
  ((calm -> ~ regular (files s) p) -> Q (Err e) s) ->
  (forall c, files s !! p = Some (Regular c) -> Q (Ok ([c], true)) s /\ (~ calm -> forall k, Q (Ok ([take k c], false)) s)) ->
  wp (read_file e p) Q s.
Proof.
  intros H1 H2. apply wpc_operation; [intros Hn _; apply H1; intros Hc; by destruct Hn|]. intros n. cbn [fst snd].
  assert (H3 : (forall c, files s !! p <> Some (Regular c)) -> Q (Err e) s) by (intros Hno; apply H1; by intros _ [c ?%Hno]).
  destruct (files s !! p) as [[c| |]|] eqn:Ep; cbn [fst snd]; try (apply H3; naive_solver). destruct (H2 c eq_refl) as [HQ Hk].
  destruct (fails n) eqn:En; [|done]. apply Hk. intros Hc. by rewrite Hc in En.
Qed.
Lemma wpc_read_dir e p (Q : res E (list string) -> Store -> Prop) s :
  (~ calm -> Q (Err e) s) -> Q (Ok (entry_names p (files s))) s -> wp (read_dir e p) Q s.
Proof. intros H1 H2. apply wpc_operation; [auto|]. by intros n. Qed.
Lemma wpc_next_entry e (Q : res E unit -> Store -> Prop) s : (~ calm -> Q (Err e) s) -> Q (Ok tt) s -> wp (next_entry e) Q s.
Proof. intros H1 H2. apply wpc_operation; [auto|]. by intros n. Qed.
Lemma wpc_read_names e p (Q : res E (gset string) -> Store -> Prop) s :
  (~ calm -> Q (Err e) s) -> Q (Ok (list_to_set (entry_names p (files s)))) s -> wp (read_names e p) Q s.
Proof.
  intros H1 H2. unfold read_names. apply wp_bind, wpc_read_dir; [done|]. cbn [then_wp].
  generalize (entry_names p (files s)) at 1 as l. intros l. apply wp_bind. induction l as [|x l IH]; simpl.
  - apply wp_ret. by apply wp_ret.
  - apply wp_bind, wpc_next_entry; [done|exact IH].
Qed.
End Rules.

Definition hashed_as (fs : Files) (p : path) (size : Z) (dg : string) : Prop :=
  exists c, fs !! p = Some (Regular c) /\ measures c size dg /\ byte_len c <= u64_max.
Lemma wpc_hash p (Q : res BackupError FileDigest -> Store -> Prop) s :
  ((calm -> forall size dg, ~ hashed_as (files s) p size dg) -> forall e, Q (Err e) s) ->
  (forall d, hashed_as (files s) p (size_bytes d) (digest d) ->
     (forall size dg, hashed_as (files s) p size dg -> size = size_bytes d /\ dg = digest d) -> Q (Ok d) s) ->
  wp (hash_regular_file p) Q s.
Proof.
  intros H1 H2. assert (H3 : (calm -> ~ regular (files s) p) -> forall e, Q (Err e) s).
  { intros Hr. apply H1. intros Hc size dg (c & Hcc & _). apply Hr; [done|]. by exists c. }
  unfold hash_regular_file. apply wp_bind, wpc_is_regular. intros [|] Hd Hdc; simpl; [|by apply wp_throw, H3; auto].
  apply wp_bind, wpc_read_file; simpl; [intros Hr; by apply H3|]. intros c Hc. split; [|intros Hn k; simpl; apply wp_throw, H3; by intros ?].
  simpl. apply wp_bind, wp_lift. rewrite app_nil_r. unfold checked_add_u64. destruct (Z.leb_spec (0 + byte_len c) u64_max) as [Hle|Hgt]; simpl.
  - apply wp_ret, H2; simpl.
    + exists c. by split_and!.
    + intros size dg (c' & Hc' & [<- <-] & _). rewrite Hc in Hc'. by injection Hc' as <-.
  - apply H1. intros _ size dg (c' & Hc' & _ & Hle). rewrite Hc in Hc'. injection Hc' as <-. lia.
Qed.

(* ------------------------------------------------------------------ *)
(** ** The inventory of the blobs *)

(** A name in a shard: a digest of the shard, on a regular file. *)
Definition blob_name_ok (fs : Files) (shard : path) (name dg : string) : Prop :=
  validate_raw_digest dg = Some dg /\ is_Some (strip_prefix name dg) /\ regular fs (shard ++ [dg]).
Definition shard_ok (fs : Files) (root : path) (name : string) : Prop :=
  is_shard_name name = true /\ is_dir_in fs (root ++ [name]) = true
  /\ forall dg, dg ∈ entry_names (root ++ [name]) fs -> blob_name_ok fs (root ++ [name]) name dg.

Lemma raw_digest_self v : validate_raw_digest v <> None -> validate_raw_digest v = Some v.
Proof. destruct (validate_raw_digest v) as [d|] eqn:E; [|done]. intros _. by apply validate_raw_digest_Some in E as [-> _]. Qed.

Lemma inventory_shard_spec s shard name blobs : forall inventory, NoDup blobs ->
  (forall dg, dg ∈ blobs -> is_Some (strip_prefix name dg) -> dg ∉ inventory) ->
  wp (inventory_shard shard name blobs inventory) (fun r s' => s' = s /\ match r with
    | Ok inventory' => inventory' = list_to_set blobs ∪ inventory /\ forall dg, dg ∈ blobs -> blob_name_ok (files s) shard name dg
    | Err e => e = BackupError.Manifest /\ (calm -> exists dg, dg ∈ blobs /\ ~ blob_name_ok (files s) shard name dg)
    end) s.
Proof.
  induction blobs as [|dg blobs IH]; intros inventory Hn Hi; simpl.
  - apply wp_bind, wpc_next_entry; [intros Hc; by split_and!|]. apply wp_ret. split; [done|]. split; [set_solver|]. by intros dg ?%elem_of_nil.
  - apply NoDup_cons in Hn as [Hdg Hn].
    apply wp_bind, wpc_next_entry; [intros Hc; by split_and!|]. cbn [then_wp].
    destruct (_ || _) eqn:E1.
    { apply wp_throw. split; [done|]. split; [done|]. intros _. exists dg. split; [left|]. intros (H1 & [x H2] & _).
      apply orb_true_iff in E1 as [E1%bool_decide_eq_true|E1%bool_decide_eq_true]; congruence. }
    apply orb_false_iff in E1 as [E1%bool_decide_eq_false%raw_digest_self E2%bool_decide_eq_false].
    apply wp_bind, wpc_is_regular. intros d Hd Hdc. simpl. destruct (negb d || _) eqn:E3.
    { apply wp_throw. split; [done|]. split; [done|]. intros Hc. exists dg. split; [left|]. intros (_ & _ & Hr).
      apply orb_true_iff in E3 as [E3%negb_true_iff|E3%bool_decide_eq_true]; [by apply Hdc in Hr|]. apply (Hi dg); [left|by apply not_eq_None_Some|done]. }
    apply orb_false_iff in E3 as [E3%negb_false_iff E4%bool_decide_eq_false].
    assert (Hok : blob_name_ok (files s) shard name dg) by (split_and!; [done|by apply not_eq_None_Some|by apply Hd]).
    eapply wp_mono; [|apply (IH ({[dg]} ∪ inventory))]; [|done|].
    + intros [inv'|e] s' [-> H]; (split; [done|]).
      * destruct H as [-> Hall]. split; [set_solver|]. intros x [->|Hx]%elem_of_cons; [done|by apply Hall].
      * destruct H as [-> Hx]. split; [done|]. intros Hc. destruct (Hx Hc) as (x & Hin & ?). exists x. split; [by right|done].
    + intros x Hx Hp. rewrite not_elem_of_union, not_elem_of_singleton. split; [by intros ->|]. apply Hi; [by right|done].
Qed.

Lemma entry_names_NoDup p fs : NoDup (entry_names p fs).
Proof. apply NoDup_remove_dups. Qed.
(** Two shards do not share a digest. *)
Lemma shard_of_digest n1 n2 dg : is_shard_name n1 = true -> is_shard_name n2 = true ->
  is_Some (strip_prefix n1 dg) -> is_Some (strip_prefix n2 dg) -> n1 = n2.
Proof.
  unfold is_shard_name, str_len. intros [L1%Z.eqb_eq _]%andb_true_iff [L2%Z.eqb_eq _]%andb_true_iff [r1 ->%strip_prefix_Some] [r2 E%strip_prefix_Some].
  apply (inj chars). apply (f_equal chars) in E. rewrite !chars_app in E. apply app_inj_1 in E as [E _]; [done|].
  rewrite <-!length_chars in *. lia.
Qed.
Lemma inventory_shards_spec s root shards : forall inventory, NoDup shards ->
  (forall dg name, dg ∈ inventory -> name ∈ shards -> is_shard_name name = true -> strip_prefix name dg = None) ->
  wp (inventory_shards root shards inventory) (fun r s' => s' = s /\ match r with
    | Ok inventory' => (forall name, name ∈ shards -> shard_ok (files s) root name)
        /\ forall dg, dg ∈ inventory' <-> dg ∈ inventory \/ exists name, name ∈ shards /\ dg ∈ entry_names (root ++ [name]) (files s)
    | Err e => e = BackupError.Manifest /\ (calm -> exists name, name ∈ shards /\ ~ shard_ok (files s) root name)
    end) s.
Proof.
  induction shards as [|name shards IH]; intros inventory Hn Hi; simpl.
  - apply wp_bind, wpc_next_entry; [intros Hc; by split_and!|]. apply wp_ret. split; [done|]. split; [by intros name ?%elem_of_nil|].
    intros dg. split; [by left|]. intros [?|(name & ?%elem_of_nil & _)]; done.
  - apply NoDup_cons in Hn as [Hname Hn].
    assert (Hfail : forall e, e = BackupError.Manifest -> (calm -> ~ shard_ok (files s) root name) ->
      e = BackupError.Manifest /\ (calm -> exists x, x ∈ name :: shards /\ ~ shard_ok (files s) root x)).
    { intros e -> Hx. split; [done|]. intros Hc. exists name. split; [left|auto]. }
    apply wp_bind, wpc_next_entry; [intros Hc; split; [done|]; by apply Hfail|]. cbn [then_wp].
    destruct (is_shard_name name) eqn:Es; simpl; [|apply wp_throw; split; [done|]; apply Hfail; [done|]; intros _ [? _]; congruence].
    apply wp_bind, wpc_is_directory. intros [|] Hd Hdc; simpl.
    2: { apply wp_throw. split; [done|]. apply Hfail; [done|]. intros Hc (_ & H & _). rewrite <-Hdc in H by done. done. }
    apply wp_bind, wpc_read_dir; [intros Hc; split; [done|]; by apply Hfail|]. cbn [then_wp].
    apply wp_bind. eapply wp_mono; [|apply inventory_shard_spec; [apply entry_names_NoDup|]].
    2: { intros dg Hdg [x Hx] Hin. rewrite (Hi dg name) in Hx; [done|done|left|done]. }
    specialize (Hd eq_refl). intros [inv'|e] s' [-> H]; simpl.
    2: { destruct H as [-> Hx]. split; [done|]. apply Hfail; [done|]. intros Hc (_ & _ & Hall). destruct (Hx Hc) as (dg & Hin & Hno). by apply Hno, Hall. }
    destruct H as [-> Hall]. assert (Hok : shard_ok (files s) root name) by by split_and!.
    eapply wp_mono; [|apply IH; [done|]].
    + intros [inv2|e] s' [-> H]; (split; [done|]).
      * destruct H as [H1 H2]. split; [intros x [->|Hx]%elem_of_cons; [done|by apply H1]|]. intros dg. rewrite H2, elem_of_union, elem_of_list_to_set.
        setoid_rewrite elem_of_cons. naive_solver.
      * destruct H as [-> Hx]. split; [done|]. intros Hc. destruct (Hx Hc) as (x & Hin & ?). exists x. split; [by right|done].
    + intros dg x Hin Hx Hsx. apply elem_of_union in Hin as [Hin%elem_of_list_to_set|Hin]; [|apply Hi; [done|by right|done]].
      destruct (strip_prefix x dg) as [r|] eqn:Er; [|done]. exfalso. destruct (Hall dg Hin) as (_ & Hp & _).
      assert (x = name) as -> by (eapply shard_of_digest; [done|done|by rewrite Er|done]). done.
Qed.

Definition sha256_of (b : path) : path := b ++ ["blobs"; "sha256"]%string.
(** The directories of the blobs hold shards of digests and nothing else. *)
Definition blob_tree (fs : Files) (b : path) : Prop :=
  is_dir_in fs (sha256_of b) = true /\ (forall name, name ∈ entry_names (b ++ ["blobs"%string]) fs -> name = "sha256"%string)
  /\ forall name, name ∈ entry_names (sha256_of b) fs -> shard_ok fs (sha256_of b) name.
Definition digest_in_tree (fs : Files) (b : path) (dg : string) : Prop :=
  exists name, name ∈ entry_names (sha256_of b) fs /\ dg ∈ entry_names (sha256_of b ++ [name]) fs.

Lemma dir_below fs p name : is_dir_in fs (p ++ [name]) = true -> name ∈ entry_names p fs /\ is_dir_in fs p = true.
Proof.
  intros Hd. assert (Hx : exists rest, is_Some (fs !! (p ++ name :: rest))).
  { apply is_dir_in_true in Hd as [E|(c & rest & Hx)]; [exists []; by rewrite E|]. exists (c :: rest). by rewrite <-app_assoc in Hx. }
  split; [by apply elem_of_entry_names|]. apply is_dir_in_true. right. naive_solver.
Qed.
Lemma backup_blob_inventory_spec s b : wp (backup_blob_inventory b) (fun r s' => s' = s /\ match r with
    | Ok inventory => blob_tree (files s) b /\ forall dg, dg ∈ inventory <-> digest_in_tree (files s) b dg
    | Err e => e = BackupError.Manifest /\ (calm -> ~ blob_tree (files s) b)
    end) s.
Proof.
  unfold backup_blob_inventory. change (b ++ ["blobs"; "sha256"]%string) with (sha256_of b).
  assert (Eb : sha256_of b = (b ++ ["blobs"%string]) ++ ["sha256"%string]) by by rewrite <-app_assoc.
  assert (Hsha : blob_tree (files s) b -> "sha256"%string ∈ entry_names (b ++ ["blobs"%string]) (files s) /\ is_dir_in (files s) (b ++ ["blobs"%string]) = true).
  { intros (Hd & _). rewrite Eb in Hd. by apply dir_below. }
  apply wp_bind, wpc_is_directory. intros [|] Hd Hdc; simpl.
  2: { apply wp_throw. split; [done|]. split; [done|]. intros Hc [_ H]%Hsha. rewrite <-Hdc in H by done. done. }
  apply wp_bind, wpc_read_names; [intros Hc; by split_and!|]. cbn [then_wp]. case_bool_decide as En; simpl.
  2: { apply wp_throw. split; [done|]. split; [done|]. intros Hc Ht. pose proof (Hsha Ht) as [Hin _]. destruct Ht as (_ & Hall & _).
    apply En. apply set_eq. intros x. rewrite elem_of_list_to_set, elem_of_singleton. split; [apply Hall|by intros ->]. }
  assert (Hall : forall name, name ∈ entry_names (b ++ ["blobs"%string]) (files s) -> name = "sha256"%string).
  { intros name Hin. apply (elem_of_list_to_set (C := gset string)) in Hin. rewrite En in Hin. by apply elem_of_singleton in Hin. }
  apply wp_bind, wpc_is_directory. intros [|] Hd2 Hdc2; simpl.
  2: { apply wp_throw. split; [done|]. split; [done|]. intros Hc (H & _). rewrite <-Hdc2 in H by done. done. }
  apply wp_bind, wpc_read_dir; [intros Hc; by split_and!|]. cbn [then_wp].
  eapply wp_mono; [|apply inventory_shards_spec; [apply entry_names_NoDup|by intros dg name ?%elem_of_empty]].
  intros [inventory|e] s' [-> H]; (split; [done|]).
  - destruct H as [H1 H2]. split; [by split_and!; auto|]. intros dg. rewrite H2. unfold digest_in_tree. split; [intros [?%elem_of_empty|?]; done|by right].
  - destruct H as [-> Hx]. split; [done|]. intros Hc (_ & _ & Hok). destruct (Hx Hc) as (name & Hin & Hno). by apply Hno, Hok.
Qed.

(* ------------------------------------------------------------------ *)
(** ** A valid backup *)

(** The shape of a manifest: the format this version writes, an archive with an
    identity, a schema, an owner and the times and the application the backup
    comes from, and the entries named by their digests, in strictly ascending
    order. *)
Definition text_lt (x y : string) : Prop := ~ String.le y x.
Record shaped (m : BackupManifest) : Prop := {
  sh_format : bm_backup_format_version m = 1;
  sh_identity : is_Some (parse_str (bm_archive_instance_id m));
  sh_texts : bm_owner_namespace m <> "" /\ bm_archive_created_at m <> "" /\ bm_created_at m <> ""
             /\ bm_application_version m <> "";
  sh_schema : 0 < bm_schema_version m;
  sh_database : bf_filename (bm_sqlite m) = "patwari.db" /\ is_Some (digest_value (bf_sha256 (bm_sqlite m)));
  sh_entries : exists dgs,
    Forall2 (fun e dg => digest_value (be_sha256 e) = Some dg /\ be_filename e = blob_relative_filename dg) (bm_blobs m) dgs
    /\ StronglySorted text_lt dgs;
}.
Record backup_at (fs : Files) (b : path) (m : BackupManifest) : Prop := {
  ba_manifest : exists c, fs !! (b ++ [MANIFEST_FILE_NAME]) = Some (Regular c) /\ Z.of_nat (length c) <= MAX_MANIFEST_BYTES /\ from_slice c = Some m;
  ba_shape : shaped m;
  ba_names : forall name, name ∈ entry_names b fs <-> name = MANIFEST_FILE_NAME \/ name = DATABASE_FILE_NAME \/ name = "blobs"%string;
  ba_database : exists dg, digest_value (bf_sha256 (bm_sqlite m)) = Some dg /\ hashed_as fs (b ++ [DATABASE_FILE_NAME]) (bf_size_bytes (bm_sqlite m)) dg;
  ba_tree : blob_tree fs b;
  ba_inventory : forall dg, digest_in_tree fs b dg <-> exists e, e ∈ bm_blobs m /\ digest_value (be_sha256 e) = Some dg;
  ba_blobs : forall e dg, e ∈ bm_blobs m -> digest_value (be_sha256 e) = Some dg -> hashed_as fs (b ++ blob_path dg) (be_size_bytes e) dg;
}.

Lemma expected_Ok entries dgs : Forall2 (fun e dg => digest_value (be_sha256 e) = Some dg /\ be_filename e = blob_relative_filename dg) entries dgs ->
  expected_digests entries = Ok (list_to_set dgs).
Proof.
  induction 1 as [|e dg entries dgs [E1 E2] _ IH]; [done|]. simpl. unfold entry_digest. rewrite E1. simpl. rewrite E2, (proj2 (eqs_true _ _) eq_refl). simpl.
  by rewrite IH.
Qed.
Definition manifest_at (fs : Files) (b : path) (m : BackupManifest) : Prop :=
  exists c, fs !! (b ++ [MANIFEST_FILE_NAME]) = Some (Regular c) /\ Z.of_nat (length c) <= MAX_MANIFEST_BYTES /\ from_slice c = Some m.
Lemma read_manifest_spec s b : wp (read_manifest b) (fun r s' => s' = s /\ match r with
    | Ok m => manifest_at (files s) b m
    | Err e => e = BackupError.Manifest /\ (calm -> forall m, ~ manifest_at (files s) b m)
    end) s.
Proof.
  unfold read_manifest. apply wp_bind, wpc_is_directory. intros [|] Hd Hdc; simpl.
  2: { apply wp_throw. split; [done|]. split; [done|]. intros Hc m (c & Hcc & _). specialize (Hdc Hc). symmetry in Hdc. apply not_true_iff_false in Hdc.
    apply Hdc, is_dir_in_true. right. exists MANIFEST_FILE_NAME, []. by exists (Regular c). }
  assert (Hreg : forall m, manifest_at (files s) b m -> regular (files s) (b ++ [MANIFEST_FILE_NAME])) by (intros m (c & Hc & _); by exists c).
  apply wp_bind, wpc_metadata_len; simpl.
  { intros Hr. split; [done|]. split; [done|]. intros Hc m Hm. apply (Hr Hc). by eapply Hreg. }
  intros len Hlen. apply wp_bind. destruct (Z.ltb_spec MAX_MANIFEST_BYTES len) as [Hbig|Hsmall]; simpl.
  { apply wp_ret. simpl. apply wp_throw. split; [done|]. split; [done|]. intros Hc m (c & Hcc & Hle & _). rewrite (Hlen _ Hcc) in Hbig. lia. }
  apply wpc_is_regular. intros [|] Hr Hrc; simpl.
  2: { apply wp_throw. split; [done|]. split; [done|]. intros Hc m Hm. apply (Hrc Hc eq_refl). by eapply Hreg. }
  apply wp_bind, wpc_read_file; simpl.
  { intros Hx. split; [done|]. split; [done|]. intros Hc m Hm. apply (Hx Hc). by eapply Hreg. }
  intros c Hcc. split; [|intros Hn k; simpl; apply wp_throw; by split_and!]. simpl. rewrite app_nil_r. apply wp_lift. split; [done|].
  destruct (from_slice c) as [m|] eqn:Em; simpl.
  - exists c. split_and!; [done| |done]. rewrite <-(Hlen _ Hcc). done.
  - split; [done|]. intros _ m (c' & Hc' & _ & Em'). congruence.
Qed.

Lemma validate_entry_spec s b e dg : digest_value (be_sha256 e) = Some dg -> be_filename e = blob_relative_filename dg ->
  wp (validate_entry b e) (fun r s' => s' = s /\ match r with
    | Ok _ => hashed_as (files s) (b ++ blob_path dg) (be_size_bytes e) dg
    | Err x => x = BackupError.Manifest /\ (calm -> ~ hashed_as (files s) (b ++ blob_path dg) (be_size_bytes e) dg)
    end) s.
Proof.
  intros Ed Ef. unfold validate_entry. rewrite Ed, Ef. apply wp_bind, wp_lift. simpl.
  assert (Ej : join b (blob_relative_filename dg) = b ++ blob_path dg).
  { unfold digest_value in Ed. apply bind_Some in Ed as (v & _ & Ev). by eapply join_blob. }
  rewrite Ej. apply wp_bind, wp_map_err, wpc_hash; simpl.
  - intros Hno x. split; [done|]. split; [done|]. intros Hc. by apply Hno.
  - intros d Hd Hu. destruct (_ || _) eqn:Ex; [apply wp_throw|apply wp_ret]; (split; [done|]).
    + split; [done|]. intros _ H. apply Hu in H as [E1 E2]. apply orb_true_iff in Ex as [Ex%negb_true_iff%Z.eqb_neq|Ex%negb_true_iff]; [congruence|].
      rewrite <-E2, (proj2 (eqs_true _ _) eq_refl) in Ex. done.
    + apply orb_false_iff in Ex as [<-%negb_false_iff%Z.eqb_eq <-%negb_false_iff%eqs_true]. exact Hd.
Qed.
Lemma validate_entries_spec s b entries dgs :
  Forall2 (fun e dg => digest_value (be_sha256 e) = Some dg /\ be_filename e = blob_relative_filename dg) entries dgs ->
  wp (for_each entries (validate_entry b)) (fun r s' => s' = s /\ match r with
    | Ok _ => Forall2 (fun e dg => hashed_as (files s) (b ++ blob_path dg) (be_size_bytes e) dg) entries dgs
    | Err x => x = BackupError.Manifest /\ (calm -> ~ Forall2 (fun e dg => hashed_as (files s) (b ++ blob_path dg) (be_size_bytes e) dg) entries dgs)
    end) s.
Proof.
  induction 1 as [|e dg entries dgs [Ed Ef] _ IH]; simpl; [by apply wp_ret|].
  apply wp_bind. eapply wp_mono; [|by apply validate_entry_spec]. intros [[]|x] s' [-> H]; simpl.
  - eapply wp_mono; [|exact IH]. intros [[]|x] s' [-> H']; (split; [done|]); [by constructor|]. destruct H' as [-> Hx]. split; [done|].
    intros Hc Hall. apply (Hx Hc). by inversion Hall.
  - split; [done|]. destruct H as [-> Hx]. split; [done|]. intros Hc Hall. apply (Hx Hc). by inversion Hall.
Qed.

#[local] Instance text_lt_trans : Transitive text_lt.
Proof.
  unfold text_lt. intros x y z H1 H2 H3. apply H2. destruct (String.le_total x y) as [H|H]; [by transitivity x|done].
Qed.
Lemma ascending_NoDup dgs : StronglySorted text_lt dgs -> NoDup dgs.
Proof.
  induction 1 as [|x l _ IH Hx]; constructor; [|done]. rewrite Forall_forall in Hx. intros Hin%Hx. by apply Hin.
Qed.
(** The names of a manifest are those of its digests, in ascending order. *)
Lemma ascending_spec entries : forall prior, ascending_entries prior entries = Ok tt <-> exists dgs,
  Forall2 (fun e dg => digest_value (be_sha256 e) = Some dg /\ be_filename e = blob_relative_filename dg) entries dgs
  /\ StronglySorted text_lt (option_list prior ++ dgs).
Proof.
  induction entries as [|e entries IH]; intros prior; cbn [ascending_entries].
  { split; [intros _; exists []; rewrite app_nil_r; destruct prior; repeat constructor|done]. }
  split.
  - intros E. inv_res. rename x into dg. apply IH in E as (dgs & Hall & Hs).
    apply orb_false_iff in Hb as [Ef%negb_false_iff%eqs_true Ep]. exists (dg :: dgs). split; [by constructor|].
    destruct prior as [previous|]; [|done]. simpl in Hs |- *. apply bool_decide_eq_false in Ep.
    constructor; [done|]. constructor; [done|]. apply StronglySorted_inv in Hs as [_ Hs].
    eapply Forall_impl; [exact Hs|]. intros x Hlt. by transitivity dg.
  - intros (dgs & Hall & Hs). inversion Hall as [|? dg ? dgs' [Ed Ef] Hall']; subst. rewrite Ed. cbn [ok_or res_bind].
    rewrite Ef, eqs_refl. cbn [negb orb].
    assert (Hs' : StronglySorted text_lt (dg :: dgs')) by (destruct prior; [by apply StronglySorted_inv in Hs as [? _]|done]).
    rewrite (proj2 (IH (Some dg))) by by exists dgs'. destruct prior as [previous|]; [|done].
    rewrite bool_decide_eq_false_2; [done|]. simpl in Hs. apply StronglySorted_inv in Hs as [_ Hp]. by inversion Hp.
Qed.
Lemma shaped_Ok m : validate_manifest_shape m = Ok tt <-> shaped m.
Proof.
  unfold validate_manifest_shape. split.
  - intros E. inv_res. match goal with Hy : ascending_entries _ _ = Ok _ |- _ => apply ascending_spec in Hy end.
    repeat match goal with Hb : _ || _ = false |- _ => apply orb_false_iff in Hb as [? ?] end.
    repeat match goal with
    | Hb : negb _ = false |- _ => apply negb_false_iff in Hb
    | Hb : eqs _ _ = false |- _ => apply eqs_false in Hb
    | Hb : eqs _ _ = true |- _ => apply eqs_true in Hb
    | Hb : bool_decide _ = false |- _ => apply bool_decide_eq_false in Hb
    | Hb : (_ =? _) = true |- _ => apply Z.eqb_eq in Hb
    | Hb : (_ <=? _) = false |- _ => apply Z.leb_gt in Hb
    end.
    split; [done|by apply not_eq_None_Some|by split_and!|done|split; [done|by apply not_eq_None_Some]|done].
  - intros [E1 E2 (E3 & E4 & E5 & E6) E7 [E8 E9] E10]. rewrite E1, E8.
    rewrite !bool_decide_eq_false_2 by by apply not_eq_None_Some.
    rewrite !(proj2 (eqs_false _ _)) by done. rewrite (proj2 (Z.leb_gt _ _)) by done.
    cbn -[ascending_entries]. by apply ascending_spec.
Qed.
Lemma shape_entries m : validate_manifest_shape m = Ok tt -> exists dgs,
  Forall2 (fun e dg => digest_value (be_sha256 e) = Some dg /\ be_filename e = blob_relative_filename dg) (bm_blobs m) dgs /\ NoDup dgs.
Proof. intros [_ _ _ _ _ (dgs & H1 & H2)]%shaped_Ok. exists dgs. split; [done|by apply ascending_NoDup]. Qed.
Lemma entries_digests entries dgs (P : BlobInventoryEntry -> string -> Prop) :
  Forall2 (fun e dg => digest_value (be_sha256 e) = Some dg /\ be_filename e = blob_relative_filename dg) entries dgs ->
  (Forall2 P entries dgs <-> forall e dg, e ∈ entries -> digest_value (be_sha256 e) = Some dg -> P e dg).
Proof.
  induction 1 as [|e dg entries dgs [Ed Ef] _ IH].
  - split; [by intros _ e dg ?%elem_of_nil|constructor].
  - rewrite Forall2_cons, IH. setoid_rewrite elem_of_cons. split; [|naive_solver]. intros [H1 H2] x y [->|Hx]; [|by apply H2]. congruence.
Qed.
Lemma digests_of_entries entries dgs dg :
  Forall2 (fun e dg => digest_value (be_sha256 e) = Some dg /\ be_filename e = blob_relative_filename dg) entries dgs ->
  (dg ∈ dgs <-> exists e, e ∈ entries /\ digest_value (be_sha256 e) = Some dg).
Proof.
  induction 1 as [|e x entries dgs [Ed Ef] _ IH]; [set_solver|]. setoid_rewrite elem_of_cons. rewrite IH. split.
  - intros [->|(e' & ? & ?)]; eauto.
  - intros (e' & [->|?] & E); [left; congruence|eauto].
Qed.

Lemma validate_backup_spec b s : wp (validate_backup b) (fun r s' => s' = s /\ match r with
    | Ok m => backup_at (files s) b m
    | Err e => e = BackupError.Manifest /\ (calm -> forall m, ~ backup_at (files s) b m)
    end) s.
Proof.
  unfold validate_backup. apply wp_bind. eapply wp_mono; [|apply read_manifest_spec]. intros [m|e] s' [-> Hm]; simpl.
  2: { destruct Hm as [-> Hno]. split; [done|]. split; [done|]. intros Hc m Hb. apply (Hno Hc m). apply Hb. }
  assert (Honly : forall m', backup_at (files s) b m' -> m' = m).
  { intros m' Hb. destruct Hm as (c & Hc & _ & Em). destruct (ba_manifest _ _ _ Hb) as (c' & Hc' & _ & Em'). congruence. }
  assert (Hfail : forall e, e = BackupError.Manifest -> (calm -> ~ backup_at (files s) b m) ->
    s = s /\ e = BackupError.Manifest /\ (calm -> forall m, ~ backup_at (files s) b m)).
  { intros e -> Hno. split_and!; [done..|]. intros Hc m' Hb. apply (Hno Hc). by rewrite <-(Honly _ Hb). }
  assert (Hcalm : forall e, e = BackupError.Manifest -> ~ calm -> s = s /\ e = BackupError.Manifest /\ (calm -> forall m, ~ backup_at (files s) b m)).
  { intros e -> Hn. by split_and!. }
  apply wp_bind, wp_lift. destruct (validate_manifest_shape m) as [[]|e] eqn:Es; simpl.
  2: { apply Hfail; [|intros _ Hb; by rewrite (proj2 (shaped_Ok _) (ba_shape _ _ _ Hb)) in Es]. unfold validate_manifest_shape in Es.
       destruct (_ || _); [congruence|]. revert Es. generalize (@None string). induction (bm_blobs m) as [|x l IH]; intros prior; simpl; [done|].
       destruct (digest_value _); simpl; [|congruence]. destruct (_ || _); [congruence|]. apply IH. }
  destruct (shape_entries _ Es) as (dgs & Hdgs & Hnd).
  unfold validate_backup_root_entries. apply wp_bind, wp_bind, wpc_read_names; [by apply Hcalm|]. cbn [then_wp]. case_bool_decide as En; simpl.
  2: { apply wp_throw, Hfail; [done|]. intros _ Hb. apply En. apply set_eq. intros x. rewrite elem_of_list_to_set, (ba_names _ _ _ Hb). set_solver. }
  apply wp_ret. simpl.
  apply wp_bind, wp_map_err, wpc_hash; simpl.
  { intros Hno e. apply Hfail; [done|]. intros Hc Hb. destruct (ba_database _ _ _ Hb) as (dg & _ & Hh). by apply Hno in Hh. }
  intros d Hd Hu. destruct (Z.eqb_spec (size_bytes d) (bf_size_bytes (bm_sqlite m))) as [Ez|Hne]; simpl.
  2: { apply wp_throw, Hfail; [done|]. intros _ Hb. destruct (ba_database _ _ _ Hb) as (dg & _ & Hh). apply Hu in Hh as [? _]. congruence. }
  apply wp_bind, wp_lift. destruct (digest_value (bf_sha256 (bm_sqlite m))) as [dg|] eqn:Edg; simpl.
  2: { apply Hfail; [done|]. intros _ Hb. destruct (ba_database _ _ _ Hb) as (dg & E & _). congruence. }
  destruct (eqs (digest d) dg) eqn:Ee; simpl.
  2: { apply wp_throw, Hfail; [done|]. intros _ Hb. destruct (ba_database _ _ _ Hb) as (dg' & E & Hh). apply Hu in Hh as [_ ?].
       assert (Eq : digest d = dg) by congruence. apply eqs_true in Eq. congruence. }
  apply eqs_true in Ee. subst dg. rewrite (expected_Ok _ _ Hdgs). apply wp_bind, wp_lift. simpl.
  rewrite size_list_to_set, (Forall2_length _ _ _ Hdgs), Nat.eqb_refl by done. simpl.
  apply wp_bind. eapply wp_mono; [|apply backup_blob_inventory_spec]. intros [inventory|e] s' [-> Hi]; simpl.
  2: { destruct Hi as [-> Hno]. apply Hfail; [done|]. intros Hc Hb. apply (Hno Hc), Hb. }
  destruct Hi as [Htree Hinv].
  assert (Hdg : forall x, x ∈ dgs <-> exists e, e ∈ bm_blobs m /\ digest_value (be_sha256 e) = Some x) by (intros x; by apply digests_of_entries).
  case_bool_decide as Ei; simpl.
  2: { apply wp_throw, Hfail; [done|]. intros _ Hb. apply Ei. apply set_eq. intros x.
       by rewrite Hinv, (ba_inventory _ _ _ Hb), elem_of_list_to_set, Hdg. }
  apply wp_bind. eapply wp_mono; [|by apply validate_entries_spec]. intros [[]|e] s' [-> H]; simpl.
  2: { destruct H as [-> Hno]. apply Hfail; [done|]. intros Hc Hb. apply (Hno Hc), entries_digests; [done|]. apply (ba_blobs _ _ _ Hb). }
  apply wp_ret. split; [done|]. split; try done; [by apply shaped_Ok|..].
  - intros name. rewrite <-(elem_of_list_to_set (C := gset string)), En. set_solver.
  - exists (digest d). rewrite <-Ez. by split.
  - intros x. by rewrite <-Hinv, Ei, elem_of_list_to_set.
  - by apply (entries_digests _ _ _ Hdgs).
Qed.

(** C21: the validation of a backup is exact. It only reads. It succeeds only on
    a directory that holds the manifest it returns, of a valid shape, the
    database and for each announced blob the file, all of the recorded sizes
    and digests, and nothing else; and when no call fails, it accepts every
    such directory. *)
Theorem validate_backup_exact b s : wp (validate_backup b) (fun r s' => s' = s
  /\ (forall m, r = Ok m -> backup_at (files s) b m)
  /\ (forall e, r = Err e -> e = BackupError.Manifest /\ ((forall k, fails k = None) -> forall m, ~ backup_at (files s) b m))) s.
Proof.
  eapply wp_mono; [|apply validate_backup_spec]. intros [m|e] s' [-> H]; (split_and!; [done|..]); [by intros m' [= <-]|done|done|].
  by intros e' [= <-].
Qed.
End Attestation.
