(* ===== verification/Restoration.v ===== *)
(** What [verify] and [restore] do: a verified archive beside the backup, or a
    restored one at the destination. *)
From stdpp Require Import prelude strings gmap sorting list.
From Stdlib Require Import ZArith Ascii Lia.
From Stdlib.Strings Require Import Byte.
From S2P Require Import Prelude Errors Contract Externals Validation Chunks Fingerprint Pagination.
From S2P Require Import Config Tables Store Storage Uploads Completion Deletion Recovery Archive Download Delivery Integrity.
From S2P Require Import Scanning Certification Bootstrap Disk Backup Safekeeping Attestation.

Section Restoration.
Context `{EV : Env} `{UL : UuidLib} `{TL : TimeLib} `{ML : MimeLib} `{SL : ShaLib} `{ZL : ZstdLib} `{JL : JsonLib}
  `{FS : FileStamps} `{SC : SqliteChecks} `{SA : SocketAddrs} `{HO : Host} `{SQ : SqliteFiles}
  `{BJ : BackupJson} `{GA : Gate}.

(** *** The service on a staged copy *)

(** What the scan of an archive with the tables [d] and the files [fs] leaves
    and tells. *)
Record scanned (c : Config) (d : Db) (fs : Files) (rep : IntegrityReport) (d' : Db) : Prop := {
  sn_named : archive_metadata d <> [] -> archive_metadata d' = archive_metadata d;
  sn_tables : archive_of d' = archive_of (with_archive_metadata (fun _ => archive_metadata d') d);
  sn_certified : tables_keyed d -> rep_status rep = Healthy -> by_kind (rep_counts rep) !! "transient_change"%string = None ->
    exists st, certified st (archive_of d', fs) /\ ((forall k, fails k = None) -> still -> originals_restored (archive_of d', fs));
}.
(** A scan of the archive that the manifest names. *)
Record surveyed (c : Config) (m : BackupManifest) (d : Db) (fs : Files) (rep : IntegrityReport) (d' : Db) : Prop := {
  sv_identity : exists identity, head (archive_metadata d') = Some identity
    /\ ArchiveMetadata.archive_instance_id identity = bm_archive_instance_id m
    /\ ArchiveMetadata.owner_namespace identity = bm_owner_namespace m;
  sv_scanned : scanned c d fs rep d';
}.
(** A service that did not recover anything. *)
Record identified (c : Config) (s : Store) (st : AppState) (identity : ArchiveIdentity) (s' : Store) : Prop := {
  id_state : st = app_state c identity;
  id_row : head (archive_metadata (db s')) = Some identity;
  id_named : archive_metadata (db s) <> [] -> archive_metadata (db s') = archive_metadata (db s);
  id_tables : archive_of (db s') = archive_of (with_archive_metadata (fun _ => archive_metadata (db s')) (db s));
  id_keyed : tables_keyed (db s) -> tables_keyed (db s');
}.
Lemma wp_when {E A} (P : Prop) (m : M E A) (Q : res E A -> Store -> Prop) s : (P -> wp m Q s) -> wp m (fun r s' => P -> Q r s') s.
Proof. intros Hm n HP. by apply Hm. Qed.
Lemma bootstrap_for_integrity_spec c s : wp (bootstrap_for_integrity c) (fun r s' => files s' = files s /\
  forall st identity, r = Ok (st, identity) -> identified c s st identity s') s.
Proof.
  unfold bootstrap_for_integrity, bootstrap_with_recovery.
  apply wp_bind, wp_lift. destruct (validate c) as [[]|e]; simpl; [|done].
  apply wp_bind, wp_step_of_start; cbn [then_wp]; [done|]. apply wp_bind, wp_storage_create; cbn [then_wp]; [|done].
  unfold connect. apply wp_bind, wp_bind, wp_step_of_start; cbn [then_wp]; [done|].
  apply wp_bind, wp_step_of_start; cbn [then_wp]; [done|].
  assert (Hgo : forall row d1 k, archive_of d1 = archive_of (with_archive_metadata (fun _ => archive_metadata d1) (db s)) ->
    (archive_metadata (db s) <> [] -> archive_metadata d1 = archive_metadata (db s)) -> head (archive_metadata d1) = Some row ->
    (tables_keyed (db s) -> tables_keyed d1) ->
    wp (let! _ := step_of_start BootstrapError.Recovery in let! _ := ret tt in ret (app_state c row, row))
      (fun r s' => files s' = files s /\ forall st identity, r = Ok (st, identity) -> identified c s st identity s') (mkStore d1 (files s) k)).
  { intros row d1 k Hd Hn Hr Hk. apply wp_bind, wp_step_of_start; cbn [then_wp]; [done|]. apply wp_bind, wp_ret. cbn [then_wp].
    apply wp_ret. split; [done|]. intros st identity [= <- <-]. by split. }
  apply initialize_identity_wp; cbn [then_wp]; [done|done| |].
  - intros row Hrow. by apply Hgo.
  - intros text Hno. apply Hgo; try done. intros []. by split.
Qed.
Lemma verify_integrity_spec c s0 st identity s : identified c s0 st identity s ->
  wp (verify_integrity st) (fun r s' => files s' = files s /\
    forall rep, r = Ok rep -> archive_metadata (db s') = archive_metadata (db s) /\ scanned c (db s0) (files s) rep (db s')) s.
Proof.
  intros Hi. unfold verify_integrity. apply wp_bind, wp_operation; [done|]. apply wp_ret. cbn [then_wp].
  eapply wp_mono; [|apply wp_and; [apply scan_observes|apply wp_when, scan_certifies]].
  intros r s2 [Ev Hcert]. assert (Ea : archive_of (db s2) = archive_of (db s)) by exact (f_equal fst Ev).
  assert (Ef : files s2 = files s) by exact (f_equal snd Ev).
  assert (Em : archive_metadata (db s2) = archive_metadata (db s)) by exact (f_equal archive_metadata Ea). split; [done|]. intros rep ->.
  split; [done|]. split.
  - rewrite Em. apply Hi.
  - rewrite Ea, Em. apply Hi.
  - intros Hkd Hs Ht. exists st. rewrite Ea. apply (Hcert (id_keyed _ _ _ _ _ Hi Hkd) rep); done.
Qed.
Lemma scan_service_spec c m s : wp (scan_service c m) (fun r s' => files s' = files s /\
  forall rep, r = Ok rep -> surveyed c m (db s) (files s) rep (db s')) s.
Proof.
  unfold scan_service. apply wp_bind, wp_map_err. eapply wp_mono; [|apply bootstrap_for_integrity_spec].
  intros [[st identity]|e] s1 [E1 H1]; cbn [then_wp res_map_err]; [|done]. specialize (H1 st identity eq_refl).
  destruct (_ || _) eqn:Ex; [by apply wp_throw|].
  apply orb_false_iff in Ex as [Ei%negb_false_iff%eqs_true Eo%negb_false_iff%eqs_true].
  apply wp_map_err. eapply wp_mono; [|exact (verify_integrity_spec c s st identity s1 H1)]. intros r s2 [E2 H2]. split; [congruence|]. intros rep Er.
  destruct r as [rep'|e]; [|done]. injection Er as ->. destruct (H2 rep eq_refl) as [Em Hsn]. rewrite <-E1. split; [|done].
  exists identity. rewrite Em. split; [apply H1|]. done.
Qed.

Lemma open_database_Some dir fs d : open_database dir fs = Some d <->
  exists content, fs !! (dir ++ [DATABASE_FILE_NAME]) = Some (Regular content) /\ load content = Some d.
Proof. unfold open_database. destruct (fs !! _) as [[c| |]|]; naive_solver. Qed.
Lemma scan_staged_spec g c m s : wp (scan_staged_archive g c m) (fun r s' => db s' = db s /\ outside g (files s) (files s')
  /\ (forall rep q, r = Ok rep -> q <> [DATABASE_FILE_NAME] -> files s' !! (g ++ q) = (subtree g (files s) ∪ service_files) !! q)
  /\ forall rep, r = Ok rep -> exists content d d' n, files s !! (g ++ [DATABASE_FILE_NAME]) = Some (Regular content) /\ load content = Some d
       /\ files s' !! (g ++ [DATABASE_FILE_NAME]) = Some (Regular (image n d'))
       /\ surveyed (with_data_dir g c) m d (subtree g (files s)) rep d') s.
Proof.
  intros n. unfold scan_staged_archive, service_in. destruct (fails n); [done|].
  destruct (open_database g (files s)) as [d|] eqn:Eo; [|done]. apply open_database_Some in Eo as (content & Hc & Hl).
  pose proof (scan_service_spec (with_data_dir g c) m (mkStore d (subtree g (files s)) (drawn s)) (S n)) as H. cbn [db files] in H.
  destruct (scan_service _ _ _) as [r [t n']]. cbn [fst snd] in *. destruct H as [Ef H]. cbn [db files]. rewrite Ef.
  split; [done|]. split; [intros p Hp; by apply graft_off|]. split.
  - intros rep q _ Hq. by rewrite graft_below, lookup_insert_ne.
  - intros rep ->. exists content, d, (db t), n'. split_and!; [done|done| |by apply H]. by rewrite graft_below, lookup_insert_eq.
Qed.

(** *** Copying a valid backup *)

Definition toward_entries (m : BackupManifest) : path -> Prop := fun q =>
  exists e dg, e ∈ bm_blobs m /\ digest_value (be_sha256 e) = Some dg /\ toward (blob_path dg) q.
Definition archive_names (m : BackupManifest) : path -> Prop := fun q => toward [DATABASE_FILE_NAME] q \/ toward_entries m q.
(** The archive part of the backup [b] at [g]. *)
Record copied_archive (fs0 : Files) (b g : path) (m : BackupManifest) (fs : Files) : Prop := {
  ca_database : exists content, fs0 !! (b ++ [DATABASE_FILE_NAME]) = Some (Regular content)
    /\ fs !! (g ++ [DATABASE_FILE_NAME]) = Some (Regular content);
  ca_blobs : forall e dg, e ∈ bm_blobs m -> digest_value (be_sha256 e) = Some dg ->
    exists content, fs0 !! (b ++ blob_path dg) = Some (Regular content) /\ fs !! (g ++ blob_path dg) = Some (Regular content)
      /\ measures content (be_size_bytes e) dg;
}.
Lemma entry_filename m e dg : validate_manifest_shape m = Ok tt -> e ∈ bm_blobs m -> digest_value (be_sha256 e) = Some dg ->
  be_filename e = blob_relative_filename dg /\ validate_raw_digest dg = Some dg.
Proof.
  intros Hs He Ed. split.
  - destruct (shape_entries _ Hs) as (dgs & Hall & _). apply list_elem_of_lookup in He as [i Hi].
    destruct (Forall2_lookup_l _ _ _ _ _ Hall Hi) as (x & _ & Ex & ->). congruence.
  - unfold digest_value in Ed. apply bind_Some in Ed as (v & _ & Ev). pose proof Ev as [-> _]%validate_raw_digest_Some. done.
Qed.
Lemma staged_copy_backup fs0 b g m s : based g (files s) -> backup_at fs0 b m ->
  (forall p x, fs0 !! p = Some x -> files s !! p = Some x) ->
  wp (copy_backup_to_data_dir b m g) (staged g (archive_names m) (fun _ => copied_archive fs0 b g m) s) s.
Proof.
  intros Hb Hm Hsrc. unfold copy_backup_to_data_dir.
  eapply (staged_bind g _ (fun _ fs => exists content, fs0 !! (b ++ [DATABASE_FILE_NAME]) = Some (Regular content)
    /\ fs !! (g ++ [DATABASE_FILE_NAME]) = Some (Regular content))).
  { eapply wp_mono; [|by apply staged_copy]. intros r s'. apply staged_mono; [intros q Hq; by left|]. intros _ fs _ (c & H1 & H2).
    exists c. split; [|done]. destruct (ba_database _ _ _ Hm) as (dg & _ & c' & Hc' & _). pose proof (Hsrc _ _ Hc'). congruence. }
  intros [] s1 D1 A1 Hdb.
  assert (Hloop : forall l s0, based g (files s0) -> (forall p x, fs0 !! p = Some x -> files s0 !! p = Some x) -> l ⊆ bm_blobs m ->
    wp (for_each l (copy_backup_blob b g)) (staged g (archive_names m) (fun _ fs => forall e dg, e ∈ l -> digest_value (be_sha256 e) = Some dg ->
      exists content, fs0 !! (b ++ blob_path dg) = Some (Regular content) /\ fs !! (g ++ blob_path dg) = Some (Regular content)
        /\ measures content (be_size_bytes e) dg) s0) s0).
  { induction l as [|e l IH]; intros s0 Hb0 Hs0 Hl; simpl; [apply staged_ret; by intros e dg ?%elem_of_nil|].
    assert (He : e ∈ bm_blobs m) by (apply Hl; left).
    eapply (staged_bind g _ (fun _ fs => forall dg, digest_value (be_sha256 e) = Some dg -> exists content,
      fs0 !! (b ++ blob_path dg) = Some (Regular content) /\ fs !! (g ++ blob_path dg) = Some (Regular content)
      /\ measures content (be_size_bytes e) dg)).
    - unfold copy_backup_blob. eapply staged_bind; [apply staged_lift|]. intros dg s2 D2 A2 Ed%ok_or_Ok.
      destruct (entry_filename m e dg (proj2 (shaped_Ok _) (ba_shape _ _ _ Hm)) He Ed) as [Ef Er]. rewrite Ef, !(join_blob _ _ _ Er).
      eapply wp_mono; [|apply staged_copy_blob; [by eapply adds_based|done]]. intros r s'. apply staged_mono.
      + intros q Hq. right. by exists e, dg.
      + intros a fs _ (c & H1 & H2 & H3 & _) dg' Ed'. assert (dg' = dg) as -> by congruence. exists c. split_and!; [|done..].
        destruct (ba_blobs _ _ _ Hm e dg He Ed) as (c' & Hc' & _). pose proof (adds_keeps _ _ _ _ _ _ A2 (Hs0 _ _ Hc')). congruence.
    - intros [] s2 D2 A2 Hx. eapply wp_mono; [|apply IH].
      + intros r s'. apply staged_mono; [done|]. intros _ fs Ha Hall e' dg [->|Hin]%elem_of_cons Ed; [|by apply Hall].
        destruct (Hx dg Ed) as (c & H1 & H2 & H3). exists c. split_and!; [done| |done]. by eapply adds_keeps.
      + by eapply adds_based.
      + intros p x Hp. by eapply adds_keeps, Hs0.
      + intros y Hy. apply Hl. by right. }
  eapply staged_bind; [apply Hloop; [by eapply adds_based|intros p x Hp; by eapply adds_keeps, Hsrc|done]|].
  intros [] s2 D2 A2 Hblobs. eapply wp_mono; [|apply staged_sync]. intros r s'. apply staged_mono; [done|]. intros _ fs Ha _. split.
  - destruct Hdb as (c & H1 & H2). exists c. split; [done|]. do 2 (eapply adds_keeps; [eassumption|]). done.
  - intros e dg He Ed. destruct (Hblobs e dg He Ed) as (c & H1 & H2 & H3). exists c. split_and!; [done| |done]. by eapply adds_keeps.
Qed.

(* ------------------------------------------------------------------ *)
(** ** What is left behind *)

(** Everything stays; what is new is allowed. *)
Definition preserved (N : path -> Entry -> Prop) (fs fs' : Files) : Prop :=
  (forall p x, fs !! p = Some x -> fs' !! p = Some x) /\ (forall p x, fs !! p = None -> fs' !! p = Some x -> N p x).
Definition leftover (parent : path) : path -> Entry -> Prop := fun p x => litter parent p \/ (x = Directory /\ below p parent = true).
Lemma preserved_refl N fs : preserved N fs fs.
Proof. split; [done|]. intros; congruence. Qed.
Lemma preserved_trans N fs1 fs2 fs3 : preserved N fs1 fs2 -> preserved N fs2 fs3 -> preserved N fs1 fs3.
Proof.
  intros [A1 B1] [A2 B2]. split; [auto|]. intros p x Hno Hx. destruct (fs2 !! p) as [y|] eqn:E; [|auto].
  rewrite (A2 _ _ E) in Hx. injection Hx as <-. auto.
Qed.
Lemma preserved_mono (N N' : path -> Entry -> Prop) fs fs' : (forall p x, N p x -> N' p x) -> preserved N fs fs' -> preserved N' fs fs'.
Proof. intros HN [A B]. split; auto. Qed.
Lemma dirs_preserved parent fs fs' : dirs_made parent fs fs' -> preserved (leftover parent) fs fs'.
Proof.
  intros Hd. split; [intros p x; by apply dirs_made_keeps with parent|]. intros p x Hno Hx.
  destruct (Hd p) as [E|(_ & E & Hb & _)]; [congruence|]. right. split; [congruence|done].
Qed.
(** A staging directory that was not moved. *)
Lemma staging_preserved parent purpose fs g fs1 fs2 : staging_made parent purpose fs g fs1 -> outside g fs1 fs2 ->
  preserved (leftover parent) fs fs2.
Proof.
  intros Hs Hout. split.
  - intros p x Hx. destruct (staging_entries _ _ _ _ _ _ _ Hs Hx) as [Hb H1]. by rewrite Hout.
  - intros p x Hno Hx. destruct (below g p) eqn:Hb; [left; eapply staging_litter; [apply Hs|done]|]. rewrite Hout in Hx by done.
    destruct (staging_back _ _ _ _ _ _ _ Hs Hx) as [?|[?|(-> & Hd & _)]]; [congruence..|by right].
Qed.

(** The archive part of a backup, as a tree. *)
Record archive_copy (fs0 : Files) (b : path) (m : BackupManifest) (d : Db) (t : Files) : Prop := {
  ac_database : exists content, fs0 !! (b ++ [DATABASE_FILE_NAME]) = Some (Regular content)
    /\ t !! [DATABASE_FILE_NAME] = Some (Regular content) /\ load content = Some d;
  ac_blobs : forall e dg, e ∈ bm_blobs m -> digest_value (be_sha256 e) = Some dg ->
    exists content, fs0 !! (b ++ blob_path dg) = Some (Regular content) /\ t !! blob_path dg = Some (Regular content)
      /\ measures content (be_size_bytes e) dg;
  ac_only : forall q, is_Some (t !! q) -> q = [] \/ archive_names m q;
}.
(** The copy in a staging directory and its survey. *)
Definition surveyed_copy (c : Config) (fs0 : Files) (b g : path) (m : BackupManifest) (rep : IntegrityReport) (fs : Files) : Prop :=
  exists t d d' n, archive_copy fs0 b m d t /\ surveyed (with_data_dir g c) m d t rep d'
    /\ (forall q, q <> [DATABASE_FILE_NAME] -> fs !! (g ++ q) = (t ∪ service_files) !! q)
    /\ fs !! (g ++ [DATABASE_FILE_NAME]) = Some (Regular (image n d')).
Lemma copy_and_scan_spec fs0 b g c m s : based g (files s) -> fresh g (files s) -> backup_at fs0 b m ->
  (forall p x, fs0 !! p = Some x -> files s !! p = Some x) ->
  wp (copy_backup_to_data_dir b m g &; scan_staged_archive g c m)
    (fun r s' => db s' = db s /\ outside g (files s) (files s') /\ forall rep, r = Ok rep -> surveyed_copy c fs0 b g m rep (files s') /\ files s' !! g = Some Directory) s.
Proof.
  intros Hb [Hg Hf] Hm Hsrc. apply wp_bind. eapply wp_mono; [|by apply staged_copy_backup]. intros [[]|e] s1 (D1 & O1 & K1); simpl; [|done].
  destruct (K1 tt eq_refl) as [A1 [(content & Hc & Hc1) Hblobs]].
  eapply wp_mono; [|apply scan_staged_spec]. intros r s2 (D2 & O2 & T2 & R2). split; [congruence|]. split; [by eapply outside_trans|].
  intros rep Hr. destruct (R2 rep Hr) as (content' & d & d' & n & Hc' & Hl & Hi & Hsv). rewrite Hc1 in Hc'. injection Hc' as <-.
  split.
  2: { specialize (T2 rep [] Hr ltac:(done)). rewrite app_nil_r in T2. rewrite T2, lookup_union_l, subtree_lookup, app_nil_r by done.
       exact (adds_keeps _ _ _ _ _ _ A1 Hg). }
  exists (subtree g (files s1)), d, d', n. split_and!; [split|done| |done].
  - exists content. by rewrite subtree_lookup.
  - intros e dg He Ed. destruct (Hblobs e dg He Ed) as (x & H1 & H2 & H3). exists x. by rewrite subtree_lookup.
  - intros q [x Hx]. rewrite subtree_lookup in Hx. destruct (decide (q = [])) as [->|Hq]; [by left|]. right.
    destruct (A1 (g ++ q)) as [E|(_ & q' & <-%(inj (app g)) & HN)]; [|done]. rewrite Hf in E by done. congruence.
  - intros q Hq. by apply (T2 rep).
Qed.

(* ------------------------------------------------------------------ *)
(** ** [verify] *)

Definition verification_of (m : BackupManifest) (rep : IntegrityReport) : BackupVerification :=
  mkVerification (bm_backup_format_version m) (bm_archive_instance_id m) (bm_owner_namespace m) (Z.of_nat (length (bm_blobs m))) rep.
Lemma verify_spec b c s : wp (verify b c) (fun r s' => db s' = db s /\ preserved (leftover (parent b)) (files s) (files s') /\
  forall v, r = Ok v -> exists m g rep fs, backup_at (files s) b m /\ surveyed_copy c (files s) b g m rep fs /\ v = verification_of m rep) s.
Proof.
  unfold verify. apply wp_bind. eapply wp_mono; [|apply validate_backup_spec]. intros [m|e] s' [-> Hm]; simpl.
  2: { split; [done|]. split; [apply preserved_refl|done]. }
  apply wp_bind, wp_lift. unfold parent_or_current. destruct b as [|x b]; simpl; [split; [done|]; split; [apply preserved_refl|done]|].
  set (b0 := x :: b) in *. apply wp_bind, with_staging_wp; simpl.
  - intros e s1 D1 Hd. split; [done|]. split; [by apply dirs_preserved|done].
  - intros g s1 D1 Hs. eapply wp_mono; [|apply (copy_and_scan_spec (files s) b0 g c m); [apply Hs|by eapply staging_fresh|done|]].
    + intros r s2 (D2 & O2 & R2) s3 (D3 & O3 & _).
      assert (Hp : preserved (leftover (parent b0)) (files s) (files s3)) by (eapply staging_preserved; [exact Hs|by eapply outside_trans]).
      destruct r as [rep|e]; simpl; [apply wp_ret|]; (split; [congruence|]; split; [done|]); [|done].
      intros v [= <-]. exists m, g, rep, (files s2). split_and!; [done|by apply R2|done].
    + intros p y Hp. by eapply staging_entries.
Qed.

(* ------------------------------------------------------------------ *)
(** ** [restore] *)

Lemma ensure_empty_spec p s : wp (ensure_empty_directory p) (fun r s' => s' = s) s.
Proof.
  unfold ensure_empty_directory. apply wp_bind, wp_is_directory; cbn [then_wp]; [by apply wp_throw|]. intros _. simpl.
  apply wp_bind, wp_read_dir; cbn [then_wp]; [done|]. case_bool_decide; simpl; [by apply wp_ret|by apply wp_throw].
Qed.
Lemma writable_spec parent s : wp (is_directory_writable parent) (fun _ s' => db s' = db s /\ preserved (leftover parent) (files s) (files s')) s.
Proof.
  unfold is_directory_writable. apply wp_bind, wp_new_uuid. cbn [then_wp]. set (uuid := now_v7 _). set (probe := parent ++ _).
  assert (Hl : litter parent probe) by (by exists "restore"%string, ("probe-" +:+ uuid), []).
  apply wp_bind, wp_attempt, wp_create_new; cbn [then_wp]; [apply wp_ret; split; [done|apply preserved_refl]|].
  cbn [files db drawn]. intros Hno. apply wp_bind, wp_attempt, wp_remove_file; cbn [then_wp files db]; apply wp_ret; cbn [files db]; split; try done.
  - split.
    + intros p x Hx. rewrite lookup_insert_ne; [done|]. intros <-. congruence.
    + intros p x Hp Hx. left. destruct (decide (p = probe)) as [->|Hne]; [done|]. rewrite lookup_insert_ne in Hx by done. congruence.
  - rewrite delete_insert_id by done. apply preserved_refl.
Qed.
Lemma validate_restore_destination_spec dst s : wp (validate_restore_destination dst) (fun r s' => db s' = db s /\
  preserved (leftover (parent dst)) (files s) (files s') /\ (r = Ok tt -> dst <> [])) s.
Proof.
  unfold validate_restore_destination, parent_or_current. destruct dst as [|x dst]; [apply wp_bind, wp_lift; simpl; split; [done|]; split; [apply preserved_refl|done]|].
  set (d0 := x :: dst). apply wp_bind, wp_lift. simpl. destruct (bool_decide _); [apply wp_throw; split; [done|]; split; [apply preserved_refl|done]|].
  assert (Hend : forall s1, db s1 = db s -> preserved (leftover (parent d0)) (files s) (files s1) ->
    wp (ensure_restorable_destination (parent d0) d0 &;
        (let! there := path_exists d0 in if (there : bool) then ensure_empty_directory d0 else ret tt))
      (fun r s' => db s' = db s /\ preserved (leftover (parent d0)) (files s) (files s') /\ (r = Ok tt -> d0 <> [])) s1).
  { intros s1 D1 P1. apply wp_bind. eapply (wp_mono _ (fun _ s' => db s' = db s /\ preserved (leftover (parent d0)) (files s) (files s'))).
    - intros r s2 [D2 P2]. destruct r as [[]|e]; simpl; [|done]. apply wp_bind.
      assert (He : wp (ensure_empty_directory d0) (fun r s' => db s' = db s /\ preserved (leftover (parent d0)) (files s) (files s') /\ (r = Ok tt -> d0 <> [])) s2).
      { eapply wp_mono; [|apply ensure_empty_spec]. by intros r s3 ->. }
      apply wp_path_exists; cbn [then_wp]; [by apply wp_ret|by intros _].
    - unfold ensure_restorable_destination. apply wp_bind.
      assert (Hrest : forall (b : bool) s2, db s2 = db s -> preserved (leftover (parent d0)) (files s) (files s2) ->
        wp (refuse negb b with BackupError.UnsafeDestination;
            let! there := path_exists d0 in
            let! same := if (there : bool) then is_same_filesystem (parent d0) d0 else ret true in
            refuse negb same with BackupError.UnsafeDestination; ret tt)
          (fun _ s' => db s' = db s /\ preserved (leftover (parent d0)) (files s) (files s')) s2).
      { intros b s2 D2 P2. destruct b; simpl; [|by apply wp_throw]. apply wp_bind.
        assert (Hs : forall same : bool, wp (refuse negb same with BackupError.UnsafeDestination; ret tt)
          (fun _ s' => db s' = db s /\ preserved (leftover (parent d0)) (files s) (files s')) s2) by (intros []; [by apply wp_ret|by apply wp_throw]).
        apply wp_path_exists; cbn [then_wp]; [apply wp_bind, wp_ret, Hs|]. intros _. apply wp_bind. unfold is_same_filesystem.
        apply wp_bind, wp_metadata_dev; cbn [then_wp]; [done|]. apply wp_bind, wp_metadata_dev; cbn [then_wp]; [done|]. apply wp_ret, Hs. }
      apply wp_is_directory; cbn [then_wp]; [apply wp_bind, wp_ret; by apply Hrest|]. intros _. apply wp_bind.
      eapply wp_mono; [|apply writable_spec]. intros [b|e] s2 [D2 P2]; cbn [then_wp].
      + apply Hrest; [congruence|by eapply preserved_trans].
      + split; [congruence|by eapply preserved_trans]. }
  apply wp_bind, wp_make_dir_all; cbn [then_wp]; [intros fs Hd; split; [done|]; split; [by apply dirs_preserved|done]|].
  intros fs Hd _. apply Hend; [done|by apply dirs_preserved].
Qed.

(** An empty directory at the destination may go before the archive comes. *)
Definition cleared (dst : path) (fs fs' : Files) : Prop :=
  fs' = fs \/ (fs' = delete dst fs /\ fs !! dst = Some Directory /\ forall q, q <> [] -> fs !! (dst ++ q) = None).
Definition restored_move (c : Config) (fs0 : Files) (b g dst : path) (m : BackupManifest) (s : Store)
    (r : res BackupError IntegrityReport) (s' : Store) : Prop :=
  db s' = db s /\ exists fs fs1, outside g (files s) fs /\ cleared dst fs fs1 /\
  ((files s' = fs1 /\ forall a, r <> Ok a)
   \/ (exists rep, surveyed_copy c fs0 b g m rep fs /\ healthy rep = true /\ fs !! g = Some Directory /\ moved g dst fs1 (files s')
       /\ forall a, r = Ok a -> a = rep)).
Lemma wp_assoc {E A B C} (m : M E A) (k : A -> M E B) (h : B -> M E C) (Q : res E C -> Store -> Prop) s :
  wp (bind (bind m k) h) Q s -> wp (bind m (fun a => bind (k a) h)) Q s.
Proof. intros H n. specialize (H n). unfold bind in *. by destruct (m (s, n)) as [[a|e] w]. Qed.
Lemma restore_staged_spec fs0 b dst c m g s : based g (files s) -> fresh g (files s) -> backup_at fs0 b m ->
  (forall p x, fs0 !! p = Some x -> files s !! p = Some x) ->
  wp (restore_staged b dst c m g) (restored_move c fs0 b g dst m s) s.
Proof.
  intros Hb Hf Hm Hsrc. unfold restore_staged.
  apply (wp_assoc (copy_backup_to_data_dir b m g) (fun _ => scan_staged_archive g c m)), wp_bind.
  eapply wp_mono; [|by apply (copy_and_scan_spec fs0)]. intros [rep|e] s1 (D1 & O1 & R1); simpl.
  2: { split; [done|]. exists (files s1), (files s1). split_and!; [done|by left|by left]. }
  destruct (R1 rep eq_refl) as [Hcopy Hg]. destruct (healthy rep) eqn:Eh; simpl.
  2: { apply wp_throw. split; [done|]. exists (files s1), (files s1). split_and!; [done|by left|by left]. }
  assert (Hfin : forall s2, db s2 = db s -> cleared dst (files s1) (files s2) ->
    wp (staging_finalize g dst &; ret rep) (restored_move c fs0 b g dst m s) s2).
  { intros s2 D2 C2. apply wp_bind. eapply wp_mono; [|apply staging_finalize_spec]. intros r s3 [D3 H3]; simpl.
    assert (Hmv : forall r', moved g dst (files s2) (files s3) -> (forall a, r' = Ok a -> a = rep) -> restored_move c fs0 b g dst m s r' s3).
    { intros r' Hmv Hr. split; [congruence|]. exists (files s1), (files s2). split_and!; [done|done|]. right. exists rep. by split_and!. }
    assert (Hun : forall e, files s3 = files s2 -> restored_move c fs0 b g dst m s (Err e) s3).
    { intros e E. split; [congruence|]. exists (files s1), (files s2). split_and!; [done|done|]. left. by split. }
    destruct r as [[]|e]; simpl; [apply wp_ret|]; (destruct H3 as [[Hr E]|Hm3]; [try done; by apply Hun|]); apply Hmv; try done.
    by intros a [= <-]. }
  assert (Herr : forall e, restored_move c fs0 b g dst m s (Err e) s1).
  { intros e. split; [done|]. exists (files s1), (files s1). split_and!; [done|by left|by left]. }
  apply wp_bind, wp_path_exists; cbn [then_wp]; [apply wp_bind, wp_ret, Hfin; [done|by left]|]. intros _.
  apply wp_bind, wp_bind. eapply wp_mono; [|apply ensure_empty_spec]. intros [[]|e] s2 ->; cbn [then_wp]; [|apply Herr].
  apply wp_remove_dir; cbn [then_wp]; [apply Herr|]. intros Hd He. apply Hfin; [done|]. right. cbn [files]. split; [done|].
  apply is_dir_in_true in Hd. rewrite no_entries in He. split; [|done]. destruct Hd as [?|(name & rest & [x Hx])]; [done|]. by rewrite He in Hx.
Qed.

(** A restored archive: the copy, surveyed, under its own name. *)
Definition restored_at (c : Config) (fs0 : Files) (b dst : path) (m : BackupManifest) (rep : IntegrityReport) (fs : Files) : Prop :=
  exists g t d d' n, archive_copy fs0 b m d t /\ surveyed (with_data_dir g c) m d t rep d'
    /\ (forall q, q <> [DATABASE_FILE_NAME] -> fs !! (dst ++ q) = (t ∪ service_files) !! q)
    /\ fs !! (dst ++ [DATABASE_FILE_NAME]) = Some (Regular (image n d')).
Definition any_leftover (b dst : path) : path -> Entry -> Prop := fun p x => leftover (parent b) p x \/ leftover (parent dst) p x.
(** What was there stays, except for an empty directory at the destination. *)
Record replaced (b dst : path) (fs fs' : Files) : Prop := {
  rp_entries : forall p x, fs !! p = Some x -> fs' !! p = Some x \/ (p = dst /\ x = Directory /\ free dst fs);
  rp_new : forall p x, fs !! p = None -> fs' !! p = Some x -> below dst p = true \/ any_leftover b dst p x;
}.
Definition nothing_new (b dst : path) (fs fs' : Files) : Prop :=
  forall p x, below dst p = true -> fs !! p = None -> fs' !! p = Some x -> leftover (parent b) p x \/ litter (parent dst) p.
Definition restore_post {A} (answer : BackupManifest -> IntegrityReport -> A) (c : Config) (b dst : path) (s : Store)
    (r : res BackupError A) (s' : Store) : Prop :=
  db s' = db s /\ replaced b dst (files s) (files s') /\
  ((exists m rep, backup_at (files s) b m /\ free dst (files s) /\ restored_at c (files s) b dst m rep (files s')
      /\ rep_status rep = Healthy /\ forall a, r = Ok a -> a = answer m rep)
   \/ ((forall a, r <> Ok a) /\ nothing_new b dst (files s) (files s'))).

Lemma preserved_replaced b dst fs fs' : dst <> [] -> preserved (any_leftover b dst) fs fs' -> replaced b dst fs fs' /\ nothing_new b dst fs fs'.
Proof.
  intros Hd [A B]. split; [split; [by left; auto|]|]; [intros p x Hno Hx; right; by apply B|].
  intros p x Hp Hno Hx. destruct (B p x Hno Hx) as [?|[?|[-> Hway]]]; [by left|by right|]. by destruct (on_the_way dst p).
Qed.
Lemma cleared_free dst fs0 fs fs1 : cleared dst fs fs1 -> (forall p x, fs0 !! p = Some x -> fs !! p = Some x) -> 
  free dst fs1 \/ fs1 <> fs -> free dst fs0.
Proof.
  intros Hc Hk Hf. assert (H : free dst fs).
  { destruct Hc as [->|(-> & H1 & H2)]; [by destruct Hf|]. split; [by right|done]. }
  destruct H as [H1 H2]. split.
  - destruct (fs0 !! dst) as [x|] eqn:E; [|by left]. apply Hk in E. right. destruct H1; congruence.
  - intros q Hq. destruct (fs0 !! (dst ++ q)) as [x|] eqn:E; [|done]. apply Hk in E. by rewrite H2 in E.
Qed.
Lemma cleared_lookup dst fs fs1 p : cleared dst fs fs1 -> p <> dst -> fs1 !! p = fs !! p.
Proof. intros [->|(-> & _)] Hp; [done|]. by rewrite lookup_delete_ne. Qed.
Lemma cleared_some dst fs fs1 p x : cleared dst fs fs1 -> fs1 !! p = Some x -> fs !! p = Some x.
Proof. intros [->|(-> & _)]; [done|]. by intros [_ ?]%lookup_delete_Some. Qed.

Lemma restored_post_move c b dst m g s s2 s3 r s4 s5 : dst <> [] -> db s3 = db s -> preserved (any_leftover b dst) (files s) (files s2) ->
  backup_at (files s) b m -> staging_made (parent dst) "restore" (files s2) g (files s3) ->
  restored_move c (files s) b g dst m s3 r s4 -> dropped g s4 s5 -> restore_post (fun _ rep => rep) c b dst s r s5.
Proof.
  intros Hd D3 [Pk Pn] Hm Hs (D4 & fs & fs1 & Hout & Hcl & Hcase) Hdrop. pose proof Hdrop as (D5 & Hout5 & Hor5).
  assert (Hold : forall p x, files s !! p = Some x -> below g p = false /\ fs !! p = Some x).
  { intros p x Hx%Pk. destruct (staging_entries _ _ _ _ _ _ _ Hs Hx) as [Hb H1]. split; [done|]. by rewrite Hout. }
  assert (Hkeep : forall p x, files s !! p = Some x -> fs !! p = Some x) by (intros p x Hx; by apply Hold).
  assert (Hnew : forall p x, files s !! p = None -> below g p = true \/ fs !! p = Some x -> any_leftover b dst p x).
  { intros p x Hno Hx. destruct (below g p) eqn:Hb; [right; left; eapply staging_litter; [apply Hs|done]|].
    destruct Hx as [?|Hx]; [done|]. rewrite Hout in Hx by done.
    destruct (staging_back _ _ _ _ _ _ _ Hs Hx) as [H2|[?|(-> & Hw & _)]]; [by apply Pn|congruence|right; by right]. }
  split; [congruence|].
  destruct Hcase as [[E4 Hr]|(rep & Hcopy & Hh & Hg & Hm4 & Hr)].
  - assert (H5 : forall p x, files s5 !! p = Some x -> below g p = true \/ fs !! p = Some x).
    { intros p x Hx. destruct (Hor5 p) as [E|E]; [|congruence]. rewrite E, E4 in Hx. right. by eapply cleared_some. }
    assert (Hprop : replaced b dst (files s) (files s5)).
    { split; [|intros p x Hno Hx; right; by apply Hnew; auto]. intros p x Hx. destruct (Hold p x Hx) as [Hb Hfs].
      rewrite Hout5, E4 by done. destruct (decide (fs1 = fs)) as [->|Hne]; [by left|].
      destruct (decide (p = dst)) as [->|Hp]; [|left; by rewrite (cleared_lookup _ _ _ _ Hcl)].
      right. split; [done|]. split; [|eapply cleared_free; [exact Hcl|exact Hkeep|by right]]. destruct Hcl as [?|(_ & H1 & _)]; congruence. }
    split; [done|]. right. split; [done|]. intros p x Hp Hno Hx.
    destruct (Hnew p x Hno (H5 p x Hx)) as [?|[?|[-> Hw]]]; [by left|by right|]. by destruct (on_the_way dst p).
  - pose proof (dropped_moved _ _ _ _ _ Hm4 Hdrop) as E5. pose proof Hm4 as [Hfree1 [Ha1 Ha2] E4].
    assert (Hfree : free dst (files s)) by (eapply cleared_free; [exact Hcl|done|by left]).
    assert (Hgq : forall q, files s5 !! (dst ++ q) = fs !! (g ++ q)).
    { intros q. rewrite E5, E4, move_tree_below. apply (cleared_lookup _ _ _ _ Hcl). intros <-. by rewrite below_app in Ha1. }
    split; [split|].
    + intros p x Hx. left. destruct (Hold p x Hx) as [Hb Hfs]. destruct (below dst p) eqn:Hp.
      * apply below_inv in Hp as [q ->]. destruct Hfree as [[E|E] Hq]; destruct (decide (q = [])) as [->|Hne];
          rewrite ?app_nil_r in *; try congruence; try (by rewrite Hq in Hx). rewrite <-(app_nil_r dst), Hgq, app_nil_r. congruence.
      * rewrite E5, E4, move_tree_off, Hb by done. rewrite (cleared_lookup _ _ _ _ Hcl); [done|]. intros ->.
        by rewrite <-(app_nil_r dst) in Hp at 2; rewrite below_app in Hp.
    + intros p x Hno Hx. destruct (below dst p) eqn:Hp; [by left|]. right. apply Hnew; [done|]. rewrite E5, E4, move_tree_off in Hx by done.
      destruct (below g p); [done|]. right. by eapply cleared_some.
    + left. exists m, rep. split_and!; [done|done| | |done].
      * destruct Hcopy as (t & d & d' & n & H1 & H2 & H3 & H4). exists g, t, d, d', n. setoid_rewrite Hgq. by split_and!.
      * unfold healthy in Hh. by destruct (rep_status rep).
Qed.
Lemma restore_refused {A} (answer : BackupManifest -> IntegrityReport -> A) c b dst s r s' : (forall a, r <> Ok a) -> db s' = db s ->
  preserved (leftover (parent b)) (files s) (files s') \/ (dst <> [] /\ preserved (any_leftover b dst) (files s) (files s')) ->
  restore_post answer c b dst s r s'.
Proof.
  intros Hr D [[P Q]|[Hd P]].
  - split; [done|]. split; [split; [by left; auto|intros p x Hno Hx; right; left; auto]|]. right. split; [done|]. intros p x _ Hno Hx. left. auto.
  - split; [done|]. destruct (preserved_replaced _ _ _ _ Hd P). split; [done|by right].
Qed.
Lemma backup_persists N fs fs' b m m' : preserved N fs fs' -> backup_at fs b m -> backup_at fs' b m' -> m' = m.
Proof.
  intros [P _] [(c & H1 & _ & H2) _ _ _ _ _] [(c' & H3 & _ & H4) _ _ _ _ _]. apply P in H1. congruence.
Qed.
Lemma restore_post_less {A A'} (answer : BackupManifest -> IntegrityReport -> A) (answer' : BackupManifest -> IntegrityReport -> A')
    c b dst s r r' s' : (forall a', r' = Ok a' -> exists a, r = Ok a) ->
  (forall a' m rep, r' = Ok a' -> r = Ok (answer m rep) -> backup_at (files s) b m -> a' = answer' m rep) ->
  restore_post answer c b dst s r s' -> restore_post answer' c b dst s r' s'.
Proof.
  intros H1 H2 (D & R & H). split; [done|]. split; [done|]. destruct H as [(m & rep & Hb & Hf & Hat & Hh & Ha)|[Hr Hn]].
  - left. exists m, rep. split_and!; try done. intros a' Hr'. destruct (H1 a' Hr') as [a E]. pose proof (Ha a E) as ->. by apply (H2 a' m rep).
  - right. split; [|done]. intros a' Hr'. destruct (H1 a' Hr') as [a E]. by destruct (Hr a).
Qed.

Lemma restore_all_or_nothing_spec b dst c s : wp (restore b dst c)
  (restore_post (fun m rep => mkRestoreResult (bm_archive_instance_id m) (bm_owner_namespace m) (Z.of_nat (length (bm_blobs m))) rep) c b dst s) s.
Proof.
  unfold restore. apply wp_bind. eapply wp_mono; [|apply verify_spec]. intros [v|e] s1 (D1 & P1 & V1); cbn [then_wp]; [|apply restore_refused; auto].
  destruct (V1 v eq_refl) as (m & g0 & rep0 & fs0 & Hb & _ & ->). cbn [verification_of bv_integrity].
  destruct (healthy rep0); cbn [negb]; [|apply wp_throw, restore_refused; auto].
  destruct (decide (dst = [])) as [->|Hd]; [apply wp_bind, wp_bind, wp_lift; by apply restore_refused; auto|].
  assert (Pl : forall fs, preserved (leftover (parent dst)) (files s1) fs -> preserved (any_leftover b dst) (files s) fs).
  { intros fs P. eapply preserved_trans; (eapply preserved_mono; [|eassumption]); [by left|by right]. }
  apply wp_bind. eapply wp_mono; [|apply validate_restore_destination_spec]. intros [[]|e] s2 (D2 & P2 & _); cbn [then_wp].
  2: { apply restore_refused; [done|congruence|]. right. auto. }
  specialize (Pl _ P2). assert (D02 : db s2 = db s) by congruence.
  apply wp_bind. eapply wp_mono; [|apply validate_backup_spec]. intros [m'|e] s3 [-> Hm']; cbn [then_wp]; [|by apply restore_refused; auto].
  pose proof (backup_persists _ _ _ _ _ _ Pl Hb Hm') as ->.
  apply wp_bind, wp_lift. unfold parent_or_current. destruct dst as [|x dst]; [done|]. cbn [ok_or then_wp]. set (d0 := x :: dst) in *.
  apply wp_bind, with_staging_wp.
  - intros e s3 D3 H3. cbn [then_wp]. apply restore_refused; [done|congruence|]. right. split; [done|]. eapply preserved_trans; [exact Pl|].
    eapply preserved_mono; [|by apply dirs_preserved]. intros p y ?. by right.
  - intros g s3 D3 Hs. eapply wp_mono; [|apply (restore_staged_spec (files s) b d0 c m g)].
    + intros r s4 H4 s5 H5. assert (H : restore_post (fun _ rep => rep) c b d0 s r s5) by (eapply (restored_post_move c b d0 m g s s2 s3); [done|congruence|exact Pl|exact Hb|exact Hs|exact H4|exact H5]).
      destruct r as [rep|e]; cbn [then_wp]; [apply wp_ret|]; (eapply restore_post_less; [| |exact H]); [by eauto| |done|done].
      intros a' m' rep' [= <-] [= <-] Hb'. by rewrite <-(backup_persists _ _ _ _ _ _ (preserved_refl (any_leftover b d0) _) Hb Hb').
    + apply Hs.
    + by eapply staging_fresh.
    + done.
    + intros p y Hp. eapply staging_entries; [exact Hs|]. by apply Pl.
Qed.

(** C20: restoring never leaves the destination half written: the backup, and
    every other file there was, stays; either the destination holds the archive
    of a valid backup — its database, and every blob the manifest announces, in
    one rename — under the backup's identity and with a healthy survey of just
    that copy, whether or not the last call reported success, or it holds
    nothing it did not hold before; success is reported only in the first case. *)
Theorem restore_all_or_nothing b dst c s : wp (restore b dst c)
  (restore_post (fun m rep => mkRestoreResult (bm_archive_instance_id m) (bm_owner_namespace m) (Z.of_nat (length (bm_blobs m))) rep) c b dst s) s.
Proof. apply restore_all_or_nothing_spec. Qed.
End Restoration.
