(* ===== verification/Survival.v ===== *)
(** A backup that [create] reports is one that [validate_backup] accepts, and
    restoring it gives the archive back. *)
From stdpp Require Import prelude strings gmap sorting list.
From Stdlib Require Import ZArith Ascii Lia.
From Stdlib.Strings Require Import Byte.
From S2P Require Import Prelude Errors Contract Externals Validation Chunks Fingerprint Pagination.
From S2P Require Import Config Tables Store Storage Uploads Completion Deletion Recovery Archive Download Delivery Integrity.
From S2P Require Import Scanning Certification Bootstrap Disk Backup Safekeeping Attestation Restoration.

Section Survival.
Context `{EV : Env} `{UL : UuidLib} `{TL : TimeLib} `{ML : MimeLib} `{SL : ShaLib} {SLaws : ShaLaws SL} `{ZL : ZstdLib} `{JL : JsonLib}
  `{FS : FileStamps} `{SC : SqliteChecks} `{SA : SocketAddrs} `{HO : Host} `{SQ : SqliteFiles}
  `{BJ : BackupJson} {BLaws : BackupJsonLaws BJ} `{GA : Gate}.

(** *** The names a backup announces *)

Lemma digest_value_document v : digest_value (digest_document v) = validate_raw_digest v.
Proof.
  unfold digest_value, digest_document. by rewrite (proj2 (strip_prefix_Some "sha256:" ("sha256:" +:+ v) v) eq_refl).
Qed.
Lemma sha256_hex_raw content : validate_raw_digest (sha256_hex content) = Some (sha256_hex content).
Proof.
  apply validate_raw_digest_Some. split; [done|]. unfold sha256_hex.
  destruct (hex_digest_spec _ (byte_values_bound (sha256 content))) as (_ & Hl & Hh). split.
  - unfold str_len. rewrite <-length_chars, Hl. unfold byte_values. by rewrite length_fmap, sha256_length.
  - by apply forallb_true.
Qed.
Lemma shard_of_raw dg : validate_raw_digest dg = Some dg ->
  is_shard_name (of_chars (take 2 (chars dg))) = true /\ is_Some (strip_prefix (of_chars (take 2 (chars dg))) dg).
Proof.
  intros (_ & Hl & Hh)%validate_raw_digest_Some. unfold str_len in Hl. rewrite <-length_chars in Hl. split.
  - unfold is_shard_name, str_len. rewrite <-length_chars, chars_of_chars, length_take, Nat.min_l by lia. simpl.
    rewrite forallb_true in *. intros c Hc. apply Hh. rewrite <-(take_drop 2 (chars dg)). apply elem_of_app. by left.
  - exists (of_chars (drop 2 (chars dg))). apply strip_prefix_Some. apply (inj chars). by rewrite chars_app, !chars_of_chars, take_drop.
Qed.

(** The rows come in ascending order, each digest once. *)
Lemma ascending_copied fs0 data_dir b fs rows entries : Forall2 (fun row e => blob_copied fs0 data_dir b row e fs) rows entries ->
  StronglySorted blob_row_le rows -> NoDup (Blob.stored_sha256 <$> rows) ->
  forall prior, (forall previous, prior = Some previous -> forall row, row ∈ rows -> ~ String.le (Blob.stored_sha256 row) previous) ->
  ascending_entries prior entries = Ok tt.
Proof.
  induction 1 as [|row e rows entries [Hd _ -> _] _ IH]; intros Hs Hn prior Hp; [done|].
  inversion Hs as [|? ? Hs' Hle]; subst. rewrite fmap_cons, NoDup_cons in Hn. destruct Hn as [Hnew Hn]. cbn [ascending_entries be_sha256 be_filename].
  rewrite digest_value_document, Hd. cbn [ok_or res_bind]. rewrite (proj2 (eqs_true _ _) eq_refl). cbn [negb orb].
  assert (Hno : (match prior with Some previous => bool_decide (String.le (Blob.stored_sha256 row) previous) | None => false end) = false).
  { destruct prior as [previous|]; [|done]. apply bool_decide_eq_false. apply (Hp previous eq_refl). left. }
  rewrite Hno. apply IH; [done..|]. intros previous [= <-] row' Hin Hback. rewrite Forall_forall in Hle. apply Hnew.
  apply list_elem_of_fmap. exists row'. split; [|done]. apply (anti_symm String.le); [by apply Hle|done].
Qed.
Lemma backup_rows_sorted d : StronglySorted blob_row_le (backup_blob_rows d).
Proof.
  assert (Transitive blob_row_le) by (intros x y z; unfold blob_row_le; by etrans).
  assert (Total blob_row_le) by (intros x y; apply String.le_total).
  apply Sorted_StronglySorted; [done|]. unfold backup_blob_rows. apply Sorted_merge_sort, _.
Qed.
(** *** The tree of a backup *)

Section Tree.
Context (fs0 fs : Files) (data_dir b : path) (d : Db) (m : BackupManifest) (Hw : written fs0 data_dir d b m fs).

Lemma written_rows row : row ∈ blobs d -> exists e, e ∈ bm_blobs m /\ blob_copied fs0 data_dir b row e fs.
Proof.
  intros Hr. rewrite <-(merge_sort_Permutation blob_row_le (blobs d)) in Hr.
  apply list_elem_of_lookup in Hr as [i Hi]. destruct (Forall2_lookup_l _ _ _ _ _ (wr_blobs _ _ _ _ _ _ Hw) Hi) as (e & He & Hc).
  exists e. split; [|done]. by eapply list_elem_of_lookup_2.
Qed.
Lemma written_entries e : e ∈ bm_blobs m -> exists row, row ∈ blobs d /\ blob_copied fs0 data_dir b row e fs.
Proof.
  intros Hr. apply list_elem_of_lookup in Hr as [i Hi]. destruct (Forall2_lookup_r _ _ _ _ _ (wr_blobs _ _ _ _ _ _ Hw) Hi) as (row & Hrow & Hc).
  exists row. split; [|done]. rewrite <-(merge_sort_Permutation blob_row_le (blobs d)). by eapply list_elem_of_lookup_2.
Qed.
Lemma entry_row e dg : e ∈ bm_blobs m -> digest_value (be_sha256 e) = Some dg ->
  exists row, row ∈ blobs d /\ blob_copied fs0 data_dir b row e fs /\ dg = Blob.stored_sha256 row.
Proof.
  intros (row & Hr & Hc)%written_entries Ed. exists row. split_and!; [done..|]. destruct Hc as [Hd _ -> _].
  cbn [be_sha256] in Ed. rewrite digest_value_document in Ed. congruence.
Qed.
(** Every file of the backup is one of these. *)
Lemma written_names name rest : is_Some (fs !! (b ++ name :: rest)) ->
  (name = MANIFEST_FILE_NAME /\ rest = []) \/ (name = DATABASE_FILE_NAME /\ rest = [])
  \/ (name = "blobs"%string /\ (rest = [] \/ rest = ["sha256"%string]
      \/ exists row, row ∈ blobs d /\ "blobs"%string :: rest `prefix_of` blob_path (Blob.stored_sha256 row))).
Proof.
  assert (Hone : forall x, toward [x] (name :: rest) -> name = x /\ rest = []).
  { unfold toward, below. intros x Hb. apply bool_decide_eq_true in Hb as [k E]. simplify_eq/=. by destruct rest. }
  intros Hx. destruct (wr_only _ _ _ _ _ _ Hw _ Hx) as [?|[Hq|[Hq|[Hq|(row & Hin & Hq)]]]]; [done|..].
  - right; right. unfold toward, below in Hq. apply bool_decide_eq_true in Hq as [k E]. simplify_eq/=. split; [done|].
    destruct rest as [|y [|z rest]]; simplify_eq/=; auto.
  - right; left. by apply Hone.
  - left. by apply Hone.
  - right; right. unfold toward, below in Hq. apply bool_decide_eq_true in Hq. pose proof Hq as [k E]. unfold blob_path in E. simplify_eq/=.
    split; [done|]. right; right. exists row. split; [|done]. by rewrite <-(merge_sort_Permutation blob_row_le (blobs d)).
Qed.
Lemma row_file row : row ∈ blobs d -> regular fs (b ++ blob_path (Blob.stored_sha256 row)).
Proof. intros (e & _ & [_ _ _ (c & _ & H & _)])%written_rows. by exists c. Qed.
Lemma row_raw row : row ∈ blobs d -> validate_raw_digest (Blob.stored_sha256 row) = Some (Blob.stored_sha256 row).
Proof. intros (e & _ & [H _ _ _])%written_rows. done. Qed.

(** The two levels of the shards. *)
Lemma shard_entry name : name ∈ entry_names (sha256_of b) fs <->
  exists row, row ∈ blobs d /\ name = of_chars (take 2 (chars (Blob.stored_sha256 row))).
Proof.
  rewrite elem_of_entry_names. unfold sha256_of. split.
  - intros (rest & Hx). rewrite <-app_assoc in Hx. apply written_names in Hx as [[? _]|[[? _]|(_ & [?|[?|(row & Hr & Hp)]])]]; try done.
    exists row. split; [done|]. destruct Hp as [k E]. unfold blob_path in E. by simplify_eq/=.
  - intros (row & Hr & ->). exists [Blob.stored_sha256 row]. rewrite <-app_assoc. destruct (row_file row Hr) as [c Hc]. by exists (Regular c).
Qed.
Lemma digest_entry name dg : dg ∈ entry_names (sha256_of b ++ [name]) fs <->
  exists row, row ∈ blobs d /\ dg = Blob.stored_sha256 row /\ name = of_chars (take 2 (chars dg)).
Proof.
  rewrite elem_of_entry_names. unfold sha256_of. split.
  - intros (rest & Hx). rewrite <-!app_assoc in Hx. apply written_names in Hx as [[? _]|[[? _]|(_ & [?|[?|(row & Hr & Hp)]])]]; try done.
    exists row. split; [done|]. destruct Hp as [k E]. unfold blob_path in E. by simplify_eq/=.
  - intros (row & Hr & -> & ->). exists []. rewrite <-!app_assoc. destruct (row_file row Hr) as [c Hc]. by exists (Regular c).
Qed.
Lemma written_tree : blob_tree fs b.
Proof.
  split_and!.
  - apply is_dir_in_true. left. apply (wr_dirs _ _ _ _ _ _ Hw).
  - intros name (rest & Hx)%elem_of_entry_names. rewrite <-app_assoc in Hx.
    apply written_names in Hx as [[? _]|[[? _]|(_ & [?|[?|(row & Hr & Hp)]])]]; try done; [congruence|].
    destruct Hp as [k E]. unfold blob_path in E. by simplify_eq/=.
  - intros name (row & Hr & ->)%shard_entry. destruct (shard_of_raw _ (row_raw row Hr)) as [Hs _]. split_and!; [done|..].
    + apply is_dir_in_true. right. exists (Blob.stored_sha256 row), []. destruct (row_file row Hr) as [c Hc]. exists (Regular c).
      unfold sha256_of. by rewrite <-!app_assoc.
    + intros dg (row' & Hr' & -> & ->)%digest_entry. split_and!; [by apply row_raw|by apply shard_of_raw, row_raw|].
      unfold sha256_of. rewrite <-!app_assoc. by apply row_file.
Qed.
Lemma written_inventory dg : digest_in_tree fs b dg <-> exists e, e ∈ bm_blobs m /\ digest_value (be_sha256 e) = Some dg.
Proof.
  unfold digest_in_tree. split.
  - intros (name & _ & (row & Hr & -> & _)%digest_entry). destruct (written_rows row Hr) as (e & He & [Hd _ -> _]). eexists. split; [done|].
    cbn [be_sha256]. by rewrite digest_value_document.
  - intros (e & He & Ed). destruct (entry_row e dg He Ed) as (row & Hr & _ & ->). exists (of_chars (take 2 (chars (Blob.stored_sha256 row)))).
    split; [apply shard_entry|apply digest_entry]; eauto.
Qed.
End Tree.
(** The counters of a run are SQLite integers. *)
Definition counts_fit (r : IntegrityRun.row) : Prop :=
  IntegrityRun.finding_count r <= i64_max /\ IntegrityRun.info_count r <= i64_max
  /\ IntegrityRun.warning_count r <= i64_max /\ IntegrityRun.error_count r <= i64_max.
(** What a source has for its backup to be restorable: an identity as
    [initialize_identity] draws it, each digest once, a migrated database,
    counters of 64 bits, and times that are not printed as nothing. *)
Record source_sound (d : Db) : Prop := {
  ss_identity : forall identity, head (archive_metadata d) = Some identity -> parse_str (ArchiveMetadata.archive_instance_id identity) <> None
    /\ ArchiveMetadata.owner_namespace identity <> "" /\ ArchiveMetadata.created_at identity <> "";
  ss_digests : NoDup (Blob.stored_sha256 <$> blobs d);
  ss_schema : forall v, latest_migration = Some v -> 0 < v <= i64_max;
  ss_runs : forall r, r ∈ integrity_runs d -> counts_fit r;
  ss_clock : forall t x, format_rfc3339 t = Some x -> x <> "";
}.
Lemma health_row_typed d row h : (forall x, x ∈ integrity_runs d -> counts_fit x) -> latest_run d = Some row -> health_row row = Some h ->
  health_typed h.
Proof.
  intros Hc Hr H. assert (Hin : row ∈ integrity_runs d).
  { unfold latest_run in Hr. apply head_Some_elem_of in Hr. rewrite merge_sort_Permutation in Hr. apply elem_of_select in Hr as [_ ?]. done. }
  destruct (Hc row Hin) as (? & ? & ? & ?). unfold health_row in H. repeat (apply bind_Some in H as (? & ? & H)). injection H as <-.
  unfold i64_max in *. repeat match goal with H : i64_to_u64 _ = Some _ |- _ => apply i64_to_u64_Some in H as [-> ?] end.
  unfold health_typed, is_u64, u64_max. cbn. lia.
Qed.
Definition manifest_bytes (m : BackupManifest) : Z := byte_len (to_vec_pretty m ++ [x0a]).
Lemma written_typed fs0 data_dir d b m fs : source_sound d -> written fs0 data_dir d b m fs -> manifest_typed m.
Proof.
  intros [_ _ Hv Hrun _] Hw. split_and!.
  - rewrite (proj1 (wr_version _ _ _ _ _ _ Hw)). done.
  - rewrite (proj1 (wr_version _ _ _ _ _ _ Hw)). done.
  - destruct (Hv (bm_schema_version m)) as [? _]; [apply (wr_version _ _ _ _ _ _ Hw)|]. unfold i64_min. lia.
  - by apply Hv, (wr_version _ _ _ _ _ _ Hw).
  - destruct (wr_database _ _ _ _ _ _ Hw) as (n & _ & -> & Hu). split; [apply Nat2Z.is_nonneg|exact Hu].
  - apply Forall_forall. intros e (row & _ & [_ Hz -> _])%(written_entries _ _ _ _ _ _ Hw). exact Hz.
  - intros h Hh. pose proof (wr_health _ _ _ _ _ _ Hw) as H. destruct (latest_run d) as [row|] eqn:El; [|congruence].
    destruct H as (h' & Hr & E). assert (h' = h) as -> by congruence. by eapply health_row_typed.
Qed.
Lemma written_shape fs0 data_dir d b m fs : source_sound d -> written fs0 data_dir d b m fs -> validate_manifest_shape m = Ok tt.
Proof.
  intros [Hi Hn Hv _ Ht] Hw. unfold validate_manifest_shape. destruct (wr_version _ _ _ _ _ _ Hw) as (E1 & E2 & E3).
  destruct (wr_identity _ _ _ _ _ _ Hw) as (identity & Eid & E4 & E5 & E6). destruct (Hi _ Eid) as (H1 & H2 & H3).
  destruct (wr_created _ _ _ _ _ _ Hw) as (t & E7). destruct (wr_database _ _ _ _ _ _ Hw) as (n & _ & E8 & _).
  rewrite E1, E2, E4, E5, E6, E8. cbn [bf_filename bf_sha256]. rewrite digest_value_document, sha256_hex_raw.
  rewrite bool_decide_eq_false_2, !(proj2 (eqs_false _ _)) by eauto. rewrite (proj2 (Z.leb_gt _ _)) by (by apply Hv).
  cbn -[ascending_entries].
  eapply ascending_copied; [apply (wr_blobs _ _ _ _ _ _ Hw)|apply backup_rows_sorted| |done].
  unfold backup_blob_rows. by rewrite (merge_sort_Permutation blob_row_le (blobs d)).
Qed.
Lemma written_valid fs0 data_dir d b m fs : source_sound d -> manifest_bytes m <= MAX_MANIFEST_BYTES ->
  written fs0 data_dir d b m fs -> backup_at fs b m.
Proof.
  intros Hs Hz Hw. destruct (wr_database _ _ _ _ _ _ Hw) as (n & Hdb & Ebm & Hu). split.
  - eexists. split; [apply (wr_manifest _ _ _ _ _ _ Hw)|]. split; [done|]. apply from_slice_to_vec. by eapply written_typed.
  - apply shaped_Ok. by eapply written_shape.
  - intros name. rewrite elem_of_entry_names. split.
    + intros (rest & Hx). apply (written_names _ _ _ _ _ _ Hw) in Hx. naive_solver.
    + intros [-> | [-> | ->]]; [exists []; rewrite (wr_manifest _ _ _ _ _ _ Hw)|exists []; rewrite Hdb|
        exists ["sha256"%string]; rewrite (wr_dirs _ _ _ _ _ _ Hw)]; by eexists.
  - exists (sha256_hex (image n d)). rewrite Ebm. cbn [bf_sha256 bf_size_bytes]. rewrite digest_value_document, sha256_hex_raw. split; [done|].
    by exists (image n d).
  - by eapply written_tree.
  - by eapply written_inventory.
  - intros e dg He Ed. destruct (entry_row _ _ _ _ _ _ Hw e dg He Ed) as (row & Hr & [_ Hz' -> (c & _ & Hc & Hm)] & ->).
    exists c. cbn [be_size_bytes]. split_and!; [done..|]. destruct Hm as [-> _]. apply Hz'.
Qed.
(** C22: a backup reported as created is restorable: of a sound source, the
    validation accepts it, and returns its manifest when no call fails, if the
    manifest has at most [MAX_MANIFEST_BYTES]; a longer one is written all the
    same, and no validation ever accepts that backup. *)
Theorem created_backup_validates data_dir output s : source_sound (db s) ->
  wp (create data_dir output) (fun r s' => forall a, r = Ok a -> exists m, a = result_of m /\
    if manifest_bytes m <=? MAX_MANIFEST_BYTES
    then backup_at (files s') output m /\ ((forall k, fails k = None) -> wp (validate_backup output) (fun r' s2 => s2 = s' /\ r' = Ok m) s')
    else wp (validate_backup output) (fun r' s2 => s2 = s' /\ r' = Err BackupError.Manifest) s') s.
Proof.
  intros Hs. eapply wp_mono; [|apply create_all_or_nothing_spec]. intros r s' (_ & _ & H) a ->.
  destruct H as [(m & Hw & Ha)|[Hno _]]; [|by destruct (Hno a)]. exists m. split; [auto|].
  destruct (Z.leb_spec (manifest_bytes m) MAX_MANIFEST_BYTES) as [Hz|Hz].
  - assert (Hb : backup_at (files s') output m) by (by eapply written_valid). split; [done|]. intros Hc.
    eapply wp_mono; [|apply validate_backup_spec]. intros [m'|e] s2 [-> H]; (split; [done|]).
    + by rewrite (backup_persists (fun _ _ => False) _ _ _ _ _ (preserved_refl _ _) Hb H).
    + destruct H as [_ H]. by destruct (H Hc m).
  - eapply wp_mono; [|apply validate_backup_spec]. intros [m'|e] s2 [-> H]; (split; [done|]); [|by destruct H as [-> _]].
    exfalso. destruct (ba_manifest _ _ _ H) as (c & Hc & Hl & _). rewrite (wr_manifest _ _ _ _ _ _ Hw) in Hc. injection Hc as <-.
    unfold manifest_bytes, byte_len in Hz. lia.
Qed.

(** *** From the source to the restored archive *)

(** The archive of the store [s], at [dst]. *)
Record archive_again (data_dir : path) (s : Store) (dst : path) (fs : Files) : Prop := {
  ag_tables : exists n d, fs !! (dst ++ [DATABASE_FILE_NAME]) = Some (Regular (image n d)) /\ archive_of d = archive_of (db s);
  ag_blobs : forall row, row ∈ blobs (db s) -> exists content,
    files s !! (data_dir ++ blob_path (Blob.stored_sha256 row)) = Some (Regular content)
    /\ fs !! (dst ++ blob_path (Blob.stored_sha256 row)) = Some (Regular content)
    /\ measures content (Blob.stored_size_bytes row) (Blob.stored_sha256 row);
  ag_only : forall q, is_Some (fs !! (dst ++ q)) -> q = [] \/ q = [DATABASE_FILE_NAME]
    \/ (exists row, row ∈ blobs (db s) /\ toward (blob_path (Blob.stored_sha256 row)) q) \/ is_Some (service_files !! q);
}.
Lemma restored_again c s fs1 data_dir b dst m m' rep fs : source_sound (db s) -> (forall n, load (image n (db s)) = Some (db s)) ->
  written (files s) data_dir (db s) b m fs1 -> backup_at fs1 b m' -> restored_at c fs1 b dst m' rep fs ->
  m' = m /\ archive_again data_dir s dst fs.
Proof.
  intros Hs Hl Hw Hb (g & t & d & d' & n & Hcopy & Hsv & Hfs & Hdb).
  assert (m' = m) as ->.
  { destruct (ba_manifest _ _ _ Hb) as (x & Hx & _ & Em). rewrite (wr_manifest _ _ _ _ _ _ Hw) in Hx. injection Hx as <-.
    rewrite from_slice_to_vec in Em; [congruence|]. by eapply written_typed. }
  split; [done|]. destruct (ac_database _ _ _ _ _ Hcopy) as (x & Hx & Ht & Hld).
  destruct (wr_database _ _ _ _ _ _ Hw) as (k & Hk & _). rewrite Hk in Hx. injection Hx as <-. rewrite Hl in Hld. injection Hld as <-. split.
  - exists n, d'. split; [done|]. destruct (sv_scanned _ _ _ _ _ _ Hsv) as [Hn Ht' _]. rewrite Ht', Hn; [by destruct (db s)|].
    destruct (wr_identity _ _ _ _ _ _ Hw) as (identity & Hi & _). by destruct (archive_metadata (db s)).
  - intros row Hr. destruct (written_rows _ _ _ _ _ _ Hw row Hr) as (e & He & [Hd _ -> (x & H1 & H2 & H3)]). exists x.
    destruct (ac_blobs _ _ _ _ _ Hcopy _ (Blob.stored_sha256 row) He) as (y & H4 & H5 & _).
    { cbn [be_sha256]. by rewrite digest_value_document. }
    split_and!; [done| |done]. rewrite Hfs by done. apply lookup_union_Some_l. congruence.
  - intros q Hq. destruct (decide (q = [DATABASE_FILE_NAME])) as [->|Hne]; [by right; left|]. rewrite Hfs in Hq by done.
    apply lookup_union_is_Some in Hq as [Hq|Hq]; [|by do 3 right].
    destruct (ac_only _ _ _ _ _ Hcopy q Hq) as [->|[Hn|(e & dg & He & Ed & Hn)]]; [by left| |].
    + unfold toward, below in Hn. apply bool_decide_eq_true in Hn as [k' E]. destruct q as [|y [|z q]]; simplify_eq/=; auto.
    + destruct (entry_row _ _ _ _ _ _ Hw e dg He Ed) as (row & Hr & _ & ->). right; right; left. by exists row.
Qed.

(** C17: the way there and back. When a backup of a sound source is created
    and then restored elsewhere, the source database is unchanged, and a
    reported success means: the restored archive has the tables of the source
    and for each blob row the bytes of the file of the source, nothing else but
    the directories and the lock file of a service,
    carries the identity of the source, and was surveyed healthy. *)
Theorem restored_backup_is_archive data_dir b dst c s : source_sound (db s) -> (forall n, load (image n (db s)) = Some (db s)) ->
  wp (create data_dir b &; restore b dst c) (fun r s' => db s' = db s /\ forall a, r = Ok a ->
    archive_again data_dir s dst (files s') /\ rep_status (br_integrity a) = Healthy
    /\ br_blob_count a = Z.of_nat (length (blobs (db s)))
    /\ exists identity, head (archive_metadata (db s)) = Some identity
         /\ br_archive_instance_id a = ArchiveMetadata.archive_instance_id identity
         /\ br_owner_namespace a = ArchiveMetadata.owner_namespace identity) s.
Proof.
  intros Hs Hl. apply wp_bind. eapply wp_mono; [|apply create_all_or_nothing_spec]. intros r s1 (D1 & _ & H1).
  destruct r as [a1|e]; cbn [then_wp]; [|done]. destruct H1 as [(m & Hw & _)|[Hno _]]; [|by destruct (Hno a1)].
  eapply wp_mono; [|apply restore_all_or_nothing_spec]. intros r s2 (D2 & _ & H2). split; [congruence|]. intros a ->.
  destruct H2 as [(m' & rep & Hb & _ & Hat & Hh & Ha)|[Hno _]]; [|by destruct (Hno a)]. rewrite (Ha a eq_refl).
  destruct (restored_again _ _ _ _ _ _ _ _ _ _ Hs Hl Hw Hb Hat) as [-> Hag]. cbn [br_integrity br_blob_count br_archive_instance_id br_owner_namespace].
  split_and!; [done|done| |].
  - rewrite <-(Forall2_length _ _ _ (wr_blobs _ _ _ _ _ _ Hw)). unfold backup_blob_rows. by rewrite (merge_sort_Permutation blob_row_le (blobs (db s))).
  - destruct (wr_identity _ _ _ _ _ _ Hw) as (identity & ? & ? & ? & _). by exists identity.
Qed.
End Survival.
