(* ===== verification/Resumption.v ===== *)
(** A restored archive goes on: it is as sound as its source, shows the same
    catalogue, and a server starts on it. *)
From stdpp Require Import prelude strings gmap sorting list.
From Stdlib Require Import ZArith Ascii Lia.
From Stdlib.Strings Require Import Byte.
From S2P Require Import Prelude Errors Contract Externals Validation Chunks Fingerprint Pagination.
From S2P Require Import Tables Store Storage Uploads Receipts Completion Deletion Recovery Archive Invariants Visibility Ledger Restart.
From S2P Require Import Catalogue System Download Delivery Integrity Scanning Certification Config Apart Bootstrap.
From S2P Require Import Disk Backup Safekeeping Attestation Restoration Survival.

Section Resumption.
Context `{EV : Env} `{UL : UuidLib} {ULaws : UuidLaws UL} `{TL : TimeLib} `{ML : MimeLib} `{SL : ShaLib} {SLaws : ShaLaws SL}
  `{ZL : ZstdLib} `{JL : JsonLib} {JLaws : JsonLaws JL} `{FS : FileStamps} `{SC : SqliteChecks} `{SA : SocketAddrs} `{HO : Host}
  `{SQ : SqliteFiles} `{BJ : BackupJson} {BLaws : BackupJsonLaws BJ} `{GA : Gate}.

Lemma idle_closed d : active_uploads d = 0 -> forall up, up ∈ uploads d -> status_open (Upload.status up) = false.
Proof.
  intros Hi up Hup. unfold active_uploads in Hi. destruct (status_open (Upload.status up)) eqn:E; [|done]. exfalso.
  assert (Hin : up ∈ select (fun u => eqs (Upload.status u) "created" || eqs (Upload.status u) "artifact_uploaded") (uploads d)).
  { apply elem_of_select. split; [exact E|done]. }
  destruct (select _ _); [by apply elem_of_nil in Hin|]. cbn in Hi. lia.
Qed.
(** What a server relies on, in another place: the tables of the archive are the
    same, no upload is open, and the files of the blobs are there. *)
Lemma restartable_moved st s t : archive_of (db t) = archive_of (db s) -> (drawn s <= drawn t)%nat ->
  (forall up, up ∈ uploads (db s) -> status_open (Upload.status up) = false) ->
  (forall row content, row ∈ blobs (db s) -> files s !! blob_path (Blob.stored_sha256 row) = Some (Regular content) ->
     files t !! blob_path (Blob.stored_sha256 row) = Some (Regular content)) ->
  restartable st s -> restartable st t.
Proof.
  intros E Hd Hidle Hfiles ((Hc & [A1 A2 A3 A4 A5] & Hm) & Hw & Hl).
  assert (Eu : uploads (db t) = uploads (db s)) by exact (f_equal uploads E).
  assert (Ech : upload_chunks (db t) = upload_chunks (db s)) by exact (f_equal upload_chunks E).
  assert (Eb : stored_blobs (db t) = stored_blobs (db s)) by exact (f_equal stored_blobs E).
  assert (Ea : artifact_rows (db t) = artifact_rows (db s)) by exact (f_equal artifact_rows E).
  assert (Es : snapshots (db t) = snapshots (db s)) by exact (f_equal snapshots E).
  assert (Em : manifests (db t) = manifests (db s)) by exact (f_equal manifests E).
  split; [split_and!|split].
  - intros r. unfold uploads_of. rewrite Ech, Eu. intros Hr. destruct (Hc r Hr) as [H1 _]. split; [exact H1|].
    intros (up & Hin & Ho)%existsb_exists. apply list_elem_of_In, elem_of_select in Hin as [_ Hin].
    pose proof (Hidle up Hin). congruence.
  - split; rewrite ?Eb, ?Ea; try done.
    + intros a Ha. unfold live_snapshot_by_id. rewrite Es. by apply A4.
    + intros a Ha. destruct (A5 a Ha) as (b & Hb & H1 & (content & Hf & Hms) & Hx). exists b. split; [done|]. split_and!; [done| |done].
      exists content. split; [|done]. pose proof Hb as (row & -> & Hrow)%list_elem_of_fmap. by apply Hfiles.
  - by apply (manifests_sound_eq s).
  - destruct Hw as [W1 W2 W3]. unfold artifacts_of in *. split; unfold artifacts_of; by rewrite ?Ea, ?Es.
  - destruct t as [d f n]. apply (ledger_same d s); [|done|done]. split.
    + exact (f_equal upload_ids E).
    + exact (f_equal audit_ids E).
Qed.
(** The service on the directory [dir] of a host: its tables, and its files below. *)
Definition service_at (dir : path) (d : Db) (k : nat) (fs : Files) : Store := mkStore d (subtree dir fs) k.

(** C18: a restored archive goes on where the source was. Let the source be an
    archive that a server reached, its files below the data directory of the
    host, and let its backup be created and restored. When the restore reports
    success, the service on the destination is as sound as the one on the
    source and shows the same catalogue, and a server that starts on it, with
    any configuration and whatever fails, keeps that catalogue and the identity;
    so what holds of every reached archive holds of the restored one. *)
Theorem restored_archive_resumes st c' data_dir b dst c s0 s :
  limits_typed (manifest_limits st) -> Storage.owner_namespace st = OWNER_NAMESPACE -> reachable st s0 ->
  db s = db s0 -> (forall q x, files s0 !! q = Some x -> files s !! (data_dir ++ q) = Some x) ->
  source_sound (db s) -> named (db s) -> (forall n, load (image n (db s)) = Some (db s)) -> config_typed c' ->
  wp (create data_dir b &; restore b dst c) (fun r s' => forall a, r = Ok a ->
    exists n d, files s' !! (dst ++ [DATABASE_FILE_NAME]) = Some (Regular (image n d)) /\ forall k, (drawn s0 <= k)%nat ->
      let t := service_at dst d k (files s') in
      restartable st t /\ catalogue (db t) = catalogue (db s0) /\ archive_metadata (db t) = archive_metadata (db s0)
      /\ forall EV' : Env, wp (bootstrap (H:=EV') c') (starts c' t) t) s.
Proof.
  intros Hst Ho Hs0 Ed Hfiles Hsound Hnamed Hl Hc'. apply wp_bind. eapply wp_mono; [|apply create_all_or_nothing_spec].
  intros r s1 (D1 & _ & H1). destruct r as [a1|e]; cbn [then_wp]; [|done].
  destruct H1 as [(m & Hw & _)|[Hno _]]; [|by destruct (Hno a1)].
  eapply wp_mono; [|apply restore_all_or_nothing_spec]. intros r s2 (D2 & _ & H2) a ->.
  destruct H2 as [(m' & rep & Hb & _ & Hat & _)|[Hno _]]; [|by destruct (Hno a)].
  destruct (restored_again _ _ _ _ _ _ _ _ _ _ Hsound Hl Hw Hb Hat) as [_ [(n & d & Hdb & Ha) Hblobs _]].
  exists n, d. split; [exact Hdb|]. intros k Hk. cbn zeta. set (t := service_at dst d k (files s2)).
  assert (Em : archive_metadata d = archive_metadata (db s)) by exact (f_equal archive_metadata Ha).
  assert (Hr : restartable st t).
  { apply (restartable_moved st s0); [by rewrite <-Ed|exact Hk| | |by apply reachable_restartable].
    - rewrite <-Ed. apply idle_closed, (wr_idle _ _ _ _ _ _ Hw).
    - rewrite <-Ed. intros row content Hrow Hf. destruct (Hblobs row Hrow) as (x & Hx & Hd & _). rewrite (Hfiles _ _ Hf) in Hx.
      injection Hx as <-. cbn [t service_at files]. by rewrite subtree_lookup. }
  split_and!; [exact Hr| | |].
  - rewrite <-Ed. exact (f_equal catalogue Ha).
  - by rewrite <-Ed.
  - intros EV'. apply (bootstrap_wp (EV:=EV')); [done|by unfold named in *; cbn [t service_at db]; rewrite Em|].
    intros st' Ho'. by apply (restartable_owner st); [congruence|].
Qed.
End Resumption.
