(* ===== verification/Feasibility.v ===== *)
(** A backup of an archive at rest succeeds: what [create] needs, and that this
    is enough when no call fails. *)
From stdpp Require Import prelude strings gmap sorting list.
From Stdlib Require Import ZArith Ascii Lia.
From Stdlib.Strings Require Import Byte.
From S2P Require Import Prelude Errors Contract Externals Validation Chunks Fingerprint Pagination.
From S2P Require Import Config Tables Store Storage Uploads Completion Deletion Recovery Archive Download Integrity Bootstrap Disk Backup.
From S2P Require Import Safekeeping Attestation.

Section Calm.
Context `{EV : Env} `{UL : UuidLib} `{TL : TimeLib} `{ML : MimeLib} `{SL : ShaLib} `{ZL : ZstdLib} `{JL : JsonLib}
  `{FS : FileStamps} `{SC : SqliteChecks} `{SA : SocketAddrs} `{HO : Host} `{SQ : SqliteFiles} `{BJ : BackupJson} `{GA : Gate}.
Context (Hcalm : calm).

(** *** Calls that do not fail *)

Section Rules.
Context {E : Type}.
Implicit Types (s : Store) (e : E) (p : path).

Lemma rest_operation {A} (err : SqlxError -> E) (k : M E A) (Q : res E A -> Store -> Prop) s : wp k Q s -> wp (operation err k) Q s.
Proof. intros H n. unfold operation. rewrite Hcalm. apply H. Qed.
Lemma rest_call err (Q : res BackupError unit -> Store -> Prop) s : Q (Ok tt) s -> wp (host_call err) Q s.
Proof. intros H n. unfold host_call, operation. by rewrite Hcalm. Qed.
Lemma rest_now (Q : res E OffsetDateTime -> Store -> Prop) s : (forall k, Q (Ok (clock k)) s) -> wp now Q s.
Proof. intros H n. apply H. Qed.
Lemma rest_sync e (Q : res E unit -> Store -> Prop) s : Q (Ok tt) s -> wp (sync e) Q s.
Proof. intros H n. unfold sync, operation. by rewrite Hcalm. Qed.
Lemma rest_query {A} (err : SqlxError -> E) (f : Db -> A) (Q : res E A -> Store -> Prop) s : Q (Ok (f (db s))) s -> wp (query err f) Q s.
Proof. intros H n. unfold query, operation. rewrite Hcalm. exact H. Qed.
Lemma rest_regular p (Q : res E bool -> Store -> Prop) s b : files s !! p = Some (Regular b) -> Q (Ok true) s -> wp (is_regular_file p) Q s.
Proof. intros Hp H n. unfold is_regular_file. by rewrite Hcalm, Hp. Qed.
Lemma rest_read e p (Q : res E (list bytes * bool) -> Store -> Prop) s b : files s !! p = Some (Regular b) -> Q (Ok ([b], true)) s -> wp (read_file e p) Q s.
Proof. intros Hp H. apply rest_operation. intros n. cbn [fst snd]. by rewrite Hp, Hcalm. Qed.
Lemma rest_directory p (Q : res E bool -> Store -> Prop) s : is_dir_in (files s) p = true -> Q (Ok true) s -> wp (is_directory p) Q s.
Proof. intros Hp H n. unfold is_directory. by rewrite Hcalm, Hp. Qed.
Lemma rest_no_path p (Q : res E bool -> Store -> Prop) s : exists_in (files s) p = false -> Q (Ok false) s -> wp (path_exists p) Q s.
Proof.
  intros Hp H n. unfold path_exists. rewrite Hcalm. pose proof (proj1 (exists_in_false _ _) Hp []) as Hno. rewrite app_nil_r in Hno.
  by rewrite Hno, Hp.
Qed.
Lemma rest_canonical e p (Q : res E path -> Store -> Prop) s : exists_in (files s) p = true -> Q (Ok p) s -> wp (canonicalize e p) Q s.
Proof. intros Hp H. apply rest_operation. intros n. cbn [fst snd]. by rewrite Hp. Qed.
Lemma rest_create e p (Q : res E unit -> Store -> Prop) s : files s !! p = None ->
  Q (Ok tt) (mkStore (db s) (<[p := Regular []]> (files s)) (drawn s)) -> wp (create_new e p) Q s.
Proof. intros Hp H. apply rest_operation. intros n. cbn [fst snd]. by rewrite Hp. Qed.
Lemma rest_write e p data (Q : res E unit -> Store -> Prop) s b : files s !! p = Some (Regular b) ->
  Q (Ok tt) (mkStore (db s) (<[p := Regular (b ++ data)]> (files s)) (drawn s)) -> wp (write_all e p data) Q s.
Proof. intros Hp H. apply rest_operation. intros n. cbn [fst snd]. by rewrite Hp. Qed.
Lemma rest_link src dst (Q : res E LinkResult -> Store -> Prop) s x : files s !! src = Some x -> files s !! dst = None ->
  Q (Ok Linked) (mkStore (db s) (<[dst := x]> (files s)) (drawn s)) -> wp (hard_link src dst) Q s.
Proof. intros Hs Hd H n. unfold hard_link. by rewrite Hcalm, Hs, Hd. Qed.

(** The way is free when nothing on it is a file. *)
Definition way (p : path) (fs : Files) : Prop := forall q, q <> [] -> below q p = true -> fs !! q = None \/ fs !! q = Some Directory.
Lemma dirs_from_way todo : forall made fs, (forall q, q <> [] -> below q (made ++ todo) = true -> fs !! q = None \/ fs !! q = Some Directory) ->
  exists fs', dirs_from made todo fs = Some fs'.
Proof.
  induction todo as [|c todo IH]; intros made fs Hw; simpl; [eauto|].
  assert (Ea : made ++ c :: todo = (made ++ [c]) ++ todo) by by rewrite <-app_assoc. rewrite Ea in Hw.
  destruct (Hw (made ++ [c])) as [-> | ->]; [by destruct made|apply below_app| |by apply IH].
  apply IH. intros q Hq Hb. destruct (decide (q = made ++ [c])) as [->|Hne]; [right; by rewrite lookup_insert_eq|].
  rewrite lookup_insert_ne by done. by apply Hw.
Qed.
Lemma rest_make_dirs e p (Q : res E unit -> Store -> Prop) s : way p (files s) ->
  (forall fs, dirs_made p (files s) fs -> (forall q, q <> [] -> below q p = true -> fs !! q = Some Directory) -> Q (Ok tt) (mkStore (db s) fs (drawn s))) ->
  wp (make_dir_all e p) Q s.
Proof.
  intros Hw H n. unfold make_dir_all. rewrite Hcalm. destruct (dirs_from_way p [] (files s) Hw) as [fs Ed]. rewrite Ed. cbn [fst snd].
  apply dirs_from_made in Ed as [Hd Hp]. apply H; [done|]. intros q Hq Hb. apply Hp; [done|]. by destruct q.
Qed.
End Rules.

Lemma rest_hash p (Q : res BackupError FileDigest -> Store -> Prop) s b : files s !! p = Some (Regular b) -> byte_len b <= u64_max ->
  Q (Ok (mkFileDigest (byte_len b) (sha256_hex b))) s -> wp (hash_regular_file p) Q s.
Proof.
  intros Hp Hb H. unfold hash_regular_file. apply wp_bind, (rest_regular _ _ _ b); [done|]. cbn [then_wp negb].
  apply wp_bind, (rest_read _ _ _ _ b); [done|]. cbn [then_wp negb concat]. rewrite app_nil_r.
  unfold checked_add_u64. rewrite Z.add_0_l, (proj2 (Z.leb_le _ _) Hb). apply wp_bind, wp_lift. cbn [ok_or then_wp]. by apply wp_ret.
Qed.
Lemma rest_database err p (Q : res BackupError unit -> Store -> Prop) s :
  (forall n, Q (Ok tt) (mkStore (db s) (<[p := Regular (image n (db s))]> (files s)) (drawn s))) -> wp (write_database err p) Q s.
Proof. intros H n. unfold write_database. rewrite Hcalm. apply H. Qed.
(* ------------------------------------------------------------------ *)
(** ** In the staging directory *)

Section Staging.
Context (g data_dir : path) (Hoff : forall p, below g (data_dir ++ p) = false).

(** Room for the blobs of these rows, whose files are at the source. *)
Record room (rows : list Blob.row) (fs : Files) : Prop := {
  rm_way : forall p, p <> [] -> below p g = true -> fs !! p = Some Directory;
  rm_dirs : forall r, head r = Some "blobs"%string -> (length r <= 3)%nat -> fs !! (g ++ r) = None \/ fs !! (g ++ r) = Some Directory;
  rm_blobs : forall row, row ∈ rows -> fs !! (g ++ blob_path (Blob.stored_sha256 row)) = None;
  rm_sources : forall row, row ∈ rows -> exists c, fs !! (data_dir ++ blob_path (Blob.stored_sha256 row)) = Some (Regular c)
    /\ measures c (Blob.stored_size_bytes row) (Blob.stored_sha256 row) /\ byte_len c <= u64_max;
}.
Definition blobs_dir : path := g ++ ["blobs"%string].
Definition elsewhere (fs fs' : Files) : Prop := forall p, below blobs_dir p = false -> fs' !! p = fs !! p.
Lemma elsewhere_trans fs1 fs2 fs3 : elsewhere fs1 fs2 -> elsewhere fs2 fs3 -> elsewhere fs1 fs3.
Proof. intros H1 H2 p Hp. by rewrite H2, H1. Qed.
Lemma not_blobs p : below p g = true -> below blobs_dir p = false.
Proof.
  intros [k1 E1]%bool_decide_eq_true. apply bool_decide_eq_false. unfold blobs_dir. intros [k2 E2].
  apply (f_equal length) in E1, E2. rewrite !length_app in E1. rewrite !length_app in E2. simpl in E2. lia.
Qed.
Lemma source_elsewhere p : below blobs_dir (data_dir ++ p) = false.
Proof.
  destruct (below blobs_dir (data_dir ++ p)) eqn:E; [|done]. rewrite <-(Hoff p). symmetry. eapply below_trans; [|exact E]. apply below_app.
Qed.
Lemma blobs_below r : head r = Some "blobs"%string -> below blobs_dir (g ++ r) = true.
Proof. destruct r as [|x r]; [done|]. intros [= ->]. unfold blobs_dir. change (g ++ "blobs"%string :: r) with (g ++ ["blobs"%string] ++ r). rewrite app_assoc. apply below_app. Qed.

(** Directories for a blob, and the blob. *)
Lemma room_way rows fs q : room rows fs -> head q = Some "blobs"%string -> (length q <= 3)%nat -> way (g ++ q) fs.
Proof.
  intros Hr Hq Hl p Hp [k E]%bool_decide_eq_true. destruct (below p g) eqn:Eg; [right; by apply (rm_way _ _ Hr)|].
  assert (Hgp : below g p = true).
  { apply bool_decide_eq_true. apply bool_decide_eq_false in Eg. destruct (prefix_weak_total p g (g ++ q)) as [?|?]; [by exists k|by exists q|done|done]. }
  apply below_inv in Hgp as [r ->]. rewrite <-app_assoc in E. apply app_inv_head in E. subst q.
  destruct r as [|x r]; [rewrite app_nil_r in Eg; pose proof (toward_self g) as Hg; unfold toward in Hg; congruence|]. apply (rm_dirs _ _ Hr); [done|]. rewrite length_app in Hl. simpl in *. lia.
Qed.
Lemma dirs_elsewhere fs fs' q rows : room rows fs -> head q = Some "blobs"%string -> dirs_made (g ++ q) fs fs' -> elsewhere fs fs'.
Proof.
  intros Hr Hq Hd p Hp. destruct (Hd p) as [?|(E1 & E2 & [k E]%bool_decide_eq_true & Hn)]; [done|]. exfalso.
  destruct (below p g) eqn:Eg; [rewrite (rm_way _ _ Hr) in E1; congruence|].
  assert (Hgp : below g p = true).
  { apply bool_decide_eq_true. apply bool_decide_eq_false in Eg. destruct (prefix_weak_total p g (g ++ q)) as [?|?]; [by exists k|by exists q|done|done]. }
  apply below_inv in Hgp as [r ->]. rewrite <-app_assoc in E. apply app_inv_head in E. subst q.
  destruct r as [|x r]; [rewrite app_nil_r in Eg; pose proof (toward_self g) as Hg; unfold toward in Hg; congruence|]. rewrite blobs_below in Hp; [done|exact Hq].
Qed.
Lemma rest_copy_blob source q size dg s c : way (g ++ removelast q) (files s) -> q <> [] -> files s !! source = Some (Regular c) ->
  files s !! (g ++ q) = None -> measures c size dg -> byte_len c <= u64_max ->
  wp (copy_blob source (g ++ q) size dg) (fun r s' => r = Ok tt /\ db s' = db s
    /\ exists fs, dirs_made (g ++ removelast q) (files s) fs /\ files s' = <[g ++ q := Regular c]> fs) s.
Proof.
  intros Hw Hq Hs Hno [<- <-] Hu. unfold copy_blob, parent. rewrite removelast_app_r by done.
  apply wp_bind, (rest_regular _ _ _ c); [done|]. cbn [then_wp negb].
  apply wp_bind, rest_make_dirs; [done|]. intros fs Hd _. cbn [then_wp].
  pose proof (dirs_made_keeps _ _ _ _ _ Hd Hs) as Hs1.
  assert (Hno1 : fs !! (g ++ q) = None).
  { destruct (Hd (g ++ q)) as [->|(_ & _ & [k E]%bool_decide_eq_true & _)]; [done|]. exfalso.
    rewrite (app_removelast_last "" Hq) in E at 2. apply (f_equal length) in E. rewrite !length_app in E. simpl in E. lia. }
  apply wp_bind, wp_bind, (rest_link _ _ _ _ (Regular c)); [done|done|]. cbn [then_wp].
  unfold verify_hard_link. apply wp_bind, rest_call. cbn [then_wp]. apply rest_call. cbn [then_wp].
  apply wp_bind, (rest_hash _ _ _ c); [by cbn [files]; rewrite lookup_insert_eq|done|]. cbn [then_wp size_bytes digest].
  rewrite Z.eqb_refl, (proj2 (eqs_true _ _) eq_refl). cbn [negb orb]. apply rest_sync. split_and!; [done..|]. by exists fs.
Qed.
Lemma room_after row rows fs fs' c : NoDup (Blob.stored_sha256 <$> row :: rows) -> room (row :: rows) fs ->
  dirs_made (g ++ removelast (blob_path (Blob.stored_sha256 row))) fs fs' ->
  room rows (<[g ++ blob_path (Blob.stored_sha256 row) := Regular c]> fs')
  /\ elsewhere fs (<[g ++ blob_path (Blob.stored_sha256 row) := Regular c]> fs').
Proof.
  intros Hn Hr Hd. rewrite fmap_cons, NoDup_cons in Hn. destruct Hn as [Hnew _].
  assert (He : elsewhere fs (<[g ++ blob_path (Blob.stored_sha256 row) := Regular c]> fs')).
  { intros p Hp. rewrite lookup_insert_ne; [by apply (dirs_elsewhere fs fs' (removelast (blob_path (Blob.stored_sha256 row))) (row :: rows))|]. intros <-. by rewrite blobs_below in Hp. }
  split; [|exact He]. split.
  - intros p Hp Hb. rewrite He by by apply not_blobs. by apply (rm_way _ _ Hr).
  - intros r Hh Hl. rewrite lookup_insert_ne; [|intros <-%(inj (app g)); simpl in Hl; lia].
    destruct (Hd (g ++ r)) as [->|(_ & -> & _)]; [|by right]. by apply (rm_dirs _ _ Hr).
  - intros row' Hin. rewrite lookup_insert_ne.
    + destruct (Hd (g ++ blob_path (Blob.stored_sha256 row'))) as [->|(_ & _ & [k E]%bool_decide_eq_true & _)]; [apply (rm_blobs _ _ Hr); by right|].
      exfalso. apply (f_equal length) in E. rewrite !length_app in E. simpl in E. lia.
    + intros E%(inj (app g)). apply blob_path_inj in E. apply Hnew. rewrite E. by apply list_elem_of_fmap_2.
  - intros row' Hin. rewrite He by apply source_elsewhere. apply (rm_sources _ _ Hr). by right.
Qed.
Lemma rest_copy_blobs rows : NoDup (Blob.stored_sha256 <$> rows) ->
  (forall row, row ∈ rows -> validate_raw_digest (Blob.stored_sha256 row) = Some (Blob.stored_sha256 row) /\ 0 <= Blob.stored_size_bytes row) ->
  forall s, room rows (files s) -> wp (copy_blobs (data_dir ++ ["blobs"%string]) g rows)
    (fun r s' => (exists entries, r = Ok entries) /\ db s' = db s /\ elsewhere (files s) (files s')) s.
Proof.
  induction rows as [|row rows IH]; intros Hn Hrows s Hr; cbn [copy_blobs]; [apply wp_ret; split_and!; [eauto|done|by intros p _]|].
  destruct (Hrows row) as [Ed Ez]; [left|]. apply wp_bind, wp_lift. rewrite Ed. cbn [ok_or then_wp].
  apply wp_bind, wp_lift. rewrite (proj2 (i64_to_u64_Some _ _) (conj eq_refl Ez)). cbn [ok_or then_wp].
  rewrite (join_blob g _ _ Ed), <-app_assoc. change (["blobs"%string] ++ ["sha256"%string; _; _]) with (blob_path (Blob.stored_sha256 row)).
  destruct (rm_sources _ _ Hr row) as (c & Hc & Hm & Hu); [left|].
  apply wp_bind. eapply wp_mono; [|apply (rest_copy_blob _ _ _ _ _ c); [by eapply room_way|done|done|apply (rm_blobs _ _ Hr); left|done|done]].
  intros r s1 (-> & D1 & fs & Hd & E1). cbn [then_wp]. destruct (room_after row rows (files s) fs c Hn Hr Hd) as [Hr1 He1]. rewrite <-E1 in Hr1, He1.
  apply wp_bind. eapply wp_mono; [|apply IH; [by apply NoDup_cons in Hn as [_ ?]|intros x Hx; apply Hrows; by right|exact Hr1]].
  intros r s2 ((entries & ->) & D2 & E2). cbn [then_wp]. apply wp_ret. split_and!; [eauto|congruence|by eapply elsewhere_trans].
Qed.
(** Other names of the staging directory. *)
Lemma room_insert rows fs q x : head q <> Some "blobs"%string -> q <> [] -> room rows fs -> room rows (<[g ++ q := x]> fs).
Proof.
  intros Hh Hq Hr. split.
  - intros p Hp Hb. rewrite lookup_insert_ne; [by apply (rm_way _ _ Hr)|]. intros <-. apply bool_decide_eq_true in Hb as [k E].
    apply (f_equal length) in E. rewrite !length_app in E. destruct q; [done|]. simpl in E. lia.
  - intros r Hr' Hl. rewrite lookup_insert_ne by (intros ->%(inj (app g)); done). by apply (rm_dirs _ _ Hr).
  - intros row Hin. rewrite lookup_insert_ne by (intros ->%(inj (app g)); by apply Hh). by apply (rm_blobs _ _ Hr).
  - intros row Hin. rewrite lookup_insert_ne; [by apply (rm_sources _ _ Hr)|]. intros E.
    pose proof (below_app g q) as Hb. rewrite E, Hoff in Hb. done.
Qed.
Lemma room_made rows fs fs' q : head q = Some "blobs"%string -> (length q <= 3)%nat -> dirs_made (g ++ q) fs fs' -> room rows fs ->
  room rows fs' /\ elsewhere fs fs'.
Proof.
  intros Hq Hl Hd Hr. pose proof (dirs_elsewhere _ _ _ _ Hr Hq Hd) as He. split; [|done]. split.
  - intros p Hp Hb. rewrite He by by apply not_blobs. by apply (rm_way _ _ Hr).
  - intros r Hh Hl'. destruct (Hd (g ++ r)) as [->|(_ & -> & _)]; [by apply (rm_dirs _ _ Hr)|by right].
  - intros row Hin. destruct (Hd (g ++ blob_path (Blob.stored_sha256 row))) as [->|(_ & _ & [k E]%bool_decide_eq_true & _)]; [by apply (rm_blobs _ _ Hr)|].
    exfalso. apply (f_equal length) in E. rewrite !length_app in E. simpl in E. lia.
  - intros row Hin. rewrite He by apply source_elsewhere. by apply (rm_sources _ _ Hr).
Qed.
Lemma elsewhere_outside fs fs' : elsewhere fs fs' -> outside g fs fs'.
Proof.
  intros He p Hp. apply He. destruct (below blobs_dir p) eqn:Eb; [|done]. rewrite <-Hp. symmetry. eapply below_trans; [|exact Eb]. apply below_app.
Qed.
Lemma elsewhere_at fs fs' q : elsewhere fs fs' -> head q <> Some "blobs"%string -> fs' !! (g ++ q) = fs !! (g ++ q).
Proof.
  intros He Hq. apply He. apply bool_decide_eq_false. intros [k E]. unfold blobs_dir in E. rewrite <-app_assoc in E. apply app_inv_head in E. by subst q.
Qed.

(** The directory at its final name. *)
Lemma rest_finalize output s : output <> [] -> files s !! g = Some Directory -> (forall q, files s !! (output ++ q) = None) ->
  below g output = false -> below output g = false -> wp (staging_finalize g output) (fun r _ => r = Ok tt) s.
Proof.
  intros Ho Hg Hno H1 H2. unfold staging_finalize. apply wp_bind, rest_no_path; [by apply exists_in_false|]. cbn [then_wp].
  unfold sync_directory. apply wp_bind, rest_sync. cbn [then_wp]. apply wp_bind.
  assert (Hr : wp (rename_dir BackupError.Storage g output) (fun r _ => r = Ok tt) s).
  { apply rest_operation. intros n. assert (Hd : is_dir_in (files s) g = true) by (apply is_dir_in_true; by left).
    rewrite Hd, H1, H2. pose proof (Hno []) as Hn. rewrite app_nil_r in Hn. rewrite (bool_decide_eq_true_2 _ (or_introl Hn)).
    rewrite bool_decide_eq_true_2; [done|]. apply no_entries. intros q _. apply Hno. }
  eapply wp_mono; [|exact Hr]. intros r s' ->. cbn [then_wp]. apply wp_bind, wp_lift.
  destruct output as [|x output]; [done|]. cbn [ok_or parent_or_current then_wp]. by apply rest_sync.
Qed.
Lemma rest_create_staged output archive version rows health s : (forall k, is_Some (format_rfc3339 (clock k))) ->
  (forall n, byte_len (image n (db s)) <= u64_max) -> NoDup (Blob.stored_sha256 <$> rows) ->
  (forall row, row ∈ rows -> validate_raw_digest (Blob.stored_sha256 row) = Some (Blob.stored_sha256 row) /\ 0 <= Blob.stored_size_bytes row) ->
  room rows (files s) -> fresh g (files s) -> output <> [] -> (forall q, files s !! (output ++ q) = None) ->
  below g output = false -> below output g = false ->
  wp (create_staged (data_dir ++ ["blobs"%string]) output archive version rows health g) (fun r _ => exists m, r = Ok m) s.
Proof.
  intros Htime Himage Hn Hrows Hr [Hg Hf] Ho Hout H1 H2. unfold create_staged.
  apply wp_bind, rest_make_dirs; [apply (room_way rows); [done|done|simpl; lia]|]. intros fs1 Hd1 _. cbn [then_wp].
  destruct (room_made rows (files s) fs1 ["blobs"; "sha256"]%string) as [Hr1 He1]; [done|(simpl; lia)|done|done|].
  apply wp_bind. unfold online_sqlite_backup. do 3 (apply wp_bind, rest_call; cbn [then_wp]).
  do 2 (apply wp_bind, rest_database; intros ?X; cbn [then_wp db files drawn]). apply rest_database. intros k. cbn [then_wp db files drawn].
  rewrite !insert_insert_eq. set (fs2 := <[_ := _]> fs1). assert (Hr2 : room rows fs2) by (by apply room_insert).
  apply wp_bind, (rest_hash _ _ _ (image k (db s))); [by cbn [files]; unfold fs2; rewrite lookup_insert_eq|done|]. cbn [then_wp].
  apply wp_bind. eapply wp_mono; [|by apply rest_copy_blobs]. intros r s3 ((entries & ->) & D3 & E3). cbn [then_wp files] in *.
  apply wp_bind, rest_now. intros n. cbn [then_wp]. destruct (Htime n) as [text Et].
  apply wp_bind, wp_lift. rewrite Et. cbn [ok_or then_wp]. set (m := mkBackupManifest _ _ _ _ _ _ _ _ _ _).
  assert (Hno : files s3 !! (g ++ [MANIFEST_FILE_NAME]) = None).
  { rewrite (elsewhere_at _ _ _ E3) by done. unfold fs2. rewrite lookup_insert_ne by (intros E%(inj (app g)); done).
    rewrite (elsewhere_at _ _ _ He1) by done. by apply Hf. }
  apply wp_bind. unfold write_manifest. apply wp_bind, rest_create; [done|]. cbn [then_wp].
  apply wp_bind, (rest_write _ _ _ _ _ []); [by cbn [files]; rewrite lookup_insert_eq|]. cbn [then_wp files db drawn].
  apply wp_bind, (rest_write _ _ _ _ _ (to_vec_pretty m)); [by cbn [files]; rewrite lookup_insert_eq|]. cbn [then_wp files db drawn].
  apply rest_sync. cbn [then_wp]. rewrite !insert_insert_eq. set (s4 := mkStore _ _ _).
  assert (Hoth : forall p, below g p = false -> files s4 !! p = files s !! p).
  { intros p Hp. cbn [s4 files]. rewrite (outside_insert g) by done. rewrite (elsewhere_outside _ _ E3) by done. unfold fs2.
    rewrite (outside_insert g) by done. by apply elsewhere_outside. }
  apply wp_bind. eapply wp_mono; [|apply rest_finalize; try done].
  - intros r s5 ->. cbn [then_wp]. apply wp_ret. eauto.
  - cbn [s4 files]. rewrite lookup_insert_ne by (intros E; apply (f_equal length) in E; rewrite length_app in E; simpl in E; lia).
    rewrite <-(app_nil_r g), (elsewhere_at _ _ _ E3) by done. unfold fs2. rewrite lookup_insert_ne by (intros E%(inj (app g)); done).
    rewrite (elsewhere_at _ _ _ He1), app_nil_r by done. exact Hg.
  - intros q. rewrite Hoth; [apply Hout|]. destruct (below g (output ++ q)) eqn:Eb; [|done]. apply bool_decide_eq_true in Eb.
    apply bool_decide_eq_false in H1, H2. destruct (prefix_weak_total g output (output ++ q)) as [?|?]; [done|by exists q|done|done].
Qed.
End Staging.

(* ------------------------------------------------------------------ *)
(** ** [create] *)

(** What [create] needs: a name that is free beside directories, with no litter
    of an earlier run there, outside of the data directory; a source with its
    database and directories, an identity and no active upload; and for each
    blob row a file of the recorded size and digest. *)
Record ready (data_dir output : path) (s : Store) : Prop := {
  rd_output : output <> [];
  rd_free : exists_in (files s) output = false;
  rd_name : forall uuid, output <> parent output ++ [staging_name "backup" uuid];
  rd_clean : forall uuid q, files s !! (parent output ++ staging_name "backup" uuid :: q) = None;
  rd_way : way (parent output) (files s);
  rd_outside : below data_dir output = false;
  rd_database : regular (files s) (data_dir ++ [DATABASE_FILE_NAME]);
  rd_blob_root : is_dir_in (files s) (data_dir ++ ["blobs"%string]) = true;
  rd_maintenance : is_dir_in (files s) (data_dir ++ ["maintenance"%string]) = true;
  rd_idle : active_uploads (db s) = 0;
  rd_identity : is_Some (head (archive_metadata (db s)));
  rd_migrated : is_Some latest_migration;
  rd_health : forall row, latest_run (db s) = Some row -> is_Some (health_row row);
  rd_digests : NoDup (Blob.stored_sha256 <$> blobs (db s));
  rd_blobs : forall row, row ∈ blobs (db s) -> validate_raw_digest (Blob.stored_sha256 row) = Some (Blob.stored_sha256 row)
    /\ 0 <= Blob.stored_size_bytes row /\ exists c, files s !! (data_dir ++ blob_path (Blob.stored_sha256 row)) = Some (Regular c)
         /\ measures c (Blob.stored_size_bytes row) (Blob.stored_sha256 row) /\ byte_len c <= u64_max;
  rd_image : forall n, byte_len (image n (db s)) <= u64_max;
}.
Lemma dir_keeps fs fs' p : (forall q x, fs !! q = Some x -> fs' !! q = Some x) -> is_dir_in fs p = true -> is_dir_in fs' p = true.
Proof. intros K. rewrite !is_dir_in_true. intros [?|(name & rest & x & Hx)]; [left; auto|right; exists name, rest, x; auto]. Qed.
Lemma dir_above fs p q x : fs !! (p ++ q) = Some x -> q <> [] -> is_dir_in fs p = true.
Proof. intros Hx Hq. apply is_dir_in_true. right. destruct q as [|c q]; [done|]. exists c, q, x. done. Qed.
Lemma dir_exists fs p : is_dir_in fs p = true -> exists_in fs p = true.
Proof. intros Hd. unfold exists_in. by rewrite Hd, orb_true_r. Qed.
Lemma rest_staging_create parent purpose s : way parent (files s) -> (parent = [] -> is_dir_in (files s) [] = true) ->
  (forall uuid q, files s !! (parent ++ staging_name purpose uuid :: q) = None) ->
  wp (staging_create parent purpose) (fun r s' => exists g, r = Ok g /\ forall p, p <> [] -> below p g = true -> files s' !! p = Some Directory) s.
Proof.
  intros Hw Hroot Hc. unfold staging_create. apply wp_bind, rest_make_dirs; [done|]. intros fs Hd Hall. cbn [then_wp staging_attempts].
  apply wp_bind, wp_new_uuid. cbn [then_wp drawn db files]. set (g := parent ++ _). apply wp_bind.
  assert (Hno : exists_in fs g = false).
  { apply exists_in_false. intros q. unfold g. rewrite <-app_assoc. cbn [app].
    destruct (Hd (parent ++ staging_name purpose (now_v7 (drawn s)) :: q)) as [->|(_ & _ & [k E]%bool_decide_eq_true & _)]; [apply Hc|].
    exfalso. apply (f_equal length) in E. rewrite !length_app in E. simpl in E. lia. }
  assert (Hp : is_dir_in fs (Disk.parent g) = true).
  { unfold Disk.parent, g. rewrite removelast_last. destruct (decide (parent = [])) as [->|Hne].
    - eapply dir_keeps; [|by apply Hroot]. intros q x. by apply dirs_made_keeps with [].
    - apply is_dir_in_true. left. apply Hall; [done|]. apply toward_self. }
  intros n. unfold make_dir. rewrite Hcalm. cbn [files]. rewrite Hno, Hp. cbn [fst snd then_wp]. apply wp_ret. exists g. split; [done|].
  intros p Hne Hb. cbn [set_files files]. apply bool_decide_eq_true, prefix_snoc_cases in Hb as [->|Hb]; [by rewrite lookup_insert_eq|].
  rewrite lookup_insert_ne; [apply Hall; [done|by apply bool_decide_eq_true_2]|]. intros <-. destruct Hb as [k E]. apply (f_equal length) in E.
  unfold g in E. rewrite !length_app in E. simpl in E. lia.
Qed.
Lemma ready_made data_dir output s fs : ready data_dir output s -> dirs_made (parent output) (files s) fs ->
  ready data_dir output (mkStore (db s) fs (drawn s)).
Proof.
  intros [R1 R2 R3 R4 R5 R6 R7 R8 R9 R10 R11 R12 R13 R14 R15 R16] Hd.
  assert (K : forall q x, files s !! q = Some x -> fs !! q = Some x) by (intros q x; by apply dirs_made_keeps with (parent output)).
  assert (Hlong : forall p, (length (parent output) < length p)%nat -> fs !! p = files s !! p).
  { intros p Hl. destruct (Hd p) as [?|(_ & _ & [k E]%bool_decide_eq_true & _)]; [done|]. exfalso.
    apply (f_equal length) in E. rewrite length_app in E. lia. }
  assert (Elen : length output = S (length (parent output))).
  { rewrite (app_removelast_last "" R1) at 1. unfold parent. rewrite length_app. simpl. lia. }
  split; cbn [files db]; try done.
  - apply exists_in_false. intros q. rewrite Hlong; [by apply exists_in_false|]. rewrite length_app. lia.
  - intros uuid q. rewrite Hlong; [apply R4|]. rewrite length_app. simpl. lia.
  - intros q Hq Hb. destruct (Hd q) as [->|(_ & -> & _)]; [by apply R5|by right].
  - destruct R7 as [c Hc]. exists c. by apply K.
  - by eapply dir_keeps.
  - by eapply dir_keeps.
  - intros row Hr. destruct (R15 row Hr) as (H1 & H2 & c & Hc & Hx). split_and!; [done..|]. exists c. split; [by apply K|done].
Qed.
Lemma rest_fetch {E A} (err : SqlxError -> E) (f : Db -> option A) (Q : res E A -> Store -> Prop) s a : f (db s) = Some a -> Q (Ok a) s ->
  wp (fetch_one err f) Q s.
Proof. intros Hf H n. unfold fetch_one, operation. rewrite Hcalm. cbn [fst snd]. by rewrite Hf. Qed.
(** Before the staging directory: what [create] asks of the output and the source. *)
Lemma rest_validate_output data_dir output s (Q : res BackupError unit -> Store -> Prop) : ready data_dir output s ->
  (forall s1, ready data_dir output s1 -> is_dir_in (files s1) (parent output) = true -> Q (Ok tt) s1) -> wp (validate_new_output output) Q s.
Proof.
  intros Hr HQ. pose proof (rd_output _ _ _ Hr) as Ho. unfold validate_new_output.
  apply wp_bind, rest_no_path; [apply (rd_free _ _ _ Hr)|]. cbn [then_wp].
  assert (Hn : bool_decide (file_name output = None) = false).
  { apply bool_decide_eq_false. unfold file_name. rewrite (app_removelast_last "" Ho), last_snoc. done. }
  rewrite Hn. cbn [orb]. apply wp_bind, wp_lift. assert (Ep : parent_or_current output = Some (parent output)) by by destruct output.
  rewrite Ep. cbn [ok_or then_wp]. apply wp_bind, rest_make_dirs; [apply (rd_way _ _ _ Hr)|]. intros fs Hd Hall. cbn [then_wp].
  pose proof (ready_made _ _ _ _ Hr Hd) as Hr1.
  assert (Hdir : is_dir_in fs (parent output) = true).
  { destruct (decide (parent output = [])) as [->|Hne].
    - destruct (rd_database _ _ _ Hr1) as [c Hc]. eapply (dir_above _ [] (data_dir ++ [DATABASE_FILE_NAME])); [exact Hc|]. by destruct data_dir.
    - apply is_dir_in_true. left. apply Hall; [done|]. apply toward_self. }
  apply wp_bind, rest_directory; [exact Hdir|]. cbn [then_wp negb]. apply wp_ret. by apply HQ.
Qed.
Lemma rest_within data_dir output s (Q : res BackupError bool -> Store -> Prop) : ready data_dir output s ->
  is_dir_in (files s) (parent output) = true -> Q (Ok false) s -> wp (output_is_within_data_dir output data_dir) Q s.
Proof.
  intros Hr Hdir HQ. pose proof (rd_output _ _ _ Hr) as Ho. unfold output_is_within_data_dir.
  destruct (rd_database _ _ _ Hr) as [c Hc]. apply wp_bind, rest_canonical; [by eapply dir_exists, dir_above|]. cbn [then_wp].
  apply wp_bind, wp_lift. assert (Ep : parent_or_current output = Some (parent output)) by by destruct output. rewrite Ep. cbn [ok_or then_wp].
  apply wp_bind, rest_canonical; [by apply dir_exists|]. cbn [then_wp].
  assert (Ef : file_name output = Some (List.last output ""%string)).
  { unfold file_name. rewrite (app_removelast_last "" Ho) at 1. apply last_snoc. }
  apply wp_bind, wp_lift. rewrite Ef. cbn [ok_or then_wp]. apply wp_ret. unfold parent. rewrite <-(app_removelast_last "" Ho).
  by rewrite (rd_outside _ _ _ Hr).
Qed.
Lemma rest_source data_dir output s (Q : res BackupError (path * path) -> Store -> Prop) : ready data_dir output s ->
  Q (Ok (data_dir ++ [DATABASE_FILE_NAME], data_dir ++ ["blobs"%string])) s -> wp (source_paths data_dir) Q s.
Proof.
  intros Hr HQ. unfold source_paths. destruct (rd_database _ _ _ Hr) as [c Hc]. apply wp_bind, (rest_regular _ _ _ c); [done|]. cbn [then_wp].
  apply wp_bind, rest_directory; [apply (rd_blob_root _ _ _ Hr)|]. cbn [then_wp].
  apply wp_bind, rest_directory; [apply (rd_maintenance _ _ _ Hr)|]. cbn [then_wp negb]. by apply wp_ret.
Qed.
Lemma rest_health s (Q : res BackupError (option LatestIntegrityHealth) -> Store -> Prop) :
  (forall row, latest_run (db s) = Some row -> is_Some (health_row row)) -> (forall h, Q (Ok h) s) -> wp load_latest_integrity_health Q s.
Proof.
  intros Hh HQ. unfold load_latest_integrity_health. apply wp_bind, rest_query. cbn [then_wp].
  destruct (latest_run (db s)) as [row|]; [|by apply wp_ret]. destruct (Hh row eq_refl) as [h Eh].
  apply wp_bind, wp_lift. rewrite Eh. cbn [ok_or then_wp]. by apply wp_ret.
Qed.
Lemma rest_create_locked data_dir output s : (forall k, is_Some (format_rfc3339 (clock k))) -> ready data_dir output s ->
  is_dir_in (files s) (parent output) = true ->
  wp (create_locked (data_dir ++ ["blobs"%string]) output) (fun r _ => exists m, r = Ok (result_of m)) s.
Proof.
  intros Htime Hr Hdir. pose proof (rd_output _ _ _ Hr) as Ho. unfold create_locked.
  apply wp_bind, rest_query. cbn [then_wp]. rewrite (rd_idle _ _ _ Hr). cbn [Z.eqb negb].
  destruct (rd_identity _ _ _ Hr) as [archive Ea]. apply wp_bind, (rest_fetch _ _ _ _ archive); [exact Ea|]. cbn [then_wp].
  apply wp_bind, rest_query. cbn [then_wp]. destruct (rd_migrated _ _ _ Hr) as [version Ev]. rewrite Ev.
  apply wp_bind, wp_lift. cbn [ok_or then_wp]. apply wp_bind, rest_query. cbn [then_wp]. set (rows := backup_blob_rows (db s)).
  apply wp_bind, rest_health; [apply (rd_health _ _ _ Hr)|]. intros health. cbn [then_wp].
  apply wp_bind, rest_call. cbn [then_wp]. apply wp_bind, wp_lift.
  assert (Ep : parent_or_current output = Some (parent output)) by by destruct output. rewrite Ep. cbn [ok_or then_wp].
  apply wp_bind. unfold with_staging. apply wp_bind.
  eapply wp_mono; [|apply wp_and; [apply (staging_create_spec (parent output) "backup")|apply rest_staging_create;
    [apply (rd_way _ _ _ Hr)|intros E; by rewrite <-E|apply (rd_clean _ _ _ Hr)]]].
  intros r s1 [[D1 H1] (g & -> & Hway)]. cbn [then_wp]. rename H1 into Hs.
  destruct (rd_database _ _ _ Hr) as [c0 Hc0].
  pose proof (source_apart data_dir output "backup" (files s) g (files s1) Ho (dir_exists _ _ (dir_above _ _ _ _ Hc0 ltac:(done))) (rd_outside _ _ _ Hr) Hs) as Hoff.
  destruct (staging_fresh _ _ _ _ _ Hs) as [Hg Hf]. destruct (sm_name _ _ _ _ _ Hs) as [uuid Eg].
  assert (Hperm : rows ≡ₚ blobs (db s)) by apply merge_sort_Permutation.
  assert (Hrows : forall row, row ∈ rows -> row ∈ blobs (db s)) by (intros row; by rewrite Hperm).
  assert (Hroom : room g data_dir rows (files s1)).
  { split.
    - exact Hway.
    - intros q Hq _. left. apply Hf. by destruct q.
    - intros row _. by apply Hf.
    - intros row Hin. destruct (rd_blobs _ _ _ Hr row (Hrows row Hin)) as (_ & _ & c & Hc & Hm). exists c. split; [|done].
      by eapply staging_entries. }
  assert (Hlen : length output = length g).
  { rewrite Eg, (app_removelast_last "" Ho) at 1. unfold parent. rewrite !length_app. done. }
  assert (Hsame : forall p p' : path, length p = length p' -> below p p' = true -> p = p').
  { intros p p' Hl [k E]%bool_decide_eq_true. subst p'. rewrite length_app in Hl. destruct k; [by rewrite app_nil_r|simpl in Hl; lia]. }
  assert (Hne : g <> output) by (intros ->; by apply (rd_name _ _ _ Hr uuid)).
  apply wp_bind, wp_attempt. eapply wp_mono; [|apply (rest_create_staged g data_dir Hoff output archive version rows health s1)].
  - intros r s2 [m ->]. cbn [then_wp]. apply wp_ret. cbn [then_wp]. apply wp_ret. exists m. reflexivity.
  - exact Htime.
  - rewrite D1. apply (rd_image _ _ _ Hr).
  - rewrite Hperm. apply (rd_digests _ _ _ Hr).
  - intros row Hin. destruct (rd_blobs _ _ _ Hr row (Hrows row Hin)) as (? & ? & _). done.
  - exact Hroom.
  - by split.
  - exact Ho.
  - intros q. destruct (files s1 !! (output ++ q)) as [x|] eqn:Ex; [|done]. exfalso.
    destruct (staging_back _ _ _ _ _ _ _ Hs Ex) as [Hx|[Hb|(_ & Hb & _)]].
    + pose proof (proj1 (exists_in_false _ _) (rd_free _ _ _ Hr) q). congruence.
    + apply bool_decide_eq_true in Hb. apply Hne. destruct (prefix_weak_total g output (output ++ q)) as [H|H]; [done|by exists q| |];
        [|symmetry]; apply Hsame; try done; by apply bool_decide_eq_true_2.
    + by apply (on_the_way output (output ++ q)); [|apply below_app|].
  - destruct (below g output) eqn:Eb; [|done]. by apply Hsame in Eb.
  - destruct (below output g) eqn:Eb; [|done]. apply Hsame in Eb; [congruence|done].
Qed.
End Calm.

Section Theorems.
Context `{EV : Env} `{UL : UuidLib} `{TL : TimeLib} `{ML : MimeLib} `{SL : ShaLib} `{ZL : ZstdLib} `{JL : JsonLib}
  `{FS : FileStamps} `{SC : SqliteChecks} `{SA : SocketAddrs} `{HO : Host} `{SQ : SqliteFiles} `{BJ : BackupJson} `{GA : Gate}.

(** C23: a backup succeeds. When no call fails, the maintenance permit is granted
    and the clock can be printed, [create] reports success for every source that
    is ready: without active uploads, and with a file of the recorded size and
    digest for each blob row; and the complete backup is then at the output. *)
Theorem create_succeeds data_dir output s : (forall k, fails k = None) -> (forall k, gate_refuses k = None) ->
  (forall k, is_Some (format_rfc3339 (clock k))) -> ready data_dir output s ->
  wp (create data_dir output) (fun r s' => exists m, r = Ok (result_of m) /\ written (files s) data_dir (db s) output m (files s')) s.
Proof.
  intros Hcalm Hgate Htime Hr.
  assert (Hok : wp (create data_dir output) (fun r _ => exists m, r = Ok (result_of m)) s).
  { unfold create. apply wp_bind, (rest_validate_output Hcalm data_dir); [done|]. intros s1 Hr1 Hdir. cbn [then_wp].
    apply wp_bind, (rest_within Hcalm); [done|done|]. cbn [then_wp]. apply wp_bind, (rest_source Hcalm data_dir output); [done|]. cbn [then_wp].
    apply wp_bind, (rest_call Hcalm). cbn [then_wp].
    assert (Hg : forall (Q : res BackupError unit -> Store -> Prop) s0, Q (Ok tt) s0 -> wp gate Q s0) by (intros Q s0 H n; unfold gate; by rewrite Hgate).
    apply wp_bind, Hg. cbn [then_wp snd]. apply wp_bind, wp_attempt.
    eapply wp_mono; [|by apply (rest_create_locked Hcalm)]. intros r s2 [m ->]. cbn [then_wp].
    apply wp_bind, wp_attempt, Hg. cbn [then_wp]. apply wp_lift. by exists m. }
  eapply wp_mono; [|apply wp_and; [exact Hok|apply create_all_or_nothing_spec]].
  intros r s' [[m ->] (_ & _ & [(m' & Hw & Ha)|[Hno _]])]; [|by destruct (Hno (result_of m))]. exists m'. split; [|done].
  f_equal. by apply Ha.
Qed.
End Theorems.
