(* ===== verification/Cli.v ===== *)
(** The command line ([main.rs]): which command the arguments name, what it
    prints and the code it exits with.

    The store is the data directory's for the service and the scan, and the
    host's for the backup commands (Backup). What goes to standard output is a
    list of lines, each a document; the logs are left out. *)
From stdpp Require Import prelude strings gmap sorting list.
From Stdlib Require Import ZArith Ascii Lia.
From Stdlib.Strings Require Import Byte.
From S2P Require Import Prelude Errors Contract Externals Validation Chunks Fingerprint Pagination.
From S2P Require Import Config Tables Store Storage Uploads Completion Deletion Recovery Archive Download Delivery Integrity.
From S2P Require Import Scanning Certification Bootstrap Disk Backup Safekeeping Attestation Restoration.

(* ------------------------------------------------------------------ *)
(** ** Commands and what they print *)

Inductive Command : Type :=
| Serve
| Help
| PrintVersion
| Verify
| BackupCreate (output : string)
| BackupVerify (directory : string)
| BackupRestore (directory data_dir : string)
| UnknownCommand.

Definition command (arguments : list string) : Command :=
  match arguments with
  | [] => Serve
  | [command] =>
      if eqs command "serve" then Serve
      else if eqs command "--help" || eqs command "-h" || eqs command "help" then Help
      else if eqs command "--version" then PrintVersion
      else if eqs command "verify" then Verify
      else UnknownCommand
  | [backup; command; directory] =>
      if eqs backup "backup" && eqs command "verify" then BackupVerify directory else UnknownCommand
  | [backup; command; flag; output] =>
      if eqs backup "backup" && eqs command "create" && eqs flag "--output" then BackupCreate output else UnknownCommand
  | [backup; command; directory; flag; data_dir] =>
      if eqs backup "backup" && eqs command "restore" && eqs flag "--data-dir" then BackupRestore directory data_dir
      else UnknownCommand
  | _ => UnknownCommand
  end.

(** A line of standard output. *)
Inductive Line : Type :=
| UsageText
| VersionText (version : string)
| IntegrityLine (report : IntegrityReport)
| CreateLine (result : BackupCreateResult)
| VerifyLine (result : BackupVerification)
| RestoreLine (result : BackupRestoreResult)
| ScannerFailed (error_code : string)
| BackupFailed (error_code : string).
Record Outcome : Type := mkOutcome { stdout : list Line; usage_on_stderr : bool; exit_code : Z }.

(** The path a text names from the working directory, and whether [serde_json]
    can write a report. *)
Class Console := {
  locate : string -> path;
  serializes : Line -> bool;
}.

(* ------------------------------------------------------------------ *)
(** ** The commands *)

Section Commands.
Context `{Env} `{UuidLib} `{TimeLib} `{MimeLib} `{ShaLib} `{ZstdLib} `{JsonLib} `{FileStamps} `{SqliteChecks} `{SocketAddrs}.
Context `{Host} `{SqliteFiles} `{BackupJson} `{Gate} `{Console}.
(** An error is an early [std::process::exit]. *)
Abbreviation P := (M Outcome).

Definition stops {A} (lines : list Line) (code : Z) : P A := throw (mkOutcome lines false code).
Definition print_machine_error (code : string) : Line := ScannerFailed code.
Definition backup_failure {A} (code : string) : P A := stops [BackupFailed code] 2.
Definition print_json (value : Line) (error_code : string) : P (list Line) :=
  if serializes value then ret [value] else stops [print_machine_error error_code] 2.

(** [Config::from_env] *)
Definition from_env (vars : gmap string string) : res ConfigError.t Config :=
  from_values (filter (fun kv => is_Some (strip_prefix "PATWARI_" kv.1)) vars).
Definition backup_config (vars : gmap string string) : P Config :=
  match from_env vars with
  | Ok config => ret config
  | Err _ => stops [print_machine_error "configuration_error"] 2
  end.

Definition backup_create (vars : gmap string string) (output : string) : P Outcome :=
  let! config := backup_config vars in
  let! result := attempt (create (locate (Config.data_dir config)) (locate output)) in
  match result with
  | Ok result => let! lines := print_json (CreateLine result) "backup_report_serialization_error" in ret (mkOutcome lines false 0)
  | Err _ => backup_failure "backup_create_failed"
  end.
Definition backup_verify (vars : gmap string string) (directory : string) : P Outcome :=
  let! config := backup_config vars in
  let! result := attempt (Backup.verify (locate directory) config) in
  match result with
  | Ok result =>
      let! lines := print_json (VerifyLine result) "backup_report_serialization_error" in
      ret (mkOutcome lines false (if healthy (bv_integrity result) then 0 else 1))
  | Err _ => backup_failure "backup_verify_failed"
  end.
Definition backup_restore (vars : gmap string string) (directory data_dir : string) : P Outcome :=
  let! config := backup_config vars in
  let config := set_data_dir data_dir config in
  match validate config with
  | Err _ => stops [print_machine_error "configuration_error"] 2
  | Ok _ =>
      let! result := attempt (restore (locate directory) (locate data_dir) config) in
      match result with
      | Ok result => let! lines := print_json (RestoreLine result) "backup_report_serialization_error" in ret (mkOutcome lines false 0)
      | Err _ => backup_failure "backup_restore_failed"
      end
  end.

Definition verify (vars : gmap string string) : P Outcome :=
  match from_env vars with
  | Err _ => stops [print_machine_error "configuration_error"] 2
  | Ok config =>
      let! service := attempt (bootstrap_for_integrity config) in
      match service with
      | Err _ => stops [print_machine_error "bootstrap_error"] 2
      | Ok (service, _) =>
          let! report := attempt (verify_integrity service) in
          match report with
          | Ok report =>
              let! lines := print_json (IntegrityLine report) "report_serialization_error" in
              ret (mkOutcome lines false (if healthy report then 0 else 1))
          | Err _ => stops [print_machine_error "scan_error"] 2
          end
      end
  end.

(** [serve]: the requests between the start and the end are the steps of System. *)
Definition serve_archive (config : Config) : M BootstrapError unit :=
  let! _ := bootstrap config in
  step_of_start BootstrapError.Bind &;
  step_of_start BootstrapError.Serve.
Definition main (vars : gmap string string) (arguments : list string) : P Outcome :=
  match command arguments with
  | Help => ret (mkOutcome [UsageText] false 0)
  | PrintVersion => ret (mkOutcome [VersionText CARGO_PKG_VERSION] false 0)
  | Verify => verify vars
  | BackupCreate output => backup_create vars output
  | BackupVerify directory => backup_verify vars directory
  | BackupRestore directory data_dir => backup_restore vars directory data_dir
  | UnknownCommand => throw (mkOutcome [print_machine_error "invalid_command"] true 2)
  | Serve =>
      match from_env vars with
      | Err _ => stops [] 1
      | Ok config =>
          let! ended := attempt (serve_archive config) in
          match ended with Ok _ => ret (mkOutcome [] false 0) | Err _ => stops [] 1 end
      end
  end.
(** What the process leaves, exited early or not. *)
Definition run (vars : gmap string string) (arguments : list string) : M Empty_set Outcome :=
  let! r := attempt (main vars arguments) in
  ret (match r with Ok o => o | Err o => o end).
End Commands.

(* ------------------------------------------------------------------ *)
(** ** What the caller of a command is told *)

Section Told.
Context `{EV : Env} `{UL : UuidLib} `{TL : TimeLib} `{ML : MimeLib} `{SL : ShaLib} `{ZL : ZstdLib} `{JL : JsonLib}
  `{FS : FileStamps} `{SC : SqliteChecks} `{SA : SocketAddrs} `{HO : Host} `{SQ : SqliteFiles} `{BJ : BackupJson} `{GA : Gate} `{CO : Console}.

Definition refused (codes : list Line) (o : Outcome) : Prop :=
  exit_code o = 2 /\ usage_on_stderr o = false /\ exists l, l ∈ codes /\ stdout o = [l].
Definition verdict (line : Line) (rep : IntegrityReport) (o : Outcome) : Prop :=
  stdout o = [line] /\ usage_on_stderr o = false
  /\ ((exit_code o = 0 /\ rep_status rep = Healthy) \/ (exit_code o = 1 /\ rep_status rep <> Healthy)).
Definition backup_refusals (code : string) : list Line :=
  [BackupFailed code; ScannerFailed "configuration_error"; ScannerFailed "backup_report_serialization_error"].
Definition scan_refusals : list Line :=
  ScannerFailed <$> ["configuration_error"; "bootstrap_error"; "scan_error"; "report_serialization_error"]%string.

(** The outcome of a command on the store [s], which becomes [s']. *)
Definition told (vars : gmap string string) (arguments : list string) (s : Store) (o : Outcome) (s' : Store) : Prop :=
  match command arguments with
  | Help => s' = s /\ o = mkOutcome [UsageText] false 0
  | PrintVersion => s' = s /\ o = mkOutcome [VersionText CARGO_PKG_VERSION] false 0
  | UnknownCommand => s' = s /\ o = mkOutcome [ScannerFailed "invalid_command"] true 2
  | Serve => stdout o = [] /\ usage_on_stderr o = false
      /\ (exit_code o = 1 \/ (exit_code o = 0 /\ exists c, from_env vars = Ok c))
      /\ (forall e, from_env vars = Err e -> s' = s /\ exit_code o = 1)
  | Verify => files s' = files s /\ (refused scan_refusals o
      \/ exists c rep, from_env vars = Ok c /\ scanned c (db s) (files s) rep (db s') /\ verdict (IntegrityLine rep) rep o)
  | BackupCreate output => db s' = db s /\ kept (locate output) (files s) (files s')
      /\ (refused (backup_refusals "backup_create_failed") o
          \/ exists c m, from_env vars = Ok c /\ written (files s) (locate (Config.data_dir c)) (db s) (locate output) m (files s')
               /\ o = mkOutcome [CreateLine (result_of m)] false 0)
  | BackupVerify directory => db s' = db s /\ preserved (leftover (parent (locate directory))) (files s) (files s')
      /\ (refused (backup_refusals "backup_verify_failed") o
          \/ exists c m g rep fs, from_env vars = Ok c /\ backup_at (files s) (locate directory) m
               /\ surveyed_copy c (files s) (locate directory) g m rep fs /\ verdict (VerifyLine (verification_of m rep)) rep o)
  | BackupRestore directory data_dir => db s' = db s /\ replaced (locate directory) (locate data_dir) (files s) (files s')
      /\ (refused (backup_refusals "backup_restore_failed") o
          \/ exists c m rep, from_env vars = Ok c /\ validate (set_data_dir data_dir c) = Ok tt
               /\ backup_at (files s) (locate directory) m /\ rep_status rep = Healthy
               /\ restored_at (set_data_dir data_dir c) (files s) (locate directory) (locate data_dir) m rep (files s')
               /\ o = mkOutcome [RestoreLine (mkRestoreResult (bm_archive_instance_id m) (bm_owner_namespace m)
                                                (Z.of_nat (length (bm_blobs m))) rep)] false 0)
  end.
Definition both (Q : Outcome -> Store -> Prop) (r : res Outcome Outcome) (s' : Store) : Prop := Q (match r with Ok o => o | Err o => o end) s'.
Lemma wp_ends (Q : Outcome -> Store -> Prop) o s : Q o s -> wp (ret o) (both Q) s.
Proof. intros H. by apply wp_ret. Qed.
Lemma wp_stops (Q : Outcome -> Store -> Prop) o s : Q o s -> wp (throw o) (both Q) s.
Proof. intros H. by apply wp_throw. Qed.
Lemma wp_whatever {E A} (m : M E A) (Q : res E A -> Store -> Prop) s : (forall r s', Q r s') -> wp m Q s.
Proof. intros H n. exact (H _ _). Qed.

Lemma refused_in codes l : l ∈ codes -> refused codes (mkOutcome [l] false 2).
Proof. intros Hl. split_and!; [done..|]. by exists l. Qed.
Lemma wp_print_json value code (k : list Line -> M Outcome Outcome) (Q : Outcome -> Store -> Prop) s :
  wp (k [value]) (both Q) s -> Q (mkOutcome [ScannerFailed code] false 2) s -> wp (let! lines := print_json value code in k lines) (both Q) s.
Proof. intros H1 H2. apply wp_bind. unfold print_json. destruct (serializes value); [by apply wp_ret|by apply wp_throw]. Qed.
Lemma wp_backup_config vars (k : Config -> M Outcome Outcome) (Q : Outcome -> Store -> Prop) s :
  (forall c, from_env vars = Ok c -> wp (k c) (both Q) s) -> Q (mkOutcome [ScannerFailed "configuration_error"] false 2) s ->
  wp (let! config := backup_config vars in k config) (both Q) s.
Proof. intros H1 H2. apply wp_bind. unfold backup_config. destruct (from_env vars) as [c|e]; [by apply wp_ret, H1|by apply wp_throw]. Qed.
Lemma verdict_of line rep code : code = (if healthy rep then 0 else 1) -> verdict line rep (mkOutcome [line] false code).
Proof. intros ->. split_and!; [done..|]. unfold healthy. cbn. destruct (rep_status rep); auto. Qed.
Lemma codes_in (code : string) : BackupFailed code ∈ backup_refusals code /\ ScannerFailed "configuration_error" ∈ backup_refusals code
  /\ ScannerFailed "backup_report_serialization_error" ∈ backup_refusals code.
Proof. unfold backup_refusals. set_solver. Qed.
Lemma kept_refl output fs : kept output fs fs.
Proof. by apply (created_same (fun m => m) [] output (mkStore empty_db fs 0) BackupError.Storage). Qed.
Lemma replaced_refl b dst fs : replaced b dst fs fs.
Proof. split; [by left|congruence]. Qed.

Lemma backup_create_told vars output s : wp (backup_create vars output) (both (fun o s' => db s' = db s /\ kept (locate output) (files s) (files s')
  /\ (refused (backup_refusals "backup_create_failed") o
      \/ exists c m, from_env vars = Ok c /\ written (files s) (locate (Config.data_dir c)) (db s) (locate output) m (files s')
           /\ o = mkOutcome [CreateLine (result_of m)] false 0))) s.
Proof.
  destruct (codes_in "backup_create_failed") as (Ib & Ic & Is). unfold backup_create. apply wp_backup_config.
  2: { split_and!; [done|apply kept_refl|]. left. by apply refused_in. }
  intros c Ec. apply wp_bind, wp_attempt. eapply wp_mono; [|apply create_all_or_nothing_spec]. intros r s' (D & K & H). cbn [then_wp].
  destruct r as [a|e].
  - destruct H as [(m & Hw & Ha)|[Hno _]]; [|by destruct (Hno a)]. rewrite (Ha a eq_refl). apply wp_print_json.
    + apply wp_ends. split_and!; [done..|]. right. by exists c, m.
    + split_and!; [done..|]. left. by apply refused_in.
  - apply wp_stops. split_and!; [done..|]. left. by apply refused_in.
Qed.
Lemma backup_verify_told vars directory s : wp (backup_verify vars directory) (both (fun o s' => db s' = db s
  /\ preserved (leftover (parent (locate directory))) (files s) (files s')
  /\ (refused (backup_refusals "backup_verify_failed") o
      \/ exists c m g rep fs, from_env vars = Ok c /\ backup_at (files s) (locate directory) m
           /\ surveyed_copy c (files s) (locate directory) g m rep fs /\ verdict (VerifyLine (verification_of m rep)) rep o))) s.
Proof.
  destruct (codes_in "backup_verify_failed") as (Ib & Ic & Is). unfold backup_verify. apply wp_backup_config.
  2: { split_and!; [done|apply preserved_refl|]. left. by apply refused_in. }
  intros c Ec. apply wp_bind, wp_attempt. eapply wp_mono; [|apply verify_spec]. intros r s' (D & K & H). cbn [then_wp].
  destruct r as [v|e].
  - destruct (H v eq_refl) as (m & g & rep & fs & Hb & Hc & ->). apply wp_print_json.
    + apply wp_ends. split_and!; [done..|]. right. exists c, m, g, rep, fs. split_and!; [done..|]. by apply verdict_of.
    + split_and!; [done..|]. left. by apply refused_in.
  - apply wp_stops. split_and!; [done..|]. left. by apply refused_in.
Qed.
Lemma backup_restore_told vars directory data_dir s : wp (backup_restore vars directory data_dir) (both (fun o s' => db s' = db s
  /\ replaced (locate directory) (locate data_dir) (files s) (files s')
  /\ (refused (backup_refusals "backup_restore_failed") o
      \/ exists c m rep, from_env vars = Ok c /\ validate (set_data_dir data_dir c) = Ok tt
           /\ backup_at (files s) (locate directory) m /\ rep_status rep = Healthy
           /\ restored_at (set_data_dir data_dir c) (files s) (locate directory) (locate data_dir) m rep (files s')
           /\ o = mkOutcome [RestoreLine (mkRestoreResult (bm_archive_instance_id m) (bm_owner_namespace m)
                                            (Z.of_nat (length (bm_blobs m))) rep)] false 0))) s.
Proof.
  destruct (codes_in "backup_restore_failed") as (Ib & Ic & Is). unfold backup_restore.
  assert (Hstop : forall l, l ∈ backup_refusals "backup_restore_failed" -> db s = db s
    /\ replaced (locate directory) (locate data_dir) (files s) (files s) /\ refused (backup_refusals "backup_restore_failed") (mkOutcome [l] false 2)).
  { intros l Hl. split_and!; [done|apply replaced_refl|by apply refused_in]. }
  apply wp_backup_config; [|destruct (Hstop _ Ic) as (? & ? & ?); auto]. intros c Ec. cbn zeta.
  destruct (validate (set_data_dir data_dir c)) as [[]|e] eqn:Ev; [|apply wp_stops; destruct (Hstop _ Ic) as (? & ? & ?); auto].
  apply wp_bind, wp_attempt. eapply wp_mono; [|apply restore_all_or_nothing_spec]. intros r s' (D & K & H). cbn [then_wp].
  destruct r as [a|e].
  - destruct H as [(m & rep & Hb & _ & Hat & Hh & Ha)|[Hno _]]; [|by destruct (Hno a)]. rewrite (Ha a eq_refl). apply wp_print_json.
    + apply wp_ends. split_and!; [done..|]. right. by exists c, m, rep.
    + split_and!; [done..|]. left. by apply refused_in.
  - apply wp_stops. split_and!; [done..|]. left. by apply refused_in.
Qed.
Lemma verify_told vars s : wp (verify vars) (both (fun o s' => files s' = files s /\ (refused scan_refusals o
  \/ exists c rep, from_env vars = Ok c /\ scanned c (db s) (files s) rep (db s') /\ verdict (IntegrityLine rep) rep o))) s.
Proof.
  assert (Hin : forall code, code ∈ ["configuration_error"; "bootstrap_error"; "scan_error"; "report_serialization_error"]%string ->
    refused scan_refusals (mkOutcome [ScannerFailed code] false 2)) by (intros code Hc; by apply refused_in, list_elem_of_fmap_2).
  unfold verify. destruct (from_env vars) as [c|e] eqn:Ec; [|apply wp_stops; split; [done|]; left; apply Hin; set_solver].
  apply wp_bind, wp_attempt. eapply wp_mono; [|apply bootstrap_for_integrity_spec]. intros r s1 [E1 H1]. cbn [then_wp].
  destruct r as [[st identity]|e]; [|apply wp_stops; split; [done|]; left; apply Hin; set_solver].
  apply wp_bind, wp_attempt. eapply wp_mono; [|exact (verify_integrity_spec c s st identity s1 (H1 _ _ eq_refl))].
  intros r s2 [E2 H2]. cbn [then_wp]. assert (E : files s2 = files s) by congruence.
  destruct r as [rep|e]; [|apply wp_stops; split; [done|]; left; apply Hin; set_solver].
  destruct (H2 rep eq_refl) as [_ Hsn]. rewrite E1 in Hsn. apply wp_print_json.
  - apply wp_ends. split; [done|]. right. exists c, rep. split_and!; [done..|]. by apply verdict_of.
  - split; [done|]. left. apply Hin. set_solver.
Qed.

(** C34: the exit code and standard output tell the truth, whatever the
    arguments, the environment and the failures.  The service prints nothing and
    exits with 0 when it ended by itself and with 1 otherwise, at once and with
    the store untouched when its configuration is invalid.  Help and the version
    print their text and exit with 0, and touch nothing.  An unknown command
    prints the line of [invalid_command], with the usage on standard error, and
    exits with 2.  The four others print exactly one line.  [backup create] exits
    with 0 only when the complete backup is at its output, [backup restore] only
    when the archive of the backup is at its destination with a healthy survey;
    [verify] and [backup verify] exit with 0 on a healthy report and with 1 on any
    other, which is then the report of a scan of just this archive.  Otherwise
    these four exit with 2 and the line of one of the codes listed for the command
    ([scan_refusals], [backup_refusals]). *)
Theorem run_tells vars arguments s :
  wp (run vars arguments) (fun r s' => exists o, r = Ok o /\ told vars arguments s o s') s.
Proof.
  unfold run. apply wp_bind, wp_attempt. cbn [then_wp].
  assert (Hgo : wp (main vars arguments) (both (told vars arguments s)) s).
  { unfold main, told. destruct (command arguments).
    - destruct (from_env vars) as [c|e] eqn:Ec; [|apply wp_stops; split_and!; auto].
      apply wp_bind, wp_attempt, wp_whatever. intros r s'. cbn [then_wp].
      destruct r; [apply wp_ends|apply wp_stops]; split_and!; eauto; done.
    - by apply wp_ends.
    - by apply wp_ends.
    - apply verify_told.
    - apply backup_create_told.
    - apply backup_verify_told.
    - apply backup_restore_told.
    - by apply wp_stops. }
  eapply wp_mono; [|exact Hgo]. intros [o|o] s' H; apply wp_ret; eauto.
Qed.
End Told.
