(* ===== verification/Drill.v ===== *)
(** A restore drill: the archive of the run is backed up, the backup validated
    and restored beside it. *)
From stdpp Require Import prelude strings gmap sorting list countable.
From Stdlib Require Import ZArith Ascii Lia.
From Stdlib.Strings Require Import Byte.
From S2P Require Import Prelude Errors Contract Externals Validation Chunks Fingerprint Pagination.
From S2P Require Import Config Tables Store Storage Uploads Completion Deletion Recovery Archive Download Delivery Integrity.
From S2P Require Import Restart Catalogue System Scanning Certification Apart Bootstrap Disk Scenario Backup Safekeeping Attestation Restoration Survival Resumption Feasibility Cli.

#[local] Existing Instances calendar_time calendar_laws counter_uuids counter_uuids_laws any_mime sum_sha sum_sha_laws
  magic_zstd demo_json demo_json_laws demo_stamps demo_checks text_addresses calm_env.

(* ------------------------------------------------------------------ *)
(** ** A byte form of manifests *)

(** A list of numbers as one, and a number as its binary digits. *)
Fixpoint digits (p : positive) : bytes :=
  match p with xH => [] | xO p => x30 :: digits p | xI p => x31 :: digits p end.
Fixpoint of_digits (b : bytes) : option positive :=
  match b with
  | [] => Some xH
  | x30 :: b => xO <$> of_digits b
  | x31 :: b => xI <$> of_digits b
  | _ => None
  end.
Lemma of_digits_digits p : of_digits (digits p) = Some p.
Proof. induction p as [p IH|p IH|]; simpl; rewrite ?IH; reflexivity. Qed.

Definition pack_entry (e : BlobInventoryEntry) : list positive := [encode (be_filename e); encode (be_sha256 e); encode (be_size_bytes e)].
Definition unpack_entry (l : list positive) : option BlobInventoryEntry :=
  match l with [a; b; c] => a ← decode a; b ← decode b; c ← decode c; Some (mkBlobEntry a b c) | _ => None end.
Definition pack_health (h : LatestIntegrityHealth) : list positive :=
  [encode (lh_run_id h); encode (lh_status h); encode (lh_started_at h); encode (lh_completed_at h); encode (lh_finding_count h);
   encode (lh_info_count h); encode (lh_warning_count h); encode (lh_error_count h)].
Definition unpack_health (l : list positive) : option LatestIntegrityHealth :=
  match l with
  | [a; b; c; d; e; f; g; h] => a ← decode a; b ← decode b; c ← decode c; d ← decode d; e ← decode e; f ← decode f; g ← decode g;
      h ← decode h; Some (mkHealth a b c d e f g h)
  | _ => None
  end.
Definition pack_manifest (m : BackupManifest) : list positive :=
  [encode (bm_backup_format_version m); encode (bm_created_at m); encode (bm_archive_instance_id m); encode (bm_owner_namespace m);
   encode (bm_archive_created_at m); encode (bm_application_version m); encode (bm_schema_version m); encode (bf_filename (bm_sqlite m));
   encode (bf_sha256 (bm_sqlite m)); encode (bf_size_bytes (bm_sqlite m)); encode (pack_entry <$> bm_blobs m);
   encode (pack_health <$> bm_latest_integrity_health m)].
Definition unpack_manifest (l : list positive) : option BackupManifest :=
  match l with
  | [a; b; c; d; e; f; g; h; i; j; k; l] =>
      a ← decode a; b ← decode b; c ← decode c; d ← decode d; e ← decode e; f ← decode f; g ← decode g; h ← decode h; i ← decode i;
      j ← decode j; k ← decode k; k ← mapM unpack_entry k; l ← decode l;
      match l with
      | None => Some (mkBackupManifest a b c d e f g (mkBackupFile h i j) k None)
      | Some x => x ← unpack_health x; Some (mkBackupManifest a b c d e f g (mkBackupFile h i j) k (Some x))
      end
  | _ => None
  end.
Lemma unpack_pack_entry e : unpack_entry (pack_entry e) = Some e.
Proof. destruct e. unfold unpack_entry, pack_entry. by rewrite !decode_encode. Qed.
Lemma unpack_pack_health h : unpack_health (pack_health h) = Some h.
Proof. destruct h. unfold unpack_health, pack_health. rewrite !decode_encode. reflexivity. Qed.
Lemma unpack_pack_manifest m : unpack_manifest (pack_manifest m) = Some m.
Proof.
  destruct m as [a b c d e f g [h i j] k l]. unfold unpack_manifest, pack_manifest.
  repeat (rewrite decode_encode; cbn [mbind option_bind bm_backup_format_version bm_created_at bm_archive_instance_id bm_owner_namespace
    bm_archive_created_at bm_application_version bm_schema_version bm_sqlite bm_blobs bm_latest_integrity_health bf_filename bf_sha256 bf_size_bytes]).
  assert (E : mapM unpack_entry (pack_entry <$> k) = Some k).
  { apply mapM_Some. induction k; constructor; [apply unpack_pack_entry|done]. }
  rewrite E. cbn [mbind option_bind]. destruct l as [x|]; cbn [mbind option_bind fmap option_fmap option_map]; [|done].
  by rewrite unpack_pack_health.
Qed.
#[local] Instance digits_json : BackupJson := {
  to_vec_pretty m := digits (encode (pack_manifest m));
  from_slice b := p ← of_digits (take (pred (length b)) b); l ← decode p; unpack_manifest l;
}.
#[local] Instance digits_json_laws : BackupJsonLaws digits_json.
Proof.
  split. intros m _. simpl. rewrite length_app. simpl. rewrite Nat.add_1_r. cbn [pred]. rewrite take_app_length, of_digits_digits.
  cbn [mbind option_bind]. rewrite decode_encode. cbn [mbind option_bind]. apply unpack_pack_manifest.
Qed.

(* ------------------------------------------------------------------ *)
(** ** The host *)

#[local] Instance one_disk : Host := {| resolves _ := false; device _ := 0 |}.
#[local] Instance free_gate : Gate := {| gate_refuses _ := None |}.
Definition source_dir : path := ["srv"; "data"]%string.
Definition backup_dir : path := ["srv"; "backup"]%string.
Definition restored_dir : path := ["srv"; "again"]%string.
(** The file of a database tells how many scans it has seen; that of the
    archived run is its own. *)
#[local] Instance run_files : SqliteFiles := {|
  image _ d := repeat x01 (S (length (integrity_runs d)));
  load c := if bool_decide (c = [x01]) then Some (db archived) else None;
  latest_migration := Some 10;
|}.
Definition host_store : Store :=
  mkStore (db archived)
    (<[source_dir ++ [DATABASE_FILE_NAME] := Regular [x01]]> (<[source_dir ++ ["maintenance"%string] := Directory]>
      (graft source_dir (files archived) ∅))) (drawn archived).

Definition creating := create source_dir backup_dir (host_store, 0%nat).
Definition validating := validate_backup backup_dir creating.2.
Definition drilling := (create source_dir backup_dir &; restore backup_dir restored_dir demo_config) (host_store, 0%nat).
Lemma creating_ok : (match creating.1 with Ok a => Some (cr_blob_count a) | Err _ => None end) = Some 2.
Proof. vm_compute. reflexivity. Qed.
Lemma drilling_ok : (match drilling.1 with Ok a => Some (br_blob_count a) | Err _ => None end) = Some 2.
Proof. vm_compute. reflexivity. Qed.

(** The same from the command line. *)
#[local] Instance plain_console : Console := {|
  locate text := match of_chars <$> split_on "/" (chars text) with ""%string :: p => p | p => p end;
  serializes _ := true;
|}.
Definition outcome (arguments : list string) : option (list Line * Z) :=
  match (run {["PATWARI_DATA_DIR" := "/srv/data"]}%string arguments (host_store, 0%nat)).1 with Ok o => Some (stdout o, exit_code o) | Err _ => None end.
Example outcome_create : (let o := outcome ["backup"; "create"; "--output"; "/srv/backup"]%string in
  (snd <$> o, match o with Some ([CreateLine r], _) => Some (cr_blob_count r) | _ => None end)) = (Some 0, Some 2).
Proof. vm_compute. reflexivity. Qed.
Example outcome_inside : outcome ["backup"; "create"; "--output"; "/srv/data/backup"]%string = Some ([BackupFailed "backup_create_failed"], 2).
Proof. vm_compute. reflexivity. Qed.
Example outcome_unknown : outcome ["backup"; "create"; "/srv/backup"]%string = Some ([ScannerFailed "invalid_command"], 2).
Proof. vm_compute. reflexivity. Qed.

(* ------------------------------------------------------------------ *)
(** ** The theorems on the drill *)

Lemma host_identity : head (archive_metadata (db host_store)) = Some demo_identity.
Proof. vm_compute. reflexivity. Qed.
Lemma host_unscanned : integrity_runs (db host_store) = [].
Proof. vm_compute. reflexivity. Qed.
Lemma host_loads n : load (image n (db host_store)) = Some (db host_store).
Proof.
  vm_compute. reflexivity.
Qed.
Lemma host_source_sound : source_sound (db host_store).
Proof.
  split.
  - rewrite host_identity. intros identity E. apply (inj Some) in E as <-. split_and!; [by vm_compute|done..].
  - apply (bool_decide_unpack _). vm_compute. exact I.
  - intros v [= <-]. unfold i64_max. lia.
  - rewrite host_unscanned. by intros r ?%elem_of_nil.
  - intros t x Ht ->. apply parse_format in Ht. by vm_compute in Ht.
Qed.
Lemma creating_result : exists a s k, create source_dir backup_dir (host_store, 0%nat) = (Ok a, (s, k)).
Proof.
  pose proof creating_ok as E. unfold creating in E. destruct (create source_dir backup_dir (host_store, 0%nat)) as [[a|e] [s k]]; [eauto|done].
Qed.
Lemma created_backup_validates_witness : exists m, manifest_bytes m <= MAX_MANIFEST_BYTES /\ backup_at (files creating.2.1) backup_dir m.
Proof.
  pose proof (created_backup_validates source_dir backup_dir host_store host_source_sound 0%nat) as H.
  assert (E : exists a, creating.1 = Ok a) by (destruct creating_result as (a & s & k & E); exists a; unfold creating; by rewrite E).
  destruct E as [a E]. destruct (H a E) as (m & _ & Hm). destruct (Z.leb_spec (manifest_bytes m) MAX_MANIFEST_BYTES) as [Hz|Hz].
  - exists m. split; [exact Hz|apply Hm].
  - exfalso. specialize (Hm creating.2.2). fold creating in Hm. destruct Hm as [_ Hm]. revert Hm. vm_compute. discriminate.
Defined.
Lemma restored_backup_is_archive_witness : exists a, drilling.1 = Ok a
  /\ archive_again source_dir host_store restored_dir (files drilling.2.1) /\ rep_status (br_integrity a) = Healthy
  /\ br_archive_instance_id a = ArchiveMetadata.archive_instance_id demo_identity.
Proof.
  assert (Hl : forall n, load (image n (db host_store)) = Some (db host_store)).
  { intros n. exact (host_loads n). }
  pose proof (restored_backup_is_archive source_dir backup_dir restored_dir demo_config host_store host_source_sound Hl 0%nat) as H.
  unfold wp in H. destruct H as [_ H]. fold drilling in H.
  assert (E : exists a, drilling.1 = Ok a).
  { pose proof drilling_ok as E. destruct drilling.1 as [a|e]; [by exists a|done]. }
  destruct E as [a E]. destruct (H a E) as (H1 & H2 & _ & identity & Hi & H3 & _). exists a. split_and!; [exact E|exact H1|exact H2|].
  rewrite host_identity in Hi. apply (inj Some) in Hi as <-. exact H3.
Defined.

Lemma host_holds q x : files archived !! q = Some x -> files host_store !! (source_dir ++ q) = Some x.
Proof.
  revert q x. change (map_Forall (fun q x => files host_store !! (source_dir ++ q) = Some x) (files archived)).
  apply (bool_decide_unpack _). vm_compute. exact I.
Qed.
Lemma host_row : archive_metadata (db host_store) = [demo_identity].
Proof. vm_compute. reflexivity. Qed.
Lemma host_db : db host_store = db archived.
Proof. vm_compute. reflexivity. Qed.
Lemma restored_archive_resumes_witness : exists n d,
  files drilling.2.1 !! (restored_dir ++ [DATABASE_FILE_NAME]) = Some (Regular (image n d))
  /\ restartable demo_state (service_at restored_dir d (drawn archived) (files drilling.2.1)) /\ catalogue d = catalogue (db archived).
Proof.
  assert (Hn : named (db host_store)) by (right; exists demo_identity; split; [exact host_row|reflexivity]).
  pose proof (restored_archive_resumes demo_state demo_config source_dir backup_dir restored_dir demo_config archived host_store
    demo_limits_typed eq_refl reachable_archived host_db host_holds host_source_sound Hn host_loads demo_config_typed 0%nat) as H.
  unfold wp in H. fold drilling in H. assert (E : exists a, drilling.1 = Ok a).
  { pose proof drilling_ok as E. destruct drilling.1 as [a|e]; [by exists a|done]. }
  destruct E as [a E]. destruct (H a E) as (n & d & Hdb & Hk). exists n, d. destruct (Hk (drawn archived) (le_n _)) as (H1 & H2 & _).
  split_and!; [exact Hdb|exact H1|exact H2].
Defined.

(** The host is ready for a backup. *)
Definition row_filed (row : Blob.row) : bool :=
  match validate_raw_digest (Blob.stored_sha256 row), files host_store !! (source_dir ++ blob_path (Blob.stored_sha256 row)) with
  | Some dg, Some (Regular c) => eqs dg (Blob.stored_sha256 row) && (byte_len c =? Blob.stored_size_bytes row)
      && eqs (sha256_hex c) (Blob.stored_sha256 row) && (byte_len c <=? u64_max)
  | _, _ => false
  end.
Lemma row_filed_true row : row_filed row = true -> validate_raw_digest (Blob.stored_sha256 row) = Some (Blob.stored_sha256 row)
  /\ 0 <= Blob.stored_size_bytes row /\ exists c, files host_store !! (source_dir ++ blob_path (Blob.stored_sha256 row)) = Some (Regular c)
       /\ measures c (Blob.stored_size_bytes row) (Blob.stored_sha256 row) /\ byte_len c <= u64_max.
Proof.
  unfold row_filed. destruct (validate_raw_digest _) as [dg|]; [|done]. destruct (files host_store !! _) as [[c| |]|]; try done.
  intros [[[->%eqs_true <-%Z.eqb_eq]%andb_true_iff Hd%eqs_true]%andb_true_iff Hu%Z.leb_le]%andb_true_iff.
  split_and!; [done|apply Nat2Z.is_nonneg|]. exists c. by split_and!.
Qed.
Lemma host_names p x : files host_store !! p = Some x -> p !! 1%nat = Some "data"%string.
Proof.
  revert p x. change (map_Forall (fun p (_ : Entry) => p !! 1%nat = Some "data"%string) (files host_store)).
  apply (bool_decide_unpack _). vm_compute. exact I.
Qed.
Lemma host_image n : image n (db host_store) = [x01].
Proof. vm_compute. reflexivity. Qed.
Lemma host_ready : ready source_dir backup_dir host_store.
Proof.
  split.
  - discriminate.
  - vm_compute. reflexivity.
  - intros uuid. unfold staging_name. cbn. discriminate.
  - intros uuid q. destruct (files host_store !! _) as [x|] eqn:E; [|done]. apply host_names in E. cbn in E. discriminate.
  - intros q Hq [k E]%bool_decide_eq_true. left. destruct q as [|a [|b q]]; [done| |done]. injection E as <- _. vm_compute. reflexivity.
  - vm_compute. reflexivity.
  - exists [x01]. vm_compute. reflexivity.
  - vm_compute. reflexivity.
  - vm_compute. reflexivity.
  - vm_compute. reflexivity.
  - exists demo_identity. exact host_identity.
  - by exists 10.
  - intros row. unfold latest_run. rewrite host_unscanned. done.
  - apply (bool_decide_unpack _). vm_compute. exact I.
  - intros row Hin. apply row_filed_true. assert (Hall : forallb row_filed (blobs (db host_store)) = true) by (vm_compute; reflexivity).
    rewrite forallb_forall in Hall. exact (Hall row (proj1 (list_elem_of_In _ _) Hin)).
  - intros n. change (byte_len (image n (db host_store)) <= u64_max). rewrite host_image. vm_compute. discriminate.
Qed.
Lemma create_succeeds_witness : exists m, creating.1 = Ok (result_of m)
  /\ written (files host_store) source_dir (db host_store) backup_dir m (files creating.2.1).
Proof.
  assert (Ht : forall k, is_Some (format_rfc3339 (clock k))) by (intros k; eexists; vm_compute; reflexivity).
  exact (create_succeeds source_dir backup_dir host_store (fun _ => eq_refl) (fun _ => eq_refl) Ht host_ready 0%nat).
Defined.
